(* ===== verification/_CoqProject ===== *)
-Q . S2P
Prelude.v
Generators.v
OpenFlow.v
Devices.v
Sample.v
FlowDecomposer.v
DeviceGraph.v
LogicalDeviceAgent.v
LogicalDeviceProofs.v
DeviceAgent.v
EventBus.v
MessageQueue.v
IndexPool.v
IdGeneration.v
MibDb.v
OmciEntities.v
ConfigRev.v
Merge3way.v
Merge3wayProofs.v
ConfigNode.v
ConfigRoot.v
ConfigSample.v
ConfigProofs.v
TaskRunner.v
RunnerApi.v
MibSync.v
MibSyncProofs.v
OmciTasks.v
OmciTasksProofs.v
OmciCC.v
OmciCCProofs.v
OmciClasses.v
Coordination.v
Leader.v
Worker.v
Coordinator.v
LeaderProofs.v
CoordinationProofs.v
MemberLoops.v
CoordinationSample.v
PonSim.v
PonSimProofs.v
PonSimSample.v
OpenOlt.v
OpenOltProofs.v
Dispatcher.v
DispatcherProofs.v
GlobalHandler.v
GlobalHandlerProofs.v
AdapterAgent.v
AdapterAgentProofs.v
AdapterAgentChildren.v
AdapterAgentLogical.v
AdapterAgentSample.v
LocalHandler.v
LocalHandlerProofs.v
LocalHandlerSample.v
