(* ===== verification/Prelude.v ===== *)
(** * A verification development for the Voltha core

    Voltha presents an access network (an OLT and its ONUs) as one OpenFlow
    switch.  The core keeps its state in a tree of protobuf messages, which
    clients and device adapters change through proxies.  A flow-mod for the
    logical switch is written to the logical device's node; its agent rewrites
    the logical flows into flows of the individual devices along the routes
    through the device graph, and writes them to the device nodes; the device
    agents hand them, and changes of the admin state, to the adapters.  An
    adapter reaches the core through its adapter agent, and the ONUs behind an
    OLT through messages that agents pass on; ONUs are managed with OMCI, whose
    database is kept in step by state machines that run tasks on the ONU's
    channel.  Several instances form a cluster: they meet in Consul, elect a
    leader that gives each a core store, and their dispatchers send requests to
    the instance that owns the device.

    ** Parts, files and sources (under src/)

    - Shared: Prelude.v (this file) has exceptions and results, the state and
      exception monad [M] with its Hoare-style rules, dictionaries, records,
      Deferreds, widths.  Generators.v has Twisted's [inlineCallbacks].
      Devices.v has the device messages, Sample.v a sample network for the
      witnesses.
    - voltha/core/flow_decomposer.py: OpenFlow.v (messages, builders,
      extractors, conversions) and FlowDecomposer.v ([decompose_rules] and
      [decompose_flow], branch by branch).  The methods a decomposer is derived
      with are the class [FlowDecomposerOps]; [FlowDecomposerSpec] states what
      they promise, and LogicalDeviceProofs.v discharges it for the agent.
    - voltha/core/device_graph.py: DeviceGraph.v.  networkx's [shortest_path]
      is the class [ShortestPath] with its contract; the breadth-first search
      [ref_path] is an instance.
    - voltha/core/logical_device_agent.py: LogicalDeviceAgent.v (state [lda],
      every handler) and LogicalDeviceProofs.v.
    - voltha/core/device_agent.py: DeviceAgent.v, over a heap of device
      objects that the tree, the agent and the adapter share.
    - voltha/core/adapter_agent.py: AdapterAgent.v (the agents of all adapters
      over one tree, event bus and table of device agents: [aworld]);
      AdapterAgentProofs.v (ports), AdapterAgentChildren.v (child devices,
      messages), AdapterAgentLogical.v (logical devices, alarms),
      AdapterAgentSample.v.
    - voltha/core/config: ConfigRev.v (messages, schema, the heap [world],
      revisions, storing; config_rev.py, config_rev_persisted.py,
      config_branch.py), Merge3way.v (merge_3way.py), ConfigNode.v
      (config_node.py: get, update, add, remove, branches, tags, proxies,
      loading), ConfigRoot.v (config_root.py, config_proxy.py, config_txn.py,
      config_event_bus.py); ConfigSample.v has a sample schema and tree,
      Merge3wayProofs.v and ConfigProofs.v the theorems.
    - voltha/core/dispatcher.py and global_handler.py: Dispatcher.v,
      DispatcherProofs.v, GlobalHandler.v, GlobalHandlerProofs.v.  gRPC and the
      local handler are the class [Rpc], protobuf messages the class
      [Messages].
    - voltha/core/local_handler.py: LocalHandler.v (over the tree of
      AdapterAgent.v; what callbacks on the tree, agents and adapters do when the
      handler writes or calls is a parameter), LocalHandlerProofs.v,
      LocalHandlerSample.v.
    - voltha/coordinator.py, leader.py, worker.py: Coordination.v (their common
      state, the reactor, the proxies for the store), Leader.v, Worker.v,
      Coordinator.v (with all generators under way as threads); LeaderProofs.v,
      CoordinationProofs.v, MemberLoops.v and CoordinationSample.v.
    - common: EventBus.v (event_bus.py), MessageQueue.v, IndexPool.v and
      IdGeneration.v (utils).
    - voltha/extensions/omci: MibDb.v (database/mib_db_dict.py), OmciEntities.v
      and OmciClasses.v (omci_entities.py, omci_messages.py, me_frame.py),
      TaskRunner.v (tasks/task_runner.py) behind the interface of RunnerApi.v,
      OmciTasks.v and OmciTasksProofs.v (the tasks), OmciCC.v and
      OmciCCProofs.v (omci_cc.py), MibSync.v and MibSyncProofs.v
      (state_machines, onu_device_entry.py).
    - voltha/adapters/openolt: OpenOlt.v, OpenOltProofs.v.
    - ponsim/ponsim.py: PonSim.v, PonSimProofs.v, PonSimSample.v.

    A Python class is a record for its attributes and one definition per
    method, with the method's name where Rocq allows it.  Attributes that hold
    shared objects are references into a heap.  Code of libraries and of the
    users of a component (adapters, callbacks, digests, regular expressions,
    uuids, gRPC, Consul's answers, scapy's fields) is a parameter; what a theorem
    needs of it is a class or a named hypothesis, and each has an instance.  A
    [dict] that is iterated over has its order from the class [DictOrder], so
    that no theorem depends on it.  An Err carries the exception that escapes;
    writes made before it stay.  Where generators of several objects interleave,
    the state has the calls that the reactor has yet to make, in any order.
    Logging is left out.

    ** What the theorems show

    - Flow decomposition: every device flow lies on a hop of the route, from
      one of its ports to the other; controller-bound and unicast flows give
      exactly the flows expected; merging is by flow id, default rules first,
      whatever the dictionary order, and the first flow of an id is kept; fields
      stay within their widths.
    - Routes: the graph is built in bounded recursion; routes are sound, and
      complete on a single fan-out network.
    - Logical device agent: flow and group tables keep distinct entries through
      every flow-mod and group-mod; device tables follow the logical table, and
      each of their flows goes from one port of its device to another; the nested
      updates for flows without a route end, and only such flows are lost.
    - Device agent: the adapter calls for each admin state transition that is not
      invalid, flow changes handed to an incremental adapter, image downloads.
    - Adapter agent: references between ports stay symmetric as long as ports are
      added with the peers they have and that exist; child devices are
      found, changed and deleted exactly; a proxied message reaches the agents
      that listen at its address and no other; logical devices get fresh ids
      that hold the MAC address; alarms are published unless a filter matches.
    - Local handler: whatever the rest of the core does, the requests themselves
      take a device through its admin states only as the device agent allows and
      keep addresses apart; the OpenFlow agent that
      renews its subscription keeps its session.
    - Configuration tree: work inside a transaction is invisible outside it; a
      commit that meets a conflict is atomic; the merge of keyed children is
      the three-way merge of maps, unless the children removed were reordered.
    - Cluster: the leader's assignment gives every member one store and keeps
      those of the members that stay, and what it writes is exactly that; at most one
      leader object is active, with
      exactly one loop that follows the members; the dispatcher's connections
      follow the peers and a request is served by the owner of its id, whose answer
      and status code the client gets.
    - Utilities: delivery by the event bus, order and exactness of the message
      queue, the index pool as a set, cluster ids that can be read back.
    - OMCI: the shape of the MIB database through any sequence of calls, and that
      what was set is what is read; frames that decode to what was encoded; an
      exclusive task runs alone and the runner drains its queue; each task fires
      its Deferred once whatever the ONU answers, and two MIBs are compared
      exactly; a request on the channel is answered once or times out; the
      synchronizer, unless stopped or asked for an audit with one scheduled, waits
      for exactly one thing, rests in step with audits switched off, or is stuck
      resynchronizing.
    - OpenOLT: identifiers that can be read back, flows of ONUs kept apart, ONU
      ids that are free.
    - Simulator: a frame is forwarded by the best flow, and the flows that the
      decomposer makes over the routes of the logical device agent, installed on
      ONU and OLT, treat a frame as the logical flows say: the composition of
      decomposition and forwarding.

    Defects found on the way are stated as theorems or evaluated examples
    next to the properties.

    ** Bounds

    Fuel is used where the recursion is not structural, and [OutOfFuel] is not
    an exception any handler catches.  Graph walks take one level per device;
    nested flow updates take one level per flow (both proved sufficient); paths
    are consumed by each step of a tree operation, so their length is enough;
    children have smaller references than their parents, so a revision's
    reference bounds the depth under it; messages and stored trees are bounded
    by the interpreter's recursion limit; deferred callbacks, which may queue
    further ones for ever, have an explicit budget.  The nesting of the task
    runner is bounded by a depth that is proved enough above the number of
    tasks; frames of the simulator nest two devices deep, which is proved; a
    generator of the coordinator that goes round a loop without waiting is
    followed for a given number of rounds ([loops]); a loop that removes from
    the list it goes over by index takes one step per element.

    ** Not modelled

    The adapters other than OpenOLT, the OpenFlow agent, the NETCONF server, the
    command line, and the gRPC, Kafka, Consul and etcd transports: device
    drivers, other processes and I/O (ofagent/loxi is generated).  The xPON
    handler and agent and the alarm filter agent forward requests to proxies and
    agents that are modelled; core.py makes and drops the agents.  The external MIB database
    keeps in the configuration tree what MibDb.v keeps in memory; the
    coordinator for etcd is the one for Consul over another client; the frame
    classes of OMCI, IGMP and EOAM are scapy declarations.  Of the configuration
    tree: garbage collection of revisions with the removal of their stored
    entries, and JSON patches.  Of the simulator the random alarms, of OpenOLT
    the handlers of indications that only call the adapter agent. *)
From stdpp Require Import base gmap list strings.
From Stdlib Require Import ZArith Lia.

(** ** Exceptions and results

    The Python sources signal failure by raising.  [exn] lists the exception
    classes the modelled code raises or lets escape; [OutOfFuel] is not a
    Python exception: it marks a run of a fuelled recursion whose fuel was too
    small, and no handler of the model catches it. *)
Inductive exn :=
  | AssertionError
  | AttributeError
  | TypeError
  | ValueError
  | KeyError
  | IndexError
  | LookupError
  | NotImplementedError
  | GenericException
  | NetworkXNoPath
  | MergeConflictException
  | InvalidStateTransition
  | ClosedTransactionError
  | DatabaseStateError
  | RuntimeError
  | MachineError
  | AlreadyCalledError
  | CancelledError
  | TimeoutError
  | TimeOutError
  | QueueOverflow
  | NameError
  | UnboundLocalError
  | AlreadyCalled
  | AlreadyCancelled
  | ConsulException
  | ConnectionError
  | DNSLookupError
  | StructError
  | OmciUninitializedFieldError
  | OmciInvalidTypeError
  | MibUploadFailure
  | MibCopyException
  | MibDownloadException
  | MibResyncException
  | GetCapabilitiesFailure
  | GetException
  | MacAddressError
  | IDError
  | OutOfFuel.

#[export] Instance exn_eq_dec : EqDecision exn.
Proof. solve_decision. Defined.

Inductive result (A : Type) :=
  | Ok (a : A)
  | Err (e : exn).
Arguments Ok {A} a.
Arguments Err {A} e.

#[export] Instance result_eq_dec `{EqDecision A} : EqDecision (result A).
Proof. solve_decision. Defined.

(** ** The state and exception monad

    A computation reads and writes a state and returns or raises; what was
    written before a [raise] stays written, as in Python. *)
Definition M (St A : Type) : Type := St → result A * St.

#[export] Instance M_ret St : MRet (M St) := λ A a s, (Ok a, s).
#[export] Instance M_bind St : MBind (M St) := λ A B f m s,
  match m s with
  | (Ok a, s') => f a s'
  | (Err e, s') => (Err e, s')
  end.

Definition raise {St A} (e : exn) : M St A := λ s, (Err e, s).
Definition gets {St A} (f : St → A) : M St A := λ s, (Ok (f s), s).
Definition modify {St} (f : St → St) : M St unit := λ s, (Ok tt, f s).

(** [assert b] *)
Definition passert {St} (b : bool) : M St unit :=
  if b then mret tt else raise AssertionError.

(** A pure computation that may raise, run in any state. *)
Definition lift {St A} (r : result A) : M St A := λ s, (r, s).

(** [None.attr]: using an absent value where an object is expected. *)
Definition from_some {St A} (e : exn) (o : option A) : M St A :=
  match o with Some a => mret a | None => raise e end.

(** [try: m except Exception: log] *)
Definition swallow {St} (m : M St unit) : M St unit := λ s,
  match m s with
  | (Err OutOfFuel, s') => (Err OutOfFuel, s')
  | (Err _, s') => (Ok tt, s')
  | r => r
  end.

(** [try: m except ...: h]; [h] raises again what it does not handle. *)
Definition try_except {St A} (m : M St A) (h : exn → M St A) : M St A := λ s,
  match m s with
  | (Err e, s') => h e s'
  | r => r
  end.

(** [try: m finally: f]: an exception of [f] replaces that of [m]. *)
Definition try_finally {St A} (m : M St A) (f : M St unit) : M St A := λ s,
  let '(r, s1) := m s in
  match f s1 with
  | (Ok _, s2) => (r, s2)
  | (Err e, s2) => (Err e, s2)
  end.

(** [for b in l: a = f(a, b)] *)
Fixpoint foldM {St A B} (f : A → B → M St A) (a : A) (l : list B) : M St A :=
  match l with
  | [] => mret a
  | b :: l => a' ← f a b; foldM f a' l
  end.

(** [for b in l: f(b)] *)
Fixpoint forM_ {St B} (f : B → M St unit) (l : list B) : M St unit :=
  match l with
  | [] => mret tt
  | b :: l => _ ← f b; forM_ f l
  end.

(** Running a computation of a component inside a larger state. *)
Definition zoom {S1 S2 A} (get : S1 → S2) (set : S2 → S1 → S1) (m : M S2 A)
    : M S1 A := λ s,
  let '(r, s') := m (get s) in (r, set s' s).

(** ** Hoare-style specifications of monadic code *)
Definition triple {St A} (P : St → Prop) (m : M St A)
    (Q : A → St → Prop) (E : exn → St → Prop) : Prop :=
  ∀ s, P s → match m s with
             | (Ok a, s') => Q a s'
             | (Err e, s') => E e s'
             end.

Create HintDb voltha.
Create Rewrite HintDb voltha.

Section triples.
Context {St : Type}.

Lemma triple_ret {A} (a : A) (P : St → Prop) Q E :
  (∀ s, P s → Q a s) → triple P (mret a) Q E.
Proof. intros H s Hs. apply H, Hs. Qed.

Lemma triple_raise {A} e (P : St → Prop) Q E :
  (∀ s, P s → E e s) → triple P (raise (A:=A) e) Q E.
Proof. intros H s Hs. apply H, Hs. Qed.

Lemma triple_gets {A} (f : St → A) (P : St → Prop) Q E :
  (∀ s, P s → Q (f s) s) → triple P (gets f) Q E.
Proof. intros H s Hs. apply H, Hs. Qed.

Lemma triple_modify (f : St → St) (P : St → Prop) Q E :
  (∀ s, P s → Q tt (f s)) → triple P (modify f) Q E.
Proof. intros H s Hs. apply H, Hs. Qed.

Lemma triple_bind {A B} (m : M St A) (k : A → M St B) P R Q E :
  triple P m R E → (∀ a, triple (R a) (k a) Q E) → triple P (m ≫= k) Q E.
Proof.
  intros Hm Hk s Hs. specialize (Hm s Hs). unfold mbind, M_bind.
  destruct (m s) as [[a|e] s']; [apply Hk|]; done.
Qed.

Lemma triple_conseq {A} (m : M St A) P P' Q Q' (E E' : exn → St → Prop) :
  triple P' m Q' E' → (∀ s, P s → P' s) →
  (∀ a s, Q' a s → Q a s) → (∀ e s, E' e s → E e s) → triple P m Q E.
Proof.
  intros Hm HP HQ HE s Hs. specialize (Hm s (HP s Hs)).
  destruct (m s) as [[a|e] s']; auto.
Qed.

Lemma triple_conj {A} (m : M St A) P P' Q Q' (E E' : exn → St → Prop) :
  triple P m Q E → triple P' m Q' E' →
  triple (λ s, P s ∧ P' s) m (λ a s, Q a s ∧ Q' a s) (λ e s, E e s ∧ E' e s).
Proof.
  intros H1 H2 s [Hs Hs']. specialize (H1 s Hs). specialize (H2 s Hs').
  destruct (m s) as [[a|e] s']; auto.
Qed.

Lemma triple_passert b (P : St → Prop) Q E :
  (∀ s, P s → b = true → Q tt s) → (∀ s, P s → b = false → E AssertionError s) →
  triple P (passert b) Q E.
Proof. intros H1 H2 s Hs. destruct b; [by apply H1|by apply H2]. Qed.

Lemma triple_lift {A} (r : result A) (P : St → Prop) Q E :
  (∀ a s, r = Ok a → P s → Q a s) → (∀ e s, r = Err e → P s → E e s) →
  triple P (lift r) Q E.
Proof. intros H1 H2 s Hs. destruct r; unfold lift; auto. Qed.

Lemma triple_from_some {A} e (o : option A) (P : St → Prop) Q E :
  (∀ a s, o = Some a → P s → Q a s) → (∀ s, o = None → P s → E e s) →
  triple P (from_some e o) Q E.
Proof. intros H1 H2 s Hs. destruct o; simpl; auto. Qed.

Lemma triple_foldM {A B} (I : A → St → Prop) (f : A → B → M St A) l a E :
  (∀ a b, b ∈ l → triple (I a) (f a b) I E) →
  triple (I a) (foldM f a l) I E.
Proof.
  revert a. induction l as [|b l IH]; intros a Hf; simpl.
  - by apply triple_ret.
  - eapply triple_bind; [apply Hf; set_solver|]. intros a'. apply IH.
    intros; apply Hf; set_solver.
Qed.

Lemma triple_forM {B} (I : St → Prop) (f : B → M St unit) l E :
  (∀ b, b ∈ l → triple I (f b) (λ _, I) E) →
  triple I (forM_ f l) (λ _, I) E.
Proof.
  induction l as [|b l IH]; intros Hf; simpl.
  - by apply triple_ret.
  - eapply triple_bind; [apply Hf; set_solver|]. intros u. apply IH.
    intros; apply Hf; set_solver.
Qed.

(** A loop whose invariant names the elements already visited. *)
Lemma triple_forM_prefix {B} (I : list B → St → Prop) (f : B → M St unit) l E :
  (∀ pre b post, l = pre ++ b :: post → triple (I pre) (f b) (λ _, I (pre ++ [b])) E) →
  triple (I []) (forM_ f l) (λ _, I l) E.
Proof.
  enough (∀ post pre, (∀ pre' b post', post = pre' ++ b :: post' →
      triple (I (pre ++ pre')) (f b) (λ _, I (pre ++ pre' ++ [b])) E) →
    triple (I pre) (forM_ f post) (λ _, I (pre ++ post)) E) as H.
  { intros Hf. apply (H l []). intros pre b post ->. by apply (Hf pre b post). }
  induction post as [|b post IH]; intros pre Hf; simpl.
  - rewrite app_nil_r. by apply triple_ret.
  - eapply triple_bind with (R := λ _, I (pre ++ [b])).
    + specialize (Hf [] b post eq_refl). by rewrite app_nil_r in Hf.
    + intros u. replace (pre ++ b :: post) with ((pre ++ [b]) ++ post) by (by rewrite <- app_assoc).
      apply IH. intros pre' b' post' ->. specialize (Hf (b :: pre') b' post' eq_refl).
      by rewrite <- !app_assoc.
Qed.

Lemma triple_swallow (m : M St unit) P Q :
  triple P m Q (λ e s, e ≠ OutOfFuel ∧ Q tt s) →
  triple P (swallow m) Q (λ _ _, False).
Proof.
  intros Hm s Hs. specialize (Hm s Hs). unfold swallow.
  destruct (m s) as [[[]|e] s']; [done|]. destruct Hm as [He HQ].
  destruct e; done.
Qed.

End triples.

Lemma triple_zoom {S1 S2 A} (get : S1 → S2) set (m : M S2 A)
    (P : S2 → Prop) Q E (F : S1 → Prop) :
  triple P m Q E →
  triple (λ s, P (get s) ∧ F s) (zoom get set m)
    (λ a s', ∃ s t, s' = set t s ∧ F s ∧ Q a t)
    (λ e s', ∃ s t, s' = set t s ∧ F s ∧ E e t).
Proof.
  intros Hm s [Hs HF]. specialize (Hm _ Hs). unfold zoom.
  destruct (m (get s)) as [[a|e] t]; eauto.
Qed.

(** ** Programs that follow a preorder on states *)
Section follows.
Context {St : Type} (R : St → St → Prop) {HR : PreOrder R}.

Definition follows {A} (m : M St A) : Prop := ∀ s, R s (m s).2.

Lemma follows_bind {A B} (m : M St A) (k : A → M St B) : follows m → (∀ a, follows (k a)) → follows (m ≫= k).
Proof.
  intros Hm Hk s. unfold mbind, M_bind. specialize (Hm s). destruct (m s) as [[a|e] s']; [|done]. by etrans; [|apply Hk].
Qed.

Lemma follows_try {A} (m : M St A) h : follows m → (∀ e, follows (h e)) → follows (try_except m h).
Proof.
  intros Hm Hh s. unfold try_except. specialize (Hm s). destruct (m s) as [[a|e] s']; [done|]. by etrans; [|apply Hh].
Qed.

Lemma follows_swallow (m : M St unit) : follows m → follows (swallow m).
Proof. intros Hm s. unfold swallow. specialize (Hm s). destruct (m s) as [[a|[]] s']; done. Qed.

Lemma follows_finally {A} (m : M St A) k : follows m → follows k → follows (try_finally m k).
Proof.
  intros Hm Hk s. unfold try_finally. specialize (Hm s). destruct (m s) as [r s'].
  specialize (Hk s'). destruct (k s') as [[] s2]; by etrans.
Qed.

Lemma follows_pure {A} (m : M St A) : (∀ s, (m s).2 = s) → follows m.
Proof. intros Hm s. by rewrite Hm. Qed.

Lemma follows_modify (f : St → St) : (∀ s, R s (f s)) → follows (modify f).
Proof. intros Hf s. apply Hf. Qed.

Lemma follows_forM {B} (f : B → M St unit) l : (∀ b, follows (f b)) → follows (forM_ f l).
Proof. intros Hf. induction l as [|b l IH]; [by apply follows_pure|]. by apply follows_bind. Qed.
End follows.

(** [follows_gen tac] goes through a program; [tac] is for its assignments. *)
Ltac follows_gen tac :=
  lazymatch goal with
  | |- follows _ (modify _) => apply follows_modify; intros ?; tac
  | |- follows _ (mbind _ _) => apply follows_bind; [apply _| |intros ?]
  | |- follows _ (try_except _ _) => apply follows_try; [apply _| |intros ?]
  | |- follows _ (swallow _) => apply follows_swallow
  | |- follows _ (try_finally _ _) => apply follows_finally; [apply _| |]
  | |- follows _ (forM_ _ _) => apply follows_forM; [apply _|intros ?]
  | |- follows _ (mret _) => apply follows_pure; [apply _|reflexivity]
  | |- follows _ (gets _) => apply follows_pure; [apply _|reflexivity]
  | |- follows _ (raise _) => apply follows_pure; [apply _|reflexivity]
  | |- follows _ (lift _) => apply follows_pure; [apply _|reflexivity]
  | |- follows _ (passert ?b) => apply follows_pure; [apply _|by destruct b]
  | |- follows _ (from_some _ ?o) => apply follows_pure; [apply _|by destruct o]
  | |- follows _ (let '(_, _) := ?x in _) => destruct x
  | |- follows _ (if ?x then _ else _) => destruct x
  | |- follows _ (match ?x with _ => _ end) => destruct x
  end.

#[export] Hint Resolve triple_ret triple_raise triple_gets triple_modify : voltha.

(** Equations that compute a monadic program on a given state. *)
Lemma bind_ok {St A B} (m : M St A) (k : A → M St B) s a s' :
  m s = (Ok a, s') → (m ≫= k) s = k a s'.
Proof. intros H. unfold mbind, M_bind. by rewrite H. Qed.

Lemma bind_err {St A B} (m : M St A) (k : A → M St B) s e s' :
  m s = (Err e, s') → (m ≫= k) s = (Err e, s').
Proof. intros H. unfold mbind, M_bind. by rewrite H. Qed.

Lemma bind_ok_inv {St A B} (m : M St A) (k : A → M St B) s b s'' :
  (m ≫= k) s = (Ok b, s'') → ∃ a s', m s = (Ok a, s') ∧ k a s' = (Ok b, s'').
Proof. unfold mbind, M_bind. destruct (m s) as [[a|e] s']; naive_solver. Qed.

(** [mstep] runs the next operation of a monadic program when its outcome is
    already known by computation or by a hypothesis. *)
Ltac mstep :=
  first
    [ erewrite bind_ok by first [eassumption | reflexivity]
    | erewrite bind_err by first [eassumption | reflexivity] ].

(** [minv H] splits an equation [(m ≫= k) s = (Ok b, s')]. *)
Tactic Notation "minv" hyp(H) "as" simple_intropattern(p) :=
  apply bind_ok_inv in H as p.

(** ** Dictionaries

    A Python [OrderedDict] is an association list with distinct keys, in
    insertion order; a plain [dict] is a [gmap].  Python 2 leaves the
    iteration order of a [dict] unspecified, so it is a parameter of every
    definition that iterates over one: [iteritems] lists the bindings in some
    order, a permutation of them. *)
Class DictOrder := {
  iter_order : ∀ {A : Type}, list A → list A;
  iter_order_perm : ∀ {A : Type} (l : list A), iter_order l ≡ₚ l;
}.

(** Insertion into the map, listed by [map_to_list]: one possible order. *)
Definition plain_order : DictOrder :=
  {| iter_order := λ A l, l; iter_order_perm := λ A l, Permutation_refl l |}.

Definition iteritems `{DictOrder} `{Countable K} {V} (m : gmap K V) : list (K * V) :=
  iter_order (map_to_list m).

Section iteritems.
Context `{DictOrder} `{Countable K} {V : Type}.
Implicit Types m : gmap K V.

Lemma elem_of_iteritems m k v : (k, v) ∈ iteritems m ↔ m !! k = Some v.
Proof. unfold iteritems. rewrite iter_order_perm. apply elem_of_map_to_list. Qed.

Lemma NoDup_iteritems_keys m : NoDup (iteritems m).*1.
Proof. unfold iteritems. rewrite iter_order_perm. apply NoDup_fst_map_to_list. Qed.

End iteritems.

(** A [set] is a [gset]; its order is no more specified. *)
Definition set_items `{DictOrder} `{Countable A} (s : gset A) : list A := (iteritems (gset_to_gmap tt s)).*1.

Lemma elem_of_set_items `{DictOrder} `{Countable A} (s : gset A) x : x ∈ set_items s ↔ x ∈ s.
Proof.
  unfold set_items. rewrite list_elem_of_fmap. split.
  - intros ([y []]&->&Hy). apply elem_of_iteritems in Hy. simpl. by apply lookup_gset_to_gmap_Some in Hy as [? _].
  - intros Hx. exists (x, tt). split; [done|]. apply elem_of_iteritems. by apply lookup_gset_to_gmap_Some.
Qed.

Lemma NoDup_set_items `{DictOrder} `{Countable A} (s : gset A) : NoDup (set_items s).
Proof. apply NoDup_iteritems_keys. Qed.

#[export] Hint Resolve NoDup_iteritems_keys : voltha.

Abbreviation odict K V := (list (K * V)).

Section odict.
Context {K V : Type} `{EqDecision K}.
Implicit Types d : odict K V.

Fixpoint od_get (k : K) (d : odict K V) : option V :=
  match d with
  | [] => None
  | (k', v) :: d => if decide (k = k') then Some v else od_get k d
  end.

Definition od_mem (k : K) (d : odict K V) : bool :=
  match od_get k d with Some _ => true | None => false end.

(** [d[k] = v]: in place when the key is present, else at the end. *)
Fixpoint od_set (k : K) (v : V) (d : odict K V) : odict K V :=
  match d with
  | [] => [(k, v)]
  | (k', v') :: d => if decide (k = k') then (k, v) :: d else (k', v') :: od_set k v d
  end.

(** [del d[k]], for a key that is present. *)
Definition od_del (k : K) (d : odict K V) : odict K V :=
  filter (λ p, p.1 ≠ k) d.

(** [if k not in d: d[k] = v] *)
Definition od_add_new (k : K) (v : V) (d : odict K V) : odict K V :=
  if od_mem k d then d else od_set k v d.

(** [OrderedDict((key(x), x) for x in l)] *)
Definition od_of_list (key : V → K) (l : list V) : odict K V :=
  foldl (λ d x, od_set (key x) x d) [] l.

Definition od_values (d : odict K V) : list V := d.*2.

Lemma od_elem_key k v d : (k, v) ∈ d → k ∈ d.*1.
Proof. intros H. apply list_elem_of_fmap. by exists (k, v). Qed.

Lemma od_get_None k d : od_get k d = None ↔ k ∉ d.*1.
Proof.
  induction d as [|[k' v] d IH]; csimpl; [set_solver|].
  case_decide; [set_solver|]. rewrite IH. set_solver.
Qed.

Lemma od_get_Some_in k v d : od_get k d = Some v → (k, v) ∈ d.
Proof.
  induction d as [|[k' v'] d IH]; csimpl; [done|].
  case_decide; [intros [= ->]; subst; set_solver|]. intros; set_solver.
Qed.

Lemma od_get_in k v d : NoDup d.*1 → (k, v) ∈ d → od_get k d = Some v.
Proof.
  induction d as [|[k' v'] d IH]; csimpl; [set_solver|].
  rewrite NoDup_cons. intros [Hk Hd] Hin. case_decide as Hkk.
  - subst. apply elem_of_cons in Hin as [[= ->]|Hin]; [done|].
    destruct Hk. by eapply od_elem_key.
  - apply IH; [done|]. apply elem_of_cons in Hin as [[= -> ->]|Hin]; done.
Qed.

Lemma od_mem_true k d : od_mem k d = true ↔ k ∈ d.*1.
Proof.
  unfold od_mem. destruct (od_get k d) eqn:Hg.
  - split; [|done]. intros _. destruct (decide (k ∈ d.*1)); [done|].
    by apply od_get_None in n; rewrite n in Hg.
  - apply od_get_None in Hg. split; [done|]. intros; contradiction.
Qed.

Lemma od_mem_false k d : od_mem k d = false ↔ k ∉ d.*1.
Proof. rewrite <- od_mem_true. destruct (od_mem k d); naive_solver. Qed.

Lemma od_set_new k v d : k ∉ d.*1 → od_set k v d = d ++ [(k, v)].
Proof.
  induction d as [|[k' v'] d IH]; csimpl; [done|].
  intros Hk. case_decide; [set_solver|]. rewrite IH by set_solver. done.
Qed.

Lemma od_set_keys_old k v d : k ∈ d.*1 → (od_set k v d).*1 = d.*1.
Proof.
  induction d as [|[k' v'] d IH]; csimpl; [set_solver|].
  intros Hk. case_decide; [by subst|]. csimpl. rewrite IH by set_solver. done.
Qed.

Lemma od_get_set k k' v d :
  od_get k (od_set k' v d) = if decide (k = k') then Some v else od_get k d.
Proof.
  induction d as [|[k'' v''] d IH]; csimpl; [by case_decide|].
  destruct (decide (k' = k'')) as [->|]; csimpl.
  - by repeat case_decide.
  - rewrite IH. repeat case_decide; naive_solver.
Qed.

Lemma od_set_NoDup k v d : NoDup d.*1 → NoDup (od_set k v d).*1.
Proof.
  intros Hd. destruct (decide (k ∈ d.*1)).
  - by rewrite od_set_keys_old.
  - rewrite od_set_new, fmap_app, NoDup_app by done. split; [done|].
    split; [set_solver|]. apply NoDup_singleton.
Qed.

Lemma od_get_del k k' d :
  od_get k (od_del k' d) = if decide (k = k') then None else od_get k d.
Proof.
  unfold od_del. induction d as [|[k'' v''] d IH]; [by case_decide|].
  rewrite filter_cons. csimpl. destruct (decide (k'' ≠ k')) as [|Hn]; csimpl.
  - rewrite IH. repeat case_decide; naive_solver.
  - rewrite IH. destruct (decide (k'' = k')) as [->|]; [|done].
    repeat case_decide; naive_solver.
Qed.

Lemma od_del_NoDup k d : NoDup d.*1 → NoDup (od_del k d).*1.
Proof.
  unfold od_del. induction d as [|[k' v'] d IH]; csimpl; [done|].
  rewrite NoDup_cons. intros [Hk Hd]. rewrite filter_cons.
  case_decide; csimpl; [|by apply IH]. apply NoDup_cons; split; [|by apply IH].
  intros Hin. apply Hk. apply list_elem_of_fmap in Hin as ([k2 v2] & -> & Hin).
  apply list_elem_of_filter in Hin as [_ Hin]. by eapply od_elem_key.
Qed.

Lemma od_add_new_NoDup k v d : NoDup d.*1 → NoDup (od_add_new k v d).*1.
Proof. unfold od_add_new. destruct (od_mem k d); auto using od_set_NoDup. Qed.

Lemma od_add_new_prefix k v d : d `prefix_of` od_add_new k v d.
Proof.
  unfold od_add_new. destruct (od_mem k d) eqn:Hm; [done|].
  apply od_mem_false in Hm. rewrite od_set_new by done. by apply prefix_app_r.
Qed.

Lemma od_of_list_NoDup key l : NoDup (od_of_list key l).*1.
Proof.
  unfold od_of_list. assert (NoDup ([] : odict K V).*1) as H by constructor.
  revert H. generalize (@nil (K * V)). induction l as [|x l IH]; intros d Hd; csimpl; [done|].
  apply IH. by apply od_set_NoDup.
Qed.

Lemma od_get_of_list_Some key l k v : od_get k (od_of_list key l) = Some v → v ∈ l ∧ key v = k.
Proof.
  unfold od_of_list.
  enough (∀ d, (∀ k v, od_get k d = Some v → v ∈ l ∧ key v = k) → ∀ l', (∀ x, x ∈ l' → x ∈ l) →
    ∀ k v, od_get k (foldl (λ d x, od_set (key x) x d) d l') = Some v → v ∈ l ∧ key v = k) as H
    by (apply (H []); done).
  clear k v. intros d Hd l'. revert d Hd. induction l' as [|x l' IH]; intros d Hd Hl; csimpl; [done|].
  apply IH; [|set_solver]. intros k v. rewrite od_get_set.
  case_decide; [|apply Hd]. intros [= <-]. set_solver.
Qed.

Lemma od_of_list_keys key l x : x ∈ l → key x ∈ (od_of_list key l).*1.
Proof.
  unfold od_of_list.
  enough (∀ d, (x ∈ l ∨ key x ∈ d.*1) → key x ∈ (foldl (λ d x, od_set (key x) x d) d l).*1) as H
    by (intros; apply H; auto).
  induction l as [|y l IH]; intros d; csimpl; [intros [?%elem_of_nil|?]; done|].
  intros Hx. apply IH. destruct Hx as [[->|Hx]%elem_of_cons|Hx].
  - right. destruct (decide (key y ∈ d.*1)); [by rewrite od_set_keys_old|].
    rewrite od_set_new, fmap_app by done. set_solver.
  - by left.
  - right. destruct (decide (key y ∈ d.*1)); [by rewrite od_set_keys_old|].
    rewrite od_set_new, fmap_app by done. set_solver.
Qed.

End odict.

#[export] Hint Resolve od_set_NoDup od_del_NoDup od_add_new_NoDup od_of_list_NoDup
  od_add_new_prefix : voltha.

(** ** Records

    [r <| f := v |>] and [r <| f ::= g |>] write a field of a record that has
    its [Eta] instance (the record rebuilt from its fields). *)
Class Eta (R : Type) := eta : R → R.
Class Field {R E : Type} (f : R → E) := update_field : (E → E) → R → R.
Arguments update_field {R E} f {_} g r.

Ltac field_instance R f :=
  let e := constr:(_ : Eta R) in
  let e := eval hnf in e in
  match eval pattern f in e with
  | ?p _ => exact (λ g, p (λ r, g (f r)))
  end.
#[export] Hint Extern 1 (@Field ?R _ ?f) => field_instance R f : typeclass_instances.

Declare Scope record_scope.
Open Scope record_scope.
Notation "r <| f := v |>" := (update_field f (λ _, v) r)
  (at level 12, f at next level, left associativity, format "r  <| f  :=  v |>") : record_scope.
Notation "r <| f ::= g |>" := (update_field f g r)
  (at level 12, f at next level, left associativity, format "r  <| f  ::=  g |>") : record_scope.

(** ** Deferreds

    Twisted's [Deferred], as far as the code relies on it: a new one, what it
    has fired with, firing it ([None]: [AlreadyCalledError]) and cancelling it,
    where the result is what its errbacks make of the [CancelledError].  A
    cancelled one lets the result that comes too late pass. *)
Class Promise (R : Type) := {
  dfr_state : Type;
  Pending : dfr_state;
  result_of : dfr_state → option R;
  fire_with : R → dfr_state → option dfr_state;
  cancel_with : R → dfr_state → dfr_state;
}.
Arguments dfr_state R {Promise}.

Class PromiseLaws (R : Type) {HPr : Promise R} : Prop := {
  new_pending : result_of Pending = None;
  fire_pending_ok : ∀ r d, result_of d = None → ∃ d', fire_with r d = Some d' ∧ result_of d' = Some r;
  fire_again : ∀ r r' d d', result_of d = Some r → fire_with r' d = Some d' → result_of d' = Some r;
  cancel_pending : ∀ r d, result_of d = None → result_of (cancel_with r d) = Some r;
  cancel_fired : ∀ r r' d, result_of d = Some r → result_of (cancel_with r' d) = Some r;
  fire_cancelled : ∀ r r' d, result_of d = None → is_Some (fire_with r' (cancel_with r d));
}.

(** An instance: the result, and whether one more attempt to fire is ignored. *)
Definition plain_promise (R : Type) : Promise R := {|
  dfr_state := option (R * bool);
  Pending := None;
  result_of d := fst <$> d;
  fire_with r d :=
    match d with
    | None => Some (Some (r, false))
    | Some (r', true) => Some (Some (r', false))
    | Some (_, false) => None
    end;
  cancel_with r d := match d with None => Some (r, true) | _ => d end;
|}.

Lemma plain_promise_laws (R : Type) : @PromiseLaws R (plain_promise R).
Proof.
  split; simpl; [done|..].
  - intros r [[]|]; [done|]. intros _. by eexists.
  - intros r r' [[r0 []]|] d'; simpl; intros Hr Hf; by simplify_eq.
  - by intros r [[]|].
  - by intros r r' [[]|].
  - by intros r r' [[]|].
Qed.

(** ** Machine widths

    Protobuf [uint32]/[uint64] fields raise [ValueError] on a value outside
    their range; arithmetic on them is Python's unbounded [Z]. *)
Definition is_uint (w : Z) (n : Z) : Prop := (0 ≤ n < 2 ^ w)%Z.

#[export] Instance is_uint_dec w n : Decision (is_uint w n).
Proof. unfold is_uint. apply _. Defined.

Lemma is_uint_lor w a b : (0 ≤ w)%Z → is_uint w a → is_uint w b → is_uint w (Z.lor a b).
Proof.
  unfold is_uint. intros Hw [Ha1 Ha2] [Hb1 Hb2]. split; [by apply Z.lor_nonneg|].
  destruct (decide (Z.lor a b = 0)%Z) as [->|Hne]; [lia|].
  apply Z.log2_lt_pow2; [pose proof (proj2 (Z.lor_nonneg a b)); lia|].
  rewrite Z.log2_lor by done. destruct (decide (a = 0)%Z), (decide (b = 0)%Z); subst.
  - done.
  - change (Z.log2 0) with 0%Z. apply Z.max_lub_lt; [|apply Z.log2_lt_pow2; lia].
    apply (Z.le_lt_trans _ (Z.log2 b)); [apply Z.log2_nonneg|apply Z.log2_lt_pow2; lia].
  - change (Z.log2 0) with 0%Z. apply Z.max_lub_lt; [apply Z.log2_lt_pow2; lia|].
    apply (Z.le_lt_trans _ (Z.log2 a)); [apply Z.log2_nonneg|apply Z.log2_lt_pow2; lia].
  - apply Z.max_lub_lt; apply Z.log2_lt_pow2; lia.
Qed.

Lemma is_uint_weaken w w' n : (w ≤ w')%Z → is_uint w n → is_uint w' n.
Proof.
  unfold is_uint. intros Hw [H1 H2]. split; [done|].
  eapply Z.lt_le_trans; [done|]. apply Z.pow_le_mono_r; lia.
Qed.

#[export] Hint Resolve is_uint_lor : voltha.
