(* ===== verification/Generators.v ===== *)
(** * Generators

    The [inlineCallbacks] of Twisted: a generator runs until it yields and is
    resumed with an answer, in the state of that moment.  [Ev] are the things
    that it can wait for, each with the type of its answer. *)
From S2P Require Import Prelude.
From stdpp Require Import base list.

(** ** Programs *)
Inductive gen_run (Ev : Type → Type) (St A : Type) : Type :=
  | Done (r : result A) (s : St)
  | Wait {X : Type} (w : Ev X) (s : St) (k : X → St → gen_run Ev St A).
Arguments Done {Ev St A} r s.
Arguments Wait {Ev St A X} w s k.

Definition gen (Ev : Type → Type) (St A : Type) : Type := St → gen_run Ev St A.

Fixpoint run_bind {Ev St} {A B} (m : gen_run Ev St A) (f : A → gen Ev St B) : gen_run Ev St B :=
  match m with
  | Done (Ok a) s => f a s
  | Done (Err e) s => Done (Err e) s
  | Wait w s k => Wait w s (λ x s, run_bind (k x s) f)
  end.

#[export] Instance gen_ret {Ev St} : MRet (gen Ev St) := λ A a s, Done (Ok a) s.
#[export] Instance gen_bind {Ev St} : MBind (gen Ev St) := λ A B f m s, run_bind (m s) f.

(** [try: m except ...: h]; [h] raises again what it does not handle. *)
Fixpoint run_try {Ev St} {A} (m : gen_run Ev St A) (h : exn → gen Ev St A) : gen_run Ev St A :=
  match m with
  | Done (Err e) s => h e s
  | Done (Ok a) s => Done (Ok a) s
  | Wait w s k => Wait w s (λ x s, run_try (k x s) h)
  end.
Definition try_ {Ev St} {A} (m : gen Ev St A) (h : exn → gen Ev St A) : gen Ev St A := λ s, run_try (m s) h.

(** [try: m finally: f], where [f] does not wait. *)
Fixpoint run_finally {Ev St} {A} (m : gen_run Ev St A) (f : M St unit) : gen_run Ev St A :=
  match m with
  | Done (Err OutOfFuel) s => Done (Err OutOfFuel) s
  | Done r s => match f s with (Ok _, s) => Done r s | (Err e, s) => Done (Err e) s end
  | Wait w s k => Wait w s (λ x s, run_finally (k x s) f)
  end.
Definition finally_ {Ev St} {A} (m : gen Ev St A) (f : M St unit) : gen Ev St A := λ s, run_finally (m s) f.

(** [try: m except Exception: log] *)
Definition try_log {Ev St} (m : gen Ev St unit) : gen Ev St unit :=
  try_ m (λ e s, Done (if decide (e = OutOfFuel) then Err e else Ok tt) s).

Definition yield {Ev St} {X} (w : Ev X) : gen Ev St X := λ s, Wait w s (λ x s, Done (Ok x) s).
Definition lift_ {Ev St} {A} (m : M St A) : gen Ev St A := λ s, let '(r, s) := m s in Done r s.
Definition raise_ {Ev St} {A} (e : exn) : gen Ev St A := lift_ (raise e).
Definition of_result {Ev St} {A} (r : result A) : gen Ev St A := lift_ (lift r).
Definition some_or {Ev St} {A} (e : exn) (o : option A) : gen Ev St A := lift_ (from_some e o).
Definition get_ {Ev St} {A} (f : St → A) : gen Ev St A := lift_ (gets f).
Definition set_ {Ev St} (f : St → St) : gen Ev St unit := lift_ (modify f).

Fixpoint forT {Ev St} {B} (f : B → gen Ev St unit) (l : list B) : gen Ev St unit :=
  match l with
  | [] => mret tt
  | b :: l => _ ← f b; forT f l
  end.

(** A loop whose body says whether to break. *)
Fixpoint until {Ev St} {B} (f : B → gen Ev St bool) (l : list B) : gen Ev St unit :=
  match l with
  | [] => mret tt
  | b :: l => stop ← f b; if (stop : bool) then mret tt else until f l
  end.

(** ** Weakest preconditions

    [G] must hold where a generator waits, [R] is what can happen while it
    does. *)
Section wp.
Context {Ev : Type → Type} {St : Type}.
Context (G : ∀ X, Ev X → St → Prop) (R : ∀ X, Ev X → X → St → St → Prop).

Fixpoint wp {A} (Q : result A → St → Prop) (m : gen_run Ev St A) : Prop :=
  match m with
  | Done r s => Q r s
  | Wait w s k => G _ w s ∧ ∀ x s', R _ w x s s' → wp Q (k x s')
  end.

Definition spec {A} (P : St → Prop) (m : gen Ev St A) (Q : result A → St → Prop) : Prop := ∀ s, P s → wp Q (m s).

Lemma wp_mono {A} (Q Q' : result A → St → Prop) m : (∀ r s, Q r s → Q' r s) → wp Q m → wp Q' m.
Proof.
  intros HQ. induction m as [r s|X w s k IH]; simpl; [auto|]. intros [HG HR]. split; [done|]. intros x s' Hs. auto.
Qed.

Lemma spec_mono {A} (P P' : St → Prop) (m : gen Ev St A) Q Q' :
  spec P m Q → (∀ s, P' s → P s) → (∀ r s, Q r s → Q' r s) → spec P' m Q'.
Proof. intros Hm HP HQ s Hs. eapply wp_mono; [done|]. auto. Qed.

Lemma spec_bind {A B} P (m : gen Ev St A) (k : A → gen Ev St B) Q Q' :
  spec P m Q' → (∀ a, spec (Q' (Ok a)) (k a) Q) → (∀ e s, Q' (Err e) s → Q (Err e) s) → spec P (m ≫= k) Q.
Proof.
  intros Hm Hk He s Hs. specialize (Hm s Hs). unfold mbind, gen_bind.
  induction (m s) as [[a|e] s1|X w s1 k1 IH]; simpl in *; [by apply Hk|by apply He|].
  destruct Hm as [HG HR]. split; [done|]. intros x s' Hx. auto.
Qed.

Lemma spec_try {A} P (m : gen Ev St A) (h : exn → gen Ev St A) Q Q' :
  spec P m Q' → (∀ e, spec (Q' (Err e)) (h e) Q) → (∀ a s, Q' (Ok a) s → Q (Ok a) s) → spec P (try_ m h) Q.
Proof.
  intros Hm Hh Ha s Hs. specialize (Hm s Hs). unfold try_.
  induction (m s) as [[a|e] s1|X w s1 k1 IH]; simpl in *; [by apply Ha|by apply Hh|].
  destruct Hm as [HG HR]. split; [done|]. intros x s' Hx. auto.
Qed.

Lemma spec_lift {A} P (m : M St A) Q : (∀ s, P s → Q (m s).1 (m s).2) → spec P (lift_ m) Q.
Proof. intros H s Hs. specialize (H s Hs). unfold lift_. by destruct (m s). Qed.

Lemma spec_ret {A} (P : St → Prop) (a : A) Q : (∀ s, P s → Q (Ok a) s) → spec P (mret a) Q.
Proof. done. Qed.

Lemma spec_yield {X} P (w : Ev X) (Q : result X → St → Prop) :
  (∀ s, P s → G X w s) → (∀ s x s', P s → R X w x s s' → Q (Ok x) s') → spec P (yield w) Q.
Proof. intros HG HR s Hs. split; [auto|]. intros x s' Hx. simpl. eauto. Qed.

(** *** Invariants

    [I] is kept, and what is raised is in [E], which has everything but
    [AlreadyCalledError]. *)
Section keeps.
Context (E : exn → Prop) (I : St → Prop).
Context (HE : ∀ e, e ≠ AlreadyCalledError → E e).

Definition raises {A} (r : result A) : Prop := ∀ e, r = Err e → E e.
Definition keeps {A} (m : gen Ev St A) : Prop := spec I m (λ r s, I s ∧ raises r).

Lemma gen_keeps_bind {A B} (m : gen Ev St A) (k : A → gen Ev St B) : keeps m → (∀ a, keeps (k a)) → keeps (m ≫= k).
Proof.
  intros Hm Hk. apply (spec_bind _ _ _ _ (λ r s, I s ∧ raises r)); [done|..].
  - intros a. eapply spec_mono; [apply Hk| |done]. by intros s [? _].
  - intros e s [? He]. split; [done|]. intros e' [= <-]. by apply He.
Qed.

Lemma keeps_try {A} (m : gen Ev St A) h : keeps m → (∀ e, E e → keeps (h e)) → keeps (try_ m h).
Proof.
  intros Hm Hh. apply (spec_try _ _ _ _ (λ r s, I s ∧ raises r)); [done|..].
  - intros e s [Hs He]. apply Hh; [by apply He|done].
  - intros a s [Hs _]. by split.
Qed.

Lemma keeps_lift {A} (m : M St A) : (∀ s, I s → I (m s).2 ∧ raises (m s).1) → keeps (lift_ m).
Proof. intros H. by apply spec_lift. Qed.

Lemma gen_keeps_set f : (∀ s, I s → I (f s)) → keeps (set_ f).
Proof. intros H. apply spec_lift. intros s Hs. by split; [apply H|]. Qed.

Lemma keeps_get {A} (f : St → A) : keeps (get_ f).
Proof. by apply spec_lift. Qed.

Lemma keeps_raise {A} e : E e → keeps (raise_ (A := A) e).
Proof. intros He. apply spec_lift. intros s Hs. split; [done|]. by intros e' [= <-]. Qed.

Lemma keeps_some_or {A} e (o : option A) : e ≠ AlreadyCalledError → keeps (some_or e o).
Proof.
  intros He. apply spec_lift. intros s Hs. destruct o; (split; [done|]); [done|]. intros e' [= <-]. by apply HE.
Qed.

Lemma keeps_result {A} (r : result A) : raises r → keeps (of_result r).
Proof. intros Hr. by apply spec_lift. Qed.

Lemma keeps_ret {A} (a : A) : keeps (mret a).
Proof. by intros s. Qed.

Lemma keeps_forT {B} (f : B → gen Ev St unit) l : (∀ b, keeps (f b)) → keeps (forT f l).
Proof. intros Hf. induction l; [apply keeps_ret|]. apply gen_keeps_bind; auto. Qed.

Lemma keeps_forT_in {B} (f : B → gen Ev St unit) l : (∀ b, b ∈ l → keeps (f b)) → keeps (forT f l).
Proof.
  induction l as [|b l IH]; intros Hf; [apply keeps_ret|]. apply gen_keeps_bind; [apply Hf; by left|].
  intros _. apply IH. intros b' Hb. apply Hf. by right.
Qed.

Lemma keeps_until {B} (f : B → gen Ev St bool) l : (∀ b, keeps (f b)) → keeps (until f l).
Proof.
  intros Hf. induction l as [|b l IH]; [apply keeps_ret|]. apply gen_keeps_bind; [done|]. intros []; [apply keeps_ret|done].
Qed.
End keeps.
End wp.

(** ** Segments

    What a generator does from one wait to the next, or to its end, happens at
    once: [R] relates the states around each part of the run between two
    waits, [E] those around the last one. *)
Section segments.
Context {Ev : Type → Type} {St : Type} (R : St → St → Prop) {HR : PreOrder R}.

Fixpoint segs {A} (E : result A → St → St → Prop) (s0 : St) (m : gen_run Ev St A) : Prop :=
  match m with
  | Done r s => E r s0 s
  | Wait w s k => R s0 s ∧ ∀ x s', segs E s' (k x s')
  end.

Definition ends {A} (E : result A → St → St → Prop) (m : gen Ev St A) : Prop := ∀ s, segs E s (m s).
Definition paced {A} (m : gen Ev St A) : Prop := ends (λ _, R) m.

Lemma segs_from {A} (E : result A → St → St → Prop) s0 s1 m :
  (∀ r s s' s'', R s s' → E r s' s'' → E r s s'') → R s0 s1 → segs E s1 m → segs E s0 m.
Proof. intros HE Hs. destruct m as [r s|X w s k]; simpl; [by apply HE|]. intros [HR1 Hk]. split; [by etrans|done]. Qed.

Lemma segs_mono {A} (E E' : result A → St → St → Prop) s0 m :
  (∀ r s s', E r s s' → E' r s s') → segs E s0 m → segs E' s0 m.
Proof.
  intros HE. revert s0. induction m as [r s|X w s k IH]; simpl; intros s0; [auto|]. intros [HR1 Hk]. split; [done|].
  intros x s'. by apply IH.
Qed.

Lemma ends_mbind {A B} E1 E (m : gen Ev St A) (k : A → gen Ev St B) :
  (∀ r s s' s'', R s s' → E r s' s'' → E r s s'') → (∀ a s s', E1 (Ok a) s s' → R s s') →
  (∀ e s s', E1 (Err e) s s' → E (Err e) s s') → ends E1 m → (∀ a, ends E (k a)) → ends E (m ≫= k).
Proof.
  intros HE Ha He Hm Hk s. specialize (Hm s). unfold mbind, gen_bind. generalize dependent s.
  intros s. generalize (m s). intros mr. revert s. induction mr as [[a|e] s1|X w s1 k1 IH]; simpl; intros s0 Hm.
  - eapply segs_from; [done|by eapply Ha|]. apply Hk.
  - by apply He.
  - destruct Hm as [HR1 Hk1]. split; [done|]. intros x s'. by apply IH.
Qed.

Lemma paced_bind {A B} (m : gen Ev St A) (k : A → gen Ev St B) : paced m → (∀ a, paced (k a)) → paced (m ≫= k).
Proof. apply (ends_mbind (λ _, R)); [|done..]. intros _ s s' s''. apply transitivity. Qed.

Lemma ends_try {A} E1 E (m : gen Ev St A) (h : exn → gen Ev St A) :
  (∀ r s s' s'', R s s' → E r s' s'' → E r s s'') → (∀ a s s', E1 (Ok a) s s' → E (Ok a) s s') →
  (∀ e s s', E1 (Err e) s s' → R s s') → ends E1 m → (∀ e, ends E (h e)) → ends E (try_ m h).
Proof.
  intros HE Ha He Hm Hh s. specialize (Hm s). unfold try_. generalize dependent s. intros s. generalize (m s). intros mr. revert s.
  induction mr as [[a|e] s1|X w s1 k1 IH]; simpl; intros s0 Hm.
  - by apply Ha.
  - eapply segs_from; [done|by eapply He|]. apply Hh.
  - destruct Hm as [HR1 Hk1]. split; [done|]. intros x s'. by apply IH.
Qed.

Lemma paced_try {A} (m : gen Ev St A) (h : exn → gen Ev St A) : paced m → (∀ e, paced (h e)) → paced (try_ m h).
Proof. apply (ends_try (λ _, R)); [|done..]. intros _ s s' s''. apply transitivity. Qed.

Lemma ends_finally {A} E (m : gen Ev St A) (f : M St unit) : paced m →
  (∀ r s s', R s s' → (r = Err OutOfFuel → (f s').1 = Err OutOfFuel) → E r s (f s').2) →
  (∀ s s', R s s' → E (Err OutOfFuel) s s') → ends E (finally_ m f).
Proof.
  intros Hm Hf Ho s. specialize (Hm s). unfold finally_. generalize dependent s. intros s. generalize (m s). intros mr. revert s.
  induction mr as [r s1|X w s1 k1 IH]; simpl; intros s0 Hm.
  - pose proof (λ r, Hf r s0 s1 Hm) as Hs. destruct (f s1) as [[u|e] s2]; simpl in Hs.
    + destruct r as [a|[]]; simpl; try (by apply Hs); by apply Ho.
    + destruct r as [a|[]]; simpl; try (apply Hs; by intros [= ->]); by apply Ho.
  - destruct Hm as [HR1 Hk1]. split; [done|]. intros x s'. by apply IH.
Qed.

Lemma paced_finally {A} (m : gen Ev St A) (f : M St unit) : paced m → follows R f → paced (finally_ m f).
Proof. intros Hm Hf. apply ends_finally; [done| |done]. intros _ s s' Hs _. etrans; [exact Hs|]. apply Hf. Qed.

Lemma paced_lift {A} (m : M St A) : follows R m → paced (lift_ m).
Proof. intros Hm s. unfold lift_. specialize (Hm s). by destruct (m s). Qed.

Lemma paced_ret {A} (a : A) : paced (mret a).
Proof. intros s. simpl. reflexivity. Qed.

Lemma paced_yield {X} (w : Ev X) : paced (yield w).
Proof. intros s. simpl. split; [reflexivity|]. intros x s'. reflexivity. Qed.

Lemma paced_forT {B} (f : B → gen Ev St unit) l : (∀ b, paced (f b)) → paced (forT f l).
Proof. intros Hf. induction l; [apply paced_ret|]. apply paced_bind; auto. Qed.
End segments.

Create HintDb tasks discriminated.

(** [keeps] goes through the structure of a generator; the database [tasks]
    knows its steps. *)
Ltac keeps_step :=
  lazymatch goal with
  | |- keeps _ _ _ _ (mret _) => apply keeps_ret
  | |- keeps _ _ _ _ (get_ _) => apply keeps_get
  | |- keeps _ _ _ _ (some_or _ _) => apply keeps_some_or; [assumption|discriminate]
  | |- keeps _ _ _ _ (raise_ _) => apply keeps_raise; first [assumption|auto with tasks; discriminate]
  | |- keeps _ _ _ _ (of_result _) => apply keeps_result; intros ? _; exact I
  | |- keeps _ _ _ _ (forT _ _) => apply keeps_forT; intros ?
  | |- keeps _ _ _ _ (until _ _) => apply keeps_until; intros ?
  | |- keeps _ _ _ _ (mbind _ _) => apply gen_keeps_bind; [|intros ?]
  | |- keeps _ _ _ _ (try_ _ _) => apply keeps_try; [|intros ? ?]
  | |- keeps _ _ _ _ (if ?x then _ else _) => destruct x
  | |- keeps _ _ _ _ (match ?x with _ => _ end) => destruct x
  | |- keeps _ _ _ _ _ => solve [eauto 6 with tasks]
  end.
Ltac keeps := repeat keeps_step.
