(* ===== verification/OpenFlow.v ===== *)
(** * OpenFlow messages, their builders and extractors

    The data of src/voltha/protos/openflow_13.proto that the core computes
    with, and the module-level helpers of src/voltha/core/flow_decomposer.py:
    constants, [ofp_action] and [ofp_oxm_ofb_field] builders, extractors, and
    the conversion of a flow or group modification to a table entry.

    A protobuf [oneof] is an inductive type with a case for "nothing set";
    reading a member that is not the one set yields the type's default, which
    the accessor functions spell out.  The 64-bit digest of a flow (md5 of a
    text that holds the serialized match) is a parameter: protobuf's
    serialization is not part of the repository. *)
From S2P Require Import Prelude.
From stdpp Require Import base gmap list strings.
From Stdlib Require Import ZArith Lia Strings.Byte.

Local Open Scope Z_scope.

(** ** Constants *)
Definition OUTPUT := 0.
Definition COPY_TTL_OUT := 11.
Definition COPY_TTL_IN := 12.
Definition SET_MPLS_TTL := 15.
Definition DEC_MPLS_TTL := 16.
Definition PUSH_VLAN := 17.
Definition POP_VLAN := 18.
Definition PUSH_MPLS := 19.
Definition POP_MPLS := 20.
Definition SET_QUEUE := 21.
Definition GROUP := 22.
Definition SET_NW_TTL := 23.
Definition NW_TTL := 24.
Definition SET_FIELD := 25.
Definition PUSH_PBB := 26.
Definition POP_PBB := 27.
Definition EXPERIMENTER := 65535.

Definition IN_PORT := 0.
Definition IN_PHY_PORT := 1.
Definition METADATA := 2.
Definition ETH_DST := 3.
Definition ETH_SRC := 4.
Definition ETH_TYPE := 5.
Definition VLAN_VID := 6.
Definition VLAN_PCP := 7.
Definition IP_DSCP := 8.
Definition IP_ECN := 9.
Definition IP_PROTO := 10.
Definition IPV4_SRC := 11.
Definition IPV4_DST := 12.
Definition TCP_SRC := 13.
Definition TCP_DST := 14.
Definition UDP_SRC := 15.
Definition UDP_DST := 16.
Definition SCTP_SRC := 17.
Definition SCTP_DST := 18.
Definition ICMPV4_TYPE := 19.
Definition ICMPV4_CODE := 20.
Definition ARP_OP := 21.
Definition ARP_SPA := 22.
Definition ARP_TPA := 23.
Definition ARP_SHA := 24.
Definition ARP_THA := 25.
Definition IPV6_SRC := 26.
Definition IPV6_DST := 27.
Definition IPV6_FLABEL := 28.
Definition ICMPV6_TYPE := 29.
Definition ICMPV6_CODE := 30.
Definition IPV6_ND_TARGET := 31.
Definition OFB_IPV6_ND_SLL := 32.
Definition IPV6_ND_TLL := 33.
Definition MPLS_LABEL := 34.
Definition MPLS_TC := 35.
Definition MPLS_BOS := 36.
Definition PBB_ISID := 37.
Definition TUNNEL_ID := 38.
Definition IPV6_EXTHDR := 39.

Definition OFPIT_GOTO_TABLE := 1.
Definition OFPIT_APPLY_ACTIONS := 4.
Definition OFPMT_OXM := 1.
Definition OFPXMC_OPENFLOW_BASIC := 0x8000.
Definition OFPCML_MAX := 0xffe5.
Definition OFPVID_PRESENT := 0x1000.
Definition OFPP_CONTROLLER := 0x7ffffffd.
Definition OFPP_ANY := 0x7fffffff.
Definition OFPG_ALL := 0x7ffffffc.
Definition OFPG_ANY := 0x7fffffff.
Definition OFPTT_ALL := 0xff.
Definition OFPFC_ADD := 0.
Definition OFPFC_MODIFY := 1.
Definition OFPFC_MODIFY_STRICT := 2.
Definition OFPFC_DELETE := 3.
Definition OFPFC_DELETE_STRICT := 4.
Definition OFPFF_SEND_FLOW_REM := 1.
Definition OFPFF_CHECK_OVERLAP := 2.
Definition OFPFF_RESET_COUNTS := 4.
Definition OFPGC_ADD := 0.
Definition OFPGC_MODIFY := 1.
Definition OFPGC_DELETE := 2.
Definition OFPGT_ALL := 0.
Definition OFPPC_PORT_DOWN := 1.

(** ** Match fields *)

(** The members of the [value] oneof of [ofp_oxm_ofb_field]. *)
Inductive ofb_case :=
  | C_port | C_physical_port | C_table_metadata | C_eth_dst | C_eth_src
  | C_eth_type | C_vlan_vid | C_vlan_pcp | C_ip_dscp | C_ip_ecn | C_ip_proto
  | C_ipv4_src | C_ipv4_dst | C_tcp_src | C_tcp_dst | C_udp_src | C_udp_dst
  | C_sctp_src | C_sctp_dst | C_icmpv4_type | C_icmpv4_code | C_arp_op
  | C_arp_spa | C_arp_tpa | C_arp_sha | C_arp_tha | C_ipv6_src | C_ipv6_dst
  | C_ipv6_flabel | C_icmpv6_type | C_icmpv6_code | C_ipv6_nd_target
  | C_ipv6_nd_ssl | C_ipv6_nd_tll | C_mpls_label | C_mpls_tc | C_mpls_bos
  | C_pbb_isid | C_tunnel_id | C_ipv6_exthdr.

#[export] Instance ofb_case_eq_dec : EqDecision ofb_case.
Proof. solve_decision. Defined.

(** A Python value offered to a protobuf field. *)
Inductive pyval :=
  | PInt (n : Z)
  | PBytes (b : list byte).

#[export] Instance byte_eq_dec : EqDecision byte := Byte.byte_eq_dec.
#[export] Instance pyval_eq_dec : EqDecision pyval.
Proof. solve_decision. Defined.

Record ofb_field := Ofb {
  of_type : Z;
  of_has_mask : bool;
  of_value : option (ofb_case * pyval);
  of_mask : option (ofb_case * pyval);
}.

#[export] Instance ofb_field_eq_dec : EqDecision ofb_field.
Proof. solve_decision. Defined.

Definition default_ofb_field : ofb_field := Ofb 0 false None None.

(** The declared type of each member: [Some w] is [uintw], [None] is [bytes]. *)
Definition case_width (c : ofb_case) : option Z :=
  match c with
  | C_table_metadata | C_tunnel_id => Some 64
  | C_eth_dst | C_eth_src | C_arp_sha | C_arp_tha | C_ipv6_src | C_ipv6_dst
  | C_ipv6_nd_target | C_ipv6_nd_ssl | C_ipv6_nd_tll => None
  | _ => Some 32
  end.

(** [f.member]: the value when that member is the one set, else its default. *)
Definition read_case (c : ofb_case) (f : ofb_field) : pyval :=
  let default := match case_width c with Some _ => PInt 0 | None => PBytes [] end in
  match of_value f with
  | Some (c', v) => if decide (c = c') then v else default
  | None => default
  end.

Definition read_int (c : ofb_case) (f : ofb_field) : Z :=
  match read_case c f with PInt n => n | PBytes _ => 0 end.

(** The protobuf constructor with one member given: a value of the wrong kind
    raises [TypeError], an integer out of range [ValueError]. *)
Definition checked_ofb (t : Z) (c : ofb_case) (v : pyval) : result ofb_field :=
  match case_width c, v with
  | Some w, PInt n =>
      if decide (is_uint w n) then Ok (Ofb t false (Some (c, v)) None) else Err ValueError
  | None, PBytes _ => Ok (Ofb t false (Some (c, v)) None)
  | _, _ => Err TypeError
  end.

(** [ofp_oxm_field]: its [field] oneof. *)
Inductive oxm_body :=
  | OxmNone
  | OxmOfb (f : ofb_field)
  | OxmExperimenter (experimenter : Z).

#[export] Instance oxm_body_eq_dec : EqDecision oxm_body.
Proof. solve_decision. Defined.

Record oxm_field := Oxm { oxm_class : Z; oxm_field_body : oxm_body }.

#[export] Instance oxm_field_eq_dec : EqDecision oxm_field.
Proof. solve_decision. Defined.

Definition oxm_ofb_field (x : oxm_field) : ofb_field :=
  match oxm_field_body x with OxmOfb f => f | _ => default_ofb_field end.

Record ofp_match := Match { m_type : Z; m_oxm_fields : list oxm_field }.

#[export] Instance ofp_match_eq_dec : EqDecision ofp_match.
Proof. solve_decision. Defined.

(** ** Actions and instructions *)
Inductive action_body :=
  | ANone
  | AOutput (port max_len : Z)
  | AMplsTtl (ttl : Z)
  | APush (ethertype : Z)
  | APopMpls (ethertype : Z)
  | AGroup (group_id : Z)
  | ANwTtl (ttl : Z)
  | ASetField (f : oxm_field)
  | AExperimenter (experimenter : Z) (data : list byte).

#[export] Instance action_body_eq_dec : EqDecision action_body.
Proof. solve_decision. Defined.

Record ofp_action := Action { a_type : Z; a_body : action_body }.

#[export] Instance ofp_action_eq_dec : EqDecision ofp_action.
Proof. solve_decision. Defined.

(** [action.output.port] and [action.group.group_id] *)
Definition action_output_port (a : ofp_action) : Z :=
  match a_body a with AOutput p _ => p | _ => 0 end.
Definition action_group_id (a : ofp_action) : Z :=
  match a_body a with AGroup g => g | _ => 0 end.

Inductive instr_data :=
  | INone
  | IGotoTable (table_id : Z)
  | IWriteMetadata (metadata metadata_mask : Z)
  | IActions (actions : list ofp_action)
  | IMeter (meter_id : Z)
  | IExperimenter (experimenter : Z) (data : list byte).

#[export] Instance instr_data_eq_dec : EqDecision instr_data.
Proof. solve_decision. Defined.

Record ofp_instruction := Instr { i_type : Z; i_data : instr_data }.

#[export] Instance ofp_instruction_eq_dec : EqDecision ofp_instruction.
Proof. solve_decision. Defined.

(** [instruction.actions.actions] and [instruction.goto_table.table_id] *)
Definition instr_actions (i : ofp_instruction) : list ofp_action :=
  match i_data i with IActions l => l | _ => [] end.
Definition instr_goto_table (i : ofp_instruction) : Z :=
  match i_data i with IGotoTable t => t | _ => 0 end.

(** ** Flow and group messages *)
Record ofp_flow_mod := FlowMod {
  fm_cookie : Z;
  fm_cookie_mask : Z;
  fm_table_id : Z;
  fm_command : Z;
  fm_idle_timeout : Z;
  fm_hard_timeout : Z;
  fm_priority : Z;
  fm_buffer_id : Z;
  fm_out_port : Z;
  fm_out_group : Z;
  fm_flags : Z;
  fm_match : ofp_match;
  fm_instructions : list ofp_instruction;
}.

Record ofp_flow_stats := FlowStats {
  fs_id : Z;
  fs_table_id : Z;
  fs_duration_sec : Z;
  fs_duration_nsec : Z;
  fs_priority : Z;
  fs_idle_timeout : Z;
  fs_hard_timeout : Z;
  fs_flags : Z;
  fs_cookie : Z;
  fs_packet_count : Z;
  fs_byte_count : Z;
  fs_match : ofp_match;
  fs_instructions : list ofp_instruction;
}.

#[export] Instance ofp_flow_stats_eq_dec : EqDecision ofp_flow_stats.
Proof. solve_decision. Defined.

Record ofp_bucket := Bucket {
  b_weight : Z;
  b_watch_port : Z;
  b_watch_group : Z;
  b_actions : list ofp_action;
}.

#[export] Instance ofp_bucket_eq_dec : EqDecision ofp_bucket.
Proof. solve_decision. Defined.

Record ofp_group_mod := GroupMod {
  gm_command : Z;
  gm_type : Z;
  gm_group_id : Z;
  gm_buckets : list ofp_bucket;
}.

Record ofp_group_desc := GroupDesc {
  gd_type : Z;
  gd_group_id : Z;
  gd_buckets : list ofp_bucket;
}.

#[export] Instance ofp_group_desc_eq_dec : EqDecision ofp_group_desc.
Proof. solve_decision. Defined.

Record ofp_group_stats := GroupStats {
  gs_group_id : Z;
  gs_ref_count : Z;
  gs_packet_count : Z;
  gs_byte_count : Z;
}.

#[export] Instance ofp_group_stats_eq_dec : EqDecision ofp_group_stats.
Proof. solve_decision. Defined.

Record ofp_group_entry := GroupEntry {
  ge_desc : ofp_group_desc;
  ge_stats : ofp_group_stats;
}.

#[export] Instance ofp_group_entry_eq_dec : EqDecision ofp_group_entry.
Proof. solve_decision. Defined.

(** [ofp.ofp_group_entry()] *)
Definition default_group_entry : ofp_group_entry :=
  GroupEntry (GroupDesc 0 0 []) (GroupStats 0 0 0 0).

(** ** Action builders *)
Definition output (port : Z) : ofp_action := Action OUTPUT (AOutput port OFPCML_MAX).
Definition mpls_ttl (ttl : Z) : ofp_action := Action SET_MPLS_TTL (AMplsTtl ttl).
Definition push_vlan (eth_type : Z) : ofp_action := Action PUSH_VLAN (APush eth_type).
Definition pop_vlan : ofp_action := Action POP_VLAN ANone.
Definition pop_mpls (eth_type : Z) : ofp_action := Action POP_MPLS (APopMpls eth_type).
Definition group (group_id : Z) : ofp_action := Action GROUP (AGroup group_id).
Definition nw_ttl (ttl : Z) : ofp_action := Action NW_TTL (ANwTtl ttl).
Definition set_field (f : ofb_field) : ofp_action :=
  Action SET_FIELD (ASetField (Oxm OFPXMC_OPENFLOW_BASIC (OxmOfb f))).
Definition experimenter (e : Z) (data : list byte) : ofp_action :=
  Action EXPERIMENTER (AExperimenter e data).

(** ** Match field builders

    The integer builders used by the decomposer take an integer within the
    field's width (shown by the bounds theorems of the users); the others go
    through the checking constructor, since the member they set is not of the
    kind their name suggests. *)
Definition ofb (t : Z) (c : ofb_case) (n : Z) : ofb_field := Ofb t false (Some (c, PInt n)) None.

Definition in_port (n : Z) := ofb IN_PORT C_port n.
Definition in_phy_port (n : Z) := ofb IN_PHY_PORT C_port n.
Definition metadata (n : Z) := ofb METADATA C_table_metadata n.
Definition eth_dst (v : pyval) := checked_ofb ETH_DST C_table_metadata v.
Definition eth_src (v : pyval) := checked_ofb ETH_SRC C_table_metadata v.
Definition eth_type (n : Z) := ofb ETH_TYPE C_eth_type n.
Definition vlan_vid (n : Z) := ofb VLAN_VID C_vlan_vid n.
Definition vlan_pcp (n : Z) := ofb VLAN_PCP C_vlan_pcp n.
Definition ip_dscp (n : Z) := ofb IP_DSCP C_ip_dscp n.
Definition ip_ecn (n : Z) := ofb IP_ECN C_ip_ecn n.
Definition ip_proto (n : Z) := ofb IP_PROTO C_ip_proto n.
Definition ipv4_src (n : Z) := ofb IPV4_SRC C_ipv4_src n.
Definition ipv4_dst (n : Z) := ofb IPV4_DST C_ipv4_dst n.
Definition tcp_src (n : Z) := ofb TCP_SRC C_tcp_src n.
Definition tcp_dst (n : Z) := ofb TCP_DST C_tcp_dst n.
Definition udp_src (n : Z) := ofb UDP_SRC C_udp_src n.
Definition udp_dst (n : Z) := ofb UDP_DST C_udp_dst n.
Definition sctp_src (n : Z) := ofb SCTP_SRC C_sctp_src n.
Definition sctp_dst (n : Z) := ofb SCTP_DST C_sctp_dst n.
Definition icmpv4_type (n : Z) := ofb ICMPV4_TYPE C_icmpv4_type n.
Definition icmpv4_code (n : Z) := ofb ICMPV4_CODE C_icmpv4_code n.
Definition arp_op (n : Z) := ofb ARP_OP C_arp_op n.
Definition arp_spa (n : Z) := ofb ARP_SPA C_arp_spa n.
Definition arp_tpa (n : Z) := ofb ARP_TPA C_arp_tpa n.
Definition arp_sha (v : pyval) := checked_ofb ARP_SHA C_arp_sha v.
Definition arp_tha (v : pyval) := checked_ofb ARP_THA C_arp_tha v.
Definition ipv6_src (v : pyval) := checked_ofb IPV6_SRC C_arp_tha v.
Definition ipv6_dst (v : pyval) := checked_ofb IPV6_DST C_arp_tha v.
Definition ipv6_flabel (v : pyval) := checked_ofb IPV6_FLABEL C_arp_tha v.
Definition ipmpv6_type (v : pyval) := checked_ofb ICMPV6_TYPE C_arp_tha v.
Definition icmpv6_code (v : pyval) := checked_ofb ICMPV6_CODE C_arp_tha v.
Definition ipv6_nd_target (v : pyval) := checked_ofb IPV6_ND_TARGET C_arp_tha v.
Definition ofb_ipv6_nd_sll (v : pyval) := checked_ofb OFB_IPV6_ND_SLL C_arp_tha v.
Definition ipv6_nd_tll (v : pyval) := checked_ofb IPV6_ND_TLL C_arp_tha v.
Definition mpls_label (v : pyval) := checked_ofb MPLS_LABEL C_arp_tha v.
Definition mpls_tc (v : pyval) := checked_ofb MPLS_TC C_arp_tha v.
Definition mpls_bos (v : pyval) := checked_ofb MPLS_BOS C_arp_tha v.
Definition pbb_isid (v : pyval) := checked_ofb PBB_ISID C_arp_tha v.
Definition tunnel_id (v : pyval) := checked_ofb TUNNEL_ID C_arp_tha v.
Definition ipv6_exthdr (v : pyval) := checked_ofb IPV6_EXTHDR C_arp_tha v.

(** ** Extractors *)

(** The action list of the first APPLY_ACTIONS instruction, [None] without one. *)
Fixpoint get_actions_in (l : list ofp_instruction) : option (list ofp_action) :=
  match l with
  | [] => None
  | i :: l => if decide (i_type i = OFPIT_APPLY_ACTIONS) then Some (instr_actions i)
              else get_actions_in l
  end.
Definition get_actions (flow : ofp_flow_stats) : option (list ofp_action) :=
  get_actions_in (fs_instructions flow).

Fixpoint get_ofb_fields_in (l : list oxm_field) : result (list ofb_field) :=
  match l with
  | [] => Ok []
  | x :: l => if decide (oxm_class x = OFPXMC_OPENFLOW_BASIC) then
                match get_ofb_fields_in l with
                | Ok fs => Ok (oxm_ofb_field x :: fs)
                | Err e => Err e
                end
              else Err AssertionError
  end.
Definition get_ofb_fields (flow : ofp_flow_stats) : result (list ofb_field) :=
  if decide (m_type (fs_match flow) = OFPMT_OXM)
  then get_ofb_fields_in (m_oxm_fields (fs_match flow)) else Err AssertionError.

(** [for action in get_actions(flow)] raises [TypeError] on [None]. *)
Definition iter_actions (flow : ofp_flow_stats) : result (list ofp_action) :=
  match get_actions flow with Some l => Ok l | None => Err TypeError end.

Definition get_out_port (flow : ofp_flow_stats) : result (option Z) :=
  match iter_actions flow with
  | Ok l => Ok (action_output_port <$> head (filter (λ a, a_type a = OUTPUT) l))
  | Err e => Err e
  end.

Definition get_in_port (flow : ofp_flow_stats) : result (option Z) :=
  match get_ofb_fields flow with
  | Ok fs => Ok (read_int C_port <$> head (filter (λ f, of_type f = IN_PORT) fs))
  | Err e => Err e
  end.

Definition get_goto_table_id (flow : ofp_flow_stats) : option Z :=
  instr_goto_table <$>
    head (filter (λ i, i_type i = OFPIT_GOTO_TABLE) (fs_instructions flow)).

Definition get_metadata (flow : ofp_flow_stats) : result (option Z) :=
  match get_ofb_fields flow with
  | Ok fs => Ok (read_int C_table_metadata <$> head (filter (λ f, of_type f = METADATA) fs))
  | Err e => Err e
  end.

Definition has_next_table (flow : ofp_flow_stats) : bool :=
  match get_goto_table_id flow with Some _ => true | None => false end.

Definition get_group (flow : ofp_flow_stats) : result (option Z) :=
  match iter_actions flow with
  | Ok l => Ok (action_group_id <$> head (filter (λ a, a_type a = GROUP) l))
  | Err e => Err e
  end.

Definition has_group (flow : ofp_flow_stats) : result bool :=
  match get_group flow with
  | Ok (Some _) => Ok true
  | Ok None => Ok false
  | Err e => Err e
  end.

(** ** Building flow and group modifications *)

(** The keyword arguments of [mk_simple_flow_mod] that reach [ofp_flow_mod]. *)
Record flow_kw := FlowKw {
  kw_cookie : Z;
  kw_cookie_mask : Z;
  kw_table_id : Z;
  kw_idle_timeout : Z;
  kw_hard_timeout : Z;
  kw_priority : Z;
  kw_buffer_id : Z;
  kw_out_port : Z;
  kw_out_group : Z;
  kw_flags : Z;
}.

Definition kw_none : flow_kw := FlowKw 0 0 0 0 0 0 0 0 0 0.
Definition kw (priority cookie : Z) : flow_kw := FlowKw cookie 0 0 0 0 priority 0 0 0 0.

Definition mk_simple_flow_mod (match_fields : list ofb_field) (actions : list ofp_action)
    (command : Z) (next_table_id : option Z) (k : flow_kw) : ofp_flow_mod :=
  let instructions :=
    Instr OFPIT_APPLY_ACTIONS (IActions actions) ::
    match next_table_id with
    | Some t => [Instr OFPIT_GOTO_TABLE (IGotoTable t)]
    | None => []
    end in
  FlowMod (kw_cookie k) (kw_cookie_mask k) (kw_table_id k) command
    (kw_idle_timeout k) (kw_hard_timeout k) (kw_priority k) (kw_buffer_id k)
    (kw_out_port k) (kw_out_group k) (kw_flags k)
    (Match OFPMT_OXM ((λ f, Oxm OFPXMC_OPENFLOW_BASIC (OxmOfb f)) <$> match_fields))
    instructions.

Definition mk_multicast_group_mod (group_id : Z) (buckets : list ofp_bucket) (command : Z)
    : ofp_group_mod :=
  GroupMod command OFPGT_ALL group_id buckets.

(** What [hash_flow_stats] digests: the text
    '{table_id},{priority},{flags},{cookie},{match.SerializeToString()}', of
    whose md5 the first 16 hexadecimal digits are read. *)
Definition flow_key : Type := Z * Z * Z * Z * ofp_match.

Class FlowDigest := {
  digest : flow_key → Z;
  digest_uint64 : ∀ k, is_uint 64 (digest k);
}.

Section with_digest.
Context `{FlowDigest}.

Definition key_of (flow : ofp_flow_stats) : flow_key :=
  (fs_table_id flow, fs_priority flow, fs_flags flow, fs_cookie flow, fs_match flow).

Definition hash_flow_stats (flow : ofp_flow_stats) : Z := digest (key_of flow).

Definition set_id (i : Z) (f : ofp_flow_stats) : ofp_flow_stats :=
  FlowStats i (fs_table_id f) (fs_duration_sec f) (fs_duration_nsec f) (fs_priority f)
    (fs_idle_timeout f) (fs_hard_timeout f) (fs_flags f) (fs_cookie f)
    (fs_packet_count f) (fs_byte_count f) (fs_match f) (fs_instructions f).

Definition flow_stats_entry_from_flow_mod_message (mod_ : ofp_flow_mod) : ofp_flow_stats :=
  let flow :=
    FlowStats 0 (fm_table_id mod_) 0 0 (fm_priority mod_) (fm_idle_timeout mod_)
      (fm_hard_timeout mod_) (fm_flags mod_) (fm_cookie mod_) 0 0
      (fm_match mod_) (fm_instructions mod_) in
  set_id (hash_flow_stats flow) flow.

Definition group_entry_from_group_mod (mod_ : ofp_group_mod) : ofp_group_entry :=
  GroupEntry (GroupDesc (gm_type mod_) (gm_group_id mod_) (gm_buckets mod_))
    (GroupStats (gm_group_id mod_) 0 0 0).

(** [mk_flow_stat(priority=, cookie=, match_fields=, actions=)] *)
Definition mk_flow_stat (priority cookie : Z) (match_fields : list ofb_field)
    (actions : list ofp_action) : ofp_flow_stats :=
  flow_stats_entry_from_flow_mod_message
    (mk_simple_flow_mod match_fields actions OFPFC_ADD None (kw priority cookie)).

Definition mk_group_stat (group_id : Z) (buckets : list ofp_bucket) (command : Z)
    : ofp_group_entry :=
  group_entry_from_group_mod (mk_multicast_group_mod group_id buckets command).

End with_digest.

(** ** Lemmas *)
Section flow_lemmas.
Context `{FlowDigest}.

Lemma mk_flow_stat_fields p c fs acts :
  get_ofb_fields (mk_flow_stat p c fs acts) = Ok fs.
Proof.
  unfold get_ofb_fields. rewrite decide_True by done. simpl.
  induction fs as [|f fs IH]; csimpl; [done|]. by rewrite IH.
Qed.

Lemma mk_flow_stat_actions p c fs acts :
  get_actions (mk_flow_stat p c fs acts) = Some acts.
Proof. done. Qed.

Lemma mk_flow_stat_id p c fs acts :
  fs_id (mk_flow_stat p c fs acts) = hash_flow_stats (mk_flow_stat p c fs acts).
Proof. done. Qed.

End flow_lemmas.

(** Field-by-field agreement of the identifying attributes. *)
Lemma key_of_set_id i f : key_of (set_id i f) = key_of f.
Proof. done. Qed.

#[export] Hint Rewrite @mk_flow_stat_fields @mk_flow_stat_actions : voltha.
