(* ===== verification/Devices.v ===== *)
(** * Devices, ports and logical ports

    The messages of src/voltha/protos/device.proto, logical_device.proto and
    common.proto that the core reads.  Scalar fields no modelled operation
    reads or compares are left out. *)
From S2P Require Import Prelude.
From stdpp Require Import base gmap list strings.
From Stdlib Require Import ZArith.

Module AdminState.
Inductive t := UNKNOWN | PREPROVISIONED | ENABLED | DISABLED | DOWNLOADING_IMAGE.

#[global] Instance eq_dec : EqDecision t.
Proof. solve_decision. Defined.
End AdminState.

Module OperStatus.
Inductive t := UNKNOWN | DISCOVERED | ACTIVATING | TESTING | ACTIVE | FAILED.

#[global] Instance eq_dec : EqDecision t.
Proof. solve_decision. Defined.
End OperStatus.

Module ConnectStatus.
Inductive t := UNKNOWN | UNREACHABLE | REACHABLE.

#[global] Instance eq_dec : EqDecision t.
Proof. solve_decision. Defined.
End ConnectStatus.

Module PortType.
Inductive t :=
  UNKNOWN | ETHERNET_NNI | ETHERNET_UNI | PON_OLT | PON_ONU | VENET_OLT | VENET_ONU.

#[global] Instance eq_dec : EqDecision t.
Proof. solve_decision. Defined.
End PortType.

(** [Port.PeerPort] *)
Record PeerPort := Peer { peer_device_id : string; peer_port_no : Z }.

#[export] Instance PeerPort_eq_dec : EqDecision PeerPort.
Proof. solve_decision. Defined.

Record Port := MkPort {
  port_no : Z;
  port_label : string;
  port_type : PortType.t;
  port_admin_state : AdminState.t;
  port_oper_status : OperStatus.t;
  port_device_id : string;
  peers : list PeerPort;
}.

#[export] Instance Port_eq_dec : EqDecision Port.
Proof. solve_decision. Defined.

Record Device := MkDevice {
  d_id : string;
  d_type : string;
  d_root : bool;
  d_parent_id : string;
  d_parent_port_no : Z;
  d_adapter : string;
  d_vlan : Z;
  d_admin_state : AdminState.t;
  d_oper_status : OperStatus.t;
  d_reason : string;
  d_connect_status : ConnectStatus.t;
}.

#[export] Instance Device_eq_dec : EqDecision Device.
Proof. solve_decision. Defined.

(** [device.oper_status = s] *)
Definition set_oper_status (s : OperStatus.t) (d : Device) : Device :=
  MkDevice (d_id d) (d_type d) (d_root d) (d_parent_id d) (d_parent_port_no d)
    (d_adapter d) (d_vlan d) (d_admin_state d) s (d_reason d) (d_connect_status d).

Definition set_admin_state (a : AdminState.t) (d : Device) : Device :=
  MkDevice (d_id d) (d_type d) (d_root d) (d_parent_id d) (d_parent_port_no d)
    (d_adapter d) (d_vlan d) a (d_oper_status d) (d_reason d) (d_connect_status d).

Record ofp_port := OfpPort {
  op_port_no : Z;
  op_hw_addr : list Z;
  op_name : string;
  op_config : Z;
  op_state : Z;
  op_curr : Z;
  op_advertised : Z;
  op_supported : Z;
  op_peer : Z;
  op_curr_speed : Z;
  op_max_speed : Z;
}.

#[export] Instance ofp_port_eq_dec : EqDecision ofp_port.
Proof. solve_decision. Defined.

Definition set_config (c : Z) (p : ofp_port) : ofp_port :=
  OfpPort (op_port_no p) (op_hw_addr p) (op_name p) c (op_state p) (op_curr p)
    (op_advertised p) (op_supported p) (op_peer p) (op_curr_speed p) (op_max_speed p).

Record LogicalPort := MkLogicalPort {
  lp_id : string;
  lp_ofp_port : ofp_port;
  lp_device_id : string;
  lp_device_port_no : Z;
  lp_root_port : bool;
}.

#[export] Instance LogicalPort_eq_dec : EqDecision LogicalPort.
Proof. solve_decision. Defined.

Definition lp_port_no (p : LogicalPort) : Z := op_port_no (lp_ofp_port p).

(** [RouteHop] of flow_decomposer.py: a device with the port a route enters it
    by and the port it leaves it by. *)
Record RouteHop := MkRouteHop {
  device : Device;
  ingress_port : Port;
  egress_port : Port;
}.

#[export] Instance RouteHop_eq_dec : EqDecision RouteHop.
Proof. solve_decision. Defined.
