(* ===== verification/Sample.v ===== *)
(** * A sample PON

    Concrete data the witnesses evaluate the definitions on: an OLT with an
    NNI and a PON port, an ONU with a PON and a UNI port, the route between
    them, a few flows, and a digest of flow keys that stays within 64 bits. *)
From S2P Require Import Prelude OpenFlow Devices.
From stdpp Require Import base gmap list strings.
From Stdlib Require Import ZArith Lia.

Local Open Scope Z_scope.
Local Open Scope string_scope.

Definition sample_value (v : option (ofb_case * pyval)) : Z :=
  match v with Some (_, PInt n) => n | _ => 0 end.

Definition sample_digest_fn (k : flow_key) : Z :=
  let '(t, p, fl, c, m) := k in
  (foldl (λ acc x, acc * 65599 + 31 * of_type (oxm_ofb_field x) +
                   sample_value (of_value (oxm_ofb_field x)) + 1)
     (t + 257 * p + 65537 * c + 7 * fl) (m_oxm_fields m)) mod 2 ^ 64.

Lemma sample_digest_range k : is_uint 64 (sample_digest_fn k).
Proof.
  destruct k as [[[[t p] fl] c] m]. unfold sample_digest_fn, is_uint.
  apply Z.mod_pos_bound. lia.
Qed.

Definition sample_digest : FlowDigest :=
  {| digest := sample_digest_fn; digest_uint64 := sample_digest_range |}.

Definition sample_port (n : Z) (ty : PortType.t) (dev : string) (ps : list PeerPort) : Port :=
  MkPort n "port" ty AdminState.ENABLED OperStatus.ACTIVE dev ps.

Definition olt_nni : Port := sample_port 0 PortType.ETHERNET_NNI "olt" [].
Definition olt_pon : Port := sample_port 1 PortType.PON_OLT "olt" [Peer "onu" 1].
Definition onu_pon : Port := sample_port 1 PortType.PON_ONU "onu" [Peer "olt" 1].
Definition onu_uni : Port := sample_port 2 PortType.ETHERNET_UNI "onu" [].

Definition olt : Device :=
  MkDevice "olt" "simulated_olt" true "ld" 0 "simulated_olt" 0 AdminState.ENABLED
    OperStatus.ACTIVE "" ConnectStatus.REACHABLE.
Definition onu : Device :=
  MkDevice "onu" "simulated_onu" false "olt" 1 "simulated_onu" 101 AdminState.ENABLED
    OperStatus.ACTIVE "" ConnectStatus.REACHABLE.

Definition up_onu : RouteHop := MkRouteHop onu onu_uni onu_pon.
Definition up_olt : RouteHop := MkRouteHop olt olt_pon olt_nni.
Definition down_olt : RouteHop := MkRouteHop olt olt_nni olt_pon.
Definition down_onu : RouteHop := MkRouteHop onu onu_pon onu_uni.

Definition sample_ofp_port (n : Z) (name : string) : ofp_port :=
  OfpPort n [] name 0 4 0 0 0 0 0 0.
Definition nni_lp : LogicalPort := MkLogicalPort "nni" (sample_ofp_port 0 "nni") "olt" 0 true.
Definition uni_lp : LogicalPort := MkLogicalPort "uni" (sample_ofp_port 101 "uni") "onu" 2 false.

(** An EAPOL trap flow to the controller, and a Q-in-Q pair. *)
Definition trap_flow : ofp_flow_stats :=
  @mk_flow_stat sample_digest 1000 7 [in_port 101; vlan_vid 0x1000; eth_type 0x888e]
    [output 0xfffffffd].
Definition upstream_flow : ofp_flow_stats :=
  @mk_flow_stat sample_digest 500 9 [in_port 101; vlan_vid 0x1065] [push_vlan 0x8100; output 0].
