(* ===== verification/FlowDecomposer.v ===== *)
(** * Flow decomposition

    The class [FlowDecomposer] of src/voltha/core/flow_decomposer.py: it turns
    the flows of a logical device into flows of the devices behind it.  The
    five methods "expected to be provided by derived class" are the class
    [FlowDecomposerOps]; every theorem here is proved against it, and
    LogicalDeviceAgent.v provides the instance. *)
From S2P Require Import Prelude OpenFlow Devices Sample.
From stdpp Require Import base gmap list strings.
From Stdlib Require Import ZArith Lia.

Local Open Scope Z_scope.

(** Flows and groups of each device while one flow is decomposed, and the
    ordered tables, keyed by flow and group id, that collect them. *)
Abbreviation flow_rules := (gmap string (list ofp_flow_stats * list ofp_group_entry)).
Abbreviation device_rules :=
  (gmap string (odict Z ofp_flow_stats * odict Z ofp_group_entry)).

(** A route is a list of hops; a half route has [None] for a hop. *)
Definition route : Type := list (option RouteHop).

Class FlowDecomposerOps (St : Type) := {
  get_all_default_rules : M St (option device_rules);
  get_route : option Z → option Z → M St (option route);
  get_wildcard_input_ports : option Z → M St (list Z);
  op_flow_delete : ofp_flow_stats → M St unit;
}.

Section decomposer.
Context `{FlowDigest} `{DictOrder} {St : Type} `{FlowDecomposerOps St}.

(** [device_rules.setdefault(dev, ([], []))] *)
Definition setdefault (dev : string) (r : flow_rules) : flow_rules :=
  match r !! dev with Some _ => r | None => <[dev := ([], [])]> r end.

(** [fl_lst, _ = device_rules.setdefault(...); fl_lst.append(f)] *)
Definition append_flow (dev : string) (f : ofp_flow_stats) (r : flow_rules) : flow_rules :=
  let '(fl, gr) := default ([], []) (r !! dev) in <[dev := (fl ++ [f], gr)]> r.

(** [field for field in fields if field.type not in drop] *)
Definition drop_types (drop : list Z) (fs : list ofb_field) : list ofb_field :=
  filter (λ f, of_type f ∉ drop) fs.

(** [action for action in actions if action.type not in drop] *)
Definition drop_action_types (drop : list Z) (acts : list ofp_action) : list ofp_action :=
  filter (λ a, a_type a ∉ drop) acts.

Definition is_controller_port (out_port_no : option Z) : bool :=
  match out_port_no with
  | Some p => bool_decide (Z.land p 0x7fffffff = OFPP_CONTROLLER)
  | None => false
  end.

(** The two flows the OLT gets for a controller-bound flow and an input port. *)
Definition controller_up (flow : ofp_flow_stats) (fields : list ofb_field)
    (h : RouteHop) (input_port : Z) : ofp_flow_stats :=
  mk_flow_stat (fs_priority flow) (fs_cookie flow)
    ([in_port (port_no (ingress_port h)); vlan_vid (Z.lor OFPVID_PRESENT input_port)] ++
     drop_types [IN_PORT; VLAN_VID] fields)
    [push_vlan 0x8100; set_field (vlan_vid (Z.lor OFPVID_PRESENT 4000));
     output (port_no (egress_port h))].

Definition controller_down (flow : ofp_flow_stats) (h : RouteHop) (input_port : Z)
    : ofp_flow_stats :=
  mk_flow_stat (fs_priority flow) 0
    [in_port (port_no (egress_port h)); vlan_vid (Z.lor OFPVID_PRESENT 4000);
     vlan_pcp 0; metadata input_port]
    [pop_vlan; output (port_no (ingress_port h))].

Definition controller_bound (flow : ofp_flow_stats) (in_port_no : option Z)
    (egress_hop : option RouteHop) : M St flow_rules :=
  h ← from_some AttributeError egress_hop;
  let dev := d_id (device h) in
  let rules := setdefault dev ∅ in
  in_ports ← match in_port_no with
             | None => get_wildcard_input_ports (Some (port_no (egress_port h)))
             | Some p => mret [p]
             end;
  fields ← lift (get_ofb_fields flow);
  mret (foldl (λ r p, append_flow dev (controller_down flow h p)
                        (append_flow dev (controller_up flow fields h p) r))
          rules in_ports).

(** A flow that enters a device where a hop enters it, with the actions left
    after dropping some types, [extra] ones, and an output where it leaves. *)
Definition through_hop (flow : ofp_flow_stats) (fields : list ofb_field)
    (acts : list ofp_action) (dropf dropa : list Z) (extra : list ofp_action)
    (h : RouteHop) : ofp_flow_stats :=
  mk_flow_stat (fs_priority flow) (fs_cookie flow)
    (in_port (port_no (ingress_port h)) :: drop_types dropf fields)
    (drop_action_types dropa acts ++ extra ++ [output (port_no (egress_port h))]).

Definition upstream (flow : ofp_flow_stats) (out_port_no : option Z)
    (ih : RouteHop) (egress_hop : option RouteHop) : M St flow_rules :=
  if has_next_table flow then
    _ ← passert (bool_decide (out_port_no = None));
    fields ← lift (get_ofb_fields flow);
    acts ← lift (iter_actions flow);
    mret (append_flow (d_id (device ih)) (through_hop flow fields acts [IN_PORT] [] [] ih) ∅)
  else
    _ ← passert (bool_decide (out_port_no ≠ None));
    eh ← from_some AttributeError egress_hop;
    fields ← lift (get_ofb_fields flow);
    acts ← lift (iter_actions flow);
    mret (append_flow (d_id (device eh))
            (through_hop flow fields acts [IN_PORT] [OUTPUT] [] eh) ∅).

Definition downstream_goto (flow : ofp_flow_stats) (in_port_no out_port_no : option Z)
    (ih : RouteHop) : M St flow_rules :=
  _ ← passert (bool_decide (out_port_no = None));
  inner_tag ← lift (get_metadata flow);
  oih ← match inner_tag with
        | None => mret (Some ih)
        | Some tag =>
            r ← get_route in_port_no (Some tag);
            match r with
            | None => _ ← op_flow_delete flow; mret None
            | Some [ih'; _] => h ← from_some AttributeError ih'; mret (Some h)
            | Some _ => raise AssertionError
            end
        end;
  match oih with
  | None => mret ∅
  | Some ih =>
      fields ← lift (get_ofb_fields flow);
      acts ← lift (iter_actions flow);
      mret (append_flow (d_id (device ih)) (through_hop flow fields acts [IN_PORT] [] [] ih) ∅)
  end.

Definition downstream_unicast (flow : ofp_flow_stats) (egress_hop : option RouteHop)
    : M St flow_rules :=
  eh ← from_some AttributeError egress_hop;
  fields ← lift (get_ofb_fields flow);
  acts ← lift (iter_actions flow);
  mret (append_flow (d_id (device eh))
          (through_hop flow fields acts [IN_PORT] [OUTPUT] [] eh) ∅).

(** The inner loop over a bucket's actions: [out_port_no] keeps its previous
    value when the bucket has no output action. *)
Definition scan_action (acc : option Z * list ofp_action) (a : ofp_action)
    : option Z * list ofp_action :=
  let '(out, others) := acc in
  if decide (a_type a = POP_VLAN) then (out, others)
  else if decide (a_type a = OUTPUT) then (Some (action_output_port a), others)
  else (out, others ++ [a]).

Definition scan_bucket (out_port_no : option Z) (acts : list ofp_action)
    : option Z * list ofp_action :=
  foldl scan_action (out_port_no, []) acts.

Definition bucket_flow (flow : ofp_flow_stats) (fields : list ofb_field)
    (others : list ofp_action) (h : RouteHop) : ofp_flow_stats :=
  mk_flow_stat (fs_priority flow) (fs_cookie flow)
    (in_port (port_no (ingress_port h)) :: drop_types [IN_PORT; VLAN_VID; VLAN_PCP] fields)
    (others ++ [output (port_no (egress_port h))]).

Definition bucket_rules (flow : ofp_flow_stats) (in_port_no : option Z) (ih : RouteHop)
    (acc : flow_rules * option Z) (bucket : ofp_bucket) : M St (flow_rules * option Z) :=
  let '(rules, out_port_no) := acc in
  let '(out_port_no, others) := scan_bucket out_port_no (b_actions bucket) in
  route2 ← get_route in_port_no out_port_no;
  match route2 with
  | None => _ ← op_flow_delete flow; mret (rules, out_port_no)
  | Some [ih2; eh] =>
      h2 ← from_some AttributeError ih2;
      _ ← passert (bool_decide (ingress_port ih = ingress_port h2));
      h ← from_some AttributeError eh;
      fields ← lift (get_ofb_fields flow);
      mret (append_flow (d_id (device h)) (bucket_flow flow fields others h) rules, out_port_no)
  | Some _ => raise AssertionError
  end.

Definition downstream_multicast (flow : ofp_flow_stats) (in_port_no out_port_no : option Z)
    (ih : RouteHop) (group_map : gmap Z ofp_group_entry) : M St flow_rules :=
  og ← lift (get_group flow);
  grp_id ← from_some AssertionError og;
  fields ← lift (get_ofb_fields flow);
  acts ← lift (iter_actions flow);
  let rules := append_flow (d_id (device ih))
                 (through_hop flow fields acts [IN_PORT] [GROUP] [pop_vlan] ih) ∅ in
  let g := default default_group_entry (group_map !! grp_id) in
  r ← foldM (bucket_rules flow in_port_no ih) (rules, out_port_no) (gd_buckets (ge_desc g));
  mret r.1.

Definition downstream (flow : ofp_flow_stats) (in_port_no out_port_no : option Z)
    (ih : RouteHop) (egress_hop : option RouteHop) (group_map : gmap Z ofp_group_entry)
    : M St flow_rules :=
  if has_next_table flow then downstream_goto flow in_port_no out_port_no ih
  else match out_port_no with
       | Some _ => downstream_unicast flow egress_hop
       | None => downstream_multicast flow in_port_no out_port_no ih group_map
       end.

Definition decompose_flow (flow : ofp_flow_stats) (group_map : gmap Z ofp_group_entry)
    : M St flow_rules :=
  in_port_no ← lift (get_in_port flow);
  out_port_no ← lift (get_out_port flow);
  r ← get_route in_port_no out_port_no;
  match r with
  | None => _ ← op_flow_delete flow; mret ∅
  | Some [ingress_hop; egress_hop] =>
      if is_controller_port out_port_no then controller_bound flow in_port_no egress_hop
      else
        ih ← from_some AttributeError ingress_hop;
        if d_root (device ih)
        then downstream flow in_port_no out_port_no ih egress_hop group_map
        else upstream flow out_port_no ih egress_hop
  | Some _ => raise AssertionError
  end.

(** [for _flow in _flows: if _flow.id not in fl_lst: fl_lst[_flow.id] = _flow] *)
Definition add_flows (d : odict Z ofp_flow_stats) (fl : list ofp_flow_stats)
    : odict Z ofp_flow_stats :=
  foldl (λ d f, od_add_new (fs_id f) f d) d fl.

(** One device of one decomposed flow merged into the tables.  A group would
    be asked for its [group_id], an attribute [ofp_group_entry] lacks; the
    decomposition never yields one.  [None] stands for default rules that are
    Python's [None]. *)
Definition merge_device (dr : option device_rules)
    (item : string * (list ofp_flow_stats * list ofp_group_entry))
    : M St (option device_rules) :=
  let '(dev, (fl, gr)) := item in
  dr ← from_some AttributeError dr;
  let '(fl_lst, gr_lst) := default ([], []) (dr !! dev) in
  match gr with
  | [] => mret (Some (<[dev := (add_flows fl_lst fl, gr_lst)]> dr))
  | _ => raise AttributeError
  end.

(** [dict((g.desc.group_id, g) for g in groups)]: a later group wins. *)
Definition group_map_of (groups : list ofp_group_entry) : gmap Z ofp_group_entry :=
  foldl (λ m g, <[gd_group_id (ge_desc g) := g]> m) ∅ groups.

Definition decompose_one (group_map : gmap Z ofp_group_entry) (dr : option device_rules)
    (flow : ofp_flow_stats) : M St (option device_rules) :=
  rules ← decompose_flow flow group_map;
  foldM merge_device dr (iteritems rules).

Definition decompose_rules (flows : list ofp_flow_stats) (groups : list ofp_group_entry)
    : M St (option device_rules) :=
  dr ← get_all_default_rules;
  foldM (decompose_one (group_map_of groups)) dr flows.

End decomposer.

(** ** What the methods of the derived class promise

    [P] is an invariant of the state they keep, [good] what holds of every hop
    of a route, [gport] of every port number, and [E] of the state when an
    exception escapes. *)
Class FlowDecomposerSpec {St} (ops : FlowDecomposerOps St) (P : St → Prop)
    (E : exn → St → Prop) (good : RouteHop → Prop) (gport : Z → Prop) : Prop := {
  spec_exn : ∀ e s, P s → e ≠ OutOfFuel → E e s;
  spec_route : ∀ i o,
    triple P (get_route i o)
      (λ r s, P s ∧ ∀ hs h, r = Some hs → Some h ∈ hs → good h) E;
  spec_wildcard : ∀ x,
    triple P (get_wildcard_input_ports x) (λ ps s, P s ∧ Forall gport ps) E;
  spec_delete : ∀ f, triple P (op_flow_delete f) (λ _, P) E;
  spec_default : triple P get_all_default_rules (λ _, P) E;
}.

(** The shapes of the device flows one logical flow may be turned into, on the
    device of hop [h]. *)
Inductive derived `{FlowDigest} (gport : Z → Prop) (gact : ofp_action → Prop)
    (flow : ofp_flow_stats) (h : RouteHop) : ofp_flow_stats → Prop :=
  | derived_controller_up fields p :
      get_ofb_fields flow = Ok fields → gport p →
      derived gport gact flow h (controller_up flow fields h p)
  | derived_controller_down p :
      gport p → derived gport gact flow h (controller_down flow h p)
  | derived_through fields acts dropa extra :
      get_ofb_fields flow = Ok fields → iter_actions flow = Ok acts →
      extra = [] ∨ extra = [pop_vlan] →
      derived gport gact flow h (through_hop flow fields acts [IN_PORT] dropa extra h)
  | derived_bucket fields acts out :
      get_ofb_fields flow = Ok fields → Forall gact acts →
      derived gport gact flow h (bucket_flow flow fields (scan_bucket out acts).2 h).

(** Every action of every bucket of the group table satisfies [gact]. *)
Definition groups_ok (gact : ofp_action → Prop) (gm : gmap Z ofp_group_entry) : Prop :=
  ∀ gid g b, gm !! gid = Some g → b ∈ gd_buckets (ge_desc g) → Forall gact (b_actions b).

Definition rules_ok `{FlowDigest} (good : RouteHop → Prop) (gport : Z → Prop)
    (gact : ofp_action → Prop) (flow : ofp_flow_stats) (rules : flow_rules) : Prop :=
  ∀ dev fl gr, rules !! dev = Some (fl, gr) →
    gr = [] ∧
    ∀ f, f ∈ fl → ∃ h, good h ∧ d_id (device h) = dev ∧ derived gport gact flow h f.

Section derived_flows.
Context `{FlowDigest} `{DictOrder} {St : Type} {ops : FlowDecomposerOps St}.
Context {P : St → Prop} {E : exn → St → Prop}.
Context {good : RouteHop → Prop} {gport : Z → Prop} {gact : ofp_action → Prop}.
Context `{!FlowDecomposerSpec ops P E good gport}.

Lemma rules_ok_empty flow : rules_ok good gport gact flow ∅.
Proof. intros dev fl gr. by rewrite lookup_empty. Qed.

Lemma rules_ok_setdefault flow dev rules :
  rules_ok good gport gact flow rules → rules_ok good gport gact flow (setdefault dev rules).
Proof.
  intros Hr. unfold setdefault. destruct (rules !! dev) eqn:Hd; [done|].
  intros dev' fl gr. rewrite lookup_insert. case_decide; [|apply Hr].
  intros [= <- <-]. split; [done|]. intros f Hf. by apply elem_of_nil in Hf.
Qed.

Lemma rules_ok_append flow h f rules :
  rules_ok good gport gact flow rules → good h → derived gport gact flow h f →
  rules_ok good gport gact flow (append_flow (d_id (device h)) f rules).
Proof.
  intros Hr Hg Hd. unfold append_flow.
  destruct (default ([], []) (rules !! d_id (device h))) as [fl gr] eqn:Hl.
  intros dev' fl' gr'. rewrite lookup_insert. case_decide as Heq; [|apply Hr].
  intros [= <- <-]. subst dev'. destruct (rules !! d_id (device h)) as [[fl0 gr0]|] eqn:Hl'.
  - simpl in Hl. injection Hl as <- <-. destruct (Hr _ _ _ Hl') as [-> Hf]. split; [done|].
    intros f' [Hin| ->%list_elem_of_singleton]%elem_of_app; eauto.
  - simpl in Hl. injection Hl as <- <-. split; [done|].
    intros f' ->%list_elem_of_singleton. eauto.
Qed.

Hint Resolve rules_ok_empty rules_ok_setdefault rules_ok_append : voltha.

(** The postcondition every branch establishes. *)
Abbreviation branch_spec flow m :=
  (triple P m (λ rules s, P s ∧ rules_ok good gport gact flow rules) E).

(** Closes the exceptional exits: [E] holds of any exception but [OutOfFuel]. *)
Ltac exn_done := intros; destruct_and?; eapply spec_exn; [eassumption|congruence].

Lemma get_ofb_fields_exn flow e : get_ofb_fields flow = Err e → e = AssertionError.
Proof.
  unfold get_ofb_fields. case_decide; [|congruence].
  induction (m_oxm_fields (fs_match flow)) as [|x l IH]; simpl; [done|].
  case_decide; [|congruence]. destruct (get_ofb_fields_in l); [done|]. intros [= ->]. by apply IH.
Qed.

Lemma iter_actions_exn flow e : iter_actions flow = Err e → e = TypeError.
Proof. unfold iter_actions. destruct (get_actions flow); congruence. Qed.

Lemma lift_fields_spec flow (R : list ofb_field → St → Prop) :
  (∀ fields s, get_ofb_fields flow = Ok fields → P s → R fields s) →
  triple P (lift (get_ofb_fields flow)) R E.
Proof.
  intros HR. apply triple_lift; [auto|].
  intros e s ->%get_ofb_fields_exn Hs. by eapply spec_exn.
Qed.

Lemma lift_actions_spec flow (R : list ofp_action → St → Prop) :
  (∀ acts s, iter_actions flow = Ok acts → P s → R acts s) →
  triple P (lift (iter_actions flow)) R E.
Proof.
  intros HR. apply triple_lift; [auto|].
  intros e s ->%iter_actions_exn Hs. by eapply spec_exn.
Qed.

(** The common tail of the branches: read the fields and the actions, append
    one flow through hop [h]. *)
Lemma append_through_spec flow h dropa extra rules :
  good h → extra = [] ∨ extra = [pop_vlan] → rules_ok good gport gact flow rules →
  branch_spec flow
    (fields ← lift (get_ofb_fields flow);
     acts ← lift (iter_actions flow);
     mret (append_flow (d_id (device h))
             (through_hop flow fields acts [IN_PORT] dropa extra h) rules)).
Proof.
  intros Hg Hx Hr.
  eapply triple_bind; [apply (lift_fields_spec flow (λ fs s, get_ofb_fields flow = Ok fs ∧ P s)); auto|].
  intros fields. simpl.
  eapply triple_bind with (R := λ acts s, (get_ofb_fields flow = Ok fields ∧ iter_actions flow = Ok acts) ∧ P s).
  - apply triple_lift; [naive_solver|]. intros e s ->%iter_actions_exn [_ Hs]. by eapply spec_exn.
  - intros acts. apply triple_ret. intros s [[Hf Ha] Hs].
    split; [done|]. apply rules_ok_append; [done..|]. by constructor.
Qed.

Lemma controller_bound_spec flow in_port_no eh :
  (∀ p, in_port_no = Some p → gport p) → (∀ h, eh = Some h → good h) →
  branch_spec flow (controller_bound flow in_port_no eh).
Proof.
  intros Hp Hg. unfold controller_bound.
  eapply triple_bind with (R := λ h s, good h ∧ P s).
  { apply triple_from_some; [naive_solver|exn_done]. }
  intros h. eapply triple_bind with (R := λ ps s, (good h ∧ Forall gport ps) ∧ P s).
  { destruct in_port_no as [p|].
    - apply triple_ret. intros s [Hh Hs]. repeat constructor; auto.
    - intros s [Hh Hs]. pose proof (spec_wildcard (Some (port_no (egress_port h))) s Hs) as Hw.
      destruct (get_wildcard_input_ports _ s) as [[ps|e] s']; naive_solver. }
  intros ps. eapply triple_bind with
    (R := λ fields s, (good h ∧ Forall gport ps ∧ get_ofb_fields flow = Ok fields) ∧ P s).
  { apply triple_lift; [naive_solver|]. intros e s ->%get_ofb_fields_exn [_ Hs]. by eapply spec_exn. }
  intros fields. apply triple_ret. intros s [(Hh & Hps & Hf) Hs]. split; [done|].
  assert (rules_ok good gport gact flow (setdefault (d_id (device h)) ∅)) as Hr by auto with voltha.
  revert Hr. generalize (setdefault (d_id (device h)) ∅).
  induction Hps as [|p ps Hgp _ IH]; intros rules Hr; simpl; [done|].
  apply IH. apply rules_ok_append; [|done|by constructor].
  apply rules_ok_append; [done..|by constructor].
Qed.

Lemma upstream_spec flow out ih eh :
  good ih → (∀ h, eh = Some h → good h) → branch_spec flow (upstream flow out ih eh).
Proof.
  intros Hi He. unfold upstream. destruct (has_next_table flow).
  - eapply triple_bind with (R := λ _, P); [apply triple_passert; [done|exn_done]|].
    intros _. apply append_through_spec; auto with voltha.
  - eapply triple_bind with (R := λ _, P); [apply triple_passert; [done|exn_done]|].
    intros _. destruct eh as [h|]; [|apply triple_raise; exn_done].
    apply (append_through_spec flow h [OUTPUT] []); auto with voltha.
Qed.

Lemma downstream_goto_spec flow i o ih :
  good ih → branch_spec flow (downstream_goto flow i o ih).
Proof.
  intros Hi. unfold downstream_goto.
  eapply triple_bind with (R := λ _, P); [apply triple_passert; [done|exn_done]|].
  intros _. eapply triple_bind with (R := λ _, P).
  { apply triple_lift; [done|]. intros e s He Hs. eapply spec_exn; [done|].
    unfold get_metadata in He. destruct (get_ofb_fields flow) eqn:Hf; [done|].
    apply get_ofb_fields_exn in Hf. congruence. }
  intros tag. eapply triple_bind with (R := λ oih s, (∀ h, oih = Some h → good h) ∧ P s).
  { destruct tag as [t|]; [|apply triple_ret; naive_solver].
    eapply triple_bind; [apply (spec_route i (Some t))|]. intros [[|oh [|oh' [|]]]|]; simpl.
    1,2,4: apply triple_raise; exn_done.
    - intros s [Hs Hr]. destruct oh as [h|]; [|by eapply spec_exn].
      split; [|done]. intros h' [= <-]. eapply Hr; [done|set_solver].
    - eapply triple_bind with (R := λ _, P).
      + eapply triple_conseq; [apply (spec_delete flow)|naive_solver..].
      + intros _. apply triple_ret. naive_solver. }
  intros [h|]; [|apply triple_ret; intros s [_ Hs]; auto with voltha].
  intros s [Hh Hs]. apply append_through_spec; auto with voltha.
Qed.

Lemma downstream_unicast_spec flow eh :
  (∀ h, eh = Some h → good h) → branch_spec flow (downstream_unicast flow eh).
Proof.
  intros He. unfold downstream_unicast. destruct eh as [h|]; [|apply triple_raise; exn_done].
  apply (append_through_spec flow h [OUTPUT] []); auto with voltha.
Qed.

Lemma bucket_rules_spec flow i ih acc b :
  Forall gact (b_actions b) → rules_ok good gport gact flow acc.1 →
  triple P (bucket_rules flow i ih acc b) (λ r s, P s ∧ rules_ok good gport gact flow r.1) E.
Proof.
  intros Hb Hr. unfold bucket_rules. destruct acc as [rules out].
  destruct (scan_bucket out (b_actions b)) as [out' others] eqn:Hsc.
  eapply triple_bind; [apply (spec_route i out')|]. intros [[|oh [|oh' [|]]]|]; simpl.
  1,2,4: apply triple_raise; exn_done.
  - intros s [Hs Hg]. destruct oh as [h2|]; [|by eapply spec_exn].
    unfold mbind, M_bind; simpl. case_bool_decide; simpl; [|by eapply spec_exn].
    destruct oh' as [h|]; simpl; [|by eapply spec_exn]. unfold lift.
    destruct (get_ofb_fields flow) as [fields|e] eqn:Hf; simpl.
    + split; [done|]. apply rules_ok_append; [done|eapply Hg; [done|set_solver]|].
      replace others with (scan_bucket out (b_actions b)).2 by (by rewrite Hsc). by constructor.
    + eapply spec_exn; [done|]. apply get_ofb_fields_exn in Hf. congruence.
  - eapply triple_bind with (R := λ _, P).
    + eapply triple_conseq; [apply (spec_delete flow)|naive_solver..].
    + intros _. apply triple_ret. naive_solver.
Qed.

Lemma downstream_multicast_spec flow i o ih gm :
  groups_ok gact gm → good ih → branch_spec flow (downstream_multicast flow i o ih gm).
Proof.
  intros Hgm Hi. unfold downstream_multicast.
  eapply triple_bind with (R := λ _, P).
  { apply triple_lift; [done|]. intros e s He Hs. eapply spec_exn; [done|].
    unfold get_group in He. destruct (iter_actions flow) eqn:Ha; [done|].
    apply iter_actions_exn in Ha. congruence. }
  intros og. eapply triple_bind with (R := λ _, P).
  { apply triple_from_some; [done|exn_done]. }
  intros gid. eapply triple_bind; [apply (lift_fields_spec flow (λ fs s, get_ofb_fields flow = Ok fs ∧ P s)); auto|].
  intros fields. eapply triple_bind with
    (R := λ acts s, (get_ofb_fields flow = Ok fields ∧ iter_actions flow = Ok acts) ∧ P s).
  { apply triple_lift; [naive_solver|]. intros e s ->%iter_actions_exn [_ Hs]. by eapply spec_exn. }
  intros acts. eapply triple_bind with (R := λ r s, P s ∧ rules_ok good gport gact flow r.1).
  - intros s [[Hf Ha] Hs].
    apply (triple_foldM (λ r s, P s ∧ rules_ok good gport gact flow r.1)).
    + intros a b Hb s' [Hs' Ha']. apply bucket_rules_spec; [|done..].
      destruct (gm !! gid) as [g|] eqn:Hg; [by eapply Hgm|by apply elem_of_nil in Hb].
    + split; [done|]. simpl. apply rules_ok_append; [auto with voltha|done|constructor; auto].
  - intros r. by apply triple_ret.
Qed.

(** Every device flow the decomposition of [flow] yields sits on the device of
    a hop of some route and has one of the derived shapes. *)
Lemma decompose_flow_derived flow gm :
  groups_ok gact gm → (∀ p, get_in_port flow = Ok (Some p) → gport p) →
  branch_spec flow (decompose_flow flow gm).
Proof.
  intros Hgm Hp. unfold decompose_flow.
  eapply triple_bind with (R := λ i s, (∀ p, i = Some p → gport p) ∧ P s).
  { apply triple_lift; [naive_solver|]. intros e s He Hs. eapply spec_exn; [done|].
    unfold get_in_port in He. destruct (get_ofb_fields flow) eqn:Hf; [done|].
    apply get_ofb_fields_exn in Hf. congruence. }
  intros i. eapply triple_bind with (R := λ o s, (∀ p, i = Some p → gport p) ∧ P s).
  { apply triple_lift; [naive_solver|]. intros e s He [_ Hs]. eapply spec_exn; [done|].
    unfold get_out_port in He. destruct (iter_actions flow) eqn:Ha; [done|].
    apply iter_actions_exn in Ha. congruence. }
  intros o. eapply triple_bind with (R := λ r s,
    (∀ p, i = Some p → gport p) ∧ P s ∧ ∀ hs h, r = Some hs → Some h ∈ hs → good h).
  { intros s [Hi Hs]. pose proof (spec_route i o s Hs) as Hr.
    destruct (get_route i o s) as [[r|e] s']; naive_solver. }
  intros [[|oh [|oh' [|]]]|]; simpl.
  1,2,4: apply triple_raise; exn_done.
  - intros s (Hi & Hs & Hg).
    assert (∀ h, oh' = Some h → good h) as He by (intros h ->; eapply Hg; [done|set_solver]).
    destruct (is_controller_port o); [by apply controller_bound_spec|].
    destruct oh as [ih|]; [|by eapply spec_exn].
    assert (good ih) as Hih by (eapply Hg; [done|set_solver]).
    unfold mbind, M_bind; simpl. destruct (d_root (device ih)); [|by apply upstream_spec].
    unfold downstream. destruct (has_next_table flow); [by apply downstream_goto_spec|].
    destruct o; [by apply downstream_unicast_spec|by apply downstream_multicast_spec].
  - eapply triple_bind with (R := λ _, P).
    + eapply triple_conseq; [apply (spec_delete flow)|naive_solver..].
    + intros _. apply triple_ret. auto with voltha.
Qed.

End derived_flows.

(** Any instance meets the specification that promises nothing. *)
#[export] Instance trivial_spec {St} (ops : FlowDecomposerOps St) :
  FlowDecomposerSpec ops (λ _, True) (λ _ _, True) (λ _, True) (λ _, True).
Proof.
  split; [done|..]; intros; intros s _.
  - destruct (get_route i o s) as [[r|e] s']; done.
  - destruct (get_wildcard_input_ports x s) as [[r|e] s']; [|done].
    split; [done|]. by apply Forall_true.
  - destruct (op_flow_delete f s) as [[r|e] s']; done.
  - destruct (get_all_default_rules s) as [[r|e] s']; done.
Qed.

(** ** When the decomposition deletes a flow *)

(** The ports a flow is routed to: where it outputs, the port its metadata
    name, or where a bucket of its group outputs. *)
Inductive destination (gm : gmap Z ofp_group_entry) (flow : ofp_flow_stats) : option Z → Prop :=
  | dest_out o : get_out_port flow = Ok o → destination gm flow o
  | dest_tag tag : get_metadata flow = Ok (Some tag) → destination gm flow (Some tag)
  | dest_bucket gid g b prev :
      get_group flow = Ok (Some gid) → gm !! gid = Some g → b ∈ gd_buckets (ge_desc g) →
      destination gm flow (scan_bucket prev (b_actions b)).1.

Section frame.
Context `{FlowDigest} `{DictOrder} {St : Type} {ops : FlowDecomposerOps St} (P : St → Prop).

Lemma bind_keeps {A B} (m : M St A) (k : A → M St B) s :
  P (m s).2 → (∀ a s', m s = (Ok a, s') → P s' → P (k a s').2) → P ((m ≫= k) s).2.
Proof.
  unfold mbind, M_bind. destruct (m s) as [[a|e] s'] eqn:Hm; simpl; intros Hp Hk; [by apply Hk|done].
Qed.

Lemma foldM_keeps {A B} (f : A → B → M St A) l :
  (∀ a x s, x ∈ l → P s → P (f a x s).2) → ∀ a s, P s → P (foldM f a l s).2.
Proof.
  induction l as [|x l IH]; intros Hf a s Hs; simpl; [done|].
  apply bind_keeps; [apply Hf; set_solver|]. intros a' s' _ Hs'. apply IH; set_solver.
Qed.

Lemma lift_keeps {A B} (r : result A) (k : A → M St B) s :
  P s → (∀ a, r = Ok a → P (k a s).2) → P ((lift r ≫= k) s).2.
Proof. intros Hs Hk. apply bind_keeps; [done|]. unfold lift. intros a s' [= -> <-] _. by apply Hk. Qed.

Lemma some_keeps {A B} e (o : option A) (k : A → M St B) s :
  P s → (∀ a, o = Some a → P (k a s).2) → P ((from_some e o ≫= k) s).2.
Proof. intros Hs Hk. unfold from_some, mbind, M_bind. destruct o; [by apply Hk|done]. Qed.

Lemma assert_keeps {B} b (k : unit → M St B) s :
  P s → (P (k tt s).2) → P ((passert b ≫= k) s).2.
Proof. intros Hs Hk. unfold passert, mbind, M_bind. by destruct b. Qed.

Context (Hroute : ∀ i o s, P s → P (get_route i o s).2).
Context (Hwild : ∀ x s, P s → P (get_wildcard_input_ports x s).2).

Section one_flow.
Context (flow : ofp_flow_stats) (gm : gmap Z ofp_group_entry) (i : option Z) (Hi : get_in_port flow = Ok i).
Context (Hdel : ∀ o s0 s, destination gm flow o → get_route i o s0 = (Ok None, s) → P s →
  P (op_flow_delete flow s).2).

Local Ltac keeps := repeat (
  first [done | apply lift_keeps; [done|intros ? _] | apply some_keeps; [done|intros ? ?]
        | apply assert_keeps; [done|]]).

Lemma goto_keeps o ih s : P s → P (downstream_goto flow i o ih s).2.
Proof.
  intros Hs. unfold downstream_goto. apply assert_keeps; [done|]. apply lift_keeps; [done|].
  intros tag Htag. apply bind_keeps.
  - destruct tag as [tag|]; [|done]. apply bind_keeps; [by apply Hroute|].
    intros [[|oh [|oh' [|]]]|] s' Hr Hs'; [by keeps..|].
    apply bind_keeps; [|done]. eapply Hdel; [by apply dest_tag|done|done].
  - intros [h|] s' _ Hs'; by keeps.
Qed.

Lemma bucket_keeps gid g ih acc b s :
  get_group flow = Ok (Some gid) → gm !! gid = Some g → b ∈ gd_buckets (ge_desc g) →
  P s → P (bucket_rules flow i ih acc b s).2.
Proof.
  intros Hgid Hg Hb Hs. unfold bucket_rules. destruct acc as [rules out].
  destruct (scan_bucket out (b_actions b)) as [out' others] eqn:Hsc.
  apply bind_keeps; [by apply Hroute|]. intros [[|oh [|oh' [|]]]|] s' Hr Hs'; [by keeps..|].
  apply bind_keeps; [|done]. eapply (Hdel out'); [|done|done].
  replace out' with (scan_bucket out (b_actions b)).1 by (by rewrite Hsc). by eapply dest_bucket.
Qed.

Lemma multicast_keeps o ih s : P s → P (downstream_multicast flow i o ih gm s).2.
Proof.
  intros Hs. unfold downstream_multicast. apply lift_keeps; [done|]. intros og Hog.
  apply some_keeps; [done|]. intros gid ->. do 2 (apply lift_keeps; [done|intros ? _]).
  apply bind_keeps; [|done]. apply foldM_keeps; [|done]. intros acc b s' Hb Hs'.
  destruct (gm !! gid) as [g|] eqn:Hg; [by eapply bucket_keeps|by apply elem_of_nil in Hb].
Qed.

(** A predicate on the state that routing keeps is kept by the decomposition
    of a flow, if the deletion of that flow keeps it where a route to one of
    its destinations was just found missing. *)
Lemma decompose_flow_keeps s : P s → P (decompose_flow flow gm s).2.
Proof.
  intros Hs. unfold decompose_flow. apply lift_keeps; [done|]. rewrite Hi. intros ? [= <-].
  apply lift_keeps; [done|]. intros o Ho. apply bind_keeps; [by apply Hroute|].
  intros [[|oh [|oh' [|]]]|] s' Hr Hs'; [done| |  |done|].
  - done.
  - destruct (is_controller_port o).
    { unfold controller_bound. apply some_keeps; [done|]. intros h _. apply bind_keeps.
      - destruct i; [done|by apply Hwild].
      - intros ps s2 _ Hs2. by keeps. }
    apply some_keeps; [done|]. intros ih _. destruct (d_root (device ih)).
    + unfold downstream, downstream_unicast. destruct (has_next_table flow); [by apply goto_keeps|].
      destruct o; [by keeps|by apply multicast_keeps].
    + unfold upstream. destruct (has_next_table flow); by keeps.
  - apply bind_keeps; [|done]. eapply Hdel; [by apply dest_out|done|done].
Qed.

End one_flow.

Lemma decompose_rules_keeps flows groups s :
  (∀ s, P s → P (get_all_default_rules s).2) →
  (∀ flow i o s0 s, flow ∈ flows → get_in_port flow = Ok i →
     destination (group_map_of groups) flow o → get_route i o s0 = (Ok None, s) → P s →
     P (op_flow_delete flow s).2) →
  P s → P (decompose_rules flows groups s).2.
Proof.
  intros Hdef Hdel Hs. unfold decompose_rules. apply bind_keeps; [by apply Hdef|]. intros dr s1 _ Hs1.
  apply foldM_keeps; [|done]. intros dr' flow s2 Hflow Hs2. unfold decompose_one.
  apply bind_keeps.
  - destruct (get_in_port flow) as [i|e] eqn:Hi.
    + eapply decompose_flow_keeps; [done|by eauto|done].
    + unfold decompose_flow. rewrite Hi. by apply lift_keeps.
  - intros rules s3 _ Hs3. apply foldM_keeps; [|done]. intros d [dev [fl gr]] s4 _ Hs4.
    unfold merge_device. apply some_keeps; [done|]. intros d' _.
    destruct (default ([], []) (d' !! dev)). by destruct gr.
Qed.

End frame.

(** ** The tables a decomposition fills *)
Section tables.
Context `{FlowDigest} `{DictOrder} {St : Type} {ops : FlowDecomposerOps St}.

(** The flows decomposed one after the other. *)
Definition decompose_flows (gm : gmap Z ofp_group_entry) (flows : list ofp_flow_stats)
    : M St (list flow_rules) :=
  mapM (λ f, decompose_flow f gm) flows.

(** Flows of device [dev] in the rules of one decomposed flow. *)
Definition flows_for (dev : string) (r : flow_rules) : list ofp_flow_stats :=
  match r !! dev with Some (fl, _) => fl | None => [] end.

(** The flows of a list that are the first of their id, under their ids,
    less those with an id in [seen]. *)
Fixpoint first_of_id (seen : list Z) (fl : list ofp_flow_stats) : list (Z * ofp_flow_stats) :=
  match fl with
  | [] => []
  | f :: fl =>
      if decide (fs_id f ∈ seen) then first_of_id seen fl
      else (fs_id f, f) :: first_of_id (seen ++ [fs_id f]) fl
  end.

(** The table of [dev] when the rules [rs] come on top of [dr]: the default
    flows as they are, then of the other ids the first flow of each. *)
Definition device_table (dr : device_rules) (rs : list flow_rules) (dev : string)
    : option (list (Z * ofp_flow_stats) * list (Z * ofp_group_entry)) :=
  match dr !! dev with
  | Some (fl, gr) => Some (fl ++ first_of_id fl.*1 (concat (flows_for dev <$> rs)), gr)
  | None =>
      if existsb (λ r : flow_rules, bool_decide (is_Some (r !! dev))) rs
      then Some (first_of_id [] (concat (flows_for dev <$> rs)), []) else None
  end.

Lemma add_flows_first d l : add_flows d l = d ++ first_of_id d.*1 l.
Proof.
  unfold add_flows. revert d. induction l as [|f l IH]; intros d; simpl; [by rewrite app_nil_r|].
  rewrite IH. unfold od_add_new. destruct (od_mem (fs_id f) d) eqn:Hm.
  - apply od_mem_true in Hm. by rewrite decide_True.
  - apply od_mem_false in Hm. rewrite decide_False, od_set_new, fmap_app by done.
    by rewrite <- app_assoc.
Qed.

Lemma device_table_add dr rs dev :
  device_table dr rs dev =
  match dr !! dev with
  | Some (fl, gr) => Some (add_flows fl (concat (flows_for dev <$> rs)), gr)
  | None =>
      if existsb (λ r : flow_rules, bool_decide (is_Some (r !! dev))) rs
      then Some (add_flows [] (concat (flows_for dev <$> rs)), []) else None
  end.
Proof.
  unfold device_table. destruct (dr !! dev) as [[fl gr]|]; [|destruct (existsb _ _)];
    by rewrite ?add_flows_first.
Qed.

Lemma add_flows_app d l1 l2 : add_flows d (l1 ++ l2) = add_flows (add_flows d l1) l2.
Proof. apply foldl_app. Qed.

Lemma device_table_cons dr r rs dev :
  device_table dr (r :: rs) dev =
  device_table (match r !! dev with
                | Some (fl, _) => let '(f, g) := default ([], []) (dr !! dev) in
                                  <[dev := (add_flows f fl, g)]> dr
                | None => dr
                end) rs dev.
Proof.
  rewrite !device_table_add. unfold flows_for. csimpl. destruct (r !! dev) as [[fl gr]|] eqn:Hr; simpl.
  - destruct (dr !! dev) as [[f g]|] eqn:Hd; simpl; rewrite lookup_insert_eq; by rewrite add_flows_app.
  - done.
Qed.

(** Merging the (distinct) devices of one flow's rules, in any order. *)
Lemma merge_devices_ok (l : list (string * (list ofp_flow_stats * list ofp_group_entry)))
    (dr : device_rules) (s : St) :
  NoDup l.*1 → (∀ dev fl gr, (dev, (fl, gr)) ∈ l → gr = []) →
  ∃ dr', foldM merge_device (Some dr) l s = (Ok (Some dr'), s) ∧
    ∀ dev, dr' !! dev =
      match od_get dev l with
      | Some (fl, _) => let '(f, g) := default ([], []) (dr !! dev) in Some (add_flows f fl, g)
      | None => dr !! dev
      end.
Proof.
  revert dr. induction l as [|[dev [fl gr]] l IH]; intros dr Hnd Hgr; csimpl; [by eexists|].
  apply NoDup_cons in Hnd as [Hni Hnd].
  pose proof (Hgr dev fl gr ltac:(set_solver)) as ->.
  destruct (default ([], []) (dr !! dev)) as [f g] eqn:Hdef.
  destruct (IH (<[dev := (add_flows f fl, g)]> dr) Hnd) as (dr' & Hrun & Hdr'); [set_solver|].
  exists dr'. split.
  - unfold mbind, M_bind. simpl. rewrite Hdef. apply Hrun.
  - intros dev'. rewrite Hdr'. case_decide as Heq.
    + subst dev'. rewrite (proj2 (od_get_None dev l) Hni), lookup_insert_eq. by rewrite Hdef.
    + by rewrite lookup_insert_ne by done.
Qed.

Lemma decompose_flow_no_groups flow gm s rules s' dev fl gr :
  decompose_flow flow gm s = (Ok rules, s') → rules !! dev = Some (fl, gr) → gr = [].
Proof.
  intros Hrun Hl.
  pose proof (decompose_flow_derived (ops := ops) (P := λ _, True) (E := λ _ _, True)
    (good := λ _, True) (gport := λ _, True) (gact := λ _, True) flow gm
    (λ _ _ _ _ _, Forall_true _ _ (λ _, I)) (λ _ _, I) s I) as Hd.
  rewrite Hrun in Hd. by apply (proj2 Hd) in Hl as [? _].
Qed.

Lemma decompose_one_ok gm dr flow s rules s' :
  decompose_flow flow gm s = (Ok rules, s') →
  ∃ dr', decompose_one gm (Some dr) flow s = (Ok (Some dr'), s') ∧
    ∀ dev, dr' !! dev =
      match rules !! dev with
      | Some (fl, _) => let '(f, g) := default ([], []) (dr !! dev) in Some (add_flows f fl, g)
      | None => dr !! dev
      end.
Proof.
  intros Hrun. destruct (merge_devices_ok (iteritems rules) dr s') as (dr' & Hm & Hl).
  - auto with voltha.
  - intros dev fl gr Hin%elem_of_iteritems. by eapply decompose_flow_no_groups.
  - exists dr'. split; [unfold decompose_one; by mstep|].
    intros dev. rewrite Hl. destruct (od_get dev (iteritems rules)) eqn:Hg.
    + apply od_get_Some_in, elem_of_iteritems in Hg. by rewrite Hg.
    + apply od_get_None in Hg. destruct (rules !! dev) as [p|] eqn:Hr; [|done].
      destruct Hg. apply (od_elem_key _ p). by apply elem_of_iteritems.
Qed.

Lemma decompose_all_ok gm flows : ∀ (dr : device_rules) s,
  match decompose_flows gm flows s with
  | (Ok rs, s') =>
      ∃ dr', foldM (decompose_one gm) (Some dr) flows s = (Ok (Some dr'), s') ∧
        ∀ dev, dr' !! dev = device_table dr rs dev
  | (Err e, s') => foldM (decompose_one gm) (Some dr) flows s = (Err e, s')
  end.
Proof.
  induction flows as [|flow flows IH]; intros dr s; unfold decompose_flows; simpl.
  - exists dr. split; [done|]. intros dev. rewrite device_table_add; simpl.
    destruct (dr !! dev) as [[f g]|]; done.
  - unfold mbind, M_bind at 1 2.
    destruct (decompose_flow flow gm s) as [[rules|e] s1] eqn:Hrun.
    + destruct (decompose_one_ok gm dr flow s rules s1 Hrun) as (dr1 & H1 & Hl1).
      specialize (IH dr1 s1). unfold M_bind. rewrite H1.
      change (mapM (λ f, decompose_flow f gm) flows s1) with (decompose_flows gm flows s1).
      destruct (decompose_flows gm flows s1) as [[rs|e] s2] eqn:Hm; [|done].
      destruct IH as (dr' & Hf & Hl'). exists dr'. split; [done|]. intros dev.
      rewrite Hl', device_table_cons. specialize (Hl1 dev).
      rewrite !device_table_add. destruct (rules !! dev) as [[fl gr]|] eqn:Hr; simpl.
      * destruct (default ([], []) (dr !! dev)) as [f g] eqn:Hd.
        by rewrite Hl1, lookup_insert_eq.
      * by rewrite Hl1.
    + unfold M_bind, decompose_one. by mstep.
Qed.

Lemma add_flows_prefix d l : d `prefix_of` add_flows d l.
Proof.
  unfold add_flows. revert d. induction l as [|f l IH]; intros d; simpl; [done|].
  etrans; [|apply IH]. apply od_add_new_prefix.
Qed.

Lemma add_flows_NoDup d l : NoDup d.*1 → NoDup (add_flows d l).*1.
Proof.
  unfold add_flows. revert d. induction l as [|f l IH]; intros d Hd; simpl; [done|].
  apply IH. auto with voltha.
Qed.

Lemma add_flows_mem d l f : f ∈ l → fs_id f ∈ (add_flows d l).*1.
Proof.
  unfold add_flows. revert d. induction l as [|g l IH]; intros d; simpl; [set_solver|].
  intros [->|Hin]%elem_of_cons; [|by apply IH].
  assert (fs_id g ∈ (od_add_new (fs_id g) g d).*1) as Hg.
  { unfold od_add_new. destruct (od_mem (fs_id g) d) eqn:Hm; [by apply od_mem_true|].
    apply od_mem_false in Hm. rewrite od_set_new, fmap_app by done. set_solver. }
  destruct (add_flows_prefix (od_add_new (fs_id g) g d) l) as [k Hk].
  unfold add_flows in Hk. rewrite Hk, fmap_app. set_solver.
Qed.

Lemma add_flows_elem d l i f :
  (i, f) ∈ add_flows d l → (i, f) ∈ d ∨ (f ∈ l ∧ i = fs_id f).
Proof.
  unfold add_flows. revert d. induction l as [|g l IH]; intros d; simpl; [auto|].
  intros [Hin|[Hin ->]]%IH; [|set_solver].
  unfold od_add_new in Hin. destruct (od_mem (fs_id g) d) eqn:Hm; [auto|].
  apply od_mem_false in Hm. rewrite od_set_new in Hin by done. set_solver.
Qed.

End tables.

(** ** Well-formed flows

    Protobuf accepts an integer for a field only within the field's width; the
    predicate is what a flow built from accepted messages satisfies. *)
Definition wf_ofb (f : ofb_field) : Prop :=
  match of_value f with
  | Some (c, PInt n) => match case_width c with Some w => is_uint w n | None => False end
  | Some (c, PBytes _) => case_width c = None
  | None => True
  end.

Definition wf_action (a : ofp_action) : Prop :=
  match a_body a with
  | AOutput p l => is_uint 32 p ∧ is_uint 32 l
  | AMplsTtl n | APush n | APopMpls n | AGroup n | ANwTtl n | AExperimenter n _ => is_uint 32 n
  | ASetField x => match oxm_field_body x with OxmOfb f => wf_ofb f | _ => True end
  | ANone => True
  end.

Definition wf_flow (f : ofp_flow_stats) : Prop :=
  is_uint 64 (fs_id f) ∧ is_uint 32 (fs_priority f) ∧ is_uint 64 (fs_cookie f) ∧
  (∀ fields, get_ofb_fields f = Ok fields → Forall wf_ofb fields) ∧
  (∀ acts, get_actions f = Some acts → Forall wf_action acts).

(** A hop whose port numbers are within their width. *)
Definition wf_hop (h : RouteHop) : Prop :=
  is_uint 32 (port_no (ingress_port h)) ∧ is_uint 32 (port_no (egress_port h)).

(** [f] is a flow of the device of [h] from one port of the hop to the other:
    its first match field is the input port, no other field matches on a port,
    and its last action outputs on the opposite port. *)
Definition crosses (h : RouteHop) (f : ofp_flow_stats) : Prop :=
  ∃ pin pout fields acts,
    ((pin = port_no (ingress_port h) ∧ pout = port_no (egress_port h)) ∨
     (pin = port_no (egress_port h) ∧ pout = port_no (ingress_port h))) ∧
    get_ofb_fields f = Ok (in_port pin :: fields) ∧
    Forall (λ x, of_type x ≠ IN_PORT) fields ∧
    get_actions f = Some (acts ++ [output pout]).

Section shapes.
Context `{FlowDigest}.

Lemma drop_types_none t drop fs : t ∈ drop → Forall (λ x, of_type x ≠ t) (drop_types drop fs).
Proof.
  intros Ht. apply Forall_forall. intros x [Hx _]%list_elem_of_filter Heq. by subst t.
Qed.

Lemma drop_types_Forall (Q : ofb_field → Prop) drop fs :
  Forall Q fs → Forall Q (drop_types drop fs).
Proof.
  rewrite !Forall_forall. intros HQ x [_ Hx]%list_elem_of_filter. by apply HQ.
Qed.

Lemma drop_actions_Forall (Q : ofp_action → Prop) drop acts :
  Forall Q acts → Forall Q (drop_action_types drop acts).
Proof.
  rewrite !Forall_forall. intros HQ x [_ Hx]%list_elem_of_filter. by apply HQ.
Qed.

Lemma scan_bucket_Forall (Q : ofp_action → Prop) out acts :
  Forall Q acts → Forall Q (scan_bucket out acts).2.
Proof.
  unfold scan_bucket. assert (Forall Q (out, @nil ofp_action).2) as H0 by constructor. revert H0.
  generalize (out, @nil ofp_action) as acc. clear out.
  induction acts as [|a acts IH]; intros [out others] Ho Ha; simpl; [done|].
  apply Forall_cons in Ha as [Ha Has]. apply IH; [|done].
  unfold scan_action. repeat case_decide; [done..|]. apply Forall_app. auto.
Qed.

Lemma derived_crosses gport gact flow h f : derived gport gact flow h f → crosses h f.
Proof.
  intros [fields p Hf Hp|p Hp|fields acts dropa extra Hf Ha Hx|fields acts out Hf Hacts].
  - eexists _, _, _, [_; _]. split; [by left|]. split_and!.
    + apply mk_flow_stat_fields.
    + apply Forall_cons; split; [done|]. apply drop_types_none. set_solver.
    + done.
  - eexists _, _, _, [_]. split; [by right|]. split_and!.
    + apply mk_flow_stat_fields.
    + by repeat constructor.
    + done.
  - eexists _, _, _, (drop_action_types dropa acts ++ extra). split; [by left|]. split_and!.
    + apply mk_flow_stat_fields.
    + apply drop_types_none. set_solver.
    + unfold through_hop. rewrite mk_flow_stat_actions. by rewrite app_assoc.
  - eexists _, _, _, _. split; [by left|]. split_and!.
    + apply mk_flow_stat_fields.
    + apply drop_types_none. set_solver.
    + done.
Qed.

Lemma derived_priority gport gact flow h f : derived gport gact flow h f → fs_priority f = fs_priority flow.
Proof. by intros []. Qed.

Lemma mk_flow_stat_wf p c fs acts :
  is_uint 32 p → is_uint 64 c → Forall wf_ofb fs → Forall wf_action acts →
  wf_flow (mk_flow_stat p c fs acts).
Proof.
  intros Hp Hc Hfs Ha. split_and!; [apply digest_uint64|done|done| |].
  - intros fs'. rewrite mk_flow_stat_fields. by intros [= <-].
  - intros acts'. rewrite mk_flow_stat_actions. by intros [= <-].
Qed.

Lemma wf_in_port n : is_uint 32 n → wf_ofb (in_port n).
Proof. done. Qed.

Lemma wf_vlan_vid n : is_uint 32 n → wf_ofb (vlan_vid (Z.lor OFPVID_PRESENT n)).
Proof. intros Hn. apply is_uint_lor; [lia|vm_compute; intuition congruence|done]. Qed.

Lemma wf_metadata n : is_uint 32 n → wf_ofb (metadata n).
Proof. intros Hn. by apply (is_uint_weaken 32 64). Qed.

Lemma wf_output n : is_uint 32 n → wf_action (output n).
Proof. intros Hn. split; [done|]. vm_compute. intuition congruence. Qed.

Hint Resolve wf_in_port wf_vlan_vid wf_metadata wf_output : voltha.

Lemma derived_wf flow h f :
  wf_flow flow → wf_hop h → derived (is_uint 32) wf_action flow h f → wf_flow f.
Proof.
  intros (Hid & Hp & Hc & Hfs & Has) [Hi He].
  intros [fields p Hf Hgp|p Hgp|fields acts dropa extra Hf Ha Hx|fields acts out Hf Hacts].
  - apply mk_flow_stat_wf; [done..| |].
    + repeat (apply Forall_cons; split; [auto with voltha|]). by apply drop_types_Forall, Hfs.
    + repeat (apply Forall_cons; split; [|]); [vm_compute; intuition congruence..| |done].
      auto with voltha.
  - apply mk_flow_stat_wf; [done|vm_compute; intuition congruence| |].
    + repeat (apply Forall_cons; split); auto with voltha; vm_compute; intuition congruence.
    + repeat (apply Forall_cons; split); auto with voltha; done.
  - apply mk_flow_stat_wf; [done..| |].
    + apply Forall_cons; split; [auto with voltha|]. by apply drop_types_Forall, Hfs.
    + unfold iter_actions in Ha. destruct (get_actions flow) as [acts'|]; [|done].
      injection Ha as ->. apply Forall_app; split; [by apply drop_actions_Forall, Has|].
      apply Forall_app; split; [by destruct Hx as [-> | ->]; repeat constructor|].
      apply Forall_singleton. auto with voltha.
  - apply mk_flow_stat_wf; [done..| |].
    + apply Forall_cons; split; [auto with voltha|]. by apply drop_types_Forall, Hfs.
    + apply Forall_app; split; [by apply scan_bucket_Forall|].
      apply Forall_singleton. auto with voltha.
Qed.

Lemma get_in_port_wf flow p : wf_flow flow → get_in_port flow = Ok (Some p) → is_uint 32 p.
Proof.
  intros (_ & _ & _ & Hfs & _). unfold get_in_port.
  destruct (get_ofb_fields flow) as [fields|]; [|done]. specialize (Hfs fields eq_refl).
  intros [= (f & Hh & ->)%fmap_Some]. destruct (filter _ fields) as [|f' l] eqn:Hfl; [done|].
  injection Hh as ->. assert (f ∈ filter (λ f, of_type f = IN_PORT) fields) as Hin
    by (rewrite Hfl; set_solver).
  apply list_elem_of_filter in Hin as [_ Hin]. rewrite Forall_forall in Hfs.
  specialize (Hfs f Hin). unfold wf_ofb in Hfs. unfold read_int, read_case.
  destruct (of_value f) as [[c [n|b]]|]; simpl; [|case_decide; [by subst|done]|done].
  case_decide as Hc; [|done]. by subst c.
Qed.

End shapes.

(** ** Properties *)
Section properties.
Context `{FlowDigest} `{DictOrder} {St : Type} {ops : FlowDecomposerOps St}.

(** C6 Decomposing a flow table is decomposing its flows one after the other
    and merging the results: when the default rules are [dr], the run of
    [decompose_rules] ends as the run of [decompose_flow] over the flows does,
    and the table of every device is its default flows followed by the first
    flow of every other id among the flows decomposed for it, in order -
    whatever the iteration order of the dictionaries. *)
Theorem decompose_rules_tables flows groups s dr s1
    (Hdef : get_all_default_rules s = (Ok (Some dr), s1)) :
  match decompose_flows (group_map_of groups) flows s1 with
  | (Ok rs, s') =>
      ∃ dr', decompose_rules flows groups s = (Ok (Some dr'), s') ∧
        ∀ dev, dr' !! dev = device_table dr rs dev
  | (Err e, s') => decompose_rules flows groups s = (Err e, s')
  end.
Proof. unfold decompose_rules. mstep. apply decompose_all_ok. Qed.

(** The tables [decompose_rules] returns extend the default rules: the
    flow ids of a device's table are distinct, its default flows come first
    and unchanged, its groups are the default ones, and every other flow is
    stored under its own id. *)
Theorem decompose_rules_extends_defaults flows groups s dr s1 dr' s'
    (Hdef : get_all_default_rules s = (Ok (Some dr), s1))
    (Huniq : ∀ dev fl gr, dr !! dev = Some (fl, gr) → NoDup fl.*1)
    (Hrun : decompose_rules flows groups s = (Ok (Some dr'), s')) :
  ∀ dev fl' gr', dr' !! dev = Some (fl', gr') →
    let '(fl, gr) := default ([], []) (dr !! dev) in
    NoDup fl'.*1 ∧ fl `prefix_of` fl' ∧ gr' = gr ∧
    ∀ i f, (i, f) ∈ fl' → (i, f) ∈ fl ∨ i = fs_id f.
Proof.
  intros dev fl' gr' Hl. unfold decompose_rules in Hrun.
  erewrite bind_ok in Hrun by done.
  pose proof (decompose_all_ok (group_map_of groups) flows dr s1) as Hall.
  destruct (decompose_flows _ flows s1) as [[rs|e] s2]; [|congruence].
  destruct Hall as (dr2 & Hf & Ht). rewrite Hf in Hrun. injection Hrun as -> ->.
  rewrite Ht, device_table_add in Hl.
  destruct (dr !! dev) as [[fl gr]|] eqn:Hd; simpl.
  - injection Hl as <- <-. split_and!; [|apply add_flows_prefix|done|].
    + eapply add_flows_NoDup, Huniq, Hd.
    + intros i f [Hin|[_ ->]]%add_flows_elem; auto.
  - destruct (existsb _ rs); [|done]. injection Hl as <- <-.
    split_and!; [|apply add_flows_prefix|done|].
    + apply add_flows_NoDup. constructor.
    + intros i f [Hin|[_ ->]]%add_flows_elem; auto.
Qed.

(** C21 Every device flow a logical flow is decomposed into belongs to the
    device of a hop of a route, keeps the priority, matches on the input port
    where that hop enters (or leaves) the device and on no other port, and
    ends with an output on the hop's opposite port. *)
Theorem decompose_flow_crosses P E good gport flow gm
    (Hspec : FlowDecomposerSpec ops P E good gport)
    (Hport : ∀ p, get_in_port flow = Ok (Some p) → gport p) :
  triple P (decompose_flow flow gm)
    (λ rules s, P s ∧ ∀ dev fl gr f, rules !! dev = Some (fl, gr) → f ∈ fl →
       ∃ h, good h ∧ d_id (device h) = dev ∧ crosses h f ∧ fs_priority f = fs_priority flow) E.
Proof.
  assert (groups_ok (λ _, True) gm) as Hgm by (intros gid g b _ _; by apply Forall_true).
  eapply triple_conseq; [by apply (decompose_flow_derived flow gm Hgm Hport)|auto| |auto].
  intros rules s [Hs Hr]. split; [done|]. intros dev fl gr f Hl Hf.
  destruct (Hr dev fl gr Hl) as [_ Hd]. destruct (Hd f Hf) as (h & Hg & Hdev & Hder).
  exists h. split_and!; [done..|by eapply derived_crosses|by eapply derived_priority].
Qed.

(** Widths: when the flow, the port numbers of routes and wildcard ports,
    and the group buckets are within their protobuf widths, so is every device
    flow of the decomposition (in particular the tag [OFPVID_PRESENT | port]
    and the 64-bit metadata), so no field assignment overflows. *)
Theorem decompose_flow_bounds P E flow gm
    (Hspec : FlowDecomposerSpec ops P E wf_hop (is_uint 32))
    (Hflow : wf_flow flow) (Hgroups : groups_ok wf_action gm) :
  triple P (decompose_flow flow gm)
    (λ rules s, P s ∧ ∀ dev fl gr, rules !! dev = Some (fl, gr) → Forall wf_flow fl) E.
Proof.
  assert (∀ p, get_in_port flow = Ok (Some p) → is_uint 32 p) as Hport
    by eauto using get_in_port_wf.
  eapply triple_conseq; [by apply (decompose_flow_derived flow gm Hgroups Hport)|auto| |auto].
  intros rules s [Hs Hr]. split; [done|]. intros dev fl gr Hl. apply Forall_forall. intros f Hf.
  destruct (Hr dev fl gr Hl) as [_ Hd]. destruct (Hd f Hf) as (h & Hg & _ & Hder).
  by eapply derived_wf.
Qed.

Lemma append_flow_singleton dev f fl gr :
  append_flow dev f {[dev := (fl, gr)]} = {[dev := (fl ++ [f], gr)]}.
Proof. unfold append_flow. rewrite lookup_singleton_eq. simpl. by rewrite insert_singleton_eq. Qed.

Lemma controller_fold dev flow fields h ports fl :
  foldl (λ r p, append_flow dev (controller_down flow h p)
                  (append_flow dev (controller_up flow fields h p) r)) {[dev := (fl, [])]} ports =
  {[dev := (fl ++ flat_map (λ p, [controller_up flow fields h p; controller_down flow h p]) ports,
            [])]}.
Proof.
  revert fl. induction ports as [|p ports IH]; intros fl; simpl; [by rewrite app_nil_r|].
  rewrite !append_flow_singleton, IH. by rewrite <- !app_assoc.
Qed.

(** A controller-bound flow is handled on the OLT alone: for its input
    port, or for every wildcard port but the NNI when it has none, the OLT
    gets one upstream flow that pushes tag 4000 and one downstream flow that
    pops it and restores the direction, and no other device gets a flow. *)
Theorem controller_bound_exact flow gm s fields in_no out ih h s1 ports s'
    (Hf : get_ofb_fields flow = Ok fields)
    (Hin : get_in_port flow = Ok in_no)
    (Hout : get_out_port flow = Ok (Some out))
    (Hctl : Z.land out 0x7fffffff = OFPP_CONTROLLER)
    (Hroute : get_route in_no (Some out) s = (Ok (Some [ih; Some h]), s1))
    (Hports : match in_no with
              | Some p => ports = [p] ∧ s' = s1
              | None => get_wildcard_input_ports (Some (port_no (egress_port h))) s1 = (Ok ports, s')
              end) :
  decompose_flow flow gm s =
    (Ok {[d_id (device h) :=
           (flat_map (λ p, [controller_up flow fields h p; controller_down flow h p]) ports, [])]},
     s').
Proof.
  unfold decompose_flow. rewrite Hin, Hout. do 2 mstep. mstep.
  assert (is_controller_port (Some out) = true) as -> by (by apply bool_decide_eq_true).
  unfold controller_bound. mstep.
  assert ((match in_no with
           | Some p => mret [p]
           | None => get_wildcard_input_ports (Some (port_no (egress_port h)))
           end : M St (list Z)) s1 = (Ok ports, s')) as Hp.
  { destruct in_no; [by destruct Hports as [-> ->]|done]. }
  erewrite bind_ok by exact Hp. rewrite Hf. mstep.
  unfold mret, M_ret. repeat f_equal. unfold setdefault. rewrite lookup_empty.
  by rewrite insert_empty, controller_fold.
Qed.

(** A unicast flow is placed on exactly one device of its route: with a
    goto-table instruction on the device where it enters (the ONU upstream,
    applying the inner tag, the OLT downstream), otherwise on the device where
    it leaves, with the logical output replaced by the port of the hop. *)
Theorem unicast_placement flow gm s fields acts in_no out ih eh s1
    (Hf : get_ofb_fields flow = Ok fields)
    (Ha : get_actions flow = Some acts)
    (Hin : get_in_port flow = Ok in_no)
    (Hout : get_out_port flow = Ok out)
    (Hctl : is_controller_port out = false)
    (Hgoto : has_next_table flow = true ↔ out = None)
    (Hmeta : get_metadata flow = Ok None)
    (Hroute : get_route in_no out s = (Ok (Some [Some ih; Some eh]), s1)) :
  decompose_flow flow gm s =
    (Ok (if has_next_table flow
         then {[d_id (device ih) := ([through_hop flow fields acts [IN_PORT] [] [] ih], [])]}
         else {[d_id (device eh) := ([through_hop flow fields acts [IN_PORT] [OUTPUT] [] eh], [])]}),
     s1).
Proof.
  assert (iter_actions flow = Ok acts) as Hi by (unfold iter_actions; by rewrite Ha).
  assert (∀ dev f, append_flow dev f ∅ = {[dev := ([f], [])]}) as Hone.
  { intros dev f. unfold append_flow. rewrite lookup_empty. done. }
  unfold decompose_flow. rewrite Hin, Hout. do 2 mstep. mstep. rewrite Hctl. mstep.
  unfold downstream, downstream_goto, downstream_unicast, upstream.
  destruct (has_next_table flow) eqn:Hn.
  - rewrite (proj1 Hgoto eq_refl), Hf, Hi, Hmeta. rewrite !bool_decide_true by done.
    destruct (d_root (device ih)); unfold mbind, M_bind; simpl; by rewrite Hone.
  - destruct out as [o|]; [|by pose proof (proj2 Hgoto eq_refl)]. rewrite Hf, Hi. rewrite bool_decide_true by done.
    destruct (d_root (device ih)); unfold mbind, M_bind; simpl; by rewrite Hone.
Qed.

End properties.

(** ** Witnesses

    A decomposer over a fixed route table: NNI 0, UNI 101. *)
Section sample_decomposer.
Local Open Scope string_scope.

Definition sample_route (i o : option Z) : option route :=
  match i, o with
  | Some 101, Some 0 | Some 101, Some 0xfffffffd => Some [Some up_onu; Some up_olt]
  | Some 0, Some 101 => Some [Some down_olt; Some down_onu]
  | None, Some 0xfffffffd => Some [None; Some up_olt]
  | _, _ => None
  end.

Definition sample_defaults : device_rules :=
  {[ "olt" := ([], []); "onu" := ([(1, trap_flow)], []) ]}.

Definition sample_ops : FlowDecomposerOps unit := {|
  get_all_default_rules := mret (Some sample_defaults);
  get_route := λ i o, mret (sample_route i o);
  get_wildcard_input_ports := λ _, mret [101];
  op_flow_delete := λ _, mret tt;
|}.

Lemma sample_route_cases i o hs h :
  sample_route i o = Some hs → Some h ∈ hs → h ∈ [up_onu; up_olt; down_olt; down_onu].
Proof.
  unfold sample_route. intros Hr Hh.
  repeat case_match; simplify_eq; set_solver.
Qed.

Lemma sample_spec :
  FlowDecomposerSpec sample_ops (λ _, True) (λ _ _, True)
    (λ h, h ∈ [up_onu; up_olt; down_olt; down_onu]) (is_uint 32).
Proof.
  split; [done|..].
  - intros i o s _. split; [done|]. intros hs h. apply sample_route_cases.
  - intros x s _. split; [done|]. by repeat constructor.
  - by intros f s _.
  - by intros s _.
Qed.

Lemma sample_wf_spec :
  FlowDecomposerSpec sample_ops (λ _, True) (λ _ _, True) wf_hop (is_uint 32).
Proof.
  split; [done|..].
  - intros i o s _. split; [done|]. intros hs h Hr Hh.
    pose proof (sample_route_cases i o hs h Hr Hh) as Hc.
    rewrite !elem_of_cons in Hc. destruct_or?; subst; try (by apply elem_of_nil in Hc);
      vm_compute; intuition congruence.
  - intros x s _. split; [done|]. by repeat constructor.
  - by intros f s _.
  - by intros s _.
Qed.

Lemma decompose_rules_tables_witness :
  match @decompose_flows sample_digest unit sample_ops ∅ [trap_flow] tt with
  | (Ok rs, s') =>
      ∃ dr', @decompose_rules sample_digest plain_order unit sample_ops [trap_flow] [] tt
               = (Ok (Some dr'), s') ∧
        ∀ dev, dr' !! dev = device_table sample_defaults rs dev
  | (Err e, s') =>
      @decompose_rules sample_digest plain_order unit sample_ops [trap_flow] [] tt = (Err e, s')
  end.
Proof.
  apply (@decompose_rules_tables sample_digest plain_order unit sample_ops [trap_flow] [] tt
           sample_defaults tt). reflexivity.
Defined.

Lemma decompose_rules_extends_defaults_witness :
  ∃ dr' s', @decompose_rules sample_digest plain_order unit sample_ops [trap_flow] [] tt
              = (Ok (Some dr'), s') ∧
    ∀ dev fl' gr', dr' !! dev = Some (fl', gr') →
      let '(fl, gr) := default ([], []) (sample_defaults !! dev) in
      NoDup fl'.*1 ∧ fl `prefix_of` fl' ∧ gr' = gr ∧
      ∀ i f, (i, f) ∈ fl' → (i, f) ∈ fl ∨ i = fs_id f.
Proof.
  eexists _, _. split; [vm_compute; reflexivity|].
  eapply (@decompose_rules_extends_defaults sample_digest plain_order unit sample_ops
           [trap_flow] [] tt sample_defaults tt).
  - reflexivity.
  - intros dev fl gr Hl. unfold sample_defaults in Hl. rewrite lookup_insert in Hl.
    case_decide; [by injection Hl as <- <-; constructor|].
    rewrite lookup_singleton in Hl. case_decide; [|done]. injection Hl as <- <-.
    apply NoDup_singleton.
  - vm_compute. reflexivity.
Defined.

Lemma decompose_flow_crosses_witness :
  triple (λ _ : unit, True) (@decompose_flow sample_digest unit sample_ops trap_flow ∅)
    (λ rules s, True ∧ ∀ dev fl gr f, rules !! dev = Some (fl, gr) → f ∈ fl →
       ∃ h, h ∈ [up_onu; up_olt; down_olt; down_onu] ∧ d_id (device h) = dev ∧ crosses h f ∧
         fs_priority f = fs_priority trap_flow) (λ _ _, True).
Proof.
  apply (@decompose_flow_crosses sample_digest unit sample_ops _ _ _ (is_uint 32) trap_flow ∅
           sample_spec).
  intros p Hp. assert (get_in_port trap_flow = Ok (Some 101)) as Ht by (vm_compute; reflexivity).
  rewrite Ht in Hp. injection Hp as <-. vm_compute. intuition congruence.
Defined.

Lemma decompose_flow_bounds_witness :
  triple (λ _ : unit, True) (@decompose_flow sample_digest unit sample_ops trap_flow ∅)
    (λ rules s, True ∧ ∀ dev fl gr, rules !! dev = Some (fl, gr) → Forall wf_flow fl) (λ _ _, True).
Proof.
  apply (@decompose_flow_bounds sample_digest unit sample_ops _ _ trap_flow ∅ sample_wf_spec).
  - apply (@mk_flow_stat_wf sample_digest); [vm_compute; intuition congruence..| |];
      repeat constructor; vm_compute; intuition congruence.
  - intros gid g b Hg. by rewrite lookup_empty in Hg.
Defined.

Lemma controller_bound_exact_witness :
  ∃ fields, get_ofb_fields trap_flow = Ok fields ∧
  @decompose_flow sample_digest unit sample_ops trap_flow ∅ tt =
    (Ok {["olt" := ([@controller_up sample_digest trap_flow fields up_olt 101;
                     @controller_down sample_digest trap_flow up_olt 101], [])]}, tt).
Proof.
  eexists. split; [vm_compute; reflexivity|].
  apply (@controller_bound_exact sample_digest unit sample_ops trap_flow ∅ tt _ (Some 101)
           0xfffffffd (Some up_onu) up_olt tt [101] tt); try (vm_compute; reflexivity).
  by split.
Defined.

Lemma unicast_placement_witness :
  ∃ fields acts, get_ofb_fields upstream_flow = Ok fields ∧
  get_actions upstream_flow = Some acts ∧
  @decompose_flow sample_digest unit sample_ops upstream_flow ∅ tt =
    (Ok {["olt" := ([@through_hop sample_digest upstream_flow fields acts [IN_PORT] [OUTPUT] []
                       up_olt], [])]}, tt).
Proof.
  eexists _, _. split; [vm_compute; reflexivity|]. split; [vm_compute; reflexivity|].
  refine (@unicast_placement sample_digest unit sample_ops upstream_flow ∅ tt _ _ (Some 101)
           (Some 0) up_onu up_olt tt _ _ _ _ _ _ _ _); try (vm_compute; reflexivity).
  vm_compute. split; discriminate.
Defined.

End sample_decomposer.
