(* ===== verification/DeviceGraph.v ===== *)
(** * The device graph of a logical device

    The mixin [DeviceGraph] of src/voltha/core/device_graph.py: it walks the
    devices behind a logical device, builds a graph of devices and ports, and
    computes the route between every NNI and every UNI.  The graph and its
    shortest paths come from networkx; the graph is a node and an edge set,
    the path search a parameter with its documented contract
    ([ShortestPath]), which [ref_shortest_path] is proved to meet. *)
From S2P Require Import Prelude Devices OpenFlow Sample.
From stdpp Require Import base gmap list strings.
From Stdlib Require Import ZArith Lia.

(** ** The graph *)

(** A node key is a device id or a pair of a device id and a port number. *)
Inductive node :=
  | NDev (id : string)
  | NPort (id : string) (no : Z).

#[export] Instance node_eq_dec : EqDecision node.
Proof. solve_decision. Defined.

#[export] Instance node_countable : Countable node.
Proof.
  refine (inj_countable'
    (λ n, match n with NDev i => inl i | NPort i p => inr (i, p) end)
    (λ x, match x with inl i => NDev i | inr (i, p) => NPort i p end) _).
  by intros [].
Defined.

(** The attribute dictionary of a node. *)
Record attrs := Attrs {
  at_device : option Device;
  at_port : option Port;
  at_boundary : option bool;
}.

Definition no_attrs : attrs := Attrs None None None.

(** [d.update(attr)] *)
Definition update_attrs (old new : attrs) : attrs :=
  Attrs (match at_device new with Some x => Some x | None => at_device old end)
    (match at_port new with Some x => Some x | None => at_port old end)
    (match at_boundary new with Some x => Some x | None => at_boundary old end).

Record graph := Graph {
  g_nodes : gmap node attrs;
  g_edges : list (node * node);
}.

Definition empty_graph : graph := Graph ∅ [].

Definition add_node (n : node) (a : attrs) (g : graph) : graph :=
  Graph (<[n := update_attrs (default no_attrs (g_nodes g !! n)) a]> (g_nodes g)) (g_edges g).

Definition add_edge (u v : node) (g : graph) : graph :=
  let g := add_node v no_attrs (add_node u no_attrs g) in
  Graph (g_nodes g) ((u, v) :: g_edges g).

Definition adj (g : graph) (u v : node) : Prop := (u, v) ∈ g_edges g ∨ (v, u) ∈ g_edges g.

Fixpoint walk (g : graph) (p : list node) : Prop :=
  match p with
  | u :: (v :: _) as p' => adj g u v ∧ walk g p'
  | [_] => True
  | [] => False
  end.

(** [p] is a walk of [g] from [s] to [t]. *)
Definition walk_between (g : graph) (s t : node) (p : list node) : Prop :=
  walk g p ∧ head p = Some s ∧ last p = Some t.

(** networkx's [shortest_path] between two nodes of an undirected graph. *)
Class ShortestPath := {
  shortest_path : graph → node → node → result (list node);
  shortest_path_walk : ∀ g s t p, shortest_path g s t = Ok p → walk_between g s t p;
  shortest_path_min : ∀ g s t p q,
    shortest_path g s t = Ok p → walk_between g s t q → length p ≤ length q;
  shortest_path_found : ∀ g s t q,
    is_Some (g_nodes g !! s) → is_Some (g_nodes g !! t) → walk_between g s t q →
    ∃ p, shortest_path g s t = Ok p;
  shortest_path_exn : ∀ g s t e, shortest_path g s t = Err e → e ≠ OutOfFuel;
}.

(** ** Building the graph *)

(** What [root_proxy.get] reads: the devices and their ports, by device id. *)
Abbreviation dev_store := (gmap string (Device * list Port)).

Record gstate := GState {
  gs_graph : graph;
  devices_added : gset string;
  peer_links : list ((string * Z) * (string * Z));
}.

Definition empty_gstate : gstate := GState empty_graph ∅ [].

(** [port_id < peer_port_id] on (string, int) tuples *)
Definition port_id_lt (a b : string * Z) : bool :=
  String.ltb a.1 b.1 || (String.eqb a.1 b.1 && (a.2 <? b.2)%Z).

Definition node_of (p : string * Z) : node := NPort p.1 p.2.

Definition boundary_ports_of (logical_ports : list LogicalPort) : gmap (string * Z) Z :=
  foldl (λ m lp, <[(lp_device_id lp, lp_device_port_no lp) := lp_port_no lp]> m) ∅ logical_ports.

Section build.
Context (store : dev_store) (boundary_ports : gmap (string * Z) Z).

Definition mark_device (d : Device) (s : gstate) : gstate :=
  GState (add_node (NDev (d_id d)) (Attrs (Some d) None None) (gs_graph s))
    ({[d_id d]} ∪ devices_added s) (peer_links s).

(** [ports_added] is tested but never filled, so every port is added. *)
Definition add_port (d : Device) (p : Port) (s : gstate) : gstate :=
  let port_id := (d_id d, port_no p) in
  let boundary := bool_decide (is_Some (boundary_ports !! port_id)) in
  GState (add_edge (NDev (d_id d)) (node_of port_id)
            (add_node (node_of port_id) (Attrs None (Some p) (Some boundary)) (gs_graph s)))
    (devices_added s) (peer_links s).

Definition add_peer_link (port_id peer_port_id : string * Z) (s : gstate) : gstate :=
  let peer_link := if port_id_lt port_id peer_port_id then (port_id, peer_port_id)
                   else (peer_port_id, port_id) in
  if decide (peer_link ∈ peer_links s) then s
  else GState (add_edge (node_of peer_link.1) (node_of peer_link.2) (gs_graph s))
         (devices_added s) (peer_link :: peer_links s).

(** The body of the loop over [port.peers]; [rec] is [add_device] itself. *)
Definition add_peer (rec : Device → M gstate unit) (d : Device) (port : Port) (peer : PeerPort)
    : M gstate unit :=
  added ← gets devices_added;
  if decide (peer_device_id peer ∈ added) then
    modify (add_peer_link (d_id d, port_no port) (peer_device_id peer, peer_port_no peer))
  else
    peer_device ← from_some KeyError (fst <$> store !! peer_device_id peer);
    rec peer_device.

(** The body of the loop over the ports of [d]. *)
Definition walk_port (rec : Device → M gstate unit) (d : Device) (port : Port) : M gstate unit :=
  _ ← modify (add_port d port);
  forM_ (add_peer rec d port) (peers port).

(** The nested function [add_device]; [fuel] bounds the depth of its calls. *)
Fixpoint add_device (fuel : nat) (d : Device) : M gstate unit :=
  match fuel with
  | O => raise OutOfFuel
  | S fuel =>
      added ← gets devices_added;
      if decide (d_id d ∈ added) then mret tt
      else
        _ ← modify (mark_device d);
        ports ← from_some KeyError (snd <$> store !! d_id d);
        forM_ (walk_port (add_device fuel) d) ports
  end.

Definition add_logical_port (lp : LogicalPort) : M gstate unit :=
  d ← from_some KeyError (fst <$> store !! lp_device_id lp);
  add_device (S (size store)) d.

End build.

Definition build_graph (store : dev_store) (logical_ports : list LogicalPort)
    : result (gmap (string * Z) Z * graph) :=
  let boundary_ports := boundary_ports_of logical_ports in
  match forM_ (add_logical_port store boundary_ports) logical_ports empty_gstate with
  | (Ok _, s) => Ok (boundary_ports, gs_graph s)
  | (Err e, _) => Err e
  end.

(** ** Routes *)

(** [routes[(source, target)] = [ingress_hop, egress_hop]] *)
Abbreviation routes_map := (gmap (Z * Z) (RouteHop * RouteHop)).

Definition root_ports_of (logical_ports : list LogicalPort) : list Z :=
  lp_port_no <$> filter (λ lp, lp_root_port lp = true) logical_ports.

(** [graph.node[n]['device']] and [graph.node[n]['port']] *)
Definition node_device (g : graph) (n : node) : M routes_map Device :=
  from_some KeyError (g_nodes g !! n ≫= at_device).
Definition node_port (g : graph) (n : node) : M routes_map Port :=
  from_some KeyError (g_nodes g !! n ≫= at_port).

Section routes.
Context `{ShortestPath} `{DictOrder}.

Definition build_route (g : graph) (root_ports : list Z)
    (source target : (string * Z) * Z) : M routes_map unit :=
  if decide (source.1 = target.1) then mret tt
  else if decide (source.2 ∈ root_ports ∧ target.2 ∈ root_ports) then mret tt
  else if decide (source.2 ∉ root_ports ∧ target.2 ∉ root_ports) then mret tt
  else
    path ← lift (shortest_path g (node_of source.1) (node_of target.1));
    if decide (length path `mod` 3 ≠ 0) then mret tt
    else
      match path with
      | [ingress_input_port; ingress_device; ingress_output_port;
         egress_input_port; egress_device; egress_output_port] =>
          d1 ← node_device g ingress_device;
          i1 ← node_port g ingress_input_port;
          o1 ← node_port g ingress_output_port;
          d2 ← node_device g egress_device;
          i2 ← node_port g egress_input_port;
          o2 ← node_port g egress_output_port;
          modify (insert (source.2, target.2) (MkRouteHop d1 i1 o1, MkRouteHop d2 i2 o2))
      | _ => raise AssertionError
      end.

Definition build_routes (boundary_ports : gmap (string * Z) Z) (g : graph)
    (logical_ports : list LogicalPort) : M routes_map unit :=
  let root_ports := root_ports_of logical_ports in
  forM_ (λ source,
    forM_ (λ target, build_route g root_ports source target)
      (iteritems boundary_ports)) (iteritems boundary_ports).

Definition compute_routes (store : dev_store) (logical_ports : list LogicalPort)
    : result (graph * routes_map) :=
  match build_graph store logical_ports with
  | Ok (boundary_ports, g) =>
      match build_routes boundary_ports g logical_ports ∅ with
      | (Ok _, routes) => Ok (g, routes)
      | (Err e, _) => Err e
      end
  | Err e => Err e
  end.

End routes.

(** ** Walks *)
Section walks.
Implicit Types g : graph.

Lemma adj_sym g u v : adj g u v → adj g v u.
Proof. unfold adj. tauto. Qed.

Lemma walk_app g p q u v :
  walk g (p ++ [u]) → walk g (v :: q) → adj g u v → walk g (p ++ u :: v :: q).
Proof.
  intros Hp Hq Ha. induction p as [|a [|b p] IH]; simpl in *; [done|naive_solver|].
  split; [naive_solver|]. apply IH, Hp.
Qed.

Lemma walk_suffix g p u q : walk g (p ++ u :: q) → walk g (u :: q).
Proof.
  induction p as [|a [|b p] IH]; simpl in *; [done|by intros [_ Hw]|].
  intros [_ Hw]. by apply IH.
Qed.

Lemma walk_prefix g p u q : walk g (p ++ u :: q) → walk g (p ++ [u]).
Proof.
  induction p as [|a [|b p] IH]; simpl in *; [done| |].
  - intros [Ha _]. auto.
  - intros [Ha Hw]. split; [done|]. apply IH, Hw.
Qed.

(** A walk that visits a node twice can skip the loop. *)
Lemma walk_between_NoDup g s t q :
  walk_between g s t q → ∃ p, walk_between g s t p ∧ NoDup p ∧ length p ≤ length q.
Proof.
  remember (length q) as n eqn:Hn. revert q Hn.
  induction n as [n IH] using lt_wf_ind. intros q -> (Hw & Hh & Hl).
  destruct (decide (NoDup q)) as [|Hnd]; [by exists q|].
  assert (∃ a u b c, q = a ++ u :: b ++ u :: c) as (a & u & b & c & ->).
  { clear -Hnd. induction q as [|x q IHq]; [by destruct Hnd; constructor|].
    destruct (decide (x ∈ q)) as [(b & c & ->)%list_elem_of_split|Hx].
    - by exists [], x, b, c.
    - destruct IHq as (a & u & b & c & ->).
      + intros Hq. apply Hnd. by constructor.
      + by exists (x :: a), u, b, c. }
  destruct (IH (length (a ++ u :: c))) with (q := a ++ u :: c) as (p & Hp & Hd & Hle).
  - rewrite !length_app. simpl. rewrite !length_app. simpl. lia.
  - done.
  - split_and!.
    + destruct c as [|v c]; [by eapply walk_prefix|].
      apply walk_app.
      * by eapply walk_prefix.
      * change (u :: b ++ u :: v :: c) with ((u :: b) ++ u :: v :: c) in Hw.
        rewrite app_assoc in Hw. apply walk_suffix in Hw. simpl in Hw. by destruct Hw.
      * change (u :: b ++ u :: v :: c) with ((u :: b) ++ u :: v :: c) in Hw.
        rewrite app_assoc in Hw. apply walk_suffix in Hw. simpl in Hw. by destruct Hw.
    + by destruct a.
    + rewrite last_app_cons in Hl |- *. change (u :: b ++ u :: c) with ((u :: b) ++ u :: c) in Hl.
      by rewrite last_app_cons in Hl.
  - exists p. split_and!; [done..|]. rewrite !length_app in *. simpl in *.
    rewrite !length_app in *. simpl in *. lia.
Qed.

End walks.

(** ** A reference path search

    Walks of increasing length, listed exhaustively.  A shortest walk has no
    repeated node, so twice the number of edges bounds its length. *)
Definition neighbours (g : graph) (u : node) : list node :=
  (snd <$> filter (λ e, e.1 = u) (g_edges g)) ++ (fst <$> filter (λ e, e.2 = u) (g_edges g)).

Fixpoint walks_of (g : graph) (n : nat) (u : node) : list (list node) :=
  match n with
  | O => [[u]]
  | S n => v ← neighbours g u; cons u <$> walks_of g n v
  end.

Fixpoint search_walk (g : graph) (s t : node) (k fuel : nat) : result (list node) :=
  match head (filter (λ p, last p = Some t) (walks_of g k s)) with
  | Some p => Ok p
  | None => match fuel with
            | O => Err NetworkXNoPath
            | S fuel => search_walk g s t (S k) fuel
            end
  end.

Definition ref_shortest_path (g : graph) (s t : node) : result (list node) :=
  search_walk g s t 0 (2 * length (g_edges g)).

Section reference.
Implicit Types g : graph.

Lemma elem_of_neighbours g u v : v ∈ neighbours g u ↔ adj g u v.
Proof.
  unfold neighbours, adj. rewrite elem_of_app, !list_elem_of_fmap. split.
  - intros [([a b] & -> & [Hf Hin]%list_elem_of_filter)|([a b] & -> & [Hf Hin]%list_elem_of_filter)];
      simpl in *; subst; auto.
  - intros [Hin|Hin]; [left; exists (u, v)|right; exists (v, u)];
      (split; [done|]; by apply list_elem_of_filter).
Qed.

Lemma elem_of_walks_of g n u p :
  p ∈ walks_of g n u ↔ walk g p ∧ head p = Some u ∧ length p = S n.
Proof.
  revert u p. induction n as [|n IH]; intros u p; simpl.
  - rewrite list_elem_of_singleton. split; [by intros ->|].
    intros (_ & Hh & Hl). destruct p as [|a [|]]; simpl in *; congruence.
  - rewrite list_elem_of_bind. split.
    + intros (v & Hp & Hv%elem_of_neighbours). apply list_elem_of_fmap in Hp as (q & -> & Hq).
      apply IH in Hq as (Hw & Hh & Hl). destruct q as [|a q]; [done|]. injection Hh as ->.
      split_and!; [by split|done|]. simpl in *. lia.
    + intros (Hw & Hh & Hl). destruct p as [|a [|b p]]; [done..|]. injection Hh as ->.
      destruct Hw as [Ha Hw]. exists b. split; [|by apply elem_of_neighbours].
      apply list_elem_of_fmap. exists (b :: p). split; [done|]. apply IH.
      split_and!; [done|done|]. simpl in *. lia.
Qed.

Lemma hd_filter_None {A} (P : A → Prop) `{∀ x, Decision (P x)} l :
  head (filter P l) = None → ∀ x, x ∈ l → ¬ P x.
Proof.
  intros Hh x Hx HP. assert (x ∈ filter P l) as Hin by (by apply list_elem_of_filter).
  destruct (filter P l); [by apply elem_of_nil in Hin|done].
Qed.

Lemma hd_filter_Some {A} (P : A → Prop) `{∀ x, Decision (P x)} l x :
  head (filter P l) = Some x → x ∈ l ∧ P x.
Proof.
  intros Hh. assert (x ∈ filter P l) as Hin by (destruct (filter P l); [done|injection Hh as ->; set_solver]).
  apply list_elem_of_filter in Hin. tauto.
Qed.

Lemma search_walk_spec g s t fuel k :
  (∀ q, walk_between g s t q → S k ≤ length q) →
  match search_walk g s t k fuel with
  | Ok p => walk_between g s t p ∧ ∀ q, walk_between g s t q → length p ≤ length q
  | Err e => e = NetworkXNoPath ∧ ∀ q, walk_between g s t q → S (k + fuel) < length q
  end.
Proof.
  revert k. induction fuel as [|fuel IH]; intros k Hk; simpl.
  all: destruct (head _) as [p|] eqn:Hh;
    [apply hd_filter_Some in Hh as [(Hw & Hs & Hl)%elem_of_walks_of Ht];
     split; [done|]; intros q Hq; specialize (Hk q Hq); lia|].
  all: assert (∀ q, walk_between g s t q → S (S k) ≤ length q) as Hk'
    by (intros q Hq; specialize (Hk q Hq); destruct (decide (length q = S k)) as [Heq|]; [|lia];
        destruct Hq as (Hw & Hs & Ht);
        by destruct (hd_filter_None _ _ Hh q (proj2 (elem_of_walks_of g k s q) (conj Hw (conj Hs Heq))))).
  - split; [done|]. intros q Hq. specialize (Hk' q Hq). lia.
  - specialize (IH (S k) Hk'). destruct (search_walk g s t (S k) fuel); [done|].
    destruct IH as [-> IH]. split; [done|]. intros q Hq. specialize (IH q Hq). lia.
Qed.

Lemma walk_nodes g u p : walk g (u :: p) → p ⊆ (fst <$> g_edges g) ++ (snd <$> g_edges g).
Proof.
  revert u. induction p as [|v p IH]; intros u; [set_solver|].
  intros [Ha Hw] x [->|Hx]%elem_of_cons; [|by apply (IH v Hw)].
  rewrite elem_of_app, !list_elem_of_fmap. destruct Ha as [Ha|Ha]; [right|left]; by eexists (_, _).
Qed.

Lemma walk_NoDup_length g p : walk g p → NoDup p → length p ≤ S (2 * length (g_edges g)).
Proof.
  intros Hw Hd. destruct p as [|u p]; simpl; [lia|]. apply NoDup_cons in Hd as [_ Hd].
  pose proof (NoDup_submseteq _ _ Hd (walk_nodes g u p Hw)) as Hs.
  apply submseteq_length in Hs. rewrite length_app, !length_fmap in Hs. lia.
Qed.

Lemma ref_shortest_path_spec g s t :
  match ref_shortest_path g s t with
  | Ok p => walk_between g s t p ∧ ∀ q, walk_between g s t q → length p ≤ length q
  | Err e => e = NetworkXNoPath ∧ ∀ q, ¬ walk_between g s t q
  end.
Proof.
  pose proof (search_walk_spec g s t (2 * length (g_edges g)) 0) as H.
  unfold ref_shortest_path. destruct (search_walk _ _ _ _ _) as [p|e].
  - apply H. intros q (Hw & Hs & _). destruct q; [done|]. simpl. lia.
  - destruct H as [-> H].
    + intros q (Hw & Hs & _). destruct q; [done|]. simpl. lia.
    + split; [done|]. intros q Hq. destruct (walk_between_NoDup g s t q Hq) as (p & Hp & Hd & _).
      specialize (H p Hp). destruct Hp as (Hw & _). pose proof (walk_NoDup_length g p Hw Hd). lia.
Qed.

End reference.

Definition ref_path : ShortestPath.
Proof.
  refine {| shortest_path := ref_shortest_path |}.
  - intros g s t p Hp. pose proof (ref_shortest_path_spec g s t) as H. rewrite Hp in H. apply H.
  - intros g s t p q Hp. pose proof (ref_shortest_path_spec g s t) as H. rewrite Hp in H. apply H.
  - intros g s t q _ _ Hq. pose proof (ref_shortest_path_spec g s t) as H.
    destruct (ref_shortest_path g s t) as [p|e]; [by exists p|]. by destruct (proj2 H q).
  - intros g s t e He. pose proof (ref_shortest_path_spec g s t) as H. rewrite He in H.
    destruct H as [-> _]. done.
Defined.

(** ** What the graph holds

    The store is keyed by device id, as the path [/devices/{id}] makes it. *)
Definition wf_store (store : dev_store) : Prop :=
  ∀ id d ps, store !! id = Some (d, ps) → d_id d = id.

Definition has_port (store : dev_store) (id : string) (p : Port) : Prop :=
  ∃ d ps, store !! id = Some (d, ps) ∧ p ∈ ps.

(** A device and one of its ports; a port and a peer it declares. *)
Definition owns (store : dev_store) (u v : node) : Prop :=
  ∃ id p, has_port store id p ∧ u = NDev id ∧ v = NPort id (port_no p).
Definition declares (store : dev_store) (u v : node) : Prop :=
  ∃ id p q, has_port store id p ∧ q ∈ peers p ∧
    u = NPort id (port_no p) ∧ v = NPort (peer_device_id q) (peer_port_no q).

Definition attrs_ok (store : dev_store) (n : node) (a : attrs) : Prop :=
  match n with
  | NDev id => at_port a = None ∧ ∀ d, at_device a = Some d → ∃ ps, store !! id = Some (d, ps)
  | NPort id no => at_device a = None ∧ ∀ p, at_port a = Some p → has_port store id p ∧ port_no p = no
  end.

Record graph_ok (store : dev_store) (g : graph) : Prop := {
  go_nodes : ∀ n a, g_nodes g !! n = Some a → attrs_ok store n a;
  go_edges : ∀ u v, (u, v) ∈ g_edges g → owns store u v ∨ declares store u v ∨ declares store v u;
}.

Section graph_invariant.
Context {store : dev_store} {bp : gmap (string * Z) Z}.

Lemma update_attrs_ok n a b : attrs_ok store n a → attrs_ok store n b → attrs_ok store n (update_attrs a b).
Proof.
  destruct n, a as [da pa ba], b as [db pb bb]; simpl; intros [H1 H2] [H3 H4]; subst.
  - split; [done|]. destruct db; auto.
  - split; [done|]. destruct pb; auto.
Qed.

Lemma no_attrs_ok n : attrs_ok store n no_attrs.
Proof. by destruct n. Qed.

Lemma add_node_ok n a g : attrs_ok store n a → graph_ok store g → graph_ok store (add_node n a g).
Proof.
  intros Ha [Hn He]. split; [|done]. intros n' a'. simpl. rewrite lookup_insert.
  case_decide; [|apply Hn]. intros [= <-]. subst. apply update_attrs_ok; [|done].
  destruct (g_nodes g !! n') eqn:Hl; simpl; [by apply Hn|apply no_attrs_ok].
Qed.

Lemma add_edge_ok u v g :
  owns store u v ∨ declares store u v ∨ declares store v u →
  graph_ok store g → graph_ok store (add_edge u v g).
Proof.
  intros Huv Hg. pose proof (add_node_ok u no_attrs g (no_attrs_ok u) Hg) as H1.
  pose proof (add_node_ok v no_attrs _ (no_attrs_ok v) H1) as [H2 H3].
  split; [done|]. intros u' v' [[= -> ->]|Hin]%elem_of_cons; [done|]. by apply H3.
Qed.

Hint Resolve add_node_ok add_edge_ok : voltha.

Lemma mark_device_ok d ps s :
  store !! d_id d = Some (d, ps) → graph_ok store (gs_graph s) → graph_ok store (gs_graph (mark_device d s)).
Proof. intros Hd Hg. apply add_node_ok; [|done]. split; [done|]. intros d' [= <-]. eauto. Qed.

Lemma add_port_ok d p s :
  has_port store (d_id d) p → graph_ok store (gs_graph s) → graph_ok store (gs_graph (add_port bp d p s)).
Proof.
  intros Hp Hg. apply add_edge_ok; [left; exists (d_id d), p; auto|].
  apply add_node_ok; [|done]. split; [done|]. intros p' [= <-]. auto.
Qed.

Lemma add_peer_link_ok id p q s :
  has_port store id p → q ∈ peers p → graph_ok store (gs_graph s) →
  graph_ok store (gs_graph (add_peer_link (id, port_no p) (peer_device_id q, peer_port_no q) s)).
Proof.
  intros Hp Hq Hg. unfold add_peer_link. case_decide; [done|].
  assert (declares store (NPort id (port_no p)) (NPort (peer_device_id q) (peer_port_no q))) as Hd
    by (exists id, p, q; auto).
  destruct (port_id_lt _ _); apply add_edge_ok; auto.
Qed.

(** The whole of [add_device] preserves what its three writes preserve. *)
Lemma add_device_inv (I : gstate → Prop) :
  (∀ d ps s, store !! d_id d = Some (d, ps) → I s → I (mark_device d s)) →
  (∀ d p s, has_port store (d_id d) p → I s → I (add_port bp d p s)) →
  (∀ id p q s, has_port store id p → q ∈ peers p → I s →
     I (add_peer_link (id, port_no p) (peer_device_id q, peer_port_no q) s)) →
  wf_store store → ∀ fuel d, fst <$> store !! d_id d = Some d →
  triple I (add_device store bp fuel d) (λ _, I) (λ _ _, True).
Proof.
  intros Hm Hp Hl Hwf. induction fuel as [|fuel IH]; intros d Hd; simpl; [by apply triple_raise|].
  eapply triple_bind; [by apply (triple_gets _ _ (λ _, I))|]. intros added. simpl.
  case_decide; [by apply triple_ret|].
  apply fmap_Some in Hd as ([d' ps] & Hd & [= <-]).
  apply (triple_bind _ _ _ (λ _, I)); [apply triple_modify; intros s Hs; by apply (Hm d ps s Hd Hs)|]. intros _.
  rewrite Hd. simpl. apply (triple_bind _ _ _ (λ ports s, ports = ps ∧ I s)); [by apply triple_ret|].
  intros ports s [-> Hs]. revert s Hs. apply triple_forM. intros p Hin. unfold walk_port.
  assert (has_port store (d_id d) p) as Hhp by (by exists d, ps).
  apply (triple_bind _ _ _ (λ _, I)); [apply triple_modify; intros s Hs; by apply (Hp d p s Hhp Hs)|].
  intros _. apply triple_forM. intros q Hq. unfold add_peer.
  eapply triple_bind; [by apply (triple_gets _ _ (λ _, I))|]. intros added'. simpl. case_decide.
  - apply triple_modify. eauto.
  - destruct (store !! peer_device_id q) as [[d2 ps2]|] eqn:Hd2; [|by apply triple_raise].
    apply (IH d2). pose proof (Hwf _ _ _ Hd2) as ->. by rewrite Hd2.
Qed.

Lemma add_logical_ports_inv (I : gstate → Prop) :
  (∀ d ps s, store !! d_id d = Some (d, ps) → I s → I (mark_device d s)) →
  (∀ d p s, has_port store (d_id d) p → I s → I (add_port bp d p s)) →
  (∀ id p q s, has_port store id p → q ∈ peers p → I s →
     I (add_peer_link (id, port_no p) (peer_device_id q, peer_port_no q) s)) →
  wf_store store → ∀ lps,
  triple I (forM_ (add_logical_port store bp) lps) (λ _, I) (λ _ _, True).
Proof.
  intros Hm Hp Hl Hwf lps. apply triple_forM. intros lp _. unfold add_logical_port.
  destruct (store !! lp_device_id lp) as [[d ps]|] eqn:Hd; [|by apply triple_raise].
  apply (add_device_inv I Hm Hp Hl Hwf (S (size store)) d).
  pose proof (Hwf _ _ _ Hd) as ->. by rewrite Hd.
Qed.

(** Fuel: every nested call adds a device of the store. *)
Definition unvisited (s : gstate) : nat := size (dom store ∖ devices_added s).

Lemma add_device_fuel n : wf_store store → ∀ fuel d,
  n < fuel → fst <$> store !! d_id d = Some d →
  triple (λ s, unvisited s ≤ n) (add_device store bp fuel d)
    (λ _ s, unvisited s ≤ n) (λ e _, e ≠ OutOfFuel).
Proof.
  intros Hwf fuel. revert n. induction fuel as [|fuel IH]; intros n d Hf Hd; simpl; [lia|].
  eapply triple_bind; [by apply (triple_gets _ _ (λ a s, a = devices_added s ∧ unvisited s ≤ n))|].
  intros added. simpl. case_decide as Hin; [apply triple_ret; naive_solver|].
  apply fmap_Some in Hd as ([d' ps] & Hd & [= <-]).
  apply (triple_bind _ _ _ (λ _ s, unvisited s < n)).
  { apply triple_modify. intros s [-> Hs]. eapply Nat.lt_le_trans; [|exact Hs].
    unfold unvisited. apply (subset_size (C := gset string)). simpl.
    assert (d_id d ∈ dom store) by (by apply elem_of_dom_2 in Hd). set_solver. }
  intros _. rewrite Hd. simpl.
  apply (triple_bind _ _ _ (λ ports s, ports = ps ∧ unvisited s < n)); [by apply triple_ret|].
  intros ports s [-> Hs]. destruct n as [|n]; [lia|].
  assert (triple (λ s, unvisited s ≤ n) (forM_ (walk_port store bp (add_device store bp fuel) d) ps)
            (λ _ s, unvisited s ≤ n) (λ e _, e ≠ OutOfFuel)) as Hloop.
  { apply triple_forM. intros p _. unfold walk_port.
    apply (triple_bind _ _ _ (λ _ s, unvisited s ≤ n)); [by apply triple_modify|]. intros _. apply triple_forM. intros q _. unfold add_peer.
    eapply triple_bind; [by apply (triple_gets _ _ (λ _ s, unvisited s ≤ n))|]. intros a. simpl.
    case_decide.
    - apply triple_modify. intros s'. unfold add_peer_link. by case_decide.
    - destruct (store !! peer_device_id q) as [[d2 ps2]|] eqn:Hd2; [|by apply triple_raise].
      apply (IH n d2); [lia|]. pose proof (Hwf _ _ _ Hd2) as ->. by rewrite Hd2. }
  specialize (Hloop s). cbn beta in Hs, Hloop. specialize (Hloop ltac:(lia)).
  destruct (forM_ _ ps s) as [[[]|e] s']; [lia|done].
Qed.

Lemma add_logical_ports_fuel lps : wf_store store →
  triple (λ s, unvisited s ≤ size store) (forM_ (add_logical_port store bp) lps)
    (λ _ s, unvisited s ≤ size store) (λ e _, e ≠ OutOfFuel).
Proof.
  intros Hwf. apply triple_forM. intros lp _. unfold add_logical_port.
  destruct (store !! lp_device_id lp) as [[d ps]|] eqn:Hd; [|by apply triple_raise].
  apply (add_device_fuel (size store) Hwf (S (size store)) d); [lia|].
  pose proof (Hwf _ _ _ Hd) as ->. by rewrite Hd.
Qed.

End graph_invariant.

(** ** The graph is complete

    When peers are declared on both sides, every device reached has all its
    ports and peer links in the graph. *)
Definition sym_peers (store : dev_store) : Prop :=
  ∀ id p q, has_port store id p → q ∈ peers p →
    ∃ p', has_port store (peer_device_id q) p' ∧ port_no p' = peer_port_no q ∧
      Peer id (port_no p) ∈ peers p'.

Record gle (s s' : gstate) : Prop := {
  gle_added : devices_added s ⊆ devices_added s';
  gle_edges : g_edges (gs_graph s) ⊆ g_edges (gs_graph s');
  gle_device : ∀ n, is_Some (g_nodes (gs_graph s) !! n ≫= at_device) →
                    is_Some (g_nodes (gs_graph s') !! n ≫= at_device);
  gle_port : ∀ n, is_Some (g_nodes (gs_graph s) !! n ≫= at_port) →
                  is_Some (g_nodes (gs_graph s') !! n ≫= at_port);
}.

#[export] Instance gle_preorder : PreOrder gle.
Proof.
  split.
  - intros s. by split.
  - intros s1 s2 s3 [H1 H2 H3 H4] [H5 H6 H7 H8]. split; [set_solver..| |]; auto.
Qed.

Definition mono (F : gstate → Prop) : Prop := ∀ s s', gle s s' → F s → F s'.

Section graph_growth.
Context {store : dev_store} {bp : gmap (string * Z) Z}.

Lemma add_node_grows n a g m :
  (is_Some (g_nodes g !! m ≫= at_device) → is_Some (g_nodes (add_node n a g) !! m ≫= at_device)) ∧
  (is_Some (g_nodes g !! m ≫= at_port) → is_Some (g_nodes (add_node n a g) !! m ≫= at_port)).
Proof.
  simpl. rewrite lookup_insert. case_decide as Hn; [|done]. subst.
  destruct (g_nodes g !! m) as [[da pa ba]|]; simpl; [|by split; intros []].
  destruct a as [da' pa' ba']; simpl. split; intros Hs; [by destruct da'|by destruct pa'].
Qed.

Lemma add_edge_grows u v g m :
  (is_Some (g_nodes g !! m ≫= at_device) → is_Some (g_nodes (add_edge u v g) !! m ≫= at_device)) ∧
  (is_Some (g_nodes g !! m ≫= at_port) → is_Some (g_nodes (add_edge u v g) !! m ≫= at_port)).
Proof.
  destruct (add_node_grows u no_attrs g m) as [H1 H2].
  destruct (add_node_grows v no_attrs (add_node u no_attrs g) m) as [H3 H4].
  unfold add_edge. cbn [g_nodes]. auto.
Qed.

Lemma mark_device_gle d s : gle s (mark_device d s).
Proof.
  split; simpl; [set_solver|done|..]; intros n;
    destruct (add_node_grows (NDev (d_id d)) (Attrs (Some d) None None) (gs_graph s) n); auto.
Qed.

Lemma add_port_gle d p s : gle s (add_port bp d p s).
Proof.
  unfold add_port. set (b := bool_decide _). set (pn := node_of _).
  destruct s as [g a l]; split; cbn [gs_graph devices_added]; [done|simpl; set_solver|..]; intros n Hn;
    destruct (add_node_grows pn (Attrs None (Some p) (Some b)) g n) as [H1 H2];
    destruct (add_edge_grows (NDev (d_id d)) pn (add_node pn (Attrs None (Some p) (Some b)) g) n);
    auto.
Qed.

Lemma add_peer_link_gle a b s : gle s (add_peer_link a b s).
Proof.
  unfold add_peer_link. set (l := if port_id_lt _ _ then _ else _). case_decide; [reflexivity|].
  destruct s as [g ad pl]; split; cbn [gs_graph devices_added]; [done|simpl; set_solver|..]; intros n Hn;
    destruct (add_edge_grows (node_of l.1) (node_of l.2) g n); auto.
Qed.

Lemma add_device_frame F fuel d : mono F → wf_store store → fst <$> store !! d_id d = Some d →
  triple F (add_device store bp fuel d) (λ _, F) (λ _ _, True).
Proof.
  intros HF Hwf Hd s Hs.
  pose proof (add_device_inv (store := store) (bp := bp) (gle s)) as H.
  specialize (H ltac:(intros; etrans; [done|apply mark_device_gle])
                ltac:(intros; etrans; [done|apply add_port_gle])
                ltac:(intros; etrans; [done|apply add_peer_link_gle]) Hwf fuel d Hd s
                ltac:(reflexivity)).
  destruct (add_device store bp fuel d s) as [[[]|e] s']; [by eapply HF|done].
Qed.

Definition port_done (id : string) (p : Port) (s : gstate) : Prop :=
  is_Some (g_nodes (gs_graph s) !! NPort id (port_no p) ≫= at_port) ∧
  adj (gs_graph s) (NDev id) (NPort id (port_no p)).

Definition link_done (id : string) (p : Port) (q : PeerPort) (s : gstate) : Prop :=
  peer_device_id q ∈ devices_added s ∧
  adj (gs_graph s) (NPort id (port_no p)) (NPort (peer_device_id q) (peer_port_no q)).

Definition dev_node (id : string) (s : gstate) : Prop :=
  is_Some (g_nodes (gs_graph s) !! NDev id ≫= at_device).

Definition ports_done (id : string) (ps : list Port) (s : gstate) : Prop :=
  ∀ p, p ∈ ps → port_done id p s ∧ ∀ q, q ∈ peers p → link_done id p q s.

Definition dev_done (id : string) (s : gstate) : Prop :=
  dev_node id s ∧ ∀ d ps, store !! id = Some (d, ps) → ports_done id ps s.

Definition links_ok (s : gstate) : Prop :=
  ∀ a b, (a, b) ∈ peer_links s → adj (gs_graph s) (node_of a) (node_of b).

(** Every device added is complete but those whose ports are still walked. *)
Definition complete_but (busy : gset string) (s : gstate) : Prop :=
  links_ok s ∧ busy ⊆ devices_added s ∧
  ∀ id, id ∈ devices_added s → id ∉ busy → dev_done id s.

Lemma adj_mono u v : mono (λ s, adj (gs_graph s) u v).
Proof. intros s s' Hle. unfold adj. pose proof (gle_edges _ _ Hle). set_solver. Qed.

Lemma port_done_mono id p : mono (port_done id p).
Proof. intros s s' Hle [H1 H2]. split; [by eapply gle_port|by eapply adj_mono]. Qed.

Lemma link_done_mono id p q : mono (link_done id p q).
Proof. intros s s' Hle [H1 H2]. split; [by eapply gle_added|by eapply adj_mono]. Qed.

Lemma dev_node_mono id : mono (dev_node id).
Proof. intros s s' Hle H. by eapply gle_device. Qed.

Lemma ports_done_mono id ps : mono (ports_done id ps).
Proof.
  intros s s' Hle H p Hp. destruct (H p Hp) as [H1 H2].
  split; [by eapply port_done_mono|]. intros q Hq. eapply link_done_mono; eauto.
Qed.

Lemma dev_done_mono id : mono (dev_done id).
Proof.
  intros s s' Hle [H1 H2]. split; [by eapply dev_node_mono|]. intros. eapply ports_done_mono; eauto.
Qed.

(** A write that adds no device and keeps the links keeps completeness. *)
Lemma complete_but_gle busy s s' :
  gle s s' → devices_added s' = devices_added s → links_ok s' →
  complete_but busy s → complete_but busy s'.
Proof.
  intros Hle Ha Hl (_ & Hb & Hd). split_and!; [done|by rewrite Ha|].
  intros id Hid Hn. rewrite Ha in Hid. eapply dev_done_mono; eauto.
Qed.

Lemma add_edge_adj u v g : adj (add_edge u v g) u v.
Proof. left. simpl. set_solver. Qed.

Lemma add_port_complete busy d p s :
  complete_but busy s →
  complete_but busy (add_port bp d p s) ∧ port_done (d_id d) p (add_port bp d p s).
Proof.
  intros Hc. pose proof (add_port_gle d p s) as Hle. split.
  - apply (complete_but_gle busy s); [done..| |done]. destruct Hc as [Hl _].
    intros a b Hab. eapply (adj_mono _ _ s); [done|]. by apply Hl.
  - split; [|apply add_edge_adj].
    apply (proj2 (add_edge_grows _ _ _ _)). simpl. rewrite lookup_insert_eq. simpl. by eexists.
Qed.

Lemma add_peer_link_complete busy id p q s :
  complete_but busy s → peer_device_id q ∈ devices_added s →
  let s' := add_peer_link (id, port_no p) (peer_device_id q, peer_port_no q) s in
  complete_but busy s' ∧ link_done id p q s'.
Proof.
  intros Hc Hq. simpl.
  pose proof (add_peer_link_gle (id, port_no p) (peer_device_id q, peer_port_no q) s) as Hle.
  destruct Hc as (Hl & Hb & Hd). revert Hle. unfold add_peer_link.
  set (l := if port_id_lt _ _ then _ else _).
  assert (l = ((id, port_no p), (peer_device_id q, peer_port_no q)) ∨
          l = ((peer_device_id q, peer_port_no q), (id, port_no p))) as Hcase
    by (unfold l; destruct (port_id_lt _ _); auto).
  assert (∀ s2, adj (gs_graph s2) (node_of l.1) (node_of l.2) →
            adj (gs_graph s2) (NPort id (port_no p)) (NPort (peer_device_id q) (peer_port_no q))) as Hadj.
  { intros s2. destruct Hcase as [-> | ->]; [done|apply adj_sym]. }
  intros Hle. case_decide as Hin.
  - split; [by split_and!|]. split; [done|]. apply Hadj, Hl. by destruct l.
  - split; [|split; [done|]; by apply Hadj, add_edge_adj].
    apply (complete_but_gle busy s); [done..| |by split_and!].
    intros a b [Hab|Hab]%elem_of_cons; [|by eapply (adj_mono _ _ s), Hl].
    rewrite <- Hab. apply add_edge_adj.
Qed.

Context (Hwf : wf_store store) (Hsym : sym_peers store).

(** A device added while it was not busy is complete, so it has linked back
    every port that declares one of its ports. *)
Lemma linked_back busy id p q s :
  complete_but busy s → has_port store id p → q ∈ peers p →
  peer_device_id q ∈ devices_added s → peer_device_id q ∉ busy → link_done id p q s.
Proof.
  intros (_ & _ & Hd) Hp Hq Hin Hb. split; [done|].
  destruct (Hd _ Hin Hb) as [_ Hdone]. destruct (Hsym id p q Hp Hq) as (p' & (d & ps & Hs & Hp') & Hno & Hpeer).
  destruct (proj2 (Hdone d ps Hs p' Hp') _ Hpeer) as [_ Ha]. apply adj_sym. by rewrite <- Hno.
Qed.

(** What the loops keep while the ports of [d] are walked: [pre] are the ports
    done, and of port [p] the peers [qs]. *)
Definition walking (busy : gset string) (d : Device) (pre : list Port) (s : gstate) : Prop :=
  complete_but busy s ∧ (dev_node (d_id d) s ∧ ports_done (d_id d) pre s).

Definition peers_done (d : Device) (p : Port) (qs : list PeerPort) (s : gstate) : Prop :=
  port_done (d_id d) p s ∧ ∀ q, q ∈ qs → link_done (d_id d) p q s.

Lemma walking_mono d pre p qs :
  mono (λ s, (dev_node (d_id d) s ∧ ports_done (d_id d) pre s) ∧ peers_done d p qs s).
Proof.
  intros s2 s3 Hle [[H1 H2] [H3 H4]]. split; split.
  - by eapply dev_node_mono.
  - by eapply ports_done_mono.
  - by eapply port_done_mono.
  - intros q Hq. eapply link_done_mono; eauto.
Qed.

Section walk.
Context (fuel : nat) (busy : gset string) (d : Device) (pre : list Port) (p : Port).
Context (IH : ∀ d, fst <$> store !! d_id d = Some d →
  triple (complete_but busy) (add_device store bp fuel d)
    (λ _ s, complete_but busy s ∧ d_id d ∈ devices_added s) (λ e _, e = OutOfFuel)).
Context (Hp : has_port store (d_id d) p).

Lemma add_peer_complete qs q : q ∈ peers p →
  triple (λ s, walking busy d pre s ∧ peers_done d p qs s)
    (add_peer store (add_device store bp fuel) d p q)
    (λ _ s, walking busy d pre s ∧ peers_done d p (qs ++ [q]) s) (λ e _, e = OutOfFuel).
Proof.
  intros Hq s [[Hc Hw] Hpd]. unfold add_peer, mbind, M_bind, gets.
  pose proof (walking_mono d pre p qs) as Hmono.
  assert (∀ s2, complete_but busy s2 → link_done (d_id d) p q s2 →
            (dev_node (d_id d) s2 ∧ ports_done (d_id d) pre s2) ∧ peers_done d p qs s2 →
            walking busy d pre s2 ∧ peers_done d p (qs ++ [q]) s2) as HJ.
  { intros s2 Hc2 Hl2 [Hw2 [Hpd2 Hqd2]]. split; [by split|]. split; [done|].
    intros q' [Hq'| ->%list_elem_of_singleton]%elem_of_app; auto. }
  case_decide as Hina.
  - destruct (add_peer_link_complete busy (d_id d) p q s Hc Hina) as [Hc' Hld].
    unfold modify. apply HJ; [done..|].
    eapply Hmono; [apply add_peer_link_gle|]. by split.
  - destruct (Hsym (d_id d) p q Hp Hq) as (p' & (d2 & ps2 & Hd2 & _) & _).
    rewrite Hd2. simpl. pose proof (Hwf _ _ _ Hd2) as Hid2.
    assert (fst <$> store !! d_id d2 = Some d2) as Hd2' by (rewrite Hid2; by rewrite Hd2).
    pose proof (IH d2 Hd2' s Hc) as Hrun.
    pose proof (add_device_frame _ fuel d2 Hmono Hwf Hd2' s (conj Hw Hpd)) as Hfr.
    destruct (add_device store bp fuel d2 s) as [[[]|e] s2]; [|done].
    destruct Hrun as [Hc2 Hin2]. rewrite Hid2 in Hin2. apply HJ; [done| |done].
    apply (linked_back busy); [done..|]. destruct Hc as (_ & Hb & _). set_solver.
Qed.

Lemma walk_port_complete :
  triple (walking busy d pre) (walk_port store bp (add_device store bp fuel) d p)
    (λ _, walking busy d (pre ++ [p])) (λ e _, e = OutOfFuel).
Proof.
  unfold walk_port.
  apply (triple_bind _ _ _ (λ _ s, walking busy d pre s ∧ peers_done d p [] s)).
  { apply triple_modify. intros s1 [Hc [Hn Hpre]].
    destruct (add_port_complete busy d p s1 Hc) as [Hc' Hpd]. pose proof (add_port_gle d p s1) as Hle.
    split; [|split; [done|]; intros q Hq; by apply elem_of_nil in Hq].
    split; [done|]. split; [by eapply dev_node_mono|by eapply ports_done_mono]. }
  intros _. eapply triple_conseq.
  - apply (triple_forM_prefix (λ qs s, walking busy d pre s ∧ peers_done d p qs s)).
    intros qs q qpost Hqs. apply add_peer_complete. rewrite Hqs. set_solver.
  - done.
  - intros _ s1 [[Hc [Hn Hpre]] Hpd]. split; [done|]. split; [done|].
    intros p' [Hp'| ->%list_elem_of_singleton]%elem_of_app; [by apply Hpre|done].
  - done.
Qed.

End walk.

Lemma mark_device_complete busy d s :
  complete_but busy s → d_id d ∉ devices_added s →
  walking ({[d_id d]} ∪ busy) d [] (mark_device d s).
Proof.
  intros (Hl & Hb & Hc) Hin. pose proof (mark_device_gle d s) as Hle. split; [split_and!|split].
  - intros a b Hab. by eapply (adj_mono _ _ s), Hl.
  - simpl. set_solver.
  - intros id Hid Hn. eapply dev_done_mono; [done|]. simpl in Hid. apply Hc; set_solver.
  - unfold dev_node. simpl. rewrite lookup_insert_eq. simpl. by eexists.
  - intros p Hp. by apply elem_of_nil in Hp.
Qed.

Lemma add_device_complete fuel : ∀ busy d, fst <$> store !! d_id d = Some d →
  triple (complete_but busy) (add_device store bp fuel d)
    (λ _ s, complete_but busy s ∧ d_id d ∈ devices_added s) (λ e _, e = OutOfFuel).
Proof.
  induction fuel as [|fuel IH]; intros busy d Hd; simpl; [by apply triple_raise|].
  eapply triple_bind; [by apply (triple_gets _ _ (λ a s, a = devices_added s ∧ complete_but busy s))|].
  intros added. simpl. case_decide as Hin; [apply triple_ret; naive_solver|].
  apply fmap_Some in Hd as ([d' ps] & Hd & [= <-]).
  apply (triple_bind _ _ _ (λ _, walking ({[d_id d]} ∪ busy) d [])).
  { apply triple_modify. intros s [-> Hc]. by apply mark_device_complete. }
  intros _. rewrite Hd. simpl.
  apply (triple_bind _ _ _ (λ ports s, ports = ps ∧ walking ({[d_id d]} ∪ busy) d [] s));
    [by apply triple_ret|].
  intros ports s (-> & Hs).
  assert (triple (walking ({[d_id d]} ∪ busy) d [])
    (forM_ (walk_port store bp (add_device store bp fuel) d) ps)
    (λ _, walking ({[d_id d]} ∪ busy) d ps) (λ e _, e = OutOfFuel)) as Hloop.
  { apply triple_forM_prefix. intros pre p post ->.
    apply walk_port_complete; [intros d2 Hd2; by apply IH|].
    exists d, (pre ++ p :: post). split; [done|]. set_solver. }
  specialize (Hloop s Hs). destruct (forM_ _ ps s) as [[[]|e] s']; [|done].
  destruct Hloop as [(Hl & Hb & Hc) [Hn Hps]]. split; [split_and!|].
  - done.
  - set_solver.
  - intros id Hid Hnb. destruct (decide (id = d_id d)) as [->|Hne]; [|apply Hc; set_solver].
    split; [done|]. intros d2 ps2 Hd2. rewrite Hd in Hd2. by injection Hd2 as <- <-.
  - set_solver.
Qed.

Lemma add_logical_ports_complete lps :
  (∀ lp, lp ∈ lps → is_Some (store !! lp_device_id lp)) →
  triple (complete_but ∅) (forM_ (add_logical_port store bp) lps)
    (λ _ s, complete_but ∅ s ∧ ∀ lp, lp ∈ lps → lp_device_id lp ∈ devices_added s)
    (λ e _, e = OutOfFuel).
Proof.
  intros Hlps.
  set (I := λ (pre : list LogicalPort) s, complete_but ∅ s ∧ ∀ lp, lp ∈ pre → lp_device_id lp ∈ devices_added s).
  intros s Hs. apply (triple_forM_prefix I); [|split; [done|]; set_solver].
  clear s Hs. intros pre lp post -> s [Hc Hpre]. unfold add_logical_port.
  destruct (Hlps lp ltac:(set_solver)) as [[d ps] Hd]. rewrite Hd.
  change (fst <$> Some (d, ps)) with (Some d). cbn [from_some]. erewrite bind_ok by done.
  pose proof (Hwf _ _ _ Hd) as Hid.
  assert (fst <$> store !! d_id d = Some d) as Hd' by (rewrite Hid; by rewrite Hd).
  pose proof (add_device_complete (S (size store)) ∅ d Hd' s Hc) as Hrun.
  assert (mono (λ s, ∀ lp, lp ∈ pre → lp_device_id lp ∈ devices_added s)) as Hmono.
  { intros s1 s2 Hle H lp' Hlp'. eapply gle_added; eauto. }
  pose proof (add_device_frame _ (S (size store)) d Hmono Hwf Hd' s Hpre) as Hfr.
  destruct (add_device _ _ _ _ s) as [[[]|e] s']; [|done].
  destruct Hrun as [Hc' Hin]. rewrite Hid in Hin. split; [done|].
  intros lp' [Hlp'| ->%list_elem_of_singleton]%elem_of_app; auto.
Qed.

End graph_growth.

(** ** What the routes hold *)

(** A hop across the device [id] of the store: in at one of its ports, out at
    another. *)
Definition hop_across (store : dev_store) (id : string) (h : RouteHop) : Prop :=
  ∃ ps, store !! id = Some (device h, ps) ∧ ingress_port h ∈ ps ∧ egress_port h ∈ ps ∧
    port_no (ingress_port h) ≠ port_no (egress_port h).

(** The port a hop leaves by and the port the next one enters by are peers. *)
Definition hops_linked (store : dev_store) (id1 : string) (h1 : RouteHop)
    (id2 : string) (h2 : RouteHop) : Prop :=
  let u := NPort id1 (port_no (egress_port h1)) in
  let v := NPort id2 (port_no (ingress_port h2)) in
  declares store u v ∨ declares store v u.

(** The route between two logical ports: it enters at the device port behind
    the first, crosses one device, a peer link and another device, and leaves
    at the device port behind the second. *)
Definition route_between (store : dev_store) (lp1 lp2 : LogicalPort)
    (r : RouteHop * RouteHop) : Prop :=
  hop_across store (lp_device_id lp1) r.1 ∧ hop_across store (lp_device_id lp2) r.2 ∧
  port_no (ingress_port r.1) = lp_device_port_no lp1 ∧
  port_no (egress_port r.2) = lp_device_port_no lp2 ∧
  hops_linked store (lp_device_id lp1) r.1 (lp_device_id lp2) r.2.

Definition lp_key (lp : LogicalPort) : string * Z := (lp_device_id lp, lp_device_port_no lp).

Lemma boundary_ports_in lps k n :
  boundary_ports_of lps !! k = Some n → ∃ lp, lp ∈ lps ∧ lp_key lp = k ∧ lp_port_no lp = n.
Proof.
  unfold boundary_ports_of.
  enough (∀ m : gmap (string * Z) Z, foldl (λ m lp, <[(lp_device_id lp, lp_device_port_no lp) := lp_port_no lp]> m) m lps !! k
               = Some n → m !! k = Some n ∨ ∃ lp, lp ∈ lps ∧ lp_key lp = k ∧ lp_port_no lp = n) as H.
  { intros [Hm|]%H; [by rewrite lookup_empty in Hm|done]. }
  induction lps as [|lp lps IH]; intros m; simpl; [by left|].
  intros [Hm|(lp' & Hin & H1 & H2)]%IH; [|right; exists lp'; set_solver].
  rewrite lookup_insert in Hm. case_decide as Hk; [|by left].
  injection Hm as <-. right. exists lp. set_solver.
Qed.

Lemma boundary_ports_get lps lp :
  NoDup (lp_key <$> lps) → lp ∈ lps → boundary_ports_of lps !! lp_key lp = Some (lp_port_no lp).
Proof.
  unfold boundary_ports_of.
  enough (∀ m : gmap (string * Z) Z, NoDup (lp_key <$> lps) → (lp ∈ lps ∨ (lp_key lp ∉ lp_key <$> lps ∧ m !! lp_key lp = Some (lp_port_no lp))) →
    foldl (λ m lp, <[(lp_device_id lp, lp_device_port_no lp) := lp_port_no lp]> m) m lps !! lp_key lp
      = Some (lp_port_no lp)) as H by (intros; apply H; auto).
  induction lps as [|lp' lps IH]; intros m; csimpl.
  - intros _ [Hin|[_ Hm]]; [by apply elem_of_nil in Hin|done].
  - rewrite NoDup_cons. intros [Hn Hd] Hor. apply IH; [done|].
    destruct Hor as [[->|Hin]%elem_of_cons|[Hni Hm]].
    + right. split; [done|]. apply lookup_insert_eq.
    + by left.
    + apply not_elem_of_cons in Hni as [Hne Hni]. right. split; [done|].
      rewrite lookup_insert_ne; [done|]. intros Heq. by apply Hne.
Qed.

Section adjacency.
Context {store : dev_store} {g : graph} (Hg : graph_ok store g).

Lemma adj_cases u v : adj g u v →
  owns store u v ∨ owns store v u ∨ declares store u v ∨ declares store v u.
Proof. intros [H|H]; apply (go_edges _ _ Hg) in H; tauto. Qed.

Lemma adj_device i v : adj g (NDev i) v → ∃ p, has_port store i p ∧ v = NPort i (port_no p).
Proof.
  intros [H|[H|[H|H]]]%adj_cases.
  - destruct H as (id & p & Hp & [= ->] & ->). eauto.
  - destruct H as (id & p & _ & -> & [=]).
  - destruct H as (id & p & q & _ & _ & [=] & _).
  - destruct H as (id & p & q & _ & _ & -> & [=]).
Qed.

Lemma adj_ports i n j m : adj g (NPort i n) (NPort j m) →
  declares store (NPort i n) (NPort j m) ∨ declares store (NPort j m) (NPort i n).
Proof.
  intros [H|[H|H]]%adj_cases; [| |done]; by destruct H as (id & p & _ & [=] & _).
Qed.

Lemma node_device_inv n d r r' : node_device g n r = (Ok d, r') →
  r' = r ∧ ∃ id ps, n = NDev id ∧ store !! id = Some (d, ps).
Proof.
  unfold node_device. destruct (g_nodes g !! n ≫= at_device) as [d'|] eqn:Hn; [|done].
  intros [= -> ->]. split; [done|]. apply bind_Some in Hn as (a & Ha & Hd).
  apply (go_nodes _ _ Hg) in Ha. destruct n as [id|id no]; simpl in Ha.
  - destruct Ha as [_ H]. destruct (H d Hd) as [ps Hps]. eauto.
  - destruct Ha as [Ha _]. congruence.
Qed.

Lemma node_port_inv n p r r' : node_port g n r = (Ok p, r') →
  r' = r ∧ ∃ id, n = NPort id (port_no p) ∧ has_port store id p.
Proof.
  unfold node_port. destruct (g_nodes g !! n ≫= at_port) as [p'|] eqn:Hn; [|done].
  intros [= -> ->]. split; [done|]. apply bind_Some in Hn as (a & Ha & Hd).
  apply (go_nodes _ _ Hg) in Ha. destruct n as [id|id no]; simpl in Ha.
  - destruct Ha as [Ha _]. congruence.
  - destruct Ha as [_ H]. destruct (H p Hd) as [Hp <-]. eauto.
Qed.

Lemma node_device_ok n d r : g_nodes g !! n ≫= at_device = Some d → node_device g n r = (Ok d, r).
Proof. intros H. unfold node_device. by rewrite H. Qed.

Lemma node_port_ok n p r : g_nodes g !! n ≫= at_port = Some p → node_port g n r = (Ok p, r).
Proof. intros H. unfold node_port. by rewrite H. Qed.

End adjacency.

Section routes_sound.
Context `{ShortestPath} `{DictOrder} {store : dev_store} {g : graph} (Hg : graph_ok store g).

(** A shortest path of six nodes does not come back to a node two steps later:
    the detour could be left out. *)
Lemma shortest_path_turns u v a b c d e f :
  shortest_path g u v = Ok [a; b; c; d; e; f] → a ≠ c ∧ d ≠ f.
Proof.
  intros Hsp. pose proof (shortest_path_walk _ _ _ _ Hsp) as ((A1 & A2 & A3 & A4 & A5 & _) & Ha & Hf).
  split; intros ->.
  - assert (walk_between g u v [c; d; e; f]) as Hw by done.
    apply (shortest_path_min _ _ _ _ _ Hsp) in Hw. simpl in Hw. lia.
  - assert (walk_between g u v [a; b; c; f]) as Hw by done.
    apply (shortest_path_min _ _ _ _ _ Hsp) in Hw. simpl in Hw. lia.
Qed.

(** A run of [build_route] that changes the map adds a route between the two
    ports, exactly one of which is a root port. *)
Lemma build_route_sound roots k1 n1 k2 n2 r r' :
  build_route g roots (k1, n1) (k2, n2) r = (Ok tt, r') →
  r' = r ∨
  ∃ ih eh, r' = <[(n1, n2) := (ih, eh)]> r ∧ ¬ (n1 ∈ roots ↔ n2 ∈ roots) ∧
    hop_across store k1.1 ih ∧ hop_across store k2.1 eh ∧
    port_no (ingress_port ih) = k1.2 ∧ port_no (egress_port eh) = k2.2 ∧
    hops_linked store k1.1 ih k2.1 eh.
Proof.
  unfold build_route. simpl. do 3 (case_decide; [intros [= <-]; by left|]). intros Hr.
  minv Hr as (path & r1 & Hpath & Hr). unfold lift in Hpath. injection Hpath as Hsp <-.
  case_decide; [injection Hr as <-; by left|].
  destruct path as [|a [|b [|c [|d [|e [|f [|]]]]]]]; try done.
  minv Hr as (d1 & ? & Hd1 & Hr). apply (node_device_inv Hg) in Hd1 as (-> & id1 & ps1 & -> & Hs1).
  minv Hr as (i1 & ? & Hi1 & Hr). apply (node_port_inv Hg) in Hi1 as (-> & id1' & -> & ? & ps1' & Hs1' & Hi1).
  minv Hr as (o1 & ? & Ho1 & Hr). apply (node_port_inv Hg) in Ho1 as (-> & id1'' & -> & ? & ps1'' & Hs1'' & Ho1).
  minv Hr as (d2 & ? & Hd2 & Hr). apply (node_device_inv Hg) in Hd2 as (-> & id2 & ps2 & -> & Hs2).
  minv Hr as (i2 & ? & Hi2 & Hr). apply (node_port_inv Hg) in Hi2 as (-> & id2' & -> & ? & ps2' & Hs2' & Hi2).
  minv Hr as (o2 & ? & Ho2 & Hr). apply (node_port_inv Hg) in Ho2 as (-> & id2'' & -> & ? & ps2'' & Hs2'' & Ho2).
  injection Hr as <-. right. pose proof (shortest_path_turns _ _ _ _ _ _ _ _ Hsp) as [Hne1 Hne2].
  apply shortest_path_walk in Hsp as ((A1 & A2 & A3 & A4 & A5 & _) & [= Hk1 Hn1] & [= Hk2 Hn2]).
  apply adj_sym, (adj_device Hg) in A1 as (? & _ & [= <- _]).
  apply (adj_device Hg) in A2 as (? & _ & [= -> _]).
  apply adj_sym, (adj_device Hg) in A4 as (? & _ & [= -> _]).
  apply (adj_device Hg) in A5 as (? & _ & [= -> _]).
  apply (adj_ports Hg) in A3. simplify_eq. eexists _, _. split; [done|]. split; [naive_solver|].
  assert (port_no i1 ≠ port_no o1 ∧ port_no i2 ≠ port_no o2) as [Hp1 Hp2] by (split; congruence).
  unfold hop_across, hops_linked. simpl. split_and!; [by eexists|by eexists|done..].
Qed.

Lemma build_routes_sound lps :
  triple (λ r : routes_map, ∀ n1 n2 h, r !! (n1, n2) = Some h →
      ∃ lp1 lp2, lp1 ∈ lps ∧ lp2 ∈ lps ∧ lp_port_no lp1 = n1 ∧ lp_port_no lp2 = n2 ∧
        ¬ (n1 ∈ root_ports_of lps ↔ n2 ∈ root_ports_of lps) ∧ route_between store lp1 lp2 h)
    (build_routes (boundary_ports_of lps) g lps)
    (λ _ r, ∀ n1 n2 h, r !! (n1, n2) = Some h →
      ∃ lp1 lp2, lp1 ∈ lps ∧ lp2 ∈ lps ∧ lp_port_no lp1 = n1 ∧ lp_port_no lp2 = n2 ∧
        ¬ (n1 ∈ root_ports_of lps ↔ n2 ∈ root_ports_of lps) ∧ route_between store lp1 lp2 h)
    (λ _ _, True).
Proof.
  unfold build_routes. apply triple_forM. intros [k1 n1] Hk1%elem_of_iteritems.
  apply triple_forM. intros [k2 n2] Hk2%elem_of_iteritems. intros r Hr.
  destruct (build_route g _ _ _ r) as [[[]|e] r'] eqn:Hrun; [|done].
  apply build_route_sound in Hrun as [->|(ih & eh & -> & Hroots & Hih & Heh & Hi & Ho & Hl)]; [done|].
  intros m1 m2 h. rewrite lookup_insert. case_decide as Heq; [|by apply Hr].
  intros [= <-]. injection Heq as <- <-.
  apply boundary_ports_in in Hk1 as (lp1 & H1 & <- & <-).
  apply boundary_ports_in in Hk2 as (lp2 & H2 & <- & <-).
  exists lp1, lp2. by split_and!.
Qed.

End routes_sound.

Lemma complete_but_empty store : complete_but (store := store) ∅ empty_gstate.
Proof.
  split_and!; [intros a b Hab; simpl in Hab; by apply elem_of_nil in Hab|set_solver|].
  intros id Hid. simpl in Hid. set_solver.
Qed.

Lemma build_graph_spec store lps : wf_store store →
  match build_graph store lps with
  | Ok (bp, g) => bp = boundary_ports_of lps ∧ graph_ok store g
  | Err e => e ≠ OutOfFuel
  end.
Proof.
  intros Hwf. unfold build_graph.
  set (bp := boundary_ports_of lps).
  pose proof (add_logical_ports_inv (store := store) (bp := bp) (λ s, graph_ok store (gs_graph s))
    ltac:(intros; by eapply mark_device_ok) ltac:(intros; by apply add_port_ok)
    ltac:(intros; by apply add_peer_link_ok) Hwf lps empty_gstate) as Hinv.
  pose proof (add_logical_ports_fuel (store := store) (bp := bp) lps Hwf empty_gstate) as Hfuel.
  destruct (forM_ _ lps empty_gstate) as [[[]|e] s].
  - split; [done|]. apply Hinv. split; [|intros u v Huv; simpl in *; set_solver].
    intros n a Ha. simpl in Ha. by rewrite lookup_empty in Ha.
  - apply Hfuel. unfold unvisited. rewrite <- size_dom.
    apply (subseteq_size (C := gset string)). set_solver.
Qed.

(** ** A single fan-out network

    One root device that carries the root ports, and leaf devices each linked
    to it; the ports behind logical ports have no peers. *)
Record pon (store : dev_store) (lps : list LogicalPort) (root : string) : Prop := {
  pon_store : wf_store store;
  pon_peers : sym_peers store;
  pon_keys : NoDup (lp_key <$> lps);
  pon_numbers : NoDup (lp_port_no <$> lps);
  pon_ports : ∀ lp, lp ∈ lps →
    ∃ p, has_port store (lp_device_id lp) p ∧ port_no p = lp_device_port_no lp;
  pon_boundary : ∀ lp u v, lp ∈ lps → declares store u v →
    u ≠ node_of (lp_key lp) ∧ v ≠ node_of (lp_key lp);
  pon_root : ∀ lp, lp ∈ lps → lp_root_port lp = true ↔ lp_device_id lp = root;
  pon_leaf : ∀ lp, lp ∈ lps → lp_device_id lp ≠ root →
    ∃ p q, has_port store (lp_device_id lp) p ∧ q ∈ peers p ∧ peer_device_id q = root;
}.

Section fan_out.
Context {store : dev_store} {lps : list LogicalPort} {root : string}.
Context (Hpon : pon store lps root) {g : graph} (Hg : graph_ok store g).

Lemma adj_boundary lp v : lp ∈ lps → adj g (node_of (lp_key lp)) v → v = NDev (lp_device_id lp).
Proof.
  intros Hlp [H|[H|[H|H]]]%(adj_cases Hg).
  - by destruct H as (id & p & _ & [=] & _).
  - by destruct H as (id & p & _ & -> & [= <- _]).
  - by destruct (pon_boundary _ _ _ Hpon _ _ _ Hlp H).
  - by destruct (pon_boundary _ _ _ Hpon _ _ _ Hlp H).
Qed.

(** A walk between ports of different devices passes both devices and a port
    of each, so it has at least six nodes. *)
Lemma walk_at_least_6 lp1 lp2 q : lp1 ∈ lps → lp2 ∈ lps → lp_device_id lp1 ≠ lp_device_id lp2 →
  walk_between g (node_of (lp_key lp1)) (node_of (lp_key lp2)) q → 6 ≤ length q.
Proof.
  intros H1 H2 Hne (Hw & Hh & Hl).
  destruct q as [|a [|b [|c [|d [|e [|f q]]]]]]; simpl in *; try lia; try done; simplify_eq.
  - destruct Hw as (A1 & _). by apply (adj_boundary lp1) in A1.
  - destruct Hw as (A1 & A2 & _). apply (adj_boundary lp1) in A1 as ->; [|done].
    apply (adj_device Hg) in A2 as (? & _ & [= ? _]). congruence.
  - destruct Hw as (A1 & A2 & A3 & _). apply (adj_boundary lp1) in A1 as ->; [|done].
    apply (adj_device Hg) in A2 as (? & _ & ->). by apply adj_sym, (adj_boundary lp2) in A3.
  - destruct Hw as (A1 & A2 & A3 & A4 & _). apply (adj_boundary lp1) in A1 as ->; [|done].
    apply (adj_device Hg) in A2 as (? & _ & ->). apply adj_sym, (adj_boundary lp2) in A4 as ->; [|done].
    apply adj_sym, (adj_device Hg) in A3 as (? & _ & [= ? _]). congruence.
Qed.

(** So a walk of six nodes is device port, device, link, device, port. *)
Lemma walk_of_6 lp1 lp2 q : lp1 ∈ lps → lp2 ∈ lps → length q = 6 →
  walk_between g (node_of (lp_key lp1)) (node_of (lp_key lp2)) q →
  ∃ p1 p2, has_port store (lp_device_id lp1) p1 ∧ has_port store (lp_device_id lp2) p2 ∧
    q = [node_of (lp_key lp1); NDev (lp_device_id lp1); NPort (lp_device_id lp1) (port_no p1);
         NPort (lp_device_id lp2) (port_no p2); NDev (lp_device_id lp2); node_of (lp_key lp2)].
Proof.
  intros H1 H2 Hlen (Hw & Hh & Hl).
  destruct q as [|a [|b [|c [|d [|e [|f [|]]]]]]]; simpl in *; try lia; simplify_eq.
  destruct Hw as (A1 & A2 & A3 & A4 & A5 & _).
  apply (adj_boundary lp1) in A1 as ->; [|done].
  apply adj_sym, (adj_boundary lp2) in A5 as ->; [|done].
  apply (adj_device Hg) in A2 as (p1 & Hp1 & ->).
  apply adj_sym, (adj_device Hg) in A4 as (p2 & Hp2 & ->). eauto.
Qed.

Context {s : gstate} (Hs : g = gs_graph s) (Hc : complete_but (store := store) ∅ s).
Context (Hin : ∀ lp, lp ∈ lps → lp_device_id lp ∈ devices_added s).

Lemma added_done id : id ∈ devices_added s → dev_done (store := store) id s.
Proof. intros Hid. destruct Hc as (_ & _ & Hd). apply Hd; set_solver. Qed.

Lemma added_port id p : id ∈ devices_added s → has_port store id p →
  port_done id p s ∧ ∀ q, q ∈ peers p → link_done id p q s.
Proof. intros Hid (d & ps & Hd & Hp). by apply (proj2 (added_done id Hid) d ps Hd). Qed.

Lemma boundary_done lp : lp ∈ lps →
  is_Some (g_nodes g !! node_of (lp_key lp) ≫= at_port) ∧
  adj g (NDev (lp_device_id lp)) (node_of (lp_key lp)).
Proof.
  intros Hlp. destruct (pon_ports _ _ _ Hpon lp Hlp) as (p & Hp & Hno).
  destruct (added_port _ p (Hin lp Hlp) Hp) as [[H1 H2] _]. subst g.
  unfold node_of, lp_key. simpl. by rewrite <- Hno.
Qed.

(** Between a leaf's port and a root port there is a walk of six nodes. *)
Lemma walk_leaf_root lp1 lp2 : lp1 ∈ lps → lp2 ∈ lps →
  lp_device_id lp1 ≠ root → lp_device_id lp2 = root →
  ∃ q, walk_between g (node_of (lp_key lp1)) (node_of (lp_key lp2)) q ∧
    walk_between g (node_of (lp_key lp2)) (node_of (lp_key lp1)) (reverse q) ∧ length q = 6.
Proof.
  intros H1 H2 Hn1 Hn2. destruct (boundary_done lp1 H1) as [_ A1].
  destruct (boundary_done lp2 H2) as [_ A2].
  destruct (pon_leaf _ _ _ Hpon lp1 H1 Hn1) as (p & q & Hp & Hq & Hroot).
  destruct (added_port _ p (Hin lp1 H1) Hp) as [[_ A3] Hlinks]. destruct (Hlinks q Hq) as [Hqa A4].
  destruct (pon_peers _ _ _ Hpon _ p q Hp Hq) as (p' & Hp' & Hno & _).
  destruct (added_port _ p' Hqa Hp') as [[_ A5] _]. rewrite Hroot in *. rewrite <- Hn2, <- Hno in *.
  exists [node_of (lp_key lp1); NDev (lp_device_id lp1); NPort (lp_device_id lp1) (port_no p);
          NPort (lp_device_id lp2) (port_no p'); NDev (lp_device_id lp2); node_of (lp_key lp2)].
  subst g. unfold walk_between. simpl. split_and!; try done; by apply adj_sym.
Qed.

Lemma walk_mixed lp1 lp2 : lp1 ∈ lps → lp2 ∈ lps → lp_root_port lp1 ≠ lp_root_port lp2 →
  ∃ q, walk_between g (node_of (lp_key lp1)) (node_of (lp_key lp2)) q ∧ length q = 6.
Proof.
  intros H1 H2 Hne. pose proof (pon_root _ _ _ Hpon lp1 H1) as R1.
  pose proof (pon_root _ _ _ Hpon lp2 H2) as R2.
  destruct (lp_root_port lp1), (lp_root_port lp2); try done.
  - destruct (walk_leaf_root lp2 lp1) as (q & _ & Hq & Hl); [naive_solver..|].
    exists (reverse q). split; [done|]. by rewrite length_reverse.
  - destruct (walk_leaf_root lp1 lp2) as (q & Hq & _ & Hl); [naive_solver..|]. by exists q.
Qed.

Lemma same_number lp lp' : lp ∈ lps → lp' ∈ lps → lp_port_no lp = lp_port_no lp' → lp = lp'.
Proof.
  intros [i Hi]%list_elem_of_lookup [j Hj]%list_elem_of_lookup Heq.
  assert (i = j) as <-; [|congruence].
  apply (NoDup_lookup _ _ _ (lp_port_no lp) (pon_numbers _ _ _ Hpon)); rewrite list_lookup_fmap;
    [by rewrite Hi|by rewrite Hj, Heq].
Qed.

Lemma root_ports_iff lp : lp ∈ lps → lp_port_no lp ∈ root_ports_of lps ↔ lp_root_port lp = true.
Proof.
  intros Hlp. unfold root_ports_of. rewrite list_elem_of_fmap. split.
  - intros (lp' & Heq & [Hr Hlp']%list_elem_of_filter). by rewrite (same_number lp lp').
  - intros Hr. exists lp. split; [done|]. by apply list_elem_of_filter.
Qed.

Context `{ShortestPath} `{DictOrder}.

(** [build_route] never raises, and finds the route of a mixed pair. *)
Lemma build_route_found lp1 lp2 r : lp1 ∈ lps → lp2 ∈ lps →
  ∃ r', build_route g (root_ports_of lps) (lp_key lp1, lp_port_no lp1)
          (lp_key lp2, lp_port_no lp2) r = (Ok tt, r') ∧
    (∀ k, is_Some (r !! k) → is_Some (r' !! k)) ∧
    (lp_root_port lp1 ≠ lp_root_port lp2 → is_Some (r' !! (lp_port_no lp1, lp_port_no lp2))).
Proof.
  intros H1 H2. unfold build_route. simpl.
  pose proof (root_ports_iff lp1 H1) as R1. pose proof (root_ports_iff lp2 H2) as R2.
  pose proof (pon_root _ _ _ Hpon lp1 H1) as D1. pose proof (pon_root _ _ _ Hpon lp2 H2) as D2.
  case_decide as Hk.
  { eexists. split_and!; [done..|]. injection Hk as Hk _. destruct (lp_root_port lp1), (lp_root_port lp2); naive_solver. }
  case_decide; [eexists; split_and!; [done..|]; naive_solver|].
  case_decide; [eexists; split_and!; [done..|]; destruct (lp_root_port lp1), (lp_root_port lp2); naive_solver|].
  assert (lp_root_port lp1 ≠ lp_root_port lp2) as Hne
    by (destruct (lp_root_port lp1), (lp_root_port lp2); naive_solver).
  assert (lp_device_id lp1 ≠ lp_device_id lp2) as Hdev
    by (destruct (lp_root_port lp1), (lp_root_port lp2); naive_solver).
  destruct (walk_mixed lp1 lp2 H1 H2 Hne) as (q & Hq & Hlen).
  destruct (boundary_done lp1 H1) as [B1 _]. destruct (boundary_done lp2 H2) as [B2 _].
  assert (∀ n, is_Some (g_nodes g !! n ≫= at_port) → is_Some (g_nodes g !! n)) as Hsome
    by (intros n; destruct (g_nodes g !! n); [done|by intros []]).
  destruct (shortest_path_found g _ _ q (Hsome _ B1) (Hsome _ B2) Hq) as [p Hp].
  pose proof (shortest_path_walk _ _ _ _ Hp) as Hw.
  assert (length p = 6) as Hp6.
  { pose proof (shortest_path_min _ _ _ _ _ Hp Hq). pose proof (walk_at_least_6 lp1 lp2 p H1 H2 Hdev Hw). lia. }
  destruct (walk_of_6 lp1 lp2 p H1 H2 Hp6 Hw) as (p1 & p2 & Hp1 & Hp2 & ->).
  unfold lift. erewrite bind_ok by (by rewrite Hp). rewrite decide_False by (simpl; naive_solver).
  destruct (added_done _ (Hin lp1 H1)) as [[d1 Hd1] _]. destruct (added_done _ (Hin lp2 H2)) as [[d2 Hd2] _].
  destruct (added_port _ p1 (Hin lp1 H1) Hp1) as [[[o1 Ho1] _] _].
  destruct (added_port _ p2 (Hin lp2 H2) Hp2) as [[[i2 Hi2] _] _].
  destruct B1 as [i1 Hi1]. destruct B2 as [o2 Ho2]. subst g.
  do 6 (erewrite bind_ok by first [by apply node_device_ok|by apply node_port_ok]).
  eexists. split_and!; [done|..].
  - intros k Hsk. rewrite lookup_insert. by case_decide.
  - intros _. rewrite lookup_insert_eq. by eexists.
Qed.

Lemma build_routes_found :
  ∃ r, build_routes (boundary_ports_of lps) g lps ∅ = (Ok tt, r) ∧
    ∀ lp1 lp2, lp1 ∈ lps → lp2 ∈ lps → lp_root_port lp1 ≠ lp_root_port lp2 →
      is_Some (r !! (lp_port_no lp1, lp_port_no lp2)).
Proof.
  set (items := iteritems (boundary_ports_of lps)).
  set (found := λ (x y : (string * Z) * Z) (r : routes_map), ∀ lp1 lp2,
    lp1 ∈ lps → lp2 ∈ lps → x = (lp_key lp1, lp_port_no lp1) → y = (lp_key lp2, lp_port_no lp2) →
    lp_root_port lp1 ≠ lp_root_port lp2 → is_Some (r !! (x.2, y.2))).
  assert (∀ x, x ∈ items → ∃ lp, lp ∈ lps ∧ x = (lp_key lp, lp_port_no lp)) as Hitems.
  { intros [k n] (lp & Hlp & <- & <-)%elem_of_iteritems%boundary_ports_in. eauto. }
  assert (triple (λ r, ∀ x y, x ∈ ([] : list ((string * Z) * Z)) → y ∈ items → found x y r)
    (build_routes (boundary_ports_of lps) g lps)
    (λ _ r, ∀ x y, x ∈ items → y ∈ items → found x y r) (λ _ _, False)) as Hrun.
  { unfold build_routes. fold items.
    apply (triple_forM_prefix (λ pre r, ∀ x y, x ∈ pre → y ∈ items → found x y r)).
    intros pre x post Hx. eapply triple_conseq with
      (P' := λ r, (∀ x y, x ∈ pre → y ∈ items → found x y r) ∧
                  ∀ y, y ∈ ([] : list ((string * Z) * Z)) → found x y r) (E' := λ _ _, False);
      [apply (triple_forM_prefix (λ pre2 r, (∀ x y, x ∈ pre → y ∈ items → found x y r) ∧
                                    ∀ y, y ∈ pre2 → found x y r))| | |done].
    - intros pre2 y post2 Hy r [Hr1 Hr2].
      destruct (Hitems x) as (lp1 & Hlp1 & ->); [rewrite Hx; set_solver|].
      destruct (Hitems y) as (lp2 & Hlp2 & ->); [rewrite Hy; set_solver|].
      destruct (build_route_found lp1 lp2 r Hlp1 Hlp2) as (r' & -> & Hmono & Hnew). split.
      + intros x' y' Hx' Hy' lpa lpb Ha Hb Hxa Hyb Hne. apply Hmono. by apply (Hr1 x' y' Hx' Hy' lpa lpb).
      + intros y' [Hy'| ->%list_elem_of_singleton]%elem_of_app lpa lpb Ha Hb Hxa Hyb Hne.
        * apply Hmono. by apply (Hr2 y' Hy' lpa lpb).
        * simpl. apply Hnew. injection Hxa as _ Hna. injection Hyb as _ Hnb.
          by rewrite (same_number lp1 lpa), (same_number lp2 lpb).
    - intros r Hr. split; [done|]. intros y Hy. by apply elem_of_nil in Hy.
    - intros _ r [Hr1 Hr2] x' y' [Hx'| ->%list_elem_of_singleton]%elem_of_app Hy'; auto. }
  specialize (Hrun ∅ ltac:(intros x y Hx; by apply elem_of_nil in Hx)).
  destruct (build_routes _ _ _ _) as [[[]|e] r]; [|done]. exists r. split; [done|].
  intros lp1 lp2 H1 H2 Hne.
  assert (∀ lp, lp ∈ lps → (lp_key lp, lp_port_no lp) ∈ items) as Hit.
  { intros lp Hlp. apply elem_of_iteritems, boundary_ports_get; [apply (pon_keys _ _ _ Hpon)|done]. }
  by apply (Hrun _ _ (Hit lp1 H1) (Hit lp2 H2) lp1 lp2).
Qed.

End fan_out.

Section routes_spec.
Context `{ShortestPath} `{DictOrder}.

Lemma build_route_exn g roots x y :
  triple (λ _, True) (build_route g roots x y) (λ _ _, True) (λ e _, e ≠ OutOfFuel).
Proof.
  unfold build_route. do 3 (case_decide; [by apply triple_ret|]).
  eapply triple_bind with (R := λ _ _, True).
  { apply triple_lift; [done|]. intros e s He _. by eapply shortest_path_exn. }
  intros path. case_decide; [by apply triple_ret|].
  destruct path as [|a [|b [|c [|d [|e [|f [|]]]]]]]; try by apply triple_raise.
  do 6 (eapply triple_bind with (R := λ _ _, True);
        [by apply triple_from_some|intros ?]).
  by apply triple_modify.
Qed.

Lemma compute_routes_spec store lps : wf_store store →
  match compute_routes store lps with
  | Ok (g, routes) =>
      graph_ok store g ∧
      ∀ n1 n2 h, routes !! (n1, n2) = Some h →
        ∃ lp1 lp2, lp1 ∈ lps ∧ lp2 ∈ lps ∧ lp_port_no lp1 = n1 ∧ lp_port_no lp2 = n2 ∧
          ¬ (n1 ∈ root_ports_of lps ↔ n2 ∈ root_ports_of lps) ∧ route_between store lp1 lp2 h
  | Err e => e ≠ OutOfFuel
  end.
Proof.
  intros Hwf. unfold compute_routes. pose proof (build_graph_spec store lps Hwf) as Hb.
  destruct (build_graph store lps) as [[bp g]|e]; [|done]. destruct Hb as [-> Hg].
  pose proof (build_routes_sound Hg lps ∅) as Hs.
  assert (triple (λ _, True) (build_routes (boundary_ports_of lps) g lps) (λ _ _, True)
            (λ e _, e ≠ OutOfFuel)) as He.
  { apply (triple_forM (λ _, True)). intros x _. apply (triple_forM (λ _, True)). intros y _.
    apply build_route_exn. }
  specialize (He ∅ I). destruct (build_routes _ _ _ _) as [[[]|e] r]; [|done]. split; [done|].
  apply Hs. intros n1 n2 h Hl. by rewrite lookup_empty in Hl.
Qed.

End routes_spec.

(** ** Properties *)
Section properties.
Context `{ShortestPath} `{DictOrder}.

(** C40 The walk over the devices ends: on a store keyed by device id, one
    level of calls per device is enough, whatever loops the peers form; and
    the graph it builds holds only devices and ports of the store, linked to
    each other or to a peer one of the two declares. *)
Theorem build_graph_terminates store lps (Hwf : wf_store store) :
  match build_graph store lps with
  | Ok (bp, g) => bp = boundary_ports_of lps ∧ graph_ok store g
  | Err e => e ≠ OutOfFuel
  end.
Proof. by apply build_graph_spec. Qed.

(** C32 Every route computed is a route: it joins two logical ports, exactly
    one of which is a root port, and consists of a hop over the device of the
    first and a hop over the device of the second, entering and leaving by the
    ports behind the logical ports, over a declared peer link - whichever
    shortest path the search picks and in whatever order the ports come. *)
Theorem compute_routes_sound store lps g routes (Hwf : wf_store store)
    (Hrun : compute_routes store lps = Ok (g, routes)) :
  ∀ n1 n2 h, routes !! (n1, n2) = Some h →
    ∃ lp1 lp2, lp1 ∈ lps ∧ lp2 ∈ lps ∧ lp_port_no lp1 = n1 ∧ lp_port_no lp2 = n2 ∧
      ¬ (n1 ∈ root_ports_of lps ↔ n2 ∈ root_ports_of lps) ∧ route_between store lp1 lp2 h.
Proof.
  pose proof (compute_routes_spec store lps Hwf) as Hs. rewrite Hrun in Hs. apply Hs.
Qed.

(** C18 On a single fan-out network the computation succeeds, and every pair
    of a root port and a leaf port gets its route, in both directions. *)
Theorem compute_routes_complete store lps root (Hpon : pon store lps root) :
  ∃ g routes, compute_routes store lps = Ok (g, routes) ∧
    ∀ lp1 lp2, lp1 ∈ lps → lp2 ∈ lps → lp_root_port lp1 ≠ lp_root_port lp2 →
      ∃ r, routes !! (lp_port_no lp1, lp_port_no lp2) = Some r ∧ route_between store lp1 lp2 r.
Proof.
  pose proof (pon_store _ _ _ Hpon) as Hwf. pose proof (pon_peers _ _ _ Hpon) as Hsym.
  assert (∀ lp, lp ∈ lps → is_Some (store !! lp_device_id lp)) as Hlps.
  { intros lp Hlp. destruct (pon_ports _ _ _ Hpon lp Hlp) as (p & (d & ps & Hd & _) & _). by rewrite Hd. }
  pose proof (build_graph_spec store lps Hwf) as Hb.
  pose proof (add_logical_ports_complete (bp := boundary_ports_of lps) Hwf Hsym lps Hlps _
    (complete_but_empty store)) as Hc.
  unfold compute_routes, build_graph in *.
  destruct (forM_ _ lps empty_gstate) as [[[]|e] s]; [|by subst].
  destruct Hb as [_ Hg]. destruct Hc as [Hc Hin].
  destruct (build_routes_found Hpon Hg eq_refl Hc Hin) as (r & Hrun & Hfound).
  pose proof (build_routes_sound Hg lps ∅) as Hs. rewrite Hrun in Hs. rewrite Hrun.
  exists (gs_graph s), r. split; [done|]. intros lp1 lp2 H1 H2 Hne.
  destruct (Hfound lp1 lp2 H1 H2 Hne) as [h Hh]. exists h. split; [done|].
  destruct (Hs ltac:(intros n1 n2 h' Hl; by rewrite lookup_empty in Hl) _ _ _ Hh)
    as (lpa & lpb & Ha & Hb & Hna & Hnb & _ & Hr).
  by rewrite (same_number Hpon lp1 lpa), (same_number Hpon lp2 lpb).
Qed.

End properties.

(** ** The sample network *)
Section sample_network.
Local Open Scope string_scope.

Definition sample_store : dev_store :=
  {[ "olt" := (olt, [olt_nni; olt_pon]); "onu" := (onu, [onu_pon; onu_uni]) ]}.

Lemma sample_store_cases id d ps : sample_store !! id = Some (d, ps) →
  (id = "olt" ∧ d = olt ∧ ps = [olt_nni; olt_pon]) ∨
  (id = "onu" ∧ d = onu ∧ ps = [onu_pon; onu_uni]).
Proof.
  unfold sample_store. rewrite lookup_insert. case_decide as H; [intros [= <- <-]; auto|].
  rewrite lookup_singleton. case_decide; [|done]. intros [= <- <-]. auto.
Qed.

Lemma sample_store_wf : wf_store sample_store.
Proof. by intros id d ps [(-> & -> & _)|(-> & -> & _)]%sample_store_cases. Qed.

Lemma sample_port_cases id p : has_port sample_store id p →
  (id, p) ∈ [("olt", olt_nni); ("olt", olt_pon); ("onu", onu_pon); ("onu", onu_uni)].
Proof.
  intros (d & ps & [(-> & _ & ->)|(-> & _ & ->)]%sample_store_cases & Hp); set_solver.
Qed.

Lemma sample_has_port id d ps p : sample_store !! id = Some (d, ps) → p ∈ ps → has_port sample_store id p.
Proof. intros; by exists d, ps. Qed.

Lemma sample_peer_cases id p q : has_port sample_store id p → q ∈ peers p →
  (id = "olt" ∧ p = olt_pon ∧ q = Peer "onu" 1) ∨ (id = "onu" ∧ p = onu_pon ∧ q = Peer "olt" 1).
Proof.
  intros Hp%sample_port_cases Hq. rewrite !elem_of_cons in Hp.
  destruct Hp as [[= -> ->]|[[= -> ->]|[[= -> ->]|[[= -> ->]|[]%elem_of_nil]]]]; simpl in Hq.
  - by apply elem_of_nil in Hq.
  - apply list_elem_of_singleton in Hq. auto.
  - apply list_elem_of_singleton in Hq. auto.
  - by apply elem_of_nil in Hq.
Qed.

Lemma sample_pon : pon sample_store [nni_lp; uni_lp] "olt".
Proof.
  assert (has_port sample_store "olt" olt_nni) as P1 by (eapply sample_has_port; [reflexivity|set_solver]).
  assert (has_port sample_store "olt" olt_pon) as P2 by (eapply sample_has_port; [reflexivity|set_solver]).
  assert (has_port sample_store "onu" onu_pon) as P3 by (eapply sample_has_port; [reflexivity|set_solver]).
  assert (has_port sample_store "onu" onu_uni) as P4 by (eapply sample_has_port; [reflexivity|set_solver]).
  split.
  - apply sample_store_wf.
  - intros id p q Hp Hq.
    destruct (sample_peer_cases id p q Hp Hq) as [(-> & -> & ->)|(-> & -> & ->)].
    + exists onu_pon. split_and!; [done..|]. simpl. set_solver.
    + exists olt_pon. split_and!; [done..|]. simpl. set_solver.
  - apply (bool_decide_unpack _). vm_compute. exact I.
  - apply (bool_decide_unpack _). vm_compute. exact I.
  - intros lp [->|[->|[]%elem_of_nil]%elem_of_cons]%elem_of_cons; [by exists olt_nni|by exists onu_uni].
  - intros lp u v Hlp (id & p & q & Hp & Hq & -> & ->).
    destruct (sample_peer_cases id p q Hp Hq) as [(-> & -> & ->)|(-> & -> & ->)];
      apply elem_of_cons in Hlp as [->|[->|[]%elem_of_nil]%elem_of_cons]; by vm_compute.
  - intros lp [->|[->|[]%elem_of_nil]%elem_of_cons]%elem_of_cons; by vm_compute.
  - intros lp [->|[->|[]%elem_of_nil]%elem_of_cons]%elem_of_cons; [by vm_compute|].
    intros _. exists onu_pon, (Peer "olt" 1). split_and!; [done|simpl; set_solver|done].
Qed.

Lemma build_graph_terminates_witness :
  match build_graph sample_store [nni_lp; uni_lp] with
  | Ok (bp, g) => bp = boundary_ports_of [nni_lp; uni_lp] ∧ graph_ok sample_store g
  | Err e => e ≠ OutOfFuel
  end.
Proof. exact (build_graph_terminates sample_store [nni_lp; uni_lp] sample_store_wf). Defined.

Lemma compute_routes_complete_witness :
  ∃ g routes, @compute_routes ref_path plain_order sample_store [nni_lp; uni_lp] = Ok (g, routes) ∧
    ∀ lp1 lp2, lp1 ∈ [nni_lp; uni_lp] → lp2 ∈ [nni_lp; uni_lp] →
      lp_root_port lp1 ≠ lp_root_port lp2 →
      ∃ r, routes !! (lp_port_no lp1, lp_port_no lp2) = Some r ∧ route_between sample_store lp1 lp2 r.
Proof.
  exact (@compute_routes_complete ref_path plain_order sample_store [nni_lp; uni_lp] "olt" sample_pon).
Defined.

(** The route from the UNI to the NNI is the expected one. *)
Lemma compute_routes_sound_witness :
  ∃ g routes, @compute_routes ref_path plain_order sample_store [nni_lp; uni_lp] = Ok (g, routes) ∧
    routes !! (101, 0)%Z = Some (up_onu, up_olt) ∧
    ∃ lp1 lp2, lp1 ∈ [nni_lp; uni_lp] ∧ lp2 ∈ [nni_lp; uni_lp] ∧
      lp_port_no lp1 = 101%Z ∧ lp_port_no lp2 = 0%Z ∧
      ¬ (101%Z ∈ root_ports_of [nni_lp; uni_lp] ↔ 0%Z ∈ root_ports_of [nni_lp; uni_lp]) ∧
      route_between sample_store lp1 lp2 (up_onu, up_olt).
Proof.
  assert (@compute_routes ref_path plain_order sample_store [nni_lp; uni_lp] =
    Ok (match @compute_routes ref_path plain_order sample_store [nni_lp; uni_lp] with
        | Ok p => p | Err _ => (empty_graph, ∅) end)) as Hrun by (vm_compute; reflexivity).
  destruct (match @compute_routes ref_path plain_order sample_store [nni_lp; uni_lp] with
            | Ok p => p | Err _ => (empty_graph, ∅) end) as [g routes] eqn:Hp.
  exists g, routes. split; [exact Hrun|].
  assert (routes !! (101, 0)%Z = Some (up_onu, up_olt)) as Hl.
  { apply (f_equal (λ p : graph * routes_map, p.2 !! (101, 0)%Z)) in Hp. simpl in Hp.
    rewrite <- Hp. vm_compute. reflexivity. }
  split; [exact Hl|].
  exact (@compute_routes_sound ref_path plain_order sample_store [nni_lp; uni_lp] g routes
           sample_store_wf Hrun 101%Z 0%Z (up_onu, up_olt) Hl).
Defined.

End sample_network.
