(* ===== verification/LogicalDeviceAgent.v ===== *)
(** * The logical device agent

    The class [LogicalDeviceAgent] of src/voltha/core/logical_device_agent.py:
    the flow and group tables of a logical device, the callbacks that keep the
    tables of the devices behind it in step, the cached routes and default
    rules, and port handling.  The agent reads and writes the configuration
    tree through proxies; the nodes it touches are the record [tree], and a
    proxy's [update] is spelled out: PRE_UPDATE callback (its exception rejects
    the update), store when the data differ, POST_UPDATE callback (its
    exception is logged and dropped).

    A flow without a route is deleted from the table while the table is being
    decomposed, which updates the table again from within the callback.
    [flows_update] ties this recursion with fuel; the theorems show that one
    more than the number of flows is enough. *)
From S2P Require Import Prelude OpenFlow Devices Sample FlowDecomposer DeviceGraph.
From stdpp Require Import base gmap list strings.
From Stdlib Require Import ZArith Lia.

Local Open Scope Z_scope.

(** ** State *)

(** The nodes of the configuration tree the agent uses. *)
Record tree := Tree {
  t_flows : list ofp_flow_stats;
  t_groups : list ofp_group_entry;
  t_ports : list LogicalPort;
  t_root_device_id : string;
  t_devices : dev_store;
  t_dev_flows : gmap string (list ofp_flow_stats);
  t_dev_groups : gmap string (list ofp_group_entry);
}.

(** [_routes], [_default_rules], [_nni_logical_port_no].  The last two are
    attributes [__init__] does not create: the outer [None] is "no such
    attribute", the inner one Python's [None]. *)
Record cache := Cache {
  c_routes : option routes_map;
  c_default_rules : option (option device_rules);
  c_nni : option (option Z);
}.

Inductive port_reason := OFPPR_ADD | OFPPR_DELETE | OFPPR_MODIFY.

Record ofp_packet_in := PacketInMsg { pi_match : ofp_match; pi_data : list Byte.byte }.

(** What leaves the agent: calls of the local handler, and event bus messages. *)
Inductive event :=
  | PortChange (reason : port_reason) (desc : ofp_port)
  | PacketIn (m : ofp_packet_in)
  | PacketOut (data : list Byte.byte).

(** The callbacks registered on the flows, groups and logical device nodes,
    and the packet-in subscription. *)
Record hooks := Hooks {
  h_pre_flows : bool;
  h_flows : bool;
  h_groups : bool;
  h_port_added : bool;
  h_port_removed : bool;
  h_packet_in : bool;
}.

Record lda := Lda {
  tr : tree;
  ca : cache;
  no_flow_changes_required : bool;
  port_proxy : gmap string nat;  (* how often the callbacks were registered *)
  port_status_has_changed : gmap string bool;
  cbs : hooks;
  events : list event;
}.

(** [__init__] on a given tree. *)
Definition init (t : tree) : lda :=
  Lda t (Cache None None None) false ∅ ∅ (Hooks true true true true true true) [].

Definition set_tr (f : tree → tree) (s : lda) : lda :=
  Lda (f (tr s)) (ca s) (no_flow_changes_required s) (port_proxy s)
    (port_status_has_changed s) (cbs s) (events s).
Definition set_ca (f : cache → cache) (s : lda) : lda :=
  Lda (tr s) (f (ca s)) (no_flow_changes_required s) (port_proxy s)
    (port_status_has_changed s) (cbs s) (events s).
Definition set_no_changes (b : bool) (s : lda) : lda :=
  Lda (tr s) (ca s) b (port_proxy s) (port_status_has_changed s) (cbs s) (events s).
Definition set_port_proxy (f : gmap string nat → gmap string nat) (s : lda) : lda :=
  Lda (tr s) (ca s) (no_flow_changes_required s) (f (port_proxy s))
    (port_status_has_changed s) (cbs s) (events s).
Definition set_changed (f : gmap string bool → gmap string bool) (s : lda) : lda :=
  Lda (tr s) (ca s) (no_flow_changes_required s) (port_proxy s)
    (f (port_status_has_changed s)) (cbs s) (events s).
Definition set_cbs (h : hooks) (s : lda) : lda :=
  Lda (tr s) (ca s) (no_flow_changes_required s) (port_proxy s)
    (port_status_has_changed s) h (events s).
Definition emit (e : event) : M lda unit := modify (λ s,
  Lda (tr s) (ca s) (no_flow_changes_required s) (port_proxy s)
    (port_status_has_changed s) (cbs s) (events s ++ [e])).

Definition set_flows (fl : list ofp_flow_stats) (t : tree) : tree :=
  Tree fl (t_groups t) (t_ports t) (t_root_device_id t) (t_devices t) (t_dev_flows t) (t_dev_groups t).
Definition set_groups (gs : list ofp_group_entry) (t : tree) : tree :=
  Tree (t_flows t) gs (t_ports t) (t_root_device_id t) (t_devices t) (t_dev_flows t) (t_dev_groups t).
Definition set_ports (ps : list LogicalPort) (t : tree) : tree :=
  Tree (t_flows t) (t_groups t) ps (t_root_device_id t) (t_devices t) (t_dev_flows t) (t_dev_groups t).
Definition set_dev_flows (dev : string) (fl : list ofp_flow_stats) (t : tree) : tree :=
  Tree (t_flows t) (t_groups t) (t_ports t) (t_root_device_id t) (t_devices t)
    (<[dev := fl]> (t_dev_flows t)) (t_dev_groups t).
Definition set_dev_groups (dev : string) (gs : list ofp_group_entry) (t : tree) : tree :=
  Tree (t_flows t) (t_groups t) (t_ports t) (t_root_device_id t) (t_devices t)
    (t_dev_flows t) (<[dev := gs]> (t_dev_groups t)).

Definition set_routes (r : routes_map) (c : cache) : cache :=
  Cache (Some r) (c_default_rules c) (c_nni c).
Definition set_default_rules (d : device_rules) (c : cache) : cache :=
  Cache (c_routes c) (Some (Some d)) (c_nni c).
Definition set_nni (n : Z) (c : cache) : cache := Cache (c_routes c) (c_default_rules c) (Some (Some n)).

(** ** Matching flows *)

(** [flow_match]: equality on 'table_id', 'priority', 'flags', 'cookie', 'match' *)
Definition flow_match (f1 f2 : ofp_flow_stats) : bool :=
  bool_decide (fs_table_id f1 = fs_table_id f2) &&
  bool_decide (fs_priority f1 = fs_priority f2) &&
  bool_decide (fs_flags f1 = fs_flags f2) &&
  bool_decide (fs_cookie f1 = fs_cookie f2) &&
  bool_decide (fs_match f1 = fs_match f2).

(** [find_flow], with [None] for -1 *)
Fixpoint find_flow (flows : list ofp_flow_stats) (flow : ofp_flow_stats) : option nat :=
  match flows with
  | [] => None
  | f :: flows => if flow_match f flow then Some 0%nat else S <$> find_flow flows flow
  end.

Definition find_overlapping_flows (flows : list ofp_flow_stats) (m : ofp_flow_mod)
  : list ofp_flow_stats := [].

Definition flow_has_out_port (flow : ofp_flow_stats) (out_port : Z) : bool :=
  existsb (λ i, bool_decide (i_type i = OFPIT_APPLY_ACTIONS) &&
    existsb (λ a, bool_decide (a_type a = OUTPUT) && bool_decide (action_output_port a = out_port))
      (instr_actions i)) (fs_instructions flow).

Definition flow_has_out_group (flow : ofp_flow_stats) (group_id : Z) : bool :=
  existsb (λ i, bool_decide (i_type i = OFPIT_APPLY_ACTIONS) &&
    existsb (λ a, bool_decide (a_type a = GROUP) && bool_decide (action_group_id a = group_id))
      (instr_actions i)) (fs_instructions flow).

(** [flow_matches_spec] for an [ofp_flow_mod] *)
Definition flow_matches_spec (flow : ofp_flow_stats) (m : ofp_flow_mod) : result bool :=
  if decide (Z.land (fs_cookie flow) (fm_cookie_mask m) ≠ Z.land (fm_cookie m) (fm_cookie_mask m))
  then Ok false
  else if decide (fm_table_id m ≠ OFPTT_ALL ∧ fs_table_id flow ≠ fm_table_id m) then Ok false
  else if decide (Z.land (fm_out_port m) 0x7fffffff ≠ OFPP_ANY ∧
                  flow_has_out_port flow (fm_out_port m) = false) then Ok false
  else if decide (Z.land (fm_out_group m) 0x7fffffff ≠ OFPG_ANY ∧
                  flow_has_out_group flow (fm_out_group m) = false) then Ok false
  else match m_oxm_fields (fm_match m) with
       | [] => Ok true
       | _ => Err NotImplementedError
       end.

(** The loop that sorts flows into [to_keep] and [to_delete]. *)
Fixpoint split_flows (P : ofp_flow_stats → result bool) (flows : list ofp_flow_stats)
    : result (list ofp_flow_stats * list ofp_flow_stats) :=
  match flows with
  | [] => Ok ([], [])
  | f :: flows =>
      match P f with
      | Err e => Err e
      | Ok b =>
          match split_flows P flows with
          | Err e => Err e
          | Ok (keep, del) => if b then Ok (keep, f :: del) else Ok (f :: keep, del)
          end
      end
  end.

Definition announce_flow_deleted (f : ofp_flow_stats) : M lda unit :=
  if decide (Z.land (fs_flags f) OFPFF_SEND_FLOW_REM ≠ 0) then raise NotImplementedError
  else mret tt.

Definition announce_flows_deleted (flows : list ofp_flow_stats) : M lda unit :=
  forM_ announce_flow_deleted flows.

Section agent.
Context `{FlowDigest} `{ShortestPath} `{DictOrder}.

(** ** Cached routes and default rules *)
Definition invalidate_cached_tables : M lda unit :=
  modify (set_ca (λ _, Cache None (Some None) (Some None))).

Definition root_device_default_rules (d : Device)
    : odict Z ofp_flow_stats * odict Z ofp_group_entry := ([], []).

Definition leaf_flows (d : Device) (down up : Port) : list ofp_flow_stats :=
  [ mk_flow_stat 500 0
      [in_port (port_no down); vlan_vid (Z.lor OFPVID_PRESENT 0)]
      [set_field (vlan_vid (Z.lor OFPVID_PRESENT (d_vlan d))); output (port_no up)];
    mk_flow_stat 500 0
      [in_port (port_no down); vlan_vid 0]
      [push_vlan 0x8100; set_field (vlan_vid (Z.lor OFPVID_PRESENT (d_vlan d)));
       output (port_no up)];
    mk_flow_stat 500 0
      [in_port (port_no up); vlan_vid (Z.lor OFPVID_PRESENT (d_vlan d))]
      [set_field (vlan_vid (Z.lor OFPVID_PRESENT 0)); output (port_no down)] ].

Definition leaf_device_default_rules (store : dev_store) (d : Device)
    : result (odict Z ofp_flow_stats * odict Z ofp_group_entry) :=
  match store !! d_id d with
  | None => Err KeyError
  | Some (_, ports) =>
      match filter (λ p, port_type p = PortType.PON_ONU ∨ port_type p = PortType.VENET_ONU) ports with
      | [up] =>
          match filter (λ p, port_type p = PortType.ETHERNET_UNI) ports with
          | [] => Err IndexError
          | down :: _ => Ok (od_of_list fs_id (leaf_flows d down up), [])
          end
      | _ => Err AssertionError
      end
  end.

Definition default_rules_of_node (store : dev_store) (root_device_id : string)
    (rules : result device_rules) (n : node * attrs) : result device_rules :=
  match rules, at_device n.2 with
  | Err e, _ => Err e
  | Ok rules, None => Ok rules
  | Ok rules, Some d =>
      if decide (d_id d = root_device_id)
      then Ok (<[d_id d := root_device_default_rules d]> rules)
      else match leaf_device_default_rules store d with
           | Ok r => Ok (<[d_id d := r]> rules)
           | Err e => Err e
           end
  end.

Definition generate_default_rules (store : dev_store) (root_device_id : string) (g : graph)
    : result device_rules :=
  foldl (default_rules_of_node store root_device_id) (Ok ∅) (iteritems (g_nodes g)).

Definition assure_cached_tables_up_to_date : M lda unit :=
  r ← gets (λ s, c_routes (ca s));
  match r with
  | Some _ => mret tt
  | None =>
      t ← gets tr;
      gr ← lift (compute_routes (t_devices t) (t_ports t));
      _ ← modify (set_ca (set_routes gr.2));
      rules ← lift (generate_default_rules (t_devices t) (t_root_device_id t) gr.1);
      _ ← modify (set_ca (set_default_rules rules));
      match filter (λ p, lp_root_port p = true) (t_ports t) with
      | [p] => modify (set_ca (set_nni (lp_port_no p)))
      | _ => raise AssertionError
      end
  end.

(** Reading an attribute [__init__] did not create. *)
Definition read_nni : M lda (option Z) :=
  o ← gets (λ s, c_nni (ca s)); from_some AttributeError o.

Definition agent_get_route (ingress_port_no egress_port_no : option Z) : M lda (option route) :=
  _ ← assure_cached_tables_up_to_date;
  egress_port_no ← (if is_controller_port egress_port_no then read_nni
                    else mret egress_port_no);
  nni ← (match ingress_port_no with None => read_nni | Some _ => mret None end);
  routes ← gets (λ s, default ∅ (c_routes (ca s)));
  if decide (ingress_port_no = None ∧ egress_port_no = nni) then
    match head (filter (λ kv, Some kv.1.2 = nni) (iteritems routes)) with
    | Some (_, (_, eh)) => mret (Some [None; Some eh])
    | None => raise GenericException
    end
  else
    match egress_port_no with
    | None =>
        match head (filter (λ kv, Some kv.1.1 = ingress_port_no) (iteritems routes)) with
        | Some (_, (ih, _)) => mret (Some [Some ih; None])
        | None => mret None
        end
    | Some e =>
        match ingress_port_no with
        | Some i => mret ((λ r, [Some r.1; Some r.2]) <$> routes !! (i, e))
        | None => mret None
        end
    end.

Definition agent_get_all_default_rules : M lda (option device_rules) :=
  _ ← assure_cached_tables_up_to_date;
  o ← gets (λ s, c_default_rules (ca s));
  from_some AttributeError o.

Definition agent_get_wildcard_input_ports (exclude_port : option Z) : M lda (list Z) :=
  gets (λ s, filter (λ n, Some n ≠ exclude_port) (lp_port_no <$> t_ports (tr s))).

(** ** Flow table updates

    [upd] is [flows_proxy.update('/', Flows(items=...))]. *)
Section with_update.
Context (upd : list ofp_flow_stats → M lda unit).

(** [flow_delete] called with an [ofp_flow_stats] *)
Definition flow_delete_stats (f : ofp_flow_stats) : M lda unit :=
  flows ← gets (λ s, t_flows (tr s));
  match split_flows (λ x, Ok (flow_match x f)) flows with
  | Err e => raise e
  | Ok (keep, []) => mret tt
  | Ok (keep, _) => upd keep
  end.

Definition agent_ops : FlowDecomposerOps lda := {|
  get_all_default_rules := agent_get_all_default_rules;
  get_route := agent_get_route;
  get_wildcard_input_ports := agent_get_wildcard_input_ports;
  op_flow_delete := flow_delete_stats;
|}.

(** The two [root_proxy.update] calls for one device. *)
Definition push_device (item : string * (odict Z ofp_flow_stats * odict Z ofp_group_entry))
    : M lda unit :=
  let '(dev, (fl, gr)) := item in
  devices ← gets (λ s, t_devices (tr s));
  match devices !! dev with
  | None => raise KeyError
  | Some _ =>
      _ ← modify (set_tr (set_dev_flows dev (od_values fl)));
      modify (set_tr (set_dev_groups dev (od_values gr)))
  end.

Definition push_tables (flows : list ofp_flow_stats) (groups : list ofp_group_entry) : M lda unit :=
  dr ← @decompose_rules _ _ lda agent_ops flows groups;
  dr ← from_some AttributeError dr;
  forM_ push_device (iteritems dr).

Definition flow_table_updated (flows : list ofp_flow_stats) : M lda unit :=
  nc ← gets no_flow_changes_required;
  if (nc : bool) then mret tt
  else
    groups ← gets (λ s, t_groups (tr s));
    push_tables flows groups.

Definition pre_process_flows (flows : list ofp_flow_stats) : M lda unit :=
  current ← gets (λ s, t_flows (tr s));
  let current_flow_ids : gset Z := list_to_set (fs_id <$> current) in
  let desired_flow_ids : gset Z := list_to_set (fs_id <$> flows) in
  let ids_to_add := desired_flow_ids ∖ current_flow_ids in
  let ids_to_del := current_flow_ids ∖ desired_flow_ids in
  modify (set_no_changes (bool_decide (size ids_to_add + size ids_to_del = 0)%nat)).

(** [flows_proxy.update('/', flows)] *)
Definition flows_update_body (flows : list ofp_flow_stats) : M lda unit :=
  h ← gets cbs;
  _ ← (if h_pre_flows h then pre_process_flows flows else mret tt);
  current ← gets (λ s, t_flows (tr s));
  if decide (current = flows) then mret tt
  else
    _ ← modify (set_tr (set_flows flows));
    if h_flows h then swallow (flow_table_updated flows) else mret tt.

End with_update.

Fixpoint flows_update (fuel : nat) (flows : list ofp_flow_stats) : M lda unit :=
  match fuel with
  | O => raise OutOfFuel
  | S fuel => flows_update_body (flows_update fuel) flows
  end.

(** One more level than flows: every nested update deletes a flow. *)
Definition flows_proxy_update (flows : list ofp_flow_stats) : M lda unit :=
  flows_update (S (length flows)) flows.

(** [_group_table_updated] and [groups_proxy.update('/', groups)] *)
Definition group_table_updated (groups : list ofp_group_entry) : M lda unit :=
  flows ← gets (λ s, t_flows (tr s));
  push_tables flows_proxy_update flows groups.

Definition groups_proxy_update (groups : list ofp_group_entry) : M lda unit :=
  h ← gets cbs;
  current ← gets (λ s, t_groups (tr s));
  if decide (current = groups) then mret tt
  else
    _ ← modify (set_tr (set_groups groups));
    if h_groups h then swallow (group_table_updated groups) else mret tt.

(** ** Flow handlers *)
Definition keep_counts (old flow : ofp_flow_stats) : ofp_flow_stats :=
  FlowStats (fs_id flow) (fs_table_id flow) (fs_duration_sec flow) (fs_duration_nsec flow)
    (fs_priority flow) (fs_idle_timeout flow) (fs_hard_timeout flow) (fs_flags flow)
    (fs_cookie flow) (fs_packet_count old) (fs_byte_count old) (fs_match flow)
    (fs_instructions flow).

(** The table [flow_add] writes back, [None] when nothing changes. *)
Definition flow_add_table (m : ofp_flow_mod) (flows : list ofp_flow_stats)
    : option (list ofp_flow_stats) :=
  let flow := flow_stats_entry_from_flow_mod_message m in
  if decide (Z.land (fm_flags m) OFPFF_CHECK_OVERLAP ≠ 0) then
    match find_overlapping_flows flows m with
    | _ :: _ => None
    | [] => Some (flows ++ [flow])
    end
  else
    match find_flow flows flow with
    | Some idx =>
        let new := if decide (Z.land (fm_flags m) OFPFF_RESET_COUNTS ≠ 0) then flow
                   else match flows !! idx with
                        | Some old => keep_counts old flow
                        | None => flow
                        end in
        Some (<[idx := new]> flows)
    | None => Some (flows ++ [flow])
    end.

Definition flow_add (m : ofp_flow_mod) : M lda unit :=
  _ ← passert (bool_decide (fm_cookie_mask m = 0));
  flows ← gets (λ s, t_flows (tr s));
  match flow_add_table m flows with
  | Some flows' => flows_proxy_update flows'
  | None => mret tt
  end.

(** [flow_delete] called with an [ofp_flow_mod] *)
Definition flow_delete (m : ofp_flow_mod) : M lda unit :=
  flows ← gets (λ s, t_flows (tr s));
  kd ← lift (split_flows (λ f, flow_matches_spec f m) flows);
  let '(keep, del) := kd in
  _ ← match del with [] => mret tt | _ => flows_proxy_update keep end;
  announce_flows_deleted del.

Definition flow_delete_strict (m : ofp_flow_mod) : M lda unit :=
  flows ← gets (λ s, t_flows (tr s));
  match find_flow flows (flow_stats_entry_from_flow_mod_message m) with
  | Some idx => flows_proxy_update (delete idx flows)
  | None => mret tt
  end.

Definition flow_modify (m : ofp_flow_mod) : M lda unit := raise NotImplementedError.
Definition flow_modify_strict (m : ofp_flow_mod) : M lda unit := raise NotImplementedError.

Definition update_flow_table (m : ofp_flow_mod) : M lda unit :=
  let command := fm_command m in
  if decide (command = OFPFC_ADD) then flow_add m
  else if decide (command = OFPFC_DELETE) then flow_delete m
  else if decide (command = OFPFC_DELETE_STRICT) then flow_delete_strict m
  else if decide (command = OFPFC_MODIFY) then flow_modify m
  else if decide (command = OFPFC_MODIFY_STRICT) then flow_modify_strict m
  else mret tt.

Definition flows_delete_by_group_id (flows : list ofp_flow_stats) (group_id : Z)
    : M lda (bool * list ofp_flow_stats) :=
  kd ← lift (split_flows (λ f, Ok (flow_has_out_group f group_id)) flows);
  let '(keep, del) := kd in
  _ ← announce_flows_deleted del;
  mret (match del with [] => false | _ => true end, keep).

(** ** Group handlers *)
Definition groups_by_id (groups : list ofp_group_entry) : odict Z ofp_group_entry :=
  od_of_list (λ g, gd_group_id (ge_desc g)) groups.

Definition group_add (m : ofp_group_mod) : M lda unit :=
  items ← gets (λ s, t_groups (tr s));
  let groups := groups_by_id items in
  if od_mem (gm_group_id m) groups then mret tt
  else groups_proxy_update (od_values (od_set (gm_group_id m) (group_entry_from_group_mod m) groups)).

Definition group_delete (m : ofp_group_mod) : M lda unit :=
  items ← gets (λ s, t_groups (tr s));
  let groups := groups_by_id items in
  let group_id := gm_group_id m in
  if decide (group_id = OFPG_ALL) then groups_proxy_update []
  else if od_mem group_id groups then
    flows ← gets (λ s, t_flows (tr s));
    cf ← flows_delete_by_group_id flows group_id;
    _ ← groups_proxy_update (od_values (od_del group_id groups));
    if (cf : bool * _).1 then flows_proxy_update cf.2 else mret tt
  else mret tt.

Definition group_modify (m : ofp_group_mod) : M lda unit :=
  items ← gets (λ s, t_groups (tr s));
  let groups := groups_by_id items in
  if od_mem (gm_group_id m) groups
  then groups_proxy_update (od_values (od_set (gm_group_id m) (group_entry_from_group_mod m) groups))
  else mret tt.

Definition update_group_table (m : ofp_group_mod) : M lda unit :=
  let command := gm_command m in
  if decide (command = OFPGC_DELETE) then group_delete m
  else if decide (command = OFPGC_ADD) then group_add m
  else if decide (command = OFPGC_MODIFY) then group_modify m
  else mret tt.

End agent.

(** ** Ports *)

(** [_port_list_updated] *)
Definition port_list_updated (p : LogicalPort) : M lda unit := invalidate_cached_tables.

(** The proxy and callbacks of one port, shared by the next two handlers; the
    proxy of a node is one object, so registering again adds to its lists. *)
Definition watch_port (p : LogicalPort) : M lda unit :=
  _ ← modify (set_port_proxy (λ x, <[lp_id p := S (default 0%nat (x !! lp_id p))]> x));
  modify (set_changed (insert (lp_id p) true)).

Definition port_added (p : LogicalPort) : M lda unit :=
  _ ← port_list_updated p;
  _ ← watch_port p;
  emit (PortChange OFPPR_ADD (lp_ofp_port p)).

Definition reconcile_port (p : LogicalPort) : M lda unit :=
  _ ← port_list_updated p;
  watch_port p.

Definition port_removed (p : LogicalPort) : M lda unit :=
  _ ← port_list_updated p;
  proxies ← gets port_proxy;
  _ ← from_some KeyError (proxies !! lp_id p);
  _ ← modify (set_port_proxy (delete (lp_id p)));
  changed ← gets port_status_has_changed;
  _ ← from_some KeyError (changed !! lp_id p);
  _ ← modify (set_changed (delete (lp_id p)));
  emit (PortChange OFPPR_DELETE (lp_ofp_port p)).

(** [find_rev_by_key] on the ports of the tree *)
Definition find_port (id : string) (ps : list LogicalPort) : option (nat * LogicalPort) :=
  list_find (λ p, lp_id p = id) ps.

Definition pre_port_changed (p : LogicalPort) : M lda unit :=
  proxies ← gets port_proxy;
  _ ← from_some KeyError (proxies !! lp_id p);
  ps ← gets (λ s, t_ports (tr s));
  old ← from_some KeyError (snd <$> find_port (lp_id p) ps);
  modify (set_changed (insert (lp_id p) (bool_decide (lp_ofp_port old ≠ lp_ofp_port p)))).

Definition port_changed (p : LogicalPort) : M lda unit :=
  changed ← gets port_status_has_changed;
  b ← from_some KeyError (changed !! lp_id p);
  if (b : bool) then emit (PortChange OFPPR_MODIFY (lp_ofp_port p)) else mret tt.

(** [port_proxy[id].update('/', p)]: the two callbacks are registered on the
    node of a port that has a proxy.  A second PRE_UPDATE callback is called
    with what the first returned, [None], and fails on [port.id]. *)
Definition pre_port_callbacks (n : nat) (p : LogicalPort) : M lda unit :=
  match n with
  | O => mret tt
  | S O => pre_port_changed p
  | _ => _ ← pre_port_changed p; raise AttributeError
  end.

Definition port_proxy_update (p : LogicalPort) : M lda unit :=
  ps ← gets (λ s, t_ports (tr s));
  ip ← from_some KeyError (find_port (lp_id p) ps);
  let '(i, old) := ip in
  proxies ← gets port_proxy;
  let n := default 0%nat (proxies !! lp_id p) in
  _ ← pre_port_callbacks n p;
  if decide (old = p) then mret tt
  else
    _ ← modify (set_tr (set_ports (<[i := p]> ps)));
    match n with O => mret tt | _ => swallow (port_changed p) end.

Definition set_lp_config (c : Z) (p : LogicalPort) : LogicalPort :=
  MkLogicalPort (lp_id p) (set_config c (lp_ofp_port p)) (lp_device_id p)
    (lp_device_port_no p) (lp_root_port p).

(** [port_proxy[port_id].get('/')] *)
Definition get_watched_port (port_id : string) : M lda LogicalPort :=
  proxies ← gets port_proxy;
  _ ← from_some KeyError (proxies !! port_id);
  ps ← gets (λ s, t_ports (tr s));
  from_some KeyError (snd <$> find_port port_id ps).

Definition port_enable (port_id : string) : M lda unit :=
  p ← get_watched_port port_id;
  port_proxy_update
    (set_lp_config (Z.land (op_config (lp_ofp_port p)) (Z.lnot OFPPC_PORT_DOWN)) p).

Definition port_disable (port_id : string) : M lda unit :=
  p ← get_watched_port port_id;
  port_proxy_update
    (set_lp_config (Z.lor (Z.land (op_config (lp_ofp_port p)) (Z.lnot OFPPC_PORT_DOWN))
                      OFPPC_PORT_DOWN) p).

(** Adding a port to, and removing one from, the logical device's node. *)
Definition ports_add (p : LogicalPort) : M lda unit :=
  h ← gets cbs;
  ps ← gets (λ s, t_ports (tr s));
  match find_port (lp_id p) ps with
  | Some _ => raise ValueError
  | None =>
      _ ← modify (set_tr (set_ports (ps ++ [p])));
      if h_port_added h then swallow (port_added p) else mret tt
  end.

Definition ports_remove (port_id : string) : M lda unit :=
  h ← gets cbs;
  ps ← gets (λ s, t_ports (tr s));
  ip ← from_some KeyError (find_port port_id ps);
  let '(i, p) := ip in
  _ ← modify (set_tr (set_ports (delete i ps)));
  if h_port_removed h then swallow (port_removed p) else mret tt.

(** ** Packets *)
Definition packet_out (data : list Byte.byte) : M lda unit := emit (PacketOut data).

Definition packet_in (m : ofp_packet_in) : M lda unit := emit (PacketIn m).

Definition handle_packet_in_event (msg : Z * list Byte.byte) : M lda unit :=
  let '(logical_port_no, packet) := msg in
  packet_in (PacketInMsg
    (Match OFPMT_OXM [Oxm OFPXMC_OPENFLOW_BASIC (OxmOfb (in_port logical_port_no))]) packet).

(** ** Starting and stopping *)
Definition start (reconcile : bool) : M lda unit :=
  if reconcile then
    ps ← gets (λ s, t_ports (tr s));
    forM_ reconcile_port ps
  else mret tt.

(** [_pre_process_flows] stays registered. *)
Definition stop : M lda unit :=
  modify (λ s, set_cbs (Hooks (h_pre_flows (cbs s)) false false false false false) s).
