(* ===== verification/LogicalDeviceProofs.v ===== *)
(** * Correctness of the logical device agent

    The invariant of the agent's state, the proof that its methods meet what
    the flow decomposer asks of them ([FlowDecomposerSpec]), and the theorems
    on the flow table, the group table, the device tables and the ports. *)
From S2P Require Import Prelude OpenFlow Devices Sample FlowDecomposer DeviceGraph LogicalDeviceAgent.
From stdpp Require Import base gmap list strings.
From Stdlib Require Import ZArith Lia.

Local Open Scope Z_scope.

(** ** Matching *)
Lemma flow_match_key f1 f2 : flow_match f1 f2 = true ↔ key_of f1 = key_of f2.
Proof.
  unfold flow_match, key_of. rewrite !andb_true_iff, !bool_decide_eq_true. split.
  - by intros [[[[-> ->] ->] ->] ->].
  - by intros [= -> -> -> -> ->].
Qed.

Lemma find_flow_Some flows f i : find_flow flows f = Some i →
  ∃ old, flows !! i = Some old ∧ key_of old = key_of f.
Proof.
  revert i. induction flows as [|g flows IH]; intros i; simpl; [done|].
  destruct (flow_match g f) eqn:Hm.
  - intros [= <-]. exists g. split; [done|]. by apply flow_match_key.
  - intros (j & Hj & ->)%fmap_Some. by apply IH.
Qed.

Lemma find_flow_None flows f : find_flow flows f = None → key_of f ∉ key_of <$> flows.
Proof.
  induction flows as [|g flows IH]; csimpl; [set_solver|].
  destruct (flow_match g f) eqn:Hm; [done|]. intros Hn%fmap_None.
  apply IH in Hn. apply not_elem_of_cons. split; [|done].
  intros Hk. symmetry in Hk. apply flow_match_key in Hk. congruence.
Qed.

Lemma split_flows_spec P flows keep del : split_flows P flows = Ok (keep, del) →
  keep = filter (λ f, P f = Ok false) flows ∧ del = filter (λ f, P f = Ok true) flows ∧
  ∀ f, f ∈ flows → is_Some (match P f with Ok b => Some b | Err _ => None end).
Proof.
  revert keep del. induction flows as [|f flows IH]; intros keep del; csimpl.
  - intros [= <- <-]. split_and!; [done..|]. intros f Hf. by apply elem_of_nil in Hf.
  - destruct (P f) as [b|e] eqn:Hp; [|done].
    destruct (split_flows P flows) as [[k d]|e] eqn:Hs; [|done].
    destruct (IH k d eq_refl) as (-> & -> & Hall). rewrite !filter_cons, !Hp.
    assert (∀ f', f' ∈ f :: flows → is_Some (match P f' with Ok b => Some b | Err _ => None end)) as Hf.
    { intros f' [->|Hf']%elem_of_cons; [by rewrite Hp|by apply Hall]. }
    destruct b; intros [= <- <-].
    + by rewrite decide_False, decide_True by done.
    + by rewrite decide_True, decide_False by done.
Qed.

Lemma elem_of_sublist {A} (l1 l2 : list A) x : l1 `sublist_of` l2 → x ∈ l1 → x ∈ l2.
Proof. induction 1; set_solver. Qed.

Lemma split_flows_pure (P : ofp_flow_stats → bool) flows :
  split_flows (λ f, Ok (P f)) flows = Ok (filter (λ f, P f = false) flows, filter (λ f, P f = true) flows).
Proof.
  induction flows as [|f flows IH]; [done|]. simpl. rewrite IH, !filter_cons.
  destruct (P f); [by rewrite decide_False, decide_True by done|by rewrite decide_True, decide_False by done].
Qed.

Lemma filter_shrinks {A} (P : A → Prop) `{∀ x, Decision (P x)} l x :
  x ∈ l → ¬ P x → (length (filter P l) < length l)%nat.
Proof.
  induction l as [|y l IH]; [by intros ?%elem_of_nil|].
  intros [<-|Hx]%elem_of_cons Hn; rewrite filter_cons.
  - rewrite decide_False by done. simpl. pose proof (length_filter P l). lia.
  - specialize (IH Hx Hn). case_decide; simpl; lia.
Qed.

Lemma announce_cases flows s :
  announce_flows_deleted flows s = (Ok tt, s) ∨
  (announce_flows_deleted flows s = (Err NotImplementedError, s) ∧
   ∃ f, f ∈ flows ∧ Z.land (fs_flags f) OFPFF_SEND_FLOW_REM ≠ 0).
Proof.
  unfold announce_flows_deleted. induction flows as [|f flows IH]; simpl; [by left|].
  unfold mbind, M_bind. destruct (decide (Z.land (fs_flags f) OFPFF_SEND_FLOW_REM ≠ 0)) as [Hf|Hf].
  - right. assert (announce_flow_deleted f s = (Err NotImplementedError, s)) as ->
      by (unfold announce_flow_deleted; by rewrite decide_True).
    split; [done|]. exists f. set_solver.
  - assert (announce_flow_deleted f s = (Ok tt, s)) as ->
      by (unfold announce_flow_deleted; by rewrite decide_False).
    destruct IH as [->|(-> & f' & Hin & Hf')]; [by left|]. right. split; [done|]. exists f'. set_solver.
Qed.

(** ** The invariant of the agent *)

(** A flow of device [dev] goes between two different ports of it. *)
Definition flow_ok (store : dev_store) (dev : string) (f : ofp_flow_stats) : Prop :=
  ∃ h ps, store !! dev = Some (device h, ps) ∧ ingress_port h ∈ ps ∧ egress_port h ∈ ps ∧
    ingress_port h ≠ egress_port h ∧ crosses h f.

Definition good_hop (store : dev_store) (h : RouteHop) : Prop :=
  hop_across store (d_id (device h)) h.

Definition rules_table_ok (store : dev_store) (dr : device_rules) : Prop :=
  ∀ dev fl gr i f, dr !! dev = Some (fl, gr) → (i, f) ∈ fl → flow_ok store dev f.

Record agent_ok (store : dev_store) (s : lda) : Prop := {
  ao_devices : t_devices (tr s) = store;
  ao_routes : ∀ r k ih eh, c_routes (ca s) = Some r → r !! k = Some (ih, eh) →
    good_hop store ih ∧ good_hop store eh;
  ao_defaults : ∀ dr, c_default_rules (ca s) = Some (Some dr) → rules_table_ok store dr;
  ao_tables : ∀ dev fl f, t_dev_flows (tr s) !! dev = Some fl → f ∈ fl → flow_ok store dev f;
}.

Lemma init_ok t :
  (∀ dev fl f, t_dev_flows t !! dev = Some fl → f ∈ fl → flow_ok (t_devices t) dev f) →
  agent_ok (t_devices t) (init t).
Proof. intros Ht. by split. Qed.

(** The ports of a device are kept by their numbers. *)
Definition ports_numbered (store : dev_store) : Prop :=
  ∀ id d ps, store !! id = Some (d, ps) → NoDup (port_no <$> ps).

(** Every flow of a device table matches on one port of the device, by its
    first field only, and ends with an output on a port of another number. *)
Definition tables_cross (store : dev_store) (s : lda) : Prop :=
  ∀ dev fl f, t_dev_flows (tr s) !! dev = Some fl → f ∈ fl →
    ∃ d ps p q fields acts, store !! dev = Some (d, ps) ∧ p ∈ ps ∧ q ∈ ps ∧ port_no p ≠ port_no q ∧
      get_ofb_fields f = Ok (in_port (port_no p) :: fields) ∧
      Forall (λ x, of_type x ≠ IN_PORT) fields ∧
      get_actions f = Some (acts ++ [output (port_no q)]).

Lemma numbers_distinct (ps : list Port) p q : NoDup (port_no <$> ps) → p ∈ ps → q ∈ ps →
  port_no p = port_no q → p = q.
Proof.
  intros Hnd [i Hi]%list_elem_of_lookup_1 [j Hj]%list_elem_of_lookup_1 Heq.
  assert (i = j) as <-; [|congruence].
  apply (NoDup_lookup _ _ _ (port_no p) Hnd); rewrite list_lookup_fmap, ?Hi, ?Hj; simpl; congruence.
Qed.

Lemma agent_ok_cross store : ports_numbered store → ∀ s, agent_ok store s → tables_cross store s.
Proof.
  intros Hports s Hs dev fl f Hl Hf.
  destruct (ao_tables _ _ Hs dev fl f Hl Hf) as (h & ps & Hd & Hi & He & Hne & pin & pout & fields & acts & Hpp & H1 & H2 & H3).
  assert (port_no (ingress_port h) ≠ port_no (egress_port h)) as Hno.
  { intros Heq. apply Hne. by apply (numbers_distinct ps); [eapply Hports| | |]. }
  destruct Hpp as [[-> ->]|[-> ->]].
  - exists (device h), ps, (ingress_port h), (egress_port h), fields, acts. by split_and!.
  - exists (device h), ps, (egress_port h), (ingress_port h), fields, acts. by split_and!.
Qed.

Section invariant.
Context `{HFD : FlowDigest} `{HSP : ShortestPath} `{HDO : DictOrder}.
Context {store : dev_store} (Hwf : wf_store store).

Lemma leaf_flow_ok d ps down up f :
  store !! d_id d = Some (d, ps) → down ∈ ps → up ∈ ps → down ≠ up → f ∈ leaf_flows d down up →
  flow_ok store (d_id d) f.
Proof.
  intros Hd Hdown Hup Hne Hf. exists (MkRouteHop d down up), ps. do 4 (split; [done|]).
  unfold leaf_flows in Hf. rewrite !elem_of_cons in Hf.
  destruct Hf as [->|[->|[->|[]%elem_of_nil]]].
  - eexists _, _, _, [_]. split; [by left|]. split_and!; [apply mk_flow_stat_fields|by repeat constructor|done].
  - eexists _, _, _, [_; _]. split; [by left|]. split_and!; [apply mk_flow_stat_fields|by repeat constructor|done].
  - eexists _, _, _, [_]. split; [by right|]. split_and!; [apply mk_flow_stat_fields|by repeat constructor|done].
Qed.

Lemma od_of_list_values {A} (key : A → Z) l i x : (i, x) ∈ od_of_list key l → x ∈ l.
Proof.
  intros Hin. apply od_get_in in Hin; [|apply od_of_list_NoDup].
  by apply od_get_of_list_Some in Hin as [? _].
Qed.

Lemma leaf_rules_spec d ps : store !! d_id d = Some (d, ps) →
  match leaf_device_default_rules store d with
  | Ok (fl, gr) => ∀ i f, (i, f) ∈ fl → flow_ok store (d_id d) f
  | Err e => e ≠ OutOfFuel
  end.
Proof.
  intros Hd. unfold leaf_device_default_rules. rewrite Hd.
  destruct (filter _ ps) as [|up [|]] eqn:Hup; [done| |done].
  destruct (filter (λ p, port_type p = PortType.ETHERNET_UNI) ps) as [|down l] eqn:Hdown; [done|].
  intros i f Hf%od_of_list_values.
  assert (down ∈ filter (λ p, port_type p = PortType.ETHERNET_UNI) ps) as [Hd1 Hd2]%list_elem_of_filter
    by (rewrite Hdown; set_solver).
  assert (up ∈ filter (λ p, port_type p = PortType.PON_ONU ∨ port_type p = PortType.VENET_ONU) ps)
    as [Hu1 Hu2]%list_elem_of_filter by (rewrite Hup; set_solver).
  apply (leaf_flow_ok d ps down up); [done..| |done]. intros ->. rewrite Hd1 in Hu1. by destruct Hu1.
Qed.

Lemma default_rules_spec root g : graph_ok store g →
  match generate_default_rules store root g with
  | Ok rules => rules_table_ok store rules
  | Err e => e ≠ OutOfFuel
  end.
Proof.
  intros Hg. unfold generate_default_rules.
  assert (∀ n a, (n, a) ∈ iteritems (g_nodes g) → attrs_ok store n a) as Hn.
  { intros n a Hna%elem_of_iteritems. by eapply go_nodes. }
  set (ok := λ r : result device_rules,
    match r with Ok rules => rules_table_ok store rules | Err e => e ≠ OutOfFuel end).
  change (ok (foldl (default_rules_of_node store root) (Ok ∅) (iteritems (g_nodes g)))).
  assert (ok (Ok ∅)) as Hok0 by (intros dev fl gr i f Hl; by rewrite lookup_empty in Hl).
  revert Hok0. generalize (@Ok device_rules ∅). induction (iteritems (g_nodes g)) as [|[n a] l IH];
    intros r Hr; simpl; [done|]. apply IH; [set_solver|].
  destruct r as [rules|e]; [|done]. unfold default_rules_of_node.
  destruct (at_device (n, a).2) as [d|] eqn:Hd; [|done]. simpl in Hd.
  specialize (Hn n a ltac:(set_solver)). destruct n as [id|id no]; simpl in Hn; [|by rewrite Hd in Hn; destruct Hn].
  destruct Hn as [_ Hn]. destruct (Hn d Hd) as [ps Hs]. pose proof (Hwf _ _ _ Hs) as <-.
  case_decide.
  - intros dev fl gr i f. rewrite lookup_insert. case_decide; [|apply Hr].
    intros [= <- <-] Hf. by apply elem_of_nil in Hf.
  - pose proof (leaf_rules_spec d ps Hs) as Hl.
    destruct (leaf_device_default_rules store d) as [[fl gr]|e]; [|done].
    intros dev fl' gr' i f. rewrite lookup_insert. case_decide as Heq; [|apply Hr].
    intros [= <- <-] Hf. subst dev. by eapply Hl.
Qed.

(** A predicate that depends on the state but not on the cached tables. *)
Definition cache_free (F : lda → Prop) : Prop := ∀ f s, F s → F (set_ca f s).

Lemma assure_spec F : cache_free F →
  triple (λ s, agent_ok store s ∧ F s) assure_cached_tables_up_to_date
    (λ _ s, agent_ok store s ∧ F s) (λ e s, e ≠ OutOfFuel ∧ agent_ok store s ∧ F s).
Proof.
  intros HF s [Hs HFs]. pose proof Hs as [Hd Hr Hdef Ht].
  unfold assure_cached_tables_up_to_date, mbind, M_bind, gets.
  destruct (c_routes (ca s)) as [r|] eqn:Hc; [done|].
  unfold lift. rewrite Hd. pose proof (compute_routes_spec store (t_ports (tr s)) Hwf) as Hcr.
  destruct (compute_routes store (t_ports (tr s))) as [[g routes]|e].
  2:{ done. }
  destruct Hcr as [Hg Hroutes].
  assert (∀ k ih eh, routes !! k = Some (ih, eh) → good_hop store ih ∧ good_hop store eh) as Hgood.
  { intros [n1 n2] ih eh (lp1 & lp2 & _ & _ & _ & _ & _ & H1 & H2 & _)%Hroutes. simpl in *.
    unfold good_hop. split; [destruct H1 as (ps & Hps & ?)|destruct H2 as (ps & Hps & ?)];
      rewrite (Hwf _ _ _ Hps); by exists ps. }
  simpl. pose proof (default_rules_spec (t_root_device_id (tr s)) g Hg) as Hdr.
  destruct (generate_default_rules store _ g) as [rules|e].
  - assert (∀ c, agent_ok store (set_ca (λ _, Cache (Some routes) (Some (Some rules)) c) s)) as Hok.
    { intros c. split; simpl; [done|naive_solver|naive_solver|done]. }
    destruct (filter _ _) as [|p [|]]; simpl.
    + split; [done|]. split; [apply (Hok (c_nni (ca s)))|by do 2 apply HF].
    + split; [apply (Hok (Some (Some (lp_port_no p))))|by do 3 apply HF].
    + split; [done|]. split; [apply (Hok (c_nni (ca s)))|by do 2 apply HF].
  - split; [done|]. split; [|by apply HF]. split; simpl; [done|naive_solver|done..].
Qed.

Lemma get_route_spec F i o : cache_free F →
  triple (λ s, agent_ok store s ∧ F s) (agent_get_route i o)
    (λ r s, (agent_ok store s ∧ F s) ∧ ∀ hs h, r = Some hs → Some h ∈ hs → good_hop store h)
    (λ e s, e ≠ OutOfFuel ∧ agent_ok store s ∧ F s).
Proof.
  intros HF. unfold agent_get_route.
  eapply triple_bind; [by apply assure_spec|]. intros [].
  assert (∀ s, agent_ok store s ∧ F s → match read_nni s with
            | (Ok _, s') => s' = s | (Err e, s') => s' = s ∧ e ≠ OutOfFuel end) as Hn.
  { intros s _. unfold read_nni, mbind, M_bind, gets. by destruct (c_nni (ca s)). }
  apply (triple_bind _ _ _ (λ _ s, agent_ok store s ∧ F s)).
  { intros s Hs. destruct (is_controller_port o); [|done]. specialize (Hn s Hs).
    destruct (read_nni s) as [[]]; [by subst|]. destruct Hn as [-> ?]. done. }
  intros e. apply (triple_bind _ _ _ (λ _ s, agent_ok store s ∧ F s)).
  { intros s Hs. destruct i; [done|]. specialize (Hn s Hs).
    destruct (read_nni s) as [[]]; [by subst|]. destruct Hn as [-> ?]. done. }
  intros nni s [Hs HFs]. unfold mbind at 1, M_bind at 1, gets.
  assert (∀ k ih eh, default ∅ (c_routes (ca s)) !! k = Some (ih, eh) → good_hop store ih ∧ good_hop store eh) as Hg.
  { intros k ih eh. destruct (c_routes (ca s)) as [r|] eqn:Hr; simpl; [by eapply ao_routes|].
    by rewrite lookup_empty. }
  case_decide.
  - destruct (head _) as [[k [ih eh]]|] eqn:Hh; [|done]. split; [done|].
    destruct (hd_filter_Some _ _ _ Hh) as [Hl _].
    apply elem_of_iteritems, Hg in Hl as [_ He]. intros hs h [= <-] Hin. set_solver.
  - destruct e as [e|].
    + destruct i as [i|]; [|done]. split; [done|]. intros hs h Hr Hin.
      apply fmap_Some in Hr as ([ih eh] & Hl & ->). apply Hg in Hl. set_solver.
    + destruct (head _) as [[k [ih eh]]|] eqn:Hh; [|done]. split; [done|].
      destruct (hd_filter_Some _ _ _ Hh) as [Hl _].
      apply elem_of_iteritems, Hg in Hl as [Hi _]. intros hs h [= <-] Hin. set_solver.
Qed.

(** ** Nested updates

    [upd] may be any update that keeps the invariant and leaves a part of the
    flows it is given, for every list shorter than [n]. *)
Definition update_spec (n : nat) (upd : list ofp_flow_stats → M lda unit) : Prop :=
  ∀ fl, (length fl < n)%nat →
    triple (agent_ok store) (upd fl) (λ _ s, agent_ok store s ∧ t_flows (tr s) `sublist_of` fl)
      (λ _ _, False).

(** The invariant while the table [fl] is decomposed. *)
Definition within (fl : list ofp_flow_stats) (s : lda) : Prop :=
  agent_ok store s ∧ t_flows (tr s) `sublist_of` fl.

Lemma within_cache_free fl : cache_free (λ s, t_flows (tr s) `sublist_of` fl).
Proof. by intros f s. Qed.

Lemma delete_stats_spec upd fl f : update_spec (length fl) upd →
  triple (within fl) (flow_delete_stats upd f) (λ _, within fl) (λ e s, e ≠ OutOfFuel ∧ within fl s).
Proof.
  intros Hupd s [Hs Hfl]. unfold flow_delete_stats, mbind, M_bind, gets. rewrite split_flows_pure.
  destruct (filter (λ x, flow_match x f = true) _) as [|x l] eqn:Hd; [by split|].
  assert (x ∈ t_flows (tr s) ∧ flow_match x f = true) as [Hx Hm].
  { assert (x ∈ filter (λ x, flow_match x f = true) (t_flows (tr s))) as Hx by (rewrite Hd; set_solver).
    apply list_elem_of_filter in Hx. tauto. }
  set (keep := filter (λ x, flow_match x f = false) (t_flows (tr s))).
  assert (length keep < length fl)%nat as Hlen.
  { apply sublist_length in Hfl. eapply Nat.lt_le_trans; [|exact Hfl].
    apply (filter_shrinks _ _ x); [done|congruence]. }
  specialize (Hupd keep Hlen s Hs). destruct (upd keep s) as [[[]|e] s']; [|done].
  destruct Hupd as [Hs' Hsub]. split; [done|]. etrans; [done|]. etrans; [|done]. apply sublist_filter.
Qed.

#[local] Instance agent_spec upd fl : update_spec (length fl) upd →
  FlowDecomposerSpec (agent_ops upd) (within fl) (λ e s, e ≠ OutOfFuel ∧ within fl s)
    (good_hop store) (λ _, True).
Proof.
  intros Hupd. split; simpl.
  - auto.
  - intros i o. eapply triple_conseq; [apply (get_route_spec _ i o (within_cache_free fl))|done..].
  - intros x s Hs. unfold agent_get_wildcard_input_ports, gets. split; [done|]. by apply Forall_true.
  - intros f. by apply delete_stats_spec.
  - unfold agent_get_all_default_rules.
    eapply triple_bind; [apply (assure_spec _ (within_cache_free fl))|].
    intros [] s Hs. unfold mbind, M_bind, gets. by destruct (c_default_rules (ca s)).
Qed.

Definition table_ok (dr : option device_rules) : Prop :=
  match dr with Some dr => rules_table_ok store dr | None => True end.

Lemma merge_device_ok fl (rules : flow_rules) flow dr item :
  item ∈ iteritems rules → rules_ok (good_hop store) (λ _, True) (λ _, True) flow rules → table_ok dr →
  triple (within fl) (merge_device (St := lda) dr item) (λ dr s, within fl s ∧ table_ok dr)
    (λ e s, e ≠ OutOfFuel ∧ within fl s).
Proof.
  intros Hin Hrules Hdr s Hs. destruct item as [dev [fs gr]]. apply elem_of_iteritems in Hin.
  destruct (Hrules dev fs gr Hin) as [-> Hf]. unfold merge_device.
  destruct dr as [dr|]; unfold mbind, M_bind; simpl; [|done].
  destruct (default ([], []) (dr !! dev)) as [fl_lst gr_lst] eqn:Hdef. split; [done|].
  intros dev' fl' gr' i f. rewrite lookup_insert. case_decide as Heq; [|apply Hdr]. subst dev'.
  intros [= <- <-] [Hold|[Hnew _]]%add_flows_elem.
  - destruct (dr !! dev) as [[fl0 gr0]|] eqn:Hl; simpl in Hdef; [|injection Hdef as <- <-; by apply elem_of_nil in Hold].
    injection Hdef as <- <-. by eapply Hdr.
  - destruct (Hf f Hnew) as (h & (ps & Hs' & Hi & He & Hne) & <- & Hder). exists h, ps.
    split_and!; [done..|congruence|by eapply derived_crosses].
Qed.

Lemma decompose_rules_ok upd fl flows groups : update_spec (length fl) upd →
  triple (within fl) (@decompose_rules _ _ lda (agent_ops upd) flows groups)
    (λ dr s, within fl s ∧ table_ok dr) (λ e s, e ≠ OutOfFuel ∧ within fl s).
Proof.
  intros Hupd. unfold decompose_rules.
  apply (triple_bind _ _ _ (λ dr s, within fl s ∧ table_ok dr)).
  { simpl. unfold agent_get_all_default_rules.
    eapply triple_bind; [apply (assure_spec _ (within_cache_free fl))|].
    intros [] s Hs. unfold mbind, M_bind, gets.
    destruct (c_default_rules (ca s)) as [[dr|]|] eqn:Hd; simpl; [|done..].
    split; [done|]. by eapply ao_defaults; [apply Hs|]. }
  intros dr. apply (triple_foldM (λ dr s, within fl s ∧ table_ok dr)). clear dr.
  intros dr flow _ s [Hs Hdr]. unfold decompose_one.
  pose proof (agent_spec upd fl Hupd) as Hspec.
  pose proof (decompose_flow_derived (ops := agent_ops upd) (gact := λ _, True) flow (group_map_of groups)
    (λ _ _ _ _ _, Forall_true _ _ (λ _, I)) (λ _ _, I) s Hs) as Hd.
  unfold mbind, M_bind. destruct (decompose_flow flow (group_map_of groups) s) as [[rules|e] s']; [|done].
  destruct Hd as [Hs' Hrules].
  apply (triple_foldM (λ dr s, within fl s ∧ table_ok dr)); [|done].
  intros dr' item Hin s'' [Hs'' Hdr']. by eapply merge_device_ok.
Qed.

Lemma push_device_ok fl (dr : device_rules) item : rules_table_ok store dr → item ∈ iteritems dr →
  triple (within fl) (push_device item) (λ _, within fl) (λ e s, e ≠ OutOfFuel ∧ within fl s).
Proof.
  intros Hdr Hin s Hs. pose proof Hs as [[Hd Hr Hdef Ht] Hsub].
  destruct item as [dev [fs gr]]. apply elem_of_iteritems in Hin.
  unfold push_device, mbind, M_bind, gets. destruct (t_devices (tr s) !! dev) eqn:Hdev; [|done].
  simpl. split; [|done]. split; simpl; [done..|].
  intros dev' fl' f. rewrite lookup_insert. case_decide as Heq; [|apply Ht]. subst dev'.
  intros [= <-] ([i f'] & -> & Hf)%list_elem_of_fmap. by eapply Hdr.
Qed.

Lemma push_tables_ok upd fl flows groups : update_spec (length fl) upd →
  triple (within fl) (push_tables upd flows groups) (λ _, within fl) (λ e s, e ≠ OutOfFuel ∧ within fl s).
Proof.
  intros Hupd. unfold push_tables. eapply triple_bind; [by apply decompose_rules_ok|].
  intros dr s [Hs Hdr]. destruct dr as [dr|]; [|done]. revert s Hs.
  apply triple_forM. intros item Hin. by eapply push_device_ok.
Qed.

Lemma pre_process_spec flows s :
  ∃ b, pre_process_flows flows s = (Ok tt, set_no_changes b s).
Proof. unfold pre_process_flows, mbind, M_bind, gets, modify. by eexists. Qed.

Lemma agent_ok_frame s s' : agent_ok store s → t_devices (tr s') = t_devices (tr s) →
  t_dev_flows (tr s') = t_dev_flows (tr s) → ca s' = ca s → agent_ok store s'.
Proof. intros [H1 H2 H3 H4] Hd Ht Hc. by split; rewrite ?Hd, ?Ht, ?Hc. Qed.

(** Fuel: one level per flow of the table. *)
Lemma flows_update_spec fuel : update_spec fuel (flows_update fuel).
Proof.
  induction fuel as [|fuel IH]; intros fl Hlen; [lia|]. intros s Hs. simpl.
  unfold flows_update_body. rewrite (bind_ok _ _ s (cbs s) s) by done.
  assert (∃ s1, (if h_pre_flows (cbs s) then pre_process_flows fl else mret tt) s = (Ok tt, s1) ∧
            agent_ok store s1 ∧ tr s1 = tr s) as (s1 & Hpre & Hs1 & Htr).
  { destruct (h_pre_flows (cbs s)); [|by exists s]. destruct (pre_process_spec fl s) as [b ->].
    eexists. split; [done|]. split; [|done]. by apply (agent_ok_frame s). }
  rewrite (bind_ok _ _ _ _ _ Hpre), (bind_ok _ _ s1 (t_flows (tr s1)) s1) by done.
  case_decide as Heq; [by split; [|rewrite Heq]|].
  rewrite (bind_ok _ _ s1 tt (set_tr (set_flows fl) s1)) by done.
  assert (within fl (set_tr (set_flows fl) s1)) as Hw by (split; [by apply (agent_ok_frame s1)|done]).
  destruct (h_flows (cbs s)); [|done].
  assert (update_spec (length fl) (flows_update fuel)) as Hn by (intros fl' Hl; apply IH; lia).
  revert Hw. generalize (set_tr (set_flows fl) s1) as s2. apply triple_swallow.
  unfold flow_table_updated. eapply triple_bind; [by apply (triple_gets _ _ (λ _, within fl))|].
  intros []; [by apply triple_ret|].
  eapply triple_bind; [by apply (triple_gets _ _ (λ _, within fl))|]. intros gs. by apply push_tables_ok.
Qed.

Lemma proxy_update_spec n : update_spec n flows_proxy_update.
Proof. intros fl _. apply (flows_update_spec (S (length fl)) fl). lia. Qed.

Lemma proxy_update_ok fl :
  triple (agent_ok store) (flows_proxy_update fl)
    (λ _ s, agent_ok store s ∧ t_flows (tr s) `sublist_of` fl) (λ _ _, False).
Proof. by apply (proxy_update_spec (S (length fl)) fl); lia. Qed.

Lemma groups_update_spec groups fl :
  triple (within fl) (groups_proxy_update groups) (λ _, within fl) (λ _ _, False).
Proof.
  intros s [Hs Hfl]. unfold groups_proxy_update. rewrite (bind_ok _ _ s (cbs s) s) by done.
  rewrite (bind_ok _ _ s (t_groups (tr s)) s) by done. case_decide; [done|].
  rewrite (bind_ok _ _ s tt (set_tr (set_groups groups) s)) by done.
  assert (within fl (set_tr (set_groups groups) s)) as Hw by (split; [by apply (agent_ok_frame s)|done]).
  destruct (h_groups (cbs s)); [|done]. revert Hw. generalize (set_tr (set_groups groups) s).
  apply triple_swallow. unfold group_table_updated.
  eapply triple_bind; [by apply (triple_gets _ _ (λ _, within fl))|].
  intros flows. apply push_tables_ok, proxy_update_spec.
Qed.

(** A command on the tables ends without running out of fuel, in a state that
    satisfies the invariant, whether it returns or raises. *)
Abbreviation keeps_ok m :=
  (triple (agent_ok store) m (λ _, agent_ok store) (λ e s, e ≠ OutOfFuel ∧ agent_ok store s)).

Lemma proxy_update_keeps fl : keeps_ok (flows_proxy_update fl).
Proof. eapply triple_conseq; [apply proxy_update_ok|naive_solver..]. Qed.

Lemma groups_update_keeps groups : keeps_ok (groups_proxy_update groups).
Proof.
  intros s Hs. pose proof (groups_update_spec groups (t_flows (tr s)) s) as Hg.
  destruct (groups_proxy_update groups s) as [[[]|e] s']; [by apply Hg|by destruct Hg].
Qed.

Lemma announce_spec (P : lda → Prop) flows :
  triple P (announce_flows_deleted flows) (λ _, P) (λ e s, e = NotImplementedError ∧ P s).
Proof.
  apply triple_forM. intros f _ s Hs. unfold announce_flow_deleted. by case_decide.
Qed.

Lemma split_flows_exn P flows e :
  (∀ f e, P f = Err e → e ≠ OutOfFuel) → split_flows P flows = Err e → e ≠ OutOfFuel.
Proof.
  intros HP. induction flows as [|f flows IH]; simpl; [done|].
  destruct (P f) eqn:Hf; [|intros [= <-]; by eapply HP].
  destruct (split_flows P flows) as [[]|]; [by destruct a|]. intros [= <-]. by apply IH.
Qed.

Lemma flow_matches_spec_exn f m e : flow_matches_spec f m = Err e → e ≠ OutOfFuel.
Proof. unfold flow_matches_spec. repeat case_decide; try done. destruct (m_oxm_fields _); naive_solver. Qed.

Lemma update_flow_table_keeps m : keeps_ok (update_flow_table m).
Proof.
  unfold update_flow_table. repeat case_decide.
  - unfold flow_add. intros s Hs. unfold passert, mbind, M_bind, gets.
    case_bool_decide; simpl; [|done]. destruct (flow_add_table m _); [|done]. by apply proxy_update_keeps.
  - unfold flow_delete. intros s Hs. rewrite (bind_ok _ _ s (t_flows (tr s)) s) by done.
    destruct (split_flows _ _) as [[keep del]|e] eqn:Hsp.
    + rewrite (bind_ok _ _ s (keep, del) s) by done.
      assert (keeps_ok (match del with [] => mret tt | _ => flows_proxy_update keep end)) as Hk
        by (destruct del; [by apply triple_ret|apply proxy_update_keeps]).
      revert s Hs Hsp. intros s Hs _. revert s Hs. eapply triple_bind; [exact Hk|]. intros [].
      eapply triple_conseq; [apply (announce_spec (agent_ok store) del)|naive_solver..].
    + unfold mbind, M_bind, lift. split; [|done]. eapply split_flows_exn, Hsp.
      intros f e' Hf. exact (flow_matches_spec_exn _ _ _ Hf).
  - unfold flow_delete_strict. intros s Hs. unfold mbind, M_bind, gets.
    destruct (find_flow _ _); [by apply proxy_update_keeps|done].
  - by apply triple_raise.
  - by apply triple_raise.
  - by apply triple_ret.
Qed.

Lemma update_group_table_keeps m : keeps_ok (update_group_table m).
Proof.
  unfold update_group_table. repeat case_decide; [| | |by apply triple_ret].
  - unfold group_delete. intros s Hs. rewrite (bind_ok _ _ s (t_groups (tr s)) s) by done.
    case_decide; [by apply groups_update_keeps|].
    destruct (od_mem _ _); [|done]. rewrite (bind_ok _ _ s (t_flows (tr s)) s) by done.
    unfold flows_delete_by_group_id. rewrite split_flows_pure.
    generalize (filter (λ f, flow_has_out_group f (gm_group_id m) = false) (t_flows (tr s))) as keep.
    generalize (filter (λ f, flow_has_out_group f (gm_group_id m) = true) (t_flows (tr s))) as del.
    generalize (od_values (od_del (gm_group_id m) (groups_by_id (t_groups (tr s))))) as groups.
    intros groups del keep. revert s Hs.
    apply (triple_bind _ _ _ (λ _, agent_ok store)).
    { apply (triple_bind _ _ _ (λ _, agent_ok store)); [by apply (triple_lift (Ok (keep, del)))|].
      intros [k d]. apply (triple_bind _ _ _ (λ _, agent_ok store)); [|intros; by apply triple_ret].
      eapply triple_conseq; [apply (announce_spec (agent_ok store) d)|naive_solver..]. }
    intros [b fl]. eapply triple_bind; [apply groups_update_keeps|]. intros [].
    simpl. destruct b; [apply proxy_update_keeps|by apply triple_ret].
  - unfold group_add. intros s Hs. unfold mbind, M_bind, gets.
    destruct (od_mem _ _); [done|by apply groups_update_keeps].
  - unfold group_modify. intros s Hs. unfold mbind, M_bind, gets.
    destruct (od_mem _ _); [by apply groups_update_keeps|done].
Qed.

End invariant.

(** ** What a flow table update leaves alone *)
Section frame.
Context `{HFD : FlowDigest} `{HSP : ShortestPath} `{HDO : DictOrder}.

(** A predicate on the rest of the state: not on the flow table, the device
    tables, the caches or the flag between the two callbacks. *)
Record table_free (P : lda → Prop) : Prop := {
  tf_ca : ∀ f s, P s → P (set_ca f s);
  tf_nc : ∀ b s, P s → P (set_no_changes b s);
  tf_flows : ∀ fl s, P s → P (set_tr (set_flows fl) s);
  tf_dev_flows : ∀ dev fl s, P s → P (set_tr (set_dev_flows dev fl) s);
  tf_dev_groups : ∀ dev gs s, P s → P (set_tr (set_dev_groups dev gs) s);
}.

Abbreviation frames P m := (triple P m (λ _, P) (λ _, P)).

Lemma assure_frame P : table_free P → frames P assure_cached_tables_up_to_date.
Proof.
  intros HP. unfold assure_cached_tables_up_to_date.
  eapply triple_bind; [by apply (triple_gets _ _ (λ _, P))|]. intros [r|]; [by apply triple_ret|].
  eapply triple_bind; [by apply (triple_gets _ _ (λ _, P))|]. intros t. simpl.
  apply (triple_bind _ _ _ (λ _, P)); [by apply triple_lift|]. intros gr.
  apply (triple_bind _ _ _ (λ _, P)); [apply triple_modify; by apply tf_ca|]. intros [].
  apply (triple_bind _ _ _ (λ _, P)); [by apply triple_lift|]. intros rules.
  apply (triple_bind _ _ _ (λ _, P)); [apply triple_modify; by apply tf_ca|]. intros [].
  destruct (filter _ _) as [|p [|]]; [by apply triple_raise| |by apply triple_raise].
  apply triple_modify. by apply tf_ca.
Qed.

Lemma read_nni_frame P : frames P read_nni.
Proof. intros s Hs. unfold read_nni, mbind, M_bind, gets. by destruct (c_nni (ca s)). Qed.

Lemma get_route_frame P i o : table_free P → frames P (agent_get_route i o).
Proof.
  intros HP. unfold agent_get_route. eapply triple_bind; [by apply assure_frame|]. intros [].
  apply (triple_bind _ _ _ (λ _, P)).
  { destruct (is_controller_port o); [apply read_nni_frame|by apply triple_ret]. }
  intros e. apply (triple_bind _ _ _ (λ _, P)).
  { destruct i; [by apply triple_ret|apply read_nni_frame]. }
  intros nni s Hs. unfold mbind, M_bind, gets. case_decide.
  - by destruct (head _) as [[k [ih eh]]|].
  - destruct e; [by destruct i|]. by destruct (head _) as [[k [ih eh]]|].
Qed.

#[local] Instance agent_frame_spec P upd : table_free P → (∀ fl, frames P (upd fl)) →
  FlowDecomposerSpec (agent_ops upd) P (λ _, P) (λ _, True) (λ _, True).
Proof.
  intros HP Hupd. split; simpl.
  - auto.
  - intros i o. eapply triple_conseq; [by apply get_route_frame|naive_solver..].
  - intros x s Hs. unfold agent_get_wildcard_input_ports, gets. split; [done|]. by apply Forall_true.
  - intros f s Hs. unfold flow_delete_stats, mbind, M_bind, gets. rewrite split_flows_pure.
    destruct (filter (λ x, flow_match x f = true) _); [done|by apply Hupd].
  - unfold agent_get_all_default_rules. eapply triple_bind; [by apply assure_frame|].
    intros [] s Hs. unfold mbind, M_bind, gets. by destruct (c_default_rules (ca s)).
Qed.

Lemma push_tables_frame P upd flows groups : table_free P → (∀ fl, frames P (upd fl)) →
  frames P (push_tables upd flows groups).
Proof.
  intros HP Hupd. pose proof (agent_frame_spec P upd HP Hupd) as Hspec. unfold push_tables.
  apply (triple_bind _ _ _ (λ _, P)).
  - unfold decompose_rules. apply (triple_bind _ _ _ (λ _, P)).
    { apply (spec_default (ops := agent_ops upd) (P := P)). }
    intros dr. apply (triple_foldM (λ _, P)). intros dr' flow _. unfold decompose_one.
    apply (triple_bind _ _ _ (λ _, P)).
    + eapply triple_conseq; [apply (decompose_flow_derived (ops := agent_ops upd) (gact := λ _, True) flow
        (group_map_of groups) (λ _ _ _ _ _, Forall_true _ _ (λ _, I)) (λ _ _, I))|naive_solver..].
    + intros rules. apply (triple_foldM (λ _, P)). intros d [dev [fs gr]] _ s Hs.
      unfold merge_device. destruct d as [d|]; unfold mbind, M_bind; simpl; [|done].
      destruct (default ([], []) (d !! dev)). by destruct gr.
  - intros dr. apply (triple_bind _ _ _ (λ _, P)); [by apply triple_from_some|]. intros d.
    apply triple_forM. intros [dev [fs gr]] _ s Hs. unfold push_device, mbind, M_bind, gets.
    destruct (t_devices (tr s) !! dev); [|done]. simpl.
    by apply (tf_dev_groups _ HP), (tf_dev_flows _ HP).
Qed.

Lemma flows_update_frame P : table_free P → ∀ fuel fl, frames P (flows_update fuel fl).
Proof.
  intros HP. induction fuel as [|fuel IH]; intros fl; simpl; [by apply triple_raise|].
  unfold flows_update_body. eapply triple_bind; [by apply (triple_gets _ _ (λ _, P))|]. intros h. simpl.
  apply (triple_bind _ _ _ (λ _, P)).
  { destruct (h_pre_flows h); [|by apply triple_ret]. unfold pre_process_flows.
    eapply triple_bind; [by apply (triple_gets _ _ (λ _, P))|]. intros c. simpl. apply triple_modify. by apply tf_nc. }
  intros []. eapply triple_bind; [by apply (triple_gets _ _ (λ _, P))|]. intros c. simpl.
  case_decide; [by apply triple_ret|].
  apply (triple_bind _ _ _ (λ _, P)); [apply triple_modify; by apply tf_flows|]. intros [].
  destruct (h_flows h); [|by apply triple_ret]. intros s Hs.
  assert (frames P (flow_table_updated (flows_update fuel) fl)) as Hf.
  { unfold flow_table_updated. eapply triple_bind; [by apply (triple_gets _ _ (λ _, P))|].
    intros []; [by apply triple_ret|].
    eapply triple_bind; [by apply (triple_gets _ _ (λ _, P))|]. intros gs. by apply push_tables_frame. }
  specialize (Hf s Hs). unfold swallow.
  destruct (flow_table_updated (flows_update fuel) fl s) as [[[]|e] s']; [done|]. by destruct e.
Qed.

Lemma groups_update_frame P groups : table_free P →
  (∀ s, P s → P (set_tr (set_groups groups) s)) →
  frames P (groups_proxy_update groups).
Proof.
  intros HP Hg. unfold groups_proxy_update.
  eapply triple_bind; [by apply (triple_gets _ _ (λ _, P))|]. intros h. simpl.
  eapply triple_bind; [by apply (triple_gets _ _ (λ _, P))|]. intros c. simpl.
  case_decide; [by apply triple_ret|].
  apply (triple_bind _ _ _ (λ _, P)); [by apply triple_modify|]. intros [].
  destruct (h_groups h); [|by apply triple_ret]. intros s Hs.
  assert (frames P (group_table_updated groups)) as Hf.
  { unfold group_table_updated. eapply triple_bind; [by apply (triple_gets _ _ (λ _, P))|].
    intros fl. apply push_tables_frame; [done|]. intros fl'. by apply flows_update_frame. }
  specialize (Hf s Hs). unfold swallow.
  destruct (group_table_updated groups s) as [[[]|e] s']; [done|]. by destruct e.
Qed.

(** After [groups_proxy.update] the group table is the one given. *)
Lemma groups_update_stores groups s r s' :
  groups_proxy_update groups s = (r, s') → t_groups (tr s') = groups.
Proof.
  intros Hrun. unfold groups_proxy_update in Hrun.
  rewrite (bind_ok _ _ s (cbs s) s) in Hrun by done.
  rewrite (bind_ok _ _ s (t_groups (tr s)) s) in Hrun by done.
  case_decide; [by injection Hrun as <- <-|].
  rewrite (bind_ok _ _ s tt (set_tr (set_groups groups) s)) in Hrun by done.
  set (P := λ s, t_groups (tr s) = groups).
  assert (table_free P) as HP by (split; by intros).
  destruct (h_groups (cbs s)); [|by injection Hrun as <- <-].
  assert (frames P (group_table_updated groups)) as Hf.
  { unfold group_table_updated. eapply triple_bind; [by apply (triple_gets _ _ (λ _, P))|].
    intros fl. apply push_tables_frame; [done|]. intros fl'. by apply flows_update_frame. }
  specialize (Hf (set_tr (set_groups groups) s) eq_refl). unfold swallow in Hrun.
  destruct (group_table_updated groups _) as [[[]|e] s1]; [by injection Hrun as <- <-|].
  destruct e; by injection Hrun as <- <-.
Qed.

(** A table with the same ids is stored, and nothing else happens. *)
Lemma same_ids_update fl s :
  h_pre_flows (cbs s) = true → fs_id <$> fl = fs_id <$> t_flows (tr s) →
  flows_proxy_update fl s = (Ok tt, set_tr (set_flows fl) (set_no_changes true s)).
Proof.
  intros Hpre Hids. unfold flows_proxy_update. simpl. unfold flows_update_body.
  rewrite (bind_ok _ _ s (cbs s) s), Hpre by done.
  assert (pre_process_flows fl s = (Ok tt, set_no_changes true s)) as Hp.
  { unfold pre_process_flows. rewrite (bind_ok _ _ s (t_flows (tr s)) s) by done.
    rewrite Hids. rewrite difference_diag_L. done. }
  rewrite (bind_ok _ _ _ _ _ Hp), (bind_ok _ _ (set_no_changes true s) (t_flows (tr s)) (set_no_changes true s)) by done.
  case_decide as Heq.
  - destruct s as [[] ? ? ? ? ? ?]. simpl in *. by subst.
  - rewrite (bind_ok _ _ _ tt (set_tr (set_flows fl) (set_no_changes true s))) by done.
    by destruct (h_flows (cbs s)).
Qed.

(** ** The table [flow_add] writes *)
Definition table_wf (fl : list ofp_flow_stats) : Prop :=
  NoDup (key_of <$> fl) ∧ Forall (λ f, fs_id f = hash_flow_stats f) fl.

Definition add_new_entry (m : ofp_flow_mod) (old : ofp_flow_stats) : ofp_flow_stats :=
  if decide (Z.land (fm_flags m) OFPFF_RESET_COUNTS ≠ 0)
  then flow_stats_entry_from_flow_mod_message m
  else keep_counts old (flow_stats_entry_from_flow_mod_message m).

Lemma add_new_entry_key m old : key_of (add_new_entry m old) = key_of (flow_stats_entry_from_flow_mod_message m).
Proof. unfold add_new_entry. by case_decide. Qed.

Lemma add_new_entry_id m old : fs_id (add_new_entry m old) = hash_flow_stats (add_new_entry m old).
Proof. unfold add_new_entry. by case_decide. Qed.

Lemma add_table_cases m fl fl' :
  Z.land (fm_flags m) OFPFF_CHECK_OVERLAP = 0 → flow_add_table m fl = Some fl' →
  (∃ i old, fl !! i = Some old ∧ key_of old = key_of (flow_stats_entry_from_flow_mod_message m) ∧
     fl' = <[i := add_new_entry m old]> fl) ∨
  (key_of (flow_stats_entry_from_flow_mod_message m) ∉ key_of <$> fl ∧
   fl' = fl ++ [flow_stats_entry_from_flow_mod_message m]).
Proof.
  intros Hov. unfold flow_add_table. rewrite decide_False by (by intros []).
  destruct (find_flow fl _) as [i|] eqn:Hf; intros [= <-].
  - left. destruct (find_flow_Some _ _ _ Hf) as (old & Hold & Hk). exists i, old.
    split_and!; [done..|]. by rewrite Hold.
  - right. split; [by apply find_flow_None|done].
Qed.

Lemma insert_same_map {A B} (f : A → B) (l : list A) i x y :
  l !! i = Some x → f y = f x → f <$> <[i := y]> l = f <$> l.
Proof.
  intros Hl Hf. rewrite list_fmap_insert, Hf. apply list_insert_id. by rewrite list_lookup_fmap, Hl.
Qed.

Lemma add_table_wf m fl fl' :
  Z.land (fm_flags m) OFPFF_CHECK_OVERLAP = 0 → flow_add_table m fl = Some fl' →
  table_wf fl → table_wf fl'.
Proof.
  intros Hov Hadd [Hnd Hid].
  destruct (add_table_cases m fl fl' Hov Hadd) as [(i & old & Hl & Hk & ->)|[Hk ->]]; split.
  - by rewrite (insert_same_map _ _ _ old) by (by rewrite ?add_new_entry_key).
  - apply Forall_insert; [done|]. apply add_new_entry_id.
  - rewrite fmap_app. apply NoDup_app. split_and!; [done| |by apply NoDup_singleton].
    intros k Hin. csimpl. rewrite list_elem_of_singleton. by intros ->.
  - apply Forall_app. split; [done|]. by apply Forall_singleton.
Qed.

Lemma table_wf_sublist fl fl' : fl' `sublist_of` fl → table_wf fl → table_wf fl'.
Proof.
  intros Hs [Hnd Hid]. split.
  - eapply sublist_NoDup; [done|]. by apply fmap_sublist.
  - rewrite Forall_forall in *. intros f Hf. apply Hid. by eapply elem_of_sublist.
Qed.

End frame.

(** ** Which flows an update deletes *)
Section deletions.
Context `{HFD : FlowDigest} `{HSP : ShortestPath} `{HDO : DictOrder}.

(** Routes are computed at most once, and nothing else of the state changes. *)
Lemma assure_state s :
  (assure_cached_tables_up_to_date s).2 = s ∨
  (c_routes (ca s) = None ∧ ∃ c, (assure_cached_tables_up_to_date s).2 = set_ca (λ _, c) s).
Proof.
  unfold assure_cached_tables_up_to_date, mbind, M_bind, gets.
  destruct (c_routes (ca s)) as [r|] eqn:Hc; [by left|].
  unfold lift. destruct (compute_routes _ _) as [[g routes]|e]; [|by left].
  right. split; [done|]. simpl. destruct (generate_default_rules _ _ _) as [rules|e]; [|by eexists].
  destruct (filter _ _) as [|p [|]]; by eexists.
Qed.

Lemma assure_warm s : is_Some (c_routes (ca s)) → assure_cached_tables_up_to_date s = (Ok tt, s).
Proof. intros [r Hr]. unfold assure_cached_tables_up_to_date, mbind, M_bind, gets. by rewrite Hr. Qed.

Lemma assure_then_warm s s' :
  assure_cached_tables_up_to_date s = (Ok tt, s') → is_Some (c_routes (ca s')).
Proof.
  unfold assure_cached_tables_up_to_date, mbind, M_bind, gets.
  destruct (c_routes (ca s)) as [r|] eqn:Hc; [intros [= <-]; by rewrite Hc|].
  unfold lift. destruct (compute_routes _ _) as [[g routes]|e]; [|done].
  simpl. destruct (generate_default_rules _ _ _) as [rules|e]; [|done].
  destruct (filter _ _) as [|p [|]]; [done| |done]. intros [= <-]. by eexists.
Qed.

(** A computation that only reads the caches. *)
Definition reads {A} (m : M lda A) : Prop :=
  ∀ s1 s2, ca s1 = ca s2 → (m s1).2 = s1 ∧ (m s1).1 = (m s2).1.

Lemma reads_pure {A} (f : cache → result A) : reads (λ s, (f (ca s), s)).
Proof. intros s1 s2 Hc. by rewrite Hc. Qed.

Lemma reads_bind {A B} (m : M lda A) (k : A → M lda B) :
  reads m → (∀ a, reads (k a)) → reads (m ≫= k).
Proof.
  intros Hm Hk s1 s2 Hc. destruct (Hm s1 s2 Hc) as [H1 H2]. destruct (Hm s2 s1 (eq_sym Hc)) as [H3 _].
  unfold mbind, M_bind. destruct (m s1) as [r1 s1'], (m s2) as [r2 s2']. simpl in *. subst.
  destruct r2 as [a|e]; [|done]. by apply Hk.
Qed.

Lemma read_nni_reads : reads read_nni.
Proof.
  apply reads_bind; [apply (reads_pure (λ c, Ok (c_nni c)))|].
  intros [n|]; [apply (reads_pure (λ _, Ok n))|apply (reads_pure (λ _, Err AttributeError))].
Qed.

Lemma get_route_reads i o : ∃ k, reads k ∧ agent_get_route i o = (_ ← assure_cached_tables_up_to_date; k).
Proof.
  unfold agent_get_route. eexists. split; [|reflexivity].
  apply reads_bind; [destruct (is_controller_port o); [apply read_nni_reads|by intros s1 s2]|]. intros e.
  apply reads_bind; [destruct i; [by intros s1 s2|apply read_nni_reads]|]. intros nni.
  apply reads_bind; [apply (reads_pure (λ c, Ok (default ∅ (c_routes c))))|]. intros routes.
  case_decide; [by destruct (head _) as [[? []]|]|].
  destruct e; [by destruct i|by destruct (head _) as [[? []]|]].
Qed.

Lemma route_state i o s : (agent_get_route i o s).2 = (assure_cached_tables_up_to_date s).2.
Proof.
  destruct (get_route_reads i o) as (k & Hk & ->). unfold mbind, M_bind.
  destruct (assure_cached_tables_up_to_date s) as [[[]|e] s']; [|done]. by destruct (Hk s' s' eq_refl).
Qed.

(** The answer stands while the caches do. *)
Lemma route_again i o s0 s r s' : agent_get_route i o s0 = (Ok r, s) → ca s' = ca s →
  is_Some (c_routes (ca s)) ∧ agent_get_route i o s' = (Ok r, s').
Proof.
  destruct (get_route_reads i o) as (k & Hk & ->). unfold mbind, M_bind. intros Hrun Hc.
  destruct (assure_cached_tables_up_to_date s0) as [[[]|e] s1] eqn:Ha; [|done].
  apply assure_then_warm in Ha. destruct (Hk s1 s' ltac:(destruct (Hk s1 s1 eq_refl) as [Hs _]; rewrite Hrun in Hs; simpl in Hs; congruence)) as [Hs Hr].
  rewrite Hrun in Hs, Hr. simpl in Hs, Hr. subst s1. split; [done|].
  rewrite assure_warm by (by rewrite Hc). destruct (Hk s' s' eq_refl) as [Hs' _].
  destruct (k s') as [r' s2]. simpl in *. by subst.
Qed.

(** The flow [f] has a destination to which its input port has no route. *)
Definition no_route (s : lda) (f : ofp_flow_stats) : Prop :=
  ∃ i o, get_in_port f = Ok i ∧ destination (group_map_of (t_groups (tr s))) f o ∧
    agent_get_route i o s = (Ok None, s).

(** Every flow of [fl] is in the table, or is one that matches like a flow
    without a route. *)
Definition kept (fl : list ofp_flow_stats) (s : lda) : Prop :=
  ∀ f, f ∈ fl → f ∈ t_flows (tr s) ∨ ∃ f', f' ∈ fl ∧ key_of f' = key_of f ∧ no_route s f'.

(** The state while a table [fl] written in state [s0] is decomposed. *)
Record pruned (s0 : lda) (fl : list ofp_flow_stats) (s : lda) : Prop := {
  pr_sub : t_flows (tr s) `sublist_of` fl;
  pr_kept : kept fl s;
  pr_cache : is_Some (c_routes (ca s0)) → ca s = ca s0;
  pr_groups : t_groups (tr s) = t_groups (tr s0);
}.

Lemma no_route_stays s s' f : no_route s f → t_groups (tr s') = t_groups (tr s) →
  (is_Some (c_routes (ca s)) → ca s' = ca s) → no_route s' f.
Proof.
  intros (i & o & Hi & Ho & Hr) Hg Hc. exists i, o.
  destruct (route_again _ _ _ _ _ s Hr eq_refl) as [Hw _].
  destruct (route_again _ _ _ _ _ s' Hr (Hc Hw)) as [_ Hr']. by rewrite Hg.
Qed.

Lemma pruned_frame s0 fl s s' : pruned s0 fl s → t_flows (tr s') = t_flows (tr s) →
  t_groups (tr s') = t_groups (tr s) → (is_Some (c_routes (ca s)) → ca s' = ca s) →
  pruned s0 fl s'.
Proof.
  intros [H1 H2 H3 H4] Hf Hg Hc. split; [by rewrite Hf| | |congruence].
  - intros f Hf0. destruct (H2 f Hf0) as [Hin|(f' & Hin & Hk & Hn)]; [left; by rewrite Hf|]. right. exists f'.
    split_and!; [done..|]. by eapply no_route_stays.
  - intros Hw. rewrite Hc, H3 by (rewrite ?H3; done). done.
Qed.

Lemma pruned_assure s0 fl s : pruned s0 fl s → pruned s0 fl (assure_cached_tables_up_to_date s).2.
Proof.
  intros Hs. destruct (assure_state s) as [->|[Hc [c ->]]]; [done|].
  apply (pruned_frame _ _ s); [done..|]. rewrite Hc. by intros [].
Qed.

Definition update_prunes (upd : list ofp_flow_stats → M lda unit) : Prop :=
  ∀ fl s, pruned s fl (upd fl s).2 ∨ upd fl s = (Err OutOfFuel, s).

Lemma delete_prunes upd s0 fl f s : update_prunes upd → f ∈ fl → no_route s f →
  pruned s0 fl s → pruned s0 fl (flow_delete_stats upd f s).2.
Proof.
  intros Hupd Hf Hn Hs. unfold flow_delete_stats, mbind, M_bind, gets. rewrite split_flows_pure.
  destruct (filter (λ x, flow_match x f = true) _) as [|x l] eqn:Hd; [done|].
  set (keep := filter (λ x, flow_match x f = false) (t_flows (tr s))).
  destruct (Hupd keep s) as [Hp| ->]; [|done]. destruct Hs as [H1 H2 H3 H4], Hp as [K1 K2 K3 K4].
  assert (keep `sublist_of` t_flows (tr s)) as Hsub by apply sublist_filter.
  split; [by etrans; [|etrans]| | |congruence].
  - intros f0 Hf0. destruct (H2 f0 Hf0) as [Hin|(f' & Hin & Hk & Hn')].
    + destruct (flow_match f0 f) eqn:Hm.
      * right. exists f. apply flow_match_key in Hm. split_and!; [done..|]. by eapply no_route_stays.
      * assert (f0 ∈ keep) as Hk by (by apply list_elem_of_filter).
        destruct (K2 f0 Hk) as [?|(f' & Hin' & Hk' & Hn')]; [by left|]. right. exists f'.
        split_and!; [|done..]. eapply elem_of_sublist; [|done]. by etrans.
    + right. exists f'. split_and!; [done..|]. by eapply no_route_stays.
  - intros Hw. rewrite K3, H3 by (rewrite ?H3; done). done.
Qed.

Lemma push_prunes upd s0 fl groups s : update_prunes upd → groups = t_groups (tr s0) →
  pruned s0 fl s → pruned s0 fl (push_tables upd fl groups s).2.
Proof.
  intros Hupd -> Hs. unfold push_tables. apply (bind_keeps (pruned s0 fl)).
  - apply (decompose_rules_keeps (ops := agent_ops upd) (pruned s0 fl)); simpl; [..|done].
    + intros i o s1 Hs1. rewrite route_state. by apply pruned_assure.
    + done.
    + intros s1 Hs1. unfold agent_get_all_default_rules.
      apply (bind_keeps (pruned s0 fl)); [by apply pruned_assure|]. intros [] s2 _ Hs2.
      unfold mbind, M_bind, gets. by destruct (c_default_rules (ca s2)).
    + intros f i o s1 s2 Hf Hi Ho Hr Hs2. apply delete_prunes; [done..| |done]. exists i, o.
      rewrite (pr_groups _ _ _ Hs2). split_and!; [done..|]. by eapply route_again.
  - intros dr s1 _ Hs1. apply (some_keeps (pruned s0 fl)); [done|]. intros d _.
    generalize (iteritems d) as l. intros l. revert s1 Hs1. induction l as [|[dev [fs gr]] l IH]; intros s1 Hs1; simpl; [done|].
    apply (bind_keeps (pruned s0 fl)); [|intros [] s2 _ Hs2; by apply IH].
    unfold push_device, mbind, M_bind, gets. destruct (t_devices (tr s1) !! dev); [|done].
    by apply (pruned_frame _ _ s1).
Qed.

(** A decomposition that deletes no flow changes nothing in the tree. *)
Lemma decompose_leaves_tree upd fl groups s : update_prunes upd → t_flows (tr s) = fl →
  let s' := (@decompose_rules _ _ lda (agent_ops upd) fl groups s).2 in
  t_flows (tr s') = fl → tr s' = tr s.
Proof.
  intros Hupd Hfl s' Hkept.
  set (P := λ s', tr s' = tr s ∨ (length (t_flows (tr s')) < length fl)%nat).
  enough (P s') as [?|Hlt]; [done|rewrite Hkept in Hlt; lia|].
  assert (∀ s1, P s1 → P (assure_cached_tables_up_to_date s1).2) as Ha.
  { intros s1 Hs1. by destruct (assure_state s1) as [->|[_ [c ->]]]. }
  apply (decompose_rules_keeps (ops := agent_ops upd) P); simpl; [..|by left].
  - intros i o s1 Hs1. rewrite route_state. by apply Ha.
  - done.
  - intros s1 Hs1. apply (bind_keeps P); [by apply Ha|]. intros [] s2 _ Hs2.
    unfold mbind, M_bind, gets. by destruct (c_default_rules (ca s2)).
  - intros f i o s1 s2 _ _ _ _ Hs2. unfold flow_delete_stats, mbind, M_bind, gets. rewrite split_flows_pure.
    destruct (filter (λ x, flow_match x f = true) _) as [|x l] eqn:Hd; [done|].
    assert (x ∈ filter (λ x, flow_match x f = true) (t_flows (tr s2))) as [Hm Hx]%list_elem_of_filter
      by (rewrite Hd; set_solver).
    destruct (Hupd (filter (λ x, flow_match x f = false) (t_flows (tr s2))) s2) as [Hp| ->]; [|done].
    right. apply pr_sub, sublist_length in Hp.
    assert (length (filter (λ x, flow_match x f = false) (t_flows (tr s2))) < length (t_flows (tr s2)))%nat
      by (apply (filter_shrinks _ _ x); [done|congruence]).
    destruct Hs2 as [Heq|]; [rewrite Heq, Hfl in *|]; lia.
Qed.

Lemma swallow_state (m : M lda unit) s : (swallow m s).2 = (m s).2.
Proof. unfold swallow. by destruct (m s) as [[|[]] ?]. Qed.

Lemma flows_update_prunes fuel : update_prunes (flows_update fuel).
Proof.
  induction fuel as [|fuel IH]; intros fl s; [by right|]. left. simpl. unfold flows_update_body.
  rewrite (bind_ok _ _ s (cbs s) s) by done.
  assert (∃ s1, (if h_pre_flows (cbs s) then pre_process_flows fl else mret tt) s = (Ok tt, s1) ∧
            tr s1 = tr s ∧ ca s1 = ca s) as (s1 & Hpre & Htr & Hca).
  { destruct (h_pre_flows (cbs s)); [|by exists s]. destruct (pre_process_spec fl s) as [b ->]. by eexists. }
  rewrite (bind_ok _ _ _ _ _ Hpre), (bind_ok _ _ s1 (t_flows (tr s1)) s1) by done.
  assert (∀ s2, t_flows (tr s2) = fl → t_groups (tr s2) = t_groups (tr s) → ca s2 = ca s → pruned s fl s2) as Hnew.
  { intros s2 Hf Hg Hc. split; [by rewrite Hf|intros f Hin; left; by rewrite Hf|done|done]. }
  case_decide as Heq; [apply Hnew; simpl; congruence|].
  rewrite (bind_ok _ _ s1 tt (set_tr (set_flows fl) s1)) by done.
  assert (pruned s fl (set_tr (set_flows fl) s1)) as Hs2 by (apply Hnew; simpl; congruence).
  destruct (h_flows (cbs s)); [|done]. rewrite swallow_state. unfold flow_table_updated.
  apply (bind_keeps (pruned s fl)); [done|]. intros nc s2 [= _ <-] _. destruct nc; [done|].
  apply (bind_keeps (pruned s fl)); [done|]. intros gs s2 [= <- <-] _.
  apply push_prunes; [done|by simpl; congruence|done].
Qed.

End deletions.

(** ** Pushing the tables *)
Section push.

Lemma push_all_ok (l : list (string * (odict Z ofp_flow_stats * odict Z ofp_group_entry))) s :
  NoDup l.*1 → (∀ dev, dev ∈ l.*1 → is_Some (t_devices (tr s) !! dev)) →
  ∃ s', forM_ push_device l s = (Ok tt, s') ∧ t_flows (tr s') = t_flows (tr s) ∧
    t_devices (tr s') = t_devices (tr s) ∧
    (∀ dev, t_dev_flows (tr s') !! dev =
       match od_get dev l with Some (fl, _) => Some (od_values fl) | None => t_dev_flows (tr s) !! dev end) ∧
    (∀ dev, t_dev_groups (tr s') !! dev =
       match od_get dev l with Some (_, gr) => Some (od_values gr) | None => t_dev_groups (tr s) !! dev end).
Proof.
  revert s. induction l as [|[dev [fl gr]] l IH]; intros s Hnd Hdev; csimpl; [by exists s|].
  apply NoDup_cons in Hnd as [Hni Hnd]. destruct (Hdev dev ltac:(set_solver)) as [d Hd].
  set (s1 := set_tr (set_dev_groups dev (od_values gr)) (set_tr (set_dev_flows dev (od_values fl)) s)).
  destruct (IH s1 Hnd) as (s' & Hrun & Hf & Hds & Hfl & Hgr).
  { intros dev' Hin. apply Hdev. set_solver. }
  exists s'. split_and!; [|by rewrite Hf|by rewrite Hds|..].
  - unfold mbind, M_bind. unfold push_device, mbind, M_bind, gets. simpl. rewrite Hd. apply Hrun.
  - intros dev'. rewrite Hfl. case_decide as Heq; subst; simpl.
    + by rewrite (proj2 (od_get_None dev l) Hni), lookup_insert_eq.
    + by rewrite lookup_insert_ne by done.
  - intros dev'. rewrite Hgr. case_decide as Heq; subst; simpl.
    + by rewrite (proj2 (od_get_None dev l) Hni), lookup_insert_eq.
    + by rewrite lookup_insert_ne by done.
Qed.

Lemma od_get_iteritems `{DictOrder} (dr : device_rules) dev : od_get dev (iteritems dr) = dr !! dev.
Proof.
  destruct (od_get dev (iteritems dr)) as [v|] eqn:Hg.
  - by apply od_get_Some_in, elem_of_iteritems in Hg.
  - apply od_get_None in Hg. destruct (dr !! dev) as [v|] eqn:Hd; [|done].
    destruct Hg. apply (od_elem_key _ v). by apply elem_of_iteritems.
Qed.

End push.

(** ** Properties *)
Section properties.
Context `{HFD : FlowDigest} `{HSP : ShortestPath} `{HDO : DictOrder}.

(** C1 Safety of the device tables: for a fixed set of devices whose ports
    have distinct numbers, [agent_ok] - the cached routes and default rules and
    the device tables stay on the devices - holds of a fresh agent over empty
    device tables and is kept by every flow-mod and group-mod command, whether
    it returns or raises; no command needs more nested updates than there are
    flows; and in the state it ends in every flow of a device's table matches
    on one port of that device and outputs on a different port of it. *)
Theorem tables_stay_on_devices store (Hwf : wf_store store) (Hports : ports_numbered store) :
  (∀ t, t_devices t = store → t_dev_flows t = ∅ → agent_ok store (init t)) ∧
  (∀ m : ofp_flow_mod, triple (agent_ok store) (update_flow_table m)
     (λ _ s, agent_ok store s ∧ tables_cross store s)
     (λ e s, e ≠ OutOfFuel ∧ agent_ok store s ∧ tables_cross store s)) ∧
  (∀ m : ofp_group_mod, triple (agent_ok store) (update_group_table m)
     (λ _ s, agent_ok store s ∧ tables_cross store s)
     (λ e s, e ≠ OutOfFuel ∧ agent_ok store s ∧ tables_cross store s)).
Proof.
  pose proof (agent_ok_cross store Hports). split_and!.
  - intros t <- Ht. apply init_ok. intros dev fl f. by rewrite Ht, lookup_empty.
  - intros m. eapply triple_conseq; [by apply (update_flow_table_keeps Hwf m)|naive_solver..].
  - intros m. eapply triple_conseq; [by apply (update_group_table_keeps Hwf m)|naive_solver..].
Qed.

(** C33 Writing a flow table always succeeds, and loses only flows without a
    route: it leaves a part of the table written, in its order, and for every
    flow that is not left there is a flow of the table written, equal to it in
    table, priority, flags, cookie and match, that has a destination to which
    the agent, asked in the final state, has no route from the flow's input
    port. *)
Theorem flows_update_total store fl s (Hwf : wf_store store) (Hs : agent_ok store s) :
  ∃ s', flows_proxy_update fl s = (Ok tt, s') ∧ agent_ok store s' ∧ t_flows (tr s') `sublist_of` fl ∧
    ∀ f, f ∈ fl → f ∉ t_flows (tr s') →
      ∃ f' i o, f' ∈ fl ∧ key_of f' = key_of f ∧ get_in_port f' = Ok i ∧
        destination (group_map_of (t_groups (tr s'))) f' o ∧ agent_get_route i o s' = (Ok None, s').
Proof.
  pose proof (proxy_update_ok Hwf fl s Hs) as Hu.
  pose proof (flows_update_prunes (S (length fl)) fl s) as Hp. unfold flows_proxy_update in *.
  destruct (flows_update (S (length fl)) fl s) as [[[]|e] s']; [|done].
  destruct Hp as [Hp|Hp]; [|done]. exists s'. split_and!; [done|apply Hu..|].
  intros f Hf Hgone. destruct (pr_kept _ _ _ Hp f Hf) as [?|(f' & ? & ? & i & o & ?)]; [done|].
  exists f', i, o. tauto.
Qed.

(** C2 The device tables follow the flow table: when the ids of the flows
    change and the new table decomposes to [dr] with no flow deleted on the
    way, the flow and group tables of every device [dr] names become that
    device's part of [dr], in order, and those of every other device are what
    they were before the update. *)
Theorem device_tables_in_step fl s dr s2
    (Hpre : h_pre_flows (cbs s) = true) (Hpost : h_flows (cbs s) = true)
    (Hids : (list_to_set (fs_id <$> fl) : gset Z) ≠ list_to_set (fs_id <$> t_flows (tr s)))
    (Hdec : @decompose_rules _ _ lda (agent_ops (flows_update (length fl))) fl (t_groups (tr s))
              (set_tr (set_flows fl) (set_no_changes false s)) = (Ok (Some dr), s2))
    (Hkept : t_flows (tr s2) = fl)
    (Hdevs : ∀ dev, is_Some (dr !! dev) → is_Some (t_devices (tr s) !! dev)) :
  ∃ s', flows_proxy_update fl s = (Ok tt, s') ∧ t_flows (tr s') = fl ∧
    ∀ dev,
      t_dev_flows (tr s') !! dev =
        match dr !! dev with
        | Some (dfl, _) => Some (od_values dfl)
        | None => t_dev_flows (tr s) !! dev
        end ∧
      t_dev_groups (tr s') !! dev =
        match dr !! dev with
        | Some (_, dgr) => Some (od_values dgr)
        | None => t_dev_groups (tr s) !! dev
        end.
Proof.
  assert (tr s2 = set_flows fl (tr s)) as Htree.
  { pose proof (decompose_leaves_tree (flows_update (length fl)) fl (t_groups (tr s))
      (set_tr (set_flows fl) (set_no_changes false s)) (flows_update_prunes _) eq_refl) as Ht.
    rewrite Hdec in Ht. by apply Ht. }
  unfold flows_proxy_update. simpl. unfold flows_update_body.
  rewrite (bind_ok _ _ s (cbs s) s), Hpre by done.
  assert (pre_process_flows fl s = (Ok tt, set_no_changes false s)) as Hp.
  { unfold pre_process_flows. rewrite (bind_ok _ _ s (t_flows (tr s)) s) by done.
    unfold modify. rewrite bool_decide_false; [done|].
    rewrite Nat.eq_add_0. intros [H1%size_empty_inv H2%size_empty_inv]. apply Hids.
    by apply (anti_symm (⊆)); apply empty_difference_subseteq. }
  rewrite (bind_ok _ _ _ _ _ Hp), (bind_ok _ _ _ (t_flows (tr s)) (set_no_changes false s)) by done.
  rewrite decide_False by (intros Heq; apply Hids; by rewrite Heq).
  rewrite (bind_ok _ _ _ tt (set_tr (set_flows fl) (set_no_changes false s))), Hpost by done.
  destruct (push_all_ok (iteritems dr) s2) as (s' & Hrun & Hf & _ & Hfl & Hgr).
  { apply NoDup_iteritems_keys. }
  { intros dev ([dev' v] & -> & Hin)%list_elem_of_fmap. rewrite Htree. apply Hdevs.
    apply elem_of_iteritems in Hin. simpl. by rewrite Hin. }
  exists s'. split; [|split; [by rewrite Hf|]].
  - unfold swallow, flow_table_updated. unfold mbind at 1 2, M_bind at 1 2, gets at 1 2.
    cbn [no_flow_changes_required set_tr set_no_changes]. unfold push_tables.
    erewrite bind_ok by exact Hdec. cbn [from_some]. erewrite bind_ok by done. by rewrite Hrun.
  - intros dev. by rewrite Hfl, Hgr, od_get_iteritems, Htree.
Qed.

(** C19 The flow table is a table: no two of its flows agree on table, priority,
    flags, cookie and match, and every flow's id is the digest of those.
    Every flow-mod but an ADD with CHECK_OVERLAP keeps it so. *)
Theorem flow_table_wf m s r s'
    (Hov : fm_command m = OFPFC_ADD → Z.land (fm_flags m) OFPFF_CHECK_OVERLAP = 0)
    (Htab : table_wf (t_flows (tr s)))
    (Hrun : update_flow_table m s = (r, s')) : table_wf (t_flows (tr s')).
Proof.
  assert (∀ fl r s1, flows_proxy_update fl s = (r, s1) → table_wf fl → table_wf (t_flows (tr s1))) as Hu.
  { intros fl r1 s1 Hr Hfl. unfold flows_proxy_update in Hr.
    destruct (flows_update_prunes (S (length fl)) fl s) as [Hp|Hp]; rewrite Hr in Hp.
    - eapply table_wf_sublist; [apply Hp|done].
    - by injection Hp as _ ->. }
  unfold update_flow_table in Hrun. repeat case_decide; try by injection Hrun as <- <-.
  - unfold flow_add, passert, mbind, M_bind, gets in Hrun.
    case_bool_decide; simpl in Hrun; [|by injection Hrun as <- <-].
    destruct (flow_add_table m (t_flows (tr s))) as [fl|] eqn:Hadd; [|by injection Hrun as <- <-].
    eapply Hu; [done|]. eapply add_table_wf; eauto.
  - unfold flow_delete in Hrun. rewrite (bind_ok _ _ s (t_flows (tr s)) s) in Hrun by done.
    destruct (split_flows _ _) as [[keep del]|e] eqn:Hsp; [|by injection Hrun as <- <-].
    apply split_flows_spec in Hsp as (-> & _ & _). rewrite (bind_ok _ _ s (_, del) s) in Hrun by done.
    assert (∀ s1, table_wf (t_flows (tr s1)) → announce_flows_deleted del s1 = (r, s') →
              table_wf (t_flows (tr s'))) as Hann.
    { intros s1 Hs1 Ha. pose proof (announce_spec (λ s, table_wf (t_flows (tr s))) del s1 Hs1) as Hsp.
      rewrite Ha in Hsp. destruct r; [done|]. by destruct Hsp. }
    destruct del as [|f del]; [by eapply Hann|]. unfold mbind, M_bind in Hrun.
    destruct (flows_proxy_update _ s) as [[[]|e] s1] eqn:Hp.
    + eapply Hann; [|done]. eapply Hu; [done|]. eapply table_wf_sublist; [apply sublist_filter|done].
    + injection Hrun as <- <-. eapply Hu; [done|]. eapply table_wf_sublist; [apply sublist_filter|done].
  - unfold flow_delete_strict, mbind, M_bind, gets in Hrun.
    destruct (find_flow _ _); [|by injection Hrun as <- <-]. eapply Hu; [done|].
    eapply table_wf_sublist; [apply sublist_delete|done].
Qed.

(** Adding a flow that is already in the table replaces its entry, keeping
    the counters unless RESET_COUNTS is set - and stops there: since the id
    leaves the instructions out, the update counts as a statistics change, and
    no device table is written even when the new entry has other actions. *)
Theorem flow_add_existing m s i old
    (Hpre : h_pre_flows (cbs s) = true)
    (Hcm : fm_cookie_mask m = 0) (Hov : Z.land (fm_flags m) OFPFF_CHECK_OVERLAP = 0)
    (Htab : table_wf (t_flows (tr s)))
    (Hold : t_flows (tr s) !! i = Some old)
    (Hkey : key_of old = key_of (flow_stats_entry_from_flow_mod_message m)) :
  flow_add m s =
    (Ok tt, set_tr (set_flows (<[i := add_new_entry m old]> (t_flows (tr s)))) (set_no_changes true s)).
Proof.
  destruct Htab as [Hnd Hid]. unfold flow_add. rewrite bool_decide_true by done.
  unfold passert. rewrite (bind_ok _ _ s tt s), (bind_ok _ _ s (t_flows (tr s)) s) by done.
  assert (flow_add_table m (t_flows (tr s)) = Some (<[i := add_new_entry m old]> (t_flows (tr s)))) as ->.
  { destruct (flow_add_table m (t_flows (tr s))) as [fl|] eqn:Hadd.
    - destruct (add_table_cases m _ fl Hov Hadd) as [(j & old' & Hj & Hk & ->)|[Hk _]].
      + assert (i = j) as <-; [|by rewrite Hold in Hj; injection Hj as <-].
        apply (NoDup_lookup _ _ _ (key_of old) Hnd); rewrite list_lookup_fmap; [by rewrite Hold|].
        rewrite Hj. simpl. by rewrite Hk, Hkey.
      + destruct Hk. rewrite <- Hkey. apply list_elem_of_fmap. exists old. split; [done|].
        by apply list_elem_of_lookup_2 in Hold.
    - unfold flow_add_table in Hadd. rewrite decide_False in Hadd by (by intros []).
      by destruct (find_flow _ _). }
  apply same_ids_update; [done|]. apply (insert_same_map _ _ _ old); [done|].
  rewrite add_new_entry_id. rewrite Forall_forall in Hid.
  rewrite (Hid old) by (by apply list_elem_of_lookup_2 in Hold).
  unfold hash_flow_stats. by rewrite add_new_entry_key, Hkey.
Qed.

(** Deleting flows: when the request can be decided for every flow, no flow
    that the request covers is left, nothing is added, and the command fails
    only when a deleted flow asks to be announced - after the deletion.  A
    request that cannot be decided (it has match fields) changes nothing. *)
Theorem flow_delete_removes store m s r s' (Hwf : wf_store store) (Hs : agent_ok store s)
    (Hrun : flow_delete m s = (r, s')) :
  (∀ f, f ∈ t_flows (tr s') → f ∈ t_flows (tr s)) ∧
  match split_flows (λ f, flow_matches_spec f m) (t_flows (tr s)) with
  | Err e => r = Err e ∧ s' = s
  | Ok (_, del) =>
      (∀ f, f ∈ t_flows (tr s') → flow_matches_spec f m = Ok false) ∧
      (r = Ok tt ∨ r = Err NotImplementedError ∧
        ∃ f, f ∈ del ∧ Z.land (fs_flags f) OFPFF_SEND_FLOW_REM ≠ 0)
  end.
Proof.
  unfold flow_delete in Hrun. rewrite (bind_ok _ _ s (t_flows (tr s)) s) in Hrun by done.
  destruct (split_flows _ _) as [[keep del]|e] eqn:Hsp; [|injection Hrun as <- <-; auto].
  apply split_flows_spec in Hsp as (-> & Hdel & Hall). rewrite (bind_ok _ _ s (_, del) s) in Hrun by done.
  set (keep := filter (λ f, flow_matches_spec f m = Ok false) (t_flows (tr s))) in *.
  assert (∀ s1, announce_flows_deleted del s1 = (r, s') → s' = s1 ∧
    (r = Ok tt ∨ r = Err NotImplementedError ∧ ∃ f, f ∈ del ∧ Z.land (fs_flags f) OFPFF_SEND_FLOW_REM ≠ 0)) as Hann.
  { intros s1 Ha. destruct (announce_cases del s1) as [Hc|[Hc Hx]]; rewrite Ha in Hc; simplify_eq; auto. }
  assert (∀ s1, t_flows (tr s1) `sublist_of` keep → announce_flows_deleted del s1 = (r, s') →
    (∀ f, f ∈ t_flows (tr s') → f ∈ t_flows (tr s)) ∧
    (∀ f, f ∈ t_flows (tr s') → flow_matches_spec f m = Ok false) ∧
    (r = Ok tt ∨ r = Err NotImplementedError ∧ ∃ f, f ∈ del ∧ Z.land (fs_flags f) OFPFF_SEND_FLOW_REM ≠ 0)) as Hend.
  { intros s1 Hsub Ha. destruct (Hann s1 Ha) as [-> Hr].
    assert (∀ f, f ∈ t_flows (tr s1) → flow_matches_spec f m = Ok false ∧ f ∈ t_flows (tr s)) as Hin.
    { intros f Hf. eapply elem_of_sublist in Hf; [|done]. by apply list_elem_of_filter in Hf. }
    split_and!; [apply Hin..|done]. }
  destruct del as [|f del].
  - apply (Hend s); [|done].
    assert (keep = t_flows (tr s)) as ->; [|done]. unfold keep. clear -Hdel Hall.
    induction (t_flows (tr s)) as [|f l IH]; [done|]. rewrite filter_cons in *.
    destruct (flow_matches_spec f m) as [[]|e] eqn:Hf.
    + by rewrite decide_True in Hdel.
    + rewrite decide_True by done. f_equal. rewrite decide_False in Hdel by done. apply IH; [done|]. set_solver.
    + destruct (Hall f ltac:(set_solver)) as [b Hb]. by rewrite Hf in Hb.
  - unfold mbind, M_bind in Hrun. pose proof (proxy_update_ok Hwf keep s Hs) as Hok.
    destruct (flows_proxy_update keep s) as [[[]|e] s1]; [|done]. apply (Hend s1); [apply Hok|exact Hrun].
Qed.

(** ** Groups *)
Definition group_id_of (g : ofp_group_entry) : Z := gd_group_id (ge_desc g).

(** A dictionary of groups keyed by their ids. *)
Definition keyed (d : odict Z ofp_group_entry) : Prop :=
  NoDup d.*1 ∧ ∀ k g, (k, g) ∈ d → group_id_of g = k.

Lemma groups_by_id_keyed groups : keyed (groups_by_id groups).
Proof.
  split; [apply od_of_list_NoDup|]. intros k g Hin.
  apply od_get_in in Hin; [|apply od_of_list_NoDup]. unfold groups_by_id in Hin.
  by destruct (od_get_of_list_Some _ _ _ _ Hin).
Qed.

Lemma keyed_ids d : keyed d → NoDup (group_id_of <$> od_values d).
Proof.
  intros [Hnd Hk]. assert (group_id_of <$> od_values d = d.*1) as ->; [|done].
  unfold od_values. rewrite <- list_fmap_compose. apply list_fmap_ext. intros i [k g] Hi.
  simpl. apply Hk. by apply list_elem_of_lookup_2 in Hi.
Qed.

Lemma keyed_set d m : keyed d → keyed (od_set (gm_group_id m) (group_entry_from_group_mod m) d).
Proof.
  intros [Hnd Hk]. split; [auto with voltha|]. intros k g Hin.
  apply od_get_in in Hin; [|auto with voltha]. rewrite od_get_set in Hin.
  case_decide; [by injection Hin as <-|]. apply Hk. by apply od_get_Some_in.
Qed.

Lemma keyed_del d id : keyed d → keyed (od_del id d).
Proof.
  intros [Hnd Hk]. split; [auto with voltha|]. intros k g [_ Hin]%list_elem_of_filter. by apply Hk.
Qed.

Lemma groups_after fl s r s' gs :
  t_groups (tr s) = gs → flows_proxy_update fl s = (r, s') → t_groups (tr s') = gs.
Proof.
  intros Hg Hrun. pose proof (flows_update_frame (λ s, t_groups (tr s) = gs)
    ltac:(split; by intros) (S (length fl)) fl s Hg) as Hf.
  unfold flows_proxy_update in Hrun. rewrite Hrun in Hf. by destruct r.
Qed.

(** Group ids stay unique: any group-mod leaves a group table without two
    groups of one id, whatever flow updates it triggers. *)
Theorem group_ids_unique m s r s'
    (Huniq : NoDup (group_id_of <$> t_groups (tr s)))
    (Hrun : update_group_table m s = (r, s')) :
  NoDup (group_id_of <$> t_groups (tr s')).
Proof.
  pose proof (groups_by_id_keyed (t_groups (tr s))) as Hk.
  assert (∀ d r s1, keyed d → groups_proxy_update (od_values d) s = (r, s1) →
            NoDup (group_id_of <$> t_groups (tr s1))) as Hu.
  { intros d r1 s1 Hd Hr. rewrite (groups_update_stores _ _ _ _ Hr). by apply keyed_ids. }
  unfold update_group_table in Hrun. repeat case_decide; [| | |by injection Hrun as <- <-].
  - unfold group_delete in Hrun. rewrite (bind_ok _ _ s (t_groups (tr s)) s) in Hrun by done.
    case_decide; [by eapply (Hu []); [|done]; split; [constructor|]; intros k g ?%elem_of_nil|].
    destruct (od_mem _ _); [|by injection Hrun as <- <-].
    rewrite (bind_ok _ _ s (t_flows (tr s)) s) in Hrun by done.
    unfold flows_delete_by_group_id in Hrun. rewrite split_flows_pure in Hrun.
    set (del := filter (λ f, _ = true) _) in Hrun. set (keep := filter (λ f, _ = false) _) in Hrun.
    unfold mbind, M_bind, mret, M_ret in Hrun. cbn [lift] in Hrun.
    pose proof (announce_spec (λ s1, s1 = s) del s eq_refl) as Ha.
    destruct (announce_flows_deleted del s) as [[[]|e] s1]; [subst s1|injection Hrun as <- <-; by destruct Ha as [_ ->]].
    destruct (groups_proxy_update (od_values (od_del _ _)) s) as [[[]|e] s1] eqn:Hg.
    + assert (NoDup (group_id_of <$> t_groups (tr s1))) as Hn by (eapply Hu; [by apply keyed_del|done]).
      simpl in Hrun. destruct del; [by injection Hrun as <- <-|].
      by rewrite (groups_after _ _ _ _ _ eq_refl Hrun).
    + injection Hrun as <- <-. eapply Hu; [by apply keyed_del|done].
  - unfold group_add, mbind, M_bind, gets in Hrun.
    destruct (od_mem _ _); [by injection Hrun as <- <-|]. eapply Hu; [by apply keyed_set|done].
  - unfold group_modify, mbind, M_bind, gets in Hrun.
    destruct (od_mem _ _); [|by injection Hrun as <- <-]. eapply Hu; [by apply keyed_set|done].
Qed.

(** Deleting a group deletes what refers to it: unless a flow that outputs
    to the group asks to be announced (then the command raises and changes
    nothing), the command succeeds, the group is gone and no flow of the table
    outputs to it. *)
Theorem group_delete_removes store m s r s' (Hwf : wf_store store) (Hs : agent_ok store s)
    (Hall : gm_group_id m ≠ OFPG_ALL)
    (Hin : gm_group_id m ∈ group_id_of <$> t_groups (tr s))
    (Hrun : group_delete m s = (r, s')) :
  (r = Err NotImplementedError ∧ s' = s ∧
   ∃ f, f ∈ t_flows (tr s) ∧ flow_has_out_group f (gm_group_id m) = true ∧
     Z.land (fs_flags f) OFPFF_SEND_FLOW_REM ≠ 0) ∨
  (r = Ok tt ∧ gm_group_id m ∉ group_id_of <$> t_groups (tr s') ∧
   ∀ f, f ∈ t_flows (tr s') → flow_has_out_group f (gm_group_id m) = false).
Proof.
  unfold group_delete in Hrun. rewrite (bind_ok _ _ s (t_groups (tr s)) s) in Hrun by done.
  rewrite decide_False in Hrun by done.
  set (id := gm_group_id m) in *. set (groups := groups_by_id (t_groups (tr s))) in *.
  pose proof (groups_by_id_keyed (t_groups (tr s))) as Hk.
  assert (od_mem id groups = true) as Hmem.
  { apply list_elem_of_fmap in Hin as (g & -> & Hg). apply od_mem_true. unfold groups, groups_by_id.
    by apply od_of_list_keys. }
  rewrite Hmem in Hrun. rewrite (bind_ok _ _ s (t_flows (tr s)) s) in Hrun by done.
  unfold flows_delete_by_group_id in Hrun. rewrite split_flows_pure in Hrun.
  set (del := filter (λ f, flow_has_out_group f id = true) (t_flows (tr s))) in Hrun.
  set (keep := filter (λ f, flow_has_out_group f id = false) (t_flows (tr s))) in Hrun.
  unfold mbind, M_bind, mret, M_ret in Hrun. cbn [lift] in Hrun.
  destruct (announce_cases del s) as [Ha|(Ha & f & Hf & Hflag)]; rewrite Ha in Hrun.
  2:{ left. injection Hrun as <- <-. split_and!; [done..|]. exists f.
      apply list_elem_of_filter in Hf as [??]. auto. }
  right. pose proof (groups_update_spec Hwf (od_values (od_del id groups)) (t_flows (tr s)) s (conj Hs (reflexivity _))) as Hgu.
  destruct (groups_proxy_update (od_values (od_del _ _)) s) as [[[]|e] s1] eqn:Hg; [|done]. destruct Hgu as [Hs1 Hsub].
  assert (id ∉ group_id_of <$> t_groups (tr s1)) as Hgone.
  { rewrite (groups_update_stores _ _ _ _ Hg). intros (g & Hid & Hgin)%list_elem_of_fmap.
    apply list_elem_of_fmap in Hgin as ([k g'] & -> & Hgin).
    pose proof (proj2 (keyed_del _ id Hk) _ _ Hgin) as Hkey.
    apply list_elem_of_filter in Hgin as [Hne _]. simpl in *. congruence. }
  simpl in Hrun. destruct del as [|f l] eqn:Hdel.
  - injection Hrun as <- <-. split_and!; [done..|]. intros f Hf.
    eapply elem_of_sublist in Hf; [|done]. destruct (flow_has_out_group f id) eqn:Ho; [|done].
    assert (f ∈ filter (λ f, flow_has_out_group f id = true) (t_flows (tr s))) as Hfd
      by (by apply list_elem_of_filter).
    fold del in Hfd. rewrite Hdel in Hfd. by apply elem_of_nil in Hfd.
  - pose proof (proxy_update_ok Hwf keep s1 Hs1) as Hpu. rewrite Hrun in Hpu.
    destruct r as [[]|]; [|done]. split_and!; [done|by rewrite (groups_after _ _ _ _ _ eq_refl Hrun)|].
    intros f' Hf'. destruct Hpu as [_ Hpu]. eapply elem_of_sublist in Hf'; [|done].
    by apply list_elem_of_filter in Hf' as [? _].
Qed.

(** A failure while the default rules are generated sticks: the routes are
    already cached, so the next request does not try again but reads rules
    that were never computed - Python's [None], or no attribute at all - until
    a port is added or removed. *)
Theorem failed_defaults_stick s g routes e
    (Hcold : c_routes (ca s) = None)
    (Hroutes : compute_routes (t_devices (tr s)) (t_ports (tr s)) = Ok (g, routes))
    (Hfail : generate_default_rules (t_devices (tr s)) (t_root_device_id (tr s)) g = Err e) :
  ∃ s1, agent_get_all_default_rules s = (Err e, s1) ∧
    agent_get_all_default_rules s1 =
      (match c_default_rules (ca s) with Some d => Ok d | None => Err AttributeError end, s1).
Proof.
  exists (set_ca (set_routes routes) s). unfold agent_get_all_default_rules, assure_cached_tables_up_to_date.
  split.
  - unfold mbind, M_bind, gets, lift. rewrite Hcold, Hroutes. simpl. by rewrite Hfail.
  - unfold mbind, M_bind, gets. simpl. by destruct (c_default_rules (ca s)).
Qed.

(** ** Ports *)
Lemma find_port_spec id ps i p : find_port id ps = Some (i, p) → ps !! i = Some p ∧ lp_id p = id.
Proof. intros (Hl & Hid & _)%list_find_Some. done. Qed.

(** The update of a watched port, whatever it changes. *)
Lemma port_update_ok p i old s :
  find_port (lp_id p) (t_ports (tr s)) = Some (i, old) → port_proxy s !! lp_id p = Some 1%nat →
  ∃ s', port_proxy_update p s = (Ok tt, s') ∧ t_ports (tr s') = <[i := p]> (t_ports (tr s)) ∧
    events s' = events s ++ (if decide (lp_ofp_port old = lp_ofp_port p) then []
                             else [PortChange OFPPR_MODIFY (lp_ofp_port p)]).
Proof.
  intros Hf Hp. destruct (find_port_spec _ _ _ _ Hf) as [Hi Hid].
  unfold port_proxy_update. rewrite (bind_ok _ _ s (t_ports (tr s)) s), Hf by done.
  cbn [from_some]. erewrite bind_ok by done. cbn beta iota.
  rewrite (bind_ok _ _ s (port_proxy s) s), Hp by done. simpl default. unfold pre_port_callbacks.
  set (b := bool_decide (lp_ofp_port old ≠ lp_ofp_port p)).
  set (s1 := set_changed (insert (lp_id p) b) s).
  assert (pre_port_changed p s = (Ok tt, s1)) as Hpre.
  { unfold pre_port_changed, mbind, M_bind, gets. rewrite Hp. simpl. rewrite Hf. done. }
  rewrite (bind_ok _ _ _ _ _ Hpre). case_decide as Heq.
  - subst old. exists s1. split_and!; [done|by rewrite list_insert_id|].
    simpl. rewrite decide_True by done. by rewrite app_nil_r.
  - rewrite (bind_ok _ _ s1 tt (set_tr (set_ports (<[i := p]> (t_ports (tr s)))) s1)) by done.
    unfold swallow, port_changed, mbind, M_bind, gets. simpl. rewrite lookup_insert_eq. simpl.
    unfold b. destruct (decide (lp_ofp_port old = lp_ofp_port p)) as [He|He].
    + rewrite bool_decide_false by (intros H; by apply H). eexists. split_and!; [done..|]. by rewrite app_nil_r.
    + rewrite bool_decide_true by done. simpl. by eexists.
Qed.

Lemma set_config_same c p : p = set_config c p ↔ c = op_config p.
Proof. destruct p; unfold set_config; simpl. split; congruence. Qed.

Lemma set_lp_config_id c p : lp_id (set_lp_config c p) = lp_id p.
Proof. done. Qed.

(** Enabling and disabling a watched port: the port's PORT_DOWN bit becomes
    the one asked for, every other bit of its configuration and every other
    port stays as it was, and exactly one change event is sent when the
    configuration changed, none otherwise. *)
Theorem port_up_down id i p s (down : bool)
    (Hport : find_port id (t_ports (tr s)) = Some (i, p))
    (Hwatch : port_proxy s !! id = Some 1%nat) :
  let c := op_config (lp_ofp_port p) in
  ∃ s' c', (if down then port_disable id else port_enable id) s = (Ok tt, s') ∧
    Z.testbit c' 0 = down ∧ (∀ n, 0 < n → Z.testbit c' n = Z.testbit c n) ∧
    t_ports (tr s') = <[i := set_lp_config c' p]> (t_ports (tr s)) ∧
    events s' = events s ++ (if decide (c' = c) then []
                             else [PortChange OFPPR_MODIFY (set_config c' (lp_ofp_port p))]).
Proof.
  intros c. destruct (find_port_spec _ _ _ _ Hport) as [Hi Hid].
  assert (get_watched_port id s = (Ok p, s)) as Hget.
  { unfold get_watched_port, mbind, M_bind, gets. rewrite Hwatch. simpl. by rewrite Hport. }
  assert (∀ c', ∃ s', port_proxy_update (set_lp_config c' p) s = (Ok tt, s') ∧
    t_ports (tr s') = <[i := set_lp_config c' p]> (t_ports (tr s)) ∧
    events s' = events s ++ (if decide (c' = c) then []
                             else [PortChange OFPPR_MODIFY (set_config c' (lp_ofp_port p))])) as Hupd.
  { intros c'. destruct (port_update_ok (set_lp_config c' p) i p s) as (s' & Hrun & Hps & Hev);
      rewrite ?set_lp_config_id, ?Hid; [done..|].
    exists s'. split_and!; [done..|]. rewrite Hev. simpl.
    pose proof (set_config_same c' (lp_ofp_port p)). repeat case_decide; tauto. }
  assert (∀ n, 0 < n → Z.testbit 1 n = false) as H1.
  { intros n Hn. change 1 with (2 ^ 0). rewrite Z.pow2_bits_eqb by lia. apply Z.eqb_neq. lia. }
  destruct down.
  - destruct (Hupd (Z.lor (Z.land c (Z.lnot OFPPC_PORT_DOWN)) OFPPC_PORT_DOWN)) as (s' & Hrun & Hps & Hev).
    exists s', (Z.lor (Z.land c (Z.lnot OFPPC_PORT_DOWN)) OFPPC_PORT_DOWN). split_and!; [| | |done..].
    + unfold port_disable. by rewrite (bind_ok _ _ _ _ _ Hget).
    + rewrite Z.lor_spec. change (Z.testbit OFPPC_PORT_DOWN 0) with true. apply orb_true_r.
    + intros n Hn. unfold OFPPC_PORT_DOWN. rewrite Z.lor_spec, Z.land_spec, Z.lnot_spec, H1 by lia.
      by rewrite andb_true_r, orb_false_r.
  - destruct (Hupd (Z.land c (Z.lnot OFPPC_PORT_DOWN))) as (s' & Hrun & Hps & Hev).
    exists s', (Z.land c (Z.lnot OFPPC_PORT_DOWN)). split_and!; [| | |done..].
    + unfold port_enable. by rewrite (bind_ok _ _ _ _ _ Hget).
    + rewrite Z.land_spec, Z.lnot_spec by lia. change (Z.testbit OFPPC_PORT_DOWN 0) with true. apply andb_false_r.
    + intros n Hn. unfold OFPPC_PORT_DOWN. rewrite Z.land_spec, Z.lnot_spec, H1 by lia. by rewrite andb_true_r.
Qed.

End properties.

(** ** The sample network under an agent *)
Section sample_agent.
Local Open Scope string_scope.
#[local] Existing Instances sample_digest ref_path plain_order.

Definition sample_tree (fl : list ofp_flow_stats) (gs : list ofp_group_entry) : tree :=
  Tree fl gs [nni_lp; uni_lp] "olt" sample_store ∅ ∅.

Definition sample_agent (fl : list ofp_flow_stats) (gs : list ofp_group_entry) : lda :=
  init (sample_tree fl gs).

Definition trap_mod (acts : list ofp_action) : ofp_flow_mod :=
  mk_simple_flow_mod [in_port 101; vlan_vid 0x1000; eth_type 0x888e] acts OFPFC_ADD None (kw 1000 7).

Definition delete_all_mod : ofp_flow_mod :=
  FlowMod 0 0 OFPTT_ALL OFPFC_DELETE 0 0 0 0 0xffffffff 0xffffffff 0 (Match OFPMT_OXM []) [].

Definition group_flow : ofp_flow_stats :=
  mk_flow_stat 600 11 [in_port 0; vlan_vid 0x1065] [OpenFlow.group 5].

Definition group_5 : ofp_group_entry :=
  group_entry_from_group_mod (mk_multicast_group_mod 5 [Bucket 0 0 0 [pop_vlan; output 101]] OFPGC_ADD).

Lemma sample_agent_ok fl gs : agent_ok sample_store (sample_agent fl gs).
Proof. apply (init_ok (sample_tree fl gs)). intros dev l f Hl. simpl in Hl. by rewrite lookup_empty in Hl. Qed.

Lemma sample_ports_numbered : ports_numbered sample_store.
Proof.
  intros id d ps [(_ & _ & ->)|(_ & _ & ->)]%sample_store_cases; apply (bool_decide_unpack _); by vm_compute.
Qed.

Lemma tables_stay_on_devices_witness :
  agent_ok sample_store (sample_agent [] []) ∧
  (∀ m : ofp_flow_mod, triple (agent_ok sample_store) (update_flow_table m)
     (λ _ s, agent_ok sample_store s ∧ tables_cross sample_store s)
     (λ e s, e ≠ OutOfFuel ∧ agent_ok sample_store s ∧ tables_cross sample_store s)).
Proof.
  pose proof (tables_stay_on_devices sample_store sample_store_wf sample_ports_numbered) as (H1 & H2 & _).
  split; [by apply H1|exact H2].
Defined.

(** A flow to a port that does not exist: the table is left empty, and the
    agent has no route for it. *)
Definition lost_flow : ofp_flow_stats := mk_flow_stat 700 9 [in_port 101] [output 77].

Lemma flows_update_total_witness :
  ∃ s', flows_proxy_update [lost_flow; trap_flow] (sample_agent [] []) = (Ok tt, s') ∧
    t_flows (tr s') = [trap_flow] ∧
    ∃ f' i o, f' ∈ [lost_flow; trap_flow] ∧ key_of f' = key_of lost_flow ∧ get_in_port f' = Ok i ∧
      destination (group_map_of (t_groups (tr s'))) f' o ∧ agent_get_route i o s' = (Ok None, s').
Proof.
  pose proof (flows_update_total sample_store [lost_flow; trap_flow] (sample_agent [] [])
    sample_store_wf (sample_agent_ok [] [])) as (s' & Hrun & _ & _ & Hlost).
  exists s'. split; [exact Hrun|].
  assert (t_flows (tr (flows_proxy_update [lost_flow; trap_flow] (sample_agent [] [])).2) = [trap_flow]) as Ht
    by (vm_compute; reflexivity).
  rewrite Hrun in Ht. cbn [snd] in Ht. split; [exact Ht|]. apply (Hlost lost_flow); [apply list_elem_of_here|].
  rewrite Ht. apply (bool_decide_unpack _). vm_compute. exact I.
Defined.

Definition sample_decomposed : result (option device_rules) * lda :=
  @decompose_rules _ _ lda (agent_ops (flows_update 1)) [trap_flow] []
    (set_tr (set_flows [trap_flow]) (set_no_changes false (sample_agent [] []))).

Definition sample_dr : device_rules :=
  match sample_decomposed with (Ok (Some dr), _) => dr | _ => ∅ end.

Lemma device_tables_in_step_witness :
  ∃ s', flows_proxy_update [trap_flow] (sample_agent [] []) = (Ok tt, s') ∧
    t_flows (tr s') = [trap_flow] ∧
    ∀ dev,
      t_dev_flows (tr s') !! dev =
        match sample_dr !! dev with Some (dfl, _) => Some (od_values dfl) | None => None end ∧
      t_dev_groups (tr s') !! dev =
        match sample_dr !! dev with Some (_, dgr) => Some (od_values dgr) | None => None end.
Proof.
  assert (sample_decomposed = (Ok (Some sample_dr), sample_decomposed.2)) as Hdec
    by (vm_compute; reflexivity).
  apply (device_tables_in_step [trap_flow] (sample_agent [] []) sample_dr sample_decomposed.2).
  - reflexivity.
  - reflexivity.
  - apply (bool_decide_unpack _). vm_compute. exact I.
  - exact Hdec.
  - vm_compute. reflexivity.
  - assert (dom sample_dr ⊆ dom sample_store) as Hd
      by (apply (bool_decide_unpack _); vm_compute; exact I).
    intros dev Hdev. apply elem_of_dom, Hd, elem_of_dom, Hdev.
Defined.

Lemma trap_table_wf : table_wf [trap_flow].
Proof. split; [apply NoDup_singleton|]. by apply Forall_singleton. Qed.

Lemma flow_table_wf_witness :
  table_wf (t_flows (tr (update_flow_table (trap_mod [output 0xfffffffd]) (sample_agent [] [])).2)).
Proof.
  destruct (update_flow_table (trap_mod [output 0xfffffffd]) (sample_agent [] [])) as [r s'] eqn:Hrun.
  apply (flow_table_wf (trap_mod [output 0xfffffffd]) (sample_agent [] []) r s').
  - reflexivity.
  - split; constructor.
  - exact Hrun.
Defined.

(** The same match with another action: stored, not pushed. *)
Lemma flow_add_existing_witness :
  key_of trap_flow = key_of (flow_stats_entry_from_flow_mod_message (trap_mod [output 7])) ∧
  flow_add (trap_mod [output 7]) (sample_agent [trap_flow] []) =
    (Ok tt, set_tr (set_flows [add_new_entry (trap_mod [output 7]) trap_flow])
              (set_no_changes true (sample_agent [trap_flow] []))).
Proof.
  split; [reflexivity|].
  apply (flow_add_existing (trap_mod [output 7]) (sample_agent [trap_flow] []) 0 trap_flow);
    try reflexivity. apply trap_table_wf.
Defined.

Lemma flow_delete_removes_witness :
  (∀ f, f ∈ t_flows (tr (flow_delete delete_all_mod (sample_agent [trap_flow] [])).2) → f ∈ [trap_flow]) ∧
  (∀ f, f ∈ t_flows (tr (flow_delete delete_all_mod (sample_agent [trap_flow] [])).2) →
     flow_matches_spec f delete_all_mod = Ok false).
Proof.
  destruct (flow_delete delete_all_mod (sample_agent [trap_flow] [])) as [r s'] eqn:Hrun.
  pose proof (flow_delete_removes sample_store delete_all_mod (sample_agent [trap_flow] []) r s'
    sample_store_wf (sample_agent_ok _ _) Hrun) as [H1 H2].
  split; [exact H1|].
  assert (split_flows (λ f, flow_matches_spec f delete_all_mod) (t_flows (tr (sample_agent [trap_flow] [])))
    = Ok ([], [trap_flow])) as Hsp by (vm_compute; reflexivity).
  rewrite Hsp in H2. exact (proj1 H2).
Defined.

Lemma group_ids_unique_witness :
  NoDup (group_id_of <$> t_groups (tr (update_group_table
    (mk_multicast_group_mod 6 [] OFPGC_ADD) (sample_agent [] [group_5])).2)).
Proof.
  destruct (update_group_table (mk_multicast_group_mod 6 [] OFPGC_ADD) (sample_agent [] [group_5]))
    as [r s'] eqn:Hrun.
  apply (group_ids_unique (mk_multicast_group_mod 6 [] OFPGC_ADD) (sample_agent [] [group_5]) r s');
    [apply NoDup_singleton|exact Hrun].
Defined.

Lemma group_delete_removes_witness :
  let s := sample_agent [group_flow] [group_5] in
  let m := mk_multicast_group_mod 5 [] OFPGC_DELETE in
  let '(r, s') := group_delete m s in
  (r = Err NotImplementedError ∧ s' = s ∧
   ∃ f, f ∈ t_flows (tr s) ∧ flow_has_out_group f 5 = true ∧
     Z.land (fs_flags f) OFPFF_SEND_FLOW_REM ≠ 0) ∨
  (r = Ok tt ∧ (5 ∉ group_id_of <$> t_groups (tr s')) ∧
   ∀ f, f ∈ t_flows (tr s') → flow_has_out_group f 5 = false).
Proof.
  intros s m. destruct (group_delete m s) as [r s'] eqn:Hrun.
  apply (group_delete_removes sample_store m s r s' sample_store_wf (sample_agent_ok _ _)).
  - discriminate.
  - apply list_elem_of_singleton. reflexivity.
  - exact Hrun.
Defined.

(** An ONU that has reported its PON port but no UNI yet. *)
Definition early_tree : tree :=
  Tree [] [] [nni_lp] "olt" {[ "olt" := (olt, [olt_nni; olt_pon]); "onu" := (onu, [onu_pon]) ]} ∅ ∅.

Definition early_routes : graph * routes_map :=
  match compute_routes (t_devices early_tree) (t_ports early_tree) with
  | Ok p => p | Err _ => (empty_graph, ∅) end.

Lemma failed_defaults_stick_witness :
  ∃ s1, agent_get_all_default_rules (init early_tree) = (Err IndexError, s1) ∧
    agent_get_all_default_rules s1 = (Err AttributeError, s1).
Proof.
  apply (failed_defaults_stick (init early_tree) early_routes.1 early_routes.2 IndexError).
  - reflexivity.
  - vm_compute. reflexivity.
  - vm_compute. reflexivity.
Defined.

Lemma port_up_down_witness :
  let s := (port_added uni_lp (sample_agent [] [])).2 in
  ∃ s' c', port_disable "uni" s = (Ok tt, s') ∧
    Z.testbit c' 0 = true ∧ (∀ n, 0 < n → Z.testbit c' n = Z.testbit 0 n) ∧
    t_ports (tr s') = <[1%nat := set_lp_config c' uni_lp]> (t_ports (tr s)) ∧
    events s' = (events s ++ (if decide (c' = 0) then []
                              else [PortChange OFPPR_MODIFY (set_config c' (lp_ofp_port uni_lp))]))%list.
Proof.
  intros s. apply (port_up_down "uni" 1 uni_lp s true); vm_compute; reflexivity.
Defined.

End sample_agent.
