(* ===== verification/DeviceAgent.v ===== *)
(** * The device agent

    The class [DeviceAgent] of src/voltha/core/device_agent.py, which stands
    between a device node of the configuration tree and its adapter: the admin
    state machine, the flow and group tables, image downloads.

    Device messages are mutable objects the tree, the agent and the adapter
    share: the tree hands the object it has just committed to the POST_UPDATE
    callback, and the agent writes to it.  The state therefore has a heap of
    device objects, and the tree and [last_data] hold references.

    A method decorated with [inlineCallbacks] returns a Deferred: an exception
    in it becomes a failure of that Deferred, which a caller that does not
    yield it never sees ([deferred]).  The adapter's calls are logged; what
    they return is a parameter, and the Deferreds they return are taken to
    have fired. *)
From S2P Require Import Prelude OpenFlow Devices Sample.
From stdpp Require Import base gmap list strings.
From Stdlib Require Import ZArith Lia.

Local Open Scope Z_scope.

(** ** Images *)
Module ImageDownload.
Inductive state := DOWNLOAD_UNKNOWN | DOWNLOAD_SUCCEEDED | DOWNLOAD_REQUESTED
  | DOWNLOAD_STARTED | DOWNLOAD_FAILED | DOWNLOAD_UNSUPPORTED.
Inductive activate_state := IMAGE_UNKNOWN | IMAGE_INACTIVE | IMAGE_ACTIVATE
  | IMAGE_ACTIVE | IMAGE_REVERT.

#[global] Instance state_eq_dec : EqDecision state.
Proof. solve_decision. Defined.
#[global] Instance activate_state_eq_dec : EqDecision activate_state.
Proof. solve_decision. Defined.

Record t := Mk {
  name : string;
  url : string;
  dl_state : state;
  image_state : activate_state;
}.

#[global] Instance eq_dec : EqDecision t.
Proof. solve_decision. Defined.

Definition set_state (s : state) (i : t) : t := Mk (name i) (url i) s (image_state i).
Definition set_image_state (s : activate_state) (i : t) : t := Mk (name i) (url i) (dl_state i) s.
End ImageDownload.

(** ** State *)
Definition ref : Type := nat.

(** Calls made to the adapter agent, and to the xPON agent. *)
Inductive call :=
  | adopt_device (d : Device)
  | reconcile_device (d : Device)
  | disable_device (d : Device)
  | reenable_device (d : Device)
  | delete_device (d : Device)
  | reboot_device_call (d : Device)
  | self_test_call (d : Device)
  | get_device_details_call (d : Device)
  | replay_interface (id : string)
  | update_flows_bulk (d : Device) (fl : list ofp_flow_stats) (gs : list ofp_group_entry)
  | update_flows_incrementally (d : Device) (to_add to_remove : list ofp_flow_stats)
  | update_adapter_pm_config (id : string) (cfg : string)
  | download_image (d : Device) (i : ImageDownload.t)
  | activate_image (d : Device) (i : ImageDownload.t)
  | revert_image (d : Device) (i : ImageDownload.t)
  | cancel_image (d : Device) (i : ImageDownload.t)
  | image_status (d : Device) (i : ImageDownload.t)
  | suppress (filter : string)
  | unsuppress (filter : string).

Record DeviceType := MkDeviceType {
  accepts_bulk_flow_update : bool;
  accepts_add_remove_flow_updates : bool;
}.

Record da := Da {
  heap : gmap ref Device;
  tree_ref : ref;
  last_data : option ref;
  validating : bool;    (* _validate_update registered *)
  processing : bool;    (* _process_update registered *)
  d_flows : list ofp_flow_stats;
  d_groups : list ofp_group_entry;
  flow_changes : option (list ofp_flow_stats * list ofp_flow_stats);
  pm_configs : string;
  callback_data : option (option bool);   (* outer None: no such attribute *)
  images : gmap string ImageDownload.t;
  img_dnld_proxies : gset string;
  calls : list call;
}.

Definition set_heap (h : gmap ref Device) (s : da) : da :=
  Da h (tree_ref s) (last_data s) (validating s) (processing s) (d_flows s) (d_groups s)
    (flow_changes s) (pm_configs s) (callback_data s) (images s) (img_dnld_proxies s) (calls s).
Definition set_tree_ref (r : ref) (s : da) : da :=
  Da (heap s) r (last_data s) (validating s) (processing s) (d_flows s) (d_groups s)
    (flow_changes s) (pm_configs s) (callback_data s) (images s) (img_dnld_proxies s) (calls s).
Definition set_last_data (r : option ref) (s : da) : da :=
  Da (heap s) (tree_ref s) r (validating s) (processing s) (d_flows s) (d_groups s)
    (flow_changes s) (pm_configs s) (callback_data s) (images s) (img_dnld_proxies s) (calls s).
Definition set_registered (b : bool) (s : da) : da :=
  Da (heap s) (tree_ref s) (last_data s) b b (d_flows s) (d_groups s)
    (flow_changes s) (pm_configs s) (callback_data s) (images s) (img_dnld_proxies s) (calls s).
Definition set_d_flows (fl : list ofp_flow_stats) (s : da) : da :=
  Da (heap s) (tree_ref s) (last_data s) (validating s) (processing s) fl (d_groups s)
    (flow_changes s) (pm_configs s) (callback_data s) (images s) (img_dnld_proxies s) (calls s).
Definition set_d_groups (gs : list ofp_group_entry) (s : da) : da :=
  Da (heap s) (tree_ref s) (last_data s) (validating s) (processing s) (d_flows s) gs
    (flow_changes s) (pm_configs s) (callback_data s) (images s) (img_dnld_proxies s) (calls s).
Definition set_flow_changes (c : list ofp_flow_stats * list ofp_flow_stats) (s : da) : da :=
  Da (heap s) (tree_ref s) (last_data s) (validating s) (processing s) (d_flows s) (d_groups s)
    (Some c) (pm_configs s) (callback_data s) (images s) (img_dnld_proxies s) (calls s).
Definition set_pm (p : string) (s : da) : da :=
  Da (heap s) (tree_ref s) (last_data s) (validating s) (processing s) (d_flows s) (d_groups s)
    (flow_changes s) p (callback_data s) (images s) (img_dnld_proxies s) (calls s).
Definition set_callback_data (c : option bool) (s : da) : da :=
  Da (heap s) (tree_ref s) (last_data s) (validating s) (processing s) (d_flows s) (d_groups s)
    (flow_changes s) (pm_configs s) (Some c) (images s) (img_dnld_proxies s) (calls s).
Definition set_images (m : gmap string ImageDownload.t) (s : da) : da :=
  Da (heap s) (tree_ref s) (last_data s) (validating s) (processing s) (d_flows s) (d_groups s)
    (flow_changes s) (pm_configs s) (callback_data s) m (img_dnld_proxies s) (calls s).
Definition set_img_proxies (p : gset string) (s : da) : da :=
  Da (heap s) (tree_ref s) (last_data s) (validating s) (processing s) (d_flows s) (d_groups s)
    (flow_changes s) (pm_configs s) (callback_data s) (images s) p (calls s).
Definition log_call (c : call) (s : da) : da :=
  Da (heap s) (tree_ref s) (last_data s) (validating s) (processing s) (d_flows s) (d_groups s)
    (flow_changes s) (pm_configs s) (callback_data s) (images s) (img_dnld_proxies s) (calls s ++ [c]).

(** [__init__]: [initial_data] is the object the caller holds, [r0]; the tree
    holds its own, [r1].  The misspelt [calback_data] leaves [callback_data]
    undefined. *)
Definition init (h : gmap ref Device) (r1 : ref) (fl : list ofp_flow_stats)
    (gs : list ofp_group_entry) (pm : string) (im : gmap string ImageDownload.t) : da :=
  Da h r1 None true true fl gs None pm None im ∅ [].

Definition read (r : ref) : M da Device :=
  h ← gets heap; from_some AttributeError (h !! r).

Definition write (r : ref) (f : Device → Device) : M da unit :=
  d ← read r; modify (λ s, set_heap (<[r := f d]> (heap s)) s).

(** A Deferred nobody yields: its failure goes unseen. *)
Definition deferred (m : M da unit) : M da unit := swallow m.

(** What [admin_state_fsm] maps a pair of states to. *)
Inductive handler :=
  | Invalid
  | Activate
  | Propagate
  | Disable
  | Abandon
  | Reenable.

#[export] Instance handler_eq_dec : EqDecision handler.
Proof. solve_decision. Defined.

Definition admin_state_fsm (old new : AdminState.t) : option handler :=
  match old, new with
  | AdminState.UNKNOWN, AdminState.ENABLED => Some Activate
  | AdminState.PREPROVISIONED, AdminState.UNKNOWN => Some Invalid
  | AdminState.PREPROVISIONED, AdminState.ENABLED => Some Activate
  | AdminState.PREPROVISIONED, AdminState.DOWNLOADING_IMAGE => Some Invalid
  | AdminState.ENABLED, AdminState.UNKNOWN => Some Invalid
  | AdminState.ENABLED, AdminState.ENABLED => Some Propagate
  | AdminState.ENABLED, AdminState.DISABLED => Some Disable
  | AdminState.ENABLED, AdminState.PREPROVISIONED => Some Abandon
  | AdminState.DISABLED, AdminState.UNKNOWN => Some Invalid
  | AdminState.DISABLED, AdminState.PREPROVISIONED => Some Abandon
  | AdminState.DISABLED, AdminState.ENABLED => Some Reenable
  | AdminState.DISABLED, AdminState.DOWNLOADING_IMAGE => Some Invalid
  | AdminState.DOWNLOADING_IMAGE, AdminState.DISABLED => Some Invalid
  | _, _ => None
  end.

(** [getattr(self.last_data, 'admin_state', AdminState.UNKNOWN)] *)
Definition old_admin_state (s : da) : AdminState.t :=
  match last_data s ≫= λ r, heap s !! r with
  | Some d => d_admin_state d
  | None => AdminState.UNKNOWN
  end.

(** The outcome of the last call of a log. *)
Class Adapter := {
  outcome : list call → result unit;
  outcome_fuel : ∀ l, outcome l ≠ Err OutOfFuel;
}.

Section agent.
Context `{Adapter} (device_type : DeviceType).

Definition do_call (c : call) : M da unit := λ s,
  let s := log_call c s in (outcome (calls s), s).

(** ** Flow and group tables *)

(** [self.last_data.id], read for a log line *)
Definition read_last : M da Device :=
  o ← gets last_data;
  r ← from_some AttributeError o;
  read r.

Definition ids (fl : list ofp_flow_stats) : gset Z := list_to_set (fs_id <$> fl).

Definition pre_process_flows (flows : list ofp_flow_stats) : M da unit :=
  current ← gets d_flows;
  _ ← read_last;
  let ids_to_add := ids flows ∖ ids current in
  let ids_to_del := ids current ∖ ids flows in
  modify (set_flow_changes
    (filter (λ f, fs_id f ∈ ids_to_add) flows, filter (λ f, fs_id f ∈ ids_to_del) current)).

Definition flow_table_updated (flows : list ofp_flow_stats) : M da unit :=
  d ← read_last;
  oc ← gets flow_changes;
  ch ← from_some AttributeError oc;
  match (ch : list ofp_flow_stats * list ofp_flow_stats) with
  | ([], []) => mret tt
  | (to_add, to_remove) =>
      if accepts_add_remove_flow_updates device_type then
        swallow (do_call (update_flows_incrementally d to_add to_remove))
      else if accepts_bulk_flow_update device_type then
        groups ← gets d_groups;
        do_call (update_flows_bulk d flows groups)
      else raise NotImplementedError
  end.

Definition group_table_updated (groups : list ofp_group_entry) : M da unit :=
  d ← read_last;
  if accepts_bulk_flow_update device_type then
    flows ← gets d_flows;
    do_call (update_flows_bulk d flows groups)
  else raise NotImplementedError.

(** [flows_proxy.update('/', ...)] and [groups_proxy.update('/', ...)] *)
Definition flows_proxy_update (flows : list ofp_flow_stats) : M da unit :=
  _ ← pre_process_flows flows;
  current ← gets d_flows;
  if decide (current = flows) then mret tt
  else
    _ ← modify (set_d_flows flows);
    deferred (flow_table_updated flows).

Definition groups_proxy_update (groups : list ofp_group_entry) : M da unit :=
  current ← gets d_groups;
  if decide (current = groups) then mret tt
  else
    _ ← modify (set_d_groups groups);
    deferred (group_table_updated groups).

(** ** State transitions *)

(** An exception ends in the [except] clause, which calls a method that does
    not exist: [AttributeError] replaces it. *)
Definition delete_all_flows : M da unit := λ s,
  match (_ ← flows_proxy_update []; groups_proxy_update []) s with
  | (Err OutOfFuel, s') => (Err OutOfFuel, s')
  | (Err _, s') => (Err AttributeError, s')
  | r => r
  end.

Definition disable (r : ref) (dry_run : bool) : M da unit :=
  swallow (if dry_run then mret tt
           else
             _ ← delete_all_flows;
             d ← read r;
             do_call (disable_device d)).

Definition reenable (r : ref) (dry_run : bool) : M da unit :=
  if dry_run then mret tt else d ← read r; do_call (reenable_device d).

Definition propagate_change (r : ref) (dry_run : bool) : M da unit := mret tt.

Definition abandon (r : ref) (dry_run : bool) : M da unit := raise NotImplementedError.

Definition delete_dev (r : ref) (dry_run : bool) : M da unit :=
  if dry_run then mret tt else d ← read r; do_call (delete_device d).

(** The adapter is told about flows again once the device is up. *)
Definition replay (r : ref) : M da unit :=
  d ← read r;
  if decide (d_admin_state d = AdminState.ENABLED ∧ d_oper_status d = OperStatus.ACTIVE ∧
             d_connect_status d = ConnectStatus.REACHABLE) then
    _ ← do_call (replay_interface (d_id d));
    if accepts_bulk_flow_update device_type then
      flows ← gets d_flows;
      groups ← gets d_groups;
      do_call (update_flows_bulk d flows groups)
    else mret tt
  else mret tt.

Section with_update.
Context (upd : ref → M da unit).

(** [_activate_device]; [upd] is [update_device], whose Deferred it drops. *)
Definition activate (r : ref) (dry_run : bool) : M da unit :=
  if dry_run then mret tt
  else
    _ ← write r (set_oper_status OperStatus.ACTIVATING);
    _ ← deferred (upd r);
    d ← read r;
    do_call (adopt_device d).

Definition process_state_transitions (r : ref) (dry_run : bool) : M da unit :=
  old ← gets old_admin_state;
  d ← read r;
  match admin_state_fsm old (d_admin_state d) with
  | None => mret tt
  | Some Invalid => raise InvalidStateTransition
  | Some Activate => activate r dry_run
  | Some Propagate => propagate_change r dry_run
  | Some Disable => disable r dry_run
  | Some Abandon => abandon r dry_run
  | Some Reenable => reenable r dry_run
  end.

Definition validate_update (r : ref) : M da unit := process_state_transitions r true.

Definition process_update (r : ref) : M da unit :=
  _ ← process_state_transitions r false;
  modify (set_last_data (Some r)).

(** [proxy.update('/', device)]: the tree compares by value and, when the
    value is new, takes the caller's object. *)
Definition proxy_update (r : ref) : M da unit :=
  v ← gets validating;
  _ ← (if (v : bool) then deferred (validate_update r) else mret tt);
  new ← read r;
  t ← gets tree_ref;
  cur ← read t;
  if decide (cur = new) then mret tt
  else
    _ ← modify (set_tree_ref r);
    p ← gets processing;
    if (p : bool) then deferred (process_update r) else mret tt.

Definition update_device_body (r : ref) : M da unit :=
  _ ← modify (set_last_data (Some r));
  _ ← proxy_update r;
  replay r.

End with_update.

(** [update_device], with as many nested updates as [fuel] allows. *)
Fixpoint update_device (fuel : nat) (r : ref) : M da unit :=
  match fuel with
  | O => raise OutOfFuel
  | S fuel => update_device_body (update_device fuel) r
  end.

(** An update of the device node by another client of the tree. *)
Definition client_update (r : ref) : M da unit := proxy_update (update_device 1) r.

(** ** Starting and stopping *)
Definition start (r0 : ref) (device : option ref) (reconcile : bool) : M da unit :=
  match device with
  | Some r =>
      _ ← modify (set_last_data (Some r));
      if reconcile then d ← read r; deferred (do_call (reconcile_device d)) else mret tt
  | None => process_update (update_device 2) r0
  end.

Definition stop (r : ref) : M da unit :=
  _ ← delete_dev r false;
  modify (set_registered false).

Definition reboot_device (d : Device) (dry_run : bool) : M da unit :=
  if dry_run then mret tt else do_call (reboot_device_call d).
Definition self_test (d : Device) (dry_run : bool) : M da unit :=
  if dry_run then mret tt else do_call (self_test_call d).
Definition get_device_details (d : Device) (dry_run : bool) : M da unit :=
  if dry_run then mret tt else do_call (get_device_details_call d).
Definition suppress_alarm (f : string) : M da unit := swallow (do_call (suppress f)).
Definition unsuppress_alarm (f : string) : M da unit := swallow (do_call (unsuppress f)).

(** ** PM configuration *)
Definition pm_config_updated (cfg : string) : M da unit :=
  t ← gets tree_ref;
  d ← read t;
  o ← gets callback_data;
  cd ← from_some AttributeError o;
  _ ← match (cd : option bool) with
      | Some true => mret tt
      | _ => do_call (update_adapter_pm_config (d_id d) cfg)
      end;
  modify (set_callback_data None).

Definition update_device_pm_config (cfg : string) (init : bool) : M da unit :=
  _ ← modify (set_callback_data (Some init));
  current ← gets pm_configs;
  if decide (current = cfg) then mret tt
  else
    _ ← modify (set_pm cfg);
    swallow (pm_config_updated cfg).

(** An update of the pm_configs node by another client of the tree. *)
Definition client_pm_update (cfg : string) : M da unit :=
  current ← gets pm_configs;
  if decide (current = cfg) then mret tt
  else
    _ ← modify (set_pm cfg);
    swallow (pm_config_updated cfg).

(** ** Image downloads *)
Definition read_tree : M da Device := t ← gets tree_ref; read t.

Definition do_download (d : Device) (i : ImageDownload.t) : M da unit :=
  swallow (do_call (download_image d i)).

Definition update_image (i : ImageDownload.t) : M da unit :=
  swallow (
    _ ← (if decide (ImageDownload.dl_state i = ImageDownload.DOWNLOAD_REQUESTED) then
           d ← read_tree; do_download d i
         else mret tt);
    match ImageDownload.image_state i with
    | ImageDownload.IMAGE_ACTIVATE => d ← read_tree; do_call (activate_image d i)
    | ImageDownload.IMAGE_REVERT => d ← read_tree; do_call (revert_image d i)
    | _ => mret tt
    end).

(** [proxy.update] on the node of an image *)
Definition image_update (i : ImageDownload.t) : M da unit :=
  m ← gets images;
  cur ← from_some KeyError (m !! ImageDownload.name i);
  if decide (cur = i) then mret tt
  else
    _ ← modify (set_images (<[ImageDownload.name i := i]> m));
    p ← gets img_dnld_proxies;
    if decide (ImageDownload.name i ∈ p) then update_image i else mret tt.

Definition register_image_download (i : ImageDownload.t) : M da unit :=
  swallow (
    m ← gets images;
    _ ← from_some KeyError (m !! ImageDownload.name i);
    _ ← modify (λ s, set_img_proxies ({[ImageDownload.name i]} ∪ img_dnld_proxies s) s);
    image_update (ImageDownload.set_state ImageDownload.DOWNLOAD_REQUESTED i)).

(** [self.img_dnld_proxies[request.name].update('/', request)] *)
Definition proxied_update (i : ImageDownload.t) : M da unit :=
  p ← gets img_dnld_proxies;
  if decide (ImageDownload.name i ∈ p) then image_update i else raise KeyError.

Definition activate_image_update (i : ImageDownload.t) : M da unit :=
  swallow (proxied_update (ImageDownload.set_image_state ImageDownload.IMAGE_ACTIVATE i)).
Definition revert_image_update (i : ImageDownload.t) : M da unit :=
  swallow (proxied_update (ImageDownload.set_image_state ImageDownload.IMAGE_REVERT i)).
Definition get_image_download_status (i : ImageDownload.t) : M da unit :=
  swallow (d ← read_tree; do_call (image_status d i)).
Definition cancel_image_download (i : ImageDownload.t) : M da unit :=
  swallow (d ← read_tree; do_call (cancel_image d i)).
Definition update_device_image_download (i : ImageDownload.t) : M da unit :=
  swallow (image_update i).

(** [self.self_proxies] does not exist. *)
Definition unregister_device_image_download (name : string) : M da unit :=
  swallow (raise AttributeError).

End agent.

(** ** Lemmas *)
Section lemmas.
Context `{Adapter} (device_type : DeviceType).

Lemma read_ok r d s : heap s !! r = Some d → read r s = (Ok d, s).
Proof. intros Hr. unfold read, mbind, M_bind, gets. by rewrite Hr. Qed.

Lemma old_state_of s l d : last_data s = Some l → heap s !! l = Some d → old_admin_state s = d_admin_state d.
Proof. intros Hl Hd. unfold old_admin_state. rewrite Hl. simpl. by rewrite Hd. Qed.

Lemma swallow_spec (m : M da unit) s : (m s).1 ≠ Err OutOfFuel → swallow m s = (Ok tt, (m s).2).
Proof. unfold swallow. destruct (m s) as [[[]|e] s']; [done|]. by destruct e. Qed.

Lemma fsm_same a : admin_state_fsm a a = None ∨ admin_state_fsm a a = Some Propagate.
Proof. destruct a; auto. Qed.

(** With the device's own object as the last data, old and new state agree, so
    nothing is propagated back. *)
Lemma transitions_same upd r d dry s :
  last_data s = Some r → heap s !! r = Some d →
  process_state_transitions device_type upd r dry s = (Ok tt, s).
Proof.
  intros Hl Hr. unfold process_state_transitions.
  rewrite (bind_ok _ _ s (d_admin_state d) s) by (unfold gets; by rewrite (old_state_of s r d)).
  rewrite (bind_ok _ _ s d s) by (by apply read_ok).
  by destruct (fsm_same (d_admin_state d)) as [-> | ->].
Qed.

(** A dry run changes nothing, whatever it raises. *)
Lemma transitions_dry upd r s :
  (process_state_transitions device_type upd r true s).2 = s ∧
  (process_state_transitions device_type upd r true s).1 ≠ Err OutOfFuel.
Proof.
  unfold process_state_transitions, mbind, M_bind, gets, read.
  unfold mbind, M_bind, gets. destruct (heap s !! r) as [d|]; simpl; [|done].
  destruct (admin_state_fsm _ _) as [[]|]; done.
Qed.

Lemma validate_deferred upd r s : deferred (validate_update device_type upd r) s = (Ok tt, s).
Proof.
  destruct (transitions_dry upd r s) as [H1 H2]. unfold deferred, validate_update.
  rewrite swallow_spec by done. by rewrite H1.
Qed.

(** The tree write between the two callbacks. *)
Lemma proxy_update_run upd r d dt s :
  heap s !! r = Some d → heap s !! tree_ref s = Some dt →
  proxy_update device_type upd r s =
    if decide (dt = d) then (Ok tt, s)
    else if processing s
         then deferred (process_update device_type upd r) (set_tree_ref r s)
         else (Ok tt, set_tree_ref r s).
Proof.
  intros Hr Ht. unfold proxy_update. rewrite (bind_ok _ _ s (validating s) s) by done.
  assert ((if validating s then deferred (validate_update device_type upd r) else mret tt) s = (Ok tt, s)) as Hv
    by (destruct (validating s); [apply validate_deferred|done]).
  rewrite (bind_ok _ _ _ _ _ Hv), (bind_ok _ _ s d s) by (by apply read_ok).
  rewrite (bind_ok _ _ s (tree_ref s) s), (bind_ok _ _ s dt s) by (done || by apply read_ok).
  case_decide; [done|]. rewrite (bind_ok _ _ s tt (set_tree_ref r s)) by done.
  rewrite (bind_ok _ _ _ (processing s) (set_tree_ref r s)) by done. by destruct (processing s).
Qed.

(** Writing the object that is the last data: stored, not propagated. *)
Lemma proxy_update_last upd r d dt s :
  last_data s = Some r → heap s !! r = Some d → heap s !! tree_ref s = Some dt →
  proxy_update device_type upd r s = (Ok tt, if decide (dt = d) then s else set_tree_ref r s).
Proof.
  intros Hl Hr Ht. rewrite (proxy_update_run upd r d dt) by done. case_decide; [done|].
  destruct (processing s); [|done]. unfold deferred, process_update, swallow.
  rewrite (bind_ok _ _ _ tt (set_tree_ref r s)) by (by eapply transitions_same).
  unfold modify. by destruct s; simpl in *; subst.
Qed.

Lemma pre_process_ok flows l d s :
  last_data s = Some l → heap s !! l = Some d →
  pre_process_flows flows s =
    (Ok tt, set_flow_changes
      (filter (λ f, fs_id f ∈ ids flows ∖ ids (d_flows s)) flows,
       filter (λ f, fs_id f ∈ ids (d_flows s) ∖ ids flows) (d_flows s)) s).
Proof.
  intros Hl Hd. unfold pre_process_flows. rewrite (bind_ok _ _ s (d_flows s) s) by done.
  unfold read_last. erewrite bind_ok; [done|]. rewrite (bind_ok _ _ s (last_data s) s), Hl by done.
  simpl. rewrite (bind_ok _ _ s l s) by done. by apply read_ok.
Qed.

(** What the table callbacks leave alone. *)
Lemma do_call_frame c s : ∃ r, do_call c s = (r, log_call c s) ∧ r ≠ Err OutOfFuel.
Proof. eexists. split; [done|]. apply outcome_fuel. Qed.

Lemma read_last_frame s : ∃ r, read_last s = (r, s) ∧ r ≠ Err OutOfFuel.
Proof.
  unfold read_last, mbind, M_bind, gets. destruct (last_data s) as [l|]; simpl; [|by eexists].
  unfold read, mbind, M_bind, gets. destruct (heap s !! l); by eexists.
Qed.

(** [s'] differs from [s] by calls made and by nothing else. *)
Definition calls_only (s s' : da) : Prop := ∃ l, s' = foldl (λ s c, log_call c s) s l.

Lemma calls_only_refl s : calls_only s s.
Proof. by exists []. Qed.

Lemma calls_only_one c s : calls_only s (log_call c s).
Proof. by exists [c]. Qed.

Lemma calls_only_fields s s' : calls_only s s' →
  heap s' = heap s ∧ tree_ref s' = tree_ref s ∧ last_data s' = last_data s ∧
  d_flows s' = d_flows s ∧ d_groups s' = d_groups s ∧ ∃ l, calls s' = calls s ++ l.
Proof.
  intros [l ->]. revert s. induction l as [|c l IH]; intros s; simpl.
  - split_and!; try done. exists []. by rewrite app_nil_r.
  - destruct (IH (log_call c s)) as (-> & -> & -> & -> & -> & k & ->). split_and!; try done.
    exists (c :: k). simpl. by rewrite <- app_assoc.
Qed.

Lemma flow_table_updated_calls flows s :
  ∃ s', deferred (flow_table_updated device_type flows) s = (Ok tt, s') ∧ calls_only s s'.
Proof.
  assert (∃ r s', flow_table_updated device_type flows s = (r, s') ∧ r ≠ Err OutOfFuel ∧ calls_only s s')
    as (r & s' & Hrun & Hr & Hc).
  { unfold flow_table_updated. destruct (read_last_frame s) as ([d|e] & Hd & He).
    2:{ rewrite (bind_err _ _ _ _ _ Hd). eexists _, _. split_and!; [done|congruence|apply calls_only_refl]. }
    rewrite (bind_ok _ _ _ _ _ Hd), (bind_ok _ _ s (flow_changes s) s) by done.
    destruct (flow_changes s) as [[add rem]|]; simpl; [|by eexists _, _; split_and!; [done|done|apply calls_only_refl]].
    rewrite (bind_ok _ _ s (add, rem) s) by done.
    assert (∃ r s', (if accepts_add_remove_flow_updates device_type
       then swallow (do_call (update_flows_incrementally d add rem))
       else if accepts_bulk_flow_update device_type
            then groups ← gets d_groups; do_call (update_flows_bulk d flows groups)
            else raise NotImplementedError) s = (r, s') ∧ r ≠ Err OutOfFuel ∧ calls_only s s') as Hcase.
    { destruct (accepts_add_remove_flow_updates device_type).
      - rewrite swallow_spec by apply outcome_fuel. eexists _, _. split_and!; [done|done|apply calls_only_one].
      - destruct (accepts_bulk_flow_update device_type).
        + eexists _, _. split_and!; [done|apply outcome_fuel|apply calls_only_one].
        + eexists _, _. split_and!; [done|done|apply calls_only_refl]. }
    destruct add, rem; try done. eexists _, _. split_and!; [done|done|apply calls_only_refl]. }
  exists s'. unfold deferred. rewrite swallow_spec by (by rewrite Hrun). by rewrite Hrun.
Qed.

Lemma group_table_updated_calls groups s :
  ∃ s', deferred (group_table_updated device_type groups) s = (Ok tt, s') ∧ calls_only s s'.
Proof.
  unfold deferred, swallow, group_table_updated, mbind, M_bind, gets.
  destruct (read_last_frame s) as ([d|e] & -> & He).
  - destruct (accepts_bulk_flow_update device_type); simpl.
    + unfold do_call. pose proof (outcome_fuel (calls (log_call (update_flows_bulk d (d_flows s) groups) s))) as Ho.
      destruct (outcome _) as [[]|[]]; try done; (eexists; split; [done|apply calls_only_one]).
    + eexists. split; [done|apply calls_only_refl].
  - destruct e; try done; (eexists; split; [done|apply calls_only_refl]).
Qed.

Lemma flows_update_ok flows l d s :
  last_data s = Some l → heap s !! l = Some d →
  ∃ s', flows_proxy_update device_type flows s = (Ok tt, s') ∧ heap s' = heap s ∧ tree_ref s' = tree_ref s ∧
    last_data s' = last_data s ∧ d_flows s' = flows ∧ d_groups s' = d_groups s.
Proof.
  intros Hl Hd. unfold flows_proxy_update. rewrite (bind_ok _ _ _ _ _ (pre_process_ok flows l d s Hl Hd)).
  erewrite bind_ok by done. simpl. case_decide as Heq; [eexists; by split_and!|].
  erewrite bind_ok by done.
  destruct (flow_table_updated_calls flows (set_d_flows flows (set_flow_changes
    (filter (λ f, fs_id f ∈ ids flows ∖ ids (d_flows s)) flows,
     filter (λ f, fs_id f ∈ ids (d_flows s) ∖ ids flows) (d_flows s)) s))) as (s' & Hrun & Hc).
  exists s'. apply calls_only_fields in Hc as (-> & -> & -> & -> & -> & _). by split_and!.
Qed.

Lemma groups_update_ok groups s :
  ∃ s', groups_proxy_update device_type groups s = (Ok tt, s') ∧ heap s' = heap s ∧ tree_ref s' = tree_ref s ∧
    last_data s' = last_data s ∧ d_flows s' = d_flows s ∧ d_groups s' = groups.
Proof.
  unfold groups_proxy_update. erewrite bind_ok by done. case_decide as Heq; [eexists; by split_and!|].
  erewrite bind_ok by done. destruct (group_table_updated_calls groups (set_d_groups groups s)) as (s' & Hrun & Hc).
  exists s'. apply calls_only_fields in Hc as (-> & -> & -> & -> & -> & _). by split_and!.
Qed.

End lemmas.

(** ** Properties *)

(** Two objects of the tree: the one committed and the one last processed. *)
Definition agent_wf (s : da) : Prop :=
  validating s = true ∧ processing s = true ∧ is_Some (heap s !! tree_ref s) ∧
  ∃ l, last_data s = Some l ∧ is_Some (heap s !! l).

(** What a committed change of the admin state leads to: [s] before and [s']
    after, [r] the new object, [d] its contents. *)
Definition transition_effect `{HA : Adapter} (s s' : da) (r : ref) (d : Device) (h : option handler) : Prop :=
  match h with
  | None | Some Propagate => calls s' = calls s ∧ last_data s' = Some r ∧ heap s' = heap s
  | Some Invalid | Some Abandon => calls s' = calls s ∧ last_data s' = last_data s ∧ heap s' = heap s
  | Some Activate =>
      let d' := set_oper_status OperStatus.ACTIVATING d in
      calls s' = calls s ++ [adopt_device d'] ∧ last_data s' = Some r ∧
      heap s' = <[r := d']> (heap s)
  | Some Reenable =>
      calls s' = calls s ++ [reenable_device d] ∧ heap s' = heap s ∧
      last_data s' = match outcome (calls s') with Ok _ => Some r | Err _ => last_data s end
  | Some Disable =>
      d_flows s' = [] ∧ d_groups s' = [] ∧ last (calls s') = Some (disable_device d) ∧
      last_data s' = Some r ∧ heap s' = heap s
  end.

Section properties.
Context `{HA : Adapter} (device_type : DeviceType).

Lemma activate_run n r d dt s :
  heap s !! r = Some d → tree_ref s = r → heap s !! tree_ref s = Some dt →
  ∃ res, activate (update_device device_type (S n)) r false s =
    (res, log_call (adopt_device (set_oper_status OperStatus.ACTIVATING d))
            (set_last_data (Some r) (set_heap (<[r := set_oper_status OperStatus.ACTIVATING d]> (heap s)) s)))
    ∧ res ≠ Err OutOfFuel.
Proof.
  intros Hr Htr Ht. unfold activate. set (d' := set_oper_status OperStatus.ACTIVATING d).
  set (s1 := set_heap (<[r := d']> (heap s)) s).
  assert (write r (set_oper_status OperStatus.ACTIVATING) s = (Ok tt, s1)) as Hw.
  { unfold write. by rewrite (bind_ok _ _ s d s) by (by apply read_ok). }
  rewrite (bind_ok _ _ _ _ _ Hw).
  assert (heap s1 !! r = Some d') as Hr1 by (simpl; by rewrite lookup_insert_eq).
  set (s2 := set_last_data (Some r) s1).
  assert (deferred (update_device device_type (S n) r) s1 = (Ok tt, s2)) as Hu.
  { unfold deferred, swallow. simpl. unfold update_device_body. erewrite bind_ok by done. fold s2.
    rewrite (bind_ok _ _ s2 tt s2).
    2:{ rewrite (proxy_update_last device_type _ r d' d') by (simpl; by rewrite ?Htr). by rewrite decide_True. }
    unfold replay. rewrite (bind_ok _ _ s2 d' s2) by (by apply read_ok).
    rewrite decide_False; [done|]. simpl. by intros (_ & ? & _). }
  rewrite (bind_ok _ _ _ _ _ Hu), (bind_ok _ _ s2 d' s2) by (by apply read_ok).
  unfold do_call. eexists. split; [done|]. apply outcome_fuel.
Qed.

Lemma disable_run r d l dl s :
  heap s !! r = Some d → last_data s = Some l → heap s !! l = Some dl →
  ∃ s', disable device_type r false s = (Ok tt, s') ∧ heap s' = heap s ∧ tree_ref s' = tree_ref s ∧
    last_data s' = last_data s ∧ d_flows s' = [] ∧ d_groups s' = [] ∧
    last (calls s') = Some (disable_device d).
Proof.
  intros Hr Hl Hdl. unfold disable.
  destruct (flows_update_ok device_type [] l dl s Hl Hdl) as (s1 & H1 & Hh1 & Ht1 & Hl1 & Hf1 & _).
  destruct (groups_update_ok device_type [] s1) as (s2 & H2 & Hh2 & Ht2 & Hl2 & Hf2 & Hg2).
  assert (delete_all_flows device_type s = (Ok tt, s2)) as Hdel.
  { unfold delete_all_flows. rewrite (bind_ok _ _ _ _ _ H1). by rewrite H2. }
  assert ((_ ← delete_all_flows device_type; d ← read r; do_call (disable_device d)) s =
            do_call (disable_device d) s2) as Hrun.
  { rewrite (bind_ok _ _ _ _ _ Hdel). rewrite (bind_ok _ _ s2 d s2); [done|].
    apply read_ok. by rewrite Hh2, Hh1. }
  rewrite swallow_spec; rewrite Hrun; [|apply outcome_fuel].
  eexists. split; [done|]. simpl. split_and!; try congruence. apply last_snoc.
Qed.

(** An update is always committed, and handled by the entry of the state machine. *)
Lemma client_update_run r d l dl dt s
    (Hwf : agent_wf s) (Hr : heap s !! r = Some d)
    (Hl : last_data s = Some l) (Hdl : heap s !! l = Some dl)
    (Ht : heap s !! tree_ref s = Some dt) (Hnew : dt ≠ d) :
  ∃ s', client_update device_type r s = (Ok tt, s') ∧ tree_ref s' = r ∧
    transition_effect s s' r d (admin_state_fsm (d_admin_state dl) (d_admin_state d)).
Proof.
  destruct Hwf as (_ & Hp & _). unfold client_update.
  rewrite (proxy_update_run device_type _ r d dt) by done. rewrite decide_False, Hp by done.
  unfold deferred, process_update. set (s1 := set_tree_ref r s).
  set (h := admin_state_fsm (d_admin_state dl) (d_admin_state d)).
  assert (∀ upd, process_state_transitions device_type upd r false s1 =
    match h with
    | None => mret tt
    | Some Invalid => raise InvalidStateTransition
    | Some Activate => activate upd r false
    | Some Propagate => propagate_change r false
    | Some Disable => disable device_type r false
    | Some Abandon => abandon r false
    | Some Reenable => reenable r false
    end s1) as Htr.
  { intros upd. unfold process_state_transitions.
    rewrite (bind_ok _ _ s1 (d_admin_state dl) s1)
      by (unfold gets; by rewrite (old_state_of s1 l dl)).
    by rewrite (bind_ok _ _ s1 d s1) by (by apply read_ok). }
  destruct h as [[]|] eqn:Hh; unfold swallow, mbind, M_bind; rewrite Htr; cbn beta iota.
  - eexists. by split_and!.
  - destruct (activate_run 0 r d d s1) as (res & -> & Hres); [done..|].
    destruct res as [[]|[]]; try done; (eexists; split_and!; [done..|]); by split_and!.
  - eexists. by split_and!.
  - destruct (disable_run r d l dl s1) as (s2 & -> & Hh2 & Ht2 & Hl2 & Hf2 & Hg2 & Hc2); [done..|].
    eexists. split_and!; [done..|]. by split_and!.
  - eexists. by split_and!.
  - unfold reenable, mbind, M_bind. rewrite (read_ok r d s1) by done. unfold do_call.
    pose proof (outcome_fuel (calls (log_call (reenable_device d) s1))) as Ho.
    destruct (outcome _) as [[]|[]] eqn:Hout; try done;
      (eexists; split_and!; [done..|]); (split_and!; [done..|]); simpl in *; by rewrite Hout.
  - eexists. by split_and!.
Qed.

(** C31 What the adapter is told when a client changes the device and the change of its
    admin state is not one marked invalid: the update returns, the committed object
    becomes the client's, and the calls made are those of the admin state machine:
    adopt with the object marked ACTIVATING in place, reenable, or disable after all
    flows and groups were removed; no call when the table has no entry, when the
    device stays enabled, or when it is abandoned, which is not implemented.  The
    object becomes the last data except when the device is abandoned or reenabling
    fails. *)
Theorem client_update_effect r d l dl dt s
    (Hwf : agent_wf s) (Hr : heap s !! r = Some d)
    (Hl : last_data s = Some l) (Hdl : heap s !! l = Some dl)
    (Ht : heap s !! tree_ref s = Some dt) (Hnew : dt ≠ d)
    (Hallowed : admin_state_fsm (d_admin_state dl) (d_admin_state d) ≠ Some Invalid) :
  ∃ s', client_update device_type r s = (Ok tt, s') ∧ tree_ref s' = r ∧
    transition_effect s s' r d (admin_state_fsm (d_admin_state dl) (d_admin_state d)).
Proof. by eapply client_update_run. Qed.

(** A change marked invalid is not blocked: it is committed, and goes unprocessed. *)
Lemma invalid_update_committed r d l dl dt s :
  agent_wf s → heap s !! r = Some d → last_data s = Some l → heap s !! l = Some dl → heap s !! tree_ref s = Some dt → dt ≠ d →
  admin_state_fsm (d_admin_state dl) (d_admin_state d) = Some Invalid →
  ∃ s', client_update device_type r s = (Ok tt, s') ∧ tree_ref s' = r ∧ calls s' = calls s ∧ last_data s' = last_data s.
Proof.
  intros Hwf Hr Hl Hdl Ht Hnew Hinv. destruct (client_update_run r d l dl dt s) as (s' & Hrun & Href & Heff); [done..|].
  rewrite Hinv in Heff. destruct Heff as (? & ? & _). by exists s'.
Qed.

(** An update the adapter makes through the agent is not sent back to it:
    the node takes the object, it becomes the last data, and the adapter is
    called only to replay interfaces and flows, when the device is enabled,
    active and reachable.  One level of nested updates is enough. *)
Theorem update_device_not_echoed r d dt s
    (Hr : heap s !! r = Some d) (Ht : heap s !! tree_ref s = Some dt) :
  ∃ res s', update_device device_type 1 r s = (res, s') ∧ res ≠ Err OutOfFuel ∧
    last_data s' = Some r ∧ heap s' !! tree_ref s' = Some d ∧ heap s' = heap s ∧
    calls s' = calls s ++
      (if decide (d_admin_state d = AdminState.ENABLED ∧ d_oper_status d = OperStatus.ACTIVE ∧
                  d_connect_status d = ConnectStatus.REACHABLE)
       then match outcome (calls s ++ [replay_interface (d_id d)]) with
            | Ok _ => replay_interface (d_id d) ::
                (if accepts_bulk_flow_update device_type
                 then [update_flows_bulk d (d_flows s) (d_groups s)] else [])
            | Err _ => [replay_interface (d_id d)]
            end
       else []).
Proof.
  simpl. unfold update_device_body. erewrite bind_ok by done.
  set (s1 := set_last_data (Some r) s).
  set (s2 := if decide (dt = d) then s1 else set_tree_ref r s1).
  assert (proxy_update device_type (update_device device_type 0) r s1 = (Ok tt, s2)) as Hp
    by (by apply (proxy_update_last device_type _ r d dt)).
  rewrite (bind_ok _ _ _ _ _ Hp).
  assert (heap s2 = heap s ∧ last_data s2 = Some r ∧ calls s2 = calls s ∧ d_flows s2 = d_flows s ∧
    d_groups s2 = d_groups s ∧ heap s2 !! tree_ref s2 = Some d) as (Hh & Hl & Hc & Hf & Hg & Htr).
  { unfold s2. case_decide; simpl; [subst|]; by split_and!. }
  unfold replay. rewrite (bind_ok _ _ s2 d s2) by (apply read_ok; by rewrite Hh).
  case_decide.
  2:{ eexists _, _. split_and!; try done. by rewrite app_nil_r. }
  unfold mbind, M_bind, do_call. simpl. rewrite Hc.
  pose proof (outcome_fuel (calls s ++ [replay_interface (d_id d)])) as Ho.
  destruct (outcome (calls s ++ [replay_interface (d_id d)])) as [[]|e] eqn:Hout.
  - destruct (accepts_bulk_flow_update device_type); simpl; (eexists _, _; split_and!; [done|..]); simpl;
      try done; try congruence; try apply outcome_fuel; try by rewrite Hc, <- app_assoc, ?Hf, ?Hg.
  - eexists _, _. split_and!; simpl; try done; try congruence. simpl. by rewrite Hc.
Qed.

(** The changes handed to an adapter that takes incremental updates bring
    its flows in line with the new table: added flows are new, removed ones
    are no longer wanted, and removing and adding turns the ids the device had
    into exactly the ids of the table. *)
Theorem incremental_changes flows l d s
    (Hl : last_data s = Some l) (Hd : heap s !! l = Some d) :
  ∃ s' to_add to_remove, flows_proxy_update device_type flows s = (Ok tt, s') ∧ d_flows s' = flows ∧
    flow_changes s' = Some (to_add, to_remove) ∧
    ids (filter (λ f, fs_id f ∉ ids to_remove) (d_flows s) ++ to_add) = ids flows ∧
    (∀ f, f ∈ to_add → f ∈ flows ∧ fs_id f ∉ ids (d_flows s)) ∧
    (∀ f, f ∈ to_remove → f ∈ d_flows s ∧ fs_id f ∉ ids flows).
Proof.
  set (add := filter (λ f, fs_id f ∈ ids flows ∖ ids (d_flows s)) flows).
  set (rem := filter (λ f, fs_id f ∈ ids (d_flows s) ∖ ids flows) (d_flows s)).
  assert (∃ s', flows_proxy_update device_type flows s = (Ok tt, s') ∧ d_flows s' = flows ∧
    flow_changes s' = Some (add, rem)) as (s' & Hrun & Hf & Hc).
  { unfold flows_proxy_update. rewrite (bind_ok _ _ _ _ _ (pre_process_ok flows l d s Hl Hd)).
    erewrite bind_ok by done. simpl. case_decide; [by eexists|]. erewrite bind_ok by done.
    destruct (flow_table_updated_calls device_type flows
      (set_d_flows flows (set_flow_changes (add, rem) s))) as (s' & Hrun & [k ->]).
    eexists. split; [exact Hrun|]. clear. generalize (set_d_flows flows (set_flow_changes (add, rem) s)) as s1,
      (eq_refl : d_flows (set_d_flows flows (set_flow_changes (add, rem) s)) = flows),
      (eq_refl : flow_changes (set_d_flows flows (set_flow_changes (add, rem) s)) = Some (add, rem)).
    induction k as [|c k IH]; intros s1 H1 H2; [done|]. by apply IH. }
  exists s', add, rem. split_and!; [done..| | |].
  - apply set_eq. intros i. unfold ids. rewrite fmap_app, list_to_set_app_L, elem_of_union.
    rewrite !elem_of_list_to_set, !list_elem_of_fmap. split.
    + intros [(f & -> & Hin)|(f & -> & Hin)].
      * apply list_elem_of_filter in Hin as [Hn Hin].
        destruct (decide (fs_id f ∈ ids flows)) as [Hi|Hi].
        -- unfold ids in Hi. by rewrite elem_of_list_to_set, list_elem_of_fmap in Hi.
        -- destruct Hn. rewrite elem_of_list_to_set, list_elem_of_fmap. exists f. split; [done|].
           apply list_elem_of_filter. split; [|done]. apply elem_of_difference. split; [|done].
           unfold ids. rewrite elem_of_list_to_set, list_elem_of_fmap. by exists f.
      * apply list_elem_of_filter in Hin as [_ Hin]. by exists f.
    + intros (f & -> & Hin). destruct (decide (fs_id f ∈ ids (d_flows s))) as [Hi|Hi].
      * left. unfold ids in Hi. rewrite elem_of_list_to_set, list_elem_of_fmap in Hi.
        destruct Hi as (g & Hg & Hgin). exists g. split; [done|]. apply list_elem_of_filter. split; [|done].
        rewrite elem_of_list_to_set, list_elem_of_fmap. intros (g' & Hg' & Hrem).
        apply list_elem_of_filter in Hrem as [Hrem _]. apply elem_of_difference in Hrem as [_ Hno].
        apply Hno. unfold ids. rewrite elem_of_list_to_set, list_elem_of_fmap. exists f. split; [congruence|done].
      * right. exists f. split; [done|]. apply list_elem_of_filter. split; [|done].
        apply elem_of_difference. split; [|done]. unfold ids. rewrite elem_of_list_to_set, list_elem_of_fmap. by exists f.
  - intros f [Hi Hin]%list_elem_of_filter. by apply elem_of_difference in Hi as [_ Hi].
  - intros f [Hi Hin]%list_elem_of_filter. by apply elem_of_difference in Hi as [_ Hi].
Qed.

(** A change of the PM configuration made through the tree is lost as long
    as the agent itself has not set one: [callback_data] does not exist yet
    (the constructor initialises [calback_data]), reading it raises inside the
    callback, and the adapter is not told. *)
Theorem pm_update_lost cfg d s
    (Hattr : callback_data s = None) (Ht : heap s !! tree_ref s = Some d) (Hnew : pm_configs s ≠ cfg) :
  client_pm_update cfg s = (Ok tt, set_pm cfg s).
Proof.
  unfold client_pm_update. rewrite (bind_ok _ _ s (pm_configs s) s), decide_False by done.
  erewrite bind_ok by done. unfold swallow, pm_config_updated, mbind, M_bind, gets. simpl.
  rewrite (read_ok (tree_ref s) d (set_pm cfg s)) by done. simpl. by rewrite Hattr.
Qed.

Lemma image_update_run i cur d s :
  heap s !! tree_ref s = Some d → images s !! ImageDownload.name i = Some cur → cur ≠ i →
  ImageDownload.name i ∈ img_dnld_proxies s →
  ImageDownload.dl_state i = ImageDownload.DOWNLOAD_REQUESTED →
  ImageDownload.image_state i = ImageDownload.IMAGE_UNKNOWN →
  image_update i s = (Ok tt, log_call (download_image d i)
                               (set_images (<[ImageDownload.name i := i]> (images s)) s)).
Proof.
  intros Ht Hcur Hne Hin Hst Him. unfold image_update.
  rewrite (bind_ok _ _ s (images s) s), Hcur by done. cbn [from_some]. erewrite bind_ok by done.
  rewrite decide_False by done. set (s1 := set_images (<[ImageDownload.name i := i]> (images s)) s).
  rewrite (bind_ok _ _ s tt s1), (bind_ok _ _ s1 (img_dnld_proxies s) s1), decide_True by done.
  assert (do_download d i s1 = (Ok tt, log_call (download_image d i) s1)) as Hd
    by (unfold do_download; rewrite swallow_spec by apply outcome_fuel; done).
  unfold update_image. rewrite decide_True, Him by done.
  assert ((d ← read_tree; do_download d i) s1 = (Ok tt, log_call (download_image d i) s1)) as Hr.
  { unfold read_tree. rewrite (bind_ok _ _ s1 d s1); [done|].
    rewrite (bind_ok _ _ s1 (tree_ref s) s1) by done. by apply read_ok. }
  rewrite swallow_spec; by rewrite (bind_ok _ _ _ _ _ Hr).
Qed.

(** Registering an image download starts it once: the node shows it as
    requested and the adapter is asked to download it, whether or not that
    call succeeds. *)
Theorem register_starts_download i cur d s
    (Ht : heap s !! tree_ref s = Some d)
    (Hcur : images s !! ImageDownload.name i = Some cur)
    (Hnew : cur ≠ ImageDownload.set_state ImageDownload.DOWNLOAD_REQUESTED i)
    (Hidle : ImageDownload.image_state i = ImageDownload.IMAGE_UNKNOWN) :
  let i' := ImageDownload.set_state ImageDownload.DOWNLOAD_REQUESTED i in
  ∃ s', register_image_download i s = (Ok tt, s') ∧ calls s' = calls s ++ [download_image d i'] ∧
    images s' = <[ImageDownload.name i := i']> (images s) ∧
    ImageDownload.name i ∈ img_dnld_proxies s'.
Proof.
  intros i'. unfold register_image_download.
  set (s1 := set_img_proxies ({[ImageDownload.name i]} ∪ img_dnld_proxies s) s).
  assert (image_update i' s1 = (Ok tt, log_call (download_image d i')
            (set_images (<[ImageDownload.name i := i']> (images s)) s1))) as Hu.
  { apply (image_update_run i' cur d s1); [done..|simpl; set_solver|done|done]. }
  assert (∀ k : M da unit, (m ← gets images; _ ← from_some KeyError (m !! ImageDownload.name i);
      _ ← modify (λ s, set_img_proxies ({[ImageDownload.name i]} ∪ img_dnld_proxies s) s); k) s = k s1) as Hpre.
  { intros k. rewrite (bind_ok _ _ s (images s) s), Hcur by done. cbn [from_some].
    erewrite bind_ok by done. by erewrite bind_ok by done. }
  rewrite swallow_spec; rewrite Hpre; fold i'; rewrite Hu; [|done].
  eexists. split; [done|]. simpl. split_and!; [done..|]. set_solver.
Qed.

End properties.

(** ** A sample device *)
Section sample_device.
Local Open Scope string_scope.
Local Open Scope nat_scope.

(** An adapter all of whose calls succeed. *)
Definition willing : Adapter := {| outcome := λ _, Ok tt; outcome_fuel := λ _ H, ltac:(discriminate H) |}.
#[local] Existing Instance willing.

Definition sample_type : DeviceType := MkDeviceType false true.

Definition preprovisioned : Device :=
  set_oper_status OperStatus.UNKNOWN (set_admin_state AdminState.PREPROVISIONED olt).
Definition enabled : Device := set_admin_state AdminState.ENABLED preprovisioned.

(** Object 1 is committed and processed; object 2 is a client's update. *)
Definition sample_da : da :=
  set_last_data (Some 1%nat)
    (init (<[1%nat := preprovisioned]> {[2%nat := enabled]}) 1 [] [] "pm"
       {["img" := ImageDownload.Mk "img" "http" ImageDownload.DOWNLOAD_UNKNOWN ImageDownload.IMAGE_UNKNOWN]}).

Lemma client_update_effect_witness :
  ∃ s', client_update sample_type 2 sample_da = (Ok tt, s') ∧ tree_ref s' = 2%nat ∧
    transition_effect sample_da s' 2 enabled (Some Activate).
Proof.
  apply (client_update_effect sample_type 2 enabled 1 preprovisioned preprovisioned sample_da).
  - split_and!; [reflexivity|reflexivity|eexists; reflexivity|].
    exists 1%nat. split; [reflexivity|]. eexists. reflexivity.
  - reflexivity.
  - reflexivity.
  - reflexivity.
  - reflexivity.
  - discriminate.
  - discriminate.
Defined.

Lemma update_device_not_echoed_witness :
  ∃ res s', update_device sample_type 1 2 sample_da = (res, s') ∧ res ≠ Err OutOfFuel ∧
    last_data s' = Some 2%nat ∧ heap s' !! tree_ref s' = Some enabled ∧ heap s' = heap sample_da ∧
    calls s' = [].
Proof.
  apply (update_device_not_echoed sample_type 2 enabled preprovisioned sample_da); reflexivity.
Defined.

Lemma incremental_changes_witness :
  ∃ s' to_add to_remove, flows_proxy_update sample_type [trap_flow] sample_da = (Ok tt, s') ∧
    d_flows s' = [trap_flow] ∧ flow_changes s' = Some (to_add, to_remove) ∧
    ids (filter (λ f, fs_id f ∉ ids to_remove) (d_flows sample_da) ++ to_add)%list = ids [trap_flow] ∧
    (∀ f, f ∈ to_add → f ∈ [trap_flow] ∧ fs_id f ∉ ids (d_flows sample_da)) ∧
    (∀ f, f ∈ to_remove → f ∈ d_flows sample_da ∧ fs_id f ∉ ids [trap_flow]).
Proof.
  apply (incremental_changes sample_type [trap_flow] 1 preprovisioned sample_da); reflexivity.
Defined.

Lemma pm_update_lost_witness : client_pm_update "new" sample_da = (Ok tt, set_pm "new" sample_da).
Proof. apply (pm_update_lost "new" preprovisioned sample_da); [reflexivity|reflexivity|discriminate]. Defined.

Definition sample_image : ImageDownload.t :=
  ImageDownload.Mk "img" "http" ImageDownload.DOWNLOAD_UNKNOWN ImageDownload.IMAGE_UNKNOWN.

Lemma register_starts_download_witness :
  let i' := ImageDownload.set_state ImageDownload.DOWNLOAD_REQUESTED sample_image in
  ∃ s', register_image_download sample_image sample_da = (Ok tt, s') ∧
    calls s' = [download_image preprovisioned i'] ∧
    images s' = <["img" := i']> (images sample_da) ∧ "img" ∈ img_dnld_proxies s'.
Proof.
  apply (register_starts_download sample_image sample_image preprovisioned sample_da);
    [reflexivity|reflexivity|discriminate|reflexivity].
Defined.

End sample_device.
