(* ===== verification/EventBus.v ===== *)
(** * The internal event bus

    The class [EventBus] of src/common/event_bus.py: topics, regular
    expression topics, predicates, delivery.  Subscriptions are objects with
    an identity; regular expressions, predicates and callbacks are code of the
    bus's users and parameters of the model.  A callback may be any
    computation on the bus, subscribing and unsubscribing included. *)
From S2P Require Import Prelude.
From stdpp Require Import base gmap list strings.

(** A topic is a [str], a compiled regular expression, or something else. *)
Inductive topic :=
  | TStr (s : string)
  | TRegex (r : string)
  | TOther.

#[export] Instance topic_eq_dec : EqDecision topic.
Proof. solve_decision. Defined.

Record subscription := Sub {
  sid : nat;                 (* identity *)
  predicate : option nat;
  callback : nat;
  sub_topic : topic;
}.

#[export] Instance subscription_eq_dec : EqDecision subscription.
Proof. solve_decision. Defined.

(** A message and the subscriber a callback was called for. *)
Definition delivery (Msg : Type) : Type := nat * string * Msg.

Record bus (Msg : Type) := Bus {
  subscriptions : gmap (option string) (list subscription);
  subs_topic_map : gmap nat (option string);
  next_sid : nat;
  delivered : list (delivery Msg);
}.
Arguments Bus {Msg}.
Arguments subscriptions {Msg}.
Arguments subs_topic_map {Msg}.
Arguments next_sid {Msg}.
Arguments delivered {Msg}.

Definition empty_bus {Msg} : bus Msg := Bus ∅ ∅ 0 [].

Section event_bus.
Context {Msg : Type}.
Context (re_match : string → string → bool).
Context (run_predicate : nat → Msg → result bool).
Context (run_callback : nat → string → Msg → M (bus Msg) unit).

Definition get_topic_key (t : topic) : result (option string) :=
  match t with
  | TStr s => Ok (Some s)
  | TRegex _ => Ok None
  | TOther => Err AttributeError
  end.

Definition list_subscribers `{DictOrder} (t : option string) (b : bus Msg) : list subscription :=
  match t with
  | None => concat (iteritems (subscriptions b)).*2
  | Some t => default [] (subscriptions b !! Some t)
  end.

Definition subscribe (t : topic) (cb : nat) (pred : option nat) : M (bus Msg) subscription :=
  n ← gets next_sid;
  let s := Sub n pred cb t in
  key ← lift (get_topic_key t);
  _ ← modify (λ b, Bus (<[key := default [] (subscriptions b !! key) ++ [s]]> (subscriptions b))
                     (<[n := key]> (subs_topic_map b)) (S n) (delivered b));
  mret s.

(** [lst.remove(x)]: the first occurrence, [ValueError] without one *)
Fixpoint list_remove (s : subscription) (l : list subscription) : option (list subscription) :=
  match l with
  | [] => None
  | x :: l => if decide (sid x = sid s) then Some l else cons x <$> list_remove s l
  end.

Definition unsubscribe (s : subscription) : M (bus Msg) unit :=
  m ← gets subs_topic_map;
  key ← from_some KeyError (m !! sid s);
  subs ← gets subscriptions;
  l ← from_some KeyError (subs !! key);
  l' ← from_some ValueError (list_remove s l);
  modify (λ b, Bus (<[key := l']> (subscriptions b)) (subs_topic_map b) (next_sid b) (delivered b)).

(** A predicate that raises is no match. *)
Definition passes (m : Msg) (p : option nat) : bool :=
  match p with
  | None => true
  | Some p => match run_predicate p m with Ok b => b | Err _ => false end
  end.

(** [s.topic.match(topic)] *)
Definition topic_matches (t : string) (s : subscription) : bool :=
  match sub_topic s with TRegex r => re_match r t | _ => false end.

Definition deliver (t : string) (m : Msg) (s : subscription) : M (bus Msg) unit :=
  if passes m (predicate s) then
    _ ← modify (λ b, Bus (subscriptions b) (subs_topic_map b) (next_sid b)
                       (delivered b ++ [(sid s, t, m)]));
    swallow (run_callback (callback s) t m)
  else mret tt.

(** [subscribers] is the list stored for the topic when there is one: extending
    it with the matching regular expression subscribers writes to the bus. *)
Definition publish (t : string) (m : Msg) : M (bus Msg) unit :=
  subs ← gets subscriptions;
  let matching := filter (λ s, topic_matches t s = true) (default [] (subs !! None)) in
  let subscribers := default [] (subs !! Some t) ++ matching in
  _ ← modify (λ b, match subscriptions b !! Some t with
                   | Some _ => Bus (<[Some t := subscribers]> (subscriptions b))
                                 (subs_topic_map b) (next_sid b) (delivered b)
                   | None => b
                   end);
  forM_ (deliver t m) subscribers.

End event_bus.

(** ** Properties *)
Section properties.
Context {Msg : Type} {re_match : string → string → bool}.
Context {run_predicate : nat → Msg → result bool} {run_callback : nat → string → Msg → M (bus Msg) unit}.

(** Callbacks that leave the bus alone (they may raise). *)
Definition passive : Prop := ∀ c t m b, ∃ e, run_callback c t m b = (e, b) ∧ e ≠ Err OutOfFuel.

Lemma deliver_all (Hcb : passive) t m l b :
  forM_ (deliver run_predicate run_callback t m) l b =
    (Ok tt, Bus (subscriptions b) (subs_topic_map b) (next_sid b)
              (delivered b ++ ((λ s, (sid s, t, m)) <$> filter (λ s, passes run_predicate m (predicate s) = true) l))).
Proof.
  revert b. induction l as [|s l IH]; intros b.
  - destruct b. simpl. rewrite app_nil_r. done.
  - cbn [forM_]. rewrite filter_cons. destruct (passes run_predicate m (predicate s)) eqn:Hp.
    + rewrite decide_True by done.
      set (b1 := Bus (subscriptions b) (subs_topic_map b) (next_sid b) (delivered b ++ [(sid s, t, m)])).
      assert (deliver run_predicate run_callback t m s b = (Ok tt, b1)) as Hd.
      { unfold deliver. rewrite Hp. erewrite bind_ok by done. fold b1. unfold swallow.
        destruct (Hcb (callback s) t m b1) as (e & -> & He). destruct e as [[]|[]]; done. }
      rewrite (bind_ok _ _ _ _ _ Hd), IH. simpl. by rewrite <- app_assoc.
    + rewrite decide_False by done.
      assert (deliver run_predicate run_callback t m s b = (Ok tt, b)) as Hd
        by (unfold deliver; by rewrite Hp).
      by rewrite (bind_ok _ _ _ _ _ Hd), IH.
Qed.

Definition matching (t : string) (b : bus Msg) : list subscription :=
  filter (λ s, topic_matches re_match t s = true) (default [] (subscriptions b !! None)).

Definition stored (t : string) (b : bus Msg) : list subscription := default [] (subscriptions b !! Some t).

(** The subscribers of a topic that get [m], in the order they are called. *)
Definition receivers (m : Msg) (l : list subscription) : list subscription :=
  filter (λ s, passes run_predicate m (predicate s) = true) l.

Lemma publish_run (Hcb : passive) t m b :
  ∃ b', publish re_match run_predicate run_callback t m b = (Ok tt, b') ∧
    delivered b' = delivered b ++ ((λ s, (sid s, t, m)) <$> receivers m (stored t b ++ matching t b)) ∧
    subscriptions b' =
      match subscriptions b !! Some t with
      | Some _ => <[Some t := stored t b ++ matching t b]> (subscriptions b)
      | None => subscriptions b
      end ∧
    subs_topic_map b' = subs_topic_map b.
Proof.
  unfold publish. rewrite (bind_ok _ _ b (subscriptions b) b) by done. erewrite bind_ok by done.
  rewrite deliver_all by done. eexists. split; [done|]. simpl.
  unfold stored. destruct (subscriptions b !! Some t); done.
Qed.

(** A message reaches every subscriber of its topic, explicit ones first,
    then the regular expressions that match, each in the order of the lists
    and only if its predicate accepts the message; a predicate or a callback
    that raises stops nothing. *)
Theorem publish_delivers t m b (Hcb : passive) :
  ∃ b', publish re_match run_predicate run_callback t m b = (Ok tt, b') ∧
    delivered b' = delivered b ++
      ((λ s, (sid s, t, m)) <$> (receivers m (stored t b) ++ receivers m (matching t b))).
Proof.
  destruct (publish_run Hcb t m b) as (b' & Hrun & Hdel & _). exists b'. split; [done|].
  unfold receivers in *. by rewrite Hdel, filter_app.
Qed.

Lemma publish_stored (Hcb : passive) t m b b' :
  is_Some (subscriptions b !! Some t) →
  publish re_match run_predicate run_callback t m b = (Ok tt, b') →
  stored t b' = stored t b ++ matching t b ∧ matching t b' = matching t b ∧
  is_Some (subscriptions b' !! Some t).
Proof.
  intros [l Hl] Hrun. destruct (publish_run Hcb t m b) as (b2 & Hrun2 & _ & Hs & _).
  rewrite Hrun in Hrun2. injection Hrun2 as <-. rewrite Hl in Hs.
  unfold stored at 1, matching at 2. rewrite Hs, lookup_insert_eq, lookup_insert_ne by done.
  by split_and!.
Qed.

(** [n] messages published one after the other. *)
Fixpoint publish_n (t : string) (m : Msg) (n : nat) : M (bus Msg) unit :=
  match n with
  | O => mret tt
  | S n => _ ← publish re_match run_predicate run_callback t m; publish_n t m n
  end.

(** Publishing on a topic that has explicit subscribers adds the matching
    regular expression subscribers to the topic's own list, every time: after
    [n] messages the list holds [n] more copies of each, and the next message
    is delivered to such a subscriber [n + 1] times. *)
Theorem publish_accumulates t m n b (Hcb : passive) (Htopic : is_Some (subscriptions b !! Some t)) :
  ∃ b' b'', publish_n t m n b = (Ok tt, b') ∧
    stored t b' = stored t b ++ concat (replicate n (matching t b)) ∧
    publish re_match run_predicate run_callback t m b' = (Ok tt, b'') ∧
    delivered b'' = delivered b' ++
      ((λ s, (sid s, t, m)) <$>
        (receivers m (stored t b) ++ concat (replicate (S n) (receivers m (matching t b))))).
Proof.
  assert (∃ b', publish_n t m n b = (Ok tt, b') ∧
    stored t b' = stored t b ++ concat (replicate n (matching t b)) ∧ matching t b' = matching t b)
    as (b' & Hrun & Hst & Hm).
  { revert b Htopic. induction n as [|n IH]; intros b Htopic; simpl.
    - exists b. by rewrite app_nil_r.
    - destruct (publish_run Hcb t m b) as (b1 & Hb1 & _).
      destruct (publish_stored Hcb t m b b1 Htopic Hb1) as (Hs1 & Hm1 & Ht1).
      destruct (IH b1 Ht1) as (b' & Hrun & Hs & Hm). exists b'.
      rewrite (bind_ok _ _ _ _ _ Hb1), Hs, Hs1, Hm, Hm1. by rewrite <- app_assoc. }
  destruct (publish_run Hcb t m b') as (b'' & Hb'' & Hdel & _). exists b', b''. split_and!; [done..|].
  rewrite Hdel, Hst, Hm. unfold receivers. rewrite !filter_app, <- app_assoc. do 3 f_equal.
  rewrite replicate_S_end, concat_app. simpl. rewrite app_nil_r. f_equal. clear.
  induction n as [|n IH]; simpl; [done|]. by rewrite filter_app, IH.
Qed.

Lemma list_remove_spec s l l' : list_remove s l = Some l' → NoDup (sid <$> l) → sid s ∉ sid <$> l'.
Proof.
  revert l'. induction l as [|x l IH]; intros l'; csimpl; [done|]. rewrite NoDup_cons.
  case_decide as Hx.
  - intros [= <-] [Hni _]. by rewrite <- Hx.
  - intros (k & Hk & ->)%fmap_Some [Hni Hnd]. csimpl. apply not_elem_of_cons. split; [done|]. by apply IH.
Qed.

(** An explicit subscriber that unsubscribes gets no more messages on its
    topic, when no regular expression has been mixed into the topic's list. *)
Theorem unsubscribe_stops t m s b b1 (Hcb : passive)
    (Hkey : subs_topic_map b !! sid s = Some (Some t))
    (Hnd : NoDup (sid <$> (stored t b ++ matching t b)))
    (Hun : unsubscribe s b = (Ok tt, b1)) :
  ∃ b2, publish re_match run_predicate run_callback t m b1 = (Ok tt, b2) ∧
    ∃ l, delivered b2 = delivered b1 ++ l ∧ (sid s, t, m) ∉ l.
Proof.
  unfold unsubscribe in Hun. rewrite (bind_ok _ _ b (subs_topic_map b) b), Hkey in Hun by done.
  cbn [from_some] in Hun. erewrite bind_ok in Hun by done.
  rewrite (bind_ok _ _ b (subscriptions b) b) in Hun by done.
  destruct (subscriptions b !! Some t) as [l|] eqn:Hl; [|done]. cbn [from_some] in Hun.
  erewrite bind_ok in Hun by done. destruct (list_remove s l) as [l'|] eqn:Hr; [|done].
  cbn [from_some] in Hun. erewrite bind_ok in Hun by done. injection Hun as <-.
  unfold stored, matching in Hnd. rewrite Hl in Hnd. simpl in Hnd. rewrite fmap_app, NoDup_app in Hnd.
  destruct Hnd as (Hndl & Hdisj & _). pose proof (list_remove_spec s l l' Hr Hndl) as Hgone.
  assert (sid s ∈ sid <$> l) as Hin.
  { clear -Hr. revert l' Hr. induction l as [|x l IH]; intros l'; csimpl; [done|].
    case_decide as Hx; [set_solver|]. intros (k & Hk & _)%fmap_Some. apply IH in Hk. set_solver. }
  set (b1 := Bus _ _ _ _). destruct (publish_run Hcb t m b1) as (b2 & Hrun & Hdel & _).
  exists b2. split; [done|]. eexists. split; [done|].
  intros ([n p c tp] & [= Heq] & Hrec)%list_elem_of_fmap. simpl in Heq.
  unfold receivers in Hrec. apply list_elem_of_filter in Hrec as [_ Hrec].
  unfold stored, matching, b1 in Hrec. simpl in Hrec. rewrite lookup_insert_eq, lookup_insert_ne in Hrec by done.
  simpl in Hrec. apply elem_of_app in Hrec as [Hrec|Hrec].
  - apply Hgone. apply list_elem_of_fmap. eexists. split; [|exact Hrec]. done.
  - eapply Hdisj; [exact Hin|]. apply list_elem_of_fmap. eexists. split; [|exact Hrec]. done.
Qed.

End properties.

(** ** A sample bus *)
Section sample_bus.
Local Open Scope string_scope.

Definition any_regex (r t : string) : bool := true.
Definition no_predicate (p m : nat) : result bool := Ok true.
Definition idle_callback (c : nat) (t : string) (m : nat) : M (bus nat) unit := mret tt.

Definition explicit_sub : subscription := Sub 0 None 0 (TStr "a").
Definition regex_sub : subscription := Sub 1 None 1 (TRegex ".*").
Definition sample_bus : bus nat :=
  Bus (<[Some "a" := [explicit_sub]]> {[None := [regex_sub]]}) (<[0 := Some "a"]> {[1 := None]}) 2 [].

Lemma idle_passive : passive (run_callback := idle_callback).
Proof. intros c t m b. by exists (Ok tt). Qed.

Lemma publish_delivers_witness :
  ∃ b', publish any_regex no_predicate idle_callback "a" 7 sample_bus = (Ok tt, b') ∧
    delivered b' = (delivered sample_bus ++
      ((λ s, (sid s, "a", 7)) <$> (receivers (run_predicate := no_predicate) 7 (stored "a" sample_bus) ++
         receivers (run_predicate := no_predicate) 7 (matching (re_match := any_regex) "a" sample_bus))))%list.
Proof. exact (publish_delivers "a" 7 sample_bus idle_passive). Defined.

(** The fourth message reaches the regular expression subscriber four times. *)
Lemma publish_accumulates_witness :
  ∃ b' b'', publish_n (re_match := any_regex) (run_predicate := no_predicate)
              (run_callback := idle_callback) "a" 7 3 sample_bus = (Ok tt, b') ∧
    stored "a" b' = [explicit_sub; regex_sub; regex_sub; regex_sub] ∧
    publish any_regex no_predicate idle_callback "a" 7 b' = (Ok tt, b'') ∧
    delivered b'' = (delivered b' ++ [(0, "a", 7); (1, "a", 7); (1, "a", 7); (1, "a", 7); (1, "a", 7)])%list.
Proof.
  apply (publish_accumulates (re_match := any_regex) (run_predicate := no_predicate)
           "a" 7 3 sample_bus idle_passive). by eexists.
Defined.

Lemma unsubscribe_stops_witness :
  ∃ b2, publish (λ _ _, false) no_predicate idle_callback "a" 7
          (unsubscribe explicit_sub sample_bus).2 = (Ok tt, b2) ∧
    ∃ l, delivered b2 = (delivered (unsubscribe explicit_sub sample_bus).2 ++ l)%list ∧ (0, "a", 7) ∉ l.
Proof.
  apply (unsubscribe_stops (re_match := λ _ _, false) "a" 7 explicit_sub sample_bus _ idle_passive).
  - reflexivity.
  - apply NoDup_singleton.
  - reflexivity.
Defined.

End sample_bus.
