(* ===== verification/MessageQueue.v ===== *)
(** * The message queue with selective dequeueing

    The class [MessageQueue] of src/common/utils/message_queue.py.  A Deferred
    handed out by [get] is a number; what it fires with is recorded in
    [fired].  Predicates are code of the users and parameters of the model.
    The errbacks that [reset] fires are taken not to use the queue. *)
From S2P Require Import Prelude.
From stdpp Require Import base gmap list.
From Stdlib Require Import Lia.

Record mq (Obj : Type) := Mq {
  waiting : list (nat * option nat);     (* (deferred, predicate) *)
  queue : list Obj;
  next_d : nat;
  fired : list (nat * result Obj);
}.
Arguments Mq {Obj}.
Arguments waiting {Obj}.
Arguments queue {Obj}.
Arguments next_d {Obj}.
Arguments fired {Obj}.

Section message_queue.
Context {Obj : Type} (accepts : nat → Obj → bool).

Definition init : mq Obj := Mq [] [] 0 [].

(** [predicate is None or predicate(obj)] *)
Definition wants (p : option nat) (o : Obj) : bool :=
  match p with None => true | Some p => accepts p o end.

Definition reset : M (mq Obj) unit :=
  modify (λ q, Mq [] [] (next_d q) (fired q ++ ((λ w, (w.1, Err GenericException)) <$> waiting q))).

(** The loop of [_cancelGet]: the indices are those of the list before the
    first [pop], so after one the last index is out of range. *)
Fixpoint cancel_loop (d : nat) (idx : list nat) : M (mq Obj) unit :=
  match idx with
  | [] => mret tt
  | i :: idx =>
      w ← gets waiting;
      x ← from_some IndexError (w !! i);
      _ ← (if decide (x.1 = d) then modify (λ q, Mq (delete i (waiting q)) (queue q) (next_d q) (fired q))
           else mret tt);
      cancel_loop d idx
  end.

Definition cancelGet (d : nat) : M (mq Obj) unit :=
  w ← gets waiting;
  cancel_loop d (seq 0 (length w)).

Definition put (o : Obj) : M (mq Obj) unit :=
  w ← gets waiting;
  match list_find (λ x, wants x.2 o = true) w with
  | Some (i, (d, _)) =>
      modify (λ q, Mq (delete i (waiting q)) (queue q) (next_d q) (fired q ++ [(d, Ok o)]))
  | None => modify (λ q, Mq (waiting q) (queue q ++ [o]) (next_d q) (fired q))
  end.

(** [get] returns a Deferred: already fired, or waiting. *)
Definition get (p : option nat) : M (mq Obj) nat :=
  q ← gets queue;
  d ← gets next_d;
  _ ← match list_find (λ o, wants p o = true) q with
      | Some (i, o) =>
          modify (λ q, Mq (waiting q) (delete i (queue q)) (S d) (fired q ++ [(d, Ok o)]))
      | None => modify (λ q, Mq (waiting q ++ [(d, p)]) (queue q) (S d) (fired q))
      end;
  mret d.

(** ** Lemmas *)

(** Nobody waits for a message that is in the queue. *)
Definition settled (q : mq Obj) : Prop :=
  ∀ w o, w ∈ waiting q → o ∈ queue q → wants w.2 o = false.

(** Deferreds are handed out once: those waiting are distinct, not fired yet. *)
Definition fresh (q : mq Obj) : Prop :=
  NoDup ((waiting q).*1 ++ (fired q).*1) ∧ Forall (λ d, d < next_d q) ((waiting q).*1 ++ (fired q).*1).

Lemma elem_of_delete {A} (l : list A) i x : x ∈ delete i l → x ∈ l.
Proof.
  intros Hx. eapply elem_of_submseteq; [exact Hx|]. apply sublist_submseteq, sublist_delete.
Qed.

Lemma NoDup_delete_fst (l : list (nat * option nat)) (k : list nat) i d p :
  l !! i = Some (d, p) → NoDup (l.*1 ++ k) → NoDup ((delete i l).*1 ++ (k ++ [d])).
Proof.
  intros Hi%delete_Permutation. rewrite Hi at 1. csimpl. intros Hnd.
  eapply NoDup_Permutation_proper; [|exact Hnd].
  rewrite app_assoc, (Permutation_app_comm _ [d]). done.
Qed.

(** ** Properties *)

(** Nobody waits for a message that is already queued, and each Deferred
    fires at most once: both hold initially and are kept by [put], [get] and
    [reset]. *)
Theorem queue_invariant q (Hs : settled q) (Hf : fresh q) :
  (∀ o, let q' := (put o q).2 in settled q' ∧ fresh q') ∧
  (∀ p, let q' := (get p q).2 in settled q' ∧ fresh q') ∧
  (let q' := (reset q).2 in settled q' ∧ fresh q').
Proof.
  destruct Hf as [Hnd Hlt]. split_and!.
  - intros o. unfold put, mbind, M_bind, gets. destruct (list_find _ _) as [[i [d p]]|] eqn:Hfind; simpl.
    + apply list_find_Some in Hfind as (Hi & _ & _). split.
      * intros w x Hw%elem_of_delete Hx. by apply Hs.
      * unfold fresh. simpl. rewrite fmap_app. csimpl. split; [by apply (NoDup_delete_fst _ _ i d p)|].
        rewrite app_assoc, Forall_app. split.
        -- rewrite Forall_app in Hlt. destruct Hlt as [H1 H2]. apply Forall_app. split; [|done].
           rewrite Forall_forall in *. intros x (y & -> & Hy%elem_of_delete)%list_elem_of_fmap. apply H1.
           apply list_elem_of_fmap. by exists y.
        -- apply Forall_singleton. rewrite Forall_app in Hlt. destruct Hlt as [H1 _].
           rewrite Forall_forall in H1. apply H1. apply list_elem_of_fmap. exists (d, p). split; [done|].
           by apply list_elem_of_lookup_2 in Hi.
    + apply list_find_None in Hfind. split; [|done].
      intros w x Hw [Hx| ->%list_elem_of_singleton]%elem_of_app; [by apply Hs|].
      rewrite Forall_forall in Hfind. apply Hfind in Hw. by destruct (wants w.2 o).
  - intros p. unfold get, mbind, M_bind, gets. destruct (list_find _ _) as [[i o]|] eqn:Hfind; simpl.
    + apply list_find_Some in Hfind as (Hi & _ & _). split.
      * intros w x Hw Hx%elem_of_delete. by apply Hs.
      * unfold fresh. simpl. rewrite fmap_app. csimpl. rewrite app_assoc. split.
        -- apply NoDup_app. split_and!; [done| |apply NoDup_singleton].
           intros x Hx ->%list_elem_of_singleton. rewrite Forall_forall in Hlt. apply Hlt in Hx. lia.
        -- apply Forall_app. split; [|by apply Forall_singleton; lia].
           eapply Forall_impl; [exact Hlt|]. simpl. intros; lia.
    + apply list_find_None in Hfind. split.
      * intros w x [Hw| ->%list_elem_of_singleton]%elem_of_app Hx; [by apply Hs|].
        rewrite Forall_forall in Hfind. apply Hfind in Hx. simpl. by destruct (wants p x).
      * unfold fresh. simpl. rewrite fmap_app. csimpl. split.
        -- rewrite <- app_assoc, (Permutation_app_comm [_]), app_assoc.
           apply NoDup_app. split_and!; [done| |apply NoDup_singleton].
           intros x Hx ->%list_elem_of_singleton. rewrite Forall_forall in Hlt. apply Hlt in Hx. lia.
        -- rewrite <- app_assoc, (Permutation_app_comm [_]), app_assoc.
           apply Forall_app. split; [|by apply Forall_singleton; lia].
           eapply Forall_impl; [exact Hlt|]. simpl. intros; lia.
  - unfold reset, modify. simpl. split; [by intros w x Hw%elem_of_nil|]. unfold fresh. simpl.
    rewrite fmap_app, <- list_fmap_compose. csimpl.
    assert ((fst ∘ λ w : nat * option nat, (w.1, Err (A:=Obj) GenericException)) <$> waiting q = (waiting q).*1) as ->
      by (apply list_fmap_ext; done).
    by rewrite Permutation_app_comm.
Qed.

(** No message is lost, duplicated or overtaken: what [put] takes in is
    either given at once to the first waiting reader that accepts it or
    appended to the queue, and [get] takes out the first message it accepts,
    leaving the others in order; a reader waits only if there is none. *)
Theorem put_get_exact q :
  (∀ o, let q' := (put o q).2 in
     (queue q' = queue q ++ [o] ∧ fired q' = fired q ∧ waiting q' = waiting q ∧
      ∀ w, w ∈ waiting q → wants w.2 o = false) ∨
     (∃ l1 d p l2, waiting q = l1 ++ (d, p) :: l2 ∧ waiting q' = l1 ++ l2 ∧ wants p o = true ∧
        (∀ w, w ∈ l1 → wants w.2 o = false) ∧
        queue q' = queue q ∧ fired q' = fired q ++ [(d, Ok o)])) ∧
  (∀ p, let '(r, q') := get p q in r = Ok (next_d q) ∧
     ((∃ l1 o l2, queue q = l1 ++ o :: l2 ∧ queue q' = l1 ++ l2 ∧ wants p o = true ∧
         (∀ x, x ∈ l1 → wants p x = false) ∧ fired q' = fired q ++ [(next_d q, Ok o)]) ∨
      (queue q' = queue q ∧ (∀ x, x ∈ queue q → wants p x = false) ∧
       waiting q' = waiting q ++ [(next_d q, p)] ∧ fired q' = fired q))).
Proof.
  assert (∀ {A} (P : A → bool) l i x, list_find (λ x, P x = true) l = Some (i, x) →
    ∃ l1 l2, l = l1 ++ x :: l2 ∧ delete i l = l1 ++ l2 ∧ P x = true ∧ ∀ y, y ∈ l1 → P y = false) as Hsplit.
  { intros A P l i x (Hi & Hx & Hbefore)%list_find_Some. exists (take i l), (drop (S i) l).
    split_and!; [symmetry; by apply take_drop_middle|apply delete_take_drop|done|].
    intros y (j & Hj)%list_elem_of_lookup. apply lookup_take_Some in Hj as [Hj Hlt].
    specialize (Hbefore j y Hj Hlt). by destruct (P y). }
  split.
  - intros o. unfold put, mbind, M_bind, gets. destruct (list_find _ _) as [[i [d p]]|] eqn:Hfind; simpl.
    + right. apply (Hsplit _ (λ x, wants x.2 o)) in Hfind as (l1 & l2 & H1 & H2 & H3 & H4). by exists l1, d, p, l2.
    + left. split_and!; [done..|]. apply list_find_None in Hfind. rewrite Forall_forall in Hfind.
      intros w Hw%Hfind. by destruct (wants w.2 o).
  - intros p. unfold get, mbind, M_bind, gets. destruct (list_find _ _) as [[i o]|] eqn:Hfind; simpl; (split; [done|]).
    + left. apply (Hsplit _ (wants p)) in Hfind as (l1 & l2 & H1 & H2 & H3 & H4). by exists l1, o, l2.
    + right. split_and!; [done| |done..]. apply list_find_None in Hfind. rewrite Forall_forall in Hfind.
      intros x Hx%Hfind. by destruct (wants p x).
Qed.

(** Cancelling a reader that is not the last one waiting removes it but then
    raises [IndexError]: the loop goes on over the indices of the old list. *)
Theorem cancel_out_of_range q l1 d p l2 x
    (Hw : waiting q = l1 ++ (d, p) :: l2 ++ [x]) (Hnd : NoDup (waiting q).*1) :
  cancelGet d q = (Err IndexError, Mq (l1 ++ l2 ++ [x]) (queue q) (next_d q) (fired q)).
Proof.
  clear accepts. rewrite Hw, fmap_app in Hnd. csimpl in Hnd. rewrite fmap_app in Hnd. csimpl in Hnd.
  apply NoDup_app in Hnd as (_ & Hd1 & Hnd). apply NoDup_cons in Hnd as [Hd2 _].
  assert (∀ k n i q, (∀ j, i ≤ j → j < i + n → ∃ y, waiting q !! j = Some y ∧ y.1 ≠ d) →
    cancel_loop d (seq i (n + k)) q = cancel_loop d (seq (i + n) k) q) as Hskip.
  { intros k n. induction n as [|n IH]; intros i q' Hne; [by rewrite Nat.add_0_r|].
    destruct (Hne i) as (y & Hy & Hyd); [lia..|]. cbn [Nat.add seq cancel_loop].
    rewrite (bind_ok _ _ q' (waiting q') q'), Hy by done. cbn [from_some]. erewrite bind_ok by done.
    rewrite decide_False by done. erewrite bind_ok by done.
    rewrite IH by (intros j H1 H2; apply Hne; lia). by rewrite Nat.add_succ_comm. }
  unfold cancelGet. rewrite (bind_ok _ _ q (waiting q) q) by done.
  assert (length (waiting q) = length l1 + S (length l2 + 1)) as -> by (rewrite Hw, length_app; simpl; rewrite length_app; simpl; lia).
  rewrite Hskip.
  2:{ intros j _ Hj. destruct (lookup_lt_is_Some_2 l1 j) as [y Hy]; [lia|].
      exists y. split; [rewrite Hw; by apply lookup_app_l_Some|]. intros <-.
      apply (Hd1 y.1); [|set_solver]. apply list_elem_of_fmap. exists y. split; [done|].
      by apply list_elem_of_lookup_2 in Hy. }
  cbn [Nat.add seq cancel_loop]. rewrite (bind_ok _ _ q (waiting q) q) by done.
  rewrite Hw, list_lookup_middle by done. cbn [from_some]. erewrite bind_ok by done.
  rewrite decide_True by done. erewrite bind_ok by done.
  set (q1 := Mq _ _ _ _).
  assert (waiting q1 = l1 ++ l2 ++ [x]) as Hq1.
  { simpl. rewrite Hw. by rewrite delete_middle. }
  rewrite (Hskip 1 (length l2) (S (length l1)) q1).
  2:{ intros j H1 H2. destruct (lookup_lt_is_Some_2 (l2 ++ [x]) (j - length l1)) as [y Hy];
        [rewrite length_app; simpl; lia|].
      exists y. split; [by rewrite Hq1, lookup_app_r by lia|].
      intros <-. apply Hd2. rewrite <- fmap_snoc. apply list_elem_of_fmap. exists y. split; [done|].
      by apply list_elem_of_lookup_2 in Hy. }
  cbn [seq cancel_loop]. rewrite (bind_ok _ _ q1 (waiting q1) q1) by done.
  rewrite Hq1, lookup_ge_None_2 by (rewrite !length_app; simpl; lia).
  unfold q1. rewrite Hw. by rewrite delete_middle.
Qed.

End message_queue.

Lemma queue_invariant_witness :
  let q := (put (λ p o, Nat.eqb p o) 5 init).2 in
  settled (λ p o, Nat.eqb p o) (get (λ p o, Nat.eqb p o) (Some 5) q).2 ∧
  fresh (get (λ p o, Nat.eqb p o) (Some 5) q).2.
Proof.
  intros q. apply (queue_invariant (λ p o, Nat.eqb p o) q).
  - intros w o Hw. by apply elem_of_nil in Hw.
  - split; constructor.
Defined.

Lemma cancel_out_of_range_witness :
  cancelGet 0 (Mq [(0, None); (1, None)] ([] : list nat) 2 []) =
    (Err IndexError, Mq [(1, None)] [] 2 []).
Proof.
  apply (cancel_out_of_range (Mq [(0, None); (1, None)] ([] : list nat) 2 []) [] 0 None [] (1, None)).
  - reflexivity.
  - apply (bool_decide_unpack _). vm_compute. exact I.
Defined.
