(* ===== verification/IndexPool.v ===== *)
(** * Pools of indices

    The class [IndexPool] of src/common/utils/indexpool.py, over the [BitArray]
    of the bitstring package, which is library code: the class [BitArrayOps]
    lists the methods used and [BitArrayLaws] their documented behaviour, in
    terms of the list of bits an array holds.  A list of booleans is one
    implementation. *)
From S2P Require Import Prelude.
From stdpp Require Import base gmap list.
From Stdlib Require Import ZArith Lia.

Local Open Scope Z_scope.

(** Positions count from the end when negative, as everywhere in Python. *)
Definition norm_pos (len : nat) (p : Z) : option nat :=
  let p := if decide (p < 0) then p + Z.of_nat len else p in
  if decide (0 ≤ p < Z.of_nat len) then Some (Z.to_nat p) else None.

Class BitArrayOps (B : Type) := {
  ba_new : nat → B;
  ba_find0 : B → list Z;                    (* [find('0b0')]: a position, or nothing *)
  ba_get : B → Z → result bool;             (* [a[p]] *)
  ba_set : bool → list Z → M B unit;        (* [set(v, positions)] *)
}.

Class BitArrayLaws (B : Type) `{BitArrayOps B} := {
  bits : B → list bool;
  bits_new n : bits (ba_new n) = replicate n false;
  find0_spec b : ba_find0 b = match list_find (λ x, x = false) (bits b) with
                              | Some (i, _) => [Z.of_nat i]
                              | None => []
                              end;
  get_spec b p : ba_get b p = match norm_pos (length (bits b)) p ≫= λ i, bits b !! i with
                              | Some v => Ok v
                              | None => Err IndexError
                              end;
  set_nil v b : ba_set v [] b = (Ok tt, b);
  (** one position after the other, up to the first out of range *)
  set_cons v p ps b : match norm_pos (length (bits b)) p with
                      | Some i => ∃ b', bits b' = <[i := v]> (bits b) ∧ ba_set v (p :: ps) b = ba_set v ps b'
                      | None => ba_set v (p :: ps) b = (Err IndexError, b)
                      end;
}.

(** ** The pool *)
Record pool (B : Type) := Pool {
  max_entries : nat;
  offset : Z;
  indices : B;
}.
Arguments Pool {B}.
Arguments max_entries {B}.
Arguments offset {B}.
Arguments indices {B}.

Section index_pool.
Context {B : Type} `{HB : BitArrayOps B}.

Definition mkpool (n : nat) (off : Z) : pool B := Pool n off (ba_new n).

(** [self.indices.set(v, positions)] *)
Definition set_bits (v : bool) (ps : list Z) : M (pool B) unit :=
  zoom indices (λ b p, Pool (max_entries p) (offset p) b) (ba_set v ps).

(** [try: m except IndexError: return None] *)
Definition or_none {A} (m : M (pool B) (option A)) : M (pool B) (option A) := λ p,
  match m p with
  | (Err IndexError, p') => (Ok None, p')
  | r => r
  end.

Definition get_next : M (pool B) (option Z) := or_none (
  pos ← gets (λ p, ba_find0 (indices p));
  _ ← set_bits true pos;
  p0 ← from_some IndexError (head pos);
  off ← gets offset;
  mret (Some (off + p0))).

Definition allocate (index : Z) : M (pool B) (option Z) := or_none (
  off ← gets offset;
  n ← gets max_entries;
  let pos := index - off in
  if decide (¬ (0 ≤ pos < Z.of_nat n)) then mret None
  else
    r ← gets (λ p, ba_get (indices p) pos);
    taken ← lift r;
    if (taken : bool) then mret None
    else
      _ ← set_bits true [pos];
      mret (Some index)).

Definition release (index : Z) : M (pool B) unit := λ p,
  match set_bits false [index - offset p] p with
  | (Err IndexError, p') => (Ok tt, p')
  | r => r
  end.

(** [pre_allocate(index)] with a tuple; with anything else it does nothing. *)
Definition pre_allocate (index : list Z) : M (pool B) unit :=
  off ← gets offset;
  set_bits true ((λ i, i - off) <$> index).

End index_pool.

(** ** What a pool promises: a set of indices in a range *)
Section properties.
Context {B : Type} `{HB : BitArrayOps B} {HL : BitArrayLaws B}.
Implicit Types p : pool B.

Definition pool_wf p : Prop := length (bits (indices p)) = max_entries p.

Definition in_range p (i : Z) : Prop := offset p ≤ i < offset p + Z.of_nat (max_entries p).

(** [i] has been handed out. *)
Definition in_use p (i : Z) : Prop :=
  in_range p i ∧ bits (indices p) !! Z.to_nat (i - offset p) = Some true.

Lemma norm_pos_in n q : 0 ≤ q < Z.of_nat n → norm_pos n q = Some (Z.to_nat q).
Proof. intros Hq. unfold norm_pos. rewrite (decide_False (P := q < 0)) by lia. by rewrite decide_True. Qed.

Lemma set_one v q i p : pool_wf p → norm_pos (max_entries p) q = Some i →
  ∃ b, set_bits v [q] p = (Ok tt, Pool (max_entries p) (offset p) b) ∧ bits b = <[i := v]> (bits (indices p)).
Proof.
  intros Hwf Hq. pose proof (set_cons v q [] (indices p)) as Hs. rewrite Hwf, Hq in Hs.
  destruct Hs as (b & Hb & Hset). exists b. split; [|done]. unfold set_bits, zoom. by rewrite Hset, set_nil.
Qed.

(** The effect of setting the bit of an index on the set in use. *)
Lemma set_effect v i p b : pool_wf p → in_range p i →
  bits b = <[Z.to_nat (i - offset p) := v]> (bits (indices p)) →
  let p' := Pool (max_entries p) (offset p) b in
  pool_wf p' ∧ ∀ j, in_use p' j ↔ (j = i ∧ v = true) ∨ (j ≠ i ∧ in_use p j).
Proof.
  intros Hwf Hr Hb p'. unfold pool_wf, in_use, in_range in *. simpl. rewrite Hb. rewrite length_insert. split; [done|].
  intros j. destruct (decide (j = i)) as [->|Hne].
  - rewrite list_lookup_insert_eq by lia. naive_solver.
  - split.
    + intros [Hj Hl]. right. rewrite list_lookup_insert_ne in Hl by lia. done.
    + intros [[? _]|[_ [Hj Hl]]]; [done|]. split; [done|]. by rewrite list_lookup_insert_ne by lia.
Qed.

(** C39 A pool hands out indices of its range that are not in use, and nothing
    else changes: [get_next] gives the smallest free one, [allocate] the one
    asked for, each marked as in use; they give [None], changing nothing, when
    there is none or it is taken or out of range; [release] of an index of the
    range makes it free again. *)
Theorem pool_refines_set p (Hwf : pool_wf p) :
  (let '(r, p') := get_next p in pool_wf p' ∧
    ((∃ i, r = Ok (Some i) ∧ in_range p i ∧ ¬ in_use p i ∧ (∀ j, in_range p j → j < i → in_use p j) ∧
        ∀ j, in_use p' j ↔ j = i ∨ in_use p j) ∨
     (r = Ok None ∧ p' = p ∧ ∀ j, in_range p j → in_use p j))) ∧
  (∀ i, let '(r, p') := allocate i p in pool_wf p' ∧
    ((r = Ok (Some i) ∧ in_range p i ∧ ¬ in_use p i ∧ ∀ j, in_use p' j ↔ j = i ∨ in_use p j) ∨
     (r = Ok None ∧ p' = p ∧ (in_range p i → in_use p i)))) ∧
  (∀ i, in_range p i → let '(r, p') := release i p in pool_wf p' ∧ r = Ok tt ∧
    ∀ j, in_use p' j ↔ j ≠ i ∧ in_use p j).
Proof.
  split_and!.
  - unfold get_next, or_none, mbind, M_bind, gets. rewrite find0_spec.
    destruct (list_find _ _) as [[n x]|] eqn:Hf.
    + apply list_find_Some in Hf as (Hn & -> & Hbefore).
      assert (n < max_entries p)%nat as Hlt by (rewrite <- Hwf; by apply lookup_lt_Some in Hn).
      assert (in_range p (offset p + Z.of_nat n)) as Hr by (unfold in_range; lia).
      destruct (set_one true (Z.of_nat n) n p Hwf) as (b & Hset & Hb).
      { rewrite norm_pos_in by lia. by rewrite Nat2Z.id. }
      rewrite Hset. simpl.
      destruct (set_effect true (offset p + Z.of_nat n) p b Hwf Hr) as [Hwf' Hin].
      { rewrite Hb. do 2 f_equal. lia. }
      split; [done|]. left. eexists. split; [done|]. split; [done|]. split_and!.
      * intros [_ Hx]. replace (Z.to_nat (offset p + Z.of_nat n - offset p)) with n in Hx by lia. congruence.
      * intros j Hj Hjn. split; [done|]. unfold in_range in Hj.
        destruct (bits (indices p) !! Z.to_nat (j - offset p)) as [[]|] eqn:E; [done| |].
        -- exfalso. apply (Hbefore (Z.to_nat (j - offset p)) false E); [lia|done].
        -- apply lookup_ge_None in E. unfold pool_wf in Hwf. lia.
      * intros j. rewrite Hin. destruct (decide (j = offset p + Z.of_nat n)); naive_solver.
    + unfold set_bits, zoom. rewrite set_nil. destruct p as [n off b]. simpl. split; [done|].
      right. split_and!; [done..|]. intros j Hj. split; [done|]. simpl. apply list_find_None in Hf.
      unfold in_range, pool_wf in *. simpl in *.
      destruct (bits b !! Z.to_nat (j - off)) as [[]|] eqn:E; [done| |apply lookup_ge_None in E; lia].
      rewrite Forall_lookup in Hf. by apply Hf in E.
  - intros i. unfold allocate, or_none, mbind, M_bind, gets. case_decide as Hr.
    { split; [done|]. right. split_and!; [done..|]. intros Hin. unfold in_range in Hin. lia. }
    assert (in_range p i) as Hin by (unfold in_range; lia).
    unfold lift. rewrite get_spec, Hwf, norm_pos_in by done. simpl.
    destruct (bits (indices p) !! Z.to_nat (i - offset p)) as [[]|] eqn:E.
    + split; [done|]. right. split_and!; [done..|]. by intros _.
    + destruct (set_one true (i - offset p) (Z.to_nat (i - offset p)) p Hwf) as (b & Hset & Hb); [by apply norm_pos_in|].
      rewrite Hset. simpl. destruct (set_effect true i p b Hwf Hin Hb) as [Hwf' Hin'].
      split; [done|]. left. split_and!; [done..| |].
      * intros [_ Hx]. congruence.
      * intros j. rewrite Hin'. destruct (decide (j = i)); naive_solver.
    + apply lookup_ge_None in E. unfold pool_wf in Hwf. lia.
  - intros i Hin. unfold release.
    destruct (set_one false (i - offset p) (Z.to_nat (i - offset p)) p Hwf) as (b & Hset & Hb).
    { apply norm_pos_in. unfold in_range in Hin. lia. }
    rewrite Hset. destruct (set_effect false i p b Hwf Hin Hb) as [Hwf' Hin'].
    split_and!; [done..|]. intros j. rewrite Hin'. naive_solver.
Qed.

(** Releasing an index below the range is not ignored: positions below zero
    count from the end, and another index is freed. *)
Lemma release_below_range p i (Hwf : pool_wf p)
    (Hi : offset p - Z.of_nat (max_entries p) ≤ i < offset p) :
  let p' := (release i p).2 in
  ∀ j, in_use p' j ↔ j ≠ i + Z.of_nat (max_entries p) ∧ in_use p j.
Proof.
  set (k := i + Z.of_nat (max_entries p)). assert (in_range p k) as Hk by (unfold in_range, k; lia).
  unfold release. destruct (set_one false (i - offset p) (Z.to_nat (k - offset p)) p Hwf) as (b & Hset & Hb).
  { unfold norm_pos. rewrite (decide_True (P := i - offset p < 0)) by lia.
    rewrite decide_True by lia. f_equal. unfold k. lia. }
  rewrite Hset. destruct (set_effect false k p b Hwf Hk Hb) as [_ Hin']. cbv zeta. intros j. rewrite Hin'. naive_solver.
Qed.

End properties.

(** ** Lists of booleans are bit arrays *)
Fixpoint set_list (v : bool) (ps : list Z) : M (list bool) unit :=
  match ps with
  | [] => mret tt
  | q :: ps =>
      n ← gets length;
      i ← from_some IndexError (norm_pos n q);
      _ ← modify (<[i := v]>);
      set_list v ps
  end.

#[export] Instance list_bits : BitArrayOps (list bool) := {|
  ba_new n := replicate n false;
  ba_find0 b := match list_find (λ x, x = false) b with Some (i, _) => [Z.of_nat i] | None => [] end;
  ba_get b q := match norm_pos (length b) q ≫= λ i, b !! i with Some v => Ok v | None => Err IndexError end;
  ba_set := set_list;
|}.

#[export] Instance list_bits_laws : BitArrayLaws (list bool).
Proof.
  refine {| bits := id |}; try done.
  intros v q ps b. simpl. rewrite (bind_ok _ _ b (length b) b) by done. unfold id.
  destruct (norm_pos (length b) q) as [i|]; [|done]. exists (<[i := v]> b). done.
Defined.

Lemma pool_refines_set_witness :
  (get_next (Pool 3 1024 [true; false; false])).1 = Ok (Some 1025) ∧
  (let '(r, p') := release 1024 (Pool 3 1024 [true; false; false]) in pool_wf p' ∧ r = Ok tt ∧
     ∀ j, in_use p' j ↔ j ≠ 1024 ∧ in_use (Pool 3 1024 [true; false; false]) j).
Proof.
  split; [reflexivity|].
  apply (pool_refines_set (Pool 3 1024 [true; false; false])); [reflexivity|]. split; simpl; lia.
Defined.
