(* ===== verification/IdGeneration.v ===== *)
(** * Cluster-wide identifiers

    The functions of src/common/utils/id_generation.py: 64-bit ids in
    hexadecimal, the core in the upper 16 bits and the object in the lower 48.
    Numbers are natural, as ids are; what [uuid4] returns is an argument. *)
From S2P Require Import Prelude.
From Stdlib Require Import Ascii.
From stdpp Require Import base list strings numbers.
From Stdlib Require Import NArith Lia.

Local Open Scope N_scope.

(** ** Hexadecimal *)

Definition hex_digit (d : N) : ascii :=
  ascii_of_N (if decide (d < 10) then 48 + d else 87 + d).

(** [int(c, base)] of one character *)
Definition digit_of (base : N) (a : ascii) : option N :=
  let n := N_of_ascii a in
  let d := if decide (48 ≤ n ≤ 57) then Some (n - 48)
           else if decide (97 ≤ n ≤ 102) then Some (n - 87)
           else if decide (65 ≤ n ≤ 70) then Some (n - 55)
           else None in
  d ← d; if decide (d < base) then Some d else None.

Fixpoint hex_loop (fuel : nat) (n : N) (acc : string) : string :=
  match fuel with
  | O => acc
  | S fuel =>
      if decide (n < 16) then String (hex_digit n) acc
      else hex_loop fuel (n / 16) (String (hex_digit (n mod 16)) acc)
  end.

(** [format(n, 'x')]; one digit for four bits *)
Definition hex (n : N) : string := hex_loop (S (N.to_nat (N.log2 n))) n "".

Fixpoint zeros (k : nat) : string :=
  match k with O => "" | S k => String "0" (zeros k) end.

(** [format(n, '0<w>x')] *)
Definition format_x (w : nat) (n : N) : string := zeros (w - String.length (hex n)) +:+ hex n.

Fixpoint parse_from (base : N) (s : string) (acc : N) : option N :=
  match s with
  | EmptyString => Some acc
  | String a s => d ← digit_of base a; parse_from base s (base * acc + d)
  end.

(** [int(s, base)] of a string of digits *)
Definition int_base (base : N) (s : string) : result N :=
  match s with
  | EmptyString => Err ValueError
  | _ => match parse_from base s 0 with Some n => Ok n | None => Err ValueError end
  end.

(** [s[-k:]] and [s[:k]] *)
Definition last_chars (k : nat) (s : string) : string := String.substring (String.length s - k) k s.
Definition first_chars (k : nat) (s : string) : string := String.substring 0 k s.

(** ** The functions *)

Definition BROADCAST_CORE_ID : string := hex 0xFFFF.

Definition get_next_core_id (current : option string) : result string :=
  match current with
  | None | Some EmptyString => Ok "0001"
  | Some s => match int_base 16 s with
              | Ok n => Ok (format_x 4 (n + 1))
              | Err e => Err e
              end
  end.

Definition create_cluster_logical_device_ids (core_id : string) (switch_id : N) : result (string * N) :=
  match int_base 16 core_id with
  | Err e => Err e
  | Ok c =>
      let sw := last_chars 12 (format_x 12 switch_id) in
      let ld_id := last_chars 4 (format_x 4 c) +:+ sw in
      match int_base 16 ("0000" +:+ sw) with
      | Ok dpid => Ok (ld_id, dpid)
      | Err e => Err e
      end
  end.

Definition is_broadcast_core_id (id : string) : result bool :=
  if decide (String.length id = 16%nat) then Ok (bool_decide (first_chars 4 id = BROADCAST_CORE_ID))
  else Err AssertionError.

Definition create_empty_broadcast_id : string := BROADCAST_CORE_ID +:+ zeros 12.

Definition create_cluster_id (uuid : string) : string := BROADCAST_CORE_ID +:+ first_chars 12 uuid.

(** [int(core_id)] is decimal here. *)
Definition create_cluster_device_id (core_id uuid : string) : result string :=
  match int_base 10 core_id with
  | Ok n => Ok (format_x 4 n +:+ first_chars 12 uuid)
  | Err e => Err e
  end.

Definition get_core_id_from_device_id (id : string) : result string :=
  if decide (String.length id = 16%nat) then Ok (first_chars 4 id) else Err AssertionError.

Definition get_core_id_from_logical_device_id (id : string) : result string :=
  if decide (String.length id = 16%nat) then Ok (first_chars 4 id) else Err AssertionError.

(** [hex(n)[2:]]: Python 2 puts an [L] after a [long], which the [uint64]
    fields of protobuf messages are. *)
Definition get_core_id_from_datapath_id (datapath_id : N) (is_long : bool) : result string :=
  let s := hex datapath_id +:+ (if is_long then "L" else "") in
  if decide (datapath_id = 0) then Err AssertionError
  else if decide (12 < String.length s)%nat then Ok (first_chars (String.length s - 12) s)
  else Err AssertionError.

(** ** Lemmas *)

Lemma digit_hex d : d < 16 → digit_of 16 (hex_digit d) = Some d.
Proof.
  intros Hd. destruct d as [|p]; [done|].
  do 4 (destruct p as [p|p|]; try done; try lia).
Qed.

Lemma parse_hex_loop fuel n acc : n < 16 ^ N.of_nat fuel → (0 < fuel)%nat →
  parse_from 16 (hex_loop fuel n acc) 0 = parse_from 16 acc n.
Proof.
  revert n acc. induction fuel as [|fuel IH]; intros n acc Hn Hf; [lia|]. cbn [hex_loop].
  case_decide as Hlt.
  - cbn [parse_from]. rewrite digit_hex by done. cbn. f_equal.
  - destruct fuel as [|fuel]; [simpl in Hn; lia|].
    rewrite IH; [|apply N.Div0.div_lt_upper_bound; rewrite Nat2N.inj_succ, N.pow_succ_r' in Hn; lia|lia].
    cbn [parse_from]. rewrite digit_hex by (apply N.mod_lt; lia). cbn [mbind option_bind].
    f_equal. pose proof (N.Div0.div_mod n 16). lia.
Qed.

Lemma hex_bound n : n < 16 ^ N.of_nat (S (N.to_nat (N.log2 n))).
Proof.
  rewrite Nat2N.inj_succ, N2Nat.id. destruct (decide (n = 0)) as [->|Hn]; [done|].
  destruct (N.log2_spec n) as [_ H]; [lia|]. eapply N.lt_le_trans; [exact H|].
  change 16 with (2 ^ 4). rewrite <- N.pow_mul_r. apply N.pow_le_mono_r; lia.
Qed.

Lemma parse_hex n : parse_from 16 (hex n) 0 = Some n.
Proof. unfold hex. rewrite parse_hex_loop; [done|apply hex_bound|lia]. Qed.

Lemma parse_zeros k s : parse_from 16 (zeros k +:+ s) 0 = parse_from 16 s 0.
Proof. induction k as [|k IH]; [done|]. exact IH. Qed.

Lemma parse_format w n : parse_from 16 (format_x w n) 0 = Some n.
Proof. unfold format_x. by rewrite parse_zeros, parse_hex. Qed.

Lemma app_cons c s1 s2 : String c s1 +:+ s2 = String c (s1 +:+ s2).
Proof. done. Qed.

(** The digits of a concatenation. *)
Lemma parse_app base s1 s2 a : parse_from base (s1 +:+ s2) a = m ← parse_from base s1 a; parse_from base s2 m.
Proof.
  revert a. induction s1 as [|c s1 IH]; intros a; [done|]. rewrite app_cons. cbn [parse_from].
  destruct (digit_of base c); [apply IH|done].
Qed.

(** Whether a string parses does not depend on what comes before it. *)
Lemma parse_None base s a b : parse_from base s a = None → parse_from base s b = None.
Proof.
  revert a b. induction s as [|c s IH]; intros a b; [done|]. cbn [parse_from].
  destruct (digit_of base c); [apply IH|done].
Qed.

Lemma digit_of_lt base c d : digit_of base c = Some d → d < base.
Proof. unfold digit_of. intros H. apply bind_Some in H as (d' & _ & H). case_decide; simplify_eq; done. Qed.

Lemma parse_acc base s a n : parse_from base s a = Some n →
  ∃ m, parse_from base s 0 = Some m ∧ n = base ^ N.of_nat (String.length s) * a + m ∧ m < base ^ N.of_nat (String.length s).
Proof.
  revert a n. induction s as [|c s IH]; intros a n; cbn [parse_from String.length].
  - intros [= <-]. exists 0. simpl. split_and!; [done|lia|lia].
  - destruct (digit_of base c) as [d|] eqn:Hd; [|done]. cbn. intros Hn. apply digit_of_lt in Hd.
    apply IH in Hn as (m1 & Hm1 & -> & Hlt1). destruct (parse_from base s (base * 0 + d)) as [m2|] eqn:Hm2.
    + exists m2. split; [done|]. apply IH in Hm2 as (m3 & Hm3 & -> & _). simplify_eq.
      rewrite Nat2N.inj_succ, N.pow_succ_r'. split; [lia|]. nia.
    + by rewrite (parse_None _ _ _ 0 Hm2) in Hm1.
Qed.

Lemma substring_all s k : (String.length s ≤ k)%nat → String.substring 0 k s = s.
Proof.
  revert k. induction s as [|c s IH]; intros k Hk; [by destruct k|]. destruct k; simpl in *; [lia|]. by rewrite IH by lia.
Qed.

Lemma substring_split k s : (k ≤ String.length s)%nat →
  s = String.substring 0 k s +:+ String.substring k (String.length s - k) s ∧
  String.length (String.substring 0 k s) = k ∧ String.length (String.substring k (String.length s - k) s) = (String.length s - k)%nat.
Proof.
  revert k. induction s as [|c s IH]; intros k Hk; [destruct k; simpl in *; [done|lia]|].
  destruct k as [|k].
  - simpl. rewrite substring_all by lia. done.
  - simpl in *. destruct (IH k) as (H1 & H2 & H3); [lia|]. split_and!; [|by rewrite H2|done].
    rewrite H1 at 1. done.
Qed.

Lemma string_length_app s1 s2 : String.length (s1 +:+ s2) = (String.length s1 + String.length s2)%nat.
Proof. induction s1 as [|c s1 IH]; [done|]. rewrite app_cons. simpl. by rewrite IH. Qed.

Lemma append_inj s1 s2 a b : s1 +:+ s2 = a +:+ b → String.length s1 = String.length a → s1 = a.
Proof.
  revert a. induction s1 as [|c s1 IH]; intros [|d a]; simpl; try done. rewrite !app_cons.
  intros [= -> Hs] [= Hl]. f_equal. by apply IH.
Qed.

Lemma zeros_length k : String.length (zeros k) = k.
Proof. induction k; simpl; auto. Qed.

Lemma format_length w n : (w ≤ String.length (format_x w n))%nat.
Proof. unfold format_x. rewrite string_length_app, zeros_length. lia. Qed.

(** The last digits are the remainder. *)
Lemma last_format w n : (0 < w)%nat →
  String.length (last_chars w (format_x w n)) = w ∧
  parse_from 16 (last_chars w (format_x w n)) 0 = Some (n mod 16 ^ N.of_nat w).
Proof.
  intros Hw. set (s := format_x w n). pose proof (format_length w n) as Hlen. fold s in Hlen.
  unfold last_chars. destruct (substring_split (String.length s - w) s) as (Hs & _ & Hl); [lia|].
  replace (String.length s - (String.length s - w))%nat with w in Hs, Hl by lia.
  split; [done|]. pose proof (parse_format w n) as Hp. fold s in Hp. rewrite Hs in Hp.
  rewrite parse_app in Hp. apply bind_Some in Hp as (m & _ & Hp). apply parse_acc in Hp as (r & Hr & Hn & Hlt). rewrite Hl in Hlt, Hn.
  rewrite Hr. f_equal. rewrite Hn, N.mul_comm, N.add_comm, N.Div0.mod_add. by rewrite N.mod_small.
Qed.

Lemma int_base_Some base s n : s ≠ "" → parse_from base s 0 = Some n → int_base base s = Ok n.
Proof. intros Hne Hp. unfold int_base. destruct s; [done|]. by rewrite Hp. Qed.

Lemma parse_concat s1 s2 a b : parse_from 16 s1 0 = Some a → parse_from 16 s2 0 = Some b →
  parse_from 16 (s1 +:+ s2) 0 = Some (a * 16 ^ N.of_nat (String.length s2) + b).
Proof.
  intros H1 H2. rewrite parse_app, H1. cbn [mbind option_bind].
  destruct (parse_from 16 s2 a) as [n|] eqn:Hn; [|by rewrite (parse_None _ _ _ 0 Hn) in H2].
  apply parse_acc in Hn as (r & Hr & -> & _). simplify_eq. f_equal. lia.
Qed.

(** ** Properties *)

(** A logical device id is 16 digits that hold the low 16 bits of the core id
    and the low 48 bits of the switch id, from which both can be read back; the
    datapath id is the switch id's part. *)
Theorem logical_ids_roundtrip core_id c switch_id (Hcore : int_base 16 core_id = Ok c) :
  ∃ ld_id core, create_cluster_logical_device_ids core_id switch_id = Ok (ld_id, switch_id mod 2 ^ 48) ∧
    String.length ld_id = 16%nat ∧
    int_base 16 ld_id = Ok ((c mod 2 ^ 16) * 2 ^ 48 + switch_id mod 2 ^ 48) ∧
    get_core_id_from_logical_device_id ld_id = Ok core ∧ int_base 16 core = Ok (c mod 2 ^ 16).
Proof.
  destruct (last_format 4 c) as [Hl1 Hp1]; [lia|]. destruct (last_format 12 switch_id) as [Hl2 Hp2]; [lia|].
  change (16 ^ N.of_nat 4) with (2 ^ 16) in Hp1. change (16 ^ N.of_nat 12) with (2 ^ 48) in Hp2.
  set (s1 := last_chars 4 (format_x 4 c)) in *. set (s2 := last_chars 12 (format_x 12 switch_id)) in *.
  assert (s1 ≠ "" ∧ s1 +:+ s2 ≠ "") as [Hne1 Hne] by (destruct s1; done).
  assert (String.length (s1 +:+ s2) = 16%nat) as Hlen by (rewrite string_length_app; lia).
  exists (s1 +:+ s2), s1. split_and!.
  - unfold create_cluster_logical_device_ids. rewrite Hcore. fold s1 s2.
    erewrite (int_base_Some 16 ("0000" +:+ s2)); [done|done|].
    change ("0000" +:+ s2) with (zeros 4 +:+ s2). by rewrite parse_zeros.
  - done.
  - apply int_base_Some; [done|]. erewrite parse_concat by done. rewrite Hl2. done.
  - unfold get_core_id_from_logical_device_id, first_chars. rewrite decide_True by done. f_equal.
    destruct (substring_split 4 (s1 +:+ s2)) as (Hs & Hl & _); [lia|].
    symmetry. eapply append_inj; [exact Hs|]. by rewrite Hl.
  - by apply int_base_Some.
Qed.

(** Core ids count up by one, in four or more digits. *)
Theorem next_core_id n : get_next_core_id (Some (format_x 4 n)) = Ok (format_x 4 (n + 1)).
Proof.
  pose proof (format_length 4 n) as Hl. unfold get_next_core_id.
  assert (int_base 16 (format_x 4 n) = Ok n) as Hi.
  { apply int_base_Some; [|apply parse_format]. intros He. rewrite He in Hl. simpl in Hl. lia. }
  destruct (format_x 4 n); [simpl in Hl; lia|]. by rewrite Hi.
Qed.

(** Device ids do not carry the core id of the logical device ids: the core id
    is read as a decimal number. *)
Example device_id_core_differs :
  (∃ id, create_cluster_device_id "0010" "0123456789abcdef" = Ok id ∧ get_core_id_from_device_id id = Ok "000a") ∧
  create_cluster_device_id "000a" "0123456789abcdef" = Err ValueError.
Proof. split; [eexists; split|]; reflexivity. Qed.

(** Of a [long] datapath id the core id has a digit too many. *)
Example long_datapath_id :
  get_core_id_from_datapath_id 0x0001000000000002 false = Ok "1" ∧
  get_core_id_from_datapath_id 0x0001000000000002 true = Ok "10".
Proof. split; reflexivity. Qed.

Lemma logical_ids_roundtrip_witness :
  ∃ ld_id core, create_cluster_logical_device_ids "0001" 0xABC = Ok (ld_id, 0xABC mod 2 ^ 48) ∧
    String.length ld_id = 16%nat ∧
    int_base 16 ld_id = Ok ((1 mod 2 ^ 16) * 2 ^ 48 + 0xABC mod 2 ^ 48) ∧
    get_core_id_from_logical_device_id ld_id = Ok core ∧ int_base 16 core = Ok (1 mod 2 ^ 16).
Proof. apply (logical_ids_roundtrip "0001" 1 0xABC). reflexivity. Defined.
