(* ===== verification/MibDb.v ===== *)
(** * The MIB database of OpenOMCI

    The class [MibDbVolatileDict] of
    src/voltha/extensions/omci/database/mib_db_dict.py, with the state of its
    base class (mib_db_api.py): per ONU, the instances of the managed entities
    and their attributes.

    The dictionary of an instance's attributes is an object that queries hand
    out, so it lives in a heap and instances hold references.  The classes of
    managed entities, with the conversion of packed attribute values, and the
    JSON library are parameters; [now] is the clock. *)
From S2P Require Import Prelude.
From stdpp Require Import base gmap list strings.
From Stdlib Require Import ZArith Lia.

Local Open Scope Z_scope.

(** ** Attribute values

    Strings, unicode strings and numbers are given by their content, lists,
    dictionaries and other values by their canonical text. *)
Inductive aval :=
  | AStr (s : string)
  | AUni (s : string)
  | AInt (n : Z)
  | AList (text : string)
  | ADict (text : string)
  | AOther (type text : string)
  | ANone.

#[export] Instance aval_eq_dec : EqDecision aval.
Proof. solve_decision. Defined.

(** [isinstance(v, type(w))] *)
Definition same_type (v w : aval) : bool :=
  match v, w with
  | AStr _, AStr _ | AUni _, AUni _ | AInt _, AInt _ | AList _, AList _ | ADict _, ADict _ | ANone, ANone => true
  | AOther t _, AOther t' _ => bool_decide (t = t')
  | _, _ => false
  end.

(** An attribute's value as [set] gets it: a plain value, or an object with a
    [to_json] method. *)
Inductive input :=
  | Plain (v : aval)
  | Obj (to_json : aval).

(** [json.loads] ([None]: [ValueError]) and [json.dumps] *)
Class Json := {
  loads : string → option aval;
  dumps : aval → string;
}.

(** A class of managed entities: its attributes, with the [json_from_value] of
    those that are packed strings with one. *)
Record entity := Entity {
  e_name : string;
  e_attributes : gmap string (option (string → result aval));
}.

(** ** The database *)
Record instance := Instance_ {
  i_created : Z;
  i_modified : Z;
  i_attributes : nat;
}.

Record device_db := DeviceDb {
  v_created : Z;
  v_last_sync : option Z;
  v_mds : Z;
  v_managed_entities : gmap Z string;
  v_message_types : gset Z;
  v_classes : gmap Z (gmap Z instance);
}.

Record mibdb := MibDb {
  started : bool;
  modified : Z;
  data : gmap string device_db;
  attrs : gmap nat (gmap string aval);
  next_ref : nat;
}.

Definition set_data (f : gmap string device_db → gmap string device_db) (s : mibdb) : mibdb :=
  MibDb (started s) (modified s) (f (data s)) (attrs s) (next_ref s).
Definition set_modified (t : Z) (s : mibdb) : mibdb :=
  MibDb (started s) t (data s) (attrs s) (next_ref s).
Definition set_attrs (f : gmap nat (gmap string aval) → gmap nat (gmap string aval)) (s : mibdb) : mibdb :=
  MibDb (started s) (modified s) (data s) (f (attrs s)) (next_ref s).

Definition set_classes (f : gmap Z (gmap Z instance) → gmap Z (gmap Z instance)) (d : device_db) : device_db :=
  DeviceDb (v_created d) (v_last_sync d) (v_mds d) (v_managed_entities d) (v_message_types d) (f (v_classes d)).

Section mib_db.
Context {HO : DictOrder} {HJ : Json}.
Context (get_me_map : string → result (gmap Z entity)).
Context (now : Z).

Definition init : mibdb := MibDb false now ∅ ∅ 0.

Definition start : M mibdb unit := modify (λ s, MibDb true (modified s) (data s) (attrs s) (next_ref s)).
Definition stop : M mibdb unit := modify (λ s, MibDb false (modified s) (data s) (attrs s) (next_ref s)).

Definition check_started : M mibdb unit :=
  b ← gets started; if (b : bool) then mret tt else raise DatabaseStateError.

Definition device (id : string) : M mibdb device_db :=
  d ← gets data; from_some KeyError (d !! id).

Definition touch : M mibdb unit := modify (set_modified now).

Definition add (id : string) (overwrite : bool) : M mibdb unit :=
  _ ← check_started;
  d ← gets data;
  if decide (overwrite = false ∧ is_Some (d !! id)) then raise KeyError
  else modify (set_data (<[id := DeviceDb now None 0 ∅ ∅ ∅]>)).

Definition remove (id : string) : M mibdb unit :=
  _ ← check_started;
  d ← gets data;
  if decide (is_Some (d !! id)) then
    _ ← modify (set_data (delete id)); touch
  else mret tt.

Definition on_mib_reset (id : string) : M mibdb unit :=
  _ ← check_started;
  d ← device id;
  _ ← touch;
  modify (set_data (<[id := DeviceDb (v_created d) (v_last_sync d) 0 (v_managed_entities d) (v_message_types d) ∅]>)).

Definition save_mib_data_sync (id : string) (v : Z) : M mibdb unit :=
  if decide (¬ (0 ≤ v ≤ 255)) then raise ValueError
  else
    d ← device id;
    _ ← modify (set_data (<[id := DeviceDb (v_created d) (v_last_sync d) v (v_managed_entities d)
                                    (v_message_types d) (v_classes d)]>));
    touch.

Definition get_mib_data_sync (id : string) : M mibdb (option Z) :=
  d ← gets data; mret (v_mds <$> d !! id).

Definition save_last_sync (id : string) (v : Z) : M mibdb unit :=
  d ← device id;
  _ ← modify (set_data (<[id := DeviceDb (v_created d) (Some v) (v_mds d) (v_managed_entities d)
                                  (v_message_types d) (v_classes d)]>));
  touch.

Definition get_last_sync (id : string) : M mibdb (option Z) :=
  d ← gets data; mret (d !! id ≫= v_last_sync).

(** ** [set] *)

(** The value to store for an attribute of an entity. *)
Definition encode (e : option entity) (attribute : string) (value : input) : result aval :=
  let value :=
    match e, value with
    | Some e, Plain (AStr s) | Some e, Plain (AUni s) =>
        match e_attributes e !! attribute with
        | None => Err KeyError
        | Some None => Ok value
        | Some (Some json_from_value) =>
            match json_from_value s with Ok v => Ok (Plain v) | Err x => Err x end
        end
    | _, _ => Ok value
    end in
  match value with
  | Err x => Err x
  | Ok (Obj v) => Ok v
  | Ok (Plain (AList t)) => Ok (AStr (dumps (AList t)))
  | Ok (Plain (ADict t)) => Ok (AStr (dumps (ADict t)))
  | Ok (Plain v) => Ok v
  end.

Definition set_attribute (e : option entity) (ref : nat) (changed : bool) (item : string * input) : M mibdb bool :=
  let '(attribute, value) := item in
  _ ← passert (match value with Plain ANone => false | _ => true end);
  value ← lift (encode e attribute value);
  h ← gets attrs;
  a ← from_some KeyError (h !! ref);
  let db_value := match a !! attribute with Some ANone | None => None | Some v => Some v end in
  _ ← passert (match db_value with None => true | Some w => same_type value w end);
  if decide (db_value = Some value) then mret changed
  else
    _ ← modify (set_attrs (<[ref := <[attribute := value]> a]>));
    mret true.

(** [device_db[class_id] = {...}] when the class is new *)
Definition ensure_class (id : string) (class_id : Z) : M mibdb unit :=
  d ← device id;
  match v_classes d !! class_id with
  | Some _ => mret tt
  | None => _ ← modify (set_data (<[id := set_classes (<[class_id := ∅]>) d]>)); touch
  end.

(** [class_db[instance_id] = {...}] when the instance is new *)
Definition ensure_instance (id : string) (class_id instance_id : Z) : M mibdb nat :=
  d ← device id;
  c ← from_some KeyError (v_classes d !! class_id);
  match c !! instance_id with
  | Some i => mret (i_attributes i)
  | None =>
      ref ← gets next_ref;
      _ ← modify (λ s, MibDb (started s) (modified s)
              (<[id := set_classes (<[class_id := <[instance_id := Instance_ now now ref]> c]>) d]> (data s))
              (<[ref := ∅]> (attrs s)) (S ref));
      _ ← touch;
      mret ref
  end.

(** [instance_db[MODIFIED_KEY] = now] *)
Definition mark_instance (id : string) (class_id instance_id : Z) : M mibdb unit :=
  modify (set_data (alter (set_classes (alter (alter (λ i, Instance_ (i_created i) now (i_attributes i)) instance_id) class_id)) id)).

Definition id_ok (n : Z) : Prop := 0 ≤ n ≤ 0xFFFF.

#[global] Instance id_ok_dec n : Decision (id_ok n).
Proof. unfold id_ok. apply _. Defined.

Definition set (id : string) (class_id instance_id : Z) (attributes : gmap string input) : M mibdb bool :=
  if decide (¬ id_ok class_id) then raise ValueError
  else if decide (¬ id_ok instance_id) then raise ValueError
  else
    _ ← check_started;
    _ ← ensure_class id class_id;
    ref ← ensure_instance id class_id instance_id;
    me_map ← lift (get_me_map id);
    changed ← foldM (set_attribute (me_map !! class_id) ref) false (iteritems attributes);
    _ ← (if (changed : bool) then _ ← mark_instance id class_id instance_id; touch else mret tt);
    mret changed.

(** ** [delete] *)
Definition delete_me (id : string) (class_id instance_id : Z) : M mibdb bool :=
  _ ← check_started;
  if decide (¬ id_ok class_id) then raise ValueError
  else if decide (¬ id_ok instance_id) then raise ValueError
  else
    d ← device id;
    match v_classes d !! class_id with
    | None => mret false
    | Some c =>
        match c !! instance_id with
        | None => mret false
        | Some _ =>
            let c' := delete instance_id c in
            _ ← modify (set_data (<[id := set_classes
                  (if decide (size c' = 0%nat) then delete class_id else <[class_id := c']>) d]>));
            _ ← touch;
            mret true
        end
    end.

(** ** [query] *)

(** What a query returns: a copy of the device's, class's or instance's
    dictionary, in which an instance still refers to the attributes of the
    database, or a fresh dictionary of attributes. *)
Inductive answer :=
  | DevAnswer (d : device_db)
  | ClassAnswer (c : gmap Z instance)
  | InstAnswer (i : option instance)
  | AttrAnswer (a : gmap string aval).

(** [_fix_attr_json_attribute] *)
Definition fix_attr_json_attribute (v : aval) : aval :=
  match v with
  | AStr s | AUni s => default v (loads s)
  | _ => v
  end.

(** [_fix_inst_json_attributes]: the copy of the instance is shallow, so what is
    written is the database's own dictionary. *)
Definition fix_inst_json_attributes (i : instance) : M mibdb unit :=
  modify (set_attrs (alter (fmap fix_attr_json_attribute) (i_attributes i))).

Definition fix_cls_json_attributes (c : gmap Z instance) : M mibdb unit :=
  forM_ (λ p, fix_inst_json_attributes p.2) (iteritems c).

Definition fix_dev_json_attributes (d : device_db) : M mibdb unit :=
  forM_ (λ p, fix_cls_json_attributes p.2) (iteritems (v_classes d)).

Definition query (id : string) (class_id instance_id : option Z) (attributes : option (list string)) : M mibdb answer :=
  _ ← check_started;
  d ← device id;
  match class_id with
  | None => _ ← fix_dev_json_attributes d; mret (DevAnswer d)
  | Some class_id =>
      match v_classes d !! class_id, instance_id with
      | None, _ => mret (ClassAnswer ∅)
      | Some c, None => _ ← fix_cls_json_attributes c; mret (ClassAnswer c)
      | Some c, Some instance_id =>
          match c !! instance_id, attributes with
          | None, _ => mret (InstAnswer None)
          | Some i, None => _ ← fix_inst_json_attributes i; mret (InstAnswer (Some i))
          | Some i, Some names =>
              h ← gets attrs;
              a ← from_some KeyError (h !! i_attributes i);
              mret (AttrAnswer (fix_attr_json_attribute <$> filter (λ p, p.1 ∈ names) a))
          end
      end
  end.

(** ** Capabilities *)
Definition managed_entity_to_name (me_map : gmap Z entity) (class_id : Z) : string :=
  match me_map !! class_id with Some e => e_name e | None => "UnknownManagedEntity" end.

Definition update_supported_managed_entities (id : string) (managed_entities : gset Z) : M mibdb unit :=
  d ← device id;
  me_map ← (if decide (managed_entities = ∅) then mret ∅ else lift (get_me_map id));
  _ ← modify (set_data (<[id := DeviceDb (v_created d) (v_last_sync d) (v_mds d)
                                  (set_to_map (λ c, (c, managed_entity_to_name me_map c)) managed_entities)
                                  (v_message_types d) (v_classes d)]>));
  touch.

Definition update_supported_message_types (id : string) (msg_types : gset Z) : M mibdb unit :=
  d ← device id;
  _ ← modify (set_data (<[id := DeviceDb (v_created d) (v_last_sync d) (v_mds d) (v_managed_entities d)
                                  msg_types (v_classes d)]>));
  touch.

End mib_db.

(** ** Properties *)
Section properties.
Context {HO : DictOrder} {HJ : Json}.
Context (get_me_map : string → result (gmap Z entity)) (now : Z).

(** The attributes of an instance, where they are. *)
Definition ref_of (s : mibdb) (p : string * Z * Z) : option nat :=
  d ← data s !! p.1.1; c ← v_classes d !! p.1.2; i_attributes <$> c !! p.2.

Definition stored (s : mibdb) (p : string * Z * Z) : option (gmap string aval) :=
  r ← ref_of s p; attrs s !! r.

(** The shape of the database: sync counters in a byte, class and instance ids
    in 16 bits, no class without instances, and every instance with attributes
    of its own. *)
Definition device_wf (d : device_db) : Prop :=
  0 ≤ v_mds d ≤ 255 ∧
  map_Forall (λ cid c, id_ok cid ∧ c ≠ ∅ ∧ map_Forall (λ iid _, id_ok iid) c) (v_classes d).

Record mib_wf (s : mibdb) : Prop := {
  wf_devices : map_Forall (λ _ d, device_wf d) (data s);
  wf_refs : ∀ p r, ref_of s p = Some r → is_Some (attrs s !! r) ∧ (r < next_ref s)%nat;
  wf_own : ∀ p q r, ref_of s p = Some r → ref_of s q = Some r → p = q;
}.

(** A change of the devices that keeps or drops instances. *)
Lemma wf_shrink s f :
  mib_wf s → map_Forall (λ _ d, device_wf d) (f (data s)) →
  (∀ p r, ref_of (set_data f s) p = Some r → ref_of s p = Some r) → mib_wf (set_data f s).
Proof.
  intros [H1 H2 H3] Hd Hr. split; [done| |].
  - intros p r Hp%Hr. by apply H2 in Hp.
  - intros p q r Hp%Hr Hq%Hr. by eapply H3.
Qed.

Lemma wf_touch t s : mib_wf s → mib_wf (set_modified t s).
Proof. intros [H1 H2 H3]. by split. Qed.

(** Replacing a device by one with some of its instances. *)
Lemma wf_device s id d d' :
  mib_wf s → data s !! id = Some d → device_wf d' →
  (∀ cid iid c i, v_classes d' !! cid = Some c → c !! iid = Some i →
     ∃ c0 i0, v_classes d !! cid = Some c0 ∧ c0 !! iid = Some i0 ∧ i_attributes i0 = i_attributes i) →
  mib_wf (set_data (<[id := d']>) s).
Proof.
  intros Hwf Hd Hd' Hsub. apply wf_shrink; [done| |].
  - apply map_Forall_insert_2; [done|]. by destruct Hwf.
  - intros [[id' cid] iid] r. unfold ref_of. simpl. destruct (decide (id' = id)) as [->|].
    + rewrite lookup_insert_eq, Hd. simpl. destruct (v_classes d' !! cid) as [c|] eqn:Hc; [|done]. simpl.
      destruct (c !! iid) as [i|] eqn:Hi; [|done]. simpl. intros [= <-].
      destruct (Hsub _ _ _ _ Hc Hi) as (c0 & i0 & -> & Hi0 & <-). simpl. by rewrite Hi0.
    + by rewrite lookup_insert_ne.
Qed.

Lemma wf_attrs s f :
  mib_wf s → (∀ r, is_Some (attrs s !! r) → is_Some (f (attrs s) !! r)) → mib_wf (set_attrs f s).
Proof.
  intros [H1 H2 H3] Hf. split; [done| |done]. intros p r Hp. apply H2 in Hp as [? ?]. split; [by apply Hf|done].
Qed.

Notation keeps m := (triple mib_wf m (λ _, mib_wf) (λ _, mib_wf)).

Lemma keeps_read {A} (m : M mibdb A) : (∀ s, (m s).2 = s) → keeps m.
Proof. intros Hm s Hs. specialize (Hm s). destruct (m s) as [[a|e] s']; simpl in Hm; by subst. Qed.

Lemma keeps_bind {A B} (m : M mibdb A) (k : A → M mibdb B) : keeps m → (∀ a, keeps (k a)) → keeps (m ≫= k).
Proof. intros Hm Hk. by eapply triple_bind. Qed.

Lemma keeps_started : keeps check_started.
Proof. apply keeps_read. intros s. unfold check_started, mbind, M_bind, gets. by destruct (started s). Qed.

Lemma keeps_touch : keeps (touch now).
Proof. intros s Hs. by apply wf_touch. Qed.

Lemma device_triple id P :
  triple P (device id) (λ d s, P s ∧ data s !! id = Some d) (λ _, P).
Proof.
  intros s Hs. unfold device, mbind, M_bind, gets. by destruct (data s !! id) eqn:E.
Qed.

(** Storing a new version of a device, as most operations do. *)
Lemma keeps_store {A} id (d' : device_db → device_db) (k : M mibdb A) :
  (∀ d, v_classes (d' d) = v_classes d ∧ (device_wf d → device_wf (d' d))) → keeps k →
  keeps (d ← device id; _ ← modify (set_data (<[id := d' d]>)); k).
Proof.
  intros Hd Hk. eapply triple_bind; [apply device_triple|]. intros d.
  apply (triple_bind _ _ _ (λ _, mib_wf)); [|intros []; done].
  intros s [Hs Hid]. destruct (Hd d) as [Hc Hw]. apply (wf_device s id d); [done..| |].
  - apply Hw. destruct Hs as [Hs _ _]. by apply (Hs id).
  - rewrite Hc. eauto.
Qed.

(** The database with a new instance. *)
Definition add_instance (id : string) (cid iid : Z) (d : device_db) (s : mibdb) : mibdb :=
  MibDb (started s) now
    (<[id := set_classes (<[cid := <[iid := Instance_ now now (next_ref s)]> (default ∅ (v_classes d !! cid))]>) d]> (data s))
    (<[next_ref s := ∅]> (attrs s)) (S (next_ref s)).

Lemma ensure_run id cid iid s :
  (_ ← ensure_class now id cid; ensure_instance now id cid iid) s =
  match data s !! id with
  | None => (Err KeyError, s)
  | Some d => match ref_of s (id, cid, iid) with
              | Some r => (Ok r, s)
              | None => (Ok (next_ref s), add_instance id cid iid d s)
              end
  end.
Proof.
  unfold ensure_class, ensure_instance, device, ref_of, mbind, M_bind, gets. simpl.
  destruct (data s !! id) as [d|] eqn:Hd; [|done]. simpl.
  destruct (v_classes d !! cid) as [c|] eqn:Hc; simpl.
  - rewrite Hd. simpl. rewrite Hc. simpl. destruct (c !! iid) as [i|] eqn:Hi; [done|].
    simpl. unfold add_instance. by rewrite Hc.
  - rewrite lookup_insert_eq. simpl. rewrite lookup_insert_eq. simpl. rewrite lookup_empty. simpl.
    unfold add_instance, set_data, set_modified, set_classes. simpl. rewrite Hc. simpl.
    rewrite !insert_insert_eq. done.
Qed.

Lemma ref_of_add id cid iid d s p : data s !! id = Some d →
  ref_of (add_instance id cid iid d s) p = if decide (p = (id, cid, iid)) then Some (next_ref s) else ref_of s p.
Proof.
  intros Hd. destruct p as [[id' cid'] iid']. unfold ref_of, add_instance. simpl.
  destruct (decide (id' = id)) as [->|]; [|rewrite lookup_insert_ne, decide_False by congruence; done].
  rewrite lookup_insert_eq, Hd. simpl.
  destruct (decide (cid' = cid)) as [->|]; [|rewrite lookup_insert_ne, decide_False by congruence; done].
  rewrite lookup_insert_eq. simpl.
  destruct (decide (iid' = iid)) as [->|].
  - rewrite lookup_insert_eq, decide_True by done. done.
  - rewrite lookup_insert_ne, decide_False by congruence. by destruct (v_classes d !! cid).
Qed.

Lemma wf_add id cid iid d s : mib_wf s → data s !! id = Some d → id_ok cid → id_ok iid →
  mib_wf (add_instance id cid iid d s).
Proof.
  intros [H1 H2 H3] Hd Hcid Hiid. split.
  - simpl. apply map_Forall_insert_2; [|done]. destruct (H1 id d Hd) as [Hm Hc]. split; [done|]. simpl.
    apply map_Forall_insert_2; [|done]. split_and!; [done|apply insert_non_empty|].
    apply map_Forall_insert_2; [done|]. destruct (v_classes d !! cid) as [c|] eqn:E; [|done].
    simpl. by apply (Hc cid c).
  - intros p r. rewrite ref_of_add by done. simpl. case_decide.
    + intros [= <-]. rewrite lookup_insert_eq. split; [by eexists|lia].
    + intros Hp%H2. destruct Hp as [Ha Hlt]. split; [|lia]. rewrite lookup_insert_ne by lia. done.
  - intros p q r. rewrite !ref_of_add by done. repeat case_decide; intros Hp Hq; simplify_eq; try done.
    + apply H2 in Hq as [_ ?]. lia.
    + apply H2 in Hp as [_ ?]. lia.
    + by eapply H3.
Qed.

Lemma keeps_set_attribute e ref ch item : keeps (set_attribute e ref ch item).
Proof.
  destruct item as [a v]. unfold set_attribute.
  apply keeps_bind; [apply keeps_read; intros s; by destruct v as [[]|]|intros []].
  apply keeps_bind; [by apply keeps_read|intros value].
  apply keeps_bind; [by apply keeps_read|intros h].
  apply keeps_bind; [apply keeps_read; intros s; by destruct (h !! ref)|intros m].
  apply keeps_bind; [apply keeps_read; intros s; unfold passert; by case_match|intros []].
  case_decide; [by apply keeps_read|].
  apply keeps_bind; [|intros []; by apply keeps_read].
  intros s Hs. apply (wf_attrs _ _ Hs). intros r Hr. destruct (decide (r = ref)) as [->|].
  - rewrite lookup_insert_eq. by eexists.
  - by rewrite lookup_insert_ne.
Qed.

Lemma ref_of_mark id cid iid s p : ref_of (mark_instance now id cid iid s).2 p = ref_of s p.
Proof.
  destruct p as [[id' cid'] iid']. unfold ref_of, mark_instance, modify. simpl.
  destruct (decide (id' = id)) as [->|]; [|by rewrite lookup_alter_ne].
  rewrite lookup_alter_eq. destruct (data s !! id) as [d|]; [|done]. simpl.
  destruct (decide (cid' = cid)) as [->|]; [|by rewrite lookup_alter_ne].
  rewrite lookup_alter_eq. destruct (v_classes d !! cid) as [c|]; [|done]. simpl.
  destruct (decide (iid' = iid)) as [->|]; [|by rewrite lookup_alter_ne].
  rewrite lookup_alter_eq. by destruct (c !! iid).
Qed.

Lemma map_Forall_alter_same {V} (P : Z → V → Prop) f i (m : gmap Z V) :
  map_Forall P m → (∀ x, m !! i = Some x → P i x → P i (f x)) → map_Forall P (alter f i m).
Proof.
  intros Hm Hf j x Hj. destruct (decide (j = i)) as [->|].
  - rewrite lookup_alter_eq in Hj. destruct (m !! i) eqn:E; simplify_eq/=. apply Hf; [done|]. by apply Hm.
  - rewrite lookup_alter_ne in Hj by done. by apply Hm.
Qed.

Lemma wf_mark id cid iid s : mib_wf s → mib_wf (mark_instance now id cid iid s).2.
Proof.
  intros Hs. unfold mark_instance, modify. simpl. apply wf_shrink; [done| |].
  - destruct Hs as [H1 _ _]. intros id' d' Hd'. destruct (decide (id' = id)) as [->|].
    + rewrite lookup_alter_eq in Hd'. destruct (data s !! id) as [d|] eqn:E; simplify_eq/=.
      destruct (H1 id d E) as [Hm Hc]. split; [done|]. simpl. apply map_Forall_alter_same; [done|].
      intros c _ (Hcid & Hne & Hin). split_and!; [done| |by apply map_Forall_alter_same].
      intros He. apply Hne. apply map_eq. intros k. rewrite lookup_empty.
      assert (alter (λ i, Instance_ (i_created i) now (i_attributes i)) iid c !! k = None) as Hk
        by (rewrite He; apply lookup_empty).
      destruct (decide (k = iid)) as [->|].
      * rewrite lookup_alter_eq in Hk. by destruct (c !! iid).
      * by rewrite lookup_alter_ne in Hk.
    + rewrite lookup_alter_ne in Hd' by done. by eapply H1.
  - intros p r Hp. by rewrite <- (ref_of_mark id cid iid s p).
Qed.

Lemma bind_assoc {St A B C} (m : M St A) (n : A → M St B) (k : B → M St C) s :
  (m ≫= λ a, n a ≫= k) s = ((m ≫= n) ≫= k) s.
Proof. unfold mbind, M_bind. by destruct (m s) as [[a|e] s']. Qed.

(** What follows once the instance exists. *)
Definition set_rest (id : string) (cid iid : Z) (l : gmap string input) (ref : nat) : M mibdb bool :=
  me_map ← lift (get_me_map id);
  changed ← foldM (set_attribute (me_map !! cid) ref) false (iteritems l);
  _ ← (if (changed : bool) then _ ← mark_instance now id cid iid; touch now else mret tt);
  mret changed.

Lemma set_run id cid iid l s : id_ok cid → id_ok iid → started s = true →
  set get_me_map now id cid iid l s =
  match data s !! id with
  | None => (Err KeyError, s)
  | Some d => match ref_of s (id, cid, iid) with
              | Some r => set_rest id cid iid l r s
              | None => set_rest id cid iid l (next_ref s) (add_instance id cid iid d s)
              end
  end.
Proof.
  intros Hc Hi Hst. unfold set. rewrite decide_False, decide_False by tauto.
  assert (check_started s = (Ok tt, s)) as Hs by (unfold check_started, mbind, M_bind, gets; by rewrite Hst).
  rewrite (bind_ok _ _ _ _ _ Hs). rewrite bind_assoc. unfold mbind at 1, M_bind at 1.
  rewrite ensure_run. destruct (data s !! id) as [d|]; [|done]. by destruct (ref_of s (id, cid, iid)).
Qed.

Lemma keeps_set id cid iid l : keeps (set get_me_map now id cid iid l).
Proof.
  intros s Hs. destruct (decide (id_ok cid)) as [Hc|Hc]; [|unfold set; by rewrite decide_True].
  destruct (decide (id_ok iid)) as [Hi|Hi]; [|unfold set; rewrite decide_False by tauto; by rewrite decide_True].
  destruct (started s) eqn:Hst.
  2:{ unfold set. rewrite decide_False, decide_False by tauto.
      erewrite bind_err; [done|]. unfold check_started, mbind, M_bind, gets. by rewrite Hst. }
  rewrite set_run by done.
  assert (∀ ref, keeps (set_rest id cid iid l ref)) as Hk.
  { intros ref. unfold set_rest. apply keeps_bind; [by apply keeps_read|intros me_map].
    apply keeps_bind.
    - apply (triple_foldM (λ _, mib_wf)). intros ch item _. apply keeps_set_attribute.
    - intros changed. apply keeps_bind; [|intros []; by apply keeps_read]. destruct changed; [|by apply keeps_read].
      apply keeps_bind; [|intros []; apply keeps_touch]. intros s' Hs'. by apply wf_mark. }
  destruct (data s !! id) as [d|] eqn:Hd; [|done].
  destruct (ref_of s (id, cid, iid)); apply Hk; [done|]. by apply wf_add.
Qed.

Lemma keeps_delete id cid iid : keeps (delete_me now id cid iid).
Proof.
  unfold delete_me. apply keeps_bind; [apply keeps_started|intros []].
  case_decide; [by apply keeps_read|]. case_decide; [by apply keeps_read|].
  eapply triple_bind; [apply device_triple|]. intros d.
  destruct (v_classes d !! cid) as [c|] eqn:Hc; [|by apply triple_ret; intros s []].
  destruct (c !! iid) as [i|] eqn:Hi; [|by apply triple_ret; intros s []].
  apply (triple_bind _ _ _ (λ _, mib_wf)); [|intros []; apply keeps_bind; [apply keeps_touch|intros []; by apply keeps_read]].
  intros s [Hs Hd]. destruct (wf_devices s Hs id d Hd) as [Hm Hcs]. destruct (Hcs cid c Hc) as (Hcid & _ & Hin).
  apply (wf_device s id d); [done..| |].
  - split; [done|]. simpl. case_decide as Hz; [by apply map_Forall_delete|].
    apply map_Forall_insert_2; [|done]. split_and!; [done| |by apply map_Forall_delete].
    intros He. apply Hz. by rewrite He, map_size_empty.
  - intros cid' iid' c' i'. simpl. case_decide.
    + rewrite lookup_delete_Some. intros [_ Hc'] Hi'. by exists c', i'.
    + rewrite lookup_insert_Some. intros [[<- <-]|[_ Hc']] Hi'; [|by exists c', i'].
      apply lookup_delete_Some in Hi' as [_ Hi']. by exists c, i'.
Qed.

Lemma keeps_fix_inst i : keeps (fix_inst_json_attributes i).
Proof.
  intros s Hs. apply (wf_attrs _ _ Hs). intros r [m Hr]. destruct (decide (r = i_attributes i)) as [->|].
  - rewrite lookup_alter_eq, Hr. by eexists.
  - rewrite lookup_alter_ne by done. by eexists.
Qed.

Lemma keeps_fix_cls c : keeps (fix_cls_json_attributes c).
Proof. apply triple_forM. intros p _. apply keeps_fix_inst. Qed.

Lemma keeps_query id c i l : keeps (query id c i l).
Proof.
  unfold query. apply keeps_bind; [apply keeps_started|intros []].
  eapply (triple_bind _ _ _ (λ _, mib_wf)).
  { eapply triple_conseq; [apply (device_triple id mib_wf)|done|by intros ?? []|done]. }
  intros d. destruct c as [c|]; [|apply keeps_bind; [apply triple_forM; intros p _; apply keeps_fix_cls|intros []; by apply keeps_read]].
  destruct (v_classes d !! c) as [cl|]; [|by apply keeps_read].
  destruct i as [i|]; [|apply keeps_bind; [apply keeps_fix_cls|intros []; by apply keeps_read]].
  destruct (cl !! i) as [inst|]; [|by apply keeps_read].
  destruct l as [names|].
  - apply keeps_bind; [by apply keeps_read|intros h].
    apply keeps_bind; [apply keeps_read; intros s; by destruct (h !! i_attributes inst)|intros a]. by apply keeps_read.
  - apply keeps_bind; [apply keeps_fix_inst|intros []; by apply keeps_read].
Qed.

Lemma keeps_run {A} (m : M mibdb A) s : keeps m → mib_wf s → mib_wf (m s).2.
Proof. intros Hm Hs. specialize (Hm s Hs). by destruct (m s) as [[]]. Qed.

Lemma keeps_add id o : keeps (add now id o).
Proof.
  unfold add. apply keeps_bind; [apply keeps_started|intros []]. apply keeps_bind; [by apply keeps_read|intros d].
  case_decide; [by apply keeps_read|]. intros s Hs. apply wf_shrink; [done| |].
  - apply map_Forall_insert_2; [|apply Hs]. split; simpl; [lia|done].
  - intros [[id' c] i] r. unfold ref_of. simpl. destruct (decide (id' = id)) as [->|]; [|by rewrite lookup_insert_ne].
    rewrite lookup_insert_eq. simpl. by rewrite lookup_empty.
Qed.

Lemma keeps_remove id : keeps (remove now id).
Proof.
  unfold remove. apply keeps_bind; [apply keeps_started|intros []]. apply keeps_bind; [by apply keeps_read|intros d].
  case_decide; [|by apply keeps_read]. apply keeps_bind; [|intros []; apply keeps_touch].
  intros s Hs. apply wf_shrink; [done|apply map_Forall_delete, Hs|].
  intros [[id' c] i] r. unfold ref_of. simpl. destruct (decide (id' = id)) as [->|].
  - by rewrite lookup_delete_eq.
  - by rewrite lookup_delete_ne.
Qed.

Lemma keeps_reset id : keeps (on_mib_reset now id).
Proof.
  unfold on_mib_reset. apply keeps_bind; [apply keeps_started|intros []].
  eapply triple_bind; [apply device_triple|]. intros d.
  apply (triple_bind _ _ _ (λ _ s, mib_wf s ∧ data s !! id = Some d)).
  - intros s [Hs Hd]. split; [by apply wf_touch|done].
  - intros [] s [Hs Hd]. apply (wf_device s id d); [done..| |].
    + split; simpl; [lia|done].
    + simpl. intros cid iid c i Hc. by rewrite lookup_empty in Hc.
Qed.


End properties.

(** ** The invariant *)
Section invariant.
Context {HO : DictOrder} {HJ : Json}.
Context (get_me_map : string → result (gmap Z entity)).

(** Every call of the database that can change it. *)
Inductive mib_op :=
  | OpStart | OpStop
  | OpAdd (id : string) (overwrite : bool)
  | OpRemove (id : string)
  | OpReset (id : string)
  | OpSaveMds (id : string) (v : Z)
  | OpSaveSync (id : string) (v : Z)
  | OpSet (id : string) (class_id instance_id : Z) (attributes : gmap string input)
  | OpDelete (id : string) (class_id instance_id : Z)
  | OpQuery (id : string) (class_id instance_id : option Z) (attributes : option (list string))
  | OpEntities (id : string) (l : gset Z)
  | OpMsgTypes (id : string) (l : gset Z).

(** A call at a time. *)
Definition run_mib (s : mibdb) (call : Z * mib_op) : mibdb :=
  let '(now, op) := call in
  match op with
  | OpStart => (start s).2
  | OpStop => (stop s).2
  | OpAdd id o => (add now id o s).2
  | OpRemove id => (remove now id s).2
  | OpReset id => (on_mib_reset now id s).2
  | OpSaveMds id v => (save_mib_data_sync now id v s).2
  | OpSaveSync id v => (save_last_sync now id v s).2
  | OpSet id c i l => (set get_me_map now id c i l s).2
  | OpDelete id c i => (delete_me now id c i s).2
  | OpQuery id c i l => (query id c i l s).2
  | OpEntities id l => (update_supported_managed_entities get_me_map now id l s).2
  | OpMsgTypes id l => (update_supported_message_types now id l s).2
  end.

Lemma init_wf t0 : mib_wf (init t0).
Proof.
  split; [done| |]; intros p; [intros r|intros q r]; unfold ref_of; simpl; rewrite lookup_empty; done.
Qed.

Lemma run_mib_wf s call : mib_wf s → mib_wf (run_mib s call).
Proof.
  intros Hs. destruct call as [now op]. unfold run_mib.
  destruct op; simpl; try (apply keeps_run; [|done]).
  - destruct Hs as [H1 H2 H3]. by split.
  - destruct Hs as [H1 H2 H3]. by split.
  - apply keeps_add.
  - apply keeps_remove.
  - apply keeps_reset.
  - unfold save_mib_data_sync. case_decide; [by apply keeps_read|].
    apply (keeps_store id (λ d, DeviceDb (v_created d) (v_last_sync d) v (v_managed_entities d) (v_message_types d) (v_classes d)));
      [|apply keeps_touch]. intros d. split; [done|]. intros [_ Hc]. split; simpl; [lia|done].
  - apply (keeps_store id (λ d, DeviceDb (v_created d) (Some v) (v_mds d) (v_managed_entities d) (v_message_types d) (v_classes d)));
      [|apply keeps_touch]. intros d. by split.
  - apply keeps_set.
  - apply keeps_delete.
  - apply keeps_query.
  - unfold update_supported_managed_entities. eapply triple_bind; [apply device_triple|]. intros d.
    apply (triple_bind _ _ _ (λ _ s, mib_wf s ∧ data s !! id = Some d)).
    { case_decide; [by apply triple_ret|]. apply triple_lift; [by intros a s' _ ?|by intros x s' _ [? _]]. }
    intros m. apply (triple_bind _ _ _ (λ _, mib_wf)); [|intros []; apply keeps_touch].
    intros s' [Hs' Hd]. apply (wf_device s' id d); [done..| |by eauto].
    by destruct (wf_devices s' Hs' id d Hd).
  - apply (keeps_store id (λ d, DeviceDb (v_created d) (v_last_sync d) (v_mds d) (v_managed_entities d) l (v_classes d)));
      [|apply keeps_touch]. intros d. by split.
Qed.

(** C38 Whatever is called on the database, with whatever outcome, it keeps its
    shape: sync counters in 0..255, class and instance ids in 0..65535, no
    class left without instances, and each instance with attributes that no
    other instance has. *)
Theorem mib_invariant t0 calls : mib_wf (foldl run_mib (init t0) calls).
Proof.
  pose proof (init_wf t0) as H0. revert H0. generalize (init t0).
  induction calls as [|call calls IH]; intros s Hs; [done|]. simpl. by apply IH, run_mib_wf.
Qed.

(** ** What [set] stores and [query] returns *)
Context (now : Z).

(** The stored values of the attributes given, once encoded. *)
Definition encoded (e : option entity) (l : gmap string input) (a : string) : option aval :=
  v ← l !! a; match encode e a v with Ok v' => Some v' | Err _ => None end.

Lemma set_attribute_run e ref a ch at_ v s ch' s' :
  attrs s !! ref = Some a → set_attribute e ref ch (at_, v) s = (Ok ch', s') →
  ∃ v', encode e at_ v = Ok v' ∧ s' = set_attrs (λ m, <[ref := <[at_ := v']> a]> m) s ∧
    (ch' = false → ch = false ∧ a !! at_ = Some v').
Proof.
  intros Ha. unfold set_attribute. intros Hrun. minv Hrun as ([] & s1 & H1 & Hrun).
  assert (s1 = s) as -> by (unfold passert in H1; destruct v as [[]|]; unfold raise, mret, M_ret in H1; by simplify_eq).
  minv Hrun as (v' & s1 & H2 & Hrun). unfold lift in H2. injection H2 as Henc <-.
  rewrite (bind_ok _ _ s (attrs s) s), Ha in Hrun by done. cbn [from_some] in Hrun.
  erewrite bind_ok in Hrun by done. minv Hrun as ([] & s1 & H3 & Hrun).
  assert (∀ b, passert (St:=mibdb) b s = (Ok tt, s1) → s1 = s) as Hp
    by (intros []; unfold passert, raise, mret, M_ret; congruence).
  apply Hp in H3 as ->.
  exists v'. split; [done|]. case_decide as Hd.
  - unfold mret, M_ret in Hrun. simplify_eq. 
    assert (a !! at_ = Some v') as Hat by (destruct (a !! at_) as [[]|]; by simplify_eq).
    split; [|done]. rewrite insert_id by done. destruct s'; unfold set_attrs; simpl in *. f_equal. by rewrite insert_id.
  - unfold modify, mbind, M_bind, mret, M_ret in Hrun. simplify_eq. done.
Qed.

Lemma set_loop_run e ref l : ∀ a ch s ch' s', NoDup l.*1 → attrs s !! ref = Some a →
  foldM (set_attribute e ref) ch l s = (Ok ch', s') →
  ∃ a', s' = set_attrs (λ m, <[ref := a']> m) s ∧
    (∀ k, k ∉ l.*1 → a' !! k = a !! k) ∧
    (∀ k v, (k, v) ∈ l → ∃ v', encode e k v = Ok v' ∧ a' !! k = Some v') ∧
    (ch' = false → ch = false ∧ a' = a).
Proof.
  induction l as [|[k v] l IH]; intros a ch s ch' s' Hnd Ha Hrun.
  - cbn in Hrun. unfold mret, M_ret in Hrun. simplify_eq. exists a. split_and!; [|done|by intros k v ?%elem_of_nil|done].
    destruct s'; unfold set_attrs; simpl in *. f_equal. by rewrite insert_id.
  - apply NoDup_cons in Hnd as [Hk Hnd]. cbn [foldM] in Hrun. minv Hrun as (ch1 & s1 & H1 & Hrun).
    destruct (set_attribute_run _ _ _ _ _ _ _ _ _ Ha H1) as (v' & Henc & -> & Hch).
    apply (IH (<[k := v']> a)) in Hrun as (a' & -> & Hout & Hin & Hsame); [|done|simpl; by rewrite lookup_insert_eq].
    exists a'. split_and!.
    + unfold set_attrs. simpl. f_equal. by rewrite insert_insert_eq.
    + intros k' Hk'. csimpl in Hk'. rewrite Hout, lookup_insert_ne by set_solver. done.
    + intros k' w [[= -> ->]|Hw]%elem_of_cons; [|by apply Hin]. exists v'. split; [done|].
      rewrite Hout by done. by rewrite lookup_insert_eq.
    + intros Hf. destruct (Hsame Hf) as [Hf1 ->]. destruct (Hch Hf1) as [Hf2 Hat]. split; [done|]. by rewrite insert_id.
Qed.

(** The new attributes: the values given, encoded, over those there were. *)
Definition updated (e : option entity) (l : gmap string input) (a a' : gmap string aval) : Prop :=
  ∀ k, match l !! k with
       | Some v => ∃ v', encode e k v = Ok v' ∧ a' !! k = Some v'
       | None => a' !! k = a !! k
       end.

Lemma set_rest_run id cid iid l r a s ch s' :
  mib_wf s → ref_of s (id, cid, iid) = Some r → attrs s !! r = Some a →
  set_rest get_me_map now id cid iid l r s = (Ok ch, s') →
  ∃ m a', get_me_map id = Ok m ∧ stored s' (id, cid, iid) = Some a' ∧ updated (m !! cid) l a a' ∧
    (ch = false → a' = a) ∧ (∀ q, q ≠ (id, cid, iid) → stored s' q = stored s q) ∧ started s' = started s.
Proof.
  intros Hwf Hr Ha Hrun. unfold set_rest in Hrun. minv Hrun as (m & s1 & H1 & Hrun).
  unfold lift in H1. injection H1 as Hm <-. minv Hrun as (changed & s1 & H2 & Hrun).
  apply (set_loop_run _ _ _ a) in H2 as (a' & -> & Hout & Hin & Hsame); [|apply NoDup_iteritems_keys|done].
  assert (∃ s2, s' = s2 ∧ ch = changed ∧ (∀ q, ref_of s2 q = ref_of s q) ∧ attrs s2 = <[r := a']> (attrs s) ∧
    started s2 = started s) as (s2 & -> & -> & Hrefs & Hattrs & Hst).
  { destruct changed.
    - unfold mark_instance, touch, modify, mbind, M_bind, mret, M_ret in Hrun. simplify_eq.
      eexists. split_and!; [done|done| |done|done]. intros q.
      rewrite <- (ref_of_mark now id cid iid s q). done.
    - unfold mbind, M_bind, mret, M_ret in Hrun. simplify_eq. eexists. by split_and!. }
  exists m, a'. split_and!; [done| | |by apply Hsame| |done].
  - unfold stored. rewrite Hrefs, Hr, Hattrs. simpl. by rewrite lookup_insert_eq.
  - intros k. destruct (l !! k) as [v|] eqn:Hk.
    + apply Hin. by apply elem_of_iteritems.
    + apply Hout. intros ([k' v] & -> & Hv)%list_elem_of_fmap. apply elem_of_iteritems in Hv. simpl in Hk. by rewrite Hk in Hv.
  - intros q Hq. unfold stored. rewrite Hrefs, Hattrs. destruct (ref_of s q) as [r'|] eqn:Hr'; [|done]. simpl.
    rewrite lookup_insert_ne; [done|]. intros <-. apply Hq. by eapply wf_own.
Qed.

Lemma query_attributes id cid iid names a s :
  started s = true → stored s (id, cid, iid) = Some a →
  query id (Some cid) (Some iid) (Some names) s =
    (Ok (AttrAnswer (fix_attr_json_attribute <$> filter (λ p, p.1 ∈ names) a)), s).
Proof.
  intros Hst. unfold stored, ref_of. simpl. intros Hs. unfold query.
  assert (check_started s = (Ok tt, s)) as Hc by (unfold check_started, mbind, M_bind, gets; by rewrite Hst).
  rewrite (bind_ok _ _ _ _ _ Hc). destruct (data s !! id) as [d|] eqn:Hd; [|done]. simpl in Hs.
  assert (device id s = (Ok d, s)) as Hdev by (unfold device, mbind, M_bind, gets; by rewrite Hd).
  rewrite (bind_ok _ _ _ _ _ Hdev). destruct (v_classes d !! cid) as [c|]; [|done]. simpl in Hs.
  destruct (c !! iid) as [inst|]; [|done]. simpl in Hs.
  rewrite (bind_ok _ _ s (attrs s) s), Hs by done. done.
Qed.

(** C37 What [set] is given is what [query] returns: after it returns, the
    instance has the values given, as encoded, over the attributes it had
    before, every other instance of every device is as it was, and a query for
    attributes gives them decoded.  It returns false only if nothing changed. *)
Theorem set_then_query id cid iid l s ch s'
    (Hwf : mib_wf s) (Hset : set get_me_map now id cid iid l s = (Ok ch, s')) :
  ∃ m a', get_me_map id = Ok m ∧
    updated (m !! cid) l (default ∅ (stored s (id, cid, iid))) a' ∧
    (∀ names, query id (Some cid) (Some iid) (Some names) s' =
       (Ok (AttrAnswer (fix_attr_json_attribute <$> filter (λ p, p.1 ∈ names) a')), s')) ∧
    (∀ q, q ≠ (id, cid, iid) → stored s' q = stored s q) ∧
    (ch = false → a' = default ∅ (stored s (id, cid, iid))).
Proof.
  destruct (decide (id_ok cid)) as [Hc|Hc]; [|unfold set in Hset; by rewrite decide_True in Hset].
  destruct (decide (id_ok iid)) as [Hi|Hi];
    [|unfold set in Hset; rewrite decide_False in Hset by tauto; by rewrite decide_True in Hset].
  destruct (started s) eqn:Hst.
  2:{ unfold set in Hset. rewrite decide_False, decide_False in Hset by tauto.
      erewrite bind_err in Hset; [done|]. unfold check_started, mbind, M_bind, gets. by rewrite Hst. }
  rewrite set_run in Hset by done. destruct (data s !! id) as [d|] eqn:Hd; [|done].
  destruct (ref_of s (id, cid, iid)) as [r|] eqn:Hr.
  - destruct (wf_refs s Hwf _ _ Hr) as [[a Ha] _].
    assert (stored s (id, cid, iid) = Some a) as Hs by (unfold stored; by rewrite Hr).
    apply (set_rest_run _ _ _ _ _ a) in Hset as (m & a' & Hm & Hs' & Hu & Hch & Hoth & Hst'); [|done..].
    rewrite Hs. simpl. exists m, a'. split_and!; [done|done| |done|done].
    intros names. apply query_attributes; congruence.
  - assert (stored s (id, cid, iid) = None) as -> by (unfold stored; by rewrite Hr). simpl.
    apply (set_rest_run _ _ _ _ _ ∅) in Hset as (m & a' & Hm & Hs' & Hu & Hch & Hoth & Hst').
    + exists m, a'. split_and!; [done|done| | |done].
      * intros names. apply query_attributes; simpl in Hst'; congruence.
      * intros q Hq. rewrite Hoth by done. unfold stored. rewrite ref_of_add, decide_False by done. simpl.
        destruct (ref_of s q) as [r'|] eqn:Hr'; [|done]. simpl. rewrite lookup_insert_ne; [done|].
        apply (wf_refs s Hwf) in Hr' as [_ ?]. lia.
    + by apply wf_add.
    + by rewrite ref_of_add, decide_True.
    + simpl. by rewrite lookup_insert_eq.
Qed.

(** Reading an instance changes the database: its text attributes that parse
    as JSON are replaced by the parsed values, and storing the text again,
    which returned false before the query, raises [AssertionError] after it. *)
Theorem query_changes_types id cid iid s a attr txt w m
    (Hwf : mib_wf s) (Hst : started s = true) (Hids : id_ok cid ∧ id_ok iid)
    (Ha : stored s (id, cid, iid) = Some a) (Hattr : a !! attr = Some (AStr txt))
    (Hloads : loads txt = Some w) (Hw : w ≠ ANone ∧ same_type (AStr txt) w = false)
    (Hm : get_me_map id = Ok m) (Hent : m !! cid = None) :
  let l := {[attr := Plain (AStr txt)]} : gmap string input in
  let s1 := (query id (Some cid) (Some iid) None s).2 in
  (set get_me_map now id cid iid l s).1 = Ok false ∧
  (set get_me_map now id cid iid l s1).1 = Err AssertionError.
Proof.
  intros l s1. destruct Hids as [Hc Hi].
  assert (iteritems l = [(attr, Plain (AStr txt))]) as Hit.
  { unfold iteritems. apply Permutation_singleton_r. rewrite iter_order_perm. unfold l. by rewrite map_to_list_singleton. }
  unfold stored in Ha. destruct (ref_of s (id, cid, iid)) as [r|] eqn:Hr; [|done]. simpl in Ha.
  assert (s1 = set_attrs (alter (fmap fix_attr_json_attribute) r) s ∧ is_Some (data s !! id)) as [Hs1 [d Hd]].
  { unfold s1, query. assert (check_started s = (Ok tt, s)) as Hcs
      by (unfold check_started, mbind, M_bind, gets; by rewrite Hst).
    rewrite (bind_ok _ _ _ _ _ Hcs). unfold ref_of in Hr. simpl in Hr.
    destruct (data s !! id) as [d|] eqn:Hd; [|done]. simpl in Hr.
    assert (device id s = (Ok d, s)) as Hdev by (unfold device, mbind, M_bind, gets; by rewrite Hd).
    rewrite (bind_ok _ _ _ _ _ Hdev). destruct (v_classes d !! cid) as [c|]; [|done]. simpl in Hr.
    destruct (c !! iid) as [inst|]; [|done]. simpl in Hr. simplify_eq. by split. }
  assert (∀ s, data s !! id = Some d → started s = true → ref_of s (id, cid, iid) = Some r →
    set get_me_map now id cid iid l s = set_rest get_me_map now id cid iid l r s) as Hrest.
  { intros s' Hd' Hst' Hr'. by rewrite set_run, Hd', Hr'. }
  assert (∀ s a, attrs s !! r = Some a → set_attribute None r false (attr, Plain (AStr txt)) s =
    match a !! attr with
    | Some (AStr t') => if decide (t' = txt) then (Ok false, s)
                        else (Ok true, set_attrs (<[r := <[attr := AStr txt]> a]>) s)
    | Some ANone | None => (Ok true, set_attrs (<[r := <[attr := AStr txt]> a]>) s)
    | _ => (Err AssertionError, s)
    end) as Hattr1.
  { intros s' a' Ha'. unfold set_attribute. erewrite bind_ok by done. erewrite bind_ok by done.
    rewrite (bind_ok _ _ s' (attrs s') s'), Ha' by done. cbn [from_some]. erewrite bind_ok by done.
    destruct (a' !! attr) as [[]|]; try done; (erewrite bind_ok by done); repeat case_decide; simplify_eq; done. }
  split.
  - rewrite Hrest by done. unfold set_rest. rewrite Hm. erewrite bind_ok by done. rewrite Hent, Hit. cbn [foldM].
    specialize (Hattr1 s a Ha). rewrite Hattr, decide_True in Hattr1 by done.
    erewrite bind_ok; [|by erewrite bind_ok by exact Hattr1]. done.
  - rewrite Hs1, Hrest by done. unfold set_rest. rewrite Hm. erewrite bind_ok by done. rewrite Hent, Hit. cbn [foldM].
    erewrite bind_err; [done|]. erewrite bind_err; [done|].
    rewrite (Hattr1 _ (fix_attr_json_attribute <$> a)) by (simpl; by rewrite lookup_alter_eq, Ha).
    rewrite lookup_fmap, Hattr. simpl. rewrite Hloads. simpl.
    destruct Hw as [Hw1 Hw2]. by destruct w; simplify_eq/=.
Qed.

End invariant.

(** ** Witnesses *)
Section sample.
Local Instance sample_json : Json := {|
  loads t := if decide (t = "[1]") then Some (AList "[1]") else None;
  dumps v := match v with AList t => t | ADict t => t | _ => "" end;
|}.
Local Instance sample_mib_order : DictOrder := plain_order.

Definition no_entities : string → result (gmap Z entity) := λ _, Ok ∅.

Definition sample_attrs : gmap string input := <["caps" := Plain (AList "[1]")]> {["vendor" := Plain (AStr "ADTN")]}.

Definition sample_db : mibdb :=
  run_mib no_entities (run_mib no_entities (init 0) (1, OpStart)) (2, OpAdd "onu1" false).

Definition filled_db : mibdb := run_mib no_entities sample_db (3, OpSet "onu1" 256 0 sample_attrs).

Lemma sample_db_wf : mib_wf sample_db.
Proof. apply run_mib_wf, run_mib_wf, init_wf. Qed.

Lemma set_then_query_witness :
  ∃ m a', no_entities "onu1" = Ok m ∧
    updated (m !! 256) sample_attrs (default ∅ (stored sample_db ("onu1", 256, 0))) a' ∧
    (∀ names, query "onu1" (Some 256) (Some 0) (Some names) (set no_entities 3 "onu1" 256 0 sample_attrs sample_db).2 =
       (Ok (AttrAnswer (fix_attr_json_attribute <$> filter (λ p, p.1 ∈ names) a')),
        (set no_entities 3 "onu1" 256 0 sample_attrs sample_db).2)) ∧
    (∀ q, q ≠ ("onu1", 256, 0) → stored (set no_entities 3 "onu1" 256 0 sample_attrs sample_db).2 q = stored sample_db q) ∧
    (true = false → a' = default ∅ (stored sample_db ("onu1", 256, 0))).
Proof.
  apply (set_then_query no_entities 3 "onu1" 256 0 sample_attrs sample_db true
    (set no_entities 3 "onu1" 256 0 sample_attrs sample_db).2).
  - apply sample_db_wf.
  - vm_compute. reflexivity.
Defined.

Lemma query_changes_types_witness :
  (set no_entities 4 "onu1" 256 0 {["caps" := Plain (AStr "[1]")]} filled_db).1 = Ok false ∧
  (set no_entities 4 "onu1" 256 0 {["caps" := Plain (AStr "[1]")]}
     (query "onu1" (Some 256) (Some 0) None filled_db).2).1 = Err AssertionError.
Proof.
  apply (query_changes_types no_entities 4 "onu1" 256 0 filled_db
    (<["caps" := AStr "[1]"]> {["vendor" := AStr "ADTN"]}) "caps" "[1]" (AList "[1]") ∅).
  - apply run_mib_wf, sample_db_wf.
  - reflexivity.
  - split; vm_compute; split; discriminate.
  - vm_compute. reflexivity.
  - reflexivity.
  - reflexivity.
  - split; [discriminate|reflexivity].
  - reflexivity.
  - reflexivity.
Defined.

End sample.
