(* ===== verification/OmciEntities.v ===== *)
(** * Managed entities of OMCI and the frames that carry them

    The entity classes of omci_entities.py with their attribute masks, the
    attribute data of messages ([OmciData] and [OmciMaskedData] of
    omci_messages.py) and the construction of request frames ([MEFrame] of
    me_frame.py), under src/voltha/extensions/omci.

    The fields are scapy's: a record of its two operations on octets.  What the
    code relies on is [faithful]: a value that a field encodes, it also
    decodes. *)
From S2P Require Import Prelude MibDb.
From stdpp Require Import base gmap list strings sorting.
From Stdlib Require Import ZArith Lia.
From Stdlib.Strings Require Import Byte.

Local Open Scope Z_scope.

Abbreviation octets := (list byte).

(** ** Enumerations *)
Inductive access := AA_R | AA_W | AA_SBC.
#[export] Instance access_eq_dec : EqDecision access.
Proof. solve_decision. Defined.

Inductive operation :=
  | OpCreate | OpCreateComplete | OpDelete | OpSet | OpGet | OpGetComplete | OpGetAllAlarms | OpGetAllAlarmsNext
  | OpMibUpload | OpMibUploadNext | OpMibReset | OpAlarmNotification | OpAttributeValueChange | OpTest
  | OpStartSoftwareDownload | OpDownloadSection | OpEndSoftwareDownload | OpActivateSoftware | OpCommitSoftware
  | OpSynchronizeTime | OpReboot | OpGetNext | OpTestResult | OpGetCurrentData | OpSetTable.
#[export] Instance operation_eq_dec : EqDecision operation.
Proof. solve_decision. Defined.

Definition all_operations : list operation :=
  [ OpCreate; OpCreateComplete; OpDelete; OpSet; OpGet; OpGetComplete; OpGetAllAlarms; OpGetAllAlarmsNext;
    OpMibUpload; OpMibUploadNext; OpMibReset; OpAlarmNotification; OpAttributeValueChange; OpTest;
    OpStartSoftwareDownload; OpDownloadSection; OpEndSoftwareDownload; OpActivateSoftware; OpCommitSoftware;
    OpSynchronizeTime; OpReboot; OpGetNext; OpTestResult; OpGetCurrentData; OpSetTable ].

Definition op_value (o : operation) : Z :=
  match o with
  | OpCreate => 4 | OpCreateComplete => 5 | OpDelete => 6 | OpSet => 8 | OpGet => 9 | OpGetComplete => 10
  | OpGetAllAlarms => 11 | OpGetAllAlarmsNext => 12 | OpMibUpload => 13 | OpMibUploadNext => 14 | OpMibReset => 15
  | OpAlarmNotification => 16 | OpAttributeValueChange => 17 | OpTest => 18 | OpStartSoftwareDownload => 19
  | OpDownloadSection => 20 | OpEndSoftwareDownload => 21 | OpActivateSoftware => 22 | OpCommitSoftware => 23
  | OpSynchronizeTime => 24 | OpReboot => 25 | OpGetNext => 26 | OpTestResult => 27 | OpGetCurrentData => 28
  | OpSetTable => 29
  end.

(** ** Attributes and classes *)

(** A field of scapy: [addfield] appends octets, [getfield] takes some. *)
Record field := Fld {
  fname : string;
  ftype : string;
  fdefault : aval;
  addfield : aval → M octets unit;
  getfield : M octets aval;
}.

Record attribute := ECA {
  fld : field;
  acc : list access;
  range_check : option (aval → bool);
}.

Definition int_upto (n : Z) (v : aval) : bool :=
  match v with AInt i => (0 <=? i) && (i <=? n) | _ => false end.

Definition type_checker (ftype : string) : aval → bool :=
  if decide (ftype = "ByteField") then int_upto 255
  else if decide (ftype = "ShortField") then int_upto 65535
  else if decide (ftype = "IntField") then int_upto 4294967295
  else if decide (ftype = "LongField") then int_upto 18446744073709551615
  else if decide (ftype = "StrFixedLenField") then λ v, match v with AStr _ | AUni _ => true | _ => false end
  else λ _, true.

Definition valid (a : attribute) (value : aval) : bool :=
  if bool_decide (ftype (fld a) ≠ "StrFixedLenField") && negb (type_checker (ftype (fld a)) value) then false
  else match range_check a with Some f => f value | None => true end.

Record entity_class := EntityClass {
  class_id : Z;
  attributes : list attribute;
  mandatory_operations : list operation;
  optional_operations : list operation;
}.

Definition attr_name (a : attribute) : string := fname (fld a).

(** [dict((name, idx) for idx, a in enumerate(attributes))]: the last of a name. *)
Definition attribute_name_to_index_map (c : entity_class) : gmap string nat :=
  foldl (λ m '(i, a), <[attr_name a := i]> m) ∅ (imap pair (attributes c)).

(** ** Masks *)

(** [while mask: ...; mask >>= 1], low bit first *)
Fixpoint bit_positions (mask : positive) (lsb_pos increment : Z) : list Z :=
  match mask with
  | xH => [lsb_pos]
  | xO p => bit_positions p (lsb_pos + increment) increment
  | xI p => lsb_pos :: bit_positions p (lsb_pos + increment) increment
  end.

Definition bitpos_from_mask (mask : N) (lsb_pos increment : Z) : list Z :=
  merge_sort Z.le (match mask with N0 => [] | Npos p => bit_positions p lsb_pos increment end).

Definition attribute_indices_from_mask (mask : Z) : list Z :=
  bitpos_from_mask (Z.to_N (Z.land (Z.shiftr mask 8) 255)) 8 (-1) ++
  bitpos_from_mask (Z.to_N (Z.land mask 255)) 16 (-1).

(** A negative shift raises. *)
Definition mask_for {St} (c : entity_class) (attr_names : list string) : M St Z :=
  foldM (λ mask attr_name,
    index ← from_some KeyError (attribute_name_to_index_map c !! attr_name);
    if decide (16 < Z.of_nat index) then raise ValueError
    else mret (Z.lor mask (Z.shiftl 1 (16 - Z.of_nat index)))) 0 attr_names.

(** ** Attribute data in messages *)

(** [attributes[index]] *)
Definition attr_at (c : entity_class) (index : Z) : option attribute := attributes c !! Z.to_nat index.

Definition masked_addfield (c : option entity_class) (mask : Z) (val : gmap string aval) : M octets unit :=
  c ← from_some AttributeError c;
  forM_ (λ index,
    a ← from_some IndexError (attr_at c index);
    v ← from_some KeyError (val !! attr_name a);
    addfield (fld a) v) (attribute_indices_from_mask mask).

(** An index the class does not have is skipped. *)
Definition masked_getfield (c : option entity_class) (mask : Z) : M octets (gmap string aval) :=
  c ← from_some KeyError c;
  foldM (λ data index,
    match attr_at c index with
    | None => mret data
    | Some a => v ← getfield (fld a); mret (<[attr_name a := v]> data)
    end) ∅ (attribute_indices_from_mask mask).

(** What a create request carries: the set-by-create attributes. *)
Definition by_create (a : attribute) : bool :=
  bool_decide (AA_SBC ∈ acc a) && bool_decide (attr_name a ≠ "managed_entity_id").

Definition data_addfield (c : option entity_class) (val : gmap string aval) : M octets unit :=
  c ← from_some AttributeError c;
  forM_ (λ a, if by_create a then addfield (fld a) (default (fdefault (fld a)) (val !! attr_name a)) else mret tt)
    (attributes c).

Definition data_getfield (c : option entity_class) : M octets (gmap string aval) :=
  c ← from_some AttributeError c;
  foldM (λ data a,
    if by_create a then v ← getfield (fld a); mret (<[attr_name a := v]> data) else mret data) ∅ (attributes c).

(** ** Request frames *)
Inductive omci_request :=
  | OmciCreate (entity_class entity_id : Z) (data : gmap string aval)
  | OmciDelete (entity_class entity_id : Z)
  | OmciSet (entity_class entity_id attributes_mask : Z) (data : gmap string aval)
  | OmciGet (entity_class entity_id attributes_mask : Z)
  | OmciReboot (entity_class entity_id : Z)
  | OmciMibReset (entity_class entity_id : Z)
  | OmciMibUpload (entity_class entity_id : Z)
  | OmciMibUploadNext (entity_class entity_id : Z) (command_sequence_number : aval)
  | OmciGetNext (entity_class entity_id attributes_mask : Z) (command_sequence_number : aval).

(** [message_id] of the message classes *)
Definition message_id (m : omci_request) : Z :=
  match m with
  | OmciCreate _ _ _ => 68
  | OmciDelete _ _ => 70
  | OmciSet _ _ _ _ => 72
  | OmciGet _ _ _ => 73
  | OmciMibUpload _ _ => 77
  | OmciMibUploadNext _ _ _ => 78
  | OmciMibReset _ _ => 79
  | OmciReboot _ _ => 89
  | OmciGetNext _ _ _ _ => 90
  end.

Record omci_frame := OmciFrame {
  transaction_id : option Z;
  message_type : Z;
  omci_message : omci_request;
}.

(** [OmciFrame(transaction_id=None, message_type=T.message_id, omci_message=T(...))] *)
Definition mk_frame (m : omci_request) : omci_frame := OmciFrame None (message_id m) m.

(** [data] of a [MEFrame]: a set of names or a dictionary *)
Inductive me_data :=
  | DSet (names : gset string)
  | DDict (values : gmap string aval).

Record me_frame := MEFrame {
  mf_class : entity_class;
  mf_entity_id : Z;
  mf_data : me_data;
}.

Section frames.
Context {HO : DictOrder} {St : Type}.

(** [keys()] of the dictionary, or the set itself *)
Definition names_of (d : me_data) : list string :=
  match d with
  | DSet s => (iteritems (gset_to_gmap tt s)).*1
  | DDict m => (iteritems m).*1
  end.

Definition init_frame (c : entity_class) (entity_id : Z) (d : me_data) : M St me_frame :=
  if decide (0 ≤ entity_id ≤ 65535) then mret (MEFrame c entity_id d) else raise ValueError.

Definition check_operation (c : entity_class) (o : operation) : M St unit :=
  passert (bool_decide (o ∈ mandatory_operations c ++ optional_operations c)).

Definition check_attributes (c : entity_class) (d : me_data) (access : access) : M St unit :=
  _ ← forM_ (λ name,
        index ← from_some KeyError (attribute_name_to_index_map c !! name);
        a ← from_some IndexError (attributes c !! index);
        passert (bool_decide (access ∈ acc a))) (names_of d);
  match d with
  | DDict m =>
      if decide (access = AA_W ∨ access = AA_SBC) then
        forM_ (λ '(name, value),
          index ← from_some TypeError (attribute_name_to_index_map c !! name);
          a ← from_some IndexError (attributes c !! index);
          if valid a value then mret tt else raise ValueError) (iteritems m)
      else mret tt
  | DSet _ => mret tt
  end.

(** [MEFrame.check_type(data, dict)] *)
Definition as_dict (d : me_data) : M St (gmap string aval) :=
  match d with DDict m => mret m | DSet _ => raise TypeError end.

Definition create_frame (f : me_frame) : M St omci_frame :=
  data ← as_dict (mf_data f);
  _ ← passert (bool_decide (data ≠ ∅));
  _ ← check_operation (mf_class f) OpCreate;
  _ ← check_attributes (mf_class f) (DDict data) AA_W;
  mret (mk_frame (OmciCreate (class_id (mf_class f)) (mf_entity_id f) data)).

Definition delete_frame (f : me_frame) : M St omci_frame :=
  _ ← check_operation (mf_class f) OpDelete;
  mret (mk_frame (OmciDelete (class_id (mf_class f)) (mf_entity_id f))).

Definition set_frame (f : me_frame) : M St omci_frame :=
  data ← as_dict (mf_data f);
  _ ← passert (bool_decide (data ≠ ∅));
  _ ← check_operation (mf_class f) OpSet;
  _ ← check_attributes (mf_class f) (DDict data) AA_W;
  mask ← mask_for (mf_class f) (names_of (DDict data));
  mret (mk_frame (OmciSet (class_id (mf_class f)) (mf_entity_id f) mask data)).

Definition get_frame (f : me_frame) : M St omci_frame :=
  let d := mf_data f in
  _ ← passert (bool_decide (names_of d ≠ []));
  _ ← check_operation (mf_class f) OpGet;
  _ ← check_attributes (mf_class f)
        (match d with DSet s => DSet s | DDict m => DSet (dom m) end) AA_R;
  mask ← mask_for (mf_class f) (names_of d);
  mret (mk_frame (OmciGet (class_id (mf_class f)) (mf_entity_id f) mask)).

Definition reboot_frame (f : me_frame) : M St omci_frame :=
  _ ← check_operation (mf_class f) OpReboot;
  mret (mk_frame (OmciReboot (class_id (mf_class f)) (mf_entity_id f))).

Definition mib_reset_frame (f : me_frame) : M St omci_frame :=
  _ ← check_operation (mf_class f) OpMibReset;
  mret (mk_frame (OmciMibReset (class_id (mf_class f)) (mf_entity_id f))).

Definition mib_upload_frame (f : me_frame) : M St omci_frame :=
  _ ← check_operation (mf_class f) OpMibUpload;
  mret (mk_frame (OmciMibUpload (class_id (mf_class f)) (mf_entity_id f))).

Definition mib_upload_next_frame (f : me_frame) : M St omci_frame :=
  data ← as_dict (mf_data f);
  _ ← passert (bool_decide (data ≠ ∅));
  _ ← passert (bool_decide (is_Some (data !! "mib_data_sync")));
  _ ← check_operation (mf_class f) OpMibUploadNext;
  _ ← check_attributes (mf_class f) (DDict data) AA_W;
  seq ← from_some KeyError (data !! "mib_data_sync");
  mret (mk_frame (OmciMibUploadNext (class_id (mf_class f)) (mf_entity_id f) seq)).

Definition get_next_frame (f : me_frame) : M St omci_frame :=
  data ← as_dict (mf_data f);
  _ ← passert (bool_decide (size data = 1%nat));
  _ ← check_operation (mf_class f) OpGetNext;
  _ ← check_attributes (mf_class f) (DSet (dom data)) AA_R;
  mask ← mask_for (mf_class f) (names_of (DDict data));
  seq ← from_some IndexError (head (iteritems data).*2);
  mret (mk_frame (OmciGetNext (class_id (mf_class f)) (mf_entity_id f) mask seq)).

(** ** OntDataFrame *)
Context (ShortField : string → aval → field).

Definition OntData : entity_class :=
  EntityClass 2
    [ ECA (ShortField "managed_entity_id" ANone) [AA_R] (Some (λ v, bool_decide (v = AInt 0)));
      ECA (ShortField "mib_data_sync" (AInt 0)) [AA_R; AA_W] None ]
    [ OpGet; OpSet; OpGetAllAlarms; OpGetAllAlarmsNext; OpMibReset; OpMibUpload; OpMibUploadNext ] [].

Definition ont_data_frame (mib_data_sync sequence_number : option Z) (ignore_arc : option bool) : M St me_frame :=
  _ ← (match mib_data_sync with
       | Some n => if decide (0 ≤ n ≤ 255) then mret tt else raise ValueError
       | None => mret tt
       end);
  _ ← (match sequence_number with
       | Some n => if decide (0 ≤ n ≤ 65535) then mret tt else raise ValueError
       | None => mret tt
       end);
  init_frame OntData 0
    (match mib_data_sync, sequence_number, ignore_arc with
     | Some n, _, _ => DDict {["mib_data_sync" := AInt n]}
     | None, Some n, _ => DDict {["mib_data_sync" := AInt n]}
     | None, None, Some b => DDict {["mib_data_sync" := AInt (if b then 0 else 1)]}
     | None, None, None => DSet {["mib_data_sync"]}
     end).
End frames.

(** ** Masks and indices *)
Lemma bit_positions_spec p : ∀ pos x,
  x ∈ bit_positions p pos (-1) ↔ ∃ k, 0 ≤ k ∧ Z.testbit (Zpos p) k = true ∧ x = pos - k.
Proof.
  assert (∀ k, 0 ≤ k → k = 0 ∨ ∃ j, 0 ≤ j ∧ k = Z.succ j) as Hcase.
  { intros k Hk. destruct (decide (k = 0)); [by left|]. right. exists (k - 1). lia. }
  induction p as [p IH|p IH|]; intros pos x; simpl.
  - rewrite elem_of_cons, IH. split.
    + intros [->|(k&Hk&Hb&->)]; [exists 0; split_and!; [lia|done|lia]|].
      exists (Z.succ k). split_and!; [lia| |lia]. by rewrite Pos2Z.inj_xI, Z.testbit_odd_succ.
    + intros (k&Hk&Hb&->). destruct (Hcase k Hk) as [->|(j&Hj&->)]; [left; lia|right].
      exists j. rewrite Pos2Z.inj_xI, Z.testbit_odd_succ in Hb by done. split_and!; [done..|lia].
  - rewrite IH. split.
    + intros (k&Hk&Hb&->). exists (Z.succ k). split_and!; [lia| |lia]. by rewrite Pos2Z.inj_xO, Z.testbit_even_succ.
    + intros (k&Hk&Hb&->). destruct (Hcase k Hk) as [->|(j&Hj&->)]; [by rewrite Pos2Z.inj_xO, Z.testbit_even_0 in Hb|].
      exists j. rewrite Pos2Z.inj_xO, Z.testbit_even_succ in Hb by done. split_and!; [done..|lia].
  - rewrite list_elem_of_singleton. split.
    + intros ->. exists 0. split_and!; [lia|done|lia].
    + intros (k&Hk&Hb&->). destruct (Hcase k Hk) as [->|(j&Hj&->)]; [lia|].
      change 1 with (2 * 0 + 1) in Hb. rewrite Z.testbit_odd_succ, Z.testbit_0_l in Hb by done. done.
Qed.

Lemma bit_positions_NoDup p : ∀ pos, NoDup (bit_positions p pos (-1)).
Proof.
  induction p as [p IH|p IH|]; intros pos; simpl; [|done|apply NoDup_singleton].
  constructor; [|done]. rewrite bit_positions_spec. intros (k&Hk&_&?). lia.
Qed.

Lemma bitpos_elem m pos x :
  x ∈ bitpos_from_mask m pos (-1) ↔ ∃ k, 0 ≤ k ∧ Z.testbit (Z.of_N m) k = true ∧ x = pos - k.
Proof.
  unfold bitpos_from_mask. rewrite merge_sort_Permutation. destruct m as [|p]; [|apply bit_positions_spec].
  split; [by intros ?%elem_of_nil|]. intros (k&_&Hk&_). by rewrite Z.testbit_0_l in Hk.
Qed.

Lemma bitpos_NoDup m pos : NoDup (bitpos_from_mask m pos (-1)).
Proof.
  unfold bitpos_from_mask. rewrite merge_sort_Permutation. destruct m; [constructor|apply bit_positions_NoDup].
Qed.

Lemma octet_bits a k : 0 ≤ k → Z.testbit (Z.of_N (Z.to_N (Z.land a 255))) k = Z.testbit a k && bool_decide (k ≤ 7).
Proof.
  intros Hk. rewrite Z2N.id by (apply Z.land_nonneg; lia). change 255 with (Z.ones 8).
  rewrite Z.land_spec. f_equal. case_bool_decide.
  - apply Z.ones_spec_low. lia.
  - apply Z.ones_spec_high. lia.
Qed.

(** The indices of a mask: attribute 1 is the highest of its 16 bits. *)
Lemma indices_spec mask i : i ∈ attribute_indices_from_mask mask ↔ 1 ≤ i ≤ 16 ∧ Z.testbit mask (16 - i) = true.
Proof.
  unfold attribute_indices_from_mask. rewrite elem_of_app, !bitpos_elem. split.
  - intros [(k&Hk&Hb&->)|(k&Hk&Hb&->)]; rewrite octet_bits in Hb by done; apply andb_true_iff in Hb as [Hb Hle%bool_decide_eq_true].
    + rewrite Z.shiftr_spec in Hb by done. replace (16 - (8 - k)) with (k + 8) by lia. split; [lia|done].
    + replace (16 - (16 - k)) with k by lia. split; [lia|done].
  - intros [Hi Hb]. destruct (decide (i ≤ 8)).
    + left. exists (8 - i). rewrite octet_bits, Z.shiftr_spec by lia. replace (8 - i + 8) with (16 - i) by lia.
      rewrite Hb, bool_decide_true by lia. split_and!; [lia|done|lia].
    + right. exists (16 - i). rewrite octet_bits by lia. rewrite Hb, bool_decide_true by lia. split_and!; [lia|done|lia].
Qed.

Lemma indices_NoDup mask : NoDup (attribute_indices_from_mask mask).
Proof.
  apply NoDup_app. split_and!; [apply bitpos_NoDup| |apply bitpos_NoDup].
  intros i (k&Hk&Hb&->)%bitpos_elem (j&Hj&Hb'&Heq)%bitpos_elem.
  rewrite octet_bits in Hb, Hb' by done. apply andb_true_iff in Hb as [_ ?%bool_decide_eq_true], Hb' as [_ ?%bool_decide_eq_true]. lia.
Qed.

(** A class names each attribute once. *)
Definition class_ok (c : entity_class) : Prop := NoDup (attr_name <$> attributes c).

Lemma name_to_index c name i : class_ok c →
  attribute_name_to_index_map c !! name = Some i ↔ ∃ a, attributes c !! i = Some a ∧ attr_name a = name.
Proof.
  unfold attribute_name_to_index_map, class_ok. induction (attributes c) as [|a l IH] using rev_ind; intros Hnd.
  - split; [done|]. by intros (a&Ha&_).
  - rewrite imap_app. simpl. rewrite foldl_app, Nat.add_0_r. simpl. rewrite fmap_app in Hnd.
    apply NoDup_app in Hnd as (Hl&Hd&_). specialize (IH Hl). destruct (decide (attr_name a = name)) as [<-|Hne].
    + rewrite lookup_insert_eq. split.
      * intros [= <-]. exists a. by rewrite lookup_app_r, Nat.sub_diag by done.
      * intros (b&Hb&Heq). apply lookup_app_Some in Hb as [Hb|[Hle Hb]].
        -- exfalso. apply (Hd (attr_name a)); [rewrite <-Heq; apply list_elem_of_fmap_2; by eapply list_elem_of_lookup_2|].
           simpl. by apply list_elem_of_singleton.
        -- apply list_lookup_singleton_Some in Hb as [? _]. f_equal. lia.
    + rewrite lookup_insert_ne by done. rewrite IH. split; intros (b&Hb&Hn); exists b; (split; [|done]).
      * by apply lookup_app_l_Some.
      * apply lookup_app_Some in Hb as [Hb|[_ [_ <-]%list_lookup_singleton_Some]]; done.
Qed.

Lemma one_bit j k : 0 ≤ k → Z.testbit (Z.shiftl 1 j) k = true ↔ k = j.
Proof.
  intros Hk. rewrite Z.shiftl_spec by done. split; [|intros ->; by rewrite Z.sub_diag]. intros Hb.
  destruct (decide (k - j < 0)); [by rewrite Z.testbit_neg_r in Hb by lia|].
  destruct (decide (k = j)); [done|]. rewrite (Z.bits_above_log2 1) in Hb; [done|lia|simpl; lia].
Qed.

Section mask_for.
Context {St : Type} (c : entity_class).

Definition index_of (name : string) : option nat := attribute_name_to_index_map c !! name.

Lemma mask_for_spec names (s : St) mask s' : mask_for c names s = (Ok mask, s') →
  s' = s ∧ (∀ name, name ∈ names → ∃ i, index_of name = Some i ∧ (i ≤ 16)%nat) ∧
  ∀ k, 0 ≤ k → Z.testbit mask k = true ↔ ∃ name i, name ∈ names ∧ index_of name = Some i ∧ k = 16 - Z.of_nat i.
Proof.
  unfold mask_for. intros H. set (f := λ mask attr_name, _) in H.
  assert (∀ m0, foldM f m0 names s = (Ok mask, s') →
    s' = s ∧ (∀ name, name ∈ names → ∃ i, index_of name = Some i ∧ (i ≤ 16)%nat) ∧
    ∀ k, 0 ≤ k → Z.testbit mask k = true ↔ Z.testbit m0 k = true ∨
      ∃ name i, name ∈ names ∧ index_of name = Some i ∧ k = 16 - Z.of_nat i) as Hgen.
  { clear H. induction names as [|n names IH]; intros m0 H.
    - injection H as <- <-. split_and!; [done|by intros ? ?%elem_of_nil|]. intros k _. split; [by left|].
      intros [?|(?&?&?%elem_of_nil&_)]; done.
    - cbn [foldM] in H. apply bind_ok_inv in H as (m1&s1&H1&H). apply bind_ok_inv in H1 as (i&s2&Hi&H1).
      fold (index_of n) in Hi. destruct (index_of n) as [i'|] eqn:Hn; [|done]. injection Hi as <- <-.
      case_decide; [done|]. injection H1 as <- <-. destruct (IH _ H) as (->&Hall&Hbits). split_and!; [done| |].
      + intros name [->|Hin]%elem_of_cons; [exists i'; split; [done|lia]|auto].
      + intros k Hk. rewrite (Hbits k Hk), Z.lor_spec, orb_true_iff, one_bit by done. split.
        * intros [[?| ->]|(name&i&Hin&Hi&->)]; [by left|right; exists n, i'; set_solver|right; exists name, i; set_solver].
        * intros [?|(name&i&[->|Hin]%elem_of_cons&Hi&->)]; [by left; left| |right; by exists name, i].
          left; right. congruence. }
  destruct (Hgen 0 H) as (->&Hall&Hbits). split_and!; [done..|]. intros k Hk. rewrite (Hbits k Hk), Z.testbit_0_l.
  split; [by intros [?|?]|by right].
Qed.
End mask_for.

(** The attributes of a mask made for some names are those names. *)
Lemma mask_indices {St} c names (s : St) mask s' i : class_ok c → mask_for c names s = (Ok mask, s') →
  i ∈ attribute_indices_from_mask mask ↔ 1 ≤ i ∧ ∃ a, attr_at c i = Some a ∧ attr_name a ∈ names.
Proof.
  intros Hc Hm. destruct (mask_for_spec c names s mask s' Hm) as (_&Hall&Hbits). rewrite indices_spec. split.
  - intros [Hi (name&j&Hin&Hj&Heq)%Hbits]; [|lia]. split; [lia|].
    apply name_to_index in Hj as (a&Ha&<-); [|done]. exists a. split; [|done]. unfold attr_at.
    by replace (Z.to_nat i) with j by lia.
  - intros (Hi&a&Ha&Hin). destruct (Hall _ Hin) as (j&Hj&Hle).
    assert (index_of c (attr_name a) = Some (Z.to_nat i)) as Hj' by (apply name_to_index; eauto).
    rewrite Hj in Hj'. injection Hj' as ->. split; [lia|]. apply Hbits; [lia|]. exists (attr_name a), (Z.to_nat i).
    split_and!; [done|done|lia].
Qed.

(** ** Round trips *)

(** What a field encodes, it decodes. *)
Definition faithful (f : field) (v : aval) : Prop :=
  ∃ o, (∀ s, addfield f v s = (Ok tt, s ++ o)) ∧ ∀ rest, getfield f (o ++ rest) = (Ok v, rest).

Section codec.
Context {I : Type} (attr : I → option attribute) (val : gmap string aval).

(** Writing the values of some attributes and reading them again. *)
Definition put (i : I) : M octets unit :=
  a ← from_some IndexError (attr i); v ← from_some KeyError (val !! attr_name a); addfield (fld a) v.
Definition take1 (data : gmap string aval) (i : I) : M octets (gmap string aval) :=
  match attr i with
  | None => mret data
  | Some a => v ← getfield (fld a); mret (<[attr_name a := v]> data)
  end.

Lemma put_take l :
  (∀ i, i ∈ l → ∃ a v, attr i = Some a ∧ val !! attr_name a = Some v ∧ faithful (fld a) v) →
  ∃ o, (∀ s, forM_ put l s = (Ok tt, s ++ o)) ∧
    ∀ acc, ∃ data, (∀ rest, foldM take1 acc l (o ++ rest) = (Ok data, rest)) ∧
      ∀ n, (∃ i a, i ∈ l ∧ attr i = Some a ∧ attr_name a = n) ∧ data !! n = val !! n ∨
           (¬ ∃ i a, i ∈ l ∧ attr i = Some a ∧ attr_name a = n) ∧ data !! n = acc !! n.
Proof.
  induction l as [|i l IH]; intros Hl.
  - exists []. split; [intros s; by rewrite app_nil_r|]. intros acc. exists acc. split; [done|]. intros n. right.
    split; [|done]. intros (?&?&?%elem_of_nil&_). done.
  - destruct IH as (o&Ho&Hr); [intros j Hj; apply Hl; set_solver|].
    destruct (Hl i) as (a&v&Ha&Hv&o1&Ho1&Hr1); [set_solver|]. exists (o1 ++ o). split.
    + intros s. cbn [forM_]. rewrite (bind_ok _ _ s tt (s ++ o1)); [by rewrite Ho, app_assoc|].
      unfold put. rewrite Ha, (bind_ok _ _ s a s) by done. by rewrite Hv, (bind_ok _ _ s v s) by done.
    + intros acc. destruct (Hr (<[attr_name a := v]> acc)) as (data&Hd&Hn). exists data. split.
      * intros rest. cbn [foldM]. rewrite <-app_assoc.
        rewrite (bind_ok _ _ _ (<[attr_name a := v]> acc) (o ++ rest)); [apply Hd|].
        unfold take1. by rewrite Ha, (bind_ok _ _ _ v (o ++ rest)) by apply Hr1.
      * intros n. destruct (Hn n) as [[(j&b&Hj&Hb&Hbn) Heq]|[Hno Heq]].
        -- left. split; [|done]. exists j, b. set_solver.
        -- destruct (decide (attr_name a = n)) as [<-|Hne].
           ++ left. split; [exists i, a; set_solver|]. by rewrite Heq, lookup_insert_eq.
           ++ right. rewrite Heq, lookup_insert_ne by done. split; [|done].
              intros (j&b&[->|Hj]%elem_of_cons&Hb&Hbn); [congruence|]. apply Hno. by exists j, b.
Qed.
End codec.

Lemma forM_inv {St B} (f : B → M St unit) l s s' : forM_ f l s = (Ok tt, s') →
  (∀ b s1 s2, f b s1 = (Ok tt, s2) → s2 = s1) → s' = s ∧ ∀ b, b ∈ l → f b s = (Ok tt, s).
Proof.
  intros H Hf. induction l as [|b l IH].
  - injection H as <-. split; [done|]. by intros ? ?%elem_of_nil.
  - cbn [forM_] in H. apply bind_ok_inv in H as ([]&s1&H1&H). pose proof (Hf _ _ _ H1) as ->.
    destruct (IH H) as [-> Hl]. split; [done|]. intros x [->|Hx]%elem_of_cons; auto.
Qed.

(** What passes the check of attributes is an attribute with that access. *)
Lemma check_attributes_inv `{DictOrder} {St} c d ac (s s' : St) : class_ok c → check_attributes c d ac s = (Ok tt, s') →
  s' = s ∧ ∀ name, name ∈ names_of d → ∃ i a, attributes c !! i = Some a ∧ attr_name a = name ∧ ac ∈ acc a.
Proof.
  intros Hc Hch. unfold check_attributes in Hch. apply bind_ok_inv in Hch as ([]&s1&H1&H2).
  apply forM_inv in H1 as [-> Hn].
  2: { intros n s1' s2 Hs. apply bind_ok_inv in Hs as (i&s3&Hi&Hs). destruct (_ !! n) as [j|]; [|done].
       injection Hi as -> <-. apply bind_ok_inv in Hs as (a&s4&Ha&Hs). destruct (attributes c !! i) as [b|]; [|done].
       injection Ha as -> <-. unfold passert in Hs. case_bool_decide; [|done]. by injection Hs as <-. }
  split.
  - destruct d as [|m]; [by injection H2|]. destruct (decide (ac = AA_W ∨ ac = AA_SBC)); [|by injection H2].
    apply forM_inv in H2 as [-> _]; [done|]. intros [n v] s1 s2 Hs.
    apply bind_ok_inv in Hs as (i&s3&Hi&Hs). destruct (_ !! n) as [j|]; [|done].
    injection Hi as -> <-. apply bind_ok_inv in Hs as (a&s4&Ha&Hs). destruct (attributes c !! i) as [b|]; [|done].
    injection Ha as -> <-. destruct (valid a v); [by injection Hs as <-|done].
  - intros name Hin. specialize (Hn name Hin). cbv beta in Hn. apply bind_ok_inv in Hn as (i&s3&Hi&Hs).
    destruct (attribute_name_to_index_map c !! name) as [j|] eqn:Hj; [|done].
    injection Hi as -> <-. apply bind_ok_inv in Hs as (a&s4&Ha&Hs). destruct (attributes c !! i) as [b|] eqn:Hb; [|done].
    injection Ha as -> <-. unfold passert in Hs. case_bool_decide; [|done]. exists i, a.
    apply name_to_index in Hj as (a'&Ha'&<-); [|done]. rewrite Hb in Ha'. injection Ha' as <-. done.
Qed.

Lemma set_frame_inv `{DictOrder} {St} f (s : St) fr s' : class_ok (mf_class f) → set_frame f s = (Ok fr, s') →
  ∃ data mask, mf_data f = DDict data ∧ fr = mk_frame (OmciSet (class_id (mf_class f)) (mf_entity_id f) mask data) ∧
    mask_for (mf_class f) (names_of (DDict data)) s = (Ok mask, s) ∧
    ∀ name, name ∈ names_of (DDict data) →
      ∃ i a, attributes (mf_class f) !! i = Some a ∧ attr_name a = name ∧ AA_W ∈ acc a.
Proof.
  intros Hc Hs. unfold set_frame in Hs. apply bind_ok_inv in Hs as (data&s1&Hd&Hs).
  destruct (mf_data f) as [|m] eqn:Hm; [done|]. injection Hd as -> <-.
  apply bind_ok_inv in Hs as ([]&s1&Hp&Hs). unfold passert in Hp. case_bool_decide; [|done]. injection Hp as <-.
  apply bind_ok_inv in Hs as ([]&s1&Hp&Hs). unfold check_operation, passert in Hp. case_bool_decide; [|done]. injection Hp as <-.
  apply bind_ok_inv in Hs as ([]&s1&[-> Hch]%check_attributes_inv&Hs); [|done].
  apply bind_ok_inv in Hs as (mask&s1&Hmask&Hs). injection Hs as <- <-.
  destruct (mask_for_spec _ _ _ _ _ Hmask) as (->&_). by exists data, mask.
Qed.

(** C28 A Set request is read back as it was written: the mask of the frame that
    [set] builds names the attributes given, and the octets of their values,
    followed by anything, decode to the dictionary given. *)
Theorem set_frame_roundtrip `{DictOrder} {St} f (s : St) fr s' :
  class_ok (mf_class f) → (∀ a, attributes (mf_class f) !! 0%nat = Some a → AA_W ∉ acc a) →
  (∀ data a v, mf_data f = DDict data → a ∈ attributes (mf_class f) → data !! attr_name a = Some v → faithful (fld a) v) →
  set_frame f s = (Ok fr, s') →
  ∃ mask data o, omci_message fr = OmciSet (class_id (mf_class f)) (mf_entity_id f) mask data ∧ mf_data f = DDict data ∧
    masked_addfield (Some (mf_class f)) mask data [] = (Ok tt, o) ∧
    ∀ rest, masked_getfield (Some (mf_class f)) mask (o ++ rest) = (Ok data, rest).
Proof.
  intros Hc H0 Hf Hs. destruct (set_frame_inv f s fr s' Hc Hs) as (data&mask&Hd&->&Hm&Hw).
  destruct (put_take (attr_at (mf_class f)) data (attribute_indices_from_mask mask)) as (o&Hput&Htake).
  { intros i (Hi&a&Ha&Hin)%(mask_indices _ _ _ _ _ i Hc Hm). simpl in Hin. apply list_elem_of_fmap in Hin as ([n v]&Hn&Hin).
    apply elem_of_iteritems in Hin. simpl in Hn. rewrite <-Hn in Hin. exists a, v. split_and!; [done..|].
    eapply Hf; [done| |done]. by eapply list_elem_of_lookup_2. }
  destruct (Htake ∅) as (data'&Hget&Hlook). assert (data' = data) as ->.
  { apply map_eq. intros n. destruct (Hlook n) as [[_ ?]|[Hno ->]]; [done|]. rewrite lookup_empty. symmetry.
    apply eq_None_not_Some. intros [v Hv]. apply Hno. apply elem_of_iteritems in Hv.
    assert (n ∈ names_of (DDict data)) as Hn by (apply list_elem_of_fmap; by exists (n, v)).
    destruct (Hw n Hn) as (i&a&Ha&Han&Hacc). exists (Z.of_nat i), a. unfold attr_at. rewrite Nat2Z.id. split_and!; [|done..].
    apply (mask_indices _ _ _ _ _ _ Hc Hm). split.
    - destruct i; [by destruct (H0 a Ha)|lia].
    - exists a. unfold attr_at. rewrite Nat2Z.id. by rewrite Han. }
  exists mask, data, o. split_and!; [done|done|apply (Hput [])|exact Hget].
Qed.

(** ** Requests on the ONT data entity *)
Lemma iteritems_singleton `{DictOrder} `{Countable K} {V} (k : K) (v : V) : iteritems {[k := v]} = [(k, v)].
Proof.
  apply Permutation_singleton_r. unfold iteritems. rewrite iter_order_perm. by rewrite map_to_list_singleton.
Qed.

(** The sequence number of an upload is carried in the attribute mib_data_sync. *)
Lemma upload_next_frame `{DictOrder} {St} (ShortField : string → aval → field) seq (s : St) :
  (∀ n d, fname (ShortField n d) = n ∧ ftype (ShortField n d) = "ShortField") →
  (f ← ont_data_frame ShortField None (Some seq) None; mib_upload_next_frame f) s =
  (if decide (0 ≤ seq ≤ 65535) then Ok (mk_frame (OmciMibUploadNext 2 0 (AInt seq))) else Err ValueError, s).
Proof.
  intros Hsf. unfold ont_data_frame. case_decide as Hseq.
  - set (f := MEFrame (OntData ShortField) 0 (DDict {["mib_data_sync" := AInt seq]})).
    rewrite (bind_ok _ _ s f s) by done.
    unfold mib_upload_next_frame. erewrite bind_ok by done. erewrite bind_ok by (by rewrite bool_decide_true).
    rewrite bind_ok with (a := tt) (s' := s).
    2: { rewrite bool_decide_true; [done|]. by rewrite lookup_singleton_eq. }
    erewrite bind_ok by done. rewrite bind_ok with (a := tt) (s' := s).
    2: { unfold check_attributes. simpl. rewrite iteritems_singleton. simpl.
         assert (attribute_name_to_index_map (OntData ShortField) !! "mib_data_sync" = Some 1%nat) as Hi.
         { unfold attribute_name_to_index_map, attr_name. simpl. by rewrite !(proj1 (Hsf _ _)), lookup_insert_eq. }
         assert (valid (ECA (ShortField "mib_data_sync" (AInt 0)) [AA_R; AA_W] None) (AInt seq) = true) as Hv.
         { unfold valid. cbn [fld range_check]. rewrite (proj2 (Hsf _ _)).
           change (type_checker "ShortField" (AInt seq)) with ((0 <=? seq) && (seq <=? 65535)).
           by rewrite (proj2 (Z.leb_le 0 seq)), (proj2 (Z.leb_le seq 65535)) by lia. }
         rewrite !Hi. unfold mbind, M_bind. cbn. rewrite Hv. done. }
    erewrite bind_ok by (by rewrite lookup_singleton_eq). done.
  - by erewrite bind_err by (erewrite bind_ok by done; by erewrite bind_err).
Qed.

(** ** A sample class

    [Tcont] of omci_entities.py, over fields of one and two octets. *)
Section sample.
Local Existing Instance plain_order.

Definition put_octet (n : Z) : M octets unit :=
  b ← from_some ValueError (Byte.of_N (Z.to_N n)); modify (λ s, s ++ [b]).
Definition get_octet : M octets Z :=
  s ← gets (λ s, s);
  match s with [] => raise ValueError | b :: s => _ ← modify (λ _, s); mret (Z.of_N (Byte.to_N b)) end.

Definition byte_field (name : string) (d : aval) : field :=
  Fld name "ByteField" d
    (λ v, match v with AInt n => put_octet n | _ => raise TypeError end)
    (n ← get_octet; mret (AInt n)).

Definition short_field (name : string) (d : aval) : field :=
  Fld name "ShortField" d
    (λ v, match v with AInt n => _ ← put_octet (Z.shiftr n 8); put_octet (Z.land n 255) | _ => raise TypeError end)
    (h ← get_octet; l ← get_octet; mret (AInt (Z.shiftl h 8 + l))).

Definition Tcont : entity_class :=
  EntityClass 262
    [ ECA (short_field "managed_entity_id" ANone) [AA_R] None;
      ECA (short_field "alloc_id" ANone) [AA_R; AA_W] None;
      ECA (byte_field "mode_indicator" (AInt 1)) [AA_R] None;
      ECA (byte_field "policy" ANone) [AA_R; AA_W] (Some (int_upto 2)) ]
    [ OpGet; OpSet ] [].

Definition sample_values : gmap string aval := {["alloc_id" := AInt 1030; "policy" := AInt 1]}.

Lemma faithful_alloc : faithful (short_field "alloc_id" ANone) (AInt 1030).
Proof. exists [x04; x06]. split; [|done]. intros s.
  change ((@Ok unit tt, (s ++ [x04]) ++ [x06]) = (Ok tt, s ++ [x04; x06])). by rewrite <-app_assoc. Qed.

Lemma faithful_policy : faithful (byte_field "policy" ANone) (AInt 1).
Proof. exists [x01]. by split. Qed.

Lemma set_frame_roundtrip_witness :
  let f := MEFrame Tcont 5 (DDict sample_values) in
  set_frame f tt = (Ok (mk_frame (OmciSet 262 5 40960 sample_values)), tt) ∧
  ∃ mask data o, OmciSet 262 5 40960 sample_values = OmciSet 262 5 mask data ∧ DDict sample_values = DDict data ∧
    masked_addfield (Some Tcont) mask data [] = (Ok tt, o) ∧
    ∀ rest, masked_getfield (Some Tcont) mask (o ++ rest) = (Ok data, rest).
Proof.
  intros f. assert (set_frame f tt = (Ok (mk_frame (OmciSet 262 5 40960 sample_values)), tt)) as Hs by (vm_compute; reflexivity).
  split; [exact Hs|]. apply (set_frame_roundtrip f tt (mk_frame (OmciSet 262 5 40960 sample_values)) tt); [| | |exact Hs].
  - apply (bool_decide_unpack _). vm_compute. exact I.
  - intros a [= <-]. apply (bool_decide_unpack _). vm_compute. exact I.
  - intros data a v [= <-] Ha Hv. cbn [attributes Tcont f mf_class] in Ha. rewrite !elem_of_cons, elem_of_nil in Ha.
    destruct Ha as [->|[->|[->|[->|[]]]]].
    + by vm_compute in Hv.
    + assert (v = AInt 1030) as -> by (vm_compute in Hv; congruence). apply faithful_alloc.
    + by vm_compute in Hv.
    + assert (v = AInt 1) as -> by (vm_compute in Hv; congruence). apply faithful_policy.
Defined.
End sample.
