(* ===== verification/ConfigRev.v ===== *)
(** * Configuration revisions

    Messages, configuration data and revisions of the configuration tree:
    src/voltha/core/config/config_rev.py and config_rev_persisted.py, with
    the objects of config_branch.py and the attributes of config_node.py,
    config_proxy.py and config_root.py.

    Nodes, branches and revisions are objects with identity: the store
    [world] is the Python heap, and a reference is a number.  The [_revs] of a
    branch and the cache of configuration data are weak dictionaries in the
    code; here an entry stays, since a revision found again has the content it
    had.  Object finalisation ([__del__]) is not modelled. *)
From S2P Require Import Prelude.
From Stdlib Require Import Ascii.
From stdpp Require Import base gmap list strings sorting.
From Stdlib Require Import ZArith Lia.

(** ** Protobuf messages

    A message has a class, its own fields, and the messages in the fields
    that the schema marks [child_node], each under its field name. *)
Inductive value :=
  | VStr (s : string)
  | VInt (n : Z)
  | VOther (s : string).

#[export] Instance value_eq_dec : EqDecision value.
Proof. solve_decision. Defined.

(** What is left of a message when its child fields are cleared. *)
Record local := Local {
  l_cls : string;
  l_own : gmap string value;
}.

#[export] Instance local_eq_dec : EqDecision local.
Proof. solve_decision. Defined.

Inductive msg := Msg (loc : local) (kids : list (string * msg)).

Definition m_local (m : msg) : local := let 'Msg l _ := m in l.
Definition m_kids (m : msg) : list (string * msg) := let 'Msg _ k := m in k.
Definition of_local (l : local) : msg := Msg l [].

(** [getattr(data, field_name)] of a child field *)
Definition field_msgs (name : string) (m : msg) : list msg :=
  (filter (λ p, p.1 = name) (m_kids m)).*2.

(** ** Schemas: the descriptors of the generated message classes *)
Inductive field_type :=
  | TYPE_STRING
  | TYPE_FIXED32 | TYPE_FIXED64 | TYPE_INT32 | TYPE_INT64 | TYPE_SFIXED32
  | TYPE_SFIXED64 | TYPE_SINT32 | TYPE_SINT64 | TYPE_UINT32 | TYPE_UINT64
  | TYPE_MESSAGE
  | TYPE_OTHER.

Inductive access := READ_ONLY | READ_WRITE | REAL_TIME.

#[export] Instance access_eq_dec : EqDecision access.
Proof. solve_decision. Defined.

Record field_descriptor := FieldDescriptor {
  fd_name : string;
  fd_label : Z;
  fd_type : field_type;
  fd_message_type : string;
  fd_child_node : option string;      (* the [key] of the [child_node] option *)
  fd_access : option access;
}.

Class Schema := descriptor : string → list field_descriptor.

Definition fields_by_name `{Schema} (cls name : string) : option field_descriptor :=
  head (filter (λ fd, fd_name fd = name) (descriptor cls)).

(** [getattr(data, name)] of an own field: unset fields have the default of
    their type. *)
Definition getattr `{Schema} (d : local) (name : string) : value :=
  match l_own d !! name with
  | Some v => v
  | None => match fd_type <$> fields_by_name (l_cls d) name with
            | Some TYPE_STRING => VStr ""
            | Some TYPE_MESSAGE | Some TYPE_OTHER | None => VOther ""
            | Some _ => VInt 0
            end
  end.

(** [int(s)]: an optional sign and decimal digits (surrounding blanks, which
    Python allows, do not occur in paths) *)
Definition digit (a : Ascii.ascii) : option Z :=
  let n := Z.of_nat (Ascii.nat_of_ascii a) in
  if decide (48 ≤ n ≤ 57)%Z then Some (n - 48)%Z else None.

Fixpoint digits (s : string) (acc : Z) : option Z :=
  match s with
  | EmptyString => Some acc
  | String a s => d ← digit a; digits s (10 * acc + d)%Z
  end.

Definition int_of_str (s : string) : result value :=
  let r := match s with
           | EmptyString => None
           | String "-"%char (String a s) => Z.opp <$> digits (String a s) 0
           | String "+"%char (String a s) => digits (String a s) 0
           | String a s => digits (String a s) 0
           end in
  match r with Some n => Ok (VInt n) | None => Err ValueError end.

(** [_ChildType] *)
Record child_type := ChildType {
  ct_type : string;
  ct_is_container : bool;
  ct_key : string;
  ct_key_from_str : option (string → result value);
}.

#[export] Instance result_ret : MRet result := λ A a, Ok a.
#[export] Instance result_bind : MBind result := λ A B f m,
  match m with Ok a => f a | Err e => Err e end.

Definition opt {A} (e : exn) (o : option A) : result A :=
  match o with Some a => Ok a | None => Err e end.

(** [children_fields(cls)]; the memo table only saves time. *)
Definition child_type_of `{Schema} (fd : field_descriptor) (key : string) : result child_type :=
  key_from_str ← (if decide (key = "") then Ok None
                  else kf ← opt KeyError (fields_by_name (fd_message_type fd) key);
                       match fd_type kf with
                       | TYPE_STRING => Ok (Some (λ s, Ok (VStr s)))
                       | TYPE_MESSAGE | TYPE_OTHER => Err NotImplementedError
                       | _ => Ok (Some int_of_str)
                       end);
  mret (ChildType (fd_message_type fd) (bool_decide (fd_label fd = 3%Z)) key key_from_str).

Fixpoint children_fields_of `{Schema} (l : list field_descriptor) (names : gmap string child_type)
    : result (gmap string child_type) :=
  match l with
  | [] => Ok names
  | fd :: l =>
      match fd_child_node fd with
      | None => children_fields_of l names
      | Some key => ct ← child_type_of fd key; children_fields_of l (<[fd_name fd := ct]> names)
      end
  end.

Definition children_fields `{Schema} (cls : string) : result (gmap string child_type) :=
  children_fields_of (descriptor cls) ∅.

Definition access_rights `{Schema} (cls : string) : gmap string access :=
  list_to_map (reverse (omap (λ fd, (fd_name fd,.) <$> fd_access fd) (descriptor cls))).

(** [check_access_violation(new_msg, old_msg)] (config_node.py) *)
Definition check_access_violation `{Schema} (new_msg old_msg : local) : result () :=
  let violated := filter (λ p, p.2 = READ_ONLY ∧ getattr new_msg p.1 ≠ getattr old_msg p.1)
                    (map_to_list (access_rights (l_cls new_msg))) in
  match violated with [] => Ok tt | _ => Err ValueError end.

(** ** The objects of the configuration tree *)

(** [ConfigDataRevision]; the cache makes equal hashes one object, [c_id]. *)
Record config := Config {
  c_id : nat;
  c_data : local;
  c_hash : string;
}.

(** [ConfigRevision]; [clear_hash] sets the hash to [None]. *)
Record revision := Rev {
  r_branch : nat;
  r_config : config;
  r_children : gmap string (list nat);
  r_hash : option string;
}.

(** [ConfigBranch] *)
Record branch := Branch {
  b_node : nat;
  b_txid : option string;
  b_origin : option nat;
  b_revs : gmap (option string) nat;
  b_latest : option nat;
}.

(** [CallbackType] *)
Inductive callback_type :=
  | GET | PRE_UPDATE | POST_UPDATE | PRE_ADD | POST_ADD | PRE_REMOVE | POST_REMOVE | POST_LISTCHANGE.

#[export] Instance callback_type_eq_dec : EqDecision callback_type.
Proof. solve_decision. Defined.

(** What a callback is called with and returns: a message, an
    [OperationContext] for a field, or [None]. *)
Inductive context :=
  | CMsg (m : msg)
  | COp (field_name : string)
  | CNone.

(** [ConfigProxy]; callbacks are code of the tree's users, by number. *)
Record proxy := Proxy {
  p_path : string;
  p_exclusive : bool;
  p_callbacks : callback_type → list nat;
}.

(** [ConfigNode] *)
Record node := Node {
  n_type : string;
  n_branches : gmap (option string) nat;
  n_tags : gmap string nat;
  n_proxy : option proxy;
}.

(** The values of the key-value store: serialised configuration data,
    revisions (hashes of the children and of the data), the root entry. *)
Inductive blob :=
  | BConfig (d : local)
  | BRev (children : gmap string (list (option string))) (config_hash : string)
  | BRoot (latest : option string) (tags : gmap string (option string)).

(** A call in one of the root's deferred queues: [invoke_callbacks] of the
    proxy of a node, or [advertise] of a node's event bus. *)
Record deferred := Deferred {
  d_node : nat;
  d_type : callback_type;
  d_context : context;
}.

Record notification := Notification {
  nt_type : callback_type;
  nt_data : context;
  nt_hash : option string;
}.

Record world := World {
  nodes : gmap nat node;
  branches : gmap nat branch;
  revs : gmap nat revision;
  rev_cache : gmap string config;
  next_id : nat;
  dirty_nodes : gmap string (gset nat);
  cb_queue : list deferred;
  note_queue : list notification;
  kv_store : option (gmap string blob);
  published : list notification;
}.

Definition set_nodes (f : gmap nat node → gmap nat node) (w : world) : world :=
  World (f (nodes w)) (branches w) (revs w) (rev_cache w) (next_id w) (dirty_nodes w)
    (cb_queue w) (note_queue w) (kv_store w) (published w).
Definition set_branches (f : gmap nat branch → gmap nat branch) (w : world) : world :=
  World (nodes w) (f (branches w)) (revs w) (rev_cache w) (next_id w) (dirty_nodes w)
    (cb_queue w) (note_queue w) (kv_store w) (published w).
Definition set_revs (f : gmap nat revision → gmap nat revision) (w : world) : world :=
  World (nodes w) (branches w) (f (revs w)) (rev_cache w) (next_id w) (dirty_nodes w)
    (cb_queue w) (note_queue w) (kv_store w) (published w).
Definition set_rev_cache (f : gmap string config → gmap string config) (w : world) : world :=
  World (nodes w) (branches w) (revs w) (f (rev_cache w)) (next_id w) (dirty_nodes w)
    (cb_queue w) (note_queue w) (kv_store w) (published w).
Definition set_next_id (n : nat) (w : world) : world :=
  World (nodes w) (branches w) (revs w) (rev_cache w) n (dirty_nodes w)
    (cb_queue w) (note_queue w) (kv_store w) (published w).
Definition set_dirty_nodes (f : gmap string (gset nat) → gmap string (gset nat)) (w : world) : world :=
  World (nodes w) (branches w) (revs w) (rev_cache w) (next_id w) (f (dirty_nodes w))
    (cb_queue w) (note_queue w) (kv_store w) (published w).
Definition set_queues (q : list deferred) (n : list notification) (w : world) : world :=
  World (nodes w) (branches w) (revs w) (rev_cache w) (next_id w) (dirty_nodes w)
    q n (kv_store w) (published w).
Definition set_kv (f : gmap string blob → gmap string blob) (w : world) : world :=
  World (nodes w) (branches w) (revs w) (rev_cache w) (next_id w) (dirty_nodes w)
    (cb_queue w) (note_queue w) (f <$> kv_store w) (published w).
Definition set_published (l : list notification) (w : world) : world :=
  World (nodes w) (branches w) (revs w) (rev_cache w) (next_id w) (dirty_nodes w)
    (cb_queue w) (note_queue w) (kv_store w) l.

(** A new object's reference. *)
Definition fresh_id : M world nat :=
  n ← gets next_id;
  _ ← modify (set_next_id (S n));
  mret n.

(** Following a reference; every reference of the model points to an object. *)
Definition deref_rev (r : nat) : M world revision := o ← gets (λ w, revs w !! r); from_some AttributeError o.
Definition deref_branch (b : nat) : M world branch := o ← gets (λ w, branches w !! b); from_some AttributeError o.
Definition deref_node (n : nat) : M world node := o ← gets (λ w, nodes w !! n); from_some AttributeError o.

(** ** Hashes

    [md5] and [SerializeToString] are library code. *)
Class Hashing := {
  hexdigest : string → string;         (* [md5(s).hexdigest()] *)
  serialize : local → string;          (* [data.SerializeToString()] *)
  cls_module : string → string;        (* [data.__class__.__module__] *)
}.

(** The order of [str], by bytes. *)
Definition str_le (a b : string) : Prop := String.leb a b = true.

#[export] Instance str_le_dec : RelDecision str_le.
Proof. intros a b. unfold str_le. apply _. Defined.

Section revisions.
Context {HSc : Schema} {HHa : Hashing} {HOr : DictOrder}.

Definition hash12 (s : string) : string := String.substring 0 12 (hexdigest s).

(** [_hash_data], the case of a protobuf message *)
Definition hash_data (d : local) : string :=
  hash12 (cls_module (l_cls d) +:+ ":" +:+ l_cls d +:+ ":" +:+ serialize d).

(** [sorted(self._children.keys())] *)
Definition sorted_keys (m : gmap string (list nat)) : list string :=
  merge_sort str_le (map_to_list m).*1.

(** [''.join(c._hash for c in children)]; a cleared hash is a [TypeError]. *)
Fixpoint join_hashes (w : world) (cs : list nat) : result string :=
  match cs with
  | [] => Ok ""
  | c :: cs =>
      r ← opt AttributeError (revs w !! c);
      h ← opt TypeError (r_hash r);
      t ← join_hashes w cs;
      mret (h +:+ t)
  end.

Fixpoint join_fields (w : world) (children : gmap string (list nat)) (names : list string) : result string :=
  match names with
  | [] => Ok ""
  | n :: names =>
      s ← join_hashes w (default [] (children !! n));
      t ← join_fields w children names;
      mret (s +:+ t)
  end.

Definition hash_content (w : world) (c : config) (children : gmap string (list nat)) : result string :=
  s ← join_fields w children (sorted_keys children);
  mret (hash12 (c_hash c +:+ s)).

(** ** Persistence: [PersistedConfigRevision.store] *)

Definition kv_put (k : string) (b : blob) : M world unit := modify (set_kv (<[k := b]>)).
Definition kv_has (k : string) (w : world) : bool :=
  match kv_store w with Some kv => bool_decide (is_Some (kv !! k)) | None => false end.

Definition store_config (c : config) : M world unit :=
  there ← gets (kv_has (c_hash c));
  if there : bool then mret tt else kv_put (c_hash c) (BConfig (c_data c)).

Definition child_hashes (w : world) (cs : list nat) : list (option string) :=
  (λ c, revs w !! c ≫= r_hash) <$> cs.

Definition store (r : revision) (h : string) : M world unit :=
  there ← gets (kv_has h);
  if there : bool then mret tt
  else
    _ ← store_config (r_config r);
    lists ← gets (λ w, child_hashes w <$> r_children r);
    kv_put h (BRev lists (c_hash (r_config r))).

(** ** [ConfigRevision] *)

(** [_finalize] of a new revision object, which becomes reachable with it. *)
Definition finalize (br : nat) (c : config) (children : gmap string (list nat)) : M world nat :=
  r_h ← gets (λ w, hash_content w c children);
  h ← lift r_h;
  cached ← gets (λ w, rev_cache w !! c_hash c);
  c' ← (match cached with
        | Some c' => mret c'
        | None => _ ← modify (set_rev_cache (<[c_hash c := c]>)); mret c
        end);
  n ← fresh_id;
  let r := Rev br c' children (Some h) in
  _ ← modify (set_revs (<[n := r]>));
  _ ← store r h;
  mret n.

Definition new_config (d : local) : M world config :=
  i ← fresh_id;
  mret (Config i d (hash_data d)).

Definition mkrev (br : nat) (d : local) (children : gmap string (list nat)) : M world nat :=
  c ← new_config d;
  finalize br c children.

Definition clear_hash (n : nat) : M world unit :=
  modify (set_revs (alter (λ r, Rev (r_branch r) (r_config r) (r_children r) None) n)).

Definition update_data (n : nat) (d : local) (br : nat) : M world nat :=
  r ← deref_rev n;
  c ← new_config d;
  finalize br c (r_children r).

Definition update_children (n : nat) (name : string) (children : list nat) (br : nat) : M world nat :=
  r ← deref_rev n;
  finalize br (r_config r) (<[name := children]> (r_children r)).

Definition update_all_children (n : nat) (children : gmap string (list nat)) (br : nat) : M world nat :=
  r ← deref_rev n;
  finalize br (r_config r) children.

(** [get(depth)]: a negative depth assembles the whole subtree.  Children are
    created before their parent, so a revision's number bounds the height of
    the tree under it. *)
Fixpoint rev_get (fuel : nat) (w : world) (n : nat) (depth : Z) : result msg :=
  match fuel with
  | 0 => Err OutOfFuel
  | S fuel =>
      r ← opt AttributeError (revs w !! n);
      let d := c_data (r_config r) in
      if decide (depth = 0%Z) then Ok (of_local d)
      else
        cfields ← children_fields (l_cls d);
        kids ← mapM (λ '(name, field),
            cs ← opt KeyError (r_children r !! name);
            if ct_is_container field then
              ks ← mapM (λ c, rev_get fuel w c (depth - 1)) cs;
              mret ((λ k, (name, k)) <$> ks)
            else
              c ← opt IndexError (head cs);
              k ← rev_get fuel w c (depth - 1);
              mret [(name, k)]) (iteritems cfields);
        mret (Msg d (concat kids))
  end.

Definition get_rev (n : nat) (depth : Z) : M world msg :=
  r ← gets (λ w, rev_get (S n) w n depth);
  lift r.

End revisions.
