(* ===== verification/Merge3way.v ===== *)
(** * Three-way merge of revisions

    The function [merge_3way] of src/voltha/core/config/merge_3way.py. *)
From S2P Require Import Prelude ConfigRev.
From stdpp Require Import base gmap list strings.
From Stdlib Require Import ZArith Lia.

(** A change to announce: callback type and context. *)
Definition announcement : Type := callback_type * context.

(** [lst[i] = x] and [lst.pop(i)]; an index out of range is an [IndexError]. *)
Definition list_set {A} (i : nat) (x : A) (l : list A) : result (list A) :=
  if decide (i < length l) then Ok (<[i := x]> l) else Err IndexError.

Definition list_pop {A} (i : nat) (l : list A) : result (A * list A) :=
  match l !! i with Some x => Ok (x, delete i l) | None => Err IndexError end.

(** [AnalyzeChanges] *)
Record analysis := Analysis {
  keymap1 : odict value nat;
  keymap2 : odict value nat;
  added_keys : list value;
  removed_keys : list value;
  changed_keys : list value;
}.

(** [OrderedDict((key, i) for i, rev in enumerate(lst))] *)
Definition keymap (keys : list value) : odict value nat :=
  foldl (λ d p, od_set p.2 p.1 d) [] (imap pair keys).

(** Two lists of (key, hash), in the order of the revisions. *)
Definition AnalyzeChanges {H} `{EqDecision H} (lst1 lst2 : list (value * H)) : analysis :=
  let m1 := keymap lst1.*1 in
  let m2 := keymap lst2.*1 in
  Analysis m1 m2
    (filter (λ k, od_mem k m1 = false) m2.*1)
    (filter (λ k, od_mem k m2 = false) m1.*1)
    (filter (λ k, match od_get k m1, od_get k m2 with
                  | Some i, Some j => bool_decide (snd <$> lst1 !! i ≠ snd <$> lst2 !! j)
                  | _, _ => false
                  end = true) m1.*1).

Section merge.
Context {HSc : Schema} {HHa : Hashing} {HOr : DictOrder}.

(** The key and the hash of a revision. *)
Definition entry (w : world) (key : string) (n : nat) : value * option string :=
  match revs w !! n with
  | Some r => (getattr (c_data (r_config r)) key, r_hash r)
  | None => (VOther "", None)
  end.

Definition entries (w : world) (key : string) (l : list nat) : list (value * option string) :=
  entry w key <$> l.

(** [rev.data] of a revision, as a callback's context; of [None], an
    [AttributeError]. *)
Definition data_of (o : option nat) : M world context :=
  n ← from_some AttributeError o;
  r ← deref_rev n;
  mret (CMsg (of_local (c_data (r_config r)))).

Definition dict_index {V} (k : value) (d : odict value V) : M world V :=
  from_some KeyError (od_get k d).

(** Children under construction: [None] is what a dry run of the merge of a
    child returns. *)
Definition new_list : Type := list (option nat).

Section fields.
Context (merge_child_func : nat → M world (option nat)).

(** [key] added on one branch only, the other being the fork *)
Definition ff_added (src : analysis) (acc : new_list * list announcement) (key : value)
    : M world (new_list * list announcement) :=
  let '(nl, changes) := acc in
  idx ← dict_index key (keymap2 src);
  o ← from_some IndexError (nl !! idx);
  n ← from_some AttributeError o;
  new_rev ← merge_child_func n;
  nl ← lift (list_set idx new_rev nl);
  d ← data_of new_rev;
  mret (nl, changes ++ [(POST_ADD, d)]).

Definition ff_removed (src : analysis) (fork_list : list nat) (acc : new_list * list announcement)
    (key : value) : M world (new_list * list announcement) :=
  let '(nl, changes) := acc in
  i ← dict_index key (keymap1 src);
  old_rev ← from_some IndexError (fork_list !! i);
  d ← data_of (Some old_rev);
  mret (nl, changes ++ [(POST_REMOVE, d)]).

Definition ff_changed (src : analysis) (acc : new_list * list announcement) (key : value)
    : M world (new_list * list announcement) :=
  let '(nl, changes) := acc in
  idx ← dict_index key (keymap2 src);
  o ← from_some IndexError (nl !! idx);
  n ← from_some AttributeError o;
  new_rev ← merge_child_func n;
  nl ← lift (list_set idx new_rev nl);
  mret (nl, changes).

(** A keyed field whose destination did not change since the fork. *)
Definition merge_keyed_ff (key : string) (fork_list src_list : list nat) (changes : list announcement)
    : M world (new_list * list announcement) :=
  src ← gets (λ w, AnalyzeChanges (entries w key fork_list) (entries w key src_list));
  acc ← foldM (ff_added src) (Some <$> src_list, changes) (added_keys src);
  acc ← foldM (ff_removed src fork_list) acc (removed_keys src);
  foldM (ff_changed src) acc (changed_keys src).

Definition hash_of (n : nat) : M world (option string) := r ← deref_rev n; mret (r_hash r).
Definition config_hash_of (n : nat) : M world string := r ← deref_rev n; mret (c_hash (r_config r)).

(** The children of [key] in the two branches. *)
Definition child_of (a : analysis) (l : list nat) (key : value) : M world nat :=
  i ← dict_index key (keymap2 a);
  from_some IndexError (l !! i).

Definition both_added (src dst : analysis) (src_list dst_list : list nat)
    (acc : new_list * list announcement) (key : value) : M world (new_list * list announcement) :=
  let '(nl, changes) := acc in
  if decide (key ∈ added_keys dst) then
    child_dst_rev ← child_of dst dst_list key;
    child_src_rev ← child_of src src_list key;
    h1 ← hash_of child_dst_rev;
    h2 ← hash_of child_src_rev;
    if decide (h1 = h2) then _ ← merge_child_func child_dst_rev; mret acc
    else raise MergeConflictException
  else
    n ← child_of src src_list key;
    new_rev ← merge_child_func n;
    d ← data_of new_rev;
    mret (nl ++ [new_rev], changes ++ [(POST_ADD, d)]).

Definition both_changed (src dst : analysis) (src_list dst_list : list nat)
    (acc : new_list * list announcement) (key : value) : M world (new_list * list announcement) :=
  let '(nl, changes) := acc in
  if decide (key ∈ removed_keys dst) then raise MergeConflictException
  else if decide (key ∈ changed_keys dst) then
    child_dst_rev ← child_of dst dst_list key;
    child_src_rev ← child_of src src_list key;
    h1 ← hash_of child_dst_rev;
    h2 ← hash_of child_src_rev;
    if decide (h1 = h2) then _ ← merge_child_func child_src_rev; mret acc
    else
      g1 ← config_hash_of child_dst_rev;
      g2 ← config_hash_of child_src_rev;
      if decide (g1 ≠ g2) then raise MergeConflictException
      else
        new_rev ← merge_child_func child_src_rev;
        idx ← dict_index key (keymap2 dst);
        nl ← lift (list_set idx new_rev nl);
        mret (nl, changes)
  else
    n ← child_of src src_list key;
    new_rev ← merge_child_func n;
    idx ← dict_index key (keymap2 dst);
    nl ← lift (list_set idx new_rev nl);
    mret (nl, changes).

Definition both_removed (dst : analysis)
    (acc : new_list * list announcement) (key : value) : M world (new_list * list announcement) :=
  let '(nl, changes) := acc in
  if decide (key ∈ changed_keys dst) then raise MergeConflictException
  else if decide (key ∈ removed_keys dst) then mret acc
  else
    dst_idx ← dict_index key (keymap2 dst);
    p ← lift (list_pop dst_idx nl);
    d ← data_of p.1;
    mret (p.2, changes ++ [(POST_REMOVE, d)]).

(** A keyed field that changed on both branches. *)
Definition merge_keyed_both (key : string) (fork_list src_list dst_list : list nat)
    (changes : list announcement) : M world (new_list * list announcement) :=
  src ← gets (λ w, AnalyzeChanges (entries w key fork_list) (entries w key src_list));
  dst ← gets (λ w, AnalyzeChanges (entries w key fork_list) (entries w key dst_list));
  acc ← foldM (both_added src dst src_list dst_list) (Some <$> dst_list, changes) (added_keys src);
  acc ← foldM (both_changed src dst src_list dst_list) acc (changed_keys src);
  foldM (both_removed dst) acc (reverse (removed_keys src)).

Definition merge_each (l : list nat) : M world new_list :=
  foldM (λ acc n, o ← merge_child_func n; mret (acc ++ [o])) [] l.

Definition merge_field (fork src dst : revision) (acc : gmap string new_list * list announcement)
    (f : string * child_type) : M world (gmap string new_list * list announcement) :=
  let '(new_children, changes) := acc in
  let '(field_name, field) := f in
  fork_list ← from_some KeyError (r_children fork !! field_name);
  src_list ← from_some KeyError (r_children src !! field_name);
  dst_list ← from_some KeyError (r_children dst !! field_name);
  if decide (dst_list = src_list) then _ ← merge_each src_list; mret acc
  else if decide (ct_key field = "") then
    if decide (dst_list = fork_list) then
      l ← merge_each src_list;
      mret (<[field_name := l]> new_children,
            if ct_is_container field then changes ++ [(POST_LISTCHANGE, COp field_name)] else changes)
    else if decide (src_list ≠ fork_list) then raise MergeConflictException
    else mret acc
  else
    p ← (if decide (dst_list = fork_list) then merge_keyed_ff (ct_key field) fork_list src_list changes
         else merge_keyed_both (ct_key field) fork_list src_list dst_list changes);
    mret (<[field_name := p.1]> new_children, p.2).

(** The children of the new revision; [None] among them has no [_hash]. *)
Definition merged_children (m : gmap string new_list) : M world (gmap string (list nat)) :=
  if decide (map_Forall (λ _ l, Forall is_Some l) m) then mret ((λ l : new_list, omap id l) <$> m)
  else raise AttributeError.

Definition merge_3way (fork_rev src_rev dst_rev : nat) (dry_run : bool)
    : M world (option nat * list announcement) :=
  fork ← deref_rev fork_rev;
  src ← deref_rev src_rev;
  dst ← deref_rev dst_rev;
  config_changed ←
    (if decide (c_id (r_config dst) = c_id (r_config fork))
     then mret (M:=M world) (bool_decide (c_id (r_config dst) ≠ c_id (r_config src)))
     else if decide (c_hash (r_config dst) ≠ c_hash (r_config src)) then raise MergeConflictException
     else mret true);
  cfields ← lift (children_fields (l_cls (c_data (r_config fork))));
  p ← foldM (merge_field fork src dst) ((λ l : list nat, Some <$> l) <$> r_children dst, []) (iteritems cfields);
  if dry_run then mret (None : option nat, [] : list announcement)
  else
    children ← merged_children p.1;
    rev ← update_all_children (if config_changed : bool then src_rev else dst_rev) children (r_branch dst);
    if (config_changed : bool) then
      d ← data_of (Some rev);
      mret (Some rev, p.2 ++ [(POST_UPDATE, d)])
    else mret (Some rev, p.2).

End fields.
End merge.
