(* ===== verification/Merge3wayProofs.v ===== *)
(** * The keyed merge is a three-way merge of maps

    A keyed list of children stands for a map from keys to revisions.  The
    merge of such a field is shown to be, key by key, the textbook three-way
    merge, and to raise a conflict exactly when some key has one. *)
From S2P Require Import Prelude ConfigRev Merge3way.
From stdpp Require Import base gmap list strings sorting.
From Stdlib Require Import ZArith Lia Sorted.

(** ** Key maps *)

Lemma imap_pair_app {A} (l1 l2 : list A) :
  imap pair (l1 ++ l2) = imap pair l1 ++ imap (λ i x, (length l1 + i, x)) l2.
Proof. by rewrite imap_app. Qed.

Lemma keymap_snoc ks k : keymap (ks ++ [k]) = od_set k (length ks) (keymap ks).
Proof. unfold keymap. rewrite imap_pair_app, foldl_app. simpl. by rewrite Nat.add_0_r. Qed.

Lemma keymap_spec ks : NoDup ks →
  (keymap ks).*1 = ks ∧ ∀ k i, od_get k (keymap ks) = Some i ↔ ks !! i = Some k.
Proof.
  induction ks as [|k ks IH] using rev_ind; intros Hnd.
  - split; [done|]. intros k i. split; [done|]. by rewrite lookup_nil.
  - apply NoDup_app in Hnd as (Hnd & Hdis & _). destruct (IH Hnd) as [E1 E2]. rewrite keymap_snoc. split.
    + rewrite od_set_new, fmap_app, E1; [done|]. rewrite E1. intros Hk. apply (Hdis k Hk). set_solver.
    + intros k' i. rewrite od_get_set. case_decide as Hd.
      * subst k'. split; [intros [= <-]; by apply list_lookup_middle|]. intros Hi.
        destruct (decide (i < length ks)).
        -- rewrite lookup_app_l in Hi by done. apply list_elem_of_lookup_2 in Hi. exfalso. apply (Hdis k Hi). set_solver.
        -- rewrite lookup_app_r in Hi by lia. apply list_lookup_singleton_Some in Hi as [Hi _]. f_equal. lia.
      * rewrite E2. destruct (decide (i < length ks)).
        -- by rewrite lookup_app_l.
        -- rewrite (lookup_app_r ks), (lookup_ge_None_2 ks i) by lia. split; [done|].
           intros [_ ?]%list_lookup_singleton_Some. congruence.
Qed.

Section merge.
Context {HSc : Schema} {HHa : Hashing} {HOr : DictOrder}.

(** A keyed list as a dictionary, in its order. *)
Definition assoc (w : world) (key : string) (l : list nat) : odict value nat :=
  (λ n, ((entry w key n).1, n)) <$> l.

Definition at_key (w : world) (key : string) (l : list nat) (k : value) : option nat :=
  od_get k (assoc w key l).

(** The revision's own hash and the hash of its data. *)
Definition rhash (w : world) (n : nat) : option string := revs w !! n ≫= r_hash.
Definition chash (w : world) (n : nat) : option string := (λ r, c_hash (r_config r)) <$> revs w !! n.

(** The three-way merge of one key: what the fork, the source and the
    destination have there, and what [f] makes of the source's. *)
Definition merge3 (w : world) (f : nat → nat) (o s d : option nat) : result (option nat) :=
  match o, s, d with
  | None, None, d => Ok d
  | None, Some s, None => Ok (Some (f s))
  | None, Some s, Some d => if decide (rhash w d = rhash w s) then Ok (Some d) else Err MergeConflictException
  | Some o, None, None => Ok None
  | Some o, None, Some d => if decide (rhash w o = rhash w d) then Ok None else Err MergeConflictException
  | Some o, Some s, None => if decide (rhash w o = rhash w s) then Ok None else Err MergeConflictException
  | Some o, Some s, Some d =>
      if decide (rhash w o = rhash w s) then Ok (Some d)
      else if decide (rhash w o = rhash w d) then Ok (Some (f s))
      else if decide (rhash w d = rhash w s) then Ok (Some d)
      else if decide (chash w d = chash w s) then Ok (Some (f s))
      else Err MergeConflictException
  end.

Lemma assoc_keys w key l : (assoc w key l).*1 = (entries w key l).*1.
Proof. unfold assoc, entries. rewrite <- !list_fmap_compose. done. Qed.

Lemma assoc_vals w key l : (assoc w key l).*2 = l.
Proof. unfold assoc. rewrite <- list_fmap_compose. apply list_fmap_id. Qed.

Lemma entry_hash w key n : (entry w key n).2 = rhash w n.
Proof. unfold entry, rhash. by destruct (revs w !! n). Qed.

(** A list whose keys are distinct. *)
Definition keyed (w : world) (key : string) (l : list nat) : Prop := NoDup (assoc w key l).*1.

Lemma at_key_Some w key l k n : keyed w key l →
  at_key w key l k = Some n ↔ ∃ i, od_get k (keymap (entries w key l).*1) = Some i ∧ l !! i = Some n.
Proof.
  intros Hk. unfold keyed in Hk. rewrite assoc_keys in Hk. destruct (keymap_spec _ Hk) as [_ Hs].
  unfold at_key. split.
  - intros Hg%od_get_Some_in. apply list_elem_of_lookup in Hg as [i Hi]. exists i. rewrite Hs.
    unfold assoc, entries in *. rewrite list_lookup_fmap in Hi. rewrite !list_lookup_fmap.
    destruct (l !! i); simplify_eq/=. done.
  - intros (i & Hi & Hn). apply Hs in Hi. apply od_get_in; [unfold keyed; by rewrite assoc_keys|].
    apply list_elem_of_lookup. exists i. unfold assoc, entries in *. rewrite !list_lookup_fmap, Hn in Hi.
    rewrite list_lookup_fmap, Hn. simplify_eq/=. done.
Qed.

Lemma at_key_None w key l k : keyed w key l →
  at_key w key l k = None ↔ od_mem k (keymap (entries w key l).*1) = false.
Proof.
  intros Hk. unfold keyed in Hk. rewrite assoc_keys in Hk. destruct (keymap_spec _ Hk) as [E _].
  rewrite od_mem_false, E. unfold at_key. rewrite od_get_None, assoc_keys. done.
Qed.

(** ** What [AnalyzeChanges] finds *)
Section analysis.
Context (w : world) (key : string) (l1 l2 : list nat).
Context (K1 : keyed w key l1) (K2 : keyed w key l2).
Let a := AnalyzeChanges (entries w key l1) (entries w key l2).

Lemma keymap_keys l : keyed w key l → (keymap (entries w key l).*1).*1 = (entries w key l).*1.
Proof. intros Hk. unfold keyed in Hk. rewrite assoc_keys in Hk. apply (keymap_spec _ Hk). Qed.

Lemma key_at l k : keyed w key l → k ∈ (entries w key l).*1 ↔ is_Some (at_key w key l k).
Proof.
  intros Hk. unfold at_key. rewrite <- assoc_keys. rewrite <- not_eq_None_Some, od_get_None.
  destruct (decide (k ∈ (assoc w key l).*1)); naive_solver.
Qed.

Lemma elem_added k : k ∈ added_keys a ↔ at_key w key l1 k = None ∧ is_Some (at_key w key l2 k).
Proof.
  simpl. rewrite list_elem_of_filter, keymap_keys, key_at, at_key_None by done. done.
Qed.

Lemma elem_removed k : k ∈ removed_keys a ↔ at_key w key l2 k = None ∧ is_Some (at_key w key l1 k).
Proof.
  simpl. rewrite list_elem_of_filter, keymap_keys, key_at, at_key_None by done. done.
Qed.

Lemma elem_changed k : k ∈ changed_keys a ↔
  ∃ n1 n2, at_key w key l1 k = Some n1 ∧ at_key w key l2 k = Some n2 ∧ rhash w n1 ≠ rhash w n2.
Proof.
  simpl. rewrite list_elem_of_filter, keymap_keys, key_at by done.
  assert (∀ l i n, l !! i = Some n → snd <$> entries w key l !! i = Some (rhash w n)) as Hh.
  { intros l i n Hn. unfold entries. rewrite list_lookup_fmap, Hn. simpl. by rewrite entry_hash. }
  split.
  - intros [Hb [n1 Hn1]]. apply (at_key_Some _ _ _ _ _ K1) in Hn1 as Hi. destruct Hi as (i & Hi & Hl1).
    rewrite Hi in Hb. destruct (od_get k (keymap (entries w key l2).*1)) as [j|] eqn:Hj; [|done].
    apply bool_decide_eq_true in Hb. rewrite (Hh _ _ _ Hl1) in Hb.
    assert (j < length l2) as [n2 Hl2]%lookup_lt_is_Some_2.
    { destruct (keymap_spec (entries w key l2).*1) as [_ Hs]; [by rewrite <- assoc_keys|].
      apply Hs, lookup_lt_Some in Hj. unfold entries in Hj. by rewrite !length_fmap in Hj. }
    exists n1, n2. split_and!; [done|apply at_key_Some; eauto|]. rewrite (Hh _ _ _ Hl2) in Hb. congruence.
  - intros (n1 & n2 & Hn1 & Hn2 & Hne). split; [|by eauto].
    apply (at_key_Some _ _ _ _ _ K1) in Hn1 as (i & -> & Hl1).
    apply (at_key_Some _ _ _ _ _ K2) in Hn2 as (j & -> & Hl2).
    apply bool_decide_eq_true. rewrite (Hh _ _ _ Hl1), (Hh _ _ _ Hl2). congruence.
Qed.

Lemma NoDup_added : NoDup (added_keys a).
Proof. simpl. apply NoDup_filter. rewrite keymap_keys, <- assoc_keys by done. done. Qed.
Lemma NoDup_removed : NoDup (removed_keys a).
Proof. simpl. apply NoDup_filter. rewrite keymap_keys, <- assoc_keys by done. done. Qed.
Lemma NoDup_changed : NoDup (changed_keys a).
Proof. simpl. apply NoDup_filter. rewrite keymap_keys, <- assoc_keys by done. done. Qed.

(** [lst2[keymap2[k]]] *)
Lemma child_of_run k n w' : at_key w key l2 k = Some n → child_of a l2 k w' = (Ok n, w').
Proof.
  intros (i & Hi & Hl)%at_key_Some; [|done]. unfold child_of, dict_index. simpl.
  rewrite Hi. cbn [from_some]. erewrite bind_ok by done. by rewrite Hl.
Qed.

Lemma index_run k n : at_key w key l2 k = Some n →
  ∃ i, od_get k (keymap2 a) = Some i ∧ (assoc w key l2).*1 !! i = Some k.
Proof.
  intros (i & Hi & Hl)%at_key_Some; [|done]. exists i. split; [done|].
  rewrite assoc_keys. apply keymap_spec; [by rewrite <- assoc_keys|done].
Qed.

End analysis.

(** ** The three loops *)
Section loops.
Context (w0 : world) (key : string) (fork src dst : list nat).
Context (Kf : keyed w0 key fork) (Ks : keyed w0 key src) (Kd : keyed w0 key dst).
Context (Hex : ∀ n, n ∈ fork ++ src ++ dst → is_Some (revs w0 !! n)).

(** Merging a child [n] gives [f n], with the same key, and leaves the
    revisions there were. *)
Context (mcf : nat → M world (option nat)) (f : nat → nat).
Definition merges_children : Prop :=
  ∀ n w, n ∈ src ++ dst → revs w0 ⊆ revs w →
    ∃ w' rv, mcf n w = (Ok (Some (f n)), w') ∧ revs w ⊆ revs w' ∧ revs w' !! f n = Some rv ∧
      getattr (c_data (r_config rv)) key = (entry w0 key n).1.
Context (Hf : merges_children).

Let asrc := AnalyzeChanges (entries w0 key fork) (entries w0 key src).
Let adst := AnalyzeChanges (entries w0 key fork) (entries w0 key dst).
Let dk := (assoc w0 key dst).*1.
Let m3 k := merge3 w0 f (at_key w0 key fork k) (at_key w0 key src k) (at_key w0 key dst k).

(** The list under construction, with the keys its revisions have. *)
Definition good (w : world) (L : odict value nat) : Prop :=
  revs w0 ⊆ revs w ∧ NoDup L.*1 ∧ Forall (λ p, is_Some (revs w !! p.2) ∧ (entry w key p.2).1 = p.1) L.

Definition as_list (L : odict value nat) : new_list := Some <$> L.*2.

Lemma good_mono w w' L : good w L → revs w ⊆ revs w' → good w' L.
Proof.
  intros (H1 & H2 & H3) Hsub. split_and!; [by etrans|done|]. eapply Forall_impl; [exact H3|]. simpl.
  intros [k n] [[rv Hr] He]. simpl in *. pose proof (lookup_weaken _ _ _ _ Hr Hsub) as Hr'.
  split; [by eexists|]. unfold entry in *. by rewrite Hr' , Hr in *.
Qed.

Lemma at_key_elem l k n : at_key w0 key l k = Some n → n ∈ l ∧ (entry w0 key n).1 = k.
Proof.
  unfold at_key. intros Hg%od_get_Some_in. unfold assoc in Hg.
  apply list_elem_of_fmap in Hg as (n' & [= -> ->] & Hn). done.
Qed.

Definition loop_step (step : new_list * list announcement → value → M world (new_list * list announcement))
    (Inv : list value → odict value nat → Prop) : Prop :=
  ∀ k ks w L chs, good w L → Inv (k :: ks) L →
    (m3 k = Err MergeConflictException ∧ (step (as_list L, chs) k w).1 = Err MergeConflictException) ∨
    (∃ L' chs' w', step (as_list L, chs) k w = (Ok (as_list L', chs'), w') ∧ good w' L' ∧
       Ok (od_get k L') = m3 k ∧ (∀ k', k' ≠ k → od_get k' L' = od_get k' L) ∧ Inv ks L').

Lemma loop_run step Inv : loop_step step Inv → ∀ ks w L chs, NoDup ks → good w L → Inv ks L →
  (∃ k, k ∈ ks ∧ m3 k = Err MergeConflictException) ∧ (foldM step (as_list L, chs) ks w).1 = Err MergeConflictException ∨
  (∃ L' chs' w', foldM step (as_list L, chs) ks w = (Ok (as_list L', chs'), w') ∧ good w' L' ∧
     (∀ k, k ∈ ks → Ok (od_get k L') = m3 k) ∧ (∀ k, k ∉ ks → od_get k L' = od_get k L) ∧ Inv [] L').
Proof.
  intros Hstep. induction ks as [|k ks IH]; intros w L chs Hnd HL HI.
  - right. exists L, chs, w. split_and!; try done. by intros k ?%elem_of_nil.
  - apply NoDup_cons in Hnd as [Hk Hnd].
    destruct (Hstep k ks w L chs HL HI) as [[H1 H2]|(L1 & chs1 & w1 & H1 & H2 & H3 & H4 & H5)].
    + left. split; [exists k; set_solver|]. cbn [foldM]. destruct (step _ k w) as [r w1] eqn:E. simpl in H2. subst.
      by erewrite bind_err.
    + cbn [foldM]. rewrite (bind_ok _ _ _ _ _ H1).
      destruct (IH w1 L1 chs1 Hnd H2 H5) as [[(k' & Hk' & Hm) Hr]|(L2 & chs2 & w2 & G1 & G2 & G3 & G4 & G5)].
      * left. split; [exists k'; set_solver|done].
      * right. exists L2, chs2, w2. split_and!; try done.
        -- intros k' [->|Hk']%elem_of_cons; [by rewrite G4|by apply G3].
        -- intros k' Hk'. rewrite G4, H4 by set_solver. done.
Qed.

Lemma hash_of_run n w : n ∈ fork ++ src ++ dst → revs w0 ⊆ revs w → hash_of n w = (Ok (rhash w0 n), w).
Proof.
  intros [rv Hr]%Hex Hsub. unfold hash_of, deref_rev, rhash, mbind, M_bind, gets.
  rewrite (lookup_weaken _ _ _ _ Hr Hsub), Hr. done.
Qed.

Lemma config_hash_run n w : n ∈ fork ++ src ++ dst → revs w0 ⊆ revs w →
  ∃ g, config_hash_of n w = (Ok g, w) ∧ chash w0 n = Some g.
Proof.
  intros [rv Hr]%Hex Hsub. unfold config_hash_of, deref_rev, chash, mbind, M_bind, gets.
  rewrite (lookup_weaken _ _ _ _ Hr Hsub), Hr. simpl. eauto.
Qed.

Lemma data_of_run n w : is_Some (revs w !! n) → ∃ d, data_of (Some n) w = (Ok d, w).
Proof. intros [rv Hr]. unfold data_of, deref_rev, mbind, M_bind, gets. simpl. rewrite Hr. simpl. eauto. Qed.

Lemma lookup_split {A} (l : list A) i x : l !! i = Some x → ∃ l1 l2, l = l1 ++ x :: l2 ∧ length l1 = i.
Proof. intros H. exists (take i l), (drop (S i) l). rewrite take_drop_middle by done. split; [done|].
  apply length_take_le. apply lookup_lt_Some in H. lia.
Qed.

(** An entry found by its position is the entry of its key. *)
Lemma odict_split (L : odict value nat) i k : NoDup L.*1 → L.*1 !! i = Some k →
  ∃ n L1 L2, L = L1 ++ (k, n) :: L2 ∧ length L1 = i ∧ k ∉ L1.*1 ∧ k ∉ L2.*1.
Proof.
  intros Hnd Hi. rewrite list_lookup_fmap in Hi. destruct (L !! i) as [[k' n]|] eqn:E; simplify_eq/=.
  apply lookup_split in E as (L1 & L2 & -> & Hlen). exists n, L1, L2. split_and!; [done..| |].
  - rewrite fmap_app in Hnd. csimpl in Hnd. apply NoDup_app in Hnd as (_ & Hd & _). intros Hk. apply (Hd k Hk). set_solver.
  - rewrite fmap_app in Hnd. csimpl in Hnd. apply NoDup_app in Hnd as (_ & _ & Hnd). by apply NoDup_cons in Hnd as [? _].
Qed.

Lemma od_set_middle (L1 L2 : odict value nat) k n x : k ∉ L1.*1 → od_set k x (L1 ++ (k, n) :: L2) = L1 ++ (k, x) :: L2.
Proof.
  induction L1 as [|[k' n'] L1 IH]; csimpl; intros Hk; [by rewrite decide_True|].
  rewrite decide_False by set_solver. rewrite IH by set_solver. done.
Qed.

Lemma od_del_middle (L1 L2 : odict value nat) k n : k ∉ L1.*1 → k ∉ L2.*1 → od_del k (L1 ++ (k, n) :: L2) = L1 ++ L2.
Proof.
  intros H1 H2. unfold od_del. rewrite filter_app, filter_cons_False by (simpl; tauto).
  assert (∀ L : odict value nat, k ∉ L.*1 → filter (λ p, p.1 ≠ k) L = L) as Hid.
  { induction L as [|[k' n'] L IH]; csimpl; intros Hk; [done|].
    rewrite filter_cons_True by (simpl; set_solver). rewrite IH by set_solver. done. }
  by rewrite !Hid.
Qed.

Lemma list_set_run (L : odict value nat) i k x : NoDup L.*1 → L.*1 !! i = Some k →
  list_set i (Some x) (as_list L) = Ok (as_list (od_set k x L)).
Proof.
  intros Hnd Hi. apply odict_split in Hi as (n & L1 & L2 & -> & <- & Hk1 & Hk2); [|done].
  rewrite od_set_middle by done. unfold list_set, as_list. rewrite !fmap_app. csimpl.
  rewrite decide_True by (rewrite length_app, !length_fmap; simpl; lia).
  rewrite insert_app_r_alt by (rewrite !length_fmap; lia). rewrite !length_fmap, Nat.sub_diag. done.
Qed.

Lemma list_pop_run (L : odict value nat) i k : NoDup L.*1 → L.*1 !! i = Some k →
  ∃ n, (k, n) ∈ L ∧ list_pop i (as_list L) = Ok (Some n, as_list (od_del k L)) ∧ (od_del k L).*1 = delete i L.*1.
Proof.
  intros Hnd Hi. apply odict_split in Hi as (n & L1 & L2 & -> & <- & Hk1 & Hk2); [|done].
  exists n. split; [set_solver|]. rewrite od_del_middle by done. unfold list_pop, as_list. rewrite !fmap_app. csimpl.
  split.
  - assert (length L1 = length (Some <$> L1.*2)) as -> by (by rewrite !length_fmap).
    rewrite list_lookup_middle by done. by rewrite delete_middle.
  - assert (length L1 = length L1.*1) as -> by (by rewrite !length_fmap). by rewrite delete_middle.
Qed.

(** A child of the source merged into the list, under its key. *)
Lemma mcf_run n w L : n ∈ src ++ dst → good w L →
  ∃ w', mcf n w = (Ok (Some (f n)), w') ∧ good w' L ∧ is_Some (revs w' !! f n) ∧ (entry w' key (f n)).1 = (entry w0 key n).1.
Proof.
  intros Hn HL. destruct (Hf n w Hn) as (w' & rv & Hm & Hsub & Hr & Hk); [apply HL|].
  exists w'. split_and!; [done|by eapply good_mono|by eexists|]. unfold entry at 1. by rewrite Hr.
Qed.

Lemma good_snoc w L k n : good w L → k ∉ L.*1 → is_Some (revs w !! n) → (entry w key n).1 = k → good w (L ++ [(k, n)]).
Proof.
  intros (H1 & H2 & H3) Hk Hr He. split_and!; [done| |].
  - rewrite fmap_app, NoDup_app. split_and!; [done|set_solver|apply NoDup_singleton].
  - apply Forall_app. split; [done|]. by apply Forall_singleton.
Qed.

Lemma good_set w L k n : good w L → is_Some (revs w !! n) → (entry w key n).1 = k → good w (od_set k n L).
Proof.
  intros (H1 & H2 & H3) Hr He. split_and!; [done|by apply od_set_NoDup|].
  clear H2. induction L as [|[k' n'] L IH]; csimpl; [by apply Forall_singleton|].
  apply Forall_cons in H3 as [H3 H4]. case_decide; apply Forall_cons; auto.
Qed.

Lemma good_del w L k : good w L → good w (od_del k L).
Proof.
  intros (H1 & H2 & H3). split_and!; [done|by apply od_del_NoDup|]. rewrite Forall_forall in *.
  intros p [_ Hp]%list_elem_of_filter. by apply H3.
Qed.

Definition Inv1 (ks : list value) (L : odict value nat) : Prop :=
  NoDup ks ∧ (∀ k, k ∈ ks → k ∈ added_keys asrc ∧ od_get k L = at_key w0 key dst k) ∧ ∃ ex, L.*1 = dk ++ ex.

Lemma added_step : loop_step (both_added mcf asrc adst src dst) Inv1.
Proof.
  intros k ks w L chs HL (Hnd & Hks & ex & Hkeys). apply NoDup_cons in Hnd as [Hk Hnd].
  destruct (Hks k) as [Hadd Hget]; [set_solver|].
  apply elem_added in Hadd as [Hfk [s Hs]]; [|done..]. destruct (at_key_elem _ _ _ Hs) as [Hsin Hskey].
  assert (∀ L', (∀ k', k' ≠ k → od_get k' L' = od_get k' L) → (∃ ex', L'.*1 = dk ++ ex') → Inv1 ks L') as Hinv.
  { intros L' Hother Hex'. split_and!; [done| |done]. intros k' Hk'. destruct (Hks k') as [? Hg]; [set_solver|].
    split; [done|]. rewrite Hother; [done|]. intros ->. done. }
  unfold m3. rewrite Hfk, Hs. unfold both_added.
  destruct (at_key w0 key dst k) as [d|] eqn:Hd.
  - rewrite decide_True by (apply elem_added; [done..|]; split; [done|by eexists]).
    destruct (at_key_elem _ _ _ Hd) as [Hdin Hdkey].
    rewrite (bind_ok _ _ _ _ _ (child_of_run w0 key fork dst Kd _ _ w Hd)).
    rewrite (bind_ok _ _ _ _ _ (child_of_run w0 key fork src Ks _ _ w Hs)).
    erewrite bind_ok by (apply hash_of_run; [set_solver|apply HL]).
    erewrite bind_ok by (apply hash_of_run; [set_solver|apply HL]). cbn [merge3].
    case_decide; [|by left]. right.
    destruct (mcf_run d w L) as (w' & Hm & HL' & _); [set_solver|done|]. rewrite (bind_ok _ _ _ _ _ Hm).
    exists L, chs, w'. split_and!; [done|done|by rewrite Hget|done|]. apply Hinv; eauto.
  - rewrite decide_False by (intros [_ Hx]%elem_added; [rewrite Hd in Hx; by apply is_Some_None in Hx|done..]).
    rewrite (bind_ok _ _ _ _ _ (child_of_run w0 key fork src Ks _ _ w Hs)).
    destruct (mcf_run s w L) as (w' & Hm & HL' & Hr & He); [set_solver|done|]. rewrite (bind_ok _ _ _ _ _ Hm).
    destruct (data_of_run _ _ Hr) as [dt Hdt]. rewrite (bind_ok _ _ _ _ _ Hdt). right.
    assert (k ∉ L.*1) as HkL by (by rewrite <- od_get_None, Hget).
    exists (L ++ [(k, f s)]), (chs ++ [(POST_ADD, dt)]), w'.
    assert (L ++ [(k, f s)] = od_set k (f s) L) as Hset by (by rewrite od_set_new).
    split_and!.
    + unfold as_list. by rewrite !fmap_app.
    + apply good_snoc; [done..|congruence].
    + rewrite Hset, od_get_set, decide_True by done. done.
    + intros k' Hk'. by rewrite Hset, od_get_set, decide_False.
    + apply Hinv; [intros k' Hk'; by rewrite Hset, od_get_set, decide_False|].
      exists (ex ++ [k]). rewrite fmap_app, Hkeys. csimpl. by rewrite <- app_assoc.
Qed.

Definition Inv2 (ks : list value) (L : odict value nat) : Prop :=
  (∀ k, k ∈ ks → k ∈ changed_keys asrc ∧ od_get k L = at_key w0 key dst k) ∧ NoDup ks ∧ ∃ ex, L.*1 = dk ++ ex.

Lemma changed_step : loop_step (both_changed mcf asrc adst src dst) Inv2.
Proof.
  intros k ks w L chs HL (Hks & Hnd & ex & Hkeys). apply NoDup_cons in Hnd as [Hk Hnd].
  destruct (Hks k) as [Hch Hget]; [set_solver|].
  apply elem_changed in Hch as (o & s & Ho & Hs & Hne); [|done..].
  destruct (at_key_elem _ _ _ Hs) as [Hsin Hskey]. destruct (at_key_elem _ _ _ Ho) as [Hoin _].
  assert (∀ L', (∀ k', k' ≠ k → od_get k' L' = od_get k' L) → L'.*1 = L.*1 → Inv2 ks L') as Hinv.
  { intros L' Hother Hk'. split_and!; [|done|exists ex; congruence]. intros k' Hk''. destruct (Hks k') as [? Hg]; [set_solver|].
    split; [done|]. rewrite Hother; [done|]. intros ->. done. }
  unfold m3. rewrite Ho, Hs. unfold both_changed.
  destruct (at_key w0 key dst k) as [d|] eqn:Hd.
  2:{ left. cbn [merge3]. rewrite decide_False by done. split; [done|].
      rewrite decide_True; [done|]. apply elem_removed; [done..|]. split; [done|by eexists]. }
  rewrite decide_False by (intros [Hx _]%elem_removed; [congruence|done..]).
  destruct (at_key_elem _ _ _ Hd) as [Hdin Hdkey].
  destruct (index_run w0 key fork dst Kd _ _ Hd) as (i & Hi & Hdki). fold adst in Hi.
  assert (L.*1 !! i = Some k) as HLi by (rewrite Hkeys; by apply lookup_app_l_Some).
  (* the source's child takes the destination's place *)
  assert (∀ w1, good w1 L → ∃ L' w', (new_rev ← mcf s; idx ← dict_index k (keymap2 adst);
      nl ← lift (list_set idx new_rev (as_list L)); mret (nl, chs)) w1 = (Ok (as_list L', chs), w') ∧ good w' L' ∧
      od_get k L' = Some (f s) ∧ (∀ k', k' ≠ k → od_get k' L' = od_get k' L) ∧ Inv2 ks L') as Hreplace.
  { intros w1 HL1. destruct (mcf_run s w1 L) as (w' & Hm & HL' & Hr & He); [set_solver|done|].
    rewrite (bind_ok _ _ _ _ _ Hm). unfold dict_index. rewrite Hi. cbn [from_some]. erewrite bind_ok by done.
    rewrite (list_set_run L i k) by (done || apply HL). erewrite bind_ok by done.
    exists (od_set k (f s) L), w'. split_and!.
    - done.
    - apply good_set; [done..|congruence].
    - by rewrite od_get_set, decide_True.
    - intros k' Hk'. by rewrite od_get_set, decide_False.
    - apply Hinv; [intros k' Hk'; by rewrite od_get_set, decide_False|].
      apply od_set_keys_old. by apply list_elem_of_lookup_2 in HLi. }
  cbn [merge3]. rewrite (decide_False (P := rhash w0 o = rhash w0 s)) by done.
  destruct (decide (rhash w0 o = rhash w0 d)) as [Hod|Hod].
  - rewrite (decide_False (P := k ∈ changed_keys adst)).
    2:{ intros (o' & d' & Ho' & Hd' & Hne')%elem_changed; [congruence|done..]. }
    rewrite (bind_ok _ _ _ _ _ (child_of_run w0 key fork src Ks _ _ w Hs)).
    right. destruct (Hreplace w HL) as (L' & w' & H1 & H2 & H3 & H4 & H5). exists L', chs, w'.
    split_and!; [done|done|by rewrite H3|done|done].
  - rewrite (decide_True (P := k ∈ changed_keys adst)) by (apply elem_changed; [done..|]; by exists o, d).
    rewrite (bind_ok _ _ _ _ _ (child_of_run w0 key fork dst Kd _ _ w Hd)).
    rewrite (bind_ok _ _ _ _ _ (child_of_run w0 key fork src Ks _ _ w Hs)).
    erewrite bind_ok by (apply hash_of_run; [set_solver|apply HL]).
    erewrite bind_ok by (apply hash_of_run; [set_solver|apply HL]).
    destruct (decide (rhash w0 d = rhash w0 s)).
    + right. destruct (mcf_run s w L) as (w' & Hm & HL' & _); [set_solver|done|]. rewrite (bind_ok _ _ _ _ _ Hm).
      exists L, chs, w'. split_and!; [done|done|by rewrite Hget|done|]. by apply Hinv.
    + destruct (config_hash_run d w) as (g1 & Hg1 & Hc1); [set_solver|apply HL|].
      destruct (config_hash_run s w) as (g2 & Hg2 & Hc2); [set_solver|apply HL|].
      rewrite (bind_ok _ _ _ _ _ Hg1), (bind_ok _ _ _ _ _ Hg2), Hc1, Hc2.
      destruct (decide (g1 = g2)) as [->|Hg].
      * rewrite (decide_False (P := g2 ≠ g2)) by tauto. rewrite (decide_True (P := Some g2 = Some g2)) by done. right.
        destruct (Hreplace w HL) as (L' & w' & H1 & H2 & H3 & H4 & H5). exists L', chs, w'.
        split_and!; [done|done|by rewrite H3|done|done].
      * rewrite (decide_True (P := g1 ≠ g2)) by done. rewrite (decide_False (P := Some g1 = Some g2)) by congruence.
        by left.
Qed.

(** Of two keys, the first comes later in the destination. *)
Definition later (k k' : value) : Prop := ∀ i j, dk !! i = Some k → dk !! j = Some k' → j < i.

Definition Inv3 (ks : list value) (L : odict value nat) : Prop :=
  NoDup ks ∧ (∀ k, k ∈ ks → k ∈ removed_keys asrc ∧ od_get k L = at_key w0 key dst k) ∧
  StronglySorted later ks ∧
  (∀ k i, k ∈ ks → dk !! i = Some k → take (S i) L.*1 = take (S i) dk).

Lemma take_delete {A} (l : list A) i j : j < i → i < length l → take (S j) (delete i l) = take (S j) l.
Proof.
  intros Hij Hi. rewrite delete_take_drop, take_app_le by (rewrite length_take; lia).
  rewrite take_take. f_equal. lia.
Qed.

Lemma removed_step : loop_step (both_removed adst) Inv3.
Proof.
  intros k ks w L chs HL (Hnd & Hks & Hsort & Hpre). apply NoDup_cons in Hnd as [Hk Hnd].
  apply StronglySorted_inv in Hsort as [Hsort Hlater]. rewrite Forall_forall in Hlater.
  destruct (Hks k) as [Hrem Hget]; [set_solver|].
  apply elem_removed in Hrem as [Hs [o Ho]]; [|done..].
  assert (∀ k' i, k' ∈ ks → dk !! i = Some k' → take (S i) L.*1 = take (S i) dk) as Hpre'
    by (intros k' i Hk'; apply Hpre; set_solver).
  assert (∀ k', k' ∈ ks → k' ∈ removed_keys asrc ∧ od_get k' L = at_key w0 key dst k') as Hks'
    by (intros k' Hk'; apply Hks; set_solver).
  unfold m3. rewrite Ho, Hs. unfold both_removed. destruct (at_key w0 key dst k) as [d|] eqn:Hd; cbn [merge3].
  - destruct (decide (rhash w0 o = rhash w0 d)) as [Hod|Hod].
    2:{ left. split; [done|]. rewrite decide_True; [done|]. apply elem_changed; [done..|]. by exists o, d. }
    rewrite decide_False by (intros (o' & d' & Ho' & Hd' & Hne')%elem_changed; [congruence|done..]).
    rewrite decide_False by (intros [Hx _]%elem_removed; [congruence|done..]).
    destruct (index_run w0 key fork dst Kd _ _ Hd) as (i & Hi & Hdki). fold adst in Hi.
    assert (L.*1 !! i = Some k) as HLi.
    { rewrite <- (lookup_take_lt _ (S i)) by lia. rewrite (Hpre k i) by (set_solver || done).
      by rewrite lookup_take_lt by lia. }
    destruct (list_pop_run L i k) as (n & Hn & Hpop & Hkeys); [apply HL|done|].
    unfold dict_index. rewrite Hi. cbn [from_some]. erewrite bind_ok by done. rewrite Hpop. erewrite bind_ok by done.
    destruct (data_of_run n w) as [dt Hdt].
    { destruct HL as (_ & _ & HL). rewrite Forall_forall in HL. by apply (HL (k, n)). }
    cbn [fst snd]. rewrite (bind_ok _ _ _ _ _ Hdt). right.
    exists (od_del k L), (chs ++ [(POST_REMOVE, dt)]), w. split_and!.
    + done.
    + by apply good_del.
    + by rewrite od_get_del, decide_True.
    + intros k' Hk'. by rewrite od_get_del, decide_False.
    + split_and!; [done| |done|].
      * intros k' Hk'. rewrite od_get_del, decide_False by (intros ->; done). by apply Hks'.
      * intros k' j Hk' Hj. rewrite Hkeys. rewrite take_delete.
        -- by apply (Hpre' k').
        -- by eapply Hlater.
        -- by apply lookup_lt_Some in HLi.
  - rewrite decide_False by (intros (o' & d' & Ho' & Hd' & Hne')%elem_changed; [congruence|done..]).
    rewrite decide_True by (apply elem_removed; [done..|]; split; [done|by eexists]).
    right. exists L, chs, w. split_and!; try done. by rewrite Hget.
Qed.

(** ** The whole field *)

(** The keys the source removed come in the destination in the order they had
    at the fork. *)
Definition order_kept : Prop :=
  ∀ i i' j j' k k', (assoc w0 key fork).*1 !! i = Some k → (assoc w0 key fork).*1 !! i' = Some k' →
    dk !! j = Some k → dk !! j' = Some k' →
    at_key w0 key src k = None → at_key w0 key src k' = None → i < i' → j < j'.

Lemma sorted_filter_rev (P : value → Prop) `{∀ x, Decision (P x)} (R : value → value → Prop) l :
  (∀ i i' k k', l !! i = Some k → l !! i' = Some k' → P k → P k' → i < i' → R k' k) →
  StronglySorted R (reverse (filter P l)).
Proof.
  induction l as [|k l IH] using rev_ind; intros HR; [constructor|].
  assert (StronglySorted R (reverse (filter P l))) as Hs.
  { apply IH. intros i i' k1 k2 H1 H2. apply (HR i i'); by apply lookup_app_l_Some. }
  rewrite filter_app, filter_cons, filter_nil. case_decide as HP; [|by rewrite app_nil_r].
  rewrite reverse_app. simpl. constructor; [done|]. rewrite Forall_forall. intros k' Hk'.
  rewrite elem_of_reverse, list_elem_of_filter in Hk'. destruct Hk' as [HP' [i Hi]%list_elem_of_lookup].
  apply (HR i (length l)); [by apply lookup_app_l_Some|by apply list_lookup_middle|done..|].
  by apply lookup_lt_Some in Hi.
Qed.

Lemma removed_sorted : order_kept → StronglySorted later (reverse (removed_keys asrc)).
Proof.
  intros Hord. unfold asrc. simpl. rewrite keymap_keys by done. apply sorted_filter_rev.
  intros i i' k k' Hi Hi' Hk Hk' Hlt j' j Hj' Hj.
  apply at_key_None in Hk, Hk'; [|done..].
  rewrite <- assoc_keys in Hi, Hi'. by eapply (Hord i i' j j' k k').
Qed.

Lemma m3_untouched k : k ∉ added_keys asrc → k ∉ changed_keys asrc → k ∉ removed_keys asrc →
  m3 k = Ok (at_key w0 key dst k).
Proof.
  intros Ha Hc Hr. unfold asrc in *. rewrite elem_added in Ha by done. rewrite elem_changed in Hc by done.
  rewrite elem_removed in Hr by done. unfold m3.
  destruct (at_key w0 key fork k) as [o|] eqn:Ho, (at_key w0 key src k) as [s|] eqn:Hs.
  - destruct (decide (rhash w0 o = rhash w0 s)) as [He|He]; [|naive_solver].
    destruct (at_key w0 key dst k); cbn [merge3]; by rewrite decide_True.
  - exfalso. apply Hr. by eauto.
  - exfalso. apply Ha. by eauto.
  - by destruct (at_key w0 key dst k).
Qed.

Lemma good_start : good w0 (assoc w0 key dst).
Proof.
  split_and!; [done|done|]. unfold assoc. rewrite Forall_fmap, Forall_forall. intros n Hn. simpl.
  split; [|done]. apply Hex. set_solver.
Qed.

Lemma good_assoc w L : good w L → L = assoc w key L.*2.
Proof.
  intros (_ & _ & HL). unfold assoc. rewrite <- list_fmap_compose.
  induction HL as [|[k n] L [_ He] HL IH]; [done|]. csimpl. simpl in He. by rewrite He, <- IH.
Qed.

Lemma keyed_both_spec chs (Hord : order_kept) :
  (∃ k, m3 k = Err MergeConflictException) ∧
    (merge_keyed_both mcf key fork src dst chs w0).1 = Err MergeConflictException ∨
  (∃ l chs' w', merge_keyed_both mcf key fork src dst chs w0 = (Ok (Some <$> l, chs'), w') ∧
     keyed w' key l ∧ ∀ k, m3 k = Ok (at_key w' key l k)).
Proof.
  unfold merge_keyed_both.
  rewrite (bind_ok _ _ w0 asrc w0), (bind_ok _ _ w0 adst w0) by done.
  assert (Some <$> dst = as_list (assoc w0 key dst)) as -> by (unfold as_list; by rewrite assoc_vals).
  set (D := assoc w0 key dst).
  destruct (loop_run _ _ added_step (added_keys asrc) w0 D chs)
    as [[(k & _ & Hc) He]|(L1 & c1 & w1 & E1 & G1 & M1 & N1 & _ & _ & P1)].
  { by apply NoDup_added. }
  { apply good_start. }
  { split_and!; [by apply NoDup_added|done|]. exists []. by rewrite app_nil_r. }
  { left. split; [by exists k|]. destruct (foldM _ _ _ w0) as [r wr] eqn:E. simpl in He. subst. by erewrite bind_err. }
  rewrite (bind_ok _ _ _ _ _ E1).
  destruct (loop_run _ _ changed_step (changed_keys asrc) w1 L1 c1)
    as [[(k & _ & Hc) He]|(L2 & c2 & w2 & E2 & G2 & M2 & N2 & _ & _ & P2)].
  { by apply NoDup_changed. }
  { done. }
  { split_and!; [|by apply NoDup_changed|done]. intros k Hk. split; [done|]. rewrite N1; [done|].
    apply elem_changed in Hk as (o & s & Ho & _); [|done..]. intros [Hx _]%elem_added; [congruence|done..]. }
  { left. split; [by exists k|]. destruct (foldM _ _ _ w1) as [r wr] eqn:E. simpl in He. subst. by erewrite bind_err. }
  rewrite (bind_ok _ _ _ _ _ E2).
  assert (∀ k, k ∈ removed_keys asrc → k ∉ added_keys asrc ∧ k ∉ changed_keys asrc) as Hdis.
  { intros k [Hs [o Ho]]%elem_removed; [|done..]. split.
    - intros [Hx _]%elem_added; [congruence|done..].
    - intros (o' & s & _ & Hs' & _)%elem_changed; [congruence|done..]. }
  destruct (loop_run _ _ removed_step (reverse (removed_keys asrc)) w2 L2 c2)
    as [[(k & _ & Hc) He]|(L3 & c3 & w3 & E3 & G3 & M3 & N3 & _)].
  { rewrite reverse_Permutation. by apply NoDup_removed. }
  { done. }
  { split_and!.
    - rewrite reverse_Permutation. by apply NoDup_removed.
    - intros k Hk. rewrite elem_of_reverse in Hk. destruct (Hdis k Hk). split; [done|]. by rewrite N2, N1.
    - by apply removed_sorted.
    - intros k i _ Hi. destruct P2 as [ex ->]. rewrite take_app_le; [done|]. apply lookup_lt_Some in Hi. lia. }
  { left. split; [by exists k|done]. }
  right. exists L3.*2, c3, w3. split; [done|].
  pose proof (good_assoc w3 L3 G3) as HL3. unfold keyed, at_key. rewrite <- HL3. split; [apply G3|]. intros k.
  destruct (decide (k ∈ removed_keys asrc)) as [Hr|Hr]; [symmetry; apply M3; by apply elem_of_reverse|].
  rewrite N3 by (by rewrite elem_of_reverse).
  destruct (decide (k ∈ changed_keys asrc)) as [Hc|Hc]; [symmetry; by apply M2|]. rewrite N2 by done.
  destruct (decide (k ∈ added_keys asrc)) as [Ha|Ha]; [symmetry; by apply M1|]. rewrite N1 by done.
  by apply m3_untouched.
Qed.

End loops.

(** ** Properties *)

(** C4 Where both branches changed a keyed list of children, the merge is the
    three-way merge of the two maps, on two conditions: the merges of the children
    themselves succeed ([merges_children]), and the keys that the transaction
    removed are, where they still are, in the order they had when it began
    ([order_kept]; without it the merge can raise IndexError, see
    reordered_removal_fails in ConfigProofs.v).  Then at every key the result has
    what [merge3] prescribes, keys stay distinct, and the merge raises a conflict
    exactly when some key has one. *)
Theorem keyed_merge_pointwise w key fork src dst mcf f chs
    (Kf : keyed w key fork) (Ks : keyed w key src) (Kd : keyed w key dst)
    (Hex : Forall (λ n, is_Some (revs w !! n)) (fork ++ src ++ dst))
    (Hf : merges_children w key src dst mcf f)
    (Hord : order_kept w key fork src dst) :
  let m3 k := merge3 w f (at_key w key fork k) (at_key w key src k) (at_key w key dst k) in
  ((∃ k, m3 k = Err MergeConflictException) ∧
    (merge_keyed_both mcf key fork src dst chs w).1 = Err MergeConflictException) ∨
  ((∀ k, m3 k ≠ Err MergeConflictException) ∧
    ∃ l chs' w', merge_keyed_both mcf key fork src dst chs w = (Ok (Some <$> l, chs'), w') ∧
      keyed w' key l ∧ ∀ k, m3 k = Ok (at_key w' key l k)).
Proof.
  rewrite Forall_forall in Hex.
  destruct (keyed_both_spec w key fork src dst Kf Ks Kd Hex mcf f Hf chs Hord) as [?|(l & c & w' & H1 & H2 & H3)]; [by left|].
  right. split; [|by exists l, c, w']. intros k. by rewrite H3.
Qed.

(** A node whose committed data changed while a transaction was open merges
    only if the transaction's data is the same: otherwise the merge is a
    conflict, also where the transaction left that data alone. *)
Theorem moved_data_conflicts mcf fork_rev src_rev dst_rev dry w fork src dst
    (Hfork : revs w !! fork_rev = Some fork) (Hsrc : revs w !! src_rev = Some src)
    (Hdst : revs w !! dst_rev = Some dst) (Hmoved : c_id (r_config dst) ≠ c_id (r_config fork))
    (Hdiff : c_hash (r_config dst) ≠ c_hash (r_config src)) :
  merge_3way mcf fork_rev src_rev dst_rev dry w = (Err MergeConflictException, w).
Proof.
  assert (∀ n rv, revs w !! n = Some rv → deref_rev n w = (Ok rv, w)) as Hd.
  { intros n rv Hn. unfold deref_rev, mbind, M_bind, gets. by rewrite Hn. }
  unfold merge_3way. rewrite (bind_ok _ _ _ _ _ (Hd _ _ Hfork)), (bind_ok _ _ _ _ _ (Hd _ _ Hsrc)),
    (bind_ok _ _ _ _ _ (Hd _ _ Hdst)).
  rewrite (decide_False (P := c_id (r_config dst) = c_id (r_config fork))) by done.
  rewrite (decide_True (P := c_hash (r_config dst) ≠ c_hash (r_config src))) by done. done.
Qed.

End merge.
