(* ===== verification/ConfigNode.v ===== *)
(** * Configuration nodes

    The class [ConfigNode] of src/voltha/core/config/config_node.py, the
    callbacks of config_proxy.py that its operations invoke and the overrides
    of config_root.py that they reach: reading and changing the tree by path,
    transaction branches, tags, proxies, loading from the store. *)
From S2P Require Import Prelude ConfigRev Merge3way.
From Stdlib Require Import Ascii.
From stdpp Require Import base gmap list strings.
From Stdlib Require Import ZArith Lia.

(** ** Paths *)

(** [while path.startswith('/'): path = path[1:]] *)
Fixpoint strip_slashes (path : string) : string :=
  match path with
  | String "/"%char path => strip_slashes path
  | _ => path
  end.

(** [path.partition('/')], without the separator *)
Fixpoint partition_slash (path : string) : string * string :=
  match path with
  | EmptyString => (EmptyString, EmptyString)
  | String "/"%char path => (EmptyString, path)
  | String a path => let '(x, y) := partition_slash path in (String a x, y)
  end.

(** The root is the first object of the heap. *)
Definition root_id : nat := 0.

Section nodes.
Context {HSc : Schema} {HHa : Hashing} {HOr : DictOrder}.
Context (run_callback : nat → context → M world context).

Definition find_rev_by_key (w : world) (rs : list nat) (keyname : string) (v : value) : result (nat * nat) :=
  opt KeyError (list_find (λ n, match revs w !! n with
                                | Some r => bool_decide (getattr (c_data (r_config r)) keyname = v)
                                | None => false
                                end = true) rs).

Definition find_child (rs : list nat) (keyname : string) (v : value) : M world (nat * nat) :=
  r ← gets (λ w, find_rev_by_key w rs keyname v);
  lift r.

(** ** [ConfigProxy.invoke_callbacks] *)
Definition invoke_one (proceed_on_errors : bool) (c : context) (cb : nat) : M world context := λ w,
  match run_callback cb c w with
  | (Ok c', w') => (Ok c', w')
  | (Err OutOfFuel, w') => (Err OutOfFuel, w')
  | (Err e, w') => if proceed_on_errors then (Ok c, w') else (Err e, w')
  end.

Definition invoke_callbacks (p : proxy) (t : callback_type) (c : context) (proceed_on_errors : bool)
    : M world context :=
  foldM (invoke_one proceed_on_errors) c (p_callbacks p t).

(** [if self._proxy is not None: self._proxy.invoke_callbacks(...)] *)
Definition node_callbacks (n : nat) (t : callback_type) (c : context) : M world context :=
  nd ← deref_node n;
  match n_proxy nd with
  | Some p => invoke_callbacks p t c false
  | None => mret c
  end.

(** ** Branches *)

Definition new_branch (nd : nat) (txid : option string) (origin : option nat) : M world nat :=
  b ← fresh_id;
  _ ← modify (set_branches (<[b := Branch nd txid origin ∅ origin]>));
  mret b.

Definition set_branch (n : nat) (txid : option string) (b : nat) : M world unit :=
  modify (set_nodes (alter (λ nd, Node (n_type nd) (<[txid := b]> (n_branches nd)) (n_tags nd) (n_proxy nd)) n)).

Definition del_branch (n : nat) (txid : option string) : M world unit :=
  nd ← deref_node n;
  _ ← from_some KeyError (n_branches nd !! txid);
  modify (set_nodes (alter (λ nd, Node (n_type nd) (delete txid (n_branches nd)) (n_tags nd) (n_proxy nd)) n)).

Definition branch_of (n : nat) (txid : option string) : M world nat :=
  nd ← deref_node n;
  from_some KeyError (n_branches nd !! txid).

(** [branch._latest], used as an object *)
Definition latest_of (b : nat) : M world nat :=
  br ← deref_branch b;
  from_some AttributeError (b_latest br).

(** [node.latest]: of the committed branch *)
Definition latest (n : nat) : M world nat :=
  b ← branch_of n None;
  latest_of b.

Definition mk_txbranch (n : nat) (txid : string) : M world nat :=
  branch_point ← latest n;
  b ← new_branch n (Some txid) (Some branch_point);
  _ ← set_branch n (Some txid) b;
  mret b.

Definition del_txbranch (n : nat) (txid : string) : M world unit := del_branch n (Some txid).

(** [try: branch = self._branches[txid] except KeyError: branch = mk_branch(self)].
    The root passes no [mk_branch] outside a transaction, and [track_dirty] in
    one. *)
Definition get_branch (n : nat) (txid : option string) : M world nat :=
  nd ← deref_node n;
  match n_branches nd !! txid, txid with
  | Some b, _ => mret b
  | None, None => raise TypeError
  | None, Some t =>
      _ ← modify (set_dirty_nodes (alter (λ s, {[n]} ∪ s) t));
      mk_txbranch n t
  end.

(** ** [_make_latest] *)

(** [ConfigRoot._make_latest] persists what is committed at the root. *)
Definition persist_root (b : nat) : M world unit :=
  br ← deref_branch b;
  nd ← deref_node root_id;
  l ← from_some AttributeError (b_latest br);
  r ← deref_rev l;
  if decide (b_txid br = None) then
    tags ← gets (λ w, (λ t, revs w !! t ≫= r_hash) <$> n_tags nd);
    kv_put "root" (BRoot (r_hash r) tags)
  else mret tt.

Definition announce (n : nat) (h : option string) (anns : list announcement) : M world unit :=
  nd ← deref_node n;
  modify (λ w, set_queues
    (cb_queue w ++ match n_proxy nd with
                   | Some _ => (λ a, Deferred n a.1 a.2) <$> anns
                   | None => []
                   end)
    (note_queue w ++ ((λ a, Notification a.1 a.2 h) <$> anns)) w).

Definition make_latest (n b r : nat) (anns : list announcement) : M world unit :=
  rv ← deref_rev r;
  br ← deref_branch b;
  old ← (match b_latest br with
         | None => mret None
         | Some l => lr ← deref_rev l; mret (Some (r_hash lr))
         end);
  let revs' := match b_revs br !! r_hash rv with Some _ => b_revs br | None => <[r_hash rv := r]> (b_revs br) end in
  let latest' := if decide (old = Some (r_hash rv)) then b_latest br else Some r in
  _ ← modify (set_branches (<[b := Branch (b_node br) (b_txid br) (b_origin br) revs' latest']>));
  _ ← (if decide (b_txid br = None) then announce n (r_hash rv) anns else mret tt);
  if decide (n = root_id) then persist_root b else mret tt.

(** ** Construction *)

(** The default message of a class: what an unset single field holds. *)
Definition empty_msg (cls : string) : msg := Msg (Local cls ∅) [].

(** [ConfigNode(root, initial_data)] and [_initialize], every caller passing no
    [txid].  [fuel] bounds the depth of the message, as the interpreter's
    recursion limit does. *)
Fixpoint mknode (fuel : nat) (data : msg) : M world nat :=
  match fuel with
  | 0 => raise OutOfFuel
  | S fuel =>
      let cls := l_cls (m_local data) in
      n ← fresh_id;
      _ ← modify (set_nodes (<[n := Node cls ∅ ∅ None]>));
      cfields ← lift (children_fields cls);
      children ← foldM (λ children '(field_name, field),
          if ct_is_container field then
            if decide (ct_key field = "") then
              l ← foldM (λ l v, c ← mknode fuel v; r ← latest c; mret (l ++ [r])) [] (field_msgs field_name data);
              mret (<[field_name := l]> children)
            else
              p ← foldM (λ acc v,
                    c ← mknode fuel v;
                    r ← latest c;
                    let key := getattr (m_local v) (ct_key field) in
                    if decide (key ∈ acc.2) then raise ValueError
                    else mret (acc.1 ++ [r], key :: acc.2)) ([], []) (field_msgs field_name data);
              mret (<[field_name := p.1]> children)
          else
            c ← mknode fuel (default (empty_msg (ct_type field)) (head (field_msgs field_name data)));
            r ← latest c;
            mret (<[field_name := [r]]> children)) ∅ (iteritems cfields);
      b ← new_branch n None None;
      r ← mkrev b (m_local data) children;
      _ ← make_latest n b r [];
      _ ← set_branch n None b;
      mret n
  end.

(** The interpreter's default recursion limit. *)
Definition recursion_limit : nat := 1000.

(** ** [get] *)

(** One message or a list of them; a callback may have replaced a message. *)
Inductive got :=
  | One (c : context)
  | Many (l : list context).

(** [rev.node] *)
Definition node_of_rev (r : nat) : M world nat :=
  rv ← deref_rev r;
  br ← deref_branch (r_branch rv);
  mret (b_node br).

Definition do_get (n r : nat) (depth : Z) : M world context :=
  m ← get_rev r depth;
  node_callbacks n GET (CMsg m).

Definition do_get_all (rs : list nat) (depth : Z) : M world (list context) :=
  foldM (λ acc c, n ← node_of_rev c; v ← do_get n c depth; mret (acc ++ [v])) [] rs.

(** [field.key_from_str(key)], where the field is keyed *)
Definition key_from_str (field : child_type) (s : string) : M world value :=
  f ← from_some TypeError (ct_key_from_str field);
  lift (f s).

Definition field_of (n : nat) (name : string) : M world child_type :=
  nd ← deref_node n;
  cfields ← lift (children_fields (n_type nd));
  from_some KeyError (cfields !! name).

(** [rev._children[name]] *)
Definition children_of (r : nat) (name : string) : M world (list nat) :=
  rv ← deref_rev r;
  from_some KeyError (r_children rv !! name).

(** [_get].  Each step consumes a part of the path, so its length bounds the
    recursion; the recursion goes on without stripping slashes. *)
Fixpoint get_ (fuel : nat) (n r : nat) (path : string) (depth : Z) : M world got :=
  match fuel with
  | 0 => raise OutOfFuel
  | S fuel =>
      if decide (path = "") then c ← do_get n r depth; mret (One c)
      else
        let '(name, path) := partition_slash path in
        field ← field_of n name;
        if ct_is_container field then
          if decide (ct_key field = "") then
            if decide (path = "") then
              cs ← children_of r name; l ← do_get_all cs depth; mret (Many l)
            else raise LookupError
          else
            children ← children_of r name;
            if decide (path = "") then l ← do_get_all children depth; mret (Many l)
            else
              let '(key, path) := partition_slash path in
              key ← key_from_str field key;
              p ← find_child children (ct_key field) key;
              child_node ← node_of_rev p.2;
              get_ fuel child_node p.2 path depth
        else
          cs ← children_of r name;
          child_rev ← from_some IndexError (head cs);
          child_node ← node_of_rev child_rev;
          get_ fuel child_node child_rev path depth
  end.

Definition get (n : nat) (path : string) (hash : option string) (depth : Z) (deep : bool)
    (txid : option string) : M world got :=
  let depth := if deep then (-1)%Z else depth in
  let path := strip_slashes path in
  nd ← deref_node n;
  b ← (match n_branches nd !! txid with Some b => mret b | None => branch_of n None end);
  br ← deref_branch b;
  r ← (match hash with
       | Some h => from_some KeyError (b_revs br !! Some h)
       | None => from_some AttributeError (b_latest br)
       end);
  get_ (S (String.length path)) n r path depth.

(** ** [update] *)

(** [_test_no_children] *)
Definition test_no_children (cfields : gmap string child_type) (data : msg) : result () :=
  if decide (map_Forall (λ name _, field_msgs name data = []) cfields) then Ok tt
  else Err NotImplementedError.

Definition do_update (n b : nat) (data : msg) (strict : bool) : M world nat :=
  nd ← deref_node n;
  if decide (l_cls (m_local data) ≠ n_type nd) then raise ValueError
  else
    cfields ← lift (children_fields (n_type nd));
    _ ← lift (test_no_children cfields data);
    _ ← node_callbacks n PRE_UPDATE (CMsg data);
    l ← latest_of b;
    lr ← deref_rev l;
    if decide (c_data (r_config lr) = m_local data) then mret l
    else
      _ ← (if strict then lift (check_access_violation (m_local data) (c_data (r_config lr))) else mret tt);
      r ← update_data l (m_local data) b;
      rv ← deref_rev r;
      _ ← make_latest n b r [(POST_UPDATE, CMsg (of_local (c_data (r_config rv))))];
      mret r.

(** [children[idx] = new_rev], [idx] being an index of the list *)
Definition replace_child (b r : nat) (n : nat) (name : string) (children : list nat) (anns : list announcement)
    : M world nat :=
  r' ← update_children r name children b;
  _ ← make_latest n b r' anns;
  mret r'.

Fixpoint update (fuel : nat) (n : nat) (path : string) (data : msg) (strict : bool)
    (txid : option string) : M world nat :=
  match fuel with
  | 0 => raise OutOfFuel
  | S fuel =>
      let path := strip_slashes path in
      b ← get_branch n txid;
      if decide (path = "") then do_update n b data strict
      else
        r ← latest_of b;
        let '(name, path) := partition_slash path in
        field ← field_of n name;
        if ct_is_container field then
          if decide (path = "") then raise ValueError
          else if decide (ct_key field = "") then raise ValueError
          else
            let '(key, path) := partition_slash path in
            key ← key_from_str field key;
            children ← children_of r name;
            p ← find_child children (ct_key field) key;
            child_node ← node_of_rev p.2;
            new_child ← update fuel child_node path data strict txid;
            nc ← deref_rev new_child;
            oc ← deref_rev p.2;
            if decide (r_hash nc = r_hash oc) then
              _ ← (if decide (new_child ≠ p.2) then clear_hash new_child else mret tt);
              latest_of b
            else if decide (getattr (c_data (r_config nc)) (ct_key field) ≠ key) then raise ValueError
            else replace_child b r n name (<[p.1 := new_child]> children) []
        else
          cs ← children_of r name;
          child_rev ← from_some IndexError (head cs);
          child_node ← node_of_rev child_rev;
          new_child ← update fuel child_node path data strict txid;
          replace_child b r n name [new_child] []
  end.

(** ** [add] *)

Fixpoint add (fuel : nat) (n : nat) (path : string) (data : msg) (txid : option string) : M world nat :=
  match fuel with
  | 0 => raise OutOfFuel
  | S fuel =>
      let path := strip_slashes path in
      if decide (path = "") then raise ValueError
      else
        b ← get_branch n txid;
        r ← latest_of b;
        let '(name, path) := partition_slash path in
        field ← field_of n name;
        if ct_is_container field then
          if decide (ct_key field = "") then raise ValueError
          else if decide (path = "") then
            _ ← node_callbacks n PRE_ADD (CMsg data);
            children ← children_of r name;
            let key := getattr (m_local data) (ct_key field) in
            found ← gets (λ w, find_rev_by_key w children (ct_key field) key);
            match found with
            | Ok _ => raise ValueError
            | Err _ =>
                c ← mknode recursion_limit data;
                child_rev ← latest c;
                replace_child b r n name (children ++ [child_rev]) [(POST_ADD, CMsg data)]
            end
          else
            let '(key, path) := partition_slash path in
            key ← key_from_str field key;
            children ← children_of r name;
            p ← find_child children (ct_key field) key;
            child_node ← node_of_rev p.2;
            new_child ← add fuel child_node path data txid;
            replace_child b r n name (<[p.1 := new_child]> children) []
        else raise ValueError
  end.

(** ** [remove] *)

Fixpoint remove (fuel : nat) (n : nat) (path : string) (txid : option string) : M world nat :=
  match fuel with
  | 0 => raise OutOfFuel
  | S fuel =>
      let path := strip_slashes path in
      if decide (path = "") then raise ValueError
      else
        b ← get_branch n txid;
        r ← latest_of b;
        let '(name, path) := partition_slash path in
        field ← field_of n name;
        if ct_is_container field then
          if decide (path = "") then raise ValueError
          else if decide (ct_key field = "") then raise ValueError
          else
            let '(key, path) := partition_slash path in
            key ← key_from_str field key;
            if decide (path = "") then
              children ← children_of r name;
              p ← find_child children (ct_key field) key;
              cr ← deref_rev p.2;
              let data := CMsg (of_local (c_data (r_config cr))) in
              _ ← node_callbacks n PRE_REMOVE data;
              replace_child b r n name (delete p.1 children) [(POST_REMOVE, data)]
            else
              children ← children_of r name;
              p ← find_child children (ct_key field) key;
              child_node ← node_of_rev p.2;
              new_child ← remove fuel child_node path txid;
              replace_child b r n name (<[p.1 := new_child]> children) []
        else raise ValueError
  end.

(** ** Merging a transaction branch *)

(** [_merge_txbranch]: a branch lies on a node of its own, so the number of
    objects bounds the recursion. *)
Fixpoint merge_txbranch (fuel : nat) (n : nat) (txid : string) (dry_run : bool) : M world (option nat) :=
  match fuel with
  | 0 => raise OutOfFuel
  | S fuel =>
      let merge_child := λ child_rev,
        cr ← deref_rev child_rev;
        cb ← deref_branch (r_branch cr);
        if decide (b_txid cb = Some txid) then merge_txbranch fuel (b_node cb) txid dry_run
        else mret (Some child_rev) in
      src_branch ← branch_of n (Some txid);
      dst_branch ← branch_of n None;
      sb ← deref_branch src_branch;
      fork_rev ← from_some AttributeError (b_origin sb);
      src_rev ← latest_of src_branch;
      dst_rev ← latest_of dst_branch;
      p ← merge_3way merge_child fork_rev src_rev dst_rev dry_run;
      if dry_run then mret p.1
      else
        r ← from_some AttributeError p.1;
        _ ← make_latest n dst_branch r p.2;
        _ ← del_branch n (Some txid);
        mret (Some r)
  end.

(** ** Tags *)

Definition hash_of_rev (w : world) (r : nat) : option string := revs w !! r ≫= r_hash.

(** [persist_tags]: only the root has something to persist. *)
Definition persist_tags (n : nat) : M world unit :=
  kv ← gets kv_store;
  match kv with
  | Some kv =>
      if decide (n = root_id) then
        nd ← deref_node n;
        b ← from_some KeyError (kv !! "root");
        match b with
        | BRoot latest _ =>
            tags ← gets (λ w, hash_of_rev w <$> n_tags nd);
            kv_put "root" (BRoot latest tags)
        | _ => raise ValueError
        end
      else mret tt
  | None => mret tt
  end.

Definition set_tags (n : nat) (f : gmap string nat → gmap string nat) : M world unit :=
  modify (set_nodes (alter (λ nd, Node (n_type nd) (n_branches nd) (f (n_tags nd)) (n_proxy nd)) n)).

Definition tag (n : nat) (t : string) (hash : option string) : M world unit :=
  b ← branch_of n None;
  br ← deref_branch b;
  r ← (match hash with
       | None => from_some AttributeError (b_latest br)
       | Some h => from_some KeyError (b_revs br !! Some h)
       end);
  _ ← set_tags n (<[t := r]>);
  persist_tags n.

Definition by_tag (n : nat) (t : string) : M world nat :=
  nd ← deref_node n;
  from_some KeyError (n_tags nd !! t).

Definition delete_tag (n : nat) (t : string) : M world unit :=
  nd ← deref_node n;
  _ ← from_some KeyError (n_tags nd !! t);
  _ ← set_tags n (delete t);
  persist_tags n.

Definition delete_tags (n : nat) (ts : list string) : M world unit :=
  _ ← forM_ (λ t, nd ← deref_node n;
                  _ ← from_some KeyError (n_tags nd !! t);
                  set_tags n (delete t)) ts;
  persist_tags n.

Definition prune_untagged (n : nat) : M world unit :=
  b ← branch_of n None;
  br ← deref_branch b;
  nd ← deref_node n;
  l ← from_some AttributeError (b_latest br);
  keep ← gets (λ w, hash_of_rev w l :: (hash_of_rev w <$> (map_to_list (n_tags nd)).*2));
  modify (set_branches (<[b := Branch (b_node br) (b_txid br) (b_origin br)
                                 (filter (λ p, p.1 ∈ keep) (b_revs br)) (b_latest br)]>)).

(** ** Proxies *)

Definition mk_proxy (n : nat) (full_path : string) (exclusive : bool) : M world unit :=
  nd ← deref_node n;
  match n_proxy nd with
  | None => modify (set_nodes (<[n := Node (n_type nd) (n_branches nd) (n_tags nd)
                                        (Some (Proxy full_path exclusive (λ _, [])))]>))
  | Some p => if p_exclusive p then raise ValueError else mret tt
  end.

(** [_get_proxy]: the proxy is known by its node. *)
Fixpoint get_proxy_ (fuel : nat) (n : nat) (path full_path : string) (exclusive : bool) : M world nat :=
  match fuel with
  | 0 => raise OutOfFuel
  | S fuel =>
      let path := strip_slashes path in
      if decide (path = "") then _ ← mk_proxy n full_path exclusive; mret n
      else
        r ← latest n;
        let '(name, path) := partition_slash path in
        field ← field_of n name;
        if ct_is_container field then
          if decide (path = "") then raise ValueError
          else if decide (ct_key field = "") then raise ValueError
          else
            let '(key, path) := partition_slash path in
            key ← key_from_str field key;
            children ← children_of r name;
            p ← find_child children (ct_key field) key;
            child_node ← node_of_rev p.2;
            get_proxy_ fuel child_node path full_path exclusive
        else
          cs ← children_of r name;
          child_rev ← from_some IndexError (head cs);
          child_node ← node_of_rev child_rev;
          get_proxy_ fuel child_node path full_path exclusive
  end.

Definition get_proxy (n : nat) (path : string) (exclusive : bool) : M world nat :=
  get_proxy_ (S (String.length path)) n path path exclusive.

(** ** Loading from the key-value store *)

Definition kv_get (k : option string) : M world blob :=
  kv ← gets kv_store;
  m ← from_some AttributeError kv;
  k ← from_some KeyError k;
  from_some KeyError (m !! k).

(** [load_config]: [ParseFromString] into an empty message of the class *)
Definition load_config (cls : string) (h : string) : M world local :=
  b ← kv_get (Some h);
  match b with
  | BConfig d => mret (Local cls (l_own d))
  | _ => raise ValueError
  end.

(** [PersistedConfigRevision.load]; [load_child] is [load_latest] of a child. *)
Definition persisted_load (load_child : nat → option string → M world unit)
    (b : nat) (cls : string) (h : option string) : M world nat :=
  bl ← kv_get h;
  match bl with
  | BRev children_list config_hash =>
      d ← load_config cls config_hash;
      cfields ← lift (children_fields cls);
      children ← foldM (λ acc '(field_name, meta),
          hs ← from_some KeyError (children_list !! field_name);
          l ← foldM (λ l child_hash,
                child_node ← fresh_id;
                _ ← modify (set_nodes (<[child_node := Node (ct_type meta) ∅ ∅ None]>));
                _ ← load_child child_node child_hash;
                child_rev ← latest child_node;
                mret (l ++ [child_rev])) [] hs;
          mret (<[field_name := l]> acc)) ∅ (iteritems cfields);
      mkrev b d children
  | _ => raise ValueError
  end.

(** [load_latest] of a node: [fuel] bounds the depth of the stored tree. *)
Fixpoint load_latest (fuel : nat) (n : nat) (h : option string) : M world unit :=
  match fuel with
  | 0 => raise OutOfFuel
  | S fuel =>
      nd ← deref_node n;
      b ← new_branch n None None;
      r ← persisted_load (load_latest fuel) b (n_type nd) h;
      _ ← make_latest n b r [];
      set_branch n None b
  end.

End nodes.
