(* ===== verification/ConfigRoot.v ===== *)
(** * The root of the configuration tree, proxies and transactions

    The classes [ConfigRoot] (src/voltha/core/config/config_root.py),
    [ConfigProxy] (config_proxy.py), [ConfigTransaction] (config_txn.py) and
    [ConfigEventBus] (config_event_bus.py). *)
From S2P Require Import Prelude ConfigRev Merge3way ConfigNode.
From Stdlib Require Import Ascii.
From stdpp Require Import base gmap list strings.
From Stdlib Require Import ZArith Lia.

Definition empty_world (kv : option (gmap string blob)) : world :=
  World ∅ ∅ ∅ ∅ root_id ∅ [] [] kv [].

(** The callbacks whose changes are not advertised. *)
Definition IGNORED_CALLBACKS : list callback_type :=
  [PRE_ADD; GET; POST_LISTCHANGE; PRE_REMOVE; PRE_UPDATE].

(** [ConfigEventBus.advertise]: the event goes to the event bus. *)
Definition advertise (t : notification) : M world unit :=
  if decide (nt_type t ∈ IGNORED_CALLBACKS) then mret tt
  else modify (λ w, set_published (published w ++ [t]) w).

Section root.
Context {HSc : Schema} {HHa : Hashing} {HOr : DictOrder}.
Context (run_callback : nat → context → M world context).

(** ** The deferred queues

    A callback may queue further calls; [fuel] is the number of calls made
    before the model gives up. *)
Fixpoint run_callbacks (fuel : nat) : M world unit :=
  q ← gets cb_queue;
  match q, fuel with
  | [], _ => mret tt
  | _, 0 => raise OutOfFuel
  | d :: q, S fuel =>
      _ ← modify (λ w, set_queues q (note_queue w) w);
      nd ← deref_node (d_node d);
      p ← from_some AttributeError (n_proxy nd);
      _ ← invoke_callbacks run_callback p (d_type d) (d_context d) true;
      run_callbacks fuel
  end.

Fixpoint run_notifications (fuel : nat) : M world unit :=
  q ← gets note_queue;
  match q, fuel with
  | [], _ => mret tt
  | _, 0 => raise OutOfFuel
  | t :: q, S fuel =>
      _ ← modify (λ w, set_queues (cb_queue w) q w);
      _ ← advertise t;
      run_notifications fuel
  end.

Context (budget : nat).

Definition execute_deferred_callbacks : M world unit :=
  _ ← run_callbacks budget;
  n ← gets (λ w, length (note_queue w));
  run_notifications n.

Definition check_callback_queue : M world unit :=
  q ← gets cb_queue;
  passert (bool_decide (length q = 0)).

(** ** CRUD at the root *)

(** [dirtied = self._dirty_nodes[txid]] *)
Definition dirtied (txid : option string) : M world unit :=
  match txid with
  | None => mret tt
  | Some t => d ← gets dirty_nodes; _ ← from_some KeyError (d !! t); mret tt
  end.

Definition root_update (path : string) (data : msg) (strict : bool) (txid : option string) : M world nat :=
  _ ← check_callback_queue;
  try_finally
    (_ ← dirtied txid; update run_callback (S (String.length path)) root_id path data strict txid)
    execute_deferred_callbacks.

Definition root_add (path : string) (data : msg) (txid : option string) : M world nat :=
  _ ← check_callback_queue;
  try_finally
    (_ ← dirtied txid; add run_callback (S (String.length path)) root_id path data txid)
    execute_deferred_callbacks.

Definition root_remove (path : string) (txid : option string) : M world nat :=
  _ ← check_callback_queue;
  try_finally
    (_ ← dirtied txid; ConfigNode.remove run_callback (S (String.length path)) root_id path txid)
    execute_deferred_callbacks.

(** ** Transactions *)

(** [mk_txbranch]: the new id, from [uuid4], is the argument. *)
Definition root_mk_txbranch (txid : string) : M world string :=
  _ ← modify (set_dirty_nodes (<[txid := {[root_id]}]>));
  _ ← mk_txbranch root_id txid;
  mret txid.

Definition root_del_txbranch (txid : string) : M world unit :=
  d ← gets dirty_nodes;
  s ← from_some KeyError (d !! txid);
  _ ← forM_ (λ n, del_txbranch n txid) (iter_order (elements s));
  modify (set_dirty_nodes (delete txid)).

Definition fold_txbranch (txid : string) : M world unit :=
  fuel ← gets (λ w, S (next_id w));
  _ ← (λ w, match merge_txbranch fuel root_id txid true w with
            | (Err MergeConflictException, w') =>
                (_ ← root_del_txbranch txid; raise MergeConflictException) w'
            | r => r
            end);
  try_finally (_ ← merge_txbranch fuel root_id txid false; mret tt) execute_deferred_callbacks.

(** ** Construction and loading *)

Definition mkroot (initial_data : msg) (kv : option (gmap string blob)) : result unit * world :=
  let '(r, w) := mknode recursion_limit initial_data (empty_world kv) in
  (match r with Ok _ => Ok tt | Err e => Err e end, w).

Fixpoint load_tags (l : list (string * option string)) : M world unit :=
  match l with
  | [] => mret tt
  | (t, h) :: l =>
      _ ← load_latest recursion_limit root_id h;
      r ← latest root_id;
      _ ← set_tags root_id (<[t := r]>);
      load_tags l
  end.

Definition load_from_persistence : M world unit :=
  b ← kv_get (Some "root");
  match b with
  | BRoot latest_hash tags =>
      _ ← load_tags (iteritems tags);
      load_latest recursion_limit root_id latest_hash
  | _ => raise ValueError
  end.

(** [ConfigRoot.load(root_msg_cls, kv_store)]: the tree is built over an empty
    store, then the real one is installed and read. *)
Definition load (root_msg_cls : string) (kv : gmap string blob) : result unit * world :=
  let '(r, w) := mkroot (empty_msg root_msg_cls) (Some ∅) in
  match r with
  | Err e => (Err e, w)
  | Ok _ => load_from_persistence (set_kv (λ _, kv) w)
  end.

(** ** [ConfigProxy]: a proxy is known by its node *)

Definition proxy_of (n : nat) : M world proxy :=
  nd ← deref_node n;
  from_some AttributeError (n_proxy nd).

(** [assert path.startswith('/')] and the full path *)
Definition full_path (p : proxy) (path : string) : M world string :=
  _ ← passert (match path with String "/"%char _ => true | _ => false end);
  mret (if decide (path = "/") then p_path p else p_path p +:+ path).

Definition proxy_get (n : nat) (path : string) (depth : Z) (deep : bool) (txid : option string) : M world got :=
  get run_callback n path None depth deep txid.

Definition proxy_update (n : nat) (path : string) (data : msg) (strict : bool) (txid : option string) : M world nat :=
  p ← proxy_of n;
  full ← full_path p path;
  root_update full data strict txid.

Definition proxy_add (n : nat) (path : string) (data : msg) (txid : option string) : M world nat :=
  p ← proxy_of n;
  full ← full_path p path;
  root_add full data txid.

Definition proxy_remove (n : nat) (path : string) (txid : option string) : M world nat :=
  p ← proxy_of n;
  full ← full_path p path;
  root_remove full txid.

Definition set_callbacks (n : nat) (f : (callback_type → list nat) → callback_type → list nat) : M world unit :=
  modify (set_nodes (alter (λ nd, Node (n_type nd) (n_branches nd) (n_tags nd)
    ((λ p, Proxy (p_path p) (p_exclusive p) (f (p_callbacks p))) <$> n_proxy nd)) n)).

Definition register_callback (n : nat) (t : callback_type) (cb : nat) : M world unit :=
  set_callbacks n (λ m t', if decide (t' = t) then m t' ++ [cb] else m t').

Fixpoint remove_first (x : nat) (l : list nat) : list nat :=
  match l with
  | [] => []
  | y :: l => if decide (x = y) then l else y :: remove_first x l
  end.

Definition unregister_callback (n : nat) (t : callback_type) (cb : nat) : M world unit :=
  set_callbacks n (λ m t', if decide (t' = t) then remove_first cb (m t') else m t').

(** ** [ConfigTransaction] *)

Record transaction := Transaction {
  t_proxy : nat;
  t_txid : option string;
}.

Definition open_transaction (n : nat) (uuid : string) : M world transaction :=
  t ← root_mk_txbranch uuid;
  mret (Transaction n (Some t)).

Definition txid_of (t : transaction) : M world string := from_some ClosedTransactionError (t_txid t).

Definition txn_get (t : transaction) (path : string) (depth : Z) (deep : bool) : M world got :=
  x ← txid_of t;
  proxy_get (t_proxy t) path depth deep (Some x).

Definition txn_update (t : transaction) (path : string) (data : msg) (strict : bool) : M world nat :=
  x ← txid_of t;
  proxy_update (t_proxy t) path data strict (Some x).

Definition txn_add (t : transaction) (path : string) (data : msg) : M world nat :=
  x ← txid_of t;
  proxy_add (t_proxy t) path data (Some x).

Definition txn_remove (t : transaction) (path : string) : M world nat :=
  x ← txid_of t;
  proxy_remove (t_proxy t) path (Some x).

(** [cancel] and [commit] return the transaction object as they leave it.  A
    closed transaction has no id: to cancel it is a [KeyError], and to commit it
    merges the committed branch, which has no origin. *)
Definition txn_cancel (t : transaction) : M world transaction :=
  _ ← (match t_txid t with
       | Some x => root_del_txbranch x
       | None => raise KeyError
       end);
  mret (Transaction (t_proxy t) None).

Definition txn_commit (t : transaction) : M world unit * transaction :=
  (match t_txid t with
   | Some x => fold_txbranch x
   | None => raise AttributeError
   end, Transaction (t_proxy t) None).

End root.
