(* ===== verification/ConfigSample.v ===== *)
(** * A sample schema and tree

    Concrete parameters for the configuration tree, used by the witnesses: a
    schema in the shape of voltha.proto (a root with keyed devices, a device
    with keyed ports and one group of flows), a checksum for the digest, and
    callbacks that accept everything. *)
From S2P Require Import Prelude ConfigRev Merge3way ConfigNode ConfigRoot.
From Stdlib Require Import Ascii.
From stdpp Require Import base gmap list strings pretty.
From Stdlib Require Import ZArith Lia.

#[export] Instance sample_schema : Schema := λ cls,
  if decide (cls = "Voltha") then
    [FieldDescriptor "version" 1 TYPE_STRING "" None (Some READ_ONLY);
     FieldDescriptor "devices" 3 TYPE_MESSAGE "Device" (Some "id") None]
  else if decide (cls = "Device") then
    [FieldDescriptor "id" 1 TYPE_STRING "" None (Some READ_ONLY);
     FieldDescriptor "type" 1 TYPE_STRING "" None None;
     FieldDescriptor "ports" 3 TYPE_MESSAGE "Port" (Some "port_no") None;
     FieldDescriptor "flows" 1 TYPE_MESSAGE "Flows" (Some "") None]
  else if decide (cls = "Port") then
    [FieldDescriptor "port_no" 1 TYPE_UINT32 "" None None;
     FieldDescriptor "label" 1 TYPE_STRING "" None None]
  else if decide (cls = "Flows") then
    [FieldDescriptor "items" 3 TYPE_OTHER "" None None]
  else [].

Fixpoint checksum (s : string) (acc : N) : N :=
  match s with
  | EmptyString => acc
  | String a s => checksum s ((acc * 257 + N_of_ascii a + 1) mod 999999999989)
  end.

Definition value_str (v : value) : string :=
  match v with VStr s => s | VInt n => pretty n | VOther s => s end.

#[export] Instance sample_hashing : Hashing := {|
  hexdigest := λ s, pretty (checksum s 7 + 1000000000000)%N;
  serialize := λ d, foldr (λ p acc, p.1 +:+ "=" +:+ value_str p.2 +:+ ";" +:+ acc) "" (map_to_list (l_own d));
  cls_module := λ _, "voltha_pb2";
|}.

#[export] Instance sample_order : DictOrder := plain_order.

(** Callbacks that return what they are given. *)
Definition accept_all : nat → context → M world context := λ _ c, mret c.

Definition device (id type : string) : msg :=
  Msg (Local "Device" (<["id" := VStr id]> (<["type" := VStr type]> ∅))) [].
Definition port (n : Z) (label : string) : msg :=
  Msg (Local "Port" (<["port_no" := VInt n]> (<["label" := VStr label]> ∅))) [].
Definition flows (s : string) : msg :=
  Msg (Local "Flows" (<["items" := VOther s]> ∅)) [].
Definition voltha_msg (ds : list msg) : msg :=
  Msg (Local "Voltha" (<["version" := VStr "1.4"]> ∅)) ((λ d, ("devices", d)) <$> ds).

(** A tree with the devices [d1] and [d2]. *)
Definition sample_world : world := (mkroot (voltha_msg [device "d1" "olt"; device "d2" "onu"]) None).2.

(** A transaction that removes [d2] and adds [d3] while [d1] changes outside it. *)
Definition tx_world : world :=
  let w1 := (root_mk_txbranch "t1" sample_world).2 in
  let w2 := (root_remove accept_all 100 "/devices/d2" (Some "t1") w1).2 in
  let w3 := (root_add accept_all 100 "/devices" (device "d3" "onu") (Some "t1") w2).2 in
  (root_update accept_all 100 "/devices/d1" (device "d1" "ponsim") false None w3).2.

(** A transaction that changes [d1] while the root's own data changes outside it. *)
Definition moved_world : world :=
  let w1 := (root_mk_txbranch "t1" sample_world).2 in
  let w2 := (root_update accept_all 100 "/devices/d1" (device "d1" "ponsim") false (Some "t1") w1).2 in
  (root_update accept_all 100 "/" (Msg (Local "Voltha" (<["version" := VStr "1.5"]> ∅)) []) false None w2).2.

(** The device lists of the root at a revision. *)
Definition devices_of (w : world) (r : nat) : list nat :=
  default [] (revs w !! r ≫= λ rv, r_children rv !! "devices").
