(* ===== verification/ConfigProofs.v ===== *)
(** * Isolation and atomicity of configuration transactions

    Properties of the configuration tree: what a transaction writes stays
    invisible outside it until it is committed, and a commit that meets a
    conflict changes nothing. *)
From S2P Require Import Prelude ConfigRev Merge3way Merge3wayProofs ConfigNode ConfigRoot ConfigSample.
From Stdlib Require Import Ascii.
From stdpp Require Import base gmap list strings pretty.
From Stdlib Require Import ZArith Lia.

Lemma lookup_alter_inv {V} (f : V → V) (m : gmap nat V) i j y :
  alter f i m !! j = Some y → ∃ x, m !! j = Some x ∧ y = if decide (j = i) then f x else x.
Proof.
  destruct (decide (j = i)) as [->|Hne].
  - rewrite lookup_alter_eq. destruct (m !! i); naive_solver.
  - rewrite lookup_alter_ne by done. naive_solver.
Qed.

(** ** Well-formed heaps *)

(** References are allocated once, and a node's branches are its own, under
    their transaction's id. *)
Record wf (w : world) : Prop := {
  wf_nodes : ∀ n nd, nodes w !! n = Some nd → n < next_id w;
  wf_branches : ∀ b br, branches w !! b = Some br → b < next_id w;
  wf_revs : ∀ r rv, revs w !! r = Some rv → r < next_id w;
  wf_own : ∀ n nd k b, nodes w !! n = Some nd → n_branches nd !! k = Some b →
    ∃ br, branches w !! b = Some br ∧ b_txid br = k ∧ b_node br = n;
}.

(** ** What work inside transaction [t] may change

    Of the objects older than [k]: branches other than those of [t] stay as
    they are, and a node keeps its tags and all its other branches.  Revisions
    keep their content (a hash may be cleared); nothing is queued or published;
    stored entries are not overwritten. *)
Record frame (t : string) (k : nat) (w w' : world) : Prop := {
  fr_next : next_id w ≤ next_id w';
  fr_nodes : ∀ n nd, nodes w !! n = Some nd → ∃ nd', nodes w' !! n = Some nd' ∧
    n_type nd' = n_type nd ∧
    (n < k → n_tags nd' = n_tags nd ∧ ∀ x, x ≠ Some t → n_branches nd' !! x = n_branches nd !! x);
  fr_branches : ∀ b br, branches w !! b = Some br → ∃ br', branches w' !! b = Some br' ∧
    b_txid br' = b_txid br ∧ b_node br' = b_node br ∧ (b < k → b_txid br ≠ Some t → br' = br);
  fr_revs : ∀ r rv, revs w !! r = Some rv → ∃ rv', revs w' !! r = Some rv' ∧
    r_branch rv' = r_branch rv ∧ r_config rv' = r_config rv ∧ r_children rv' = r_children rv;
  fr_queues : cb_queue w' = cb_queue w ∧ note_queue w' = note_queue w ∧ published w' = published w;
  fr_kv : match kv_store w, kv_store w' with
          | Some m, Some m' => m ⊆ m'
          | None, None => True
          | _, _ => False
          end;
}.

#[export] Instance frame_refl t k : Reflexive (frame t k).
Proof.
  intros w. split; try done; try naive_solver.
  destruct (kv_store w); done.
Qed.

#[export] Instance frame_trans t k : Transitive (frame t k).
Proof.
  intros w1 w2 w3 H1 H2. split.
  - pose proof (fr_next _ _ _ _ H1). pose proof (fr_next _ _ _ _ H2). lia.
  - intros n nd Hn. destruct (fr_nodes _ _ _ _ H1 _ _ Hn) as (nd2 & Hn2 & E1 & E2).
    destruct (fr_nodes _ _ _ _ H2 _ _ Hn2) as (nd3 & Hn3 & F1 & F2).
    exists nd3. split_and!; [done|congruence|]. intros Hlt. destruct (E2 Hlt) as [E3 E4], (F2 Hlt) as [F3 F4].
    split; [congruence|]. intros x Hx. by rewrite F4, E4.
  - intros b br Hb. destruct (fr_branches _ _ _ _ H1 _ _ Hb) as (br2 & Hb2 & E1 & E2 & E3).
    destruct (fr_branches _ _ _ _ H2 _ _ Hb2) as (br3 & Hb3 & F1 & F2 & F3).
    exists br3. split_and!; [done|congruence..|]. intros Hlt Hk. rewrite F3 by congruence. auto.
  - intros r rv Hr. destruct (fr_revs _ _ _ _ H1 _ _ Hr) as (rv2 & Hr2 & E1 & E2 & E3).
    destruct (fr_revs _ _ _ _ H2 _ _ Hr2) as (rv3 & Hr3 & F1 & F2 & F3).
    exists rv3. split_and!; congruence.
  - destruct (fr_queues _ _ _ _ H1) as (?&?&?), (fr_queues _ _ _ _ H2) as (?&?&?). split_and!; congruence.
  - pose proof (fr_kv _ _ _ _ H1). pose proof (fr_kv _ _ _ _ H2).
    destruct (kv_store w1), (kv_store w2), (kv_store w3); try done. by etrans.
Qed.

(** ** Computations that only read *)
Definition readonly {St A} (m : M St A) : Prop := ∀ s, (m s).2 = s.

Section readonly.
Context {St : Type}.

Lemma readonly_bind {A B} (m : M St A) (f : A → M St B) :
  readonly m → (∀ a, readonly (f a)) → readonly (m ≫= f).
Proof.
  intros Hm Hf s. specialize (Hm s). unfold mbind, M_bind.
  destruct (m s) as [[a|e] s']; simpl in *; subst; [apply Hf|done].
Qed.

Lemma readonly_ret {A} (a : A) : readonly (mret (M:=M St) a).
Proof. done. Qed.

Lemma readonly_raise {A} e : readonly (raise (St:=St) (A:=A) e).
Proof. done. Qed.

Lemma readonly_gets {A} (f : St → A) : readonly (gets f).
Proof. done. Qed.

Lemma readonly_lift {A} (r : result A) : readonly (lift (St:=St) r).
Proof. done. Qed.

Lemma readonly_from_some {A} e (o : option A) : readonly (from_some (St:=St) e o).
Proof. by destruct o. Qed.

Lemma readonly_foldM {A B} (f : A → B → M St A) l a :
  (∀ a b, readonly (f a b)) → readonly (foldM f a l).
Proof.
  intros Hf. revert a. induction l as [|b l IH]; intros a; [done|]. cbn [foldM]. by apply readonly_bind.
Qed.

End readonly.

(** [readonly] by the shape of the program. *)
Ltac readonly_tac :=
  repeat first
    [ apply readonly_bind | apply readonly_ret | apply readonly_raise | apply readonly_gets
    | apply readonly_lift | apply readonly_from_some | apply readonly_foldM
    | progress intros
    | case_decide
    | match goal with
      | |- readonly (match ?x with _ => _ end) => destruct x
      | H : _ |- readonly _ => apply H
      end ].

Lemma readonly_deref_rev r : readonly (deref_rev r).
Proof. unfold deref_rev. readonly_tac. Qed.
Lemma readonly_deref_branch b : readonly (deref_branch b).
Proof. unfold deref_branch. readonly_tac. Qed.
Lemma readonly_deref_node n : readonly (deref_node n).
Proof. unfold deref_node. readonly_tac. Qed.

Create HintDb readonly.
#[export] Hint Resolve readonly_deref_rev readonly_deref_branch readonly_deref_node : readonly.
Ltac ro := repeat first [ solve [auto with readonly] | progress readonly_tac ].

Section readers.
Context {HSc : Schema} {HHa : Hashing} {HOr : DictOrder}.

Lemma readonly_branch_of n x : readonly (branch_of n x).
Proof. unfold branch_of. ro. Qed.
Lemma readonly_latest_of b : readonly (latest_of b).
Proof. unfold latest_of. ro. Qed.
Lemma readonly_latest n : readonly (latest n).
Proof. unfold latest, branch_of, latest_of. ro. Qed.
Lemma readonly_field_of n name : readonly (field_of n name).
Proof. unfold field_of. ro. Qed.
Lemma readonly_children_of r name : readonly (children_of r name).
Proof. unfold children_of. ro. Qed.
Lemma readonly_key_from_str f s : readonly (key_from_str f s).
Proof. unfold key_from_str. ro. Qed.
Lemma readonly_find_child rs key v : readonly (find_child rs key v).
Proof. unfold find_child. ro. Qed.
Lemma readonly_node_of_rev r : readonly (node_of_rev r).
Proof. unfold node_of_rev. ro. Qed.
Lemma readonly_data_of o : readonly (data_of o).
Proof. unfold data_of. ro. Qed.
Lemma readonly_hash_of n : readonly (hash_of n).
Proof. unfold hash_of. ro. Qed.
Lemma readonly_config_hash_of n : readonly (config_hash_of n).
Proof. unfold config_hash_of. ro. Qed.
Lemma readonly_child_of a l key : readonly (child_of a l key).
Proof. unfold child_of, dict_index. ro. Qed.

End readers.

#[export] Hint Resolve readonly_branch_of readonly_latest_of readonly_latest readonly_field_of readonly_children_of
  readonly_key_from_str readonly_find_child readonly_node_of_rev readonly_data_of readonly_hash_of
  readonly_config_hash_of readonly_child_of : readonly.

(** ** A dry run of a merge only reads *)
Section dry_run.
Context {HSc : Schema} {HHa : Hashing} {HOr : DictOrder}.

Lemma readonly_merge_field f fork src dst acc p :
  (∀ r, readonly (f r)) → readonly (merge_field f fork src dst acc p).
Proof.
  intros Hf. unfold merge_field, merge_each, merge_keyed_ff, merge_keyed_both, ff_added, ff_removed, ff_changed,
    both_added, both_changed, both_removed, dict_index.
  ro.
Qed.

Lemma readonly_dry_run fuel n t : readonly (merge_txbranch fuel n t true).
Proof.
  revert n. induction fuel as [|fuel IH]; intros n; [done|]. cbn [merge_txbranch].
  pose proof readonly_merge_field. ro.
Qed.

End dry_run.

(** ** Computations confined to a transaction *)
Section confined.
Context (t : string) (k : nat).

Definition stable (P : world → Prop) : Prop := ∀ w w', frame t k w w' → P w → P w'.

(** From a well-formed heap with [P], the computation stays inside [t] and its
    result, if it returns, satisfies [Q]. *)
Definition confined {A} (P : world → Prop) (m : M world A) (Q : A → world → Prop) : Prop :=
  ∀ w, wf w → k ≤ next_id w → P w → let '(r, w') := m w in
    wf w' ∧ frame t k w w' ∧ match r with Ok a => Q a w' | Err _ => True end.

Notation safe m := (confined (λ _, True) m (λ _ _, True)).

Lemma confined_seq {A B} (m : M world A) (f : A → M world B) P Q R :
  confined P m Q → (∀ a, confined (Q a) (f a) R) → confined P (m ≫= f) R.
Proof.
  intros Hm Hk w Hw Hn HPw. specialize (Hm w Hw Hn HPw). unfold mbind, M_bind.
  destruct (m w) as [[a|e] w1]; destruct Hm as (Hw1 & Hf1 & HQ); [|done].
  assert (k ≤ next_id w1) as Hn1 by (pose proof (fr_next _ _ _ _ Hf1); lia).
  specialize (Hk a w1 Hw1 Hn1 HQ). destruct (f a w1) as [r w2].
  destruct Hk as (Hw2 & Hf2 & HR). split_and!; [done|by etrans|done].
Qed.

Lemma confined_bind {A B} (m : M world A) (f : A → M world B) P Q R :
  stable P → confined P m Q → (∀ a, confined (λ w, P w ∧ Q a w) (f a) R) → confined P (m ≫= f) R.
Proof.
  intros HP Hm Hk. eapply confined_seq; [|exact Hk]. intros w Hw Hn HPw. specialize (Hm w Hw Hn HPw).
  destruct (m w) as [[a|e] w1]; destruct Hm as (Hw1 & Hf1 & HQ); split_and!; eauto.
Qed.

Lemma confined_conseq {A} (m : M world A) (P P' : world → Prop) (Q Q' : A → world → Prop) :
  confined P' m Q' → (∀ w, P w → P' w) → (∀ a w, Q' a w → Q a w) → confined P m Q.
Proof.
  intros Hm HP HQ w Hw Hn HPw. specialize (Hm w Hw Hn (HP w HPw)). destruct (m w) as [[a|e] w']; naive_solver.
Qed.

Lemma confined_pre {A} (m : M world A) (P P' : world → Prop) Q :
  (∀ w, P w → P' w) → confined P' m Q → confined P m Q.
Proof. intros HP Hm. eapply confined_conseq; eauto. Qed.

Lemma confined_ret {A} (a : A) (P : world → Prop) (Q : A → world → Prop) :
  (∀ w, P w → Q a w) → confined P (mret a) Q.
Proof. intros HQ w Hw Hn HP. split_and!; [done|reflexivity|by apply HQ]. Qed.

Lemma confined_raise {A} e P (Q : A → world → Prop) : confined P (raise e) Q.
Proof. intros w Hw Hn HP. by split_and!. Qed.

Lemma confined_gets {A} (f : world → A) P (Q : A → world → Prop) :
  (∀ w, wf w → P w → Q (f w) w) → confined P (gets f) Q.
Proof. intros HQ w Hw Hn HP. split_and!; [done|reflexivity|by apply HQ]. Qed.

Lemma confined_lift {A} (r : result A) P (Q : A → world → Prop) :
  (∀ a w, r = Ok a → P w → Q a w) → confined P (lift r) Q.
Proof. intros HQ w Hw Hn HP. unfold lift. split_and!; [done|reflexivity|]. destruct r; auto. Qed.

Lemma confined_from_some {A} e (o : option A) P (Q : A → world → Prop) :
  (∀ a w, o = Some a → P w → Q a w) → confined P (from_some e o) Q.
Proof.
  intros HQ. destruct o; [apply confined_ret; auto|apply confined_raise].
Qed.

Lemma confined_foldM {A B} (I : A → world → Prop) (f : A → B → M world A) l a :
  (∀ a, stable (I a)) → (∀ a b, b ∈ l → confined (I a) (f a b) I) → confined (I a) (foldM f a l) I.
Proof.
  intros HI. revert a. induction l as [|b l IH]; intros a Hf; [by apply confined_ret|].
  cbn [foldM]. eapply confined_bind; [apply HI|apply Hf; set_solver|].
  intros a'. eapply confined_pre; [|apply IH; intros; apply Hf; set_solver]. naive_solver.
Qed.

Lemma stable_true : stable (λ _, True).
Proof. done. Qed.

Lemma stable_and P Q : stable P → stable Q → stable (λ w, P w ∧ Q w).
Proof. unfold stable. naive_solver. Qed.

Lemma stable_pure (φ : Prop) : stable (λ _, φ).
Proof. by intros w w' _ Hφ. Qed.

Lemma confined_readonly {A} (m : M world A) P :
  readonly m → confined P m (λ a w, m w = (Ok a, w)).
Proof.
  intros Hm w Hw Hn HP. specialize (Hm w). destruct (m w) as [[a|e] w'] eqn:Hmw; simpl in Hm; subst;
    (split_and!; [done|reflexivity|done]).
Qed.

Lemma confined_read {A} (m : M world A) (P : world → Prop) : readonly m → confined P m (λ _, P).
Proof.
  intros Hm w Hw Hn HP. specialize (Hm w). destruct (m w) as [[a|e] w'] eqn:Hmw; simpl in Hm; subst;
    (split_and!; [done|reflexivity|done]).
Qed.

Lemma confined_modify (f : world → world) P (Q : world → Prop) :
  (∀ w, wf w → k ≤ next_id w → P w → wf (f w) ∧ frame t k w (f w) ∧ Q (f w)) → confined P (modify f) (λ _, Q).
Proof. intros Hf w Hw Hn HP. by apply Hf. Qed.

(** ** The facts that last *)
Definition is_txb (b : nat) (w : world) : Prop := ∃ br, branches w !! b = Some br ∧ b_txid br = Some t.

(** A branch made since [k], under the id [x] of node [n]. *)
Definition is_new (n b : nat) (x : option string) (w : world) : Prop :=
  k ≤ b ∧ ∃ br, branches w !! b = Some br ∧ b_txid br = x ∧ b_node br = n.

Lemma stable_is_txb b : stable (is_txb b).
Proof.
  intros w w' Hf (br & Hb & Ht). destruct (fr_branches _ _ _ _ Hf _ _ Hb) as (br' & Hb' & E & _).
  exists br'. split; congruence.
Qed.

Lemma stable_is_new n b x : stable (is_new n b x).
Proof.
  intros w w' Hf (Hk & br & Hb & Ht & Hn). split; [done|].
  destruct (fr_branches _ _ _ _ Hf _ _ Hb) as (br' & Hb' & E & E' & _). exists br'. split_and!; congruence.
Qed.

(** ** Allocation *)

Lemma frame_same w w' :
  next_id w ≤ next_id w' → nodes w' = nodes w → branches w' = branches w → revs w ⊆ revs w' →
  cb_queue w' = cb_queue w → note_queue w' = note_queue w → published w' = published w →
  kv_store w' = kv_store w → frame t k w w'.
Proof.
  intros H1 H2 H3 H4 H5 H6 H7 H8. split; try done.
  - rewrite H2. naive_solver.
  - rewrite H3. naive_solver.
  - intros r rv Hr. exists rv. split_and!; try done. by eapply lookup_weaken.
  - rewrite H8. by destruct (kv_store w).
Qed.

Lemma wf_bump w n : wf w → next_id w ≤ n → wf (set_next_id n w).
Proof.
  intros [H1 H2 H3 H4] Hn. split; simpl; [| | |done]; intros i x Hi.
  - apply H1 in Hi. lia.
  - apply H2 in Hi. lia.
  - apply H3 in Hi. lia.
Qed.

Lemma confined_fresh P : stable P →
  confined P fresh_id (λ n w, k ≤ n ∧ n < next_id w ∧ nodes w !! n = None ∧ branches w !! n = None ∧ revs w !! n = None ∧ P w).
Proof.
  intros HP w Hw Hn HPw. unfold fresh_id, mbind, M_bind, gets, modify. simpl.
  assert (frame t k w (set_next_id (S (next_id w)) w)) as Hf by (apply frame_same; simpl; done || lia).
  split; [apply wf_bump; [done|lia]|]. split; [done|].
  split_and!; simpl; [done|lia| | | |by eapply HP].
  - destruct (nodes w !! next_id w) eqn:E; [|done]. apply (wf_nodes _ Hw) in E. lia.
  - destruct (branches w !! next_id w) eqn:E; [|done]. apply (wf_branches _ Hw) in E. lia.
  - destruct (revs w !! next_id w) eqn:E; [|done]. apply (wf_revs _ Hw) in E. lia.
Qed.

(** ** Revisions *)
Section revisions.
Context {HSc : Schema} {HHa : Hashing} {HOr : DictOrder}.

Lemma frame_kv (f : gmap string blob → gmap string blob) w :
  (∀ m, kv_store w = Some m → m ⊆ f m) → wf w → wf (set_kv f w) ∧ frame t k w (set_kv f w).
Proof.
  intros Hf [H1 H2 H3 H4]. split; [by split|]. split; simpl; try done; try naive_solver.
  destruct (kv_store w) as [m|]; simpl; [by apply Hf|done].
Qed.

Lemma kv_has_false key w m : kv_has key w = false → kv_store w = Some m → m !! key = None.
Proof. unfold kv_has. intros Hk Hm. rewrite Hm in Hk. apply eq_None_not_Some. by case_bool_decide. Qed.

Lemma confined_store r h P : stable P → confined P (store r h) (λ _, P).
Proof.
  intros HP w Hw Hn HPw. unfold store.
  cbv [mbind M_bind gets]. destruct (kv_has h w) eqn:Hh; [split_and!; [done|reflexivity|done]|].
  unfold store_config. cbv [mbind M_bind gets].
  destruct (kv_has (c_hash (r_config r)) w) eqn:Hc; unfold kv_put, modify; simpl.
  - edestruct (frame_kv (<[h := BRev (child_hashes w <$> r_children r) (c_hash (r_config r))]>) w) as [A B];
      [|done|split_and!; [exact A|exact B|by eapply HP]].
    intros m Hm. apply insert_subseteq. by eapply kv_has_false.
  - set (b1 := BConfig _). set (b2 := BRev _ _).
    edestruct (frame_kv (λ m, <[h := b2]> (<[c_hash (r_config r) := b1]> m)) w) as [A B]; [|done|].
    + intros m Hm. eapply kv_has_false in Hh, Hc; [|done..].
      etrans; [by apply (insert_subseteq m h b2)|]. by apply insert_mono, insert_subseteq.
    + assert (set_kv (<[h := b2]>) (set_kv (<[c_hash (r_config r) := b1]>) w) =
        set_kv (λ m, <[h := b2]> (<[c_hash (r_config r) := b1]> m)) w) as ->
        by (unfold set_kv; simpl; by destruct (kv_store w)).
      split_and!; [exact A|exact B|by eapply HP].
Qed.

Lemma confined_add_rev n rv (P Q : world → Prop) :
  (∀ w, P w → n < next_id w ∧ revs w !! n = None ∧ Q w) → stable Q →
  confined P (modify (set_revs (<[n := rv]>))) (λ _, Q).
Proof.
  intros HP HQ. apply confined_modify. intros w [H1 H2 H3 H4] Hk HPw. destruct (HP w HPw) as (Hn & Hr & HQw).
  assert (frame t k w (set_revs (<[n := rv]>) w)) by (apply frame_same; simpl; try done; by apply insert_subseteq).
  split_and!; [|done|by eapply HQ].
  split; simpl; try done. intros r rv' [[<- _]|[_ Hr']]%lookup_insert_Some; [done|]. by eapply H3.
Qed.

Lemma confined_finalize br c children P : stable P → confined P (finalize br c children) (λ _, P).
Proof.
  intros HP. unfold finalize.
  eapply confined_seq; [by apply confined_read, readonly_gets|intros r_h].
  eapply confined_seq; [by apply confined_read, readonly_lift|intros h].
  eapply confined_seq; [by apply confined_read, readonly_gets|intros cached].
  eapply confined_seq with (Q := λ _, P); [|intros c'].
  { destruct cached as [c'|]; [by apply confined_ret|].
    eapply confined_seq with (Q := λ _, P); [|intros []; by apply confined_ret].
    apply confined_modify. intros w Hw Hn HPw.
    assert (frame t k w (set_rev_cache (<[c_hash c := c]>) w)) as Hf by (by apply frame_same).
    split_and!; [by destruct Hw; split|done|by eapply HP]. }
  eapply confined_seq; [by apply confined_fresh|intros n].
  eapply confined_seq with (Q := λ _, P); [apply confined_add_rev; naive_solver|intros []].
  eapply confined_seq with (Q := λ _, P); [by apply confined_store|intros []]. by apply confined_ret.
Qed.

Lemma confined_new_config d P : stable P → confined P (new_config d) (λ _, P).
Proof.
  intros HP. unfold new_config. eapply confined_seq; [by apply confined_fresh|intros n]. apply confined_ret. naive_solver.
Qed.

Lemma confined_mkrev br d children P : stable P → confined P (mkrev br d children) (λ _, P).
Proof.
  intros HP. unfold mkrev. eapply confined_seq; [by apply confined_new_config|intros c]. by apply confined_finalize.
Qed.

Lemma confined_update_data n d br P : stable P → confined P (update_data n d br) (λ _, P).
Proof.
  intros HP. unfold update_data. eapply confined_seq; [apply confined_read, readonly_deref_rev|intros r].
  eapply confined_seq; [by apply confined_new_config|intros c]. by apply confined_finalize.
Qed.

Lemma confined_update_children n name cs br P : stable P → confined P (update_children n name cs br) (λ _, P).
Proof.
  intros HP. unfold update_children. eapply confined_seq; [apply confined_read, readonly_deref_rev|intros r].
  by apply confined_finalize.
Qed.

Lemma confined_clear_hash n P : stable P → confined P (clear_hash n) (λ _, P).
Proof.
  intros HP. apply confined_modify. intros w [H1 H2 H3 H4] Hn HPw.
  assert (frame t k w (set_revs (alter (λ r, Rev (r_branch r) (r_config r) (r_children r) None) n) w)).
  { split; simpl; try done; try naive_solver; [|by destruct (kv_store w)].
    intros r rv Hr. destruct (decide (r = n)) as [->|].
    - rewrite lookup_alter_eq, Hr. eexists. split; [done|]. done.
    - rewrite lookup_alter_ne by done. naive_solver. }
  split_and!; [|done|by eapply HP]. split; simpl; try done.
  intros r rv Hr. destruct (decide (r = n)) as [->|].
  - rewrite lookup_alter_eq in Hr. destruct (revs w !! n) eqn:E; [|done]. by eapply H3.
  - rewrite lookup_alter_ne in Hr by done. by eapply H3.
Qed.


End revisions.

(** ** Branches *)

Lemma frame_nodes (f : gmap nat node → gmap nat node) w :
  (∀ n nd, nodes w !! n = Some nd → ∃ nd', f (nodes w) !! n = Some nd' ∧ n_type nd' = n_type nd ∧
    (n < k → n_tags nd' = n_tags nd ∧ ∀ x, x ≠ Some t → n_branches nd' !! x = n_branches nd !! x)) →
  frame t k w (set_nodes f w).
Proof. intros Hf. split; simpl; try done; try naive_solver. by destruct (kv_store w). Qed.

Lemma frame_branches (f : gmap nat branch → gmap nat branch) w :
  (∀ b br, branches w !! b = Some br → ∃ br', f (branches w) !! b = Some br' ∧
    b_txid br' = b_txid br ∧ b_node br' = b_node br ∧ (b < k → b_txid br ≠ Some t → br' = br)) →
  frame t k w (set_branches f w).
Proof. intros Hf. split; simpl; try done; try naive_solver. by destruct (kv_store w). Qed.

Lemma confined_new_branch n x origin P : stable P →
  confined P (new_branch n x origin) (λ b w, is_new n b x w ∧ P w).
Proof.
  intros HP. unfold new_branch. eapply confined_seq; [by apply confined_fresh|intros b].
  eapply confined_seq with (Q := λ _ w, is_new n b x w ∧ P w); [|intros []; by apply confined_ret].
  apply confined_modify. intros w Hw Hk (Hb & Hlt & _ & Hnone & _ & HPw).
  assert (frame t k w (set_branches (<[b := Branch n x origin ∅ origin]>) w)) as Hf.
  { apply frame_branches. intros b' br Hb'. exists br. split_and!; try done.
    rewrite lookup_insert_ne by congruence. done. }
  split_and!; [|done| |by eapply HP].
  - destruct Hw as [H1 H2 H3 H4]. split; simpl; try done.
    + intros b' br [[<- _]|[_ Hb']]%lookup_insert_Some; [done|by eapply H2].
    + intros n' nd y b' Hn' Hy. destruct (H4 _ _ _ _ Hn' Hy) as (br & Hbr & E). exists br.
      rewrite lookup_insert_ne by congruence. done.
  - split; [done|]. simpl. rewrite lookup_insert_eq. eauto.
Qed.

Lemma confined_set_branch n x b P (Q : world → Prop) :
  k ≤ n ∨ x = Some t → (∀ w, P w → is_new n b x w ∧ Q w) → stable Q → confined P (set_branch n x b) (λ _, Q).
Proof.
  intros Hnx HP HQ. apply confined_modify. intros w Hw Hk (Hnew & HQw)%HP.
  set (f := alter _ n). assert (frame t k w (set_nodes f w)) as Hf.
  { apply frame_nodes. intros n' nd Hn'. unfold f. destruct (decide (n' = n)) as [->|].
    - rewrite lookup_alter_eq, Hn'. eexists. split; [done|]. split; [done|]. intros Hlt. split; [done|].
      simpl. intros y Hy. destruct Hnx as [?|Hx]; [lia|]. by rewrite lookup_insert_ne by congruence.
    - rewrite lookup_alter_ne by done. naive_solver. }
  split_and!; [|done|by eapply HQ]. destruct Hw as [H1 H2 H3 H4]. split; simpl; try done.
  - intros n' nd (nd0 & Hn0 & _)%lookup_alter_inv. by eapply H1.
  - intros n' nd y b' (nd0 & Hn0 & ->)%lookup_alter_inv Hy. case_decide as Hd; [subst n'|by eapply H4].
    simpl in Hy. apply lookup_insert_Some in Hy as [[<- <-]|[_ Hy]]; [|by eapply H4].
    destruct Hnew as (_ & br & ?). by exists br.
Qed.

Lemma confined_mk_txbranch n P : stable P → confined P (mk_txbranch n t) (λ b w, is_txb b w ∧ P w).
Proof.
  intros HP. unfold mk_txbranch. eapply confined_seq; [apply confined_read, readonly_latest|intros p].
  eapply confined_seq; [by apply confined_new_branch|intros b].
  eapply confined_seq with (Q := λ _ w, is_new n b (Some t) w ∧ P w).
  - apply confined_set_branch; [by right|naive_solver|]. apply stable_and; [apply stable_is_new|done].
  - intros []. apply confined_ret. intros w [(_ & br & Hb & Ht & _) HPw]. split; [by exists br|done].
Qed.

Lemma confined_get_branch n P : stable P → confined P (get_branch n (Some t)) (λ b w, is_txb b w ∧ P w).
Proof.
  intros HP. unfold get_branch.
  eapply confined_seq with (Q := λ nd w, nodes w !! n = Some nd ∧ P w).
  { intros w Hw Hk HPw. unfold deref_node, mbind, M_bind, gets. destruct (nodes w !! n) eqn:E; by split_and!. }
  intros nd. destruct (n_branches nd !! Some t) as [b|] eqn:Hb.
  - intros w Hw Hk [Hn HPw]. split_and!; [done|reflexivity| |done].
    destruct (wf_own _ Hw _ _ _ _ Hn Hb) as (br & ? & ? & _). by exists br.
  - eapply confined_seq with (Q := λ _, P); [|intros []; by apply confined_mk_txbranch].
    apply confined_modify. intros w Hw Hk [_ HPw].
    assert (frame t k w (set_dirty_nodes (alter (λ s, {[n]} ∪ s) t) w)) as Hf by (by apply frame_same).
    split_and!; [by destruct Hw; split|done|by eapply HP].
Qed.

(** ** [make_latest] on a branch of the transaction, or on a branch just made *)

Lemma confined_announce_nil n h P : stable P → confined P (announce n h []) (λ _, P).
Proof.
  intros HP. unfold announce. eapply confined_seq; [apply confined_read, readonly_deref_node|intros nd].
  apply confined_modify. intros w Hw Hk HPw.
  assert (∀ w', set_queues (cb_queue w) (note_queue w) w = w' → frame t k w w') as Hf.
  { intros w' <-. by apply frame_same. }
  assert ((match n_proxy nd with Some _ => (λ a, Deferred n a.1 a.2) <$> ([] : list announcement) | None => [] end) = [])
    as -> by (by destruct (n_proxy nd)).
  simpl. rewrite !app_nil_r. split_and!; [by destruct Hw; split|by apply Hf|]. eapply HP; [|done]. by apply Hf.
Qed.

Lemma confined_deref_branch b (P : world → Prop) :
  confined P (deref_branch b) (λ br w, branches w !! b = Some br ∧ P w).
Proof.
  intros w Hw Hk HPw. unfold deref_branch, mbind, M_bind, gets. destruct (branches w !! b) eqn:E; by split_and!.
Qed.

(** Where [make_latest] may write: a branch of the transaction, or one made
    for a new node, with nothing to announce. *)
Definition writable (n b : nat) (anns : list announcement) (w : world) : Prop :=
  is_txb b w ∨ (is_new n b None w ∧ k ≤ n ∧ anns = []).

Lemma stable_writable n b anns : stable (writable n b anns).
Proof.
  intros w w' Hf [H|(H & Hn & Ha)]; [left; by eapply stable_is_txb|right; split_and!; [by eapply stable_is_new|done..]].
Qed.

Lemma confined_persist_root b P : stable P → confined (λ w, is_txb b w ∧ P w) (persist_root b) (λ _, P).
Proof.
  intros HP. unfold persist_root. eapply confined_seq; [apply confined_deref_branch|intros br].
  eapply confined_seq; [apply confined_read, readonly_deref_node|intros nd].
  eapply confined_seq; [apply confined_read, readonly_from_some|intros l].
  eapply confined_seq; [apply confined_read, readonly_deref_rev|intros r].
  intros w Hw Hk (Hb & (br' & Hb' & Ht) & HPw). rewrite Hb in Hb'. simplify_eq.
  rewrite decide_False by congruence. by split_and!.
Qed.

Lemma confined_set_latest n b br revs' latest' anns (P : world → Prop) : stable P →
  confined (λ w, branches w !! b = Some br ∧ writable n b anns w ∧ P w)
    (modify (set_branches (<[b := Branch (b_node br) (b_txid br) (b_origin br) revs' latest']>)))
    (λ _ w, writable n b anns w ∧ P w).
Proof.
  intros HP. apply confined_modify. intros w Hw Hk (Hb & Hwr & HPw). set (br' := Branch _ _ _ _ _).
  assert (frame t k w (set_branches (<[b := br']>) w)) as Hf.
  { apply frame_branches. intros b2 br2 Hb2. destruct (decide (b2 = b)) as [->|].
    - rewrite lookup_insert_eq. exists br'. rewrite Hb in Hb2. simplify_eq. split_and!; [done..|]. intros Hlt Hne.
      destruct Hwr as [(br3 & Hb3 & Ht)|[(Hge & _) _]]; [|lia]. congruence.
    - rewrite lookup_insert_ne by done. naive_solver. }
  split_and!; [|done|by eapply stable_writable|by eapply HP].
  destruct Hw as [H1 H2 H3 H4]. split; simpl; try done.
  - intros b2 br2 [[<- _]|[_ Hb2]]%lookup_insert_Some; by eapply H2.
  - intros n2 nd2 y b2 Hn2 Hy. destruct (H4 _ _ _ _ Hn2 Hy) as (br2 & Hb2 & E1 & E2).
    destruct (decide (b2 = b)) as [->|]; [|exists br2; by rewrite lookup_insert_ne].
    exists br'. rewrite lookup_insert_eq. rewrite Hb in Hb2. by simplify_eq.
Qed.

Lemma confined_make_latest n b r anns P : 0 < k → stable P →
  confined (λ w, writable n b anns w ∧ P w) (make_latest n b r anns) (λ _, P).
Proof.
  intros Hk0 HP. unfold make_latest.
  eapply confined_seq; [apply confined_read, readonly_deref_rev|intros rv].
  eapply confined_seq; [apply confined_deref_branch|intros br].
  eapply confined_seq; [apply confined_read|intros old].
  { destruct (b_latest br); ro. }
  set (Q := λ w, (b_txid br = None → anns = []) ∧ P w).
  assert (stable Q) as HQ by (apply stable_and; [apply stable_pure|done]).
  apply (confined_pre _ _ (λ w, branches w !! b = Some br ∧ writable n b anns w ∧ Q w)).
  { intros w (Hb & Hwr & HPw). split; [done|]. split; [done|]. split; [|done]. intros Hnone.
    destruct Hwr as [(br' & Hb' & Ht)|(_ & _ & Ha)]; [congruence|done]. }
  assert (stable (λ w, writable n b anns w ∧ Q w)) as Hs by (apply stable_and; [apply stable_writable|done]).
  eapply confined_seq; [by apply confined_set_latest|intros []].
  eapply confined_seq with (Q := λ _ w, writable n b anns w ∧ Q w); [|intros []].
  - case_decide as Hd; [|by apply confined_ret].
    intros w Hw Hk Hpre. assert (anns = []) as -> by (by apply Hpre). by apply confined_announce_nil.
  - case_decide as Hr; [|apply confined_ret; unfold Q; naive_solver].
    intros w Hw Hk ([Hb|(_ & Hn & _)] & _ & HPw); [by apply confined_persist_root|]. unfold root_id in Hr. lia.
Qed.

(** ** New nodes *)

Lemma confined_add_node n nd (P Q : world → Prop) :
  n_branches nd = ∅ → (∀ w, P w → n < next_id w ∧ nodes w !! n = None ∧ Q w) → stable Q →
  confined P (modify (set_nodes (<[n := nd]>))) (λ _, Q).
Proof.
  intros Hnd HP HQ. apply confined_modify. intros w [H1 H2 H3 H4] Hk (Hn & Hnone & HQw)%HP.
  assert (frame t k w (set_nodes (<[n := nd]>) w)) as Hf.
  { apply frame_nodes. intros n' nd' Hn'. rewrite lookup_insert_ne by congruence. naive_solver. }
  split_and!; [|done|by eapply HQ]. split; simpl; try done.
  - intros n' nd' [[<- _]|[_ Hn']]%lookup_insert_Some; [done|by eapply H1].
  - intros n' nd' y b [[<- <-]|[_ Hn']]%lookup_insert_Some Hb; [by rewrite Hnd in Hb|by eapply H4].
Qed.

Lemma confined_foldM_P {A B} (f : A → B → M world A) l a (P : world → Prop) :
  stable P → (∀ a b, confined P (f a b) (λ _, P)) → confined P (foldM f a l) (λ _, P).
Proof. intros HP Hf. by apply (confined_foldM (λ _, P)). Qed.

Section nodes.
Context {HSc : Schema} {HHa : Hashing} {HOr : DictOrder}.

Lemma confined_mknode fuel data P : 0 < k → stable P → confined P (mknode fuel data) (λ _, P).
Proof.
  intros Hk0. revert data P. induction fuel as [|fuel IH]; intros data P HP; [apply confined_raise|]. cbn [mknode].
  eapply confined_seq; [by apply confined_fresh|intros n].
  set (R := λ w, k ≤ n ∧ P w). assert (stable R) as HR by (apply stable_and; [apply stable_pure|done]).
  eapply confined_seq with (Q := λ _, R); [apply confined_add_node; [done|unfold R; naive_solver|done]|intros []].
  eapply confined_seq; [apply confined_read, readonly_lift|intros cfields].
  assert (∀ A v (f : nat → M world A), (∀ r, confined R (f r) (λ _, R)) →
    confined R (c ← mknode fuel v; r ← latest c; f r) (λ _, R)) as Hchild.
  { intros A v f Hf. eapply confined_seq; [by apply IH|intros c].
    eapply confined_seq; [apply confined_read, readonly_latest|intros r]. apply Hf. }
  eapply confined_seq with (Q := λ _, R); [|intros children].
  - apply confined_foldM_P; [done|]. intros children [name field].
    destruct (ct_is_container field); [case_decide|].
    + eapply confined_seq with (Q := λ _, R); [|intros l; by apply confined_ret].
      apply confined_foldM_P; [done|]. intros l v. apply Hchild. intros r. by apply confined_ret.
    + eapply confined_seq with (Q := λ _, R); [|intros l; by apply confined_ret].
      apply confined_foldM_P; [done|]. intros l v. apply Hchild. intros r.
      case_decide; [apply confined_raise|by apply confined_ret].
    + apply Hchild. intros r. by apply confined_ret.
  - eapply confined_seq; [by apply confined_new_branch|intros b].
    set (R' := λ w, is_new n b None w ∧ R w).
    assert (stable R') as HR' by (apply stable_and; [apply stable_is_new|done]).
    eapply confined_seq; [by apply confined_mkrev|intros r].
    eapply confined_seq with (Q := λ _, R'); [|intros []].
    + eapply confined_pre; [|by apply confined_make_latest]. intros w Hw. split; [|done].
      right. unfold R', R in Hw. naive_solver.
    + intros w Hw Hk Hpre. assert (k ≤ n) by (unfold R', R in Hpre; naive_solver).
      eapply (confined_seq _ _ R' (λ _, P)); [apply confined_set_branch; [by left|by intros w' [? [? ?]]|done]| |done..].
      intros []. by apply confined_ret.
Qed.

Context (run_callback : nat → context → M world context).

(** Callbacks that, like the code that runs them, keep to the transaction. *)
Definition callbacks_confined : Prop :=
  ∀ cb c, confined (λ _, True) (run_callback cb c) (λ _ _, True).

Context (Hk0 : 0 < k) (Hcb : callbacks_confined).

Lemma confined_carry {A} (m : M world A) P :
  stable P → confined (λ _, True) m (λ _ _, True) → confined P m (λ _, P).
Proof.
  intros HP Hm w Hw Hn HPw. specialize (Hm w Hw Hn I).
  destruct (m w) as [[a|e] w1]; destruct Hm as (Hw1 & Hf1 & HQ); split_and!; eauto.
Qed.

Lemma confined_node_callbacks n ct c P : stable P → confined P (node_callbacks run_callback n ct c) (λ _, P).
Proof.
  intros HP. unfold node_callbacks. eapply confined_seq; [apply confined_read, readonly_deref_node|intros nd].
  destruct (n_proxy nd) as [p|]; [|by apply confined_ret]. unfold invoke_callbacks.
  apply confined_foldM_P; [done|]. intros c' cb w Hw Hn HPw.
  pose proof (confined_carry _ P HP (Hcb cb c') w Hw Hn HPw) as Hrun. unfold invoke_one.
  destruct (run_callback cb c' w) as [[c2|e] w']; destruct Hrun as (? & ? & ?); [done|]. by destruct e.
Qed.

Lemma confined_replace_child b r n name cs anns P : stable P →
  confined (λ w, is_txb b w ∧ P w) (replace_child b r n name cs anns) (λ _, P).
Proof.
  intros HP. unfold replace_child.
  assert (stable (λ w, is_txb b w ∧ P w)) by (apply stable_and; [apply stable_is_txb|done]).
  eapply confined_seq; [by apply confined_update_children|intros r'].
  eapply confined_seq with (Q := λ _, P); [|intros []; by apply confined_ret].
  eapply confined_pre; [|by apply confined_make_latest]. intros w [Hb HPw]. split; [by left|done].
Qed.

Lemma confined_do_update n b data strict P : stable P →
  confined (λ w, is_txb b w ∧ P w) (do_update run_callback n b data strict) (λ _, P).
Proof.
  intros HP. unfold do_update. set (R := λ w, is_txb b w ∧ P w).
  assert (stable R) by (apply stable_and; [apply stable_is_txb|done]).
  eapply confined_seq; [apply confined_read, readonly_deref_node|intros nd].
  case_decide; [apply confined_raise|].
  eapply confined_seq; [apply confined_read, readonly_lift|intros cfields].
  eapply confined_seq; [apply confined_read, readonly_lift|intros []].
  eapply confined_seq; [by apply confined_node_callbacks|intros c].
  eapply confined_seq; [apply confined_read, readonly_latest_of|intros l].
  eapply confined_seq; [apply confined_read, readonly_deref_rev|intros lr].
  case_decide; [apply confined_ret; by intros w []|].
  eapply confined_seq; [apply confined_read; destruct strict; ro|intros []].
  eapply confined_seq; [by apply confined_update_data|intros r].
  eapply confined_seq; [apply confined_read, readonly_deref_rev|intros rv].
  eapply confined_seq with (Q := λ _, P); [|intros []; by apply confined_ret].
  eapply confined_pre; [|by apply confined_make_latest]. intros w [Hb HPw]. split; [by left|done].
Qed.

(** The part shared by the three operations: the child at a key. *)
Ltac reads :=
  repeat first
    [ eapply confined_seq; [apply confined_read; solve [auto with readonly | apply readonly_from_some]|intros ?]
    | apply confined_raise
    | match goal with |- confined _ (let '(_, _) := ?x in _) _ => destruct x end
    | match goal with |- confined _ (if ?x then _ else _) _ => destruct x end ].

Lemma confined_update fuel n path data strict P : stable P →
  confined P (update run_callback fuel n path data strict (Some t)) (λ _, P).
Proof.
  revert n path P. induction fuel as [|fuel IH]; intros n path P HP; [apply confined_raise|]. cbn [update].
  eapply confined_seq; [by apply confined_get_branch|intros b].
  set (R := λ w, is_txb b w ∧ P w).
  assert (stable R) by (apply stable_and; [apply stable_is_txb|done]).
  case_decide; [by apply confined_do_update|]. reads.
  - eapply confined_seq; [by apply IH|intros new_child]. reads.
    + eapply confined_seq with (Q := λ _, R); [case_decide; [by apply confined_clear_hash|by apply confined_ret]|intros []].
      eapply confined_conseq; [apply (confined_read _ R), readonly_latest_of|done|by intros ?? []].
    + by apply confined_replace_child.
  - eapply confined_seq; [by apply IH|intros new_child]. by apply confined_replace_child.
Qed.

Lemma confined_add fuel n path data P : stable P →
  confined P (add run_callback fuel n path data (Some t)) (λ _, P).
Proof.
  revert n path P. induction fuel as [|fuel IH]; intros n path P HP; [apply confined_raise|]. cbn [add].
  case_decide; [apply confined_raise|].
  eapply confined_seq; [by apply confined_get_branch|intros b].
  set (R := λ w, is_txb b w ∧ P w).
  assert (stable R) by (apply stable_and; [apply stable_is_txb|done]). reads.
  - eapply confined_seq; [by apply confined_node_callbacks|intros c]. reads.
    eapply confined_seq; [apply confined_read, readonly_gets|intros found].
    destruct found; [apply confined_raise|].
    eapply confined_seq; [by apply confined_mknode|intros child]. reads. by apply confined_replace_child.
  - eapply confined_seq; [by apply IH|intros new_child]. by apply confined_replace_child.
Qed.

Lemma confined_remove fuel n path P : stable P →
  confined P (ConfigNode.remove run_callback fuel n path (Some t)) (λ _, P).
Proof.
  revert n path P. induction fuel as [|fuel IH]; intros n path P HP; [apply confined_raise|]. cbn [ConfigNode.remove].
  case_decide; [apply confined_raise|].
  eapply confined_seq; [by apply confined_get_branch|intros b].
  set (R := λ w, is_txb b w ∧ P w).
  assert (stable R) by (apply stable_and; [apply stable_is_txb|done]). reads.
  - eapply confined_seq; [by apply confined_node_callbacks|intros c]. by apply confined_replace_child.
  - eapply confined_seq; [by apply IH|intros new_child]. by apply confined_replace_child.
Qed.

End nodes.

End confined.

(** ** What a node shows *)
Section view.
Context {HSc : Schema} {HHa : Hashing} {HOr : DictOrder}.

(** The data under a node on one of its branches, to the given depth. *)
Definition view (w : world) (n : nat) (x : option string) (depth : Z) : result msg :=
  nd ← opt AttributeError (nodes w !! n);
  b ← opt KeyError (n_branches nd !! x);
  br ← opt AttributeError (branches w !! b);
  r ← opt AttributeError (b_latest br);
  rev_get (S r) w r depth.

(** References to revisions lead somewhere. *)
Definition closed (w : world) : Prop :=
  map_Forall (λ _ br, match b_latest br with Some l => is_Some (revs w !! l) | None => True end) (branches w) ∧
  map_Forall (λ _ rv, map_Forall (λ _ cs, Forall (λ c, is_Some (revs w !! c)) cs) (r_children rv)) (revs w).

Lemma mapM_result_ext {A B} (f g : A → result B) l :
  (∀ x, x ∈ l → f x = g x) → mapM f l = mapM g l.
Proof.
  induction l as [|x l IH]; intros Hfg; [done|]. cbn. rewrite Hfg by set_solver.
  destruct (g x); cbn; [|done]. rewrite IH by set_solver. done.
Qed.

Lemma rev_get_frame t k w w' : closed w → frame t k w w' →
  ∀ fuel r depth, is_Some (revs w !! r) → rev_get fuel w' r depth = rev_get fuel w r depth.
Proof.
  intros [_ Hcl] Hf. induction fuel as [|fuel IH]; intros r depth [rv Hr]; [done|]. cbn [rev_get].
  destruct (fr_revs _ _ _ _ Hf _ _ Hr) as (rv' & Hr' & E1 & E2 & E3). rewrite Hr, Hr'. cbn. rewrite E2.
  case_decide; [done|]. destruct (children_fields _) as [cf|]; [|done]. cbn.
  specialize (Hcl r rv Hr). rewrite E3.
  erewrite mapM_result_ext; [done|]. intros [name field] _. cbn.
  destruct (r_children rv !! name) as [cs|] eqn:Hcs; [|done]. cbn. specialize (Hcl name cs Hcs).
  rewrite Forall_forall in Hcl. destruct (ct_is_container field).
  - erewrite mapM_result_ext; [done|]. intros c Hc. apply IH. by apply Hcl.
  - destruct cs as [|c cs]; [done|]. cbn. rewrite IH; [done|]. apply Hcl. set_solver.
Qed.

Lemma view_frame t k w w' n x depth : wf w → closed w → frame t k w w' → next_id w ≤ k → x ≠ Some t →
  is_Some (nodes w !! n) → view w' n x depth = view w n x depth.
Proof.
  intros Hwf Hcl Hf Hk Hx [nd Hn]. unfold view.
  destruct (fr_nodes _ _ _ _ Hf _ _ Hn) as (nd' & Hn' & _ & Hold). rewrite Hn, Hn'. cbn [opt mbind result_bind].
  destruct Hold as [_ Hbr]; [pose proof (wf_nodes _ Hwf _ _ Hn); lia|]. rewrite Hbr by done.
  destruct (n_branches nd !! x) as [b|] eqn:Hb; [|done]. cbn [opt mbind result_bind].
  destruct (wf_own _ Hwf _ _ _ _ Hn Hb) as (br & Hbr' & Ht & _).
  destruct (fr_branches _ _ _ _ Hf _ _ Hbr') as (br' & Hbr2 & _ & _ & Heq). rewrite Hbr', Hbr2. cbn [opt mbind result_bind].
  rewrite Heq; [|pose proof (wf_branches _ Hwf _ _ Hbr'); lia|congruence].
  destruct (b_latest br) as [r|] eqn:Hl; [|done]. eapply rev_get_frame; [done..|].
  destruct Hcl as [Hcl _]. specialize (Hcl b br Hbr'). simpl in Hcl. by rewrite Hl in Hcl.
Qed.

End view.

(** ** Properties *)
Section properties.
Context {HSc : Schema} {HHa : Hashing} {HOr : DictOrder}.
Context (run_callback : nat → context → M world context) (budget : nat).

(** The three ways to change the tree. *)
Inductive tx_op :=
  | TxUpdate (path : string) (data : msg) (strict : bool)
  | TxAdd (path : string) (data : msg)
  | TxRemove (path : string).

Definition run_op (op : tx_op) (txid : option string) : M world nat :=
  match op with
  | TxUpdate path data strict => root_update run_callback budget path data strict txid
  | TxAdd path data => root_add run_callback budget path data txid
  | TxRemove path => root_remove run_callback budget path txid
  end.

Lemma execute_nothing w :
  cb_queue w = [] → note_queue w = [] → execute_deferred_callbacks run_callback budget w = (Ok tt, w).
Proof.
  intros H1 H2. unfold execute_deferred_callbacks.
  assert (run_callbacks run_callback budget w = (Ok tt, w)) as Hr.
  { destruct budget; cbn [run_callbacks]; rewrite (bind_ok _ _ w (cb_queue w) w), H1 by done; done. }
  rewrite (bind_ok _ _ _ _ _ Hr). rewrite (bind_ok _ _ w (length (note_queue w)) w), H2 by done.
  cbn [length run_notifications]. by rewrite (bind_ok _ _ w (note_queue w) w), H2 by done.
Qed.

Lemma root_op_confined {A} t k (m : M world A) w :
  wf w → k ≤ next_id w → note_queue w = [] → confined t k (λ _, True) m (λ _ _, True) →
  let w' := (_ ← check_callback_queue; try_finally (_ ← dirtied (Some t); m) (execute_deferred_callbacks run_callback budget)) w in
  wf w'.2 ∧ frame t k w w'.2.
Proof.
  intros Hw Hk Hnq Hm. cbv zeta.
  assert (check_callback_queue w = (if decide (cb_queue w = []) then Ok tt else Err AssertionError, w)) as Hq
    by (unfold check_callback_queue, mbind, M_bind, gets; by destruct (cb_queue w)).
  destruct (decide (cb_queue w = [])) as [Hnil|].
  2:{ rewrite (bind_err _ _ _ _ _ Hq). split; [done|reflexivity]. }
  rewrite (bind_ok _ _ _ _ _ Hq).
  unfold try_finally.
  assert (confined t k (λ _, True) (_ ← dirtied (Some t); m) (λ _ _, True)) as Hdm.
  { eapply confined_seq; [apply confined_read|intros []; exact Hm]. unfold dirtied. ro. }
  specialize (Hdm w Hw Hk I). destruct ((dirtied (Some t) ≫= _) w) as [r w1].
  destruct Hdm as (Hw1 & Hf1 & _). destruct (fr_queues _ _ _ _ Hf1) as (E1 & E2 & _).
  rewrite execute_nothing by congruence. done.
Qed.

(** C3 What an update, an addition or a removal does inside a transaction,
    whether it returns or raises, is invisible outside it: the committed tree
    and the other transactions show the same data at every node and depth,
    nothing is announced or queued, and no stored entry changes; the
    assumption is that the validation callbacks keep to the transaction too. *)
Theorem tx_isolated t w op
    (Hwf : wf w) (Hcl : closed w) (Hroot : 0 < next_id w) (Hnq : note_queue w = [])
    (Hcb : callbacks_confined t (next_id w) run_callback) :
  let w' := (run_op op (Some t) w).2 in
  wf w' ∧
  (∀ n x depth, x ≠ Some t → is_Some (nodes w !! n) → view w' n x depth = view w n x depth) ∧
  (cb_queue w' = cb_queue w ∧ note_queue w' = note_queue w ∧ published w' = published w) ∧
  (∀ kv, kv_store w = Some kv → ∃ kv', kv_store w' = Some kv' ∧ kv ⊆ kv').
Proof.
  assert (wf (run_op op (Some t) w).2 ∧ frame t (next_id w) w (run_op op (Some t) w).2) as [Hw' Hf].
  { destruct op; apply root_op_confined; try done.
    - by apply confined_update.
    - by apply confined_add.
    - by apply confined_remove. }
  split_and!; [done| |apply Hf..|].
  - intros n x depth Hx Hn. by eapply view_frame.
  - intros kv Hkv. pose proof (fr_kv _ _ _ _ Hf) as H. rewrite Hkv in H.
    destruct (kv_store (run_op op (Some t) w).2) as [kv'|]; [by exists kv'|done].
Qed.

(** The nodes with the transaction's branch removed from the dirty ones. *)
Definition drop_branch (t : string) (s : gset nat) (n : nat) (nd : node) : node :=
  if decide (n ∈ s) then Node (n_type nd) (delete (Some t) (n_branches nd)) (n_tags nd) (n_proxy nd) else nd.

Lemma del_branch_ok n t w nd b :
  nodes w !! n = Some nd → n_branches nd !! Some t = Some b →
  del_txbranch n t w = (Ok tt, set_nodes (alter (λ nd, Node (n_type nd) (delete (Some t) (n_branches nd)) (n_tags nd) (n_proxy nd)) n) w).
Proof.
  intros Hn Hb. unfold del_txbranch, del_branch.
  assert (deref_node n w = (Ok nd, w)) as Hd by (unfold deref_node, mbind, M_bind, gets; by rewrite Hn).
  rewrite (bind_ok _ _ _ _ _ Hd), Hb. done.
Qed.

Lemma del_branches_ok t l w :
  NoDup l → (∀ n, n ∈ l → ∃ nd, nodes w !! n = Some nd ∧ is_Some (n_branches nd !! Some t)) →
  forM_ (λ n, del_txbranch n t) l w =
    (Ok tt, set_nodes (λ m, map_imap (λ n nd, Some (drop_branch t (list_to_set l) n nd)) m) w).
Proof.
  revert w. induction l as [|n l IH]; intros w Hnd Hl.
  - cbn [forM_]. unfold mret, M_ret. f_equal. destruct w. unfold set_nodes. simpl. f_equal.
    apply map_eq. intros i. rewrite map_lookup_imap. by destruct (_ !! i).
  - apply NoDup_cons in Hnd as [Hnl Hnd]. cbn [forM_].
    destruct (Hl n) as (nd & Hn & b & Hb); [set_solver|].
    rewrite (bind_ok _ _ _ _ _ (del_branch_ok _ _ _ _ _ Hn Hb)), IH; [|done|].
    + f_equal. unfold set_nodes. simpl. f_equal. apply map_eq. intros i. rewrite !map_lookup_imap.
      destruct (decide (i = n)) as [->|Hne].
      * rewrite lookup_alter_eq, Hn. simpl. unfold drop_branch. rewrite decide_False, decide_True by set_solver. done.
      * rewrite lookup_alter_ne by done. destruct (nodes w !! i); [|done]. simpl. unfold drop_branch.
        destruct (decide (i ∈ _)), (decide (i ∈ _)); set_solver || done.
    + intros n' Hn'. destruct (Hl n') as (nd' & Hn2 & Hb2); [set_solver|]. exists nd'. split; [|done].
      simpl. rewrite lookup_alter_ne by (intros ->; set_solver). done.
Qed.

(** C24 A commit whose check finds a conflict raises and is atomic: of the whole
    heap only the transaction itself is gone, its branch at every node it had
    touched and its entry among the open transactions. *)
Theorem conflict_is_atomic t w s
    (Hconflict : (merge_txbranch (S (next_id w)) root_id t true w).1 = Err MergeConflictException)
    (Hs : dirty_nodes w !! t = Some s)
    (Hdirty : set_Forall (λ n, is_Some (nodes w !! n ≫= λ nd, n_branches nd !! Some t)) s) :
  fold_txbranch run_callback budget t w =
    (Err MergeConflictException,
     set_dirty_nodes (delete t) (set_nodes (map_imap (λ n nd, Some (drop_branch t s n nd))) w)).
Proof.
  unfold fold_txbranch. rewrite (bind_ok _ _ w (S (next_id w)) w) by done.
  pose proof (readonly_dry_run (S (next_id w)) root_id t w) as Hro.
  destruct (merge_txbranch (S (next_id w)) root_id t true w) as [r w1] eqn:Hm. simpl in Hro, Hconflict. subst.
  assert (root_del_txbranch t w =
    (Ok tt, set_dirty_nodes (delete t) (set_nodes (map_imap (λ n nd, Some (drop_branch t s n nd))) w))) as Hdel.
  { unfold root_del_txbranch. rewrite (bind_ok _ _ w (dirty_nodes w) w), Hs by done. cbn [from_some].
    erewrite bind_ok by done.
    erewrite bind_ok; [|apply del_branches_ok].
    - unfold modify. do 2 f_equal. unfold set_nodes. f_equal. apply map_imap_ext. intros n.
      destruct (nodes w !! n) as [nd|]; [|done]. cbn. f_equal. unfold drop_branch.
      assert (n ∈ (list_to_set (iter_order (elements s)) : gset nat) ↔ n ∈ s) as Hin
        by (rewrite elem_of_list_to_set, iter_order_perm, elem_of_elements; done).
      destruct (decide _), (decide _); naive_solver.
    - rewrite iter_order_perm. apply NoDup_elements.
    - intros n Hn. rewrite iter_order_perm, elem_of_elements in Hn. specialize (Hdirty n Hn). cbn in Hdirty.
      destruct (nodes w !! n) as [nd|]; [by exists nd|by apply is_Some_None in Hdirty]. }
  erewrite bind_err; [done|]. rewrite Hm. by rewrite (bind_ok _ _ _ _ _ Hdel).
Qed.

End properties.

(** ** Witnesses *)

Definition wf_check (w : world) : bool :=
  bool_decide (map_Forall (λ n _, n < next_id w) (nodes w)) &&
  bool_decide (map_Forall (λ n _, n < next_id w) (branches w)) &&
  bool_decide (map_Forall (λ n _, n < next_id w) (revs w)) &&
  bool_decide (map_Forall (λ n nd, map_Forall (λ x b,
    ((λ br, (b_txid br, b_node br)) <$> branches w !! b) = Some (x, n)) (n_branches nd)) (nodes w)).

Lemma wf_check_ok w : wf_check w = true → wf w.
Proof.
  unfold wf_check. rewrite !andb_true_iff, !bool_decide_eq_true. intros [[[H1 H2] H3] H4].
  split; [exact H1|exact H2|exact H3|]. intros n nd x b Hn Hb. specialize (H4 n nd Hn x b Hb). simpl in H4.
  destruct (branches w !! b) as [br|]; simplify_eq/=. by exists br.
Qed.

#[export] Instance closed_dec w : Decision (closed w).
Proof.
  assert (∀ br : branch, Decision (match b_latest br with Some l => is_Some (revs w !! l) | None => True end))
    by (intros br; destruct (b_latest br); apply _).
  unfold closed. apply _.
Defined.

Lemma accept_all_confined t k : callbacks_confined t k accept_all.
Proof. intros cb c. by apply confined_ret. Qed.

Lemma tx_isolated_witness :
  view (run_op accept_all 100 (TxUpdate "/devices/d1" (device "d1" "ponsim") false) (Some "t1") tx_world).2 0 None (-1) =
  view tx_world 0 None (-1).
Proof.
  apply (tx_isolated accept_all 100 "t1" tx_world (TxUpdate "/devices/d1" (device "d1" "ponsim") false)).
  - apply wf_check_ok. vm_compute. reflexivity.
  - apply (bool_decide_unpack _). vm_compute. exact I.
  - vm_compute. lia.
  - vm_compute. reflexivity.
  - apply accept_all_confined.
  - discriminate.
  - apply (bool_decide_unpack _). vm_compute. exact I.
Defined.

Lemma conflict_is_atomic_witness :
  (fold_txbranch accept_all 100 "t1" moved_world).1 = Err MergeConflictException.
Proof.
  rewrite (conflict_is_atomic accept_all 100 "t1" moved_world (default ∅ (dirty_nodes moved_world !! "t1"))).
  - reflexivity.
  - vm_compute. reflexivity.
  - vm_compute. reflexivity.
  - apply (bool_decide_unpack _). vm_compute. exact I.
Defined.

Lemma moved_data_conflicts_witness :
  merge_3way (λ n, mret (Some n)) 19 24 26 true moved_world = (Err MergeConflictException, moved_world).
Proof.
  eapply (moved_data_conflicts (λ n, mret (Some n)) 19 24 26 true moved_world).
  - vm_compute. reflexivity.
  - vm_compute. reflexivity.
  - vm_compute. reflexivity.
  - vm_compute. discriminate.
  - vm_compute. discriminate.
Defined.

Lemma keyed_merge_pointwise_witness :
  let fork := devices_of tx_world 19 in
  let src := devices_of tx_world 30 in
  let dst := devices_of tx_world 33 in
  let m3 k := merge3 tx_world id (at_key tx_world "id" fork k) (at_key tx_world "id" src k) (at_key tx_world "id" dst k) in
  let run := merge_keyed_both (λ n, mret (Some n)) "id" fork src dst [] tx_world in
  ((∃ k, m3 k = Err MergeConflictException) ∧ run.1 = Err MergeConflictException) ∨
  ((∀ k, m3 k ≠ Err MergeConflictException) ∧
    ∃ l chs' w', run = (Ok (Some <$> l, chs'), w') ∧
      keyed w' "id" l ∧ ∀ k, m3 k = Ok (at_key w' "id" l k)).
Proof.
  apply (keyed_merge_pointwise tx_world "id" (devices_of tx_world 19) (devices_of tx_world 30) (devices_of tx_world 33)
    (λ n, mret (Some n)) id []).
  - apply (bool_decide_unpack _). vm_compute. exact I.
  - apply (bool_decide_unpack _). vm_compute. exact I.
  - apply (bool_decide_unpack _). vm_compute. exact I.
  - apply (bool_decide_unpack _). vm_compute. exact I.
  - assert (Forall (λ n, is_Some (revs tx_world !! n)) (devices_of tx_world 30 ++ devices_of tx_world 33)) as Hex
      by (apply (bool_decide_unpack _); vm_compute; exact I).
    intros n w Hn Hsub. rewrite Forall_forall in Hex. destruct (Hex n Hn) as [rv Hr].
    exists w, rv. split_and!; [done|done|by eapply lookup_weaken|]. unfold entry. by rewrite Hr.
  - intros i i' j j' k k' H1 H2 H3 H4 H5 H6 Hlt. exfalso.
    clear H3 H4 H6. vm_compute in H1, H2. destruct i as [|[|i]].
    + injection H1 as <-. vm_compute in H5. discriminate H5.
    + clear H5. destruct i' as [|[|i']]; [lia|lia|discriminate H2].
    + discriminate H1.
Defined.

(** ** Defects, on the sample tree *)

(** While a transaction is open a device changes and changes back; an update in
    the transaction that repeats the device's data then clears the hash of the
    committed revision, and no sibling of it can be updated any more. *)
Definition cleared_world : world :=
  let w1 := (root_mk_txbranch "t1" sample_world).2 in
  let w2 := (root_update accept_all 100 "/devices/d1" (device "d1" "ponsim") false None w1).2 in
  let w3 := (root_update accept_all 100 "/devices/d1" (device "d1" "olt") false None w2).2 in
  (root_update accept_all 100 "/devices/d1" (device "d1" "olt") false (Some "t1") w3).2.

Example cleared_hash_blocks_siblings :
  (root_update accept_all 100 "/devices/d2" (device "d2" "ponsim") false None cleared_world).1 = Err TypeError.
Proof. vm_compute. reflexivity. Qed.

(** A transaction that adds a device and then updates it cannot be committed,
    and is left open. *)
Definition added_world : world :=
  let w1 := (root_mk_txbranch "t1" sample_world).2 in
  let w2 := (root_add accept_all 100 "/devices" (device "d3" "onu") (Some "t1") w1).2 in
  (root_update accept_all 100 "/devices/d3" (device "d3" "ponsim") false (Some "t1") w2).2.

Example added_then_updated_is_stuck :
  (fold_txbranch accept_all 100 "t1" added_world).1 = Err AttributeError ∧
  is_Some (dirty_nodes (fold_txbranch accept_all 100 "t1" added_world).2 !! "t1").
Proof. split; [vm_compute; reflexivity|apply (bool_decide_unpack _); vm_compute; exact I]. Qed.

(** Removing [d1] and adding it back outside a transaction that removes both
    devices changes the order, and the merge pops by positions that are gone. *)
Definition reordered_world : world :=
  let w1 := (root_mk_txbranch "t1" sample_world).2 in
  let w2 := (root_remove accept_all 100 "/devices/d1" None w1).2 in
  let w3 := (root_add accept_all 100 "/devices" (device "d1" "olt") None w2).2 in
  let w4 := (root_remove accept_all 100 "/devices/d1" (Some "t1") w3).2 in
  (root_remove accept_all 100 "/devices/d2" (Some "t1") w4).2.

Example reordered_removal_fails :
  (fold_txbranch accept_all 100 "t1" reordered_world).1 = Err IndexError.
Proof. vm_compute. reflexivity. Qed.

(** A callback that returns nothing hides the data from the next callback of
    the same kind. *)
Example callback_result_replaces_context c :
  foldM (invoke_one (λ cb c, mret (if decide (cb = 0) then CNone else c)) false) c [0; 1] sample_world =
  (Ok CNone, sample_world).
Proof. reflexivity. Qed.
