(* ===== verification/TaskRunner.v ===== *)
(** * Tasks of OpenOMCI and the runner that schedules them

    The class [Task] of src/voltha/extensions/omci/tasks/task.py (the part all
    tasks share) and the class [TaskRunner] of tasks/task_runner.py, which
    limits the tasks that use an ONU's management channel: at most one when it
    asks for exclusive use, by priority and then in the order of arrival.

    Tasks are objects with an identifier that is never reused, so queues hold
    identifiers and [objs] is the heap.  The runner's state includes the part
    of the reactor it uses: the calls it has asked for with
    [reactor.callLater(0, ...)], in no particular order.  Twisted's Deferred is
    the class [Deferreds], with the laws [DeferredLaws]. *)
From S2P Require Import Prelude.
From stdpp Require Import base gmap list strings sorting relations.
From Stdlib Require Import ZArith Lia.

Local Open Scope Z_scope.

(** A Deferred without a canceller: whether and how it has fired, firing it
    ([None]: [AlreadyCalledError]) and cancelling it. *)
Class Deferreds := {
  dfr : Type;
  Deferred : dfr;
  fired : dfr → option bool;
  fire : bool → dfr → option dfr;
  dcancel : dfr → dfr;
}.

Class DeferredLaws {HD : Deferreds} : Prop := {
  new_not_fired : fired Deferred = None;
  fire_once : ∀ ok d, fired d = None → ∃ d', fire ok d = Some d' ∧ fired d' = Some ok;
  cancel_fails : ∀ d, fired d = None → fired (dcancel d) = Some false;
  cancel_keeps : ∀ d r, fired d = Some r → fired (dcancel d) = Some r;
}.

(** An instance: the outcome, and whether it came from cancelling, after
    which the next attempt to fire is ignored. *)
Definition plain_deferreds : Deferreds := {|
  dfr := option (bool * bool);
  Deferred := None;
  fired := fmap fst;
  fire ok d := match d with
               | None => Some (Some (ok, false))
               | Some (r, true) => Some (Some (r, false))
               | Some (_, false) => None
               end;
  dcancel d := match d with None => Some (false, true) | _ => d end;
|}.

Lemma plain_deferred_laws : @DeferredLaws plain_deferreds.
Proof. split; [done| | |]; simpl; intros; destruct d as [[]|]; naive_solver. Qed.

Section task_runner.
Context {HO : DictOrder} {HD : Deferreds}.

(** ** State *)

(** A task; [t_callbacks] counts how often the runner has added its two
    callbacks to the Deferred. *)
Record task := Task {
  t_priority : Z;
  t_exclusive : bool;
  t_running : bool;
  t_deferred : option dfr;
  t_callbacks : nat;
  t_agent : bool;
}.

Inductive call :=
  | CStart (id : Z)
  | CRunNext.

#[export] Instance call_eq_dec : EqDecision call.
Proof. solve_decision. Defined.

(** [_running_queue] maps each task's identifier to the task: the set of the
    identifiers. *)
Record runner := Runner {
  pending_queue : gmap Z (list Z);
  running_queue : gset Z;
  active : bool;
  successful_tasks : Z;
  failed_tasks : Z;
  objs : gmap Z task;
  next_task_id : Z;
  calls : list call;
}.

Definition set_pending (f : gmap Z (list Z) → gmap Z (list Z)) (s : runner) : runner :=
  Runner (f (pending_queue s)) (running_queue s) (active s) (successful_tasks s) (failed_tasks s)
    (objs s) (next_task_id s) (calls s).
Definition set_running (f : gset Z → gset Z) (s : runner) : runner :=
  Runner (pending_queue s) (f (running_queue s)) (active s) (successful_tasks s) (failed_tasks s)
    (objs s) (next_task_id s) (calls s).
Definition set_active (b : bool) (s : runner) : runner :=
  Runner (pending_queue s) (running_queue s) b (successful_tasks s) (failed_tasks s)
    (objs s) (next_task_id s) (calls s).
Definition set_counts (f g : Z → Z) (s : runner) : runner :=
  Runner (pending_queue s) (running_queue s) (active s) (f (successful_tasks s)) (g (failed_tasks s))
    (objs s) (next_task_id s) (calls s).
Definition set_objs (f : gmap Z task → gmap Z task) (s : runner) : runner :=
  Runner (pending_queue s) (running_queue s) (active s) (successful_tasks s) (failed_tasks s)
    (f (objs s)) (next_task_id s) (calls s).
Definition set_calls (f : list call → list call) (s : runner) : runner :=
  Runner (pending_queue s) (running_queue s) (active s) (successful_tasks s) (failed_tasks s)
    (objs s) (next_task_id s) (f (calls s)).

Definition mkrunner (next_id : Z) : runner := Runner ∅ ∅ false 0 0 ∅ next_id [].

(** [reactor.callLater(0, c)] *)
Definition callLater (c : call) : M runner unit := modify (set_calls (λ l, l ++ [c])).

Definition the_task (id : Z) : M runner task := o ← gets objs; from_some KeyError (o !! id).

Definition upd_task (id : Z) (f : task → task) : M runner unit := modify (set_objs (alter f id)).

(** ** Tasks *)
Definition DEFAULT_PRIORITY : Z := 128.

Definition new_task (priority : Z) (exclusive : bool) : M runner Z :=
  _ ← passert (bool_decide (0 ≤ priority ≤ 255));
  n ← gets next_task_id;
  let id := n + 1 in
  _ ← modify (λ s, Runner (pending_queue s) (running_queue s) (active s) (successful_tasks s)
                     (failed_tasks s) (<[id := Task priority exclusive false (Some Deferred) 0 true]> (objs s))
                     id (calls s));
  mret id.

Definition set_deferred (d : option dfr) (t : task) : task :=
  Task (t_priority t) (t_exclusive t) (t_running t) d (t_callbacks t) (t_agent t).
Definition set_trunning (b : bool) (t : task) : task :=
  Task (t_priority t) (t_exclusive t) b (t_deferred t) (t_callbacks t) (t_agent t).
Definition add_callback (t : task) : task :=
  Task (t_priority t) (t_exclusive t) (t_running t) (t_deferred t) (S (t_callbacks t)) (t_agent t).
Definition drop_agent (t : task) : task :=
  Task (t_priority t) (t_exclusive t) (t_running t) (t_deferred t) (t_callbacks t) false.

(** ** The runner *)
Definition pending_tasks (s : runner) : nat := sum_list (length <$> (map_to_list (pending_queue s)).*2).
Definition running_tasks (s : runner) : nat := size (running_queue s).

(** [priorities.sort(reverse=True)] *)
Definition sort_desc (l : list Z) : list Z := merge_sort Z.ge l.

Definition is_exclusive (s : runner) (id : Z) : bool := from_option t_exclusive false (objs s !! id).

(** [depth] is what is left of the interpreter's recursion limit, whose
    [RuntimeError] the caller one level up catches. *)
Fixpoint run_next_task (depth : nat) : M runner unit :=
  match depth with
  | O => raise RuntimeError
  | S depth =>
      s ← gets (λ s, s);
      if active s && bool_decide (pending_queue s ≠ ∅) then
        if existsb (is_exclusive s) (elements (running_queue s)) then mret tt
        else
          swallow
            (let again :=
               p ← gets pending_queue;
               if decide (p ≠ ∅) then run_next_task depth else mret tt in
             match sort_desc (iteritems (pending_queue s)).*1 with
             | [] => again
             | highest :: _ =>
                 queue ← from_some KeyError (pending_queue s !! highest);
                 match queue with
                 | [] => again
                 | next :: rest =>
                     t ← the_task next;
                     if t_exclusive t && bool_decide (running_queue s ≠ ∅) then mret tt
                     else
                       _ ← modify (set_pending (if decide (rest = []) then delete highest else <[highest := rest]>));
                       _ ← modify (set_running ({[next]} ∪.));
                       _ ← callLater (CStart next);
                       again
                 end
             end)
      else mret tt
  end.

Context (depth : nat).

Definition on_task_success (id : Z) : M runner unit :=
  try_finally
    (swallow
       (r ← gets running_queue;
        _ ← passert (bool_decide (id ∈ r));
        _ ← modify (set_counts (Z.add 1) (λ n, n));
        modify (set_running (.∖ {[id]}))))
    (callLater CRunNext).

(** [l.remove(x)] *)
Fixpoint list_remove1 {A} `{EqDecision A} (x : A) (l : list A) : option (list A) :=
  match l with
  | [] => None
  | y :: l => if decide (x = y) then Some l else cons y <$> list_remove1 x l
  end.

Definition on_task_failure (id : Z) : M runner unit :=
  try_finally
    (r ← gets running_queue;
     if decide (id ∈ r) then
       _ ← modify (set_counts (λ n, n) (Z.add 1));
       modify (set_running (.∖ {[id]}))
     else
       pq ← gets pending_queue;
       if existsb (λ '(_, tasks), bool_decide (id ∈ tasks)) (iteritems pq) then
         t ← the_task id;
         q ← from_some KeyError (pq !! t_priority t);
         q ← from_some ValueError (list_remove1 id q);
         modify (set_pending (if decide (q = []) then delete (t_priority t) else <[t_priority t := q]>))
       else raise AssertionError)
    (callLater CRunNext).

(** The callbacks a fired Deferred runs: the runner's, as often as they were
    added; the result passes through them, and an exception in the errback is
    the failure the next one gets. *)
Definition run_callbacks (id : Z) (ok : bool) (n : nat) : M runner unit :=
  forM_ (λ _ : nat, if ok then on_task_success id else swallow (on_task_failure id)) (seq 0 n).

(** [task.deferred.cancel()] *)
Definition cancel_it (id : Z) (d : dfr) : M runner unit :=
  match fired d with
  | Some _ => mret tt
  | None => t ← the_task id; run_callbacks id false (t_callbacks t)
  end.

Definition cancel_deferred (id : Z) : M runner unit :=
  t ← the_task id;
  _ ← upd_task id (set_deferred None);
  match t_deferred t with
  | Some d => match fired d with
              | None => swallow (cancel_it id d)
              | Some _ => mret tt
              end
  | None => mret tt
  end.

Definition task_start (id : Z) : M runner unit :=
  t ← the_task id;
  _ ← passert (match t_deferred t with Some d => bool_decide (fired d = None) | None => false end);
  upd_task id (set_trunning true).

Definition task_stop (id : Z) : M runner unit :=
  _ ← upd_task id (set_trunning false);
  _ ← cancel_deferred id;
  upd_task id drop_agent.

Definition start : M runner unit :=
  s ← gets (λ s, s);
  if active s then mret tt
  else
    _ ← passert (bool_decide (running_queue s = ∅));
    _ ← modify (set_active true);
    run_next_task depth.

(** The keys of [_pending_queue] are the priorities, which have no [cancel]. *)
Definition stop : M runner unit :=
  s ← gets (λ s, s);
  if active s then
    _ ← modify (set_active false);
    _ ← modify (set_pending (λ _, ∅));
    _ ← modify (set_running (λ _, ∅));
    _ ← forM_ (λ t, swallow (task_stop t)) (iteritems (gset_to_gmap tt (running_queue s))).*1;
    forM_ (λ _ : Z, swallow (raise AttributeError)) (iteritems (pending_queue s)).*1
  else mret tt.

Definition queue_task (id : Z) : M runner unit :=
  t ← the_task id;
  _ ← modify (set_pending (λ pq, if decide (is_Some (pq !! t_priority t)) then pq else <[t_priority t := []]> pq));
  d ← from_some AttributeError (t_deferred t);
  _ ← upd_task id add_callback;
  _ ← match fired d with
      | Some true => on_task_success id
      | Some false => swallow (on_task_failure id)
      | None => mret tt
      end;
  _ ← modify (set_pending (alter (λ q, q ++ [id]) (t_priority t)));
  run_next_task depth.

Definition cancel_task (id : Z) : M runner unit :=
  s ← gets (λ s, s);
  if decide (id ∈ running_queue s) then
    _ ← swallow (task_stop id);
    callLater CRunNext
  else if existsb (λ '(_, tasks), bool_decide (id ∈ tasks)) (iteritems (pending_queue s)) then
    swallow
      (t ← the_task id;
       d ← from_some AttributeError (t_deferred t);
       _ ← upd_task id (set_deferred (Some (dcancel d)));
       cancel_it id d)
  else mret tt.

(** ** What happens around the runner *)

(** A task ends: [self.deferred.callback(...)] or [errback(...)]. *)
Definition complete (id : Z) (ok : bool) : M runner unit :=
  t ← the_task id;
  d ← from_some AttributeError (t_deferred t);
  d' ← from_some AlreadyCalledError (fire ok d);
  _ ← upd_task id (set_deferred (Some d'));
  match fired d with
  | None => run_callbacks id ok (t_callbacks t)
  | Some _ => mret tt
  end.

(** The reactor makes one of the calls asked for. *)
Definition perform (c : call) : M runner unit :=
  _ ← modify (set_calls (λ l, default l (list_remove1 c l)));
  match c with
  | CStart id => task_start id
  | CRunNext => run_next_task depth
  end.

End task_runner.

(** ** The order in which tasks run

    The pending tasks, highest priority first and in the order of arrival
    within a priority. *)
Definition order (pq : gmap Z (list Z)) : list Z :=
  sort_desc (elements (dom pq)) ≫= λ p, default [] (pq !! p).

Lemma sort_desc_perm l : sort_desc l ≡ₚ l.
Proof. apply merge_sort_Permutation. Qed.

#[export] Instance Zge_trans : Transitive Z.ge.
Proof. intros ???; lia. Qed.
#[export] Instance Zge_total : Total Z.ge.
Proof. intros ??; lia. Qed.
#[export] Instance Zge_antisymm : AntiSymm eq Z.ge.
Proof. intros ??; lia. Qed.

Lemma sort_desc_sorted l : StronglySorted Z.ge (sort_desc l).
Proof. apply StronglySorted_merge_sort; apply _. Qed.

Lemma sort_desc_proper l k : l ≡ₚ k → sort_desc l = sort_desc k.
Proof.
  intros H. eapply (StronglySorted_unique Z.ge); [apply sort_desc_sorted..|].
  by rewrite !sort_desc_perm.
Qed.

Lemma sort_desc_keys `{DictOrder} (pq : gmap Z (list Z)) :
  sort_desc (iteritems pq).*1 = sort_desc (elements (dom pq)).
Proof.
  apply sort_desc_proper. unfold iteritems. rewrite iter_order_perm.
  apply NoDup_Permutation; [apply NoDup_fst_map_to_list|apply NoDup_elements|].
  intros k. rewrite elem_of_elements, elem_of_dom, list_elem_of_fmap. split.
  - intros ([? v]&->&Hv%elem_of_map_to_list). by exists v.
  - intros [v Hv]. exists (k, v). by rewrite elem_of_map_to_list.
Qed.

Lemma elem_of_order pq id : id ∈ order pq ↔ ∃ p q, pq !! p = Some q ∧ id ∈ q.
Proof.
  unfold order. rewrite list_elem_of_bind. split.
  - intros (p&Hid&_). destruct (pq !! p) as [q|] eqn:Hp; simpl in Hid; [by exists p, q|set_solver].
  - intros (p&q&Hp&Hid). exists p. rewrite Hp. split; [done|].
    rewrite sort_desc_perm, elem_of_elements, elem_of_dom. by exists q.
Qed.

Lemma order_empty pq : map_Forall (λ _ q, q ≠ []) pq → order pq = [] → pq = ∅.
Proof.
  intros Hne Ho. apply map_empty. intros p. destruct (pq !! p) as [q|] eqn:Hp; [|done].
  exfalso. destruct q as [|id q]; [by apply (Hne _ _ Hp)|].
  assert (id ∈ order pq) by (apply elem_of_order; exists p, (id :: q); set_solver).
  rewrite Ho in *. set_solver.
Qed.

Lemma order_perm_values pq : order pq ≡ₚ map_to_list pq ≫= snd.
Proof.
  unfold order. rewrite sort_desc_perm.
  assert (elements (dom pq) ≡ₚ (map_to_list pq).*1) as ->.
  { apply NoDup_Permutation; [apply NoDup_elements|apply NoDup_fst_map_to_list|].
    intros k. rewrite elem_of_elements, elem_of_dom, list_elem_of_fmap. split.
    - intros [v Hv]. exists (k, v). by rewrite elem_of_map_to_list.
    - intros ([? v]&->&Hv%elem_of_map_to_list). by exists v. }
  assert (∀ l, l ⊆ map_to_list pq → l.*1 ≫= (λ p, default [] (pq !! p)) = l ≫= snd) as H; [|by rewrite H].
  intros l; induction l as [|[p q] l IH]; intros Hl; [done|].
  rewrite fmap_cons, !bind_cons, IH by set_solver. f_equal. simpl.
  assert (pq !! p = Some q) as -> by (apply elem_of_map_to_list; set_solver). done.
Qed.

Lemma order_split pq p q : pq !! p = Some q → order pq ≡ₚ q ++ order (delete p pq).
Proof.
  intros Hp. rewrite !order_perm_values. rewrite <-(map_to_list_delete pq p q Hp). done.
Qed.

Lemma order_insert pq p q : pq !! p = None → order (<[p := q]> pq) ≡ₚ q ++ order pq.
Proof.
  intros Hp. rewrite (order_split _ p q) by apply lookup_insert_eq. by rewrite delete_insert_eq, delete_id.
Qed.

(** Taking the first task of the highest priority. *)
Definition pop (h : Z) (rest : list Z) (pq : gmap Z (list Z)) : gmap Z (list Z) :=
  (if decide (rest = []) then delete h else <[h := rest]>) pq.

Lemma bind_ext_in {A B} (f g : A → list B) l : (∀ x, x ∈ l → f x = g x) → l ≫= f = l ≫= g.
Proof.
  induction l as [|x l IH]; intros H; [done|]. rewrite !bind_cons. f_equal; [apply H|apply IH]; set_solver.
Qed.

Lemma order_pop pq h ps next rest :
  sort_desc (elements (dom pq)) = h :: ps → pq !! h = Some (next :: rest) →
  order pq = next :: order (pop h rest pq).
Proof.
  intros Hs Hh. unfold order at 1. rewrite Hs, bind_cons, Hh. simpl. f_equal.
  assert (NoDup (h :: ps)) as [Hnin Hnd]%NoDup_cons.
  { rewrite <-Hs, sort_desc_perm. apply NoDup_elements. }
  assert (StronglySorted Z.ge (h :: ps)) as Hsort by (rewrite <-Hs; apply sort_desc_sorted).
  inversion_clear Hsort as [|?? Hsort' _]. unfold pop, order. case_decide as Hr; [subst rest; simpl|].
  - assert (sort_desc (elements (dom (delete h pq))) = ps) as ->.
    { eapply (StronglySorted_unique Z.ge); [apply sort_desc_sorted|done|].
      apply (Permutation_cons_inv (a := h)). rewrite <-Hs, !sort_desc_perm, dom_delete_L.
      assert (h ∈ dom pq) by (apply elem_of_dom; eauto).
      change (h :: ?l) with ([h] ++ l). rewrite <-(elements_singleton (C := gset Z) h), <-elements_disj_union by set_solver.
      by rewrite <-union_difference_singleton_L. }
    apply bind_ext_in. intros x Hx. by rewrite lookup_delete_ne by set_solver.
  - assert (dom (<[h:=rest]> pq) = dom pq) as -> by (apply dom_insert_lookup_L; eauto).
    rewrite Hs, bind_cons, lookup_insert_eq. simpl. f_equal.
    apply bind_ext_in. intros x Hx. by rewrite lookup_insert_ne by set_solver.
Qed.

(** ** What starting tasks does *)
Fixpoint take_while {A} (f : A → bool) (l : list A) : list A :=
  match l with
  | [] => []
  | x :: l => if f x then x :: take_while f l else []
  end.

Section scheduling.
Context {HO : DictOrder} {HD : Deferreds}.

(** Every queue has a task, and the tasks of a queue have its priority. *)
Definition queues_ok (o : gmap Z task) (pq : gmap Z (list Z)) : Prop :=
  map_Forall (λ p q, q ≠ [] ∧ Forall (λ id, ∃ t, o !! id = Some t ∧ t_priority t = p) q) pq.

Lemma queues_ok_nonempty o pq : queues_ok o pq → order pq = [] → pq = ∅.
Proof. intros H. apply order_empty. intros p q Hp. by destruct (H p q Hp). Qed.

Lemma queues_ok_task o pq id : queues_ok o pq → id ∈ order pq → ∃ t, o !! id = Some t.
Proof.
  intros H (p&q&Hp&Hid)%elem_of_order. destruct (H p q Hp) as [_ HF].
  rewrite Forall_forall in HF. destruct (HF id Hid) as (t&?&_). eauto.
Qed.

Lemma queues_ok_remove o pq p q q' :
  queues_ok o pq → pq !! p = Some q → q' ⊆ q → queues_ok o (pop p q' pq).
Proof.
  intros H Hp Hsub p' q'' Hp'. destruct (H p q Hp) as [_ HF]. unfold pop in Hp'.
  case_decide; [apply lookup_delete_Some in Hp' as [_ Hp']; by apply H|].
  apply lookup_insert_Some in Hp' as [[<- <-]|[_ Hp']]; [|by apply H].
  split; [done|]. rewrite !Forall_forall in *. auto.
Qed.

(** The tasks the runner would start now. *)
Definition to_start (s : runner) : list Z :=
  if active s && negb (existsb (is_exclusive s) (elements (running_queue s))) then
    match order (pending_queue s) with
    | [] => []
    | t :: l =>
        if is_exclusive s t then if decide (running_queue s = ∅) then [t] else []
        else t :: take_while (λ id, negb (is_exclusive s id)) l
    end
  else [].

(** The state after starting [l], with [pq] left. *)
Definition launched (pq : gmap Z (list Z)) (l : list Z) (s : runner) : runner :=
  Runner pq (list_to_set l ∪ running_queue s) (active s) (successful_tasks s) (failed_tasks s)
    (objs s) (next_task_id s) (calls s ++ (CStart <$> l)).

Lemma launched_nil s : launched (pending_queue s) [] s = s.
Proof. unfold launched. destruct s; simpl. f_equal; [set_solver|by rewrite app_nil_r]. Qed.

Lemma launched_cons pq1 pq x l s : launched pq l (launched pq1 [x] s) = launched pq (x :: l) s.
Proof. unfold launched; simpl. by rewrite <-app_assoc, (assoc_L (∪)), union_empty_r_L, (comm_L (∪) (list_to_set l)). Qed.

Lemma launched_app pq1 pq l1 l s : launched pq l (launched pq1 l1 s) = launched pq (l1 ++ l) s.
Proof. unfold launched; simpl. f_equal; [set_solver|by rewrite fmap_app, app_assoc]. Qed.

Lemma existsb_set (f : Z → bool) (X : gset Z) : existsb f (elements X) = bool_decide (set_Exists (λ x, f x = true) X).
Proof.
  apply Bool.eq_iff_eq_true. rewrite bool_decide_eq_true, existsb_exists. unfold set_Exists.
  setoid_rewrite <-list_elem_of_In. by setoid_rewrite elem_of_elements.
Qed.

Lemma to_start_launched pq x s :
  order (pending_queue s) = x :: order pq → x ∈ to_start s →
  to_start s = x :: to_start (launched pq [x] s).
Proof.
  unfold to_start. intros Ho Hx. rewrite Ho in *. simpl.
  destruct (active s); simpl in *; [|set_solver]. rewrite !existsb_set in *.
  case_bool_decide as He; simpl in *; [set_solver|].
  change (is_exclusive (launched pq [x] s)) with (is_exclusive s).
  destruct (is_exclusive s x) eqn:Hxe.
  - case_decide; [|set_solver]. rewrite bool_decide_eq_true_2; [done|]. exists x. split; [set_solver|done].
  - rewrite bool_decide_eq_false_2.
    + simpl. f_equal. destruct (order pq) as [|y l]; [done|]. simpl.
      destruct (is_exclusive s y); simpl; [|done]. rewrite decide_False by set_solver. done.
    + intros (y&Hy&Hye). apply He. assert (y ≠ x) by (intros ->; congruence). exists y. set_solver.
Qed.


Lemma swallow_ok {St} (m : M St unit) s s' : m s = (Ok tt, s') → swallow m s = (Ok tt, s').
Proof. intros H. unfold swallow. by rewrite H. Qed.

Lemma run_next_one d s h ps next rest t :
  active s = true → existsb (is_exclusive s) (elements (running_queue s)) = false →
  sort_desc (elements (dom (pending_queue s))) = h :: ps →
  pending_queue s !! h = Some (next :: rest) → objs s !! next = Some t →
  let s' := launched (pop h rest (pending_queue s)) [next] s in
  run_next_task (S d) s =
    if t_exclusive t && bool_decide (running_queue s ≠ ∅) then (Ok tt, s)
    else if decide (pending_queue s' ≠ ∅) then swallow (run_next_task d) s' else (Ok tt, s').
Proof.
  intros Ha He Hs Hh Hn s'. cbn [run_next_task]. rewrite (bind_ok _ _ s s s) by done. rewrite Ha, He.
  rewrite bool_decide_true by (intros Hp; by rewrite Hp, lookup_empty in Hh). cbn [andb].
  rewrite sort_desc_keys, Hs. unfold swallow at 1. rewrite (bind_ok _ _ s (next :: rest) s) by by rewrite Hh.
  unfold the_task. rewrite (bind_ok _ _ s t s) by by rewrite (bind_ok _ _ s (objs s) s) by done; rewrite Hn.
  destruct (t_exclusive t && _); [done|].
  rewrite (bind_ok _ _ s tt (set_pending (pop h rest) s)) by done.
  rewrite (bind_ok _ _ _ tt (set_running ({[next]} ∪.) (set_pending (pop h rest) s))) by done.
  rewrite (bind_ok _ _ _ tt s') by (unfold callLater, modify, s', launched; simpl; by rewrite union_empty_r_L).
  rewrite (bind_ok _ _ _ (pending_queue s') s') by done.
  case_decide; [|done]. done.
Qed.

Lemma run_next_cases d s : queues_ok (objs s) (pending_queue s) →
  (to_start s = [] ∧ run_next_task (S d) s = (Ok tt, s)) ∨
  ∃ x pq, order (pending_queue s) = x :: order pq ∧ queues_ok (objs s) pq ∧ x ∈ to_start s ∧
    run_next_task (S d) s =
      if decide (pq ≠ ∅) then swallow (run_next_task d) (launched pq [x] s) else (Ok tt, launched pq [x] s).
Proof.
  intros Hq. unfold to_start. destruct (active s) eqn:Ha.
  2: { left. split; [done|]. cbn [run_next_task]. rewrite (bind_ok _ _ s s s) by done. by rewrite Ha. }
  destruct (existsb (is_exclusive s) (elements (running_queue s))) eqn:He.
  { left. split; [done|]. cbn [run_next_task]. rewrite (bind_ok _ _ s s s) by done.
    rewrite Ha, He. by destruct (bool_decide _). }
  destruct (order (pending_queue s)) as [|x l] eqn:Ho.
  { left. split; [done|]. apply (queues_ok_nonempty _ _ Hq) in Ho. cbn [run_next_task].
    rewrite (bind_ok _ _ s s s) by done. rewrite Ha, Ho, bool_decide_false by (intros H; by apply H). done. }
  destruct (sort_desc (elements (dom (pending_queue s)))) as [|h ps] eqn:Hs;
    [unfold order in Ho; by rewrite Hs in Ho|].
  assert (∃ q, pending_queue s !! h = Some q) as [q Hh].
  { apply elem_of_dom, elem_of_elements. rewrite <-sort_desc_perm, Hs. set_solver. }
  destruct (Hq h q Hh) as [Hne HF]. destruct q as [|next rest]; [done|].
  pose proof (order_pop _ _ _ _ _ Hs Hh) as Ho'. rewrite Ho in Ho'. injection Ho' as -> ->.
  pose proof HF as ((t&Ht&_)&_)%Forall_cons.
  pose proof (run_next_one d s h ps next rest t Ha He Hs Hh Ht) as Hrun. cbn zeta in Hrun.
  assert (is_exclusive s next = t_exclusive t) as Hex by (unfold is_exclusive; by rewrite Ht).
  assert (queues_ok (objs s) (pop h rest (pending_queue s))) by (eapply queues_ok_remove; [done..|set_solver]).
  simpl. rewrite Hex. destruct (t_exclusive t); simpl in Hrun.
  - destruct (decide (running_queue s = ∅)) as [Hr|Hr].
    + rewrite bool_decide_false in Hrun by (intros H'; by apply H'). right. eexists _, _. split_and!; [done..|set_solver|done].
    + rewrite bool_decide_true in Hrun by done. by left.
  - right. eexists _, _. split_and!; [done..|set_solver|done].
Qed.

(** [_run_next_task] starts the tasks [to_start] lists, as far as the
    recursion limit lets it. *)
Lemma run_next_run d : ∀ s, queues_ok (objs s) (pending_queue s) →
  let l := take (S d) (to_start s) in
  ∃ pq, run_next_task (S d) s = (Ok tt, launched pq l s) ∧ order (pending_queue s) = l ++ order pq ∧
        queues_ok (objs s) pq.
Proof.
  induction d as [|d IH]; intros s Hq l; unfold l;
    match goal with |- context [run_next_task ?n s] =>
      destruct (run_next_cases (pred n) s Hq) as [[-> Hr]|(x&pq&Ho&Hq'&Hx&Hr)]; cbn [pred] in Hr; rewrite Hr;
        [exists (pending_queue s); by rewrite take_nil, launched_nil|]
    end; rewrite (to_start_launched pq x s) by done; simpl.
  - exists pq. split_and!; [by case_decide|by rewrite Ho|done].
  - case_decide as Hne.
    + destruct (IH (launched pq [x] s) Hq') as (pq'&Hr'&Ho'&Hq''). exists pq'. erewrite swallow_ok by exact Hr'. rewrite launched_cons. split_and!; [done| |done]. rewrite Ho. f_equal. exact Ho'.
    + subst pq.
      assert (to_start (launched ∅ [x] s) = []) as Hts.
      { unfold to_start. simpl. by destruct (active s && _). }
      rewrite Hts, Ho. by exists ∅.
Qed.
End scheduling.

(** ** The invariant *)
Section invariant.
Context {HO : DictOrder} {HD : Deferreds} {HL : DeferredLaws}.

Definition dead (t : task) : Prop := ∀ d, t_deferred t = Some d → fired d ≠ None.

(** A task that waits or runs has an unfired Deferred with the runner's
    callbacks on it. *)
Definition live (s : runner) (id : Z) : Prop :=
  ∃ t d, objs s !! id = Some t ∧ t_deferred t = Some d ∧ fired d = None ∧ t_callbacks t = 1%nat.

(** A task at work: started, and its Deferred has not fired. *)
Definition working (s : runner) (id : Z) : Prop :=
  ∃ t, objs s !! id = Some t ∧ t_running t = true ∧ ¬ dead t.

Record wf (s : runner) : Prop := {
  wf_queues : queues_ok (objs s) (pending_queue s);
  wf_nodup : NoDup (order (pending_queue s));
  wf_disjoint : ∀ id, id ∈ order (pending_queue s) → id ∉ running_queue s;
  wf_live : ∀ id, id ∈ order (pending_queue s) ∨ id ∈ running_queue s → live s id;
  wf_exclusive : ∀ id, id ∈ running_queue s → is_exclusive s id = true → running_queue s = {[id]};
  wf_started : ∀ id, id ∈ running_queue s → CStart id ∈ calls s ∨ working s id;
  wf_working : ∀ id, working s id → id ∈ running_queue s;
  wf_calls : ∀ id, CStart id ∈ calls s →
    ∃ t, objs s !! id = Some t ∧ t_callbacks t ≠ 0%nat ∧ (id ∈ running_queue s ∨ dead t);
  wf_inactive : active s = false → running_queue s = ∅;
  wf_ids : ∀ id, is_Some (objs s !! id) → id ≤ next_task_id s;
}.

(** Whenever a task waits, another one runs or the runner is about to look. *)
Definition no_stall (s : runner) : Prop :=
  active s = true → pending_queue s ≠ ∅ → running_queue s ≠ ∅ ∨ CRunNext ∈ calls s.

Definition inv (s : runner) : Prop := wf s ∧ no_stall s.

Lemma live_not_dead t d : t_deferred t = Some d → fired d = None → ¬ dead t.
Proof. intros Hd Hf H. by apply (H d). Qed.

Lemma queues_ok_same o o' pq :
  (∀ id, id ∈ order pq → o' !! id = o !! id) → queues_ok o pq → queues_ok o' pq.
Proof.
  intros Ho H p q Hp. destruct (H p q Hp) as [Hne HF]. split; [done|].
  rewrite Forall_forall in *. intros id Hid. rewrite Ho; [by apply HF|]. apply elem_of_order. eauto.
Qed.

(** Ending tasks: those that leave the queues are dead, nothing else
    changes but the calls of [_run_next_task] and the counters. *)
Record ended (s s' : runner) : Prop := {
  en_queues : queues_ok (objs s) (pending_queue s');
  en_nodup : NoDup (order (pending_queue s'));
  en_pending : ∀ id, id ∈ order (pending_queue s') → id ∈ order (pending_queue s);
  en_running : running_queue s' ⊆ running_queue s;
  en_objs : ∀ id, objs s' !! id = objs s !! id ∨
    (id ∉ order (pending_queue s') ∧ id ∉ running_queue s' ∧
     ∃ t t', objs s !! id = Some t ∧ objs s' !! id = Some t' ∧ dead t' ∧ t_callbacks t' = t_callbacks t);
  en_gone : ∀ id t', id ∈ running_queue s → id ∉ running_queue s' → objs s' !! id = Some t' → dead t';
  en_calls : ∀ id, CStart id ∈ calls s' ↔ CStart id ∈ calls s;
  en_active : active s' = false → running_queue s' = ∅;
  en_next : next_task_id s' = next_task_id s;
}.

Lemma ended_same s s' id : ended s s' → id ∈ order (pending_queue s') ∨ id ∈ running_queue s' → objs s' !! id = objs s !! id.
Proof. intros He Hid. destruct (en_objs s s' He id) as [|(?&?&_)]; [done|]. naive_solver. Qed.

Lemma wf_ended s s' : wf s → ended s s' → wf s'.
Proof.
  intros Hw He. pose proof (ended_same s s') as Hsame. destruct He. split; auto.
  - eapply queues_ok_same; [|done]. auto using Build_ended.
  - intros id Hid Hr. eapply (wf_disjoint s); eauto.
  - intros id Hid. assert (live s id) as (t&d&?&?) by (apply (wf_live s); naive_solver).
    exists t, d. rewrite Hsame by (done || by split). naive_solver.
  - intros id Hid Hx. assert (running_queue s = {[id]}) as Hr.
    { apply (wf_exclusive s); [done|set_solver|]. unfold is_exclusive in *. rewrite <-Hsame; [done|by split|by right]. }
    apply set_eq. set_solver.
  - intros id Hid. rewrite en_calls0. destruct (wf_started s Hw id) as [|(t&?&?)]; [set_solver|by left|].
    right. exists t. by rewrite Hsame by (done || by split || by right).
  - intros id (t&Ht&Hr&Hd). destruct (en_objs0 id) as [Heq|(?&?&t0&t'&?&?&?&?)]; [|simplify_eq; done].
    rewrite Heq in Ht. assert (id ∈ running_queue s) by (apply (wf_working s); [done|by exists t]).
    destruct (decide (id ∈ running_queue s')); [done|]. exfalso. apply Hd. eapply en_gone0; eauto. congruence.
  - intros id Hid. apply en_calls0 in Hid. destruct (wf_calls s Hw id Hid) as (t&Ht&Hc&Hor).
    destruct (en_objs0 id) as [Heq|(?&?&t0&t'&?&?&?&?)].
    + exists t. rewrite Heq. split_and!; [done..|]. destruct Hor as [Hr|]; [|by right].
      destruct (decide (id ∈ running_queue s')); [by left|]. right. eapply en_gone0; eauto. congruence.
    + exists t'. split_and!; [done|congruence|by right].
  - intros id Hid. rewrite en_next0. apply (wf_ids s); [done|].
    destruct (en_objs0 id) as [<-|(?&?&t0&t'&?&?&?)]; [done|eauto].
Qed.

Lemma elem_of_take_while {A} (f : A → bool) l x : x ∈ take_while f l → f x = true.
Proof. induction l as [|y l IH]; simpl; [set_solver|]. destruct (f y) eqn:?; set_solver. Qed.

Lemma to_start_spec s x : x ∈ to_start s →
  active s = true ∧ (∀ y, y ∈ running_queue s → is_exclusive s y = false) ∧
  (is_exclusive s x = true → to_start s = [x] ∧ running_queue s = ∅).
Proof.
  unfold to_start. destruct (active s); simpl; [|set_solver]. rewrite existsb_set.
  case_bool_decide as He; simpl; [set_solver|]. intros Hx. split; [done|]. split.
  { intros y Hy. destruct (is_exclusive s y) eqn:?; [|done]. exfalso. apply He. by exists y. }
  intros Hxe. destruct (order (pending_queue s)) as [|y l]; [set_solver|].
  destruct (is_exclusive s y) eqn:Hy.
  - case_decide; [|set_solver]. assert (x = y) as -> by set_solver. done.
  - apply elem_of_cons in Hx as [->|Hx%elem_of_take_while]; [congruence|]. by rewrite Hxe in Hx.
Qed.

Lemma to_start_head s x l :
  active s = true → running_queue s = ∅ → order (pending_queue s) = x :: l → ∃ l', to_start s = x :: l'.
Proof.
  intros Ha Hr Ho. unfold to_start. rewrite Ha, Ho, Hr, elements_empty. simpl.
  case_decide; [|done]. destruct (is_exclusive s x); eauto.
Qed.

Lemma wf_launched s pq l :
  wf s → l `prefix_of` to_start s → order (pending_queue s) = l ++ order pq → queues_ok (objs s) pq →
  wf (launched pq l s).
Proof.
  intros Hw [l2 Hl] Ho Hq. assert (∀ x, x ∈ l → x ∈ order (pending_queue s) ∧ x ∈ to_start s) as Hin.
  { intros x Hx. rewrite Ho, Hl. set_solver. }
  assert (∀ x, x ∈ order pq → x ∈ order (pending_queue s)) as Hin2 by (intros x Hx; rewrite Ho; set_solver).
  pose proof (wf_nodup s Hw) as Hnd. rewrite Ho in Hnd. apply NoDup_app in Hnd as (_&Hdis&Hnd).
  split; simpl; auto.
  - intros id Hid. rewrite elem_of_union, elem_of_list_to_set. intros [?|?]; [by eapply Hdis|].
    by apply (wf_disjoint s Hw id); auto.
  - intros id Hid. rewrite elem_of_union, elem_of_list_to_set in Hid.
    apply (wf_live s Hw). naive_solver.
  - intros id Hid Hx. change (is_exclusive s id = true) in Hx.
    destruct (decide (id ∈ l)) as [Hidl|Hidl].
    + destruct (to_start_spec s id) as (_&_&Hts); [naive_solver|]. destruct (Hts Hx) as [Hts' ->].
      assert (l = [id]) as ->; [|set_solver]. rewrite Hts' in Hl. destruct l as [|y [|]]; set_solver.
    + assert (id ∈ running_queue s) by set_solver. rewrite (wf_exclusive s Hw id) by done.
      destruct l as [|y l]; [set_solver|]. destruct (to_start_spec s y) as (_&Hno&_); [naive_solver set_solver|].
      by rewrite Hno in Hx.
  - intros id Hid. rewrite elem_of_union, elem_of_list_to_set in Hid. rewrite elem_of_app.
    destruct Hid as [Hid|Hid]; [left; right; by apply list_elem_of_fmap_2|].
    destruct (wf_started s Hw id Hid); [tauto|by right].
  - intros id Hid. apply elem_of_union_r. by apply (wf_working s).
  - intros id [Hid|Hid]%elem_of_app.
    + destruct (wf_calls s Hw id Hid) as (t&?&?&?). exists t. set_solver.
    + apply list_elem_of_fmap in Hid as (?&[= ->]&Hid).
      destruct (wf_live s Hw x) as (t&d&?&?&?&?); [left; naive_solver|]. exists t. split_and!; [done|lia|set_solver].
  - intros Ha. rewrite (wf_inactive s) by done. destruct l as [|x l]; [set_solver|].
    destruct (to_start_spec s x) as [? _]; [naive_solver set_solver|]. congruence.
  - apply (wf_ids s Hw).
Qed.

Lemma run_next_inv d s : wf s → ∃ s', run_next_task (S d) s = (Ok tt, s') ∧ inv s'.
Proof.
  intros Hw. destruct (run_next_run d s (wf_queues s Hw)) as (pq&Hr&Ho&Hq). eexists. split; [done|]. split.
  - apply wf_launched; auto. eexists. symmetry. apply take_drop.
  - intros Ha Hne. simpl in *. left. intros Hrun.
    apply empty_union_L in Hrun as [Hl Hrun]. assert (take (S d) (to_start s) = []) as Hl'.
    { destruct (take (S d) (to_start s)) as [|x l]; [done|]. set_solver. }
    rewrite Hl' in Ho. destruct (order (pending_queue s)) as [|x l] eqn:Hos.
    + apply Hne. by apply (queues_ok_nonempty (objs s)).
    + destruct (to_start_head s x l) as [l' Hl2]; [done..|]. by rewrite Hl2 in Hl'.
Qed.

(** ** Ends of tasks *)

(** The state after the running task [id] has ended. *)
Definition settled (id : Z) (f : task → task) (ok : bool) (s : runner) : runner :=
  Runner (pending_queue s) (running_queue s ∖ {[id]}) (active s)
    (if ok then 1 + successful_tasks s else successful_tasks s)
    (if ok then failed_tasks s else 1 + failed_tasks s)
    (alter f id (objs s)) (next_task_id s) (calls s ++ [CRunNext]).

(** The state after the pending task [id], of priority [p], was cancelled;
    [q] are the others of that priority. *)
Definition unqueued (id p : Z) (q : list Z) (f : task → task) (s : runner) : runner :=
  Runner (pop p q (pending_queue s)) (running_queue s) (active s) (successful_tasks s) (failed_tasks s)
    (alter f id (objs s)) (next_task_id s) (calls s ++ [CRunNext]).

Definition stopped (t : task) : task := drop_agent (set_deferred None (set_trunning false t)).

Lemma the_task_run id t s : objs s !! id = Some t → the_task id s = (Ok t, s).
Proof. intros H. unfold the_task. rewrite (bind_ok _ _ s (objs s) s) by done. by rewrite H. Qed.

Lemma on_failure_running id s : id ∈ running_queue s →
  on_task_failure id s = (Ok tt, settled id (λ t, t) false s).
Proof.
  intros Hid. unfold on_task_failure, try_finally. rewrite (bind_ok _ _ s (running_queue s) s) by done.
  rewrite decide_True by done. unfold settled. by rewrite alter_id by done.
Qed.

Lemma on_success_running id s : id ∈ running_queue s →
  on_task_success id s = (Ok tt, settled id (λ t, t) true s).
Proof.
  intros Hid. unfold on_task_success, try_finally, swallow. rewrite (bind_ok _ _ s (running_queue s) s) by done.
  rewrite bool_decide_true by done. unfold settled. by rewrite alter_id by done.
Qed.

Lemma run_callbacks_one id (ok : bool) s s' :
  (if ok then on_task_success id else swallow (on_task_failure id)) s = (Ok tt, s') →
  run_callbacks id ok 1 s = (Ok tt, s').
Proof. intros H. unfold run_callbacks. cbn [seq forM_]. by rewrite (bind_ok _ _ s tt s') by exact H. Qed.

Lemma settle_running id ok s : id ∈ running_queue s →
  run_callbacks id ok 1 s = (Ok tt, settled id (λ t, t) ok s).
Proof.
  intros Hid. apply run_callbacks_one. destruct ok; [by apply on_success_running|].
  apply swallow_ok. by apply on_failure_running.
Qed.

Lemma alter_alter {A} (f g : A → A) i (m : gmap Z A) : alter f i (alter g i m) = alter (f ∘ g) i m.
Proof.
  apply map_eq. intros j. destruct (decide (i = j)) as [->|]; [|by rewrite !lookup_alter_ne].
  rewrite !lookup_alter_eq. by destruct (m !! j).
Qed.

Lemma settled_upd id (f g : task → task) ok s : settled id f ok (set_objs (alter g id) s) = settled id (f ∘ g) ok s.
Proof. unfold settled; simpl. by rewrite alter_alter. Qed.

Lemma complete_running id ok s : wf s → id ∈ running_queue s →
  ∃ d, fired d = Some ok ∧ complete id ok s = (Ok tt, settled id (set_deferred (Some d)) ok s).
Proof.
  intros Hw Hid. destruct (wf_live s Hw id) as (t&d&Ht&Hd&Hf&Hc); [by right|].
  destruct (fire_once ok d Hf) as (d'&Hfire&Hf'). exists d'. split; [done|]. unfold complete.
  rewrite (bind_ok _ _ s t s) by by apply the_task_run.
  rewrite (bind_ok _ _ s d s) by by rewrite Hd. rewrite (bind_ok _ _ s d' s) by by rewrite Hfire.
  rewrite (bind_ok _ _ s tt (set_objs (alter (set_deferred (Some d')) id) s)) by done.
  rewrite Hf, Hc, settle_running by done. by rewrite settled_upd.
Qed.

(** [Task.stop] of a task whose Deferred has not fired runs the errback. *)
Lemma task_stop_run id t d s s3 : objs s !! id = Some t →
  t_deferred t = Some d → fired d = None → t_callbacks t = 1%nat →
  swallow (on_task_failure id) (set_objs (alter (set_deferred None ∘ set_trunning false) id) s) = (Ok tt, s3) →
  task_stop id s = (Ok tt, set_objs (alter drop_agent id) s3).
Proof.
  intros Ht Hd Hf Hc H3. unfold task_stop.
  rewrite (bind_ok _ _ s tt (set_objs (alter (set_trunning false) id) s)) by done.
  set (s1 := set_objs (alter (set_trunning false) id) s). unfold cancel_deferred.
  assert (objs s1 !! id = Some (set_trunning false t)) as Ht1 by (simpl; by rewrite lookup_alter_eq, Ht).
  set (s2 := set_objs (alter (set_deferred None ∘ set_trunning false) id) s) in *.
  assert (objs s2 !! id = Some (set_deferred None (set_trunning false t))) as Ht2
    by (simpl; by rewrite lookup_alter_eq, Ht).
  rewrite (bind_ok _ _ s1 tt s3); [done|]. rewrite (bind_ok _ _ s1 _ s1 (the_task_run _ _ _ Ht1)).
  rewrite (bind_ok _ _ s1 tt s2) by (unfold upd_task, modify, s1, s2, set_objs; simpl; by rewrite alter_alter).
  change (t_deferred (set_trunning false t)) with (t_deferred t). rewrite Hd, Hf. apply swallow_ok.
  unfold cancel_it. rewrite Hf. rewrite (bind_ok _ _ s2 _ s2 (the_task_run _ _ _ Ht2)).
  change (t_callbacks _) with (t_callbacks t). rewrite Hc. by apply run_callbacks_one.
Qed.

Lemma stop_running id s : wf s → id ∈ running_queue s →
  task_stop id s = (Ok tt, settled id stopped false s).
Proof.
  intros Hw Hid. destruct (wf_live s Hw id) as (t&d&Ht&Hd&Hf&Hc); [by right|].
  erewrite task_stop_run; [|done..|by apply swallow_ok, on_failure_running].
  unfold settled, set_objs; simpl. by rewrite !alter_alter.
Qed.

Lemma existsb_pending id (pq : gmap Z (list Z)) :
  existsb (λ '(_, tasks), bool_decide (id ∈ tasks)) (iteritems pq) = bool_decide (id ∈ order pq).
Proof.
  apply Bool.eq_iff_eq_true. rewrite bool_decide_eq_true, existsb_exists, elem_of_order. split.
  - intros ([p q]&Hin&Hid%bool_decide_eq_true). rewrite <-list_elem_of_In, elem_of_iteritems in Hin. eauto.
  - intros (p&q&Hp&Hid). exists (p, q). rewrite <-list_elem_of_In, elem_of_iteritems, bool_decide_eq_true. done.
Qed.

Lemma list_remove1_spec {A} `{EqDecision A} (x : A) l : x ∈ l → ∃ l', list_remove1 x l = Some l' ∧ l ≡ₚ x :: l'.
Proof.
  induction l as [|y l IH]; [set_solver|]. simpl. intros Hx. case_decide as Hxy; [subst; eauto|].
  destruct IH as (l'&->&Hp); [set_solver|]. exists (y :: l'). split; [done|]. rewrite Hp. constructor.
Qed.

Lemma pending_queue_of s id : wf s → id ∈ order (pending_queue s) →
  ∃ t d q q', objs s !! id = Some t ∧ t_deferred t = Some d ∧ fired d = None ∧ t_callbacks t = 1%nat ∧
    pending_queue s !! t_priority t = Some q ∧ list_remove1 id q = Some q' ∧ q ≡ₚ id :: q'.
Proof.
  intros Hw Hid. destruct (wf_live s Hw id) as (t&d&Ht&Hd&Hf&Hc); [by left|].
  apply elem_of_order in Hid as (p&q&Hp&Hid). destruct (wf_queues s Hw p q Hp) as [_ HF].
  rewrite Forall_forall in HF. destruct (HF id Hid) as (t'&Ht'&<-). rewrite Ht in Ht'. injection Ht' as <-.
  destruct (list_remove1_spec id q Hid) as (q'&?&?). naive_solver.
Qed.

Lemma on_failure_pending s id t q q' : id ∉ running_queue s → id ∈ order (pending_queue s) →
  objs s !! id = Some t → pending_queue s !! t_priority t = Some q → list_remove1 id q = Some q' →
  on_task_failure id s = (Ok tt, unqueued id (t_priority t) q' (λ t, t) s).
Proof.
  intros Hr Hid Ht Hq Hq'. unfold on_task_failure, try_finally.
  rewrite (bind_ok _ _ s (running_queue s) s), decide_False by done.
  rewrite (bind_ok _ _ s (pending_queue s) s) by done. rewrite existsb_pending, bool_decide_true by done.
  rewrite (bind_ok _ _ s t s) by by apply the_task_run. rewrite (bind_ok _ _ s q s) by by rewrite Hq.
  rewrite (bind_ok _ _ s q' s) by by rewrite Hq'. unfold unqueued. by rewrite alter_id by done.
Qed.

Lemma cancel_pending s id : wf s → id ∈ order (pending_queue s) →
  ∃ t d q q', objs s !! id = Some t ∧ t_deferred t = Some d ∧ fired d = None ∧
    pending_queue s !! t_priority t = Some q ∧ q ≡ₚ id :: q' ∧
    cancel_task id s = (Ok tt, unqueued id (t_priority t) q' (set_deferred (Some (dcancel d))) s).
Proof.
  intros Hw Hid. destruct (pending_queue_of s id Hw Hid) as (t&d&q&q'&Ht&Hd&Hf&Hc&Hq&Hrem&Hperm).
  pose proof (wf_disjoint s Hw id Hid) as Hr. exists t, d, q, q'. split_and!; try done.
  unfold cancel_task. rewrite (bind_ok _ _ s s s), decide_False by done.
  rewrite existsb_pending, bool_decide_true by done. apply swallow_ok.
  rewrite (bind_ok _ _ s t s) by by apply the_task_run. rewrite (bind_ok _ _ s d s) by by rewrite Hd.
  set (s1 := set_objs (alter (set_deferred (Some (dcancel d))) id) s).
  rewrite (bind_ok _ _ s tt s1) by done. unfold cancel_it. rewrite Hf.
  rewrite (bind_ok _ _ s1 (set_deferred (Some (dcancel d)) t) s1)
    by (apply the_task_run; simpl; by rewrite lookup_alter_eq, Ht).
  simpl t_callbacks. rewrite Hc. apply run_callbacks_one, swallow_ok.
  rewrite (on_failure_pending s1 id (set_deferred (Some (dcancel d)) t) q q');
    [|done..|simpl; by rewrite lookup_alter_eq, Ht|done|done].
  unfold unqueued, s1; simpl. by rewrite alter_alter.
Qed.
Lemma alter_dead (f : task → task) i (m : gmap Z task) id :
  (∀ t, m !! i = Some t → dead (f t) ∧ t_callbacks (f t) = t_callbacks t) →
  alter f i m !! id = m !! id ∨
  (id = i ∧ ∃ t t', m !! id = Some t ∧ alter f i m !! id = Some t' ∧ dead t' ∧ t_callbacks t' = t_callbacks t).
Proof.
  intros Hf. destruct (decide (id = i)) as [->|]; [|left; by rewrite lookup_alter_ne].
  rewrite lookup_alter_eq. destruct (m !! i) as [t|]; [|by left]. right. split; [done|].
  exists t, (f t). naive_solver.
Qed.

Lemma CStart_app_run id l : CStart id ∈ l ++ [CRunNext] ↔ CStart id ∈ l.
Proof. set_solver. Qed.

Lemma ended_settled s id f ok : wf s → id ∈ running_queue s →
  (∀ t, dead (f t) ∧ t_callbacks (f t) = t_callbacks t) → ended s (settled id f ok s).
Proof.
  intros Hw Hid Hf. split; simpl; try (apply Hw); try set_solver.
  - intros x. destruct (alter_dead f id (objs s) x) as [|(->&?)]; [auto|by left|]. right.
    split_and!; [|set_solver|done]. intros Hord. by eapply (wf_disjoint s).
  - intros x t' Hx Hx'. destruct (decide (x = id)) as [->|]; [|set_solver]. rewrite lookup_alter_eq.
    intros (t&_&->)%fmap_Some. apply Hf.
  - intros Ha. rewrite (wf_inactive s) by done. set_solver.
Qed.

Lemma pop_order pq p q id q' : pq !! p = Some q → q ≡ₚ id :: q' → order pq ≡ₚ id :: order (pop p q' pq).
Proof.
  intros Hp Hq. rewrite (order_split pq p q), Hq by done. simpl. f_equiv. unfold pop. case_decide; [by subst|].
  by rewrite (order_split (<[p:=q']> pq) p q') by apply lookup_insert_eq; rewrite delete_insert_eq.
Qed.

Lemma ended_unqueued s id t q q' f : wf s → objs s !! id = Some t → pending_queue s !! t_priority t = Some q →
  q ≡ₚ id :: q' → (∀ t', objs s !! id = Some t' → dead (f t') ∧ t_callbacks (f t') = t_callbacks t') →
  ended s (unqueued id (t_priority t) q' f s).
Proof.
  intros Hw Ht Hq Hperm Hf. pose proof (pop_order _ _ _ _ _ Hq Hperm) as Ho.
  pose proof (wf_nodup s Hw) as Hnd. rewrite Ho in Hnd. apply NoDup_cons in Hnd as [Hnin Hnd].
  assert (id ∈ order (pending_queue s)) as Hid by (rewrite Ho; set_solver).
  split; simpl; try set_solver.
  - eapply queues_ok_remove; [apply (wf_queues s Hw)|done|]. intros x. rewrite Hperm. set_solver.
  - intros x Hx. rewrite Ho. set_solver.
  - intros x. destruct (alter_dead f id (objs s) x) as [|(->&?)]; [auto|by left|]. right.
    split_and!; [done|by apply (wf_disjoint s)|done].
  - apply (wf_inactive s Hw).
Qed.

Lemma inv_ended s s' : inv s → ended s s' → CRunNext ∈ calls s' → inv s'.
Proof. intros [Hw _] He Hc. split; [by eapply wf_ended|]. intros ??. by right. Qed.

(** ** Stopping the runner *)
Lemma stop_absent id t d s : running_queue s = ∅ → pending_queue s = ∅ → objs s !! id = Some t →
  t_deferred t = Some d → fired d = None → t_callbacks t = 1%nat →
  task_stop id s = (Ok tt, set_calls (λ l, l ++ [CRunNext]) (set_objs (alter stopped id) s)).
Proof.
  intros Hr Hp Ht Hd Hf Hc. erewrite task_stop_run; [|done..|].
  2: { set (s2 := set_objs _ s). unfold swallow, on_task_failure, try_finally.
       rewrite (bind_ok _ _ s2 ∅ s2) by (unfold gets; simpl; by rewrite Hr).
       rewrite decide_False by set_solver. rewrite (bind_ok _ _ s2 ∅ s2) by (unfold gets; simpl; by rewrite Hp).
       rewrite existsb_pending, bool_decide_false by (intros (?&?&?&_)%elem_of_order; set_solver). done. }
  unfold set_objs, set_calls; simpl. by rewrite !alter_alter.
Qed.

Lemma stop_loop l : ∀ s, running_queue s = ∅ → pending_queue s = ∅ → NoDup l → (∀ id, id ∈ l → live s id) →
  ∃ n, forM_ (λ t, swallow (task_stop t)) l s =
    (Ok tt, set_calls (λ c, c ++ replicate n CRunNext) (set_objs (λ o, foldl (λ o id, alter stopped id o) o l) s)).
Proof.
  induction l as [|id l IH]; intros s Hr Hp [Hnin Hnd]%NoDup_cons || intros s Hr Hp _; intros Hl.
  - exists 0%nat. unfold set_calls, set_objs; destruct s; simpl. by rewrite app_nil_r.
  - destruct (Hl id) as (t&d&Ht&Hd&Hf&Hc); [set_solver|]. cbn [forM_].
    erewrite bind_ok by (apply swallow_ok; by eapply stop_absent).
    edestruct IH as [n Hn]; [| | |intros id' Hid'|].
    5: { rewrite Hn. exists (S n). unfold set_calls, set_objs; simpl. by rewrite <-app_assoc. }
    all: try done.
    destruct (Hl id') as (t'&d'&Ht'&?); [set_solver|]. exists t', d'. simpl.
    by rewrite lookup_alter_ne by set_solver.
Qed.

Lemma foldl_alter_lookup (f : task → task) l : ∀ (m : gmap Z task) id, NoDup l →
  foldl (λ o id, alter f id o) m l !! id = if decide (id ∈ l) then f <$> m !! id else m !! id.
Proof.
  induction l as [|x l IH]; intros m id Hnd; [done|]. apply NoDup_cons in Hnd as [Hx Hnd].
  simpl. rewrite IH by done. destruct (decide (id = x)) as [->|].
  - rewrite decide_False by done. rewrite decide_True by set_solver. apply lookup_alter_eq.
  - rewrite lookup_alter_ne by done. by repeat case_decide; set_solver.
Qed.
Lemma order_empty_map : order ∅ = [].
Proof. unfold order. by rewrite dom_empty_L, elements_empty. Qed.

Lemma cancel_keys_nop (l : list Z) (s : runner) : forM_ (λ _ : Z, swallow (raise AttributeError)) l s = (Ok tt, s).
Proof. by induction l. Qed.

Lemma stop_ended s : wf s → ∃ s', stop s = (Ok tt, s') ∧ ended s s' ∧
  (active s = true → active s' = false ∧ pending_queue s' = ∅ ∧ running_queue s' = ∅ ∧ ∃ n, calls s' = calls s ++ replicate n CRunNext ∧
    objs s' = foldl (λ o id, alter stopped id o) (objs s) (iteritems (gset_to_gmap tt (running_queue s))).*1) ∧
  (active s = false → s' = s).
Proof.
  intros Hw. unfold stop. rewrite (bind_ok _ _ s s s) by done. destruct (active s) eqn:Ha.
  2: { exists s. split_and!; [done| |done|done]. split; try apply Hw; auto. naive_solver. }
  set (l := (iteritems (gset_to_gmap () (running_queue s))).*1).
  assert (∀ id, id ∈ l ↔ id ∈ running_queue s) as Hl.
  { intros id. unfold l. rewrite list_elem_of_fmap. split.
    - intros ([? []]&->&[? _]%elem_of_iteritems%lookup_gset_to_gmap_Some). done.
    - intros Hid. exists (id, ()). split; [done|]. by apply elem_of_iteritems, lookup_gset_to_gmap_Some. }
  assert (NoDup l) as Hnd by apply NoDup_iteritems_keys.
  set (s1 := Runner ∅ ∅ false (successful_tasks s) (failed_tasks s) (objs s) (next_task_id s) (calls s)).
  rewrite (bind_ok _ _ s tt (set_active false s)), (bind_ok _ _ _ tt (set_pending (λ _, ∅) (set_active false s))),
    (bind_ok _ _ _ tt s1) by done.
  destruct (stop_loop l s1) as [n Hn]; [done..| |].
  { intros id Hid. apply (wf_live s Hw). right. by apply Hl. }
  rewrite (bind_ok _ _ s1 tt _ Hn), cancel_keys_nop. eexists. split; [done|]. split; [|naive_solver].
  assert (∀ id, foldl (λ o id, alter stopped id o) (objs s) l !! id =
    if decide (id ∈ running_queue s) then stopped <$> objs s !! id else objs s !! id) as Hlook.
  { intros id. rewrite foldl_alter_lookup by done. by repeat case_decide; set_solver. }
  split; simpl; try rewrite order_empty_map; try done; try set_solver.
  - constructor.
  - intros id. rewrite Hlook. case_decide; [|by left]. right. split_and!; [set_solver..|].
    destruct (wf_live s Hw id) as (t&d&Ht&_); [by right|]. exists t, (stopped t). rewrite Ht. done.
  - intros id t' Hid _. rewrite Hlook, decide_True by done. intros (t&_&->)%fmap_Some. done.
  - intros id. rewrite elem_of_app, elem_of_replicate. naive_solver.
Qed.

(** ** Starting *)
Lemma start_inv d s : inv s → ∃ s', start (S d) s = (Ok tt, s') ∧ inv s'.
Proof.
  intros [Hw Hns]. unfold start. rewrite (bind_ok _ _ s s s) by done. destruct (active s) eqn:Ha; [by exists s|].
  rewrite (bind_ok _ _ s tt s) by by rewrite (wf_inactive s Hw Ha), bool_decide_true.
  rewrite (bind_ok _ _ s tt (set_active true s)) by done. apply run_next_inv. destruct Hw. by split.
Qed.

Lemma wf_queued s id t d : wf s → objs s !! id = Some t → t_callbacks t = 0%nat → t_deferred t = Some d →
  fired d = None → t_running t = false → let pq := pending_queue s in
  wf (set_pending (λ pq, <[t_priority t := default [] (pq !! t_priority t) ++ [id]]> pq)
        (set_objs (alter add_callback id) s)).
Proof.
  intros Hw Ht Hc Hd Hf Hr pq.
  assert (id ∉ order pq ∧ id ∉ running_queue s ∧ CStart id ∉ calls s) as (Ho&Hq&Hcs).
  { split_and!.
    - intros H. destruct (wf_live s Hw id) as (t'&?&?&?&?&?); [by left|]. simplify_eq. congruence.
    - intros H. destruct (wf_live s Hw id) as (t'&?&?&?&?&?); [by right|]. simplify_eq. congruence.
    - intros H. destruct (wf_calls s Hw id H) as (t'&?&?&?). simplify_eq. }
  set (s' := set_pending _ _).
  assert (order (pending_queue s') ≡ₚ id :: order pq) as Hperm.
  { unfold s', pq; simpl. rewrite (order_split _ (t_priority t)) by apply lookup_insert_eq.
    rewrite delete_insert_eq. rewrite <-Permutation_cons_append. simpl. f_equiv.
    destruct (pending_queue s !! t_priority t) as [q|] eqn:Hp; simpl; [by rewrite <-order_split|].
    by rewrite delete_id. }
  assert (∀ x, x ≠ id → objs s' !! x = objs s !! x) as Hobj by (intros; unfold s'; simpl; by rewrite lookup_alter_ne).
  assert (objs s' !! id = Some (add_callback t)) as Hobj' by (unfold s'; simpl; by rewrite lookup_alter_eq, Ht).
  split; try (apply Hw).
  - intros p q. unfold s'; simpl. intros [[<- <-]|[Hne Hp]]%lookup_insert_Some.
    + split; [by destruct (default _ _)|]. apply Forall_app. split.
      * destruct (pending_queue s !! t_priority t) as [q|] eqn:Hp; [|constructor].
        destruct (wf_queues s Hw _ q Hp) as [_ HF]. simpl. eapply Forall_impl; [exact HF|].
        intros x (tx&Hx&Hpr). rewrite lookup_alter. case_decide; [|by exists tx]. subst. rewrite Hx. by exists (add_callback tx).
      * constructor; [|done]. rewrite lookup_alter_eq, Ht. by exists (add_callback t).
    + destruct (wf_queues s Hw p q Hp) as [? HF]. split; [done|]. eapply Forall_impl; [exact HF|].
      intros x (tx&Hx&Hpr). rewrite lookup_alter. case_decide; [|by exists tx]. subst. rewrite Hx. by exists (add_callback tx).
  - rewrite Hperm. apply NoDup_cons. split; [done|apply Hw].
  - intros x. rewrite Hperm. intros [->|Hx]%elem_of_cons; [done|]. by apply (wf_disjoint s Hw).
  - intros x. rewrite Hperm, elem_of_cons. destruct (decide (x = id)) as [->|Hne].
    + intros _. exists (add_callback t), d. split_and!; [done..|]. simpl. by rewrite Hc.
    + intros Hx. destruct (wf_live s Hw x) as (tx&dx&?); [naive_solver|]. exists tx, dx. by rewrite Hobj.
  - intros x Hx Hex. apply (wf_exclusive s Hw x Hx). unfold is_exclusive in *.
    rewrite Hobj in Hex; [done|]. intros ->. done.
  - intros x Hx. destruct (wf_started s Hw x Hx) as [|(tx&?&?)]; [by left|]. right. exists tx.
    rewrite Hobj; [done|]. intros ->. done.
  - intros x (tx&Hx&Hrun&Hnd). destruct (decide (x = id)) as [->|]; [rewrite Hobj' in Hx; simplify_eq; simpl in *; congruence|].
    rewrite Hobj in Hx by done. apply (wf_working s Hw). by exists tx.
  - intros x Hx. destruct (wf_calls s Hw x Hx) as (tx&?&?). exists tx. rewrite Hobj; [done|]. intros ->. done.
  - intros x. destruct (decide (x = id)) as [->|]; [intros _; apply (wf_ids s Hw); eauto|].
    rewrite Hobj by done. apply (wf_ids s Hw).
Qed.
(** ** Runs *)

(** A task that has not been given to a runner yet. *)
Definition fresh (t : task) : Prop :=
  t_callbacks t = 0%nat ∧ t_running t = false ∧ ∃ d, t_deferred t = Some d ∧ fired d = None.

Context (depth : nat).
Local Abbreviation run_next := (run_next_task (S depth)).

(** What happens by itself: the reactor makes a call, a task at work ends. *)
Inductive istep (s : runner) : runner → Prop :=
  | i_call c : c ∈ calls s → istep s (perform (S depth) c s).2
  | i_complete id ok : working s id → istep s (complete id ok s).2.

Inductive step (s : runner) : runner → Prop :=
  | s_start : step s (start (S depth) s).2
  | s_stop : step s (stop s).2
  | s_new priority exclusive : step s (new_task priority exclusive s).2
  | s_queue id t : objs s !! id = Some t → fresh t → step s (queue_task (S depth) id s).2
  | s_cancel id : step s (cancel_task id s).2
  | s_internal s' : istep s s' → step s s'.

Lemma queue_run s id t : objs s !! id = Some t → fresh t →
  queue_task (S depth) id s =
    run_next (set_pending (λ pq, <[t_priority t := default [] (pq !! t_priority t) ++ [id]]> pq)
               (set_objs (alter add_callback id) s)).
Proof.
  intros Ht (Hc&Hr&d&Hd&Hf). unfold queue_task. rewrite (bind_ok _ _ s t s) by by apply the_task_run.
  erewrite bind_ok by done. erewrite bind_ok by by rewrite Hd. erewrite bind_ok by done. rewrite Hf.
  erewrite bind_ok by done. erewrite bind_ok by done. f_equal. unfold set_pending, set_objs; simpl. f_equal.
  case_decide as Hp.
  - destruct Hp as [q Hq]. rewrite Hq. simpl. apply map_eq. intros p.
    destruct (decide (p = t_priority t)) as [->|]; [by rewrite lookup_alter_eq, lookup_insert_eq, Hq|].
    by rewrite lookup_alter_ne, lookup_insert_ne.
  - apply eq_None_not_Some in Hp. rewrite Hp. simpl. by rewrite alter_insert_eq.
Qed.

Lemma queue_inv s id t : inv s → objs s !! id = Some t → fresh t →
  ∃ s', queue_task (S depth) id s = (Ok tt, s') ∧ inv s'.
Proof.
  intros [Hw _] Ht Hf. rewrite (queue_run s id t Ht Hf). apply run_next_inv.
  destruct Hf as (?&?&d&?&?). by eapply wf_queued.
Qed.

Lemma new_inv s p e : inv s → inv (new_task p e s).2.
Proof.
  intros [Hw Hns]. unfold new_task, passert. case_bool_decide; [|done].
  assert (objs s !! (next_task_id s + 1) = None) as Hnew.
  { apply eq_None_not_Some. intros Hs. apply (wf_ids s Hw) in Hs. lia. }
  assert (∀ id, is_Some (objs s !! id) → id ≠ next_task_id s + 1) as Hne
    by (intros id [t Ht] ->; by rewrite Hnew in Ht).
  simpl. set (s' := Runner _ _ _ _ _ _ _ _).
  assert (∀ id t, objs s !! id = Some t → objs s' !! id = Some t) as Hobj
    by (intros id t Ht; unfold s'; simpl; rewrite lookup_insert_ne; [done|]; symmetry; apply Hne; eauto).
  split; [|done]. destruct Hw. split; try done.
  - intros q l Hq. destruct (wf_queues0 q l Hq) as [? HF]. split; [done|]. eapply Forall_impl; [exact HF|].
    intros id (t&?&?). exists t. eauto.
  - intros id Hid. destruct (wf_live0 id Hid) as (t&d&?&?). exists t, d. eauto.
  - intros id Hid Hx. apply (wf_exclusive0 id Hid). destruct (wf_live0 id) as (t&d&Ht&?); [by right|].
    unfold is_exclusive in *. by rewrite (Hobj id t Ht) in Hx; rewrite Ht.
  - intros id Hid. destruct (wf_started0 id Hid) as [|(t&?&?)]; [by left|]. right. exists t. eauto.
  - intros id (t&Ht&Hr&Hd). unfold s' in Ht; simpl in Ht.
    apply lookup_insert_Some in Ht as [[<- <-]|[_ Ht]]; [done|]. apply wf_working0. by exists t.
  - intros id Hid. destruct (wf_calls0 id Hid) as (t&?&?&?). exists t. eauto.
  - intros id. unfold s'; simpl. intros [t [[<- _]|[_ Ht]]%lookup_insert_Some]; [lia|].
    enough (id ≤ next_task_id s) by lia. eauto.
Qed.

Lemma cancel_inv s id : inv s → ∃ s', cancel_task id s = (Ok tt, s') ∧ inv s'.
Proof.
  intros Hi. pose proof Hi as [Hw Hns]. destruct (decide (id ∈ running_queue s)) as [Hr|Hr].
  - unfold cancel_task. rewrite (bind_ok _ _ s s s), decide_True by done.
    erewrite bind_ok by (by apply swallow_ok, stop_running). eexists. split; [done|].
    apply (inv_ended s); [done| |set_solver].
    pose proof (ended_settled s id stopped false Hw Hr) as []; [done|]. split; try done.
    intros x. simpl. by rewrite !CStart_app_run.
  - destruct (decide (id ∈ order (pending_queue s))) as [Ho|Ho].
    + destruct (cancel_pending s id Hw Ho) as (t&d&q&q'&Ht&Hd&Hf&Hq&Hp&->). eexists. split; [done|].
      apply (inv_ended s); [done| |set_solver]. eapply ended_unqueued; try done.
      intros t' Ht'. split; [|done]. intros d' [= <-]. by rewrite cancel_fails.
    + exists s. unfold cancel_task. rewrite (bind_ok _ _ s s s), decide_False by done.
      by rewrite existsb_pending, bool_decide_false.
Qed.
(** ** Calls of the reactor *)
Lemma wf_uncalled s c l : wf s → c = CRunNext ∨ (∃ id, c = CStart id ∧ (working s id ∨ id ∉ running_queue s)) →
  calls s ≡ₚ c :: l → wf (set_calls (λ _, l) s).
Proof.
  intros Hw Hc Hl. destruct Hw. split; try done.
  - intros id Hid. destruct (wf_started0 id Hid) as [Hs|]; [|by right]. rewrite Hl in Hs.
    apply elem_of_cons in Hs as [<-|]; [|by left]. destruct Hc as [|(?&[= <-]&[])]; [done|by right|done].
  - intros id Hid. apply wf_calls0. rewrite Hl. by apply elem_of_cons; right.
Qed.

Lemma task_start_run s id t d : objs s !! id = Some t → t_deferred t = Some d → fired d = None →
  task_start id s = (Ok tt, set_objs (alter (set_trunning true) id) s).
Proof.
  intros Ht Hd Hf. unfold task_start. rewrite (bind_ok _ _ s t s) by by apply the_task_run.
  by rewrite Hd, bool_decide_true.
Qed.

Lemma task_start_dead s id t : objs s !! id = Some t → dead t → task_start id s = (Err AssertionError, s).
Proof.
  intros Ht Hd. unfold task_start. rewrite (bind_ok _ _ s t s) by by apply the_task_run.
  destruct (t_deferred t) as [d|] eqn:Hd'; [|done]. by rewrite bool_decide_false by by apply Hd.
Qed.

Lemma wf_begun s id : wf s → id ∈ running_queue s → wf (set_objs (alter (set_trunning true) id) s).
Proof.
  intros Hw Hid. pose proof (wf_live s Hw id (or_intror Hid)) as (t&d&Ht&Hd&Hf&Hc).
  set (s' := set_objs _ s).
  assert (∀ x, objs s' !! x = if decide (x = id) then Some (set_trunning true t) else objs s !! x) as Hobj.
  { intros x. unfold s'; simpl. case_decide; [subst; by rewrite lookup_alter_eq, Ht|by rewrite lookup_alter_ne]. }
  assert (∀ x tx, objs s !! x = Some tx → ∃ tx', objs s' !! x = Some tx' ∧ t_priority tx' = t_priority tx ∧
    t_exclusive tx' = t_exclusive tx ∧ t_deferred tx' = t_deferred tx ∧ t_callbacks tx' = t_callbacks tx) as Hkeep.
  { intros x tx Hx. rewrite Hobj. case_decide; [|naive_solver]. simplify_eq. by eexists. }
  destruct Hw. split; try done.
  - intros q l Hq. destruct (wf_queues0 q l Hq) as [? HF]. split; [done|]. eapply Forall_impl; [exact HF|].
    intros x (tx&Hx&<-). destruct (Hkeep x tx Hx) as (tx'&?&?&_). eauto.
  - intros x Hx. destruct (wf_live0 x Hx) as (tx&dx&Htx&?&?&?). destruct (Hkeep x tx Htx) as (tx'&?&?&?&?&?).
    exists tx', dx. split_and!; congruence.
  - intros x Hx He. apply (wf_exclusive0 x Hx). destruct (wf_live0 x (or_intror Hx)) as (tx&_&Htx&_).
    destruct (Hkeep x tx Htx) as (tx'&Htx'&_&Hex&_). unfold is_exclusive in *. rewrite Htx' in He. rewrite Htx. simpl in *. congruence.
  - intros x Hx. destruct (decide (x = id)) as [->|Hne].
    + right. exists (set_trunning true t). rewrite Hobj, decide_True by done. split_and!; [done..|]. by eapply live_not_dead.
    + destruct (wf_started0 x Hx) as [|(tx&?&?)]; [by left|]. right. exists tx. by rewrite Hobj, decide_False.
  - intros x (tx&Hx&?). rewrite Hobj in Hx. case_decide; [by subst|]. apply wf_working0. by exists tx.
  - intros x Hx. destruct (wf_calls0 x Hx) as (tx&Htx&?&Hor). destruct (Hkeep x tx Htx) as (tx'&?&?&?&Hde&Hcb).
    exists tx'. split_and!; [done|congruence|]. destruct Hor as [|Hdead]; [by left|right]. unfold dead in *. by rewrite Hde.
  - intros x [tx Hx]. rewrite Hobj in Hx. apply wf_ids0. case_decide; [subst|]; eauto.
Qed.

(** What a call of the reactor leads to. *)
Lemma perform_cases s c : wf s → c ∈ calls s →
  ∃ l, calls s ≡ₚ c :: l ∧ let s0 := set_calls (λ _, l) s in
  match c with
  | CRunNext => ∃ pq k, perform (S depth) c s = (Ok tt, launched pq k s0) ∧ order (pending_queue s) = k ++ order pq ∧ inv (launched pq k s0)
  | CStart id =>
      if decide (id ∈ running_queue s)
      then perform (S depth) c s = (Ok tt, set_objs (alter (set_trunning true) id) s0)
      else perform (S depth) c s = (Err AssertionError, s0)
  end.
Proof.
  intros Hw Hc. destruct (list_remove1_spec c (calls s) Hc) as (l&Hl&Hp). exists l. split; [done|]. intros s0.
  assert (perform (S depth) c s = match c with CStart id => task_start id | CRunNext => run_next end s0) as ->.
  { unfold perform. rewrite (bind_ok _ _ s tt s0); [done|]. unfold modify, set_calls, s0. by rewrite Hl. }
  destruct c as [id|].
  - case_decide as Hid.
    + destruct (wf_live s Hw id (or_intror Hid)) as (t&d&?&?&?&_). by eapply task_start_run.
    + destruct (wf_calls s Hw id Hc) as (t&Ht&_&[|Hdead]); [done|]. by eapply task_start_dead.
  - assert (wf s0) as Hw0 by (eapply wf_uncalled; eauto).
    destruct (run_next_run depth s0 (wf_queues s0 Hw0)) as (pq&Hr&Ho&_).
    destruct (run_next_inv depth s0 Hw0) as (s'&Hr'&Hi). rewrite Hr in Hr'. injection Hr' as <-. eauto.
Qed.

Lemma istep_inv s s' : inv s → istep s s' → inv s'.
Proof.
  intros [Hw Hns]. intros [c Hc|id ok Hid].
  - destruct (perform_cases s c Hw Hc) as (l&Hl&Hrest). destruct c as [id|].
    + case_decide as Hid; rewrite Hrest; cbn [snd].
      * split.
        -- change (wf (set_calls (λ _, l) (set_objs (alter (set_trunning true) id) s))).
           apply (wf_uncalled _ (CStart id)); [by apply wf_begun| |done].
           right. exists id. split; [done|]. left. pose proof (wf_live s Hw id (or_intror Hid)) as (t&d&Ht&Hd&Hf&_).
           exists (set_trunning true t). simpl. rewrite lookup_alter_eq, Ht. split_and!; [done..|]. by eapply live_not_dead.
        -- intros Ha Hp. left. set_solver.
      * split; [eapply wf_uncalled; eauto|]. intros Ha Hp. destruct (Hns Ha Hp) as [|Hc']; [by left|right].
        simpl. rewrite Hl in Hc'. set_solver.
    + by destruct Hrest as (pq&k&->&_&Hi).
  - apply (wf_working s Hw) in Hid. destruct (complete_running id ok s Hw Hid) as (d&Hd&->).
    apply (inv_ended s); [by split| |set_solver]. apply ended_settled; [done..|]. intros t. split; [|done].
    intros d' [= <-]. by rewrite Hd.
Qed.

Lemma step_inv s s' : inv s → step s s' → inv s'.
Proof.
  intros Hi [].
  - by destruct (start_inv depth s Hi) as (?&->&?).
  - pose proof Hi as [Hw Hns]. destruct (stop_ended s Hw) as (s1&->&He&Ha&Hn). destruct (active s) eqn:Hact.
    + split; [by eapply wf_ended|]. intros Ha1. destruct Ha as [Ha _]; [done|]. cbn in Ha1. congruence.
    + by rewrite Hn.
  - by apply new_inv.
  - by destruct (queue_inv s id t Hi) as (?&->&?).
  - by destruct (cancel_inv s id Hi) as (?&->&?).
  - by eapply istep_inv.
Qed.

Lemma mkrunner_inv n : inv (mkrunner n).
Proof.
  split; [|done]. split; simpl; rewrite ?order_empty_map; try done; try set_solver.
  - constructor.
  - intros id (t&Ht&_). by vm_compute in Ht.
  - intros id [t Ht]. by vm_compute in Ht.
Qed.

Lemma reachable_inv n s : rtc step (mkrunner n) s → inv s.
Proof.
  intros Hr. assert (∀ s1 s2, rtc step s1 s2 → inv s1 → inv s2) as H.
  { induction 1; eauto using step_inv. }
  eapply H; [done|apply mkrunner_inv].
Qed.
(** ** What the runner promises *)

(** C12 While a task that asked for exclusive use of the channel is at work
    (started, its Deferred not fired), no other task is, whatever is queued,
    cancelled, completed, started or stopped, in any order of the reactor's
    calls. *)
Theorem exclusive_runs_alone n s i j :
  rtc step (mkrunner n) s → working s i → is_exclusive s i = true → working s j → j = i.
Proof.
  intros [Hw _]%reachable_inv Hi He Hj. apply (wf_working s Hw) in Hi, Hj.
  rewrite (wf_exclusive s Hw i Hi He) in Hj. set_solver.
Qed.

(** In every reachable state the runner starts exactly the tasks the
    reference order asks for: highest priority first, first come first served
    within a priority, up to the first task that cannot run together with the
    ones before it. *)
Theorem scheduling_order n s : rtc step (mkrunner n) s → (length (to_start s) ≤ S depth)%nat →
  ∃ pq, run_next s = (Ok tt, launched pq (to_start s) s) ∧ order (pending_queue s) = to_start s ++ order pq.
Proof.
  intros [Hw _]%reachable_inv Hlen. destruct (run_next_run depth s (wf_queues s Hw)) as (pq&Hr&Ho&_).
  rewrite take_ge in Hr, Ho by done. eauto.
Qed.

(** Starting, stopping, cancelling and queueing a fresh task never raise. *)
Lemma runner_never_raises n s : rtc step (mkrunner n) s →
  (start (S depth) s).1 = Ok tt ∧ (stop s).1 = Ok tt ∧ (∀ id, (cancel_task id s).1 = Ok tt) ∧
  ∀ id t, objs s !! id = Some t → fresh t → (queue_task (S depth) id s).1 = Ok tt.
Proof.
  intros Hi%reachable_inv. split_and!.
  - by destruct (start_inv depth s Hi) as (?&->&_).
  - destruct Hi as [Hw _]. by destruct (stop_ended s Hw) as (?&->&_).
  - intros id. by destruct (cancel_inv s id Hi) as (?&->&_).
  - intros id t Ht Hf. by destruct (queue_inv s id t Hi Ht Hf) as (?&->&_).
Qed.

(** *** Progress *)
Definition queued (s : runner) (id : Z) : Prop := id ∈ order (pending_queue s) ∨ id ∈ running_queue s.

Definition finished (s : runner) (id : Z) : Prop :=
  ∃ t d r, objs s !! id = Some t ∧ t_deferred t = Some d ∧ fired d = Some r.

Definition measure (s : runner) : nat :=
  3 * length (order (pending_queue s)) + 2 * size (running_queue s) + length (calls s).

Lemma size_list_to_set_le (l : list Z) (X : gset Z) : (size (list_to_set l ∪ X) ≤ length l + size X)%nat.
Proof.
  induction l as [|x l IH]; simpl; [by rewrite union_empty_l_L|].
  rewrite <-(assoc_L (∪)). destruct (decide (x ∈ list_to_set l ∪ X)) as [Hx|Hx].
  - rewrite (subseteq_union_1_L {[x]}) by set_solver. lia.
  - rewrite size_union, size_singleton by set_solver. lia.
Qed.

Lemma istep_measure s s' : inv s → istep s s' → (measure s' < measure s)%nat ∧ active s' = active s.
Proof.
  intros [Hw _] [c Hc|id ok Hid].
  - destruct (perform_cases s c Hw Hc) as (l&Hl&Hrest). apply Permutation_length in Hl. simpl in Hl. unfold measure.
    destruct c as [id|]; [case_decide; rewrite Hrest; simpl; split; done || lia|].
    destruct Hrest as (pq&k&->&Ho&_). rewrite Ho. simpl. rewrite !length_app, length_fmap.
    pose proof (size_list_to_set_le k (running_queue s)). split; [lia|done].
  - apply (wf_working s Hw) in Hid. destruct (complete_running id ok s Hw Hid) as (d&Hd&->).
    unfold measure; simpl. rewrite length_app, size_difference, size_singleton by set_solver. simpl.
    assert (size (running_queue s) ≠ 0%nat) by (intros ?%size_empty_inv; set_solver). split; [lia|done].
Qed.

Lemma istep_track s s' id : inv s → istep s s' →
  (queued s id → queued s' id ∨ finished s' id) ∧ (finished s id → finished s' id).
Proof.
  intros [Hw _] [c Hc|i ok Hi].
  - destruct (perform_cases s c Hw Hc) as (l&Hl&Hrest). destruct c as [i|].
    + case_decide; rewrite Hrest; [|by split; [left|]]. split; [by left|]. intros (t&d&r&Ht&Hd&Hr). cbn [snd].
      destruct (decide (id = i)) as [->|].
      * exists (set_trunning true t), d, r. simpl. by rewrite lookup_alter_eq, Ht.
      * exists t, d, r. simpl. by rewrite lookup_alter_ne.
    + destruct Hrest as (pq&k&->&Ho&_). split; [|done]. intros Hq. left. unfold queued in *. simpl.
      rewrite Ho in Hq. rewrite elem_of_union, elem_of_list_to_set. set_solver.
  - apply (wf_working s Hw) in Hi. destruct (complete_running i ok s Hw Hi) as (d&Hd&->). cbn [snd].
    destruct (wf_live s Hw i (or_intror Hi)) as (ti&di&Hti&Hdi&Hfi&_).
    destruct (decide (id = i)) as [->|Hne].
    + assert (finished (settled i (set_deferred (Some d)) ok s) i) as Hfin; [|naive_solver].
      exists (set_deferred (Some d) ti), d, ok. simpl. by rewrite lookup_alter_eq, Hti.
    + split.
      * intros [?|?]; left; [by left|right]. set_solver.
      * intros (t&d'&r&?). exists t, d', r. simpl. by rewrite lookup_alter_ne.
Qed.

Lemma quiescent_drained s : inv s → active s = true → (∀ s', ¬ istep s s') → ∀ id, ¬ queued s id.
Proof.
  intros [Hw Hns] Ha Hno.
  assert (calls s = []) as Hc.
  { destruct (calls s) as [|c l] eqn:Hc; [done|]. exfalso. eapply Hno. apply (i_call s c). rewrite Hc. set_solver. }
  assert (running_queue s = ∅) as Hr.
  { apply set_eq. intros id. split; [|set_solver]. intros Hid. destruct (wf_started s Hw id Hid) as [H|H].
    - rewrite Hc in H. set_solver.
    - exfalso. eapply Hno. by apply (i_complete s id true). }
  assert (pending_queue s = ∅) as Hp.
  { destruct (decide (pending_queue s = ∅)) as [|Hp]; [done|]. destruct (Hns Ha Hp) as [|H]; [done|].
    rewrite Hc in H. set_solver. }
  intros id [Hid|Hid]; [rewrite Hp, order_empty_map in Hid|rewrite Hr in Hid]; set_solver.
Qed.

(** C20 Every task that is pending or running gets done: from a reachable state
    of an active runner, if nothing is done but the reactor making its calls
    and tasks at work ending, in whatever order, then only a bounded number of
    such steps is possible, and when no more is possible every task has been
    run and its Deferred has fired. *)
Theorem runner_drains n s k s' :
  rtc step (mkrunner n) s → active s = true → nsteps istep k s s' →
  (k ≤ measure s)%nat ∧
  ((∀ s'', ¬ istep s' s'') → (∀ id, ¬ queued s' id) ∧ (∀ id, queued s id → finished s' id)).
Proof.
  intros Hi%reachable_inv Ha Hsteps.
  assert (inv s' ∧ active s' = true ∧ (measure s' + k ≤ measure s)%nat ∧
          (∀ id, queued s id → queued s' id ∨ finished s' id) ∧ (∀ id, finished s id → finished s' id))
    as (Hi'&Ha'&Hm&Hq&_).
  { clear n. induction Hsteps as [|k s1 s2 s3 H12 _ IH]; [split_and!; auto; lia|].
    destruct (istep_measure s1 s2 Hi H12) as [Hlt Hact].
    destruct IH as (?&?&?&IHq&IHf); [by eapply istep_inv|congruence|]. split_and!; [done..|lia| |].
    - intros id Hid. destruct (istep_track s1 s2 id Hi H12) as [Ht _]. destruct (Ht Hid); [by apply IHq|right; by apply IHf].
    - intros id Hid. apply IHf. by destruct (istep_track s1 s2 id Hi H12) as [_ ?]; auto. }
  split; [lia|]. intros Hno. pose proof (quiescent_drained s' Hi' Ha' Hno) as Hd. split; [done|].
  intros id Hid. destruct (Hq id Hid) as [H|]; [by apply Hd in H|done].
Qed.

(** Stopping the runner forgets the pending tasks: they are in no queue
    afterwards and their Deferreds have not been cancelled, because the loop
    that should do it calls [cancel] on the priorities. *)
Theorem stop_forgets_pending n s id :
  rtc step (mkrunner n) s → active s = true → id ∈ order (pending_queue s) →
  ¬ queued (stop s).2 id ∧ objs (stop s).2 !! id = objs s !! id ∧ live (stop s).2 id.
Proof.
  intros [Hw _]%reachable_inv Ha Hid. destruct (stop_ended s Hw) as (s'&->&_&Hs&_).
  destruct (Hs Ha) as (_&Hp&Hr&_&_&Ho). cbn [snd].
  assert (objs s' !! id = objs s !! id) as Heq.
  { rewrite Ho, foldl_alter_lookup by apply NoDup_iteritems_keys. rewrite decide_False; [done|].
    rewrite list_elem_of_fmap. intros ([? []]&->&[? _]%elem_of_iteritems%lookup_gset_to_gmap_Some).
    by eapply (wf_disjoint s Hw). }
  split_and!; [|done|].
  - unfold queued. rewrite Hp, Hr, order_empty_map. set_solver.
  - destruct (wf_live s Hw id (or_introl Hid)) as (t&d&?&?). exists t, d. by rewrite Heq.
Qed.
End invariant.

(** ** A sample run

    An exclusive task works while two others, of different priority, wait. *)
Section sample.
Local Existing Instance plain_order.
Local Existing Instance plain_deferreds.
Local Existing Instance plain_deferred_laws.

Local Abbreviation D := 100%nat.

Definition sample_started : runner := Eval vm_compute in
  (start D (new_task 50 false (new_task 200 false (new_task 128 true (mkrunner 0)).2).2).2).2.
Definition sample_queued1 : runner := Eval vm_compute in (queue_task D 1 sample_started).2.
Definition sample_queued2 : runner := Eval vm_compute in (queue_task D 2 sample_queued1).2.
Definition sample_queued : runner := Eval vm_compute in (queue_task D 3 sample_queued2).2.
Definition sample_working : runner := Eval vm_compute in (perform D (CStart 1) sample_queued).2.
Definition sample_ended1 : runner := Eval vm_compute in (complete 1 true sample_working).2.
Definition sample_both : runner := Eval vm_compute in (perform D CRunNext sample_ended1).2.
Definition sample_begun2 : runner := Eval vm_compute in (perform D (CStart 2) sample_both).2.
Definition sample_begun3 : runner := Eval vm_compute in (perform D (CStart 3) sample_begun2).2.
Definition sample_ended2 : runner := Eval vm_compute in (complete 2 false sample_begun3).2.
Definition sample_ended3 : runner := Eval vm_compute in (complete 3 true sample_ended2).2.
Definition sample_looked : runner := Eval vm_compute in (perform D CRunNext sample_ended3).2.
Definition sample_drained : runner := Eval vm_compute in (perform D CRunNext sample_looked).2.

Lemma call_to c s s' : c ∈ calls s → (perform D c s).2 = s' → istep 99 s s'.
Proof. intros ? <-. by apply (i_call 99). Qed.
Lemma complete_to id ok s s' : working s id → (complete id ok s).2 = s' → istep 99 s s'.
Proof. intros ? <-. by apply (i_complete 99). Qed.
Lemma queue_to id t s s' : objs s !! id = Some t → fresh t → (queue_task D id s).2 = s' → step 99 s s'.
Proof. intros ?? <-. by apply (s_queue 99 s id t). Qed.

Lemma sample_task p e : fresh (Task p e false (Some Deferred) 0 true).
Proof. split; [done|]. split; [done|]. by exists Deferred. Qed.

Lemma sample_started_reachable : rtc (step 99) (mkrunner 0) sample_started.
Proof.
  eapply rtc_l; [apply (s_new 99 _ 128 true)|]. eapply rtc_l; [apply (s_new 99 _ 200 false)|].
  eapply rtc_l; [apply (s_new 99 _ 50 false)|]. eapply rtc_l; [apply s_start|].
  match goal with |- rtc _ ?a ?b => assert (a = b) as -> by (vm_compute; reflexivity) end. apply rtc_refl.
Qed.

Lemma sample_queued_reachable : rtc (step 99) (mkrunner 0) sample_queued.
Proof.
  eapply rtc_r; [eapply rtc_r; [eapply rtc_r; [apply sample_started_reachable|]|]|].
  - apply (queue_to 1 (Task 128 true false (Some Deferred) 0 true) _ sample_queued1);
      [vm_compute; reflexivity|apply sample_task|vm_compute; reflexivity].
  - apply (queue_to 2 (Task 200 false false (Some Deferred) 0 true) _ sample_queued2);
      [vm_compute; reflexivity|apply sample_task|vm_compute; reflexivity].
  - apply (queue_to 3 (Task 50 false false (Some Deferred) 0 true));
      [vm_compute; reflexivity|apply sample_task|vm_compute; reflexivity].
Qed.

Lemma sample_working_reachable : rtc (step 99) (mkrunner 0) sample_working.
Proof.
  eapply rtc_r; [apply sample_queued_reachable|]. apply s_internal, (call_to (CStart 1));
    [apply (bool_decide_unpack _); vm_compute; exact I|vm_compute; reflexivity].
Qed.

Definition workingb (s : runner) (id : Z) : bool :=
  match objs s !! id with
  | Some t => t_running t && match t_deferred t with Some d => bool_decide (fired d = None) | None => false end
  | None => false
  end.

Lemma workingb_spec s id : workingb s id = true ↔ working s id.
Proof.
  unfold workingb, working. split.
  - destruct (objs s !! id) as [t|]; [|done]. intros [Hr Hd]%andb_true_iff. exists t. split_and!; [done..|].
    destruct (t_deferred t) as [d|] eqn:Hd'; [|done]. apply bool_decide_eq_true in Hd. by eapply live_not_dead.
  - intros (t&->&->&Hnd). simpl. destruct (t_deferred t) as [d|] eqn:Hd.
    + apply bool_decide_eq_true. destruct (fired d) eqn:Hf; [|done]. exfalso. apply Hnd. intros ? ?. congruence.
    + exfalso. apply Hnd. intros ? ?. congruence.
Qed.

Lemma exclusive_runs_alone_witness :
  working sample_working 1 ∧ is_exclusive sample_working 1 = true ∧ ¬ working sample_working 2.
Proof.
  assert (working sample_working 1) as Hw by (apply workingb_spec; vm_compute; reflexivity).
  split; [exact Hw|]. split; [vm_compute; reflexivity|]. intros H.
  pose proof (exclusive_runs_alone 99 0 sample_working 1 2 sample_working_reachable Hw
    ltac:(vm_compute; reflexivity) H) as E. discriminate E.
Defined.

Lemma scheduling_order_witness :
  to_start sample_ended1 = [2; 3] ∧
  ∃ pq, run_next_task 100 sample_ended1 =
          (Ok tt, launched pq (to_start sample_ended1) sample_ended1) ∧
        order (pending_queue sample_ended1) =
          to_start sample_ended1 ++ order pq.
Proof.
  split; [vm_compute; reflexivity|]. apply (scheduling_order 99 0).
  - eapply rtc_r; [apply sample_working_reachable|]. apply s_internal, (complete_to 1 true);
      [apply workingb_spec|]; vm_compute; reflexivity.
  - assert (to_start sample_ended1 = [2; 3]) as -> by (vm_compute; reflexivity). simpl. lia.
Defined.

Lemma runner_drains_witness :
  (8 ≤ measure sample_working)%nat ∧ finished sample_drained 1 ∧ finished sample_drained 2 ∧ finished sample_drained 3.
Proof.
  assert (active sample_working = true) as Ha by (vm_compute; reflexivity).
  assert (nsteps (istep 99) 8 sample_working sample_drained) as Hn.
  { apply (nsteps_l _ _ _ sample_ended1); [apply (complete_to 1 true)|
    apply (nsteps_l _ _ _ sample_both); [apply (call_to CRunNext)|
    apply (nsteps_l _ _ _ sample_begun2); [apply (call_to (CStart 2))|
    apply (nsteps_l _ _ _ sample_begun3); [apply (call_to (CStart 3))|
    apply (nsteps_l _ _ _ sample_ended2); [apply (complete_to 2 false)|
    apply (nsteps_l _ _ _ sample_ended3); [apply (complete_to 3 true)|
    apply (nsteps_l _ _ _ sample_looked); [apply (call_to CRunNext)|
    apply (nsteps_l _ _ _ sample_drained); [apply (call_to CRunNext)|apply nsteps_O]]]]]]]];
    first [apply workingb_spec; vm_compute; reflexivity | vm_compute; reflexivity
          | apply (bool_decide_unpack _); vm_compute; exact I]. }
  pose proof (runner_drains 99 0 sample_working 8 sample_drained sample_working_reachable Ha Hn) as [Hk Hd].
  destruct Hd as [_ Hd].
  { intros s'' H. destruct H as [c Hc|id ok Hid].
    - assert (calls sample_drained = []) as E by (vm_compute; reflexivity). rewrite E in Hc. inversion Hc.
    - assert (map_Forall (λ i _, workingb sample_drained i = false) (objs sample_drained)) as HF
        by (apply (bool_decide_unpack _); vm_compute; exact I).
      pose proof Hid as (t&Ht&_). apply workingb_spec in Hid. rewrite (HF id t Ht) in Hid. discriminate. }
  split; [exact Hk|]. split; [apply Hd; right|split; apply Hd; left]; apply (bool_decide_unpack _); vm_compute; exact I.
Defined.

Lemma stop_forgets_pending_witness :
  2 ∈ order (pending_queue sample_working) ∧
  (¬ queued (stop sample_working).2 2 ∧ objs (stop sample_working).2 !! 2 = objs sample_working !! 2 ∧
   live (stop sample_working).2 2).
Proof.
  assert (2 ∈ order (pending_queue sample_working)) as H by (apply (bool_decide_unpack _); vm_compute; exact I).
  split; [exact H|]. apply (stop_forgets_pending 99 0); [apply sample_working_reachable|vm_compute; reflexivity|exact H].
Defined.

(** Queueing a task that was stopped raises, and leaves an empty queue of its
    priority behind: a task of lower priority then never starts. *)
Lemma stopped_task_wedges_runner :
  let s := (start D (new_task 50 false (task_stop 1 (new_task 200 false (mkrunner 0)).2).2).2).2 in
  let s1 := queue_task D 1 s in
  s1.1 = Err AttributeError ∧ pending_queue s1.2 !! 200 = Some [] ∧
  let s2 := (queue_task D 2 s1.2).2 in
  running_queue s2 = ∅ ∧ pending_queue s2 !! 50 = Some [2] ∧ calls s2 = [].
Proof. vm_compute. auto. Qed.
End sample.
