(* ===== verification/RunnerApi.v ===== *)
(** * The task runner as its users see it

    The interface [TaskRunnerApi] between the runner (TaskRunner.v) and the
    state machines that queue tasks on it (MibSync.v), its laws, and the
    instance for [TaskRunner]. *)
From stdpp Require Import base gmap list strings relations.
From S2P Require Import Prelude TaskRunner.
From Stdlib Require Import ZArith Lia.

Local Open Scope Z_scope.

(** ** Interface

    Submitting a task ([queue_task] of a new one), stopping one, cancelling its
    Deferred, starting and stopping the runner; [rt_live] are the tasks whose Deferred has not fired,
    [rt_last] is the last identifier given to a task.
    Operations that make Deferreds fire say which, for the callbacks that users
    have added to them. *)
Class TaskRunnerApi := {
  rt : Type;
  rt_live : rt → gset Z;
  rt_last : rt → Z;
  rt_working : rt → Z → Prop;
  rt_start : rt → rt;
  rt_halt : rt → rt * list Z;
  rt_submit : Z → bool → rt → result Z * rt;
  rt_cancel : Z → rt → rt * bool;
  rt_dcancel : Z → rt → rt * bool;
  rt_end : Z → bool → rt → rt;
  rt_internal : rt → rt → Prop;
}.

Class TaskRunnerLaws {HR : TaskRunnerApi} := {
  rt_ok : rt → Prop;
  rt_live_last r id : rt_ok r → id ∈ rt_live r → id ≤ rt_last r;
  rt_start_ok r : rt_ok r →
    rt_ok (rt_start r) ∧ rt_live (rt_start r) = rt_live r ∧ rt_last (rt_start r) = rt_last r;
  rt_halt_ok r : rt_ok r →
    rt_ok (rt_halt r).1 ∧ NoDup (rt_halt r).2 ∧ list_to_set (rt_halt r).2 ⊆ rt_live r ∧
    rt_live (rt_halt r).1 = rt_live r ∖ list_to_set (rt_halt r).2 ∧ rt_last (rt_halt r).1 = rt_last r;
  rt_submit_ok p e r : rt_ok r → 0 ≤ p ≤ 255 →
    ∃ id r', rt_submit p e r = (Ok id, r') ∧ rt_ok r' ∧ rt_last r < id ∧ rt_last r' = id ∧
             rt_live r' = {[id]} ∪ rt_live r;
  rt_cancel_ok id r : rt_ok r →
    rt_ok (rt_cancel id r).1 ∧ (rt_cancel id r).2 = bool_decide (id ∈ rt_live r) ∧
    rt_live (rt_cancel id r).1 = rt_live r ∖ {[id]} ∧ rt_last (rt_cancel id r).1 = rt_last r;
  rt_dcancel_ok id r : rt_ok r →
    rt_ok (rt_dcancel id r).1 ∧ (rt_dcancel id r).2 = bool_decide (id ∈ rt_live r) ∧
    rt_live (rt_dcancel id r).1 = rt_live r ∖ {[id]} ∧ rt_last (rt_dcancel id r).1 = rt_last r;
  rt_end_ok id ok r : rt_ok r → rt_working r id →
    id ∈ rt_live r ∧ rt_ok (rt_end id ok r) ∧ rt_live (rt_end id ok r) = rt_live r ∖ {[id]} ∧
    rt_last (rt_end id ok r) = rt_last r;
  rt_internal_ok r r' : rt_ok r → rt_internal r r' →
    rt_ok r' ∧ rt_live r' = rt_live r ∧ rt_last r' = rt_last r;
}.

(** ** TaskRunner *)
Section instance.
Context {HO : DictOrder} {HD : Deferreds} {HL : DeferredLaws} (depth : nat).

Definition alive (t : task) : Prop := ∃ d, t_deferred t = Some d ∧ fired d = None.

#[global] Instance alive_dec t : Decision (alive t).
Proof.
  refine (match t_deferred t as x return t_deferred t = x → _ with
          | Some d => λ E, if decide (fired d = None) then left _ else right _
          | None => λ E, right _ end eq_refl); unfold alive; naive_solver.
Defined.

Definition live_tasks (s : runner) : gset Z := dom (filter (λ p, alive p.2) (objs s)).

Definition submit (priority : Z) (exclusive : bool) (s : runner) : result Z * runner :=
  (id ← new_task priority exclusive; _ ← queue_task (S depth) id; mret id) s.

(** [task.deferred.cancel()] *)
Definition deferred_cancel (id : Z) : M runner unit :=
  t ← the_task id;
  match t_deferred t with
  | Some d => _ ← upd_task id (set_deferred (Some (dcancel d))); cancel_it id d
  | None => mret tt
  end.

#[local] Instance task_runner_api : TaskRunnerApi := {|
  rt := runner;
  rt_live := live_tasks;
  rt_last := next_task_id;
  rt_working := working;
  rt_start s := (start (S depth) s).2;
  rt_halt s := ((stop s).2, if active s then (iteritems (gset_to_gmap tt (running_queue s))).*1 else []);
  rt_submit := submit;
  rt_cancel id s := ((task_stop id s).2, bool_decide (id ∈ live_tasks s));
  rt_dcancel id s := ((deferred_cancel id s).2, bool_decide (id ∈ live_tasks s));
  rt_end id ok s := (complete id ok s).2;
  rt_internal s s' := ∃ c, c ∈ calls s ∧ s' = (perform (S depth) c s).2;
|}.

(** Every task with an unfired Deferred was queued once. *)
Definition runner_ok (s : runner) : Prop :=
  inv s ∧ ∀ id t, objs s !! id = Some t → alive t → t_callbacks t = 1%nat.

Lemma elem_of_live s id : id ∈ live_tasks s ↔ ∃ t, objs s !! id = Some t ∧ alive t.
Proof.
  unfold live_tasks. rewrite elem_of_dom. split.
  - intros [t [? ?]%map_lookup_filter_Some]. eauto.
  - intros (t&?&?). exists t. by apply map_lookup_filter_Some.
Qed.

Lemma alive_not_dead t : alive t ↔ ¬ dead t.
Proof.
  unfold alive, dead. split; [naive_solver|]. intros H. destruct (t_deferred t) as [d|] eqn:Hd; [|exfalso; naive_solver].
  destruct (fired d) eqn:Hf; [|naive_solver]. exfalso. apply H. intros ? [= ->]. by rewrite Hf.
Qed.

(** When one task's Deferred fires or is dropped. *)
Lemma one_ended s s' id f :
  runner_ok s → objs s' = alter f id (objs s) → (∀ t, objs s !! id = Some t → dead (f t)) → inv s' →
  runner_ok s' ∧ live_tasks s' = live_tasks s ∖ {[id]}.
Proof.
  intros [_ Hc] Ho Hd Hi. split.
  - split; [done|]. intros x t. rewrite Ho. destruct (decide (x = id)) as [->|].
    + rewrite lookup_alter_eq. intros (t'&Ht'&->)%fmap_Some Hal. by apply alive_not_dead in Hal; destruct Hal; auto.
    + rewrite lookup_alter_ne by done. eauto.
  - apply set_eq. intros x. rewrite elem_of_difference, elem_of_singleton, !elem_of_live, Ho.
    destruct (decide (x = id)) as [->|Hne].
    + rewrite lookup_alter_eq. split; [|naive_solver]. intros (t&(t'&Ht'&->)%fmap_Some&Hal).
      by apply alive_not_dead in Hal; destruct Hal; auto.
    + rewrite lookup_alter_ne by done. naive_solver.
Qed.

Lemma same_live s s' : runner_ok s → inv s' → (∀ id, alive <$> objs s' !! id = alive <$> objs s !! id) →
  (∀ id, t_callbacks <$> objs s' !! id = t_callbacks <$> objs s !! id) →
  runner_ok s' ∧ live_tasks s' = live_tasks s.
Proof.
  intros [_ Hc] Hi Ha Hcb. split.
  - split; [done|]. intros id t Ht Hal. specialize (Ha id). specialize (Hcb id). rewrite Ht in Ha, Hcb. simpl in *.
    destruct (objs s !! id) as [t0|] eqn:Ht0; [|done]. simpl in *. injection Ha as Ha. injection Hcb as Hcb.
    rewrite Hcb. eapply Hc; [done|]. by rewrite <-Ha.
  - apply set_eq. intros id. rewrite !elem_of_live. specialize (Ha id).
    destruct (objs s' !! id) as [t'|], (objs s !! id) as [t|]; simpl in Ha; try done.
    injection Ha as Ha. split; intros (?&[= <-]&?); eexists; (split; [done|]); congruence.
Qed.
(** The errback of the runner for a live task, in a state where its object
    was changed by [g]: it leaves the queues. *)
Lemma failure_on_live s id t g :
  wf s → objs s !! id = Some t → alive t → (∀ t, t_priority (g t) = t_priority t) →
  ∃ s', swallow (on_task_failure id) (set_objs (alter g id) s) = (Ok tt, s') ∧ objs s' = alter g id (objs s) ∧
    CRunNext ∈ calls s' ∧ ∀ f, (∀ t, dead (f t) ∧ t_callbacks (f t) = t_callbacks t) →
      ended s (set_objs (λ _, alter f id (objs s)) s').
Proof.
  intros Hw Ht Hal Hg. set (s1 := set_objs (alter g id) s).
  destruct (decide (id ∈ running_queue s)) as [Hr|Hr].
  { exists (settled id (λ t, t) false s1). split_and!.
    - by apply swallow_ok, on_failure_running.
    - simpl. by rewrite alter_id.
    - set_solver.
    - intros f Hf. by apply (ended_settled s id f false Hw Hr). }
  destruct (decide (id ∈ order (pending_queue s))) as [Ho|Ho].
  { destruct (pending_queue_of s id Hw Ho) as (t'&d&q&q'&Ht'&_&_&_&Hq&Hrem&Hperm).
    rewrite Ht in Ht'. injection Ht' as <-. exists (unqueued id (t_priority t) q' (λ t, t) s1). split_and!.
    - apply swallow_ok. rewrite <-(Hg t). eapply on_failure_pending; [done..| | |done].
      + simpl. by rewrite lookup_alter_eq, Ht.
      + by rewrite Hg.
    - simpl. by rewrite alter_id.
    - set_solver.
    - intros f Hf. eapply (ended_unqueued s id t q q' f); try done; auto. }
  exists (set_calls (λ l, l ++ [CRunNext]) s1). split_and!.
  - unfold swallow, on_task_failure, try_finally. rewrite (bind_ok _ _ s1 (running_queue s1) s1), decide_False by done.
    rewrite (bind_ok _ _ s1 (pending_queue s1) s1) by done. rewrite existsb_pending, bool_decide_false by done. done.
  - done.
  - set_solver.
  - intros f Hf. split; simpl; try apply Hw; try set_solver.
    intros x. destruct (alter_dead f id (objs s) x) as [|(->&?)]; [auto|by left|]. right. auto.
Qed.

Lemma dead_changed s id f : wf s → (∀ t, objs s !! id = Some t → dead t) →
  (∀ t, dead (f t) ∧ t_callbacks (f t) = t_callbacks t) → ended s (set_objs (alter f id) s).
Proof.
  intros Hw Hd Hf.
  assert (∀ x, x = id → x ∉ order (pending_queue s) ∧ x ∉ running_queue s) as Hout.
  { intros x ->. split; intros Hx;
      (destruct (wf_live s Hw id) as (t&d&Ht&Hdf&Hfd&_); [auto|]; by apply (Hd t Ht d)). }
  split; simpl; try apply Hw; try done.
  intros x. destruct (alter_dead f id (objs s) x) as [|(->&?)]; [auto|by left|]. right. naive_solver.
Qed.

Lemma not_live_dead s id t : id ∉ live_tasks s → objs s !! id = Some t → dead t.
Proof.
  intros Hl Ht d Hd Hf. apply Hl, elem_of_live. exists t. split; [done|]. by exists d.
Qed.

Lemma inv_dead_changed s id f : runner_ok s → id ∉ live_tasks s →
  (∀ t, dead (f t) ∧ t_callbacks (f t) = t_callbacks t) → inv (set_objs (alter f id) s).
Proof.
  intros [[Hw Hns] _] Hl Hf. split; [|done]. eapply wf_ended; [done|]. apply dead_changed; [done| |done].
  intros t. by apply not_live_dead.
Qed.

Lemma stop_unknown s id : objs s !! id = None → (task_stop id s).2 = s.
Proof.
  intros Ht. assert (∀ f, set_objs (alter f id) s = s) as Hid.
  { intros f. unfold set_objs. destruct s; simpl in *. f_equal. apply map_eq. intros x.
    destruct (decide (x = id)) as [->|]; [by rewrite lookup_alter_eq, Ht|by rewrite lookup_alter_ne]. }
  unfold task_stop. rewrite (bind_ok _ _ s tt s) by (unfold upd_task, modify; by rewrite Hid).
  unfold cancel_deferred, the_task. erewrite bind_err; [done|]. erewrite bind_err; [done|].
  rewrite (bind_ok _ _ s (objs s) s) by done. by rewrite Ht.
Qed.

Lemma stop_dead s id t : objs s !! id = Some t → dead t →
  (task_stop id s).2 = set_objs (alter stopped id) s.
Proof.
  intros Ht Hd. unfold task_stop. set (s1 := set_objs (alter (set_trunning false) id) s).
  rewrite (bind_ok _ _ s tt s1) by done. unfold cancel_deferred.
  rewrite (bind_ok _ _ s1 tt (set_objs (alter (set_deferred None) id) s1)).
  - unfold upd_task, modify, s1, set_objs; simpl. by rewrite !alter_alter.
  - rewrite (bind_ok _ _ s1 (set_trunning false t) s1) by (apply the_task_run; simpl; by rewrite lookup_alter_eq, Ht).
    erewrite bind_ok by done. simpl. destruct (t_deferred t) as [d|] eqn:Hdf; [|done].
    destruct (fired d) eqn:Hf; [done|]. exfalso. by apply (Hd d).
Qed.

Lemma cancel_law id s : runner_ok s →
  runner_ok (task_stop id s).2 ∧ live_tasks (task_stop id s).2 = live_tasks s ∖ {[id]}.
Proof.
  intros Hok. pose proof Hok as [[Hw Hns] Hc].
  destruct (objs s !! id) as [t|] eqn:Ht.
  2: { rewrite stop_unknown by done. split; [done|]. apply set_eq. intros x.
       rewrite elem_of_difference, elem_of_singleton. split; [|naive_solver]. intros Hx. split; [done|].
       intros ->. apply elem_of_live in Hx as (?&?&_). congruence. }
  destruct (decide (alive t)) as [Hal|Hal].
  - pose proof Hal as (d&Hd&Hf).
    destruct (failure_on_live s id t (set_deferred None ∘ set_trunning false) Hw Ht Hal) as (s'&Hr&Ho&Hcr&He); [done|].
    rewrite (task_stop_run id t d s s' Ht Hd Hf (Hc _ _ Ht Hal) Hr). cbn [snd].
    assert (set_objs (alter drop_agent id) s' = set_objs (λ _, alter stopped id (objs s)) s') as ->
      by (unfold set_objs; by rewrite Ho, alter_alter).
    apply (one_ended s _ id stopped); [done..|]. apply (inv_ended s); [done| |done]. by apply He.
  - rewrite (stop_dead s id t) by (done || (intros d ??; apply Hal; by exists d)).
    apply (one_ended s _ id stopped); [done..|]. apply inv_dead_changed; [done| |done].
    intros (t'&Ht'&?)%elem_of_live. congruence.
Qed.
Lemma dcancel_law id s : runner_ok s →
  runner_ok (deferred_cancel id s).2 ∧ live_tasks (deferred_cancel id s).2 = live_tasks s ∖ {[id]}.
Proof.
  intros Hok. pose proof Hok as [[Hw Hns] Hc]. unfold deferred_cancel.
  assert (id ∉ live_tasks s → runner_ok s ∧ live_tasks s = live_tasks s ∖ {[id]}) as Hsame.
  { intros Hid. split; [done|]. set_solver. }
  destruct (objs s !! id) as [t|] eqn:Ht.
  2: { unfold the_task. erewrite bind_err.
       2: { rewrite (bind_ok _ _ s (objs s) s) by done. by rewrite Ht. }
       apply Hsame. intros (?&?&_)%elem_of_live. congruence. }
  rewrite (bind_ok _ _ s t s) by by apply the_task_run. destruct (t_deferred t) as [d|] eqn:Hd.
  2: { apply Hsame. intros (t'&Ht'&d&Hd'&_)%elem_of_live. by simplify_eq. }
  set (g := set_deferred (Some (dcancel d))).
  rewrite (bind_ok _ _ s tt (set_objs (alter g id) s)) by done. unfold cancel_it.
  destruct (fired d) as [r|] eqn:Hf.
  - assert (id ∉ live_tasks s) as Hid by (intros (t'&Ht'&d'&Hd'&?)%elem_of_live; by simplify_eq).
    assert (∀ t0, objs s !! id = Some t0 → dead (g t0)) as Hg.
    { intros t0 _ d' [= <-]. by rewrite (cancel_keeps d r Hf). }
    apply (one_ended s _ id g); [done..|]. split; [|done]. eapply wf_ended; [done|].
    assert (∀ x, x = id → x ∉ order (pending_queue s) ∧ x ∉ running_queue s) as Hout.
    { intros x ->. split; intros Hx; (destruct (wf_live s Hw id) as (t'&d'&Ht'&Hdf&Hfd&_); [auto|]; by simplify_eq). }
    split; simpl; try apply Hw; try done.
    intros x. destruct (alter_dead g id (objs s) x) as [|(->&?)]; [by auto|by left|]. right. naive_solver.
  - assert (alive t) as Hal by by exists d.
    destruct (failure_on_live s id t g Hw Ht Hal) as (s'&Hr&Ho&Hcr&He); [done|].
    rewrite (bind_ok _ _ _ (g t) (set_objs (alter g id) s)) by (apply the_task_run; simpl; by rewrite lookup_alter_eq, Ht).
    change (t_callbacks (g t)) with (t_callbacks t). rewrite (Hc _ _ Ht Hal), (run_callbacks_one id false _ s' Hr). cbn [snd].
    assert (∀ t, dead (g t)) as Hdead by (intros t0 d' [= <-]; by rewrite cancel_fails).
    apply (one_ended s _ id g); [done..|]. apply (inv_ended s); [done| |done].
    specialize (He g ltac:(by split)). replace s' with (set_objs (λ _, alter g id (objs s)) s'); [done|].
    unfold set_objs. rewrite <-Ho. by destruct s'.
Qed.

Lemma submit_law p e s : runner_ok s → 0 ≤ p ≤ 255 →
  ∃ id s', submit p e s = (Ok id, s') ∧ runner_ok s' ∧ next_task_id s < id ∧ next_task_id s' = id ∧
    live_tasks s' = {[id]} ∪ live_tasks s.
Proof.
  intros [Hi Hc] Hp. pose proof Hi as [Hw _]. set (id := next_task_id s + 1).
  set (t := Task p e false (Some Deferred) 0 true). pose proof (new_inv s p e Hi) as Hi1.
  assert (new_task p e s = (Ok id, (new_task p e s).2)) as Hnew.
  { unfold new_task. by rewrite bool_decide_true by done. }
  set (s1 := (new_task p e s).2) in *.
  assert (objs s1 = <[id := t]> (objs s)) as Ho1 by (unfold s1, new_task; by rewrite bool_decide_true by done).
  assert (objs s1 !! id = Some t) as Ht by (rewrite Ho1; apply lookup_insert_eq).
  assert (fresh t) as Hfr by (split_and!; [done..|]; exists Deferred; split; [done|apply new_not_fired]).
  destruct (queue_inv depth s1 id t Hi1 Ht Hfr) as (s2&Hq&Hi2). exists id, s2.
  assert (objs s2 = <[id := add_callback t]> (objs s) ∧ next_task_id s2 = id) as [Ho2 Hn2].
  { rewrite (queue_run depth s1 id t Ht Hfr) in Hq. pose proof Hi1 as [Hw1 _].
    destruct (run_next_run depth _ (wf_queues _ (wf_queued s1 id t Deferred Hw1 Ht eq_refl eq_refl new_not_fired eq_refl)))
      as (pq&Hr&_). rewrite Hr in Hq. injection Hq as <-. simpl. rewrite Ho1. rewrite alter_insert_eq. split; [done|].
    unfold s1, new_task. by rewrite bool_decide_true by done. }
  assert (objs s !! id = None) as Hnone.
  { apply eq_None_not_Some. intros Hs. apply (wf_ids s Hw) in Hs. unfold id in Hs. lia. }
  split_and!.
  - unfold submit. rewrite (bind_ok _ _ s id s1 Hnew). by rewrite (bind_ok _ _ s1 tt s2 Hq).
  - split; [done|]. intros x tx. rewrite Ho2. intros [[<- <-]|[_ ?]]%lookup_insert_Some; [done|eauto].
  - unfold id. lia.
  - done.
  - apply set_eq. intros x. rewrite elem_of_union, elem_of_singleton, !elem_of_live, Ho2.
    destruct (decide (x = id)) as [->|].
    + rewrite lookup_insert_eq. split; [by left|]. intros _. exists (add_callback t). split; [done|].
      exists Deferred. split; [done|apply new_not_fired].
    + rewrite lookup_insert_ne by done. naive_solver.
Qed.
Lemma start_frame s : wf s → objs (start (S depth) s).2 = objs s ∧ next_task_id (start (S depth) s).2 = next_task_id s.
Proof.
  intros Hw. unfold start. rewrite (bind_ok _ _ s s s) by done. destruct (active s) eqn:Ha; [done|].
  rewrite (bind_ok _ _ s tt s) by by rewrite (wf_inactive s Hw Ha), bool_decide_true.
  rewrite (bind_ok _ _ s tt (set_active true s)) by done.
  destruct (run_next_run depth (set_active true s) (wf_queues s Hw)) as (pq&->&_). done.
Qed.

Lemma halt_law s : runner_ok s → let l := if active s then (iteritems (gset_to_gmap () (running_queue s))).*1 else [] in
  runner_ok (stop s).2 ∧ NoDup l ∧ list_to_set l ⊆ live_tasks s ∧ live_tasks (stop s).2 = live_tasks s ∖ list_to_set l.
Proof.
  intros [[Hw Hns] Hc] l. pose proof (step_inv depth s _ (conj Hw Hns) (s_stop depth s)) as Hi.
  destruct (stop_ended s Hw) as (s'&Hs&_&Ha&Hn). rewrite Hs in *. cbn [snd] in *. destruct (active s) eqn:Hact.
  2: { rewrite Hn by done. unfold l. simpl. split_and!; [by split|constructor|set_solver|set_solver]. }
  destruct Ha as (_&_&_&_&_&Ho); [done|]. fold l in Ho.
  assert (NoDup l) as Hnd by apply NoDup_iteritems_keys.
  assert (∀ x, objs s' !! x = if decide (x ∈ l) then stopped <$> objs s !! x else objs s !! x) as Hlook.
  { intros x. by rewrite Ho, foldl_alter_lookup. }
  assert (∀ t, ¬ alive (stopped t)) as Hst by (intros t (d&?&_); done).
  split_and!; [|done| |].
  - split; [done|]. intros x t. rewrite Hlook. case_decide; [|eauto]. intros (t'&_&->)%fmap_Some Hal. by apply Hst in Hal.
  - intros x. rewrite elem_of_list_to_set. intros Hx. unfold l in Hx. apply list_elem_of_fmap in Hx as ([? []]&->&[Hr _]%elem_of_iteritems%lookup_gset_to_gmap_Some).
    destruct (wf_live s Hw z) as (t&d&Ht&?&?&_); [by right|]. apply elem_of_live. exists t. split; [done|]. by exists d.
  - apply set_eq. intros x. rewrite elem_of_difference, elem_of_list_to_set, !elem_of_live. setoid_rewrite Hlook.
    case_decide; [|naive_solver]. split; [|naive_solver]. intros (t&(t'&_&->)%fmap_Some&Hal). by apply Hst in Hal.
Qed.

Lemma internal_law s c : runner_ok s → c ∈ calls s →
  runner_ok (perform (S depth) c s).2 ∧ live_tasks (perform (S depth) c s).2 = live_tasks s.
Proof.
  intros Hok Hc. pose proof Hok as [[Hw Hns] _].
  pose proof (istep_inv depth s _ (conj Hw Hns) (i_call depth s c Hc)) as Hi.
  destruct (perform_cases depth s c Hw Hc) as (l&_&Hrest). destruct c as [id|].
  - case_decide; rewrite Hrest in *; cbn [snd] in *; [|by apply same_live]. apply same_live; try done;
      intros x; simpl; (destruct (decide (x = id)) as [->|]; [rewrite lookup_alter_eq; by destruct (objs s !! id)|by rewrite lookup_alter_ne]).
  - destruct Hrest as (pq&k&Hr&_). rewrite Hr in *. by apply same_live.
Qed.

(** Operations that create no task leave the counter alone. *)
Definition keeps_last {A} (m : M runner A) : Prop := ∀ s, next_task_id (m s).2 = next_task_id s.

Lemma last_bind {A B} (m : M runner A) (k : A → M runner B) : keeps_last m → (∀ a, keeps_last (k a)) → keeps_last (m ≫= k).
Proof. intros Hm Hk s. unfold mbind, M_bind. specialize (Hm s). destruct (m s) as [[a|e] s']; [|done]. by rewrite Hk. Qed.

Lemma last_swallow m : keeps_last m → keeps_last (swallow m).
Proof. intros Hm s. unfold swallow. specialize (Hm s). by destruct (m s) as [[a|[]] s']. Qed.

Lemma last_finally {A} (m : M runner A) k : keeps_last m → keeps_last k → keeps_last (try_finally m k).
Proof.
  intros Hm Hk s. unfold try_finally. specialize (Hm s). destruct (m s) as [r s']. specialize (Hk s').
  destruct (k s') as [[]]; simpl in *; congruence.
Qed.

Lemma last_forM {B} (f : B → M runner unit) l : (∀ b, keeps_last (f b)) → keeps_last (forM_ f l).
Proof. intros Hf. induction l; [done|]. apply last_bind; auto. Qed.

Lemma last_from_some {A} e (o : option A) : keeps_last (from_some e o).
Proof. by destruct o. Qed.

Ltac keeps_last :=
  repeat first
    [ done
    | apply last_from_some
    | apply last_bind; [|intros ?]
    | apply last_swallow
    | apply last_finally
    | apply last_forM; intros ?
    | match goal with
      | |- keeps_last (match ?x with _ => _ end) => destruct x
      | |- keeps_last (if ?x then _ else _) => destruct x
      end ].

Lemma the_task_last id : keeps_last (the_task id).
Proof. intros s. unfold the_task. rewrite (bind_ok _ _ s (objs s) s) by done. by destruct (objs s !! id). Qed.

Lemma failure_last id : keeps_last (on_task_failure id).
Proof. unfold on_task_failure. keeps_last. Qed.

Lemma cancel_it_last id d : keeps_last (cancel_it id d).
Proof.
  unfold cancel_it. destruct (fired d); [done|]. apply last_bind; [apply the_task_last|]. intros t.
  apply last_forM. intros _. apply last_swallow, failure_last.
Qed.

Lemma task_stop_last id : keeps_last (task_stop id).
Proof.
  unfold task_stop, cancel_deferred. apply last_bind; [done|]. intros _. apply last_bind; [|done].
  apply last_bind; [apply the_task_last|]. intros t. apply last_bind; [done|]. intros _.
  destruct (t_deferred t) as [d|]; [|done]. destruct (fired d); [done|]. apply last_swallow, cancel_it_last.
Qed.

Lemma deferred_cancel_last id : keeps_last (deferred_cancel id).
Proof.
  unfold deferred_cancel. apply last_bind; [apply the_task_last|]. intros t.
  destruct (t_deferred t); [|done]. apply last_bind; [done|]. intros _. apply cancel_it_last.
Qed.

(** [TaskRunner] keeps what the interface promises. *)
#[local] Instance task_runner_laws : TaskRunnerLaws.
Proof.
  refine {| rt_ok := runner_ok |}.
  - intros s id [[Hw _] _] (t&Ht&_)%elem_of_live. apply (wf_ids s Hw). eauto.
  - intros s [Hi Hc]. destruct (start_inv depth s Hi) as (s'&Hs&Hi'). pose proof (start_frame s (proj1 Hi)) as [Ho Hn].
    simpl. rewrite Hs in *. rewrite (assoc and). split; [|done].
    apply same_live; [by split|done|..]; intros x; cbn [snd] in *; by rewrite Ho.
  - intros s Hok. destruct (halt_law s Hok) as (?&?&?&?). split_and!; [done..|].
    destruct Hok as [[Hw _] _]. simpl. destruct (stop_ended s Hw) as (s'&->&He&_). apply (en_next _ _ He).
  - apply submit_law.
  - intros id s Hok. destruct (cancel_law id s Hok). split_and!; [done..|]. apply (task_stop_last id s).
  - intros id s Hok. destruct (dcancel_law id s Hok). split_and!; [done..|]. apply (deferred_cancel_last id s).
  - intros id ok s Hok Hwk. pose proof Hok as [[Hw Hns] _].
    pose proof (istep_inv depth s _ (conj Hw Hns) (i_complete depth s id ok Hwk)) as Hi.
    apply (wf_working s Hw) in Hwk. destruct (complete_running id ok s Hw Hwk) as (d&Hd&Hcomp).
    simpl. rewrite Hcomp in *. cbn [snd] in *. split.
    + destruct (wf_live s Hw id) as (t&d'&Ht&?&?&_); [by right|]. apply elem_of_live. exists t. split; [done|]. by exists d'.
    + rewrite (assoc and). split; [|done].
      apply (one_ended s _ id (set_deferred (Some d))); [done..| |done]. intros t _ d' [= <-]. by rewrite Hd.
  - intros s s' Hok (c&Hc&->). rewrite (assoc and). split; [by apply internal_law|].
    pose proof Hok as [[Hw _] _]. simpl. destruct (perform_cases depth s c Hw Hc) as (l&_&Hrest). destruct c as [id|].
    + by case_decide; rewrite Hrest.
    + by destruct Hrest as (pq&k&->&_).
Defined.

Lemma new_runner_ok n : runner_ok (mkrunner n).
Proof. split; [apply mkrunner_inv|]. intros id t Ht. by vm_compute in Ht. Qed.
End instance.
