(* ===== verification/MibSync.v ===== *)
(** * Synchronization of the MIB of an ONU

    The state machines OpenOMCI runs for an ONU, and the device entry that
    owns them: [MibSynchronizer] (state_machines/mib_sync.py), which keeps the
    database in step with the ONU, [OnuOmciCapabilities]
    (state_machines/omci_onu_capabilities.py), which asks for the ONU's
    capabilities when it is in step, and [OnuDeviceEntry] (onu_device_entry.py)
    under src/voltha/extensions/omci.

    They interact: the synchronizer sets [mib_db_in_sync] of the device, whose
    setter publishes an event that reaches the capabilities machine, whose
    event reaches the database.  Both queue tasks on the device's runner
    (class [TaskRunnerApi]) and continue in the callbacks of the tasks'
    Deferreds.  [transitions.Machine] is the class [Machine].  The state is the
    [world] of one ONU: its machines and entry, the database, the runner, the
    callbacks on unfired Deferreds and the calls the reactor has been asked to
    make.  [now] is the clock during a call. *)
From S2P Require Import Prelude MibDb OmciEntities RunnerApi.
From stdpp Require Import base gmap list strings.
From Stdlib Require Import ZArith Lia.

Local Open Scope Z_scope.

(** ** State machines

    Where a trigger leads from a state, given the transitions as (trigger,
    source, dest); [None] raises [MachineError]. *)
Class Machine := trigger_dest : list (string * string * string) → string → string → option string.

Definition first_dest (ts : list (string * string * string)) (state trigger : string) : option string :=
  match list_find (λ '(t, source, _), t = trigger ∧ (source = state ∨ source = "*")) ts with
  | Some (_, (_, _, dest)) => Some dest
  | None => None
  end.

(** The first transition that fits is taken. *)
Class MachineLaw {HM : Machine} : Prop :=
  takes_first : ∀ ts state trigger, trigger_dest ts state trigger = first_dest ts state trigger.

Definition MIB_STATES : list string :=
  ["disabled"; "starting"; "uploading"; "examining_mds"; "in_sync"; "out_of_sync"; "auditing"; "resynchronizing"].

Definition MIB_TRANSITIONS : list (string * string * string) :=
  [ ("start", "disabled", "starting");
    ("upload_mib", "starting", "uploading");
    ("examine_mds", "starting", "examining_mds");
    ("success", "uploading", "in_sync");
    ("timeout", "uploading", "starting");
    ("success", "examining_mds", "in_sync");
    ("timeout", "examining_mds", "starting");
    ("mismatch", "examining_mds", "uploading");
    ("audit_mib", "in_sync", "auditing");
    ("audit_mib", "out_of_sync", "auditing");
    ("success", "auditing", "in_sync");
    ("timeout", "auditing", "starting");
    ("mismatch", "auditing", "resynchronizing");
    ("force_resync", "auditing", "resynchronizing");
    ("success", "resynchronizing", "in_sync");
    ("diffs_found", "resynchronizing", "out_of_sync");
    ("timeout", "resynchronizing", "out_of_sync");
    ("stop", "*", "disabled") ].

Definition CAPS_STATES : list string := ["disabled"; "out_of_sync"; "in_sync"; "idle"].

Definition CAPS_TRANSITIONS : list (string * string * string) :=
  [ ("start", "disabled", "out_of_sync");
    ("synchronized", "out_of_sync", "in_sync");
    ("success", "in_sync", "idle");
    ("failure", "in_sync", "out_of_sync");
    ("not_synchronized", "idle", "out_of_sync");
    ("stop", "*", "disabled") ].

(** ** Messages

    The fields of an OMCI message that the handlers look at; an absent one
    raises [KeyError]. *)
Record omci_message := OmciMessage {
  f_entity_class : option Z;
  f_entity_id : option Z;
  f_data : option (gmap string input);
  f_success_code : option Z;
  f_object_entity_class : option Z;
  f_object_entity_id : option Z;
  f_object_data : option (gmap string input);
}.

(** A received frame, with the request it answers if there is one. *)
Record rx_message := RxMessage {
  tx_request : option omci_message;
  rx_response : omci_message;
}.

(** [ReasonCodes] *)
Definition RC_Success : Z := 0.
Definition RC_InstanceExists : Z := 7.

(** [OntData.class_id] *)
Definition OntData_class_id : Z := 2.

(** An entity class of the device's [me_map]: attribute names and access. *)
Definition me_class : Type := list (string * list access).

(** ** State *)

(** Who added callbacks to a task's Deferred. *)
Inductive client :=
  | CUpload | CExamine | CAudit | CResync
  | CGet (class_id entity_id : Z)
  | CCaps.

(** What a task ends with. *)
Inductive outcome :=
  | OText
  | OMds (value : Z)
  | OResync (on_olt_only on_onu_only : option (list (Z * Z))) (attr_diffs : option (list (Z * Z * string)))
  | OAttributes (attributes : option (gmap string input))
  | OCaps (entities msg_types : option (gset Z))
  | OFailure.

Inductive machine_name := MMib | MCaps.
#[export] Instance machine_name_eq_dec : EqDecision machine_name.
Proof. solve_decision. Defined.

(** Calls the reactor was asked to make. *)
Inductive tfun :=
  | TMib (trigger : string)
  | TCaps (trigger : string)
  | TCheckInSync
  | TStartMachines (machines : list machine_name).

(** Events published on the device's bus. *)
Inductive event :=
  | EvDeviceStatus (active : bool)
  | EvMibDatabaseSync (in_sync : bool) (last : option Z)
  | EvOmciCapabilities (entities msg_types : option (gset Z)).

Record sync := Sync {
  state : string;
  mib_data_sync : Z;
  last_mib_db_sync : option Z;
  device_in_db : bool;
  database : bool;
  sdevice : bool;
  sdeferred : option nat;
  current_task : option Z;
  task_deferred : option Z;
  on_olt_only_diffs : option (list (Z * Z));
  on_onu_only_diffs : option (list (Z * Z));
  attr_diffs : option (list (Z * Z * string));
  omci_cc_subscriptions : gset string;
  onu_dev_subscriptions : gset string;
}.
#[export] Instance sync_eta : Eta sync := λ y,
  Sync (state y) (mib_data_sync y) (last_mib_db_sync y) (device_in_db y) (database y) (sdevice y) (sdeferred y)
    (current_task y) (task_deferred y) (on_olt_only_diffs y) (on_onu_only_diffs y) (attr_diffs y)
    (omci_cc_subscriptions y) (onu_dev_subscriptions y).

Record caps := Caps {
  cstate : string;
  cdevice : bool;
  cdeferred : option nat;
  ccurrent_task : option Z;
  ctask_deferred : option Z;
  supported_entities : option (gset Z);
  supported_msg_types : option (gset Z);
  csubscriptions : gset string;
}.
#[export] Instance caps_eta : Eta caps := λ c,
  Caps (cstate c) (cdevice c) (cdeferred c) (ccurrent_task c) (ctask_deferred c) (supported_entities c)
    (supported_msg_types c) (csubscriptions c).

Record onu := Onu {
  dstarted : bool;
  mib_db_in_sync : bool;
  first_in_sync : bool;
  configuration : bool;
  ddeferred : option nat;
  state_machines : list machine_name;
  omci_enabled : bool;
  dmodified : Z;
}.
#[export] Instance onu_eta : Eta onu := λ d,
  Onu (dstarted d) (mib_db_in_sync d) (first_in_sync d) (configuration d) (ddeferred d) (state_machines d)
    (omci_enabled d) (dmodified d).

(** [try: m except Exception: log]; nothing here runs on fuel. *)
Definition contained {St} (m : M St unit) : M St unit := λ s, (Ok tt, (m s).2).

Section mib_sync.
Context {HO : DictOrder} {HJ : Json} {HM : Machine} {HR : TaskRunnerApi}.

Record world := World {
  w_sync : sync;
  w_caps : caps;
  w_dev : onu;
  w_db : mibdb;
  w_runner : rt;
  w_clients : gmap Z client;
  w_timers : list (nat * Z * tfun);
  w_next_timer : nat;
  w_events : list event;
  w_registered : bool;
}.
#[export] Instance world_eta : Eta world := λ w,
  World (w_sync w) (w_caps w) (w_dev w) (w_db w) (w_runner w) (w_clients w) (w_timers w) (w_next_timer w)
    (w_events w) (w_registered w).

Context (device_id : string).
Context (get_me_map : string → result (gmap Z entity)).
Context (me_map : gmap Z me_class).
Context (timeout_delay audit_delay resync_delay caps_timeout_delay : Z).

(** The initial values of the three objects. *)
Definition mk_sync : sync := Sync "disabled" 0 None false true false None None None None None None ∅ ∅.
Definition mk_caps : caps := Caps "disabled" false None None None (Some ∅) (Some ∅) ∅.
Definition mk_onu : onu := Onu false false false false None [] false 0.

Definition sync_ (f : sync → sync) : M world unit := modify (λ w, w <| w_sync ::= f |>).
Definition caps_ (f : caps → caps) : M world unit := modify (λ w, w <| w_caps ::= f |>).
Definition dev_ (f : onu → onu) : M world unit := modify (λ w, w <| w_dev ::= f |>).
Definition getS {A} (f : sync → A) : M world A := gets (λ w, f (w_sync w)).
Definition getC {A} (f : caps → A) : M world A := gets (λ w, f (w_caps w)).
Definition getD {A} (f : onu → A) : M world A := gets (λ w, f (w_dev w)).

(** [self._database.m(...)]; the reference may be [None]. *)
Definition db {A} (m : M mibdb A) : M world A :=
  b ← getS database;
  if (b : bool) then zoom w_db (λ d w, w <| w_db := d |>) m else raise AttributeError.

(** [self._device], which may be [None] *)
Definition with_device {A} (m : M world A) : M world A :=
  b ← getS sdevice; if (b : bool) then m else raise AttributeError.
Definition with_cdevice {A} (m : M world A) : M world A :=
  b ← getC cdevice; if (b : bool) then m else raise AttributeError.

(** [self._agent.get_device(self._device_id)] *)
Definition get_device : M world unit :=
  b ← gets w_registered; if (b : bool) then mret tt else raise KeyError.

(** [reactor.callLater(delay, f)] and [cancel] of what it returned *)
Definition call_later (delay : Z) (f : tfun) : M world nat :=
  n ← gets w_next_timer;
  _ ← modify (λ w, w <| w_timers ::= λ l, l ++ [(n, delay, f)] |> <| w_next_timer := S n |>);
  mret n.

Definition cancel_timer (d : option nat) : M world unit :=
  match d with
  | Some n => modify (λ w, w <| w_timers ::= filter (λ t, t.1.1 ≠ n) |>)
  | None => mret tt
  end.

(** [self._deferred = reactor.callLater(delay, self.trigger)] *)
Definition sync_later (delay : Z) (trigger : string) : M world unit :=
  n ← call_later delay (TMib trigger); sync_ (λ y, y <| sdeferred := Some n |>).
Definition caps_later (delay : Z) (f : tfun) : M world unit :=
  n ← call_later delay f; caps_ (λ c, c <| cdeferred := Some n |>).

(** ** Tasks

    Priority and exclusive use of the task classes (tasks/*.py), and whether
    their constructor looks the device up. *)
Definition task_params (c : client) : Z * bool * bool :=
  match c with
  | CUpload => (250, true, false)
  | CExamine | CAudit => (128, true, false)
  | CResync => (240, false, true)
  | CGet _ _ => (128, false, true)
  | CCaps => (240, true, true)
  end.

(** [task = T(agent, device_id); d = task_runner.queue_task(task);
    d.addCallbacks(success, failure)] *)
Definition queue_task (c : client) : M world Z :=
  let '(priority, exclusive, looks_up) := task_params c in
  _ ← (if (looks_up : bool) then get_device else mret tt);
  r ← gets w_runner;
  let '(res, r) := rt_submit priority exclusive r in
  _ ← modify (λ w, w <| w_runner := r |>);
  id ← lift res;
  _ ← modify (λ w, w <| w_clients ::= <[id := c]> |>);
  mret id.

(** ** Callbacks on the Deferreds of tasks *)

(** [x if len(x) else None] *)
Definition nonempty {A} (l : option (list A)) : M world (option (list A)) :=
  match l with
  | None => raise TypeError
  | Some [] => mret None
  | Some l => mret (Some l)
  end.

Definition upload_success : M world unit :=
  _ ← sync_ (λ y, y <| current_task := None |>); sync_later 0 "success".

(** The failure callback of uploads, of reading the sync counter and of audits. *)
Definition sync_failure : M world unit :=
  _ ← sync_ (λ y, y <| current_task := None |>); sync_later timeout_delay "timeout".

Definition examine_success (onu_mds_value : Z) : M world unit :=
  _ ← sync_ (λ y, y <| current_task := None |>);
  mds ← getS mib_data_sync;
  if decide (mds = onu_mds_value) then sync_later 0 "success" else sync_later 0 "mismatch".

Definition resync_success (on_olt_only on_onu_only : option (list (Z * Z))) (attr : option (list (Z * Z * string)))
    : M world unit :=
  _ ← sync_ (λ y, y <| current_task := None |>);
  a ← nonempty on_olt_only;
  _ ← sync_ (λ y, y <| on_olt_only_diffs := a |>);
  b ← nonempty on_onu_only;
  _ ← sync_ (λ y, y <| on_onu_only_diffs := b |>);
  c ← nonempty attr;
  _ ← sync_ (λ y, y <| attr_diffs := c |>);
  if decide (a = None ∧ b = None ∧ c = None) then sync_later 0 "success" else sync_later 0 "diffs_found".

Definition resync_failure : M world unit :=
  _ ← sync_ (λ y, y <| current_task := None |> <| on_olt_only_diffs := None |> <| on_onu_only_diffs := None |>
                    <| attr_diffs := None |>);
  sync_later timeout_delay "timeout".

Definition caps_success (entities msg_types : option (gset Z)) : M world unit :=
  t ← getC ccurrent_task;
  _ ← from_some AttributeError t;
  _ ← caps_ (λ c, c <| supported_entities := entities |> <| supported_msg_types := msg_types |>
                    <| ccurrent_task := None |>);
  caps_later 0 (TCaps "success").

Definition caps_failure : M world unit :=
  _ ← caps_ (λ c, c <| supported_entities := Some ∅ |> <| supported_msg_types := Some ∅ |> <| ccurrent_task := None |>);
  caps_later caps_timeout_delay (TCaps "failure").

(** What a task cancelled or ended with a failure leads to. *)
Definition on_failure (c : client) : M world unit :=
  match c with
  | CUpload | CExamine | CAudit => sync_failure
  | CResync => resync_failure
  | CCaps => caps_failure
  | CGet _ _ => mret tt
  end.

(** The Deferred of a task fires with a failure: the callbacks its user added. *)
Definition fail_client (id : Z) : M world unit :=
  cs ← gets w_clients;
  _ ← modify (λ w, w <| w_clients ::= delete id |>);
  match cs !! id with
  | Some c => contained (on_failure c)
  | None => mret tt
  end.

(** [task.stop()] and [deferred.cancel()]; the callbacks run if the Deferred
    had not fired. *)
Definition stop_task (id : Z) : M world unit :=
  r ← gets w_runner;
  let '(r, ran) := rt_cancel id r in
  _ ← modify (λ w, w <| w_runner := r |>);
  if (ran : bool) then fail_client id else mret tt.

Definition cancel_task_deferred (d : option Z) : M world unit :=
  match d with
  | None => mret tt
  | Some id =>
      r ← gets w_runner;
      let '(r, ran) := rt_dcancel id r in
      _ ← modify (λ w, w <| w_runner := r |>);
      if (ran : bool) then fail_client id else mret tt
  end.

(** ** OnuOmciCapabilities *)
Definition caps_cancel_deferred : M world unit :=
  c ← getC (λ c, c);
  _ ← caps_ (λ c, c <| cdeferred := None |> <| ctask_deferred := None |>);
  _ ← cancel_timer (cdeferred c);
  contained (cancel_task_deferred (ctask_deferred c)).

Definition caps_cancel_tasks : M world unit :=
  t ← getC ccurrent_task;
  _ ← caps_ (λ c, c <| ccurrent_task := None |>);
  match t with Some id => stop_task id | None => mret tt end.

(** The properties [supported_managed_entities] and [supported_message_types]:
    [x if len(x) else None] *)
Definition supported (x : option (gset Z)) : M world (option (gset Z)) :=
  s ← from_some TypeError x; mret (if decide (s = ∅) then None else Some s).

Definition caps_on_enter_disabled : M world unit :=
  _ ← caps_cancel_deferred;
  _ ← caps_cancel_tasks;
  _ ← caps_ (λ c, c <| supported_entities := Some ∅ |> <| supported_msg_types := Some ∅ |>);
  s ← getC csubscriptions;
  if decide (s = ∅) then mret tt
  else _ ← caps_ (λ c, c <| csubscriptions := ∅ |>); with_cdevice (mret tt).

Definition caps_on_enter_out_of_sync : M world unit :=
  _ ← caps_cancel_deferred;
  _ ← get_device;
  _ ← caps_ (λ c, c <| cdevice := true |>);
  _ ← caps_ (λ c, c <| csubscriptions := {["MibDatabaseSyncEvent"]} |>);
  caps_later 0 TCheckInSync.

Definition caps_on_enter_in_sync : M world unit :=
  _ ← caps_cancel_deferred;
  id ← with_cdevice (queue_task CCaps);
  caps_ (λ c, c <| ccurrent_task := Some id |> <| ctask_deferred := Some id |>).

(** The synchronizer's subscription to the capabilities event. *)
Definition on_capabilities_event (now : Z) (entities msg_types : option (gset Z)) : M world unit :=
  _ ← db (_ ← MibDb.device device_id;
          e ← from_some TypeError entities;
          update_supported_managed_entities get_me_map now device_id e);
  db (t ← from_some TypeError msg_types;
      update_supported_message_types now device_id t).

Definition publish_omci_capabilities_event (now : Z) : M world unit :=
  c ← getC (λ c, c);
  e ← supported (supported_entities c);
  t ← supported (supported_msg_types c);
  _ ← modify (λ w, w <| w_events ::= λ l, l ++ [EvOmciCapabilities e t] |>);
  s ← getS onu_dev_subscriptions;
  if decide ("OmciCapabilitiesEvent" ∈ s) then contained (on_capabilities_event now e t) else mret tt.

Definition caps_on_enter_idle (now : Z) : M world unit :=
  _ ← caps_cancel_deferred;
  with_cdevice (publish_omci_capabilities_event now).

Definition caps_on_enter (now : Z) (dest : string) : M world unit :=
  if decide (dest = "disabled") then caps_on_enter_disabled
  else if decide (dest = "out_of_sync") then caps_on_enter_out_of_sync
  else if decide (dest = "in_sync") then caps_on_enter_in_sync
  else if decide (dest = "idle") then caps_on_enter_idle now
  else mret tt.

(** [self.trigger()] *)
Definition caps_fire (now : Z) (trigger : string) : M world unit :=
  s ← getC cstate;
  dest ← from_some MachineError (trigger_dest CAPS_TRANSITIONS s trigger);
  _ ← caps_ (λ c, c <| cstate := dest |>);
  caps_on_enter now dest.

Definition check_in_sync (now : Z) : M world unit :=
  b ← with_cdevice (getD mib_db_in_sync);
  if (b : bool) then caps_fire now "synchronized" else caps_later caps_timeout_delay TCheckInSync.

Definition on_mib_sync_event (now : Z) (in_sync : bool) : M world unit :=
  s ← getC csubscriptions;
  if decide ("MibDatabaseSyncEvent" ∈ s) then
    if in_sync then caps_fire now "synchronized" else caps_fire now "not_synchronized"
  else mret tt.

(** ** OnuDeviceEntry, as the machines use it *)
Definition first_in_sync_event : M world unit :=
  d ← getD (λ d, d);
  if first_in_sync d then
    _ ← dev_ (λ d, d <| first_in_sync := false |>);
    _ ← (if configuration d then mret tt else raise AttributeError);
    n ← call_later 0 (TStartMachines []);
    dev_ (λ d, d <| ddeferred := Some n |>)
  else mret tt.

(** The setter of [mib_db_in_sync]; the event reaches the capabilities machine,
    and the bus catches what its handler raises. *)
Definition set_mib_db_in_sync (now : Z) (value : bool) : M world unit :=
  d ← getD (λ d, d);
  if decide (mib_db_in_sync d = value) then mret tt
  else
    _ ← dev_ (λ d, d <| mib_db_in_sync := value |>);
    _ ← (if first_in_sync d then first_in_sync_event else mret tt);
    last ← getS last_mib_db_sync;
    _ ← modify (λ w, w <| w_events ::= λ l, l ++ [EvMibDatabaseSync value last] |>);
    contained (on_mib_sync_event now value).

(** ** MibSynchronizer *)

(** [for d in [d1, d1]]: the second is not the task's Deferred. *)
Definition cancel_deferred : M world unit :=
  y ← getS (λ y, y);
  _ ← sync_ (λ y, y <| sdeferred := None |> <| task_deferred := None |>);
  _ ← cancel_timer (sdeferred y);
  cancel_timer (sdeferred y).

Definition increment_mib_data_sync (now : Z) : M world unit :=
  _ ← sync_ (λ y, y <| mib_data_sync ::= λ n, n + 1 |>);
  n ← getS mib_data_sync;
  _ ← (if decide (n > 255) then sync_ (λ y, y <| mib_data_sync := 0 |>) else mret tt);
  n ← getS mib_data_sync;
  b ← getS database;
  if (b : bool) then db (save_mib_data_sync now device_id n) else mret tt.

(** The setter of [last_mib_db_sync] *)
Definition set_last_mib_db_sync (now value : Z) : M world unit :=
  _ ← sync_ (λ y, y <| last_mib_db_sync := Some value |>);
  b ← getS database;
  if (b : bool) then db (save_last_sync now device_id value) else mret tt.

Definition is_new_onu (y : sync) : bool := bool_decide (last_mib_db_sync y = None).

Definition on_enter_disabled (now : Z) : M world unit :=
  _ ← cancel_deferred;
  b ← getS sdevice;
  _ ← (if (b : bool) then set_mib_db_in_sync now false else mret tt);
  t ← getS current_task;
  _ ← sync_ (λ y, y <| current_task := None |>);
  _ ← (match t with Some id => stop_task id | None => mret tt end);
  s ← getS omci_cc_subscriptions;
  _ ← (if decide (s = ∅) then mret tt
       else _ ← sync_ (λ y, y <| omci_cc_subscriptions := ∅ |>); with_device (mret tt));
  s ← getS onu_dev_subscriptions;
  if decide (s = ∅) then mret tt
  else _ ← sync_ (λ y, y <| onu_dev_subscriptions := ∅ |>); with_device (mret tt).

(** [try: m except KeyError: h] *)
Definition except_KeyError {St A} (m : M St A) (h : M St A) : M St A := λ s,
  match m s with (Err KeyError, s) => h s | r => r end.

Definition seed_database (now : Z) : M world unit :=
  b ← getS device_in_db;
  if (b : bool) then mret tt
  else
    contained
      (_ ← except_KeyError
         (_ ← db MibDb.start; db (MibDb.add now device_id false))
         (n ← db (get_mib_data_sync device_id);
          n ← from_some TypeError n;
          _ ← sync_ (λ y, y <| mib_data_sync := n |>);
          l ← db (get_last_sync device_id);
          sync_ (λ y, y <| last_mib_db_sync := l |>));
       sync_ (λ y, y <| device_in_db := true |>)).

Definition OMCI_CC_EVENTS : gset string :=
  {["MIB_Reset"; "AVC_Notification"; "MIB_Upload"; "MIB_Upload_Next"; "Create"; "Delete"; "Set"]}.

Definition on_enter_starting (now : Z) : M world unit :=
  _ ← get_device;
  _ ← sync_ (λ y, y <| sdevice := true |>);
  _ ← seed_database now;
  _ ← sync_ (λ y, y <| omci_cc_subscriptions := OMCI_CC_EVENTS |>
                    <| onu_dev_subscriptions := {["OmciCapabilitiesEvent"]} |>);
  y ← getS (λ y, y);
  if is_new_onu y then sync_later 0 "upload_mib" else sync_later 0 "examine_mds".

(** [self._current_task = T(...); self._task_deferred = queue_task(...)] *)
Definition run_task (c : client) : M world unit :=
  id ← with_device (queue_task c);
  sync_ (λ y, y <| current_task := Some id |> <| task_deferred := Some id |>).

Definition on_enter_uploading (now : Z) : M world unit :=
  _ ← with_device (set_mib_db_in_sync now false);
  run_task CUpload.

Definition on_enter_examining_mds (now : Z) : M world unit :=
  n ← db (get_mib_data_sync device_id);
  _ ← sync_ (λ y, y <| mib_data_sync := default 0 n |>);
  _ ← with_device (set_mib_db_in_sync now false);
  run_task CExamine.

Definition on_enter_in_sync (now : Z) : M world unit :=
  _ ← set_last_mib_db_sync now now;
  _ ← with_device (set_mib_db_in_sync now true);
  if decide (audit_delay > 0) then sync_later audit_delay "audit_mib" else mret tt.

(** With or without differences, another audit follows. *)
Definition on_enter_out_of_sync (now : Z) : M world unit :=
  _ ← with_device (set_mib_db_in_sync now false);
  y ← getS (λ y, y);
  if decide (on_olt_only_diffs y = None ∧ on_onu_only_diffs y = None ∧ attr_diffs y = None)
  then sync_later 1 "audit_mib"
  else sync_later 1 "audit_mib".

Definition on_enter_auditing (now : Z) : M world unit :=
  l ← getS last_mib_db_sync;
  let next_resync := match l with Some t => t + resync_delay | None => now end in
  if decide (now >= next_resync) then sync_later 0 "force_resync"
  else run_task CAudit.

Definition on_enter_resynchronizing : M world unit := run_task CResync.

Definition on_enter (now : Z) (dest : string) : M world unit :=
  if decide (dest = "disabled") then on_enter_disabled now
  else if decide (dest = "starting") then on_enter_starting now
  else if decide (dest = "uploading") then on_enter_uploading now
  else if decide (dest = "examining_mds") then on_enter_examining_mds now
  else if decide (dest = "in_sync") then on_enter_in_sync now
  else if decide (dest = "out_of_sync") then on_enter_out_of_sync now
  else if decide (dest = "auditing") then on_enter_auditing now
  else if decide (dest = "resynchronizing") then on_enter_resynchronizing
  else mret tt.

(** [self.trigger()] *)
Definition fire (now : Z) (trigger : string) : M world unit :=
  s ← getS state;
  dest ← from_some MachineError (trigger_dest MIB_TRANSITIONS s trigger);
  _ ← sync_ (λ y, y <| state := dest |>);
  on_enter now dest.

Definition delete_sync (now : Z) : M world unit :=
  _ ← fire now "stop";
  b ← getS database;
  _ ← sync_ (λ y, y <| database := false |>);
  if (b : bool) then zoom w_db (λ d w, w <| w_db := d |>) (MibDb.remove now device_id) else mret tt.

(** The audit's callback also clears [mib_db_in_sync] on a mismatch. *)
Definition audit_success (now onu_mds_value : Z) : M world unit :=
  _ ← sync_ (λ y, y <| current_task := None |>);
  mds ← getS mib_data_sync;
  if decide (mds = onu_mds_value) then sync_later 0 "success"
  else
    _ ← with_device (set_mib_db_in_sync now false);
    sync_later 0 "mismatch".

(** What a task that ended well leads to. *)
Definition on_success (now : Z) (c : client) (o : outcome) : M world unit :=
  match c, o with
  | CUpload, _ => upload_success
  | CExamine, OMds v => examine_success v
  | CAudit, OMds v => audit_success now v
  | CResync, OResync a b c => resync_success a b c
  | CGet class_id entity_id, OAttributes l =>
      _ ← db (l ← from_some TypeError l; MibDb.set get_me_map now device_id class_id entity_id l); mret tt
  | CCaps, OCaps e t => caps_success e t
  | _, _ => raise TypeError
  end.

(** *** Responses and notifications *)
Definition on_mib_reset_response (now : Z) (msg : rx_message) : M world unit :=
  except_KeyError
    (y ← getS (λ y, y);
     if decide (state y ≠ "uploading" ∨ "MIB_Reset" ∉ omci_cc_subscriptions y) then mret tt
     else
       status ← from_some KeyError (f_success_code (rx_response msg));
       _ ← passert (bool_decide (status = RC_Success));
       _ ← with_device (set_mib_db_in_sync now false);
       _ ← sync_ (λ y, y <| mib_data_sync := 0 |>);
       _ ← dev_ (λ d, d <| dmodified := now |>);
       db (on_mib_reset now device_id))
    (mret tt).

(** The list of names it queries for has the list of keys as its only element,
    so that nothing matches. *)
Definition on_avc_notification (now : Z) (msg : rx_message) : M world unit :=
  y ← getS (λ y, y);
  if decide ("AVC_Notification" ∈ omci_cc_subscriptions y) then
    except_KeyError
      (if decide (state y = "disabled" ∨ state y = "uploading") then mret tt
       else
         class_id ← from_some KeyError (f_entity_class (rx_response msg));
         instance_id ← from_some KeyError (f_entity_id (rx_response msg));
         data ← from_some KeyError (f_data (rx_response msg));
         _ ← db (query device_id (Some class_id) (Some instance_id) (Some []));
         _ ← db (MibDb.set get_me_map now device_id class_id instance_id data);
         mret tt)
      (mret tt)
  else mret tt.

(** [on_mib_upload_response] only logs. *)
Definition on_mib_upload_next_response (now : Z) (msg : rx_message) : M world unit :=
  y ← getS (λ y, y);
  if decide ("MIB_Upload_Next" ∈ omci_cc_subscriptions y) then
    contained
      (if decide (state y = "uploading") then
         class_id ← from_some KeyError (f_object_entity_class (rx_response msg));
         entity_id ← from_some KeyError (f_object_entity_id (rx_response msg));
         if decide (class_id = OntData_class_id) then mret tt
         else
           attributes ← from_some KeyError (f_object_data (rx_response msg));
           _ ← db (MibDb.set get_me_map now device_id class_id entity_id attributes);
           mret tt
       else mret tt)
  else mret tt.

(** The attributes an ONU fills in by itself when they are not given. *)
Definition sbc_w_set (c : me_class) : gset string :=
  list_to_set (fst <$> filter (λ p, (AA_SBC ∈ p.2 ∨ AA_W ∈ p.2) ∧ p.1 ≠ "managed_entity_id") c).

Definition update_sbc_w_items (class_id entity_id : Z) (missing : gset string) : M world unit :=
  if decide (missing ≠ ∅ ∧ is_Some (me_map !! class_id)) then
    _ ← with_device (queue_task (CGet class_id entity_id)); mret tt
  else mret tt.

Definition on_create_response (now : Z) (msg : rx_message) : M world unit :=
  y ← getS (λ y, y);
  if decide ("Create" ∈ omci_cc_subscriptions y) then
    if decide (state y = "disabled" ∨ state y = "uploading") then mret tt
    else
      contained
        (status ← from_some KeyError (f_success_code (rx_response msg));
         if decide (status ≠ RC_Success ∧ status ≠ RC_InstanceExists) then mret tt
         else
           request ← from_some AttributeError (tx_request msg);
           class_id ← from_some KeyError (f_entity_class request);
           entity_id ← from_some KeyError (f_entity_id request);
           attributes ← from_some KeyError (f_data request);
           created ← db (MibDb.set get_me_map now device_id class_id entity_id attributes);
           _ ← (if (created : bool) then increment_mib_data_sync now else mret tt);
           with_device
             (match me_map !! class_id with
              | Some c =>
                  let missing := sbc_w_set c ∖ dom attributes in
                  if decide (missing ≠ ∅) then update_sbc_w_items class_id entity_id missing else mret tt
              | None => mret tt
              end))
  else mret tt.

Definition on_delete_response (now : Z) (msg : rx_message) : M world unit :=
  y ← getS (λ y, y);
  if decide ("Delete" ∈ omci_cc_subscriptions y) then
    if decide (state y = "disabled" ∨ state y = "uploading") then mret tt
    else
      contained
        (status ← from_some KeyError (f_success_code (rx_response msg));
         if decide (status ≠ RC_Success) then mret tt
         else
           request ← from_some AttributeError (tx_request msg);
           class_id ← from_some KeyError (f_entity_class request);
           entity_id ← from_some KeyError (f_entity_id request);
           deleted ← db (delete_me now device_id class_id entity_id);
           if (deleted : bool) then increment_mib_data_sync now else mret tt)
  else mret tt.

(** An invalid state is logged, and the response is processed all the same. *)
Definition on_set_response (now : Z) (msg : rx_message) : M world unit :=
  y ← getS (λ y, y);
  if decide ("Set" ∈ omci_cc_subscriptions y) then
    contained
      (status ← from_some KeyError (f_success_code (rx_response msg));
       if decide (status ≠ RC_Success) then mret tt
       else
         request ← from_some AttributeError (tx_request msg);
         class_id ← from_some KeyError (f_entity_class request);
         entity_id ← from_some KeyError (f_entity_id request);
         attributes ← from_some KeyError (f_data request);
         changed ← db (MibDb.set get_me_map now device_id class_id entity_id attributes);
         if (changed : bool) then increment_mib_data_sync now else mret tt)
  else mret tt.

Definition query_mib (class_id instance_id : option Z) (attributes : option (list string)) : M world answer :=
  b ← getS database;
  if (b : bool) then db (query device_id class_id instance_id attributes) else raise DatabaseStateError.

(** ** OnuDeviceEntry *)
Definition publish_device_status_event : M world unit :=
  b ← getD dstarted; modify (λ w, w <| w_events ::= λ l, l ++ [EvDeviceStatus b] |>).

Definition start_state_machines (now : Z) (machines : list machine_name) : M world unit :=
  forM_ (λ m, _ ← dev_ (λ d, d <| state_machines ::= λ l, l ++ [m] |>);
              match m with MMib => fire now "start" | MCaps => caps_fire now "start" end) machines.

Definition dev_start : M world unit :=
  b ← getD dstarted;
  if (b : bool) then mret tt
  else
    _ ← dev_ (λ d, d <| dstarted := true |> <| omci_enabled := true |> <| first_in_sync := true |>);
    _ ← modify (λ w, w <| w_runner ::= rt_start |>);
    _ ← dev_ (λ d, d <| configuration := true |> <| state_machines := [] |>);
    n ← call_later 0 (TStartMachines [MMib; MCaps]);
    _ ← dev_ (λ d, d <| ddeferred := Some n |>);
    publish_device_status_event.

Definition dev_stop (now : Z) : M world unit :=
  d ← getD (λ d, d);
  if dstarted d then
    _ ← dev_ (λ d, d <| dstarted := false |> <| ddeferred := None |>);
    _ ← cancel_timer (ddeferred d);
    _ ← dev_ (λ d, d <| omci_enabled := false |>);
    _ ← forM_ (λ m, match m with MMib => fire now "stop" | MCaps => caps_fire now "stop" end) (state_machines d);
    _ ← dev_ (λ d, d <| state_machines := [] |>);
    r ← gets w_runner;
    let '(r, cancelled) := rt_halt r in
    _ ← modify (λ w, w <| w_runner := r |>);
    _ ← forM_ fail_client cancelled;
    publish_device_status_event
  else mret tt.

(** With [OpenOMCIAgent.remove_device]. *)
Definition dev_delete (now : Z) : M world unit :=
  _ ← dev_stop now;
  _ ← delete_sync now;
  b ← gets w_registered;
  if (b : bool) then _ ← dev_stop now; modify (λ w, w <| w_registered := false |>) else mret tt.

(** ** What happens to an ONU *)

(** The reactor makes a call. *)
Definition run_timer (now : Z) (n : nat) : M world unit :=
  l ← gets w_timers;
  match list_find (λ t, t.1.1 = n) l with
  | None => mret tt
  | Some (_, (_, _, f)) =>
      _ ← cancel_timer (Some n);
      match f with
      | TMib trigger => fire now trigger
      | TCaps trigger => caps_fire now trigger
      | TCheckInSync => check_in_sync now
      | TStartMachines machines => start_state_machines now machines
      end
  end.

(** A task ends, and the callbacks of its user run. *)
Definition end_task (now : Z) (id : Z) (o : outcome) : M world unit :=
  cs ← gets w_clients;
  let ok := match o with OFailure => false | _ => true end in
  _ ← modify (λ w, w <| w_runner ::= rt_end id ok |> <| w_clients ::= delete id |>);
  match cs !! id with
  | Some c => contained (match o with OFailure => on_failure c | _ => on_success now c o end)
  | None => mret tt
  end.

Definition mk_world (db0 : mibdb) (r : rt) : world :=
  World mk_sync mk_caps mk_onu db0 r ∅ [] 0 [] true.

End mib_sync.
