(* ===== verification/MibSyncProofs.v ===== *)
(** * What the synchronization of an ONU's MIB guarantees

    The synchronizer's machine of MibSync.v has exactly one continuation in
    every state, a timer or a task, of a kind the state expects, unless a
    resynchronization ended in a way its callback does not handle; the MIB
    counter in memory is the one in the database; what stopping it leaves
    behind. *)
From S2P Require Import Prelude MibDb TaskRunner RunnerApi MibSync.
From stdpp Require Import base gmap list strings relations.
From Stdlib Require Import ZArith Lia.

Local Open Scope Z_scope.

(** ** Preservation *)
Definition pres {St A} (I : St → Prop) (m : M St A) : Prop := ∀ w, I w → I (m w).2.

Section pres.
Context {St : Type} (I : St → Prop).

Lemma pres_bind {A B} (m : M St A) (k : A → M St B) : pres I m → (∀ a, pres I (k a)) → pres I (m ≫= k).
Proof.
  intros Hm Hk w Hw. unfold mbind, M_bind. specialize (Hm w Hw). destruct (m w) as [[a|e] w']; [|done]. by apply Hk.
Qed.

Lemma pres_read {A} (m : M St A) : (∀ w, (m w).2 = w) → pres I m.
Proof. intros H w Hw. by rewrite H. Qed.

Lemma pres_contained m : pres I m → pres I (contained m).
Proof. intros Hm w Hw. by apply Hm. Qed.

Lemma pres_ok m w w' (r : result unit) : pres I m → I w → m w = (r, w') → I w'.
Proof. intros Hm Hw Heq. specialize (Hm w Hw). by rewrite Heq in Hm. Qed.

Lemma pres_from_some {A} e (o : option A) : pres I (from_some e o).
Proof. intros w Hw. by destruct o. Qed.

Lemma pres_forM {B} (f : B → M St unit) l : (∀ b, pres I (f b)) → pres I (forM_ f l).
Proof. intros Hf. induction l; [by intros w|]. apply pres_bind; auto. Qed.
End pres.

(** [pres] goes through the structure of a program; what remains are the
    operations that write. *)
Ltac pres :=
  repeat first
    [ by apply pres_read
    | apply pres_from_some
    | apply pres_bind; [|intros ?]
    | match goal with
      | |- pres _ (contained _) => apply pres_contained
      | |- pres _ (if ?x then _ else _) => destruct x
      | |- pres _ (match ?x with _ => _ end) => destruct x
      end ].

Section mib_sync.
Context {HO : DictOrder} {HJ : Json} {HM : Machine} {HML : MachineLaw} {HR : TaskRunnerApi} {HRL : TaskRunnerLaws}.
Context (device_id : string).
Context (get_me_map : string → result (gmap Z entity)).
Context (me_map : gmap Z me_class).
Context (timeout_delay audit_delay resync_delay caps_timeout_delay : Z).

(** ** The synchronizer's part of the world *)

(** What the reactor will do to the synchronizer's machine. *)
Definition mib_timer (f : tfun) : option string :=
  match f with
  | TMib trigger => Some trigger
  | TStartMachines l => if decide (MMib ∈ l) then Some "start" else None
  | _ => None
  end.

Definition mib_timers (w : world) : list string := omap (λ t, mib_timer t.2) (w_timers w).

Definition is_sync (c : client) : bool :=
  match c with CUpload | CExamine | CAudit | CResync => true | _ => false end.

Definition mib_clients (w : world) : gmap Z client := filter (λ p, is_sync p.2 = true) (w_clients w).

(** Whether the database is running, and its sync counter for the device. *)
Definition stored (bn : bool * option Z) (s : mibdb) : Prop :=
  started s = bn.1 ∧ v_mds <$> data s !! device_id = bn.2.

(** The device entry starts its machines together. *)
Definition starts_ok (f : tfun) : Prop :=
  match f with TStartMachines l => l = [] ∨ l = [MMib; MCaps] | _ => True end.

(** Identifiers of timers are not reused, the other machine's references are
    to its own timers and tasks, callbacks wait on live tasks, and once started
    the synchronizer has its device and its database, whose counter is the
    one in memory. *)
Record WF (w : world) : Prop := {
  wf_ids : NoDup (w_timers w).*1.*1;
  wf_next : ∀ t, t ∈ w_timers w → (t.1.1 < w_next_timer w)%nat;
  wf_starts : ∀ t, t ∈ w_timers w → starts_ok t.2;
  wf_cdef : ∀ n, cdeferred (w_caps w) = Some n →
    (n < w_next_timer w)%nat ∧ ∀ t, t ∈ w_timers w → t.1.1 = n → mib_timer t.2 = None;
  wf_runner : rt_ok (w_runner w);
  wf_clients : ∀ id, is_Some (w_clients w !! id) → id ∈ rt_live (w_runner w);
  wf_ctask : ∀ id, ctask_deferred (w_caps w) = Some id ∨ ccurrent_task (w_caps w) = Some id →
    id ≤ rt_last (w_runner w) ∧ ∀ c, w_clients w !! id = Some c → c = CCaps;
  wf_config : first_in_sync (w_dev w) = true → configuration (w_dev w) = true;
  wf_reg : w_registered w = true;
  wf_database : database (w_sync w) = true;
  wf_device : state (w_sync w) ≠ "disabled" → sdevice (w_sync w) = true ∧ device_in_db (w_sync w) = true;
  wf_indb : device_in_db (w_sync w) = true → stored (true, Some (mib_data_sync (w_sync w))) (w_db w);
  wf_range : ∀ n, v_mds <$> data (w_db w) !! device_id = Some n → 0 ≤ n ≤ 255;
  wf_mds : 0 ≤ mib_data_sync (w_sync w) ≤ 255;
  wf_before : device_in_db (w_sync w) = false →
    mib_data_sync (w_sync w) = 0 ∧ omci_cc_subscriptions (w_sync w) = ∅;
}.

Definition same_mib (w0 w : world) : Prop :=
  w_sync w = w_sync w0 ∧ mib_timers w = mib_timers w0 ∧ mib_clients w = mib_clients w0 ∧
  mib_db_in_sync (w_dev w) = mib_db_in_sync (w_dev w0).

(** A well-formed world in which the synchronizer is as in [w0]. *)
Definition frame (w0 w : world) : Prop := WF w ∧ same_mib w0 w.

Lemma frame_refl w : WF w → frame w w.
Proof. done. Qed.

(** ** Timers *)
Lemma omap_filter_none {A B} (f : A → option B) (P : A → Prop) `{∀ x, Decision (P x)} (l : list A) :
  (∀ x, x ∈ l → ¬ P x → f x = None) → omap f (filter P l) = omap f l.
Proof.
  induction l as [|x l IH]; intros Hl; [done|]. rewrite filter_cons. case_decide; csimpl.
  - destruct (f x); rewrite IH by set_solver; done.
  - rewrite (Hl x) by set_solver. apply IH. set_solver.
Qed.

Lemma cancel_timer_timers n w : w_timers (cancel_timer (Some n) w).2 = filter (λ t, t.1.1 ≠ n) (w_timers w).
Proof. done. Qed.

Lemma frame_cancel_timer w0 n w :
  (∀ t, t ∈ w_timers w → t.1.1 = n → mib_timer t.2 = None) → frame w0 w → frame w0 (cancel_timer (Some n) w).2.
Proof.
  intros Hn [Hw (?&Ht&?&?)]. split.
  - destruct Hw. split; try done; simpl.
    + eapply sublist_NoDup; [exact wf_ids0|]. do 2 apply fmap_sublist. apply sublist_filter.
    + intros t [_ ?]%list_elem_of_filter. auto.
    + intros t [_ ?]%list_elem_of_filter. auto.
    + intros m Hm. destruct (wf_cdef0 m Hm) as [? Hmt]. split; [done|]. intros t [_ ?]%list_elem_of_filter. auto.
  - split_and!; try done. unfold mib_timers. simpl. rewrite omap_filter_none; [done|].
    intros t Ht' Heq. apply Hn; [done|]. by apply dec_stable.
Qed.

Lemma WF_call_later delay f w : starts_ok f → WF w → WF (call_later delay f w).2.
Proof.
  intros Hf Hw. destruct Hw. split; try done; simpl.
  - rewrite !fmap_app. apply NoDup_app. split; [done|]. split; [|apply NoDup_singleton].
    intros x Hx Hx'. simpl in Hx'. apply list_elem_of_singleton in Hx'. subst x.
    apply list_elem_of_fmap in Hx as ([n z]&Hn&Hx). apply list_elem_of_fmap in Hx as (t&Htn&Hx).
    apply wf_next0 in Hx. rewrite <-Htn in Hx. simpl in *. lia.
  - intros t [Hx| ->%list_elem_of_singleton]%elem_of_app; [apply wf_next0 in Hx|simpl]; lia.
  - intros t [Hx| ->%list_elem_of_singleton]%elem_of_app; auto.
  - intros m Hm. destruct (wf_cdef0 m Hm) as [? Hmt]. split; [lia|].
    intros t [Hx| ->%list_elem_of_singleton]%elem_of_app Heq; [auto|simpl in Heq; lia].
Qed.

Lemma frame_call_later w0 delay f w : mib_timer f = None → starts_ok f → frame w0 w → frame w0 (call_later delay f w).2.
Proof.
  intros Hf Hso [Hw (?&Ht&?&?)]. split; [by apply WF_call_later|]. split_and!; try done.
  unfold mib_timers. simpl. rewrite omap_app. csimpl. rewrite Hf. by rewrite app_nil_r.
Qed.

(** ** The database *)
Lemma stored_device n b s : stored (b, Some n) s →
  ∃ d, MibDb.device device_id s = (Ok d, s) ∧ data s !! device_id = Some d ∧ v_mds d = n.
Proof.
  intros [_ Hn]. apply fmap_Some in Hn as (d&Hd&->). exists d. split_and!; [|done..].
  unfold MibDb.device. rewrite (bind_ok _ _ s (data s) s) by done. by rewrite Hd.
Qed.

Lemma stored_write n b s d : v_mds d = n → started s = b → stored (b, Some n) (set_data (<[device_id := d]>) s).
Proof. intros Hd Hs. split; [done|]. simpl. by rewrite lookup_insert_eq, <-Hd. Qed.

Lemma pres_touch now n : pres (stored n) (touch now).
Proof. by intros s. Qed.

(** Reading the device and writing it back with the same counter. *)
Lemma pres_rewrite {A} bn (k : device_db → M mibdb A) :
  (∀ d s, data s !! device_id = Some d → stored (bn.1, Some (v_mds d)) s → stored (bn.1, Some (v_mds d)) (k d s).2) →
  pres (stored bn) (d ← MibDb.device device_id; k d).
Proof.
  intros Hk s Hs. destruct bn as [b [n|]].
  - destruct (stored_device n b s Hs) as (d&Hd&?&<-). rewrite (bind_ok _ _ s d s Hd). by apply (Hk d s).
  - unfold MibDb.device. erewrite bind_err; [done|]. rewrite (bind_ok _ _ s (data s) s) by done.
    destruct Hs as [_ Hs]. by rewrite (proj1 (fmap_None _ _) Hs).
Qed.

Lemma pres_save_last now t n : pres (stored n) (save_last_sync now device_id t).
Proof. apply pres_rewrite. intros d s Hd [Hs _]. by apply stored_write. Qed.

Lemma pres_check n : pres (stored n) check_started.
Proof. intros s Hs. unfold check_started. rewrite (bind_ok _ _ s (started s) s) by done. by destruct (started s). Qed.

Lemma pres_set_attribute n e ref ch item : pres (stored n) (set_attribute e ref ch item).
Proof.
  destruct item as [a v]. unfold set_attribute, passert, lift. pres. all: by intros s.
Qed.

Lemma pres_ensure_class now n cid : pres (stored n) (ensure_class now device_id cid).
Proof.
  apply pres_rewrite. intros d s Hd Hs. destruct (v_classes d !! cid); [done|].
  destruct Hs as [Hs _]. by apply stored_write.
Qed.

Lemma pres_ensure_instance now n cid iid : pres (stored n) (ensure_instance now device_id cid iid).
Proof.
  apply pres_rewrite. intros d s Hd Hs. unfold from_some. destruct (v_classes d !! cid) as [c|]; [|done].
  erewrite bind_ok by done. destruct (c !! iid); [done|]. erewrite bind_ok by done. erewrite bind_ok by done.
  destruct Hs as [Hs _]. by apply (stored_write _ _ s (set_classes _ d)).
Qed.

Lemma pres_mark now n cid iid : pres (stored n) (mark_instance now device_id cid iid).
Proof.
  intros s [Hs Hn]. split; [done|]. rewrite <-Hn. simpl. rewrite lookup_alter_eq. by destruct (data s !! device_id).
Qed.

Lemma pres_foldM {St A B} (I : St → Prop) (f : A → B → M St A) l : (∀ a b, pres I (f a b)) → ∀ a, pres I (foldM f a l).
Proof. intros Hf. induction l; intros x; [by intros w|]. apply pres_bind; auto. Qed.

Lemma pres_set now n cid iid l : pres (stored n) (MibDb.set get_me_map now device_id cid iid l).
Proof.
  unfold MibDb.set. case_decide; [by intros s|]. case_decide; [by intros s|].
  apply pres_bind; [apply pres_check|intros _]. apply pres_bind; [apply pres_ensure_class|intros _].
  apply pres_bind; [apply pres_ensure_instance|intros ref]. apply pres_bind; [by intros s|intros me].
  apply pres_bind; [apply pres_foldM; intros; apply pres_set_attribute|intros ch].
  apply pres_bind; [|by intros _ s]. destruct ch; [|by intros s].
  apply pres_bind; [apply pres_mark|intros _; apply pres_touch].
Qed.

Lemma pres_delete now n cid iid : pres (stored n) (delete_me now device_id cid iid).
Proof.
  unfold delete_me. apply pres_bind; [apply pres_check|intros _]. case_decide; [by intros s|]. case_decide; [by intros s|].
  apply pres_rewrite. intros d s Hd Hs. destruct (v_classes d !! cid) as [c|]; [|done].
  destruct (c !! iid); [|done]. destruct Hs as [Hs _]. by apply (stored_write _ _ s (set_classes _ d)).
Qed.

Lemma pres_query n c i l : pres (stored n) (query device_id c i l).
Proof.
  assert (∀ x, pres (stored n) (fix_inst_json_attributes x)) as Hi by (by intros x s).
  assert (∀ x, pres (stored n) (fix_cls_json_attributes x)) as Hc by (intros x; apply pres_forM; intros; apply Hi).
  unfold query. apply pres_bind; [apply pres_check|intros _]. apply pres_bind.
  { intros s Hs. unfold MibDb.device. rewrite (bind_ok _ _ s (data s) s) by done. by destruct (data s !! device_id). }
  intros d. destruct c as [c|].
  - destruct (v_classes d !! c) as [cl|]; [|by intros s]. destruct i as [i|].
    + destruct (cl !! i) as [x|]; [|by intros s]. destruct l as [l|].
      * apply pres_bind; [by intros s|intros h]. apply pres_bind; [apply pres_from_some|by intros a s].
      * apply pres_bind; [apply Hi|by intros _ s].
    + apply pres_bind; [apply Hc|by intros _ s].
  - apply pres_bind; [|by intros _ s]. apply pres_forM. intros; apply Hc.
Qed.

(** ** Tasks *)

(** Queueing a task gives it a new identifier and its callbacks. *)
Definition queued_task (c : client) (id : Z) (r : rt) (w : world) : world :=
  w <| w_runner := r |> <| w_clients ::= <[id := c]> |>.

Lemma queue_task_run c w : WF w →
  ∃ id r, queue_task c w = (Ok id, queued_task c id r w) ∧ rt_ok r ∧ rt_last (w_runner w) < id ∧ rt_last r = id ∧
    rt_live r = {[id]} ∪ rt_live (w_runner w) ∧ w_clients w !! id = None.
Proof.
  intros Hw. unfold queue_task. destruct (task_params c) as [[p e] b] eqn:Hp.
  assert (0 ≤ p ≤ 255) as Hpr by (destruct c; simpl in Hp; simplify_eq; lia).
  destruct (rt_submit_ok p e (w_runner w) (wf_runner w Hw) Hpr) as (id&r&Hs&Hr&Hlt&Hl&Hlive).
  exists id, r. split; [|split_and!; try done].
  - rewrite (bind_ok _ _ w tt w) by (destruct b; [unfold get_device; by rewrite (bind_ok _ _ w true w) by
      (unfold gets; by rewrite (wf_reg w Hw))|done]).
    rewrite (bind_ok _ _ w (w_runner w) w) by done. rewrite Hs. done.
  - apply eq_None_not_Some. intros Hc. apply (wf_clients w Hw), (rt_live_last _ _ (wf_runner w Hw)) in Hc. lia.
Qed.

Lemma WF_queued c id r w : WF w → rt_ok r → rt_last (w_runner w) < id → rt_last r = id →
  rt_live r = {[id]} ∪ rt_live (w_runner w) → WF (queued_task c id r w).
Proof.
  intros Hw Hr Hlt Hl Hlive. destruct Hw. split; try done; simpl.
  - intros x [cx Hx]. rewrite Hlive. apply lookup_insert_Some in Hx as [[<- _]|[_ Hx]]; [set_solver|].
    apply elem_of_union_r, wf_clients0. eauto.
  - intros x Hx. destruct (wf_ctask0 x Hx) as [Hle Hc]. split; [lia|]. intros cx. rewrite lookup_insert_ne by lia. auto.
Qed.

(** A task's Deferred fires: its callbacks are gone. *)
Lemma WF_clients_drop w r id : WF w → rt_ok r → rt_live r = rt_live (w_runner w) ∖ {[id]} →
  rt_last r = rt_last (w_runner w) → WF (w <| w_runner := r |> <| w_clients ::= delete id |>).
Proof.
  intros Hw Hr Hlive Hl. destruct Hw. split; try done; simpl.
  - intros x [cx [Hne Hx]%lookup_delete_Some]. rewrite Hlive. apply elem_of_difference. split; [eauto|set_solver].
  - intros x Hx. destruct (wf_ctask0 x Hx) as [Hle Hc]. split; [lia|].
    intros cx [_ Hcx]%lookup_delete_Some. auto.
Qed.

Lemma mib_clients_delete w id : mib_clients (w <| w_clients ::= delete id |>) = delete id (mib_clients w).
Proof. unfold mib_clients. simpl. apply map_filter_delete. Qed.

Lemma frame_caps w0 w f : frame w0 w →
  (∀ c, cdeferred (f c) = cdeferred c ∨ cdeferred (f c) = None) →
  (∀ c, ctask_deferred (f c) = ctask_deferred c ∨ ctask_deferred (f c) = None) →
  (∀ c, ccurrent_task (f c) = ccurrent_task c ∨ ccurrent_task (f c) = None) → frame w0 (caps_ f w).2.
Proof.
  intros [Hw Hs] Hd Ht Hc. split; [|done]. destruct Hw. split; try done; simpl.
  - intros n Hn. destruct (Hd (w_caps w)) as [H|H]; rewrite H in Hn; [auto|done].
  - intros id Hid. apply wf_ctask0. destruct (Ht (w_caps w)) as [H|H], (Hc (w_caps w)) as [H'|H'];
      rewrite H, H' in Hid; naive_solver.
Qed.

Lemma frame_caps_later w0 w delay f : frame w0 w → mib_timer f = None → starts_ok f → frame w0 (caps_later delay f w).2.
Proof.
  intros Hf Hn Hso. unfold caps_later. rewrite (bind_ok _ _ w (w_next_timer w) (call_later delay f w).2) by done.
  pose proof (frame_call_later w0 delay f w Hn Hso Hf) as [Hw Hs]. split; [|done]. destruct Hw. split; try done; simpl.
  intros n [= <-]. split; [lia|]. intros t [Ht| ->%list_elem_of_singleton]%elem_of_app Heq; [|done].
  destruct Hf as [Hw0 _]. pose proof (wf_next w Hw0 t Ht). simpl in *. lia.
Qed.

(** Ending a task of the capabilities machine. *)
Lemma frame_fail w0 w r id : frame w0 w → (∀ c, w_clients w !! id = Some c → c = CCaps) →
  rt_ok r → rt_live r = rt_live (w_runner w) ∖ {[id]} → rt_last r = rt_last (w_runner w) →
  frame w0 (fail_client timeout_delay caps_timeout_delay id (w <| w_runner := r |>)).2.
Proof.
  intros [Hw Hs] Hc Hr Hlive Hl. unfold fail_client. erewrite bind_ok by done. erewrite bind_ok by done.
  set (w1 := _ <| w_clients ::= _ |>). assert (frame w0 w1) as Hf1.
  { split; [by apply WF_clients_drop|]. destruct Hs as (?&?&Hcl&?). split_and!; try done.
    unfold w1. rewrite mib_clients_delete. change (mib_clients (w <| w_runner := r |>)) with (mib_clients w).
    rewrite delete_id; [done|]. apply map_lookup_filter_None. right. intros c Hcl' Hsync.
    apply Hc in Hcl'. subst. done. }
  simpl. destruct (w_clients w !! id) as [c|] eqn:Hid; [|done]. rewrite (Hc c eq_refl).
  apply pres_contained; [|done]. intros w2 Hf2. unfold on_failure, caps_failure.
  erewrite bind_ok by done. apply frame_caps_later; [|done..]. apply frame_caps; auto.
Qed.

Lemma frame_unfired w0 w r id : frame w0 w → rt_ok r → rt_live r = rt_live (w_runner w) ∖ {[id]} →
  rt_last r = rt_last (w_runner w) → id ∉ rt_live (w_runner w) → frame w0 (w <| w_runner := r |>).
Proof.
  intros [Hw Hs] Hok Hlive Hlast Hid. split; [|done].
  destruct Hw. split; try done; simpl; [|by rewrite Hlast]. intros x Hx. rewrite Hlive.
  apply elem_of_difference. split; [auto|]. intros ->%elem_of_singleton. by apply Hid, wf_clients0.
Qed.

Lemma frame_stop_task w0 w id : frame w0 w → (∀ c, w_clients w !! id = Some c → c = CCaps) →
  frame w0 (stop_task timeout_delay caps_timeout_delay id w).2.
Proof.
  intros Hf Hc. unfold stop_task. erewrite bind_ok by done.
  destruct (rt_cancel_ok id (w_runner w)) as (Hok&Hb&Hlive&Hlast); [apply Hf|].
  destruct (rt_cancel id (w_runner w)) as [r b]. simpl in *. erewrite bind_ok by done. destruct b.
  - by apply frame_fail.
  - apply (frame_unfired w0 w r id); [done..|]. symmetry in Hb. by apply bool_decide_eq_false in Hb.
Qed.
Lemma frame_task_deferred w0 w id : frame w0 w → (∀ c, w_clients w !! id = Some c → c = CCaps) →
  frame w0 (cancel_task_deferred timeout_delay caps_timeout_delay (Some id) w).2.
Proof.
  intros Hf Hc. unfold cancel_task_deferred. erewrite bind_ok by done.
  destruct (rt_dcancel_ok id (w_runner w)) as (Hok&Hb&Hlive&Hlast); [apply Hf|].
  destruct (rt_dcancel id (w_runner w)) as [r b]. simpl in *. erewrite bind_ok by done. destruct b.
  - by apply frame_fail.
  - apply (frame_unfired w0 w r id); [done..|]. symmetry in Hb. by apply bool_decide_eq_false in Hb.
Qed.

(** ** The capabilities machine leaves the synchronizer alone *)
Lemma frame_caps_cancel w0 w : frame w0 w → frame w0 (caps_cancel_deferred timeout_delay caps_timeout_delay w).2.
Proof.
  intros Hf. unfold caps_cancel_deferred. erewrite bind_ok by done. erewrite bind_ok by done.
  set (w1 := _ <| w_caps ::= _ |>). assert (frame w0 w1) as Hf1 by (apply (frame_caps w0 w); auto).
  pose proof (proj1 Hf) as Hw. set (w2 := (cancel_timer (cdeferred (w_caps w)) w1).2).
  assert (frame w0 w2 ∧ w_clients w2 = w_clients w) as [Hf2 Hc2].
  { unfold w2. destruct (cdeferred (w_caps w)) as [n|] eqn:Hn; [|done]. split; [|done].
    apply frame_cancel_timer; [|done]. by apply (wf_cdef w Hw). }
  rewrite (bind_ok _ _ w1 tt w2) by (unfold w2; by destruct (cdeferred (w_caps w))).
  destruct (ctask_deferred (w_caps w)) as [id|] eqn:Hid; [|done].
  apply frame_task_deferred; [done|]. rewrite Hc2. apply (wf_ctask w Hw). by left.
Qed.

Lemma frame_cdevice {A} w0 (m : M world A) : pres (frame w0) m → pres (frame w0) (with_cdevice m).
Proof. intros Hm. unfold with_cdevice. apply pres_bind; [by intros w|]. intros []; [done|by intros w]. Qed.

Lemma WF_db w s : WF w → (∀ bn, stored bn (w_db w) → stored bn s) → WF (w <| w_db := s |>).
Proof.
  intros Hw Hs. destruct Hw. split; auto. simpl. intros n Hn. apply wf_range0.
  destruct (Hs (started (w_db w), v_mds <$> data (w_db w) !! device_id)) as [_ H]; [done|]. simpl in H. by rewrite <-H.
Qed.

Lemma frame_db {A} w0 (m : M mibdb A) : (∀ bn, pres (stored bn) m) → pres (frame w0) (db m).
Proof.
  intros Hm. unfold db. apply pres_bind; [by intros w|]. intros []; [|by intros w].
  intros w [Hw Hs]. unfold zoom. pose proof (λ n, Hm n (w_db w)) as Hm'.
  destruct (m (w_db w)) as [r s']. simpl in *. split; [|done]. by apply WF_db.
Qed.

Lemma frame_caps_disabled w0 : pres (frame w0) (caps_on_enter_disabled timeout_delay caps_timeout_delay).
Proof.
  unfold caps_on_enter_disabled. apply pres_bind; [intros w Hf; by apply frame_caps_cancel|intros _].
  apply pres_bind.
  - intros w Hf. unfold caps_cancel_tasks. erewrite bind_ok by done. erewrite bind_ok by done.
    destruct (ccurrent_task (w_caps w)) as [id|] eqn:Hid; [|apply (frame_caps w0 w); auto].
    apply frame_stop_task; [apply (frame_caps w0 w); auto|]. simpl. apply (wf_ctask w (proj1 Hf)). by right.
  - intros _. apply pres_bind; [intros w Hf; apply frame_caps; auto|intros _].
    apply pres_bind; [by intros w|intros s]. case_decide; [by intros w|].
    apply pres_bind; [intros w Hf; apply frame_caps; auto|intros _]. apply frame_cdevice. by intros w.
Qed.

Lemma frame_caps_out w0 : pres (frame w0) (caps_on_enter_out_of_sync timeout_delay caps_timeout_delay).
Proof.
  unfold caps_on_enter_out_of_sync. apply pres_bind; [intros w Hf; by apply frame_caps_cancel|intros _].
  apply pres_bind; [intros w Hf; unfold get_device; erewrite bind_ok by done; by destruct (w_registered w)|intros _].
  do 2 (apply pres_bind; [intros w Hf; apply frame_caps; auto|intros _]).
  intros w Hf. by apply frame_caps_later.
Qed.

Lemma frame_queue_caps w0 w : frame w0 w →
  ∃ id r, queue_task CCaps w = (Ok id, queued_task CCaps id r w) ∧ frame w0 (queued_task CCaps id r w) ∧
    id = rt_last r ∧ w_clients w !! id = None.
Proof.
  intros [Hw Hs]. destruct (queue_task_run CCaps w Hw) as (id&r&Hq&Hr&Hlt&Hl&Hlive&Hn). exists id, r.
  split_and!; try done. split; [by apply WF_queued|]. destruct Hs as (?&?&Hc&?). split_and!; try done.
  unfold mib_clients. simpl. rewrite map_filter_insert_False by done. by rewrite delete_id.
Qed.

Lemma frame_caps_in w0 : pres (frame w0) (caps_on_enter_in_sync timeout_delay caps_timeout_delay).
Proof.
  unfold caps_on_enter_in_sync. apply pres_bind; [intros w Hf; by apply frame_caps_cancel|intros _].
  intros w Hf. unfold with_cdevice. destruct (cdevice (w_caps w)) eqn:Hd.
  - destruct (frame_queue_caps w0 w Hf) as (id&r&Hq&Hf'&Hid&Hn).
    rewrite (bind_ok _ _ w id (queued_task CCaps id r w)).
    2: { unfold getC. rewrite (bind_ok _ _ w true w) by (unfold gets; by rewrite Hd). done. }
    destruct Hf' as [Hw' Hs']. split; [|done]. destruct Hw'. split; try done; simpl.
    intros x Hx. assert (x = id) as -> by naive_solver. split; [subst; simpl; lia|].
    intros c. rewrite lookup_insert_eq. by intros [= <-].
  - erewrite bind_err; [done|]. unfold getC. by rewrite (bind_ok _ _ w false w) by (unfold gets; by rewrite Hd).
Qed.
Lemma pres_update_entities now n e : pres (stored n) (update_supported_managed_entities get_me_map now device_id e).
Proof.
  apply pres_rewrite. intros d s Hd Hs. unfold mbind, M_bind. case_decide; simpl.
  - destruct Hs as [Hs _]. by apply stored_write.
  - unfold lift. destruct (get_me_map device_id); [|done]. destruct Hs as [Hs _]. by apply stored_write.
Qed.

Lemma pres_update_types now n t : pres (stored n) (update_supported_message_types now device_id t).
Proof. apply pres_rewrite. intros d s Hd [Hs _]. by apply stored_write. Qed.

Lemma frame_capabilities_event w0 now e t : pres (frame w0) (on_capabilities_event device_id get_me_map now e t).
Proof.
  unfold on_capabilities_event. apply pres_bind; [|intros _]; apply frame_db; intros n.
  - apply pres_rewrite. intros d s Hd Hs. apply pres_bind; [apply pres_from_some| |done].
    intros; apply pres_update_entities.
  - apply pres_bind; [apply pres_from_some|]. intros; apply pres_update_types.
Qed.

Lemma pres_supported w0 x : pres (frame w0) (supported x).
Proof. unfold supported. apply pres_bind; [apply pres_from_some|by intros a w]. Qed.

Lemma frame_caps_idle w0 now :
  pres (frame w0) (caps_on_enter_idle device_id get_me_map timeout_delay caps_timeout_delay now).
Proof.
  unfold caps_on_enter_idle. apply pres_bind; [intros w Hf; by apply frame_caps_cancel|intros _].
  apply frame_cdevice. unfold publish_omci_capabilities_event. apply pres_bind; [by intros w|intros c].
  apply pres_bind; [apply pres_supported|intros e]. apply pres_bind; [apply pres_supported|intros t].
  apply pres_bind; [intros w [Hw Hs]; split; [|done]; by destruct Hw|intros _].
  apply pres_bind; [by intros w|intros s]. case_decide; [|by intros w].
  apply pres_contained, frame_capabilities_event.
Qed.

Lemma frame_caps_fire w0 now t :
  pres (frame w0) (caps_fire device_id get_me_map timeout_delay caps_timeout_delay now t).
Proof.
  unfold caps_fire. apply pres_bind; [by intros w|intros s]. apply pres_bind; [apply pres_from_some|intros d].
  apply pres_bind; [intros w Hf; apply frame_caps; auto|intros _]. unfold caps_on_enter.
  repeat case_decide; [apply frame_caps_disabled|apply frame_caps_out|apply frame_caps_in|apply frame_caps_idle|by intros w].
Qed.

Lemma frame_check_in_sync w0 now :
  pres (frame w0) (check_in_sync device_id get_me_map timeout_delay caps_timeout_delay now).
Proof.
  unfold check_in_sync. apply pres_bind; [apply frame_cdevice; by intros w|]. intros [].
  - apply frame_caps_fire.
  - intros w Hf. by apply frame_caps_later.
Qed.

Lemma frame_mib_sync_event w0 now b :
  pres (frame w0) (on_mib_sync_event device_id get_me_map timeout_delay caps_timeout_delay now b).
Proof.
  unfold on_mib_sync_event. apply pres_bind; [by intros w|intros s]. case_decide; [|by intros w].
  destruct b; apply frame_caps_fire.
Qed.

(** ** The setter of [mib_db_in_sync] *)

(** It does not raise, and changes nothing else of the synchronizer. *)
Definition at_sync (b : bool) (w0 w : world) : Prop :=
  WF w ∧ w_sync w = w_sync w0 ∧ mib_timers w = mib_timers w0 ∧ mib_clients w = mib_clients w0 ∧
  mib_db_in_sync (w_dev w) = b.

Lemma set_in_sync_run now b w : WF w →
  ∃ w', set_mib_db_in_sync device_id get_me_map timeout_delay caps_timeout_delay now b w = (Ok tt, w') ∧ at_sync b w w'.
Proof.
  intros Hw. unfold set_mib_db_in_sync. rewrite (bind_ok _ _ w (w_dev w) w) by done.
  case_decide as Hb; [by exists w|]. set (w1 := w <| w_dev ::= λ d, d <| mib_db_in_sync := b |> |>).
  rewrite (bind_ok _ _ w tt w1) by done. assert (WF w1) as Hw1 by by destruct Hw.
  assert (∃ w2, (if first_in_sync (w_dev w) then first_in_sync_event else mret tt) w1 = (Ok tt, w2) ∧ frame w1 w2)
    as (w2&Hr2&Hf2).
  { destruct (first_in_sync (w_dev w)) eqn:Hfi; [|by exists w1]. unfold first_in_sync_event.
    rewrite (bind_ok _ _ w1 (w_dev w1) w1) by done. change (first_in_sync (w_dev w1)) with (first_in_sync (w_dev w)).
    rewrite Hfi. change (configuration (w_dev w1)) with (configuration (w_dev w)). rewrite (wf_config w Hw Hfi).
    erewrite bind_ok by done. erewrite bind_ok by done.
    set (w1' := w1 <| w_dev ::= λ d, d <| first_in_sync := false |> |>).
    assert (frame w1 w1') as Hf1 by (split; [by destruct Hw1|done]).
    rewrite (bind_ok _ _ w1' (w_next_timer w1') (call_later 0 (TStartMachines []) w1').2) by done.
    eexists. split; [done|]. pose proof (frame_call_later w1 0 (TStartMachines []) w1' eq_refl (or_introl eq_refl) Hf1) as [Hw2 Hs2].
    split; [by destruct Hw2|done]. }
  rewrite (bind_ok _ _ w1 tt w2 Hr2). erewrite bind_ok by done. erewrite bind_ok by done.
  set (w3 := w2 <| w_events ::= _ |>). assert (frame w1 w3) as Hf3.
  { destruct Hf2 as [Hw2 Hs2]. split; [by destruct Hw2|done]. }
  pose proof (frame_mib_sync_event w1 now b w3 Hf3) as [Hw4 Hs4]. eexists. split; [done|]. split; [done|exact Hs4].
Qed.
(** ** Continuations *)
Inductive cont :=
  | KTimer (trigger : string)
  | KTask (c : client).

(** What each state of the machine waits for. *)
Inductive expected : string → cont → Prop :=
  | ex_disabled : expected "disabled" (KTimer "start")
  | ex_starting_new : expected "starting" (KTimer "upload_mib")
  | ex_starting_known : expected "starting" (KTimer "examine_mds")
  | ex_uploading : expected "uploading" (KTask CUpload)
  | ex_uploaded : expected "uploading" (KTimer "success")
  | ex_upload_failed : expected "uploading" (KTimer "timeout")
  | ex_examining : expected "examining_mds" (KTask CExamine)
  | ex_examined : expected "examining_mds" (KTimer "success")
  | ex_examine_differs : expected "examining_mds" (KTimer "mismatch")
  | ex_examine_failed : expected "examining_mds" (KTimer "timeout")
  | ex_in_sync : expected "in_sync" (KTimer "audit_mib")
  | ex_out_of_sync : expected "out_of_sync" (KTimer "audit_mib")
  | ex_auditing : expected "auditing" (KTask CAudit)
  | ex_audit_due : expected "auditing" (KTimer "force_resync")
  | ex_audited : expected "auditing" (KTimer "success")
  | ex_audit_differs : expected "auditing" (KTimer "mismatch")
  | ex_audit_failed : expected "auditing" (KTimer "timeout")
  | ex_resyncing : expected "resynchronizing" (KTask CResync)
  | ex_resynced : expected "resynchronizing" (KTimer "success")
  | ex_diffs : expected "resynchronizing" (KTimer "diffs_found")
  | ex_resync_failed : expected "resynchronizing" (KTimer "timeout").

Definition only (k : cont) (w : world) : Prop :=
  match k with
  | KTimer t => mib_timers w = [t] ∧ mib_clients w = ∅
  | KTask c => mib_timers w = [] ∧ ∃ id, mib_clients w = {[id := c]} ∧ current_task (w_sync w) = Some id
  end.

(** The machine has one continuation, which its state waits for. *)
Definition token (w : world) : Prop := ∃ k, expected (state (w_sync w)) k ∧ only k w.

(** Nothing will move the machine any more. *)
Definition stuck (w : world) : Prop :=
  state (w_sync w) = "resynchronizing" ∧ mib_timers w = [] ∧ mib_clients w = ∅.

(** The machine is synchronized and audits are switched off: it waits for one
    to be asked for. *)
Definition resting (w : world) : Prop :=
  audit_delay ≤ 0 ∧ state (w_sync w) = "in_sync" ∧ mib_timers w = [] ∧ mib_clients w = ∅.

Definition halted (w : world) : Prop :=
  (state (w_sync w) = "resynchronizing" ∨ audit_delay ≤ 0 ∧ state (w_sync w) = "in_sync") ∧
  mib_timers w = [] ∧ mib_clients w = ∅.

Lemma halted_cases w : halted w ↔ stuck w ∨ resting w.
Proof. unfold halted, stuck, resting. tauto. Qed.

(** The state between two continuations. *)
Definition bare (st : string) (w : world) : Prop :=
  WF w ∧ state (w_sync w) = st ∧ mib_timers w = [] ∧ mib_clients w = ∅.

(** The fields of the synchronizer that [WF] looks at. *)
Definition same_key (y y' : sync) : Prop :=
  state y' = state y ∧ mib_data_sync y' = mib_data_sync y ∧ database y' = database y ∧ sdevice y' = sdevice y ∧
  device_in_db y' = device_in_db y ∧ omci_cc_subscriptions y' = omci_cc_subscriptions y.

Lemma WF_sync w f : WF w → same_key (w_sync w) (f (w_sync w)) → WF (w <| w_sync ::= f |>).
Proof.
  intros Hw (Hst&Hm&Hdb&Hd&Hin&Hsub). destruct Hw.
  split; try done; simpl; rewrite ?Hst, ?Hm, ?Hdb, ?Hd, ?Hin, ?Hsub; done.
Qed.

Lemma sync_later_run delay t w : WF w →
  ∃ w', sync_later delay t w = (Ok tt, w') ∧ WF w' ∧ same_key (w_sync w) (w_sync w') ∧
    mib_timers w' = mib_timers w ++ [t] ∧ mib_clients w' = mib_clients w ∧ w_dev w' = w_dev w ∧
    last_mib_db_sync (w_sync w') = last_mib_db_sync (w_sync w).
Proof.
  intros Hw. unfold sync_later. set (w1 := (call_later delay (TMib t) w).2).
  rewrite (bind_ok _ _ w (w_next_timer w) w1) by done. eexists. split; [done|]. split.
  - apply WF_sync; [|done]. by apply WF_call_later.
  - split_and!; try done. unfold mib_timers. simpl. by rewrite omap_app.
Qed.

Lemma run_task_run c w st : bare st w → st ≠ "disabled" → is_sync c = true →
  ∃ w', run_task c w = (Ok tt, w') ∧ WF w' ∧ state (w_sync w') = st ∧ only (KTask c) w' ∧
    w_dev w' = w_dev w ∧ last_mib_db_sync (w_sync w') = last_mib_db_sync (w_sync w).
Proof.
  intros (Hw&Hst&Ht&Hc) Hne Hs. destruct (queue_task_run c w Hw) as (id&r&Hq&Hr&Hlt&Hl&Hlive&Hn).
  unfold run_task, with_device. rewrite (bind_ok _ _ w id (queued_task c id r w)).
  2: { unfold getS. rewrite (bind_ok _ _ w true w); [done|]. unfold gets. destruct (wf_device w Hw) as [-> _]; congruence. }
  eexists. split; [done|]. split; [apply WF_sync; [by apply WF_queued|done]|]. split_and!; try done.
  split; [done|]. exists id. split; [|done]. change (mib_clients (queued_task c id r w) = {[id := c]}).
  unfold mib_clients. simpl. rewrite map_filter_insert_True by done.
  change (<[id := c]> (mib_clients w) = {[id := c]}). by rewrite Hc.
Qed.
(** ** Entering a state *)
Lemma with_device_run {A} (m : M world A) w : WF w → state (w_sync w) ≠ "disabled" → with_device m w = m w.
Proof.
  intros Hw Hst. unfold with_device. rewrite (bind_ok _ _ w true w); [done|].
  unfold getS, gets. by destruct (wf_device w Hw Hst) as [-> _].
Qed.

Lemma db_run {A} (m : M mibdb A) w : WF w →
  db m w = ((m (w_db w)).1, w <| w_db := (m (w_db w)).2 |>).
Proof.
  intros Hw. unfold db. rewrite (bind_ok _ _ w true w) by (unfold getS, gets; by rewrite (wf_database w Hw)).
  unfold zoom. by destruct (m (w_db w)).
Qed.

(** What a state entered from another one ends with. *)
Definition entered (st : string) (m : M world unit) (w : world) : Prop :=
  ∃ w', m w = (Ok tt, w') ∧ WF w' ∧ state (w_sync w') = st ∧ token w'.

Lemma set_off_then st b m now w : bare st w → st ≠ "disabled" →
  (∀ w1, bare st w1 → mib_db_in_sync (w_dev w1) = b → w_sync w1 = w_sync w → entered st m w1) →
  entered st (_ ← with_device (set_mib_db_in_sync device_id get_me_map timeout_delay caps_timeout_delay now b); m) w.
Proof.
  intros (Hw&Hst&Ht&Hc) Hne Hm.
  destruct (set_in_sync_run now b w Hw) as (w1&Hr&Hw1&Hs1&Ht1&Hc1&Hb1).
  unfold entered. rewrite (bind_ok _ _ w tt w1) by (rewrite with_device_run by (done || congruence); done).
  apply Hm; [|done..]. split_and!; [done|congruence|congruence|congruence].
Qed.

Lemma later_entered st delay t w : bare st w → expected st (KTimer t) → entered st (sync_later delay t) w.
Proof.
  intros (Hw&Hst&Ht&Hc) He. destruct (sync_later_run delay t w Hw) as (w'&Hr&Hw'&(Hst'&_)&Ht'&Hc'&_).
  exists w'. split_and!; [done|done|congruence|]. exists (KTimer t). split; [by rewrite Hst', Hst|].
  split; [by rewrite Ht', Ht|congruence].
Qed.

Lemma task_entered st c w : bare st w → st ≠ "disabled" → is_sync c = true → expected st (KTask c) →
  entered st (run_task c) w.
Proof.
  intros Hb Hne Hs He. destruct (run_task_run c w st Hb Hne Hs) as (w'&Hr&Hw'&Hst'&Ho&_).
  exists w'. split_and!; try done. exists (KTask c). by rewrite Hst'.
Qed.

Lemma entered_read {A} st (f : world → A) (k : A → M world unit) w :
  entered st (k (f w)) w → entered st (a ← gets f; k a) w.
Proof. done. Qed.

Lemma enter_uploading now w : bare "uploading" w →
  entered "uploading" (on_enter_uploading device_id get_me_map timeout_delay caps_timeout_delay now) w.
Proof.
  intros Hb. apply set_off_then; [done..|]. intros w1 Hb1 _ _. by apply task_entered; [..|constructor].
Qed.

Lemma enter_out_of_sync now w : bare "out_of_sync" w →
  entered "out_of_sync" (on_enter_out_of_sync device_id get_me_map timeout_delay caps_timeout_delay now) w.
Proof.
  intros Hb. apply set_off_then; [done..|]. intros w1 Hb1 _ _. apply entered_read.
  case_decide; (apply later_entered; [done|constructor]).
Qed.

Lemma enter_auditing now w : bare "auditing" w → entered "auditing" (on_enter_auditing resync_delay now) w.
Proof.
  intros Hb. apply entered_read. case_decide; [apply later_entered; [done|constructor]|].
  by apply task_entered; [..|constructor].
Qed.

Lemma enter_resynchronizing w : bare "resynchronizing" w → entered "resynchronizing" on_enter_resynchronizing w.
Proof. intros Hb. by apply task_entered; [..|constructor]. Qed.

Lemma enter_examining now w : bare "examining_mds" w →
  entered "examining_mds" (on_enter_examining_mds device_id get_me_map timeout_delay caps_timeout_delay now) w.
Proof.
  intros (Hw&Hst&Ht&Hc). unfold on_enter_examining_mds.
  assert (Hne : state (w_sync w) ≠ "disabled") by congruence.
  destruct (wf_device w Hw Hne) as [_ Hin]. destruct (wf_indb w Hw Hin) as [_ Hn]. simpl in Hn.
  unfold entered. rewrite (bind_ok _ _ w (Some (mib_data_sync (w_sync w))) w).
  2: { rewrite db_run by done. unfold get_mib_data_sync. rewrite (bind_ok _ _ _ (data (w_db w)) (w_db w)) by done.
       simpl. rewrite Hn. by destruct w. }
  rewrite (bind_ok _ _ w tt w) by (unfold sync_, modify; by destruct w as [[] ? ? ? ? ? ? ? ? ?]).
  apply set_off_then; [done..|]. intros w1 Hb1 _ _. by apply task_entered; [..|constructor].
Qed.

Lemma set_last_run now v w : WF w → state (w_sync w) ≠ "disabled" →
  ∃ w', set_last_mib_db_sync device_id now v w = (Ok tt, w') ∧ WF w' ∧ same_key (w_sync w) (w_sync w') ∧
    mib_timers w' = mib_timers w ∧ mib_clients w' = mib_clients w ∧ last_mib_db_sync (w_sync w') = Some v.
Proof.
  intros Hw Hst. unfold set_last_mib_db_sync.
  set (w1 := w <| w_sync ::= λ y, y <| last_mib_db_sync := Some v |> |>). rewrite (bind_ok _ _ w tt w1) by done.
  assert (WF w1) as Hw1 by by apply WF_sync.
  rewrite (bind_ok _ _ w1 true w1) by (unfold getS, gets; by rewrite (wf_database w1 Hw1)).
  rewrite db_run by done. destruct (wf_device w Hw Hst) as [_ Hin].
  destruct (stored_device _ _ _ (wf_indb w1 Hw1 Hin)) as (d&Hd&_).
  assert ((save_last_sync now device_id v (w_db w1)).1 = Ok tt) as -> by (unfold save_last_sync; by rewrite (bind_ok _ _ _ d _ Hd)).
  eexists. split; [done|]. split; [|done]. apply WF_db; [done|]. intros bn Hbn. by apply (pres_save_last now v bn).
Qed.

(** A world that is well-formed but for the device of a synchronizer that is
    not disabled any more. *)
Definition stateless (w : world) : world := w <| w_sync ::= λ y, y <| state := "disabled" |> |>.

Lemma WF_stateless w : WF w → WF (stateless w).
Proof. intros Hw. by destruct Hw. Qed.

Lemma WF_restore w : WF (stateless w) → sdevice (w_sync w) = true → device_in_db (w_sync w) = true → WF w.
Proof. intros Hw Hd Hin. by destruct Hw. Qed.

Definition kept (w w' : world) : Prop :=
  state (w_sync w') = state (w_sync w) ∧ sdevice (w_sync w') = sdevice (w_sync w) ∧
  mib_timers w' = mib_timers w ∧ mib_clients w' = mib_clients w.

Definition seeded (now : Z) (w : world) : world :=
  let s := w_db w in
  match data s !! device_id with
  | Some d =>
      w <| w_db := MibDb.MibDb true (modified s) (data s) (attrs s) (next_ref s) |>
        <| w_sync ::= λ y, y <| mib_data_sync := v_mds d |> <| last_mib_db_sync := v_last_sync d |>
                             <| device_in_db := true |> |>
  | None =>
      w <| w_db := MibDb.MibDb true (modified s) (<[device_id := DeviceDb now None 0 ∅ ∅ ∅]> (data s)) (attrs s) (next_ref s) |>
        <| w_sync ::= λ y, y <| device_in_db := true |> |>
  end.

Lemma seed_eq now w : database (w_sync w) = true →
  seed_database device_id now w = (Ok tt, if device_in_db (w_sync w) then w else seeded now w).
Proof.
  intros Hdb. unfold seed_database. rewrite (bind_ok _ _ w (device_in_db (w_sync w)) w) by done.
  destruct (device_in_db (w_sync w)) eqn:Hin; [done|]. unfold contained. f_equal. unfold seeded.
  destruct w as [y ? ? s ? ? ? ? ? ?], y; simpl in *; subst.
  destruct (data s !! device_id) as [d|] eqn:Hd;
    unfold except_KeyError, db, zoom, getS, gets, sync_, modify, MibDb.start, MibDb.add, check_started, mbind, M_bind, raise;
    simpl; unfold gets, mbind, M_bind, modify, raise; simpl.
  - rewrite decide_True by eauto. simpl. unfold get_mib_data_sync, get_last_sync, gets, mbind, M_bind, mret, M_ret; simpl.
    rewrite Hd. simpl. rewrite Hd. done.
  - rewrite decide_False by (intros [_ [? ?]]; congruence). done.
Qed.

Lemma seeded_ok now w : WF (stateless w) → device_in_db (w_sync w) = false →
  WF (stateless (seeded now w)) ∧ device_in_db (w_sync (seeded now w)) = true ∧ kept w (seeded now w).
Proof.
  intros Hw Hin. destruct (wf_before _ Hw Hin) as [Hz Hsub]. simpl in Hz, Hsub. pose proof (wf_range _ Hw) as Hr.
  simpl in Hr. unfold seeded. destruct (data (w_db w) !! device_id) as [d|] eqn:Hd; (split; [|done]); destruct Hw; split; try done; simpl.
  - intros _. split; [done|]. simpl. by rewrite Hd.
  - by apply Hr.
  - intros _. split; [done|]. simpl. by rewrite lookup_insert_eq, Hz.
  - rewrite lookup_insert_eq. intros n [= <-]. simpl. lia.
Qed.

Lemma enter_starting now w0 : WF w0 → mib_timers w0 = [] → mib_clients w0 = ∅ →
  entered "starting" (on_enter_starting device_id now) (w0 <| w_sync ::= λ y, y <| state := "starting" |> |>).
Proof.
  intros Hw0 Ht Hc. set (w := w0 <| w_sync ::= _ |>). assert (WF (stateless w)) as Hw by by destruct Hw0.
  unfold entered, on_enter_starting. rewrite (bind_ok _ _ w tt w).
  2: { unfold get_device. by rewrite (bind_ok _ _ w true w) by (unfold gets; by rewrite <-(wf_reg _ Hw)). }
  set (w1 := w <| w_sync ::= λ y, y <| sdevice := true |> |>). rewrite (bind_ok _ _ w tt w1) by done.
  assert (WF (stateless w1)) as Hw1 by by destruct Hw.
  set (w2 := if device_in_db (w_sync w1) then w1 else seeded now w1).
  assert (WF (stateless w2) ∧ device_in_db (w_sync w2) = true ∧ kept w1 w2) as (Hw2&Hin2&Hst2&Hd2&Ht2&Hc2).
  { unfold w2. destruct (device_in_db (w_sync w1)) eqn:Hin; [done|]. by apply seeded_ok. }
  rewrite (bind_ok _ _ w1 tt w2) by (apply seed_eq; exact (wf_database _ Hw1)).
  set (w3 := w2 <| w_sync ::= λ y, y <| omci_cc_subscriptions := OMCI_CC_EVENTS |>
                    <| onu_dev_subscriptions := {["OmciCapabilitiesEvent"]} |> |>).
  rewrite (bind_ok _ _ w2 tt w3) by done.
  assert (bare "starting" w3) as Hb3.
  { split_and!; [|done|by rewrite <-Ht|by rewrite <-Hc]. apply WF_restore; [|done..].
    destruct Hw2. split; try done. intros Hf. simpl in Hf. congruence. }
  apply entered_read. destruct (is_new_onu (w_sync w3)); (apply later_entered; [done|constructor]).
Qed.

Lemma enter_in_sync now w : bare "in_sync" w →
  ∃ w', on_enter_in_sync device_id get_me_map timeout_delay audit_delay caps_timeout_delay now w = (Ok tt, w') ∧
    WF w' ∧ state (w_sync w') = "in_sync" ∧ (token w' ∨ halted w') ∧ mib_db_in_sync (w_dev w') = true ∧
    last_mib_db_sync (w_sync w') = Some now.
Proof.
  intros (Hw&Hst&Ht&Hc). unfold on_enter_in_sync.
  destruct (set_last_run now now w Hw) as (w1&Hr1&Hw1&(Hst1&_)&Ht1&Hc1&Hl1); [congruence|].
  rewrite (bind_ok _ _ w tt w1 Hr1). destruct (set_in_sync_run now true w1 Hw1) as (w2&Hr2&Hw2&Hs2&Ht2&Hc2&Hb2).
  rewrite (bind_ok _ _ w1 tt w2) by (rewrite with_device_run by (done || congruence); done).
  destruct (decide (audit_delay > 0)) as [Hd|Hd].
  2: { exists w2. assert (state (w_sync w2) = "in_sync") as Hst2 by congruence. split_and!; try done; try congruence.
       right. split; [right; split; [lia|done]|]. split; congruence. }
  destruct (sync_later_run audit_delay "audit_mib" w2 Hw2) as (w'&Hr&Hw'&(Hst'&_)&Ht'&Hc'&Hd'&Hl').
  exists w'. assert (state (w_sync w') = "in_sync") as Hst3 by congruence. split_and!; try done; try congruence.
  left. exists (KTimer "audit_mib"). split; [rewrite Hst3; constructor|]. split; [by rewrite Ht', Ht2, Ht1, Ht|congruence].
Qed.
(** ** Triggers *)
Local Abbreviation fire_ now := (fire device_id get_me_map timeout_delay audit_delay resync_delay caps_timeout_delay now).

Lemma fire_to now t d w : first_dest MIB_TRANSITIONS (state (w_sync w)) t = Some d →
  fire_ now t w = on_enter device_id get_me_map timeout_delay audit_delay resync_delay caps_timeout_delay now d
                    (w <| w_sync ::= λ y, y <| state := d |> |>).
Proof.
  intros Hd. unfold fire. rewrite (bind_ok _ _ w (state (w_sync w)) w) by done. rewrite takes_first, Hd. done.
Qed.

Lemma bare_moved w d : WF w → state (w_sync w) ≠ "disabled" → mib_timers w = [] → mib_clients w = ∅ →
  bare d (w <| w_sync ::= λ y, y <| state := d |> |>).
Proof.
  intros Hw Hst Ht Hc. split_and!; try done. destruct (wf_device w Hw Hst). destruct Hw. by split.
Qed.

(** A trigger the state waits for is accepted, and the state it leads to has
    its own continuation. *)
Lemma fire_run now t w : WF w → expected (state (w_sync w)) (KTimer t) → mib_timers w = [] → mib_clients w = ∅ →
  ∃ w', fire_ now t w = (Ok tt, w') ∧ WF w' ∧ (token w' ∨ halted w') ∧
    first_dest MIB_TRANSITIONS (state (w_sync w)) t = Some (state (w_sync w')) ∧
    (state (w_sync w') = "in_sync" → mib_db_in_sync (w_dev w') = true ∧ last_mib_db_sync (w_sync w') = Some now).
Proof.
  intros Hw He Ht Hc.
  assert (∃ d, first_dest MIB_TRANSITIONS (state (w_sync w)) t = Some d ∧
    (d = "starting" ∨ state (w_sync w) ≠ "disabled" ∧
      (d = "uploading" ∨ d = "examining_mds" ∨ d = "in_sync" ∨ d = "out_of_sync" ∨ d = "auditing" ∨ d = "resynchronizing")))
    as (d&Hd&Hcases).
  { inversion He as [Hst Hk|Hst Hk|Hst Hk|Hst Hk|Hst Hk|Hst Hk|Hst Hk|Hst Hk|Hst Hk|Hst Hk|Hst Hk|Hst Hk|
      Hst Hk|Hst Hk|Hst Hk|Hst Hk|Hst Hk|Hst Hk|Hst Hk|Hst Hk|Hst Hk]; simplify_eq;
      (eexists; split; [vm_compute; reflexivity|]; rewrite <-?Hst; naive_solver). }
  rewrite (fire_to now t d w Hd), Hd.
  destruct Hcases as [->|[Hne Hcases]].
  - destruct (enter_starting now w Hw Ht Hc) as (w'&Hr&Hw'&Hst'&Htok). exists w'. split_and!; try done; [by left|congruence..].
  - pose proof (bare_moved w d Hw Hne Ht Hc) as Hb. set (w1 := w <| w_sync ::= _ |>) in *.
    assert (d ≠ "in_sync" → entered d (on_enter device_id get_me_map timeout_delay audit_delay resync_delay caps_timeout_delay now d) w1) as Hent.
    { intros Hnin. destruct Hcases as [->|[->|[->|[->|[->| ->]]]]]; [by apply enter_uploading|by apply enter_examining|done
        |by apply enter_out_of_sync|by apply enter_auditing|by apply enter_resynchronizing]. }
    destruct (decide (d = "in_sync")) as [->|Hnin].
    + destruct (enter_in_sync now w1 Hb) as (w'&Hr&Hw'&Hst'&Htok&Hb'&Hl'). exists w'. split_and!; try done; congruence.
    + destruct (Hent Hnin) as (w'&Hr&Hw'&Hst'&Htok). exists w'. split_and!; try done; [by left|congruence..].
Qed.
(** ** Calls of the reactor *)
Lemma timer_split (w : world) i n delay f : WF w → w_timers w !! i = Some (n, delay, f) →
  ∃ l1 l2, w_timers w = l1 ++ (n, delay, f) :: l2 ∧ filter (λ t, t.1.1 ≠ n) (w_timers w) = l1 ++ l2.
Proof.
  intros Hw Hi. pose proof (wf_ids w Hw) as Hnd. apply list_elem_of_split_length in Hi as (l1&l2&Hl&_).
  exists l1, l2. split; [done|]. rewrite Hl in *. rewrite !fmap_app in Hnd. csimpl in *.
  apply NoDup_app in Hnd as (_&H1&H2). apply NoDup_cons in H2 as [H2 _].
  assert (∀ l : list (nat * Z * tfun), n ∉ l.*1.*1 → filter (λ t, t.1.1 ≠ n) l = l) as Hid.
  { induction l as [|t l IH]; intros Hn; [done|]. rewrite filter_cons, decide_True, IH; [done|set_solver|set_solver]. }
  rewrite filter_app, filter_cons, decide_False by auto. rewrite !Hid; [done|done|].
  intros Hn. apply (H1 n Hn). set_solver.
Qed.

Lemma WF_untimed w l : WF w → (∀ t, t ∈ l → t ∈ w_timers w) → NoDup l.*1.*1 → WF (w <| w_timers := l |>).
Proof.
  intros Hw Hl Hnd. destruct Hw. split; try done; simpl; auto.
  intros n Hn. destruct (wf_cdef0 n Hn) as [? Hmt]. auto.
Qed.

(** A timer is taken: if it was the machine's continuation, none is left. *)
Lemma timer_taken w n delay f i : WF w → w_timers w !! i = Some (n, delay, f) →
  let w' := (cancel_timer (Some n) w).2 in
  WF w' ∧ w_sync w' = w_sync w ∧ mib_clients w' = mib_clients w ∧
  match mib_timer f with
  | None => mib_timers w' = mib_timers w
  | Some t => ∀ t', mib_timers w = [t'] → t' = t ∧ mib_timers w' = []
  end.
Proof.
  intros Hw Hi w'. destruct (timer_split w i n delay f Hw Hi) as (l1&l2&Hl&Hf).
  assert (w_timers w' = l1 ++ l2) as Hl' by exact Hf.
  split_and!; try done.
  - change (WF (w <| w_timers := filter (λ t, t.1.1 ≠ n) (w_timers w) |>)). rewrite Hf. apply WF_untimed; [done| |].
    + intros t. rewrite Hl. set_solver.
    + pose proof (wf_ids w Hw) as Hnd. rewrite Hl, !fmap_app in Hnd. rewrite !fmap_app. csimpl in Hnd.
      eapply sublist_NoDup; [exact Hnd|]. apply sublist_app; [done|]. by apply sublist_cons.
  - unfold mib_timers. rewrite Hl', Hl, !omap_app. csimpl. destruct (mib_timer f) as [t|].
    + intros t' Ht. destruct (omap _ l1) as [|x [|]] eqn:H1; simplify_eq/=; done.
    + done.
Qed.
Definition good (w : world) : Prop := WF w ∧ (token w ∨ halted w).

(** The machine is as it was. *)
Definition cframe (w0 w : world) : Prop :=
  WF w ∧ state (w_sync w) = state (w_sync w0) ∧ mib_timers w = mib_timers w0 ∧ mib_clients w = mib_clients w0 ∧
  current_task (w_sync w) = current_task (w_sync w0).

Lemma good_cframe w0 w : good w0 → cframe w0 w → good w.
Proof.
  intros [_ H] (Hw&Hst&Ht&Hc&Hcur). split; [done|]. destruct H as [(k&He&Hk)|(Hh&?&?)].
  - left. exists k. rewrite Hst. split; [done|]. destruct k; simpl in *; by rewrite Ht, Hc, ?Hcur.
  - right. split; [by rewrite Hst|]. split; congruence.
Qed.

Lemma frame_cframe w0 w : frame w0 w → cframe w0 w.
Proof. intros [Hw (Hs&?&?&_)]. split_and!; try done; by rewrite Hs. Qed.

Lemma good_frame w0 w : good w0 → frame w0 w → good w.
Proof. intros Hg Hf. eapply good_cframe; [done|]. by apply frame_cframe. Qed.

Lemma good_read w0 w (m : M world unit) : good w0 → frame w0 w → pres (frame w0) m → good (m w).2.
Proof. intros Hg Hf Hm. eapply good_frame; [done|]. by apply Hm. Qed.

Local Abbreviation run_timer_ := (run_timer device_id get_me_map timeout_delay audit_delay resync_delay caps_timeout_delay).

Lemma timer_is_token w t i n delay f : (token w ∨ halted w) → w_timers w !! i = Some (n, delay, f) → mib_timer f = Some t →
  mib_timers w = [t] ∧ mib_clients w = ∅ ∧ expected (state (w_sync w)) (KTimer t).
Proof.
  intros Htok Hi Hf. assert (t ∈ mib_timers w) as Hin.
  { unfold mib_timers. apply list_elem_of_omap. eexists. split; [by eapply list_elem_of_lookup_2|done]. }
  destruct Htok as [([t'|c]&He&Hk)|(_&Hk&_)].
  - destruct Hk as [Hk ?]. rewrite Hk in Hin. apply list_elem_of_singleton in Hin as ->. done.
  - destruct Hk as [Hk _]. rewrite Hk in Hin. set_solver.
  - rewrite Hk in Hin. set_solver.
Qed.

(** A call that is not the synchronizer's. *)
Lemma run_timer_other now n w : WF w →
  (∀ i delay f, w_timers w !! i = Some (n, delay, f) → mib_timer f = None) → cframe w (run_timer_ now n w).2.
Proof.
  intros Hw Hno. unfold run_timer. rewrite (bind_ok _ _ w (w_timers w) w) by done.
  destruct (list_find _ (w_timers w)) as [[i [[n' delay] f]]|] eqn:Hfind; [|done].
  apply list_find_Some in Hfind as (Hi&Hn&_). simpl in Hn. subst n'. pose proof (Hno i delay f Hi) as Hf.
  destruct (timer_taken w n delay f i Hw Hi) as (Hw1&Hs1&Hc1&Ht1). rewrite Hf in Ht1.
  set (w1 := (cancel_timer (Some n) w).2) in *. rewrite (bind_ok _ _ w tt w1) by done.
  assert (∀ w', frame w1 w' → cframe w w') as Hframe.
  { intros w' [Hw' (Hs'&Ht'&Hc'&_)]. split_and!; [done|by rewrite Hs', Hs1|congruence|congruence|by rewrite Hs', Hs1]. }
  destruct f as [t0|t0| |l]; simpl in Hf; [done| | |].
  - by apply Hframe, frame_caps_fire.
  - by apply Hframe, frame_check_in_sync.
  - case_decide as Hl; [done|]. destruct (wf_starts w Hw _ (list_elem_of_lookup_2 _ _ _ Hi)) as [->| ->]; [by apply Hframe|].
    destruct Hl. set_solver.
Qed.

Lemma run_timer_good now n w : good w → good (run_timer_ now n w).2.
Proof.
  intros Hg. pose proof Hg as [Hw Htok].
  destruct (decide (Exists (λ t, t.1.1 = n ∧ is_Some (mib_timer t.2)) (w_timers w))) as [Hmib|Hmib].
  2: { apply (good_cframe w); [done|]. apply run_timer_other; [done|]. intros i delay f Hi.
       apply eq_None_not_Some. intros Hf. apply Hmib, Exists_exists. exists (n, delay, f).
       split; [by eapply list_elem_of_lookup_2|done]. }
  unfold run_timer. rewrite (bind_ok _ _ w (w_timers w) w) by done.
  destruct (list_find _ (w_timers w)) as [[i [[n' delay] f]]|] eqn:Hfind; [|done].
  apply list_find_Some in Hfind as (Hi&Hn&_). simpl in Hn. subst n'.
  destruct (timer_taken w n delay f i Hw Hi) as (Hw1&Hs1&Hc1&Ht1). set (w1 := (cancel_timer (Some n) w).2) in *.
  rewrite (bind_ok _ _ w tt w1) by done.
  destruct (mib_timer f) as [t|] eqn:Hf.
  - destruct (timer_is_token w t i n delay f Htok Hi Hf) as (Ht&Hc&He).
    destruct (Ht1 t Ht) as [_ Ht1']. rewrite Hc in Hc1.
    destruct f as [t0| | |l]; simpl in Hf; simplify_eq.
    + rewrite <-Hs1 in He. destruct (fire_run now t w1 Hw1 He Ht1' Hc1) as (w'&->&Hw'&Htok'&_). by split.
    + case_decide as Hl; simplify_eq.
      destruct (wf_starts w Hw _ (list_elem_of_lookup_2 _ _ _ Hi)) as [->| ->]; [set_solver|].
      unfold start_state_machines. cbn [forM_].
      set (w2 := w1 <| w_dev ::= λ d, d <| state_machines ::= λ l, l ++ [MMib] |> |>).
      assert (WF w2) as Hw2 by by destruct Hw1.
      rewrite <-Hs1 in He. destruct (fire_run now "start" w2 Hw2 He Ht1' Hc1) as (w3&Hr3&Hw3&Htok3&_).
      rewrite (bind_ok _ _ w1 tt w3) by by rewrite (bind_ok _ _ w1 tt w2) by done.
      assert (good w3) as Hg3 by (by split).
      apply (good_read w3 w3); [done|done|]. apply pres_bind; [|by intros _ w'].
      apply pres_bind; [intros w' [Hw' Hs']; split; [by destruct Hw'|done]|intros _]. apply frame_caps_fire.
  - exfalso. apply Exists_exists in Hmib as (t&Ht&Htn&[x Hx]). apply list_elem_of_lookup_1 in Ht as [j Hj].
    assert (i = j) as ->; [|rewrite Hi in Hj; injection Hj as <-; simpl in Hx; congruence].
    eapply (NoDup_lookup _ _ _ n (wf_ids w Hw)); rewrite !list_lookup_fmap; [rewrite Hi|rewrite Hj]; simpl; congruence.
Qed.

(** ** Ends of tasks *)

(** The outcomes a task can have.  A resynchronization may leave out lists (it
    reports [None] for an empty one), which its callback cannot handle: see
    [partial_report_sticks]. *)
Definition fits (c : client) (o : outcome) : Prop :=
  match c, o with
  | _, OFailure => True
  | CUpload, OText => True
  | CExamine, OMds _ | CAudit, OMds _ => True
  | CResync, OResync _ _ _ => True
  | CGet _ _, OAttributes _ => True
  | CCaps, OCaps _ _ => True
  | _, _ => False
  end.

Lemma bare_sync st w f : bare st w → same_key (w_sync w) (f (w_sync w)) → bare st (w <| w_sync ::= f |>).
Proof.
  intros (Hw&Hst&Ht&Hc) Hk. split_and!; [by apply WF_sync| |done..]. destruct Hk as [Hk _]. simpl. congruence.
Qed.

Lemma entered_good st m w : entered st m w → good (m w).2.
Proof. intros (w'&->&Hw'&_&Htok). split; [done|by left]. Qed.

Lemma then_later st delay t f w : bare st w → same_key (w_sync w) (f (w_sync w)) → expected st (KTimer t) →
  entered st (_ ← sync_ f; sync_later delay t) w.
Proof. intros Hb Hk He. apply (later_entered st delay t (w <| w_sync ::= f |>)); [by apply bare_sync|done]. Qed.

Lemma examine_good st v w : bare st w → expected st (KTimer "success") → expected st (KTimer "mismatch") →
  entered st (examine_success v) w.
Proof.
  intros Hb H1 H2. unfold examine_success.
  set (w1 := w <| w_sync ::= λ y, y <| current_task := None |> |>).
  assert (bare st w1) as Hb1 by by apply bare_sync.
  change (entered st (_ ← sync_ (λ y, y <| current_task := None |>); mds ← getS mib_data_sync;
    if decide (mds = v) then sync_later 0 "success" else sync_later 0 "mismatch") w).
  unfold entered. rewrite (bind_ok _ _ w tt w1) by done. apply entered_read.
  case_decide; by apply later_entered.
Qed.

Lemma audit_good now v w : bare "auditing" w →
  entered "auditing" (audit_success device_id get_me_map timeout_delay caps_timeout_delay now v) w.
Proof.
  intros Hb. set (w1 := w <| w_sync ::= λ y, y <| current_task := None |> |>).
  assert (bare "auditing" w1) as Hb1 by by apply bare_sync.
  unfold audit_success, entered. rewrite (bind_ok _ _ w tt w1) by done. apply entered_read.
  case_decide; [apply later_entered; [done|constructor]|].
  apply set_off_then; [done..|]. intros w2 Hb2 _ _. apply later_entered; [done|constructor].
Qed.

Lemma nonempty_run {A} (l : option (list A)) w :
  nonempty l w = (match l with Some [] => Ok None | Some l => Ok (Some l) | None => Err TypeError end, w).
Proof. by destruct l as [[]|]. Qed.

Local Abbreviation R := "resynchronizing".

(** One list of differences: the callback raises if it is not there. *)
Lemma diff_step {A} (l : option (list A)) (f : option (list A) → sync → sync) (k : option (list A) → M world unit) (Q : Prop) w :
  bare R w → (∀ x y, same_key y (f x y)) →
  (∀ x w', bare R w' → good (k x w').2 ∧ (Q → stuck (k x w').2)) →
  let m := x ← nonempty l; _ ← sync_ (f x); k x in
  good (m w).2 ∧ (l = None ∨ Q → stuck (m w).2).
Proof.
  intros Hb Hf Hk m. unfold m. destruct l as [l|].
  - set (x := match l with [] => None | _ => Some l end).
    rewrite (bind_ok _ _ w x w) by (rewrite nonempty_run; by destruct l).
    destruct (Hk x (w <| w_sync ::= f x |>)) as [H1 H2]; [by apply bare_sync|].
    rewrite (bind_ok _ _ w tt (w <| w_sync ::= f x |>)) by done. split; [done|]. intros [?|?]; [done|auto].
  - rewrite (bind_err _ _ w TypeError w) by done. destruct Hb as (Hw&Hst&Ht&Hc).
    split; [split; [done|right; apply halted_cases; left]|intros _]; split_and!; done.
Qed.

(** The callback of a resynchronization raises unless all three lists are
    there, and then nothing is left to move the machine. *)
Lemma resync_good a b c w : bare R w →
  good (resync_success a b c w).2 ∧ (a = None ∨ b = None ∨ c = None → stuck (resync_success a b c w).2).
Proof.
  intros Hb. unfold resync_success. set (w1 := w <| w_sync ::= λ y, y <| current_task := None |> |>).
  rewrite (bind_ok _ _ w tt w1) by done. assert (bare R w1) as Hb1 by by apply bare_sync.
  apply (diff_step a (λ x y, y <| on_olt_only_diffs := x |>)); [done..|]. intros a' w2 Hb2.
  apply (diff_step b (λ x y, y <| on_onu_only_diffs := x |>)); [done..|]. intros b' w3 Hb3.
  destruct (diff_step c (λ x y, y <| attr_diffs := x |>) (λ c', if decide (a' = None ∧ b' = None ∧ c' = None)
    then sync_later 0 "success" else sync_later 0 "diffs_found") False w3) as [H1 H2]; [done..| |].
  - intros c' w4 Hb4. split; [|done]. case_decide; eapply entered_good, later_entered; first [done|constructor].
  - split; [exact H1|]. intros ->. by apply H2; left.
Qed.

Lemma callbacks_good now c o st w : bare st w → expected st (KTask c) → fits c o →
  good (match o with OFailure => on_failure timeout_delay caps_timeout_delay c
        | _ => on_success device_id get_me_map timeout_delay caps_timeout_delay now c o end w).2.
Proof.
  intros Hb He Hfit. inversion He; subst; destruct o; try done; cbn beta iota delta [on_failure on_success].
  - eapply entered_good, then_later; [done|done|constructor].
  - eapply entered_good, then_later; [done|done|constructor].
  - eapply entered_good, examine_good; [done|constructor|constructor].
  - eapply entered_good, then_later; [done|done|constructor].
  - by eapply entered_good, audit_good.
  - eapply entered_good, then_later; [done|done|constructor].
  - by apply resync_good.
  - eapply entered_good, then_later; [done|done|constructor].
Qed.
Local Abbreviation end_task_ := (end_task device_id get_me_map timeout_delay caps_timeout_delay).

Lemma mib_client_lookup w id c : mib_clients w !! id = Some c ↔ w_clients w !! id = Some c ∧ is_sync c = true.
Proof. apply map_lookup_filter_Some. Qed.

(** The synchronizer's task has ended. *)
Lemma ended_client w r id c : good w → w_clients w !! id = Some c → is_sync c = true →
  rt_ok r → rt_live r = rt_live (w_runner w) ∖ {[id]} → rt_last r = rt_last (w_runner w) →
  bare (state (w_sync w)) (w <| w_runner := r |> <| w_clients ::= delete id |>) ∧ expected (state (w_sync w)) (KTask c).
Proof.
  intros [Hw Htok] Hid Hs Hr Hlive Hl. assert (mib_clients w !! id = Some c) as Hm by by apply mib_client_lookup.
  destruct Htok as [([t|c']&He&Hk)|(_&_&Hk)].
  - destruct Hk as [_ Hk]. by rewrite Hk in Hm.
  - destruct Hk as [Ht (id'&Hk&_)]. rewrite Hk in Hm. apply lookup_singleton_Some in Hm as [-> ->].
    split; [|done]. split_and!; [by apply WF_clients_drop|done..|].
    rewrite mib_clients_delete. change (mib_clients (w <| w_runner := r |>)) with (mib_clients w).
    rewrite Hk. apply delete_singleton_eq.
  - by rewrite Hk in Hm.
Qed.

Lemma caps_callbacks_frame w0 now c o : is_sync c = false →
  pres (frame w0) (match o with OFailure => on_failure timeout_delay caps_timeout_delay c
        | _ => on_success device_id get_me_map timeout_delay caps_timeout_delay now c o end).
Proof.
  intros Hs. destruct c; try done; destruct o; try by intros w.
  - cbn beta iota delta [on_success]. apply pres_bind; [apply frame_db; intros bn; apply pres_bind; [apply pres_from_some|intros l; apply pres_set]|by intros _ w].
  - cbn beta iota delta [on_success]. unfold caps_success.
    apply pres_bind; [by intros w|intros t]. apply pres_bind; [apply pres_from_some|intros _].
    apply pres_bind; [intros w Hf; apply frame_caps; auto|intros _]. intros w Hf. by apply frame_caps_later.
  - cbn beta iota delta [on_failure]. unfold caps_failure.
    apply pres_bind; [intros w Hf; apply frame_caps; auto|intros _]. intros w Hf. by apply frame_caps_later.
Qed.

(** The end of a task that is not the synchronizer's. *)
Lemma end_task_other now id o w : WF w → rt_working (w_runner w) id →
  (∀ c, w_clients w !! id = Some c → is_sync c = false) → cframe w (end_task_ now id o w).2.
Proof.
  intros Hw Hwk Hno. set (ok := match o with OFailure => false | _ => true end).
  destruct (rt_end_ok id ok (w_runner w)) as (_&Hr&Hlive&Hl); [apply Hw|done|].
  unfold end_task. rewrite (bind_ok _ _ w (w_clients w) w) by done.
  set (w1 := w <| w_runner := rt_end id ok (w_runner w) |> <| w_clients ::= delete id |>) in *.
  rewrite (bind_ok _ _ w tt w1) by done. assert (WF w1) as Hw1 by by apply WF_clients_drop.
  assert (mib_clients w1 = mib_clients w) as Hc1.
  { unfold w1. rewrite mib_clients_delete. apply delete_id, eq_None_not_Some.
    intros [c [Hc Hs]%mib_client_lookup]. apply Hno in Hc. congruence. }
  assert (∀ w', frame w1 w' → cframe w w') as Hframe.
  { intros w' [Hw' (Hs'&Ht'&Hc'&_)]. split_and!; [done|by rewrite Hs'|done|congruence|by rewrite Hs']. }
  destruct (w_clients w !! id) as [c|]; [|by apply Hframe]. cbn [contained snd].
  apply Hframe. apply caps_callbacks_frame; [auto|done].
Qed.

Lemma end_task_good now id o w : good w → rt_working (w_runner w) id →
  (∀ c, w_clients w !! id = Some c → fits c o) → good (end_task_ now id o w).2.
Proof.
  intros Hg Hwk Hfit. destruct (w_clients w !! id) as [c|] eqn:Hid; [destruct (is_sync c) eqn:Hs|].
  2-3: apply (good_cframe w); [done|]; apply end_task_other; [apply Hg|done|congruence].
  set (ok := match o with OFailure => false | _ => true end).
  destruct (rt_end_ok id ok (w_runner w)) as (_&Hr&Hlive&Hl); [apply Hg|done|].
  destruct (ended_client w _ id c Hg Hid Hs Hr Hlive Hl) as [Hb He].
  unfold end_task. rewrite (bind_ok _ _ w (w_clients w) w) by done.
  set (w1 := w <| w_runner := rt_end id ok (w_runner w) |> <| w_clients ::= delete id |>) in *.
  rewrite (bind_ok _ _ w tt w1) by done. rewrite Hid.
  apply (callbacks_good now c o _ w1 Hb He). by apply Hfit.
Qed.

(** ** Responses *)

(** Handlers that only change the counter, the database or the device. *)
Definition hframe (w0 w : world) : Prop := cframe w0 w ∧ device_in_db (w_sync w) = true.

Lemma frame_hframe w0 w w' : hframe w0 w → frame w w' → hframe w0 w'.
Proof.
  intros [(Hw&Hst&Ht&Hc&Hcur) Hin] [Hw' (Hs&Ht'&Hc'&_)]. split; [split_and!|]; try done; try congruence; by rewrite Hs.
Qed.

Lemma hframe_of {A} w0 (m : M world A) : (∀ w1, pres (frame w1) m) → pres (hframe w0) m.
Proof. intros Hm w Hf. eapply frame_hframe; [done|]. apply Hm. split; [apply Hf|done]. Qed.

Lemma hframe_db {A} w0 (m : M mibdb A) : (∀ bn, pres (stored bn) m) → pres (hframe w0) (db m).
Proof. intros Hm. apply hframe_of. intros w1. by apply frame_db. Qed.

Lemma hframe_device {A} w0 (m : M world A) : pres (hframe w0) m → pres (hframe w0) (with_device m).
Proof. intros Hm. unfold with_device. apply pres_bind; [by intros w|]. intros []; [done|by intros w]. Qed.

Lemma hframe_increment w0 now : pres (hframe w0) (increment_mib_data_sync device_id now).
Proof.
  intros w [(Hw&Hst&Ht&Hc&Hcur) Hin]. set (n := if decide (mib_data_sync (w_sync w) + 1 > 255) then 0 else mib_data_sync (w_sync w) + 1).
  assert (0 ≤ n ≤ 255) as Hn by (unfold n; pose proof (wf_mds w Hw); case_decide; lia).
  set (w1 := w <| w_sync ::= λ y, y <| mib_data_sync := n |> |>).
  assert (increment_mib_data_sync device_id now w = db (save_mib_data_sync now device_id n) w1) as ->.
  { unfold increment_mib_data_sync. erewrite bind_ok by done. erewrite bind_ok by done. cbn beta.
    rewrite (bind_ok _ _ _ tt w1) by (unfold w1, n; simpl; by case_decide).
    rewrite (bind_ok _ _ w1 n w1) by done. rewrite (bind_ok _ _ w1 true w1); [done|].
    unfold getS, gets. simpl. by rewrite (wf_database w Hw). }
  unfold db. rewrite (bind_ok _ _ w1 true w1) by (unfold getS, gets; simpl; by rewrite (wf_database w Hw)).
  destruct (stored_device _ _ _ (wf_indb w Hw Hin)) as (d&Hd&Hdd&_). destruct (wf_indb w Hw Hin) as [Hstd _].
  unfold zoom. simpl w_db. unfold save_mib_data_sync. rewrite decide_False by tauto.
  rewrite (bind_ok _ _ _ d _ Hd). simpl. split; [|done]. split_and!; try done.
  destruct Hw. split; try done; simpl.
  - intros _. split; [done|]. simpl. by rewrite lookup_insert_eq.
  - rewrite lookup_insert_eq. by intros ? [= <-].
  - by intros Hf; rewrite Hin in Hf.
Qed.

Lemma hframe_queue w0 cid eid : pres (hframe w0) (queue_task (CGet cid eid)).
Proof.
  apply hframe_of. intros w1 w [Hw Hs]. destruct (queue_task_run (CGet cid eid) w Hw) as (id&r&->&Hr&Hlt&Hl&Hlive&Hn).
  split; [by apply WF_queued|]. destruct Hs as (?&?&Hc&?). split_and!; try done.
  cbn [snd]. unfold mib_clients. simpl. rewrite map_filter_insert_False by done. by rewrite delete_id.
Qed.
Lemma hframe_reset w0 now : pres (hframe w0)
  (_ ← sync_ (λ y, y <| mib_data_sync := 0 |>); _ ← dev_ (λ d, d <| dmodified := now |>); db (on_mib_reset now device_id)).
Proof.
  intros w [(Hw&Hst&Ht&Hc&Hcur) Hin]. erewrite bind_ok by done. erewrite bind_ok by done.
  set (w1 := _ <| w_dev ::= _ |>).
  unfold db. rewrite (bind_ok _ _ w1 true w1) by (unfold getS, gets; simpl; by rewrite (wf_database w Hw)).
  destruct (stored_device _ _ _ (wf_indb w Hw Hin)) as (d&Hd&Hdd&_). destruct (wf_indb w Hw Hin) as [Hstd _].
  unfold zoom. simpl w_db. unfold on_mib_reset.
  rewrite (bind_ok _ _ _ tt (w_db w)) by (unfold check_started; rewrite (bind_ok _ _ _ true (w_db w)) by (unfold gets; by rewrite Hstd); done).
  rewrite (bind_ok _ _ _ d _ Hd). simpl. split; [|done]. split_and!; try done.
  destruct Hw. split; try done; simpl.
  - intros _. split; [done|]. simpl. by rewrite lookup_insert_eq.
  - rewrite lookup_insert_eq. intros n [= <-]. simpl. lia.
  - by intros Hf; rewrite Hin in Hf.
Qed.

Lemma hframe_except {A} w0 (m h : M world A) : pres (hframe w0) m → pres (hframe w0) h → pres (hframe w0) (except_KeyError m h).
Proof.
  intros Hm Hh w Hf. unfold except_KeyError. specialize (Hm w Hf).
  destruct (m w) as [[a|[]] w']; try done. by apply Hh.
Qed.

Lemma hframe_set_off w0 now b :
  pres (hframe w0) (set_mib_db_in_sync device_id get_me_map timeout_delay caps_timeout_delay now b).
Proof.
  intros w Hf. destruct (set_in_sync_run now b w) as (w'&->&Hw'&Hs&Ht&Hc&_); [apply Hf|].
  cbn [snd]. destruct Hf as [(Hw&Hst&Ht0&Hc0&Hcur) Hin]. split; [split_and!|]; try done; try congruence; by rewrite Hs.
Qed.

(** [hframe] goes through the structure of a handler. *)
Ltac hframe :=
  repeat first
    [ by apply pres_read
    | apply pres_from_some
    | apply hframe_reset
    | apply hframe_increment
    | apply hframe_set_off
    | apply hframe_queue
    | apply hframe_db; intros bn; first [apply pres_set|apply pres_delete|apply pres_query]
    | apply hframe_device
    | match goal with
      | |- pres _ (contained _) => apply pres_contained
      | |- pres _ (except_KeyError _ _) => apply hframe_except
      | |- pres _ (passert ?b) => destruct b; by apply pres_read
      | |- pres _ (if ?x then _ else _) => destruct x
      | |- pres _ (match ?x with _ => _ end) => destruct x
      | |- pres _ (_ ≫= _) => apply pres_bind; [|intros ?]
      end ].

Lemma handled w (m : M world unit) :
  WF w → (omci_cc_subscriptions (w_sync w) = ∅ → (m w).2 = w) → pres (hframe w) m → cframe w (m w).2.
Proof.
  intros Hw Hno Hm. destruct (device_in_db (w_sync w)) eqn:Hin.
  - by apply Hm.
  - rewrite Hno; [done|]. by destruct (wf_before w Hw Hin).
Qed.

Definition handlers (now : Z) (msg : rx_message) : list (M world unit) :=
  [ on_mib_reset_response device_id get_me_map timeout_delay caps_timeout_delay now msg;
    on_avc_notification device_id get_me_map now msg;
    on_mib_upload_next_response device_id get_me_map now msg;
    on_create_response device_id get_me_map me_map now msg;
    on_delete_response device_id now msg;
    on_set_response device_id get_me_map now msg ].

Lemma handler_cframe now msg m w : m ∈ handlers now msg → WF w → cframe w (m w).2.
Proof.
  intros Hm Hw. apply handled; [done|..].
  - intros Hno. repeat (apply elem_of_cons in Hm as [->|Hm]); [..|by apply elem_of_nil in Hm].
    + unfold on_mib_reset_response, except_KeyError. rewrite (bind_ok _ _ w (w_sync w) w) by done.
      rewrite decide_True by (right; set_solver). done.
    + unfold on_avc_notification. rewrite (bind_ok _ _ w (w_sync w) w) by done. rewrite decide_False by set_solver. done.
    + unfold on_mib_upload_next_response. rewrite (bind_ok _ _ w (w_sync w) w) by done. rewrite decide_False by set_solver. done.
    + unfold on_create_response. rewrite (bind_ok _ _ w (w_sync w) w) by done. rewrite decide_False by set_solver. done.
    + unfold on_delete_response. rewrite (bind_ok _ _ w (w_sync w) w) by done. rewrite decide_False by set_solver. done.
    + unfold on_set_response. rewrite (bind_ok _ _ w (w_sync w) w) by done. rewrite decide_False by set_solver. done.
  - repeat (apply elem_of_cons in Hm as [->|Hm]); [..|by apply elem_of_nil in Hm];
      unfold on_mib_reset_response, on_avc_notification, on_mib_upload_next_response, on_create_response,
        on_delete_response, on_set_response, update_sbc_w_items; hframe.
Qed.
(** ** Runs

    What happens to an ONU while its entry is not stopped: the reactor makes a
    call, a task at work ends, the runner moves on, messages arrive, and an
    operator asks for an audit of a synchronizer that is in sync and has none
    scheduled. *)
Inductive estep (w : world) : world → Prop :=
  | e_timer now n : estep w (run_timer_ now n w).2
  | e_end now id o : rt_working (w_runner w) id → (∀ c, w_clients w !! id = Some c → fits c o) →
      estep w (end_task_ now id o w).2
  | e_runner r : rt_internal (w_runner w) r → estep w (w <| w_runner := r |>)
  | e_message now msg m : m ∈ handlers now msg → estep w (m w).2
  | e_audit now : state (w_sync w) = "in_sync" → mib_timers w = [] → estep w (fire_ now "audit_mib" w).2.

Lemma runner_moves w r : WF w → rt_internal (w_runner w) r → cframe w (w <| w_runner := r |>).
Proof.
  intros Hw Hr. destruct (rt_internal_ok _ _ (wf_runner w Hw) Hr) as (Hok&Hlive&Hl). split_and!; try done.
  destruct Hw. split; try done; simpl; rewrite ?Hlive, ?Hl; done.
Qed.

Lemma estep_good w w' : good w → estep w w' → good w'.
Proof.
  intros Hg [now n|now id o Hwk Hfit|r Hr|now msg m Hm|now Hst Ht].
  - by apply run_timer_good.
  - by apply end_task_good.
  - apply (good_cframe w); [done|]. apply runner_moves; [apply Hg|done].
  - apply (good_cframe w); [done|]. eapply handler_cframe; [done|apply Hg].
  - destruct Hg as [Hw Htok]. assert (mib_clients w = ∅) as Hc.
    { destruct Htok as [([t|c]&He&Hk)|(_&_&Hk)]; [by destruct Hk| |done].
      rewrite Hst in He. inversion He. }
    destruct (fire_run now "audit_mib" w Hw) as (w2&->&Hw2&Htok2&_); [rewrite Hst; constructor|done|done|]. by split.
Qed.

Context (db0 : mibdb) (r0 : rt).
Context (Hdb0 : ∀ n, v_mds <$> data db0 !! device_id = Some n → 0 ≤ n ≤ 255) (Hr0 : rt_ok r0) (Hl0 : rt_live r0 = ∅).

(** The entry of an ONU that has been started. *)
Definition started_world : world := (dev_start (mk_world db0 r0)).2.

Lemma started_good : good started_world.
Proof.
  destruct (rt_start_ok r0 Hr0) as (Hok&Hlive&Hl). split.
  - split; try done; simpl.
    + constructor; [set_solver|constructor].
    + intros t ->%list_elem_of_singleton. simpl. lia.
    + intros t ->%list_elem_of_singleton. simpl. by right.
    + intros id [c Hc]. by rewrite lookup_empty in Hc.
    + intros id [?|?]; done.
  - left. exists (KTimer "start"). split; [constructor|]. done.
Qed.

Lemma run_good w : rtc estep started_world w → good w.
Proof.
  intros Hr. assert (∀ w1 w2, rtc estep w1 w2 → good w1 → good w2) as H by (induction 1; eauto using estep_good).
  eapply H; [done|]. apply started_good.
Qed.

(** C7 As long as it is not stopped and no audit is asked for while one is
    scheduled, the synchronizer waits for exactly one thing, a call of the
    reactor or the end of a task, and it is one that its current state
    handles; or, with the periodic audit switched off, it rests in the state
    in_sync; or it is stuck, which only happens in the state
    resynchronizing. *)
Theorem waits_for_one w : rtc estep started_world w → token w ∨ resting w ∨ stuck w.
Proof. intros Hr%run_good. destruct Hr as [_ [?|?%halted_cases]]; tauto. Qed.

Lemma expected_state st k : expected st k → st ∈ MIB_STATES.
Proof. intros []; apply (bool_decide_unpack _); vm_compute; exact I. Qed.

(** C35 The machine's state is one of its eight states, the sync counter an
    octet, and, once the database has the device, the counter in memory is
    the stored one. *)
Theorem sync_state_typed w : rtc estep started_world w →
  state (w_sync w) ∈ MIB_STATES ∧ 0 ≤ mib_data_sync (w_sync w) ≤ 255 ∧
  (device_in_db (w_sync w) = true → v_mds <$> data (w_db w) !! device_id = Some (mib_data_sync (w_sync w))).
Proof.
  intros [Hw Htok]%run_good. split_and!.
  - destruct Htok as [(k&He&_)|([->|[_ ->]]&_)]; [by eapply expected_state|apply (bool_decide_unpack _); vm_compute; exact I..].
  - apply (wf_mds w Hw).
  - apply (wf_mds w Hw).
  - intros Hin. by destruct (wf_indb w Hw Hin).
Qed.

Lemma stuck_cframe w0 w : stuck w0 → cframe w0 w → stuck w.
Proof. intros (?&?&?) (Hw&Hst&Ht&Hc&_). split_and!; congruence. Qed.

(** Nothing moves a machine that is stuck. *)
Lemma estep_stuck w w' : WF w → stuck w → estep w w' → WF w' ∧ stuck w'.
Proof.
  intros Hw Hs Hstep. assert (good w) as Hg by (split; [done|right; apply halted_cases; by left]).
  split; [by eapply estep_good|]. pose proof Hs as (_&Ht&Hc). apply (stuck_cframe w); [done|].
  destruct Hstep as [now n|now id o Hwk Hfit|r Hr|now msg m Hm|now Hst _].
  - apply run_timer_other; [done|]. intros i delay f Hi. apply eq_None_not_Some. intros [t Hf].
    assert (t ∈ mib_timers w) as Hin; [|rewrite Ht in Hin; set_solver].
    unfold mib_timers. apply list_elem_of_omap. eexists. split; [by eapply list_elem_of_lookup_2|done].
  - apply end_task_other; [done..|]. intros c Hid. destruct (is_sync c) eqn:Hsy; [|done].
    assert (mib_clients w !! id = Some c) as Hm by by apply mib_client_lookup. by rewrite Hc in Hm.
  - by apply runner_moves.
  - eapply handler_cframe; [done|apply Hg].
  - destruct Hs as [Hs _]. rewrite Hs in Hst. discriminate.
Qed.

(** A resynchronization whose report lacks one of its three lists leaves the
    machine without a continuation, whatever happens afterwards. *)
Theorem partial_report_sticks now id a b c w w' :
  rtc estep started_world w → rt_working (w_runner w) id → w_clients w !! id = Some CResync →
  a = None ∨ b = None ∨ c = None → rtc estep (end_task_ now id (OResync a b c) w).2 w' → stuck w'.
Proof.
  intros Hg%run_good Hwk Hid Hnone Hrun.
  assert (stuck (end_task_ now id (OResync a b c) w).2) as Hs1.
  { destruct (rt_end_ok id true (w_runner w)) as (_&Hr&Hlive&Hl); [apply Hg|done|].
    destruct (ended_client w _ id CResync Hg Hid eq_refl Hr Hlive Hl) as [Hb He].
    unfold end_task. rewrite (bind_ok _ _ w (w_clients w) w) by done. rewrite Hid.
    inversion He as [| | | | | | | | | | | | | | | | |Hst| | |]. rewrite <-Hst in Hb. by apply (resync_good a b c _ Hb). }
  assert (WF (end_task_ now id (OResync a b c) w).2) as Hw1.
  { apply end_task_good; [done..|]. intros c' Hc'. by rewrite Hid in Hc'; injection Hc' as <-. }
  clear Hg Hwk Hid. induction Hrun as [|w1 w2 w3 H12 _ IH]; [done|].
  destruct (estep_stuck w1 w2 Hw1 Hs1 H12). auto.
Qed.

(** ** Stopping *)
Lemma cancel_timer_none d w : WF w → mib_timers w = [] →
  ∃ w', cancel_timer d w = (Ok tt, w') ∧ frame w w'.
Proof.
  intros Hw Ht. destruct d as [n|]; [|by exists w]. eexists. split; [done|]. apply (frame_cancel_timer w n w); [|done].
  intros t Hin _. apply eq_None_not_Some. intros [x Hx]. assert (x ∈ mib_timers w) as Hxt; [|rewrite Ht in Hxt; set_solver].
  unfold mib_timers. apply list_elem_of_omap. by exists t.
Qed.

Lemma cancel_deferred_none w : WF w → mib_timers w = [] →
  ∃ w', cancel_deferred w = (Ok tt, w') ∧ WF w' ∧ same_key (w_sync w) (w_sync w') ∧ mib_timers w' = [] ∧
    mib_clients w' = mib_clients w ∧ current_task (w_sync w') = current_task (w_sync w).
Proof.
  intros Hw Ht. unfold cancel_deferred. erewrite bind_ok by done. erewrite bind_ok by done.
  set (w1 := w <| w_sync ::= λ y, y <| sdeferred := None |> <| task_deferred := None |> |>).
  assert (WF w1) as Hw1 by by apply WF_sync.
  destruct (cancel_timer_none (sdeferred (w_sync w)) w1 Hw1 Ht) as (w2&Hr2&Hf2).
  rewrite (bind_ok _ _ w1 tt w2 Hr2). destruct Hf2 as [Hw2 (Hs2&Ht2&Hc2&Hb2)].
  change (mib_timers w1) with (mib_timers w) in Ht2. rewrite Ht in Ht2.
  destruct (cancel_timer_none (sdeferred (w_sync w)) w2 Hw2 Ht2) as (w3&Hr3&Hw3&Hs3&Ht3&Hc3&Hb3).
  exists w3. rewrite Hs3, Hs2, Ht3, Ht2, Hc3, Hc2. done.
Qed.

(** Stopping the task that is waited for makes its callbacks run. *)
Lemma stop_task_run c id w : WF w → mib_timers w = [] → mib_clients w !! id = Some c →
  ∃ w', stop_task timeout_delay caps_timeout_delay id w = (Ok tt, w') ∧ state (w_sync w') = state (w_sync w) ∧
    sdevice (w_sync w') = sdevice (w_sync w) ∧ mib_timers w' = ["timeout"].
Proof.
  intros Hw Ht [Hid Hs]%mib_client_lookup. unfold stop_task. erewrite bind_ok by done.
  destruct (rt_cancel_ok id (w_runner w) (wf_runner w Hw)) as (Hok&Hb&Hlive&Hlast).
  rewrite bool_decide_true in Hb by (apply (wf_clients w Hw); eauto).
  destruct (rt_cancel id (w_runner w)) as [r b]. simpl in *. subst b. erewrite bind_ok by done.
  unfold fail_client. erewrite bind_ok by done. erewrite bind_ok by done. cbn [w_clients update_field].
  set (w1 := _ <| w_clients ::= _ |>). assert (WF w1) as Hw1 by by apply WF_clients_drop.
  change (w_clients (w <| w_runner := r |>)) with (w_clients w). rewrite Hid.
  assert (∀ f, same_key (w_sync w1) (f (w_sync w1)) →
    ∃ w', contained (_ ← sync_ f; sync_later timeout_delay "timeout") w1 = (Ok tt, w') ∧
      state (w_sync w') = state (w_sync w) ∧ sdevice (w_sync w') = sdevice (w_sync w) ∧ mib_timers w' = ["timeout"]) as Hlater.
  { intros f Hk. unfold contained. rewrite (bind_ok _ _ w1 tt (w1 <| w_sync ::= f |>)) by done.
    destruct (sync_later_run timeout_delay "timeout" (w1 <| w_sync ::= f |>)) as (w'&Hr&_&Hk'&Ht'&_); [by apply WF_sync|].
    exists w'. rewrite Hr. split; [done|]. destruct Hk as (Hk1&_&_&Hk4&_), Hk' as (Hk1'&_&_&Hk4'&_).
    split_and!; [rewrite Hk1'; exact Hk1|rewrite Hk4'; exact Hk4|]. rewrite Ht'.
    change (mib_timers w ++ ["timeout"] = ["timeout"]). by rewrite Ht. }
  destruct c; try done; by apply Hlater.
Qed.

Lemma drop_subscriptions w : sdevice (w_sync w) = true →
  ∃ w', (s ← getS omci_cc_subscriptions;
    _ ← (if decide (s = ∅) then mret tt
         else _ ← sync_ (λ y, y <| omci_cc_subscriptions := ∅ |>); with_device (mret tt));
    s ← getS onu_dev_subscriptions;
    if decide (s = ∅) then mret tt
    else _ ← sync_ (λ y, y <| onu_dev_subscriptions := ∅ |>); with_device (mret tt)) w = (Ok tt, w') ∧
  state (w_sync w') = state (w_sync w) ∧ mib_timers w' = mib_timers w.
Proof.
  intros Hd. erewrite bind_ok by done.
  assert (∀ f w1, sdevice (w_sync w1) = true → sdevice (f (w_sync w1)) = true →
    (_ ← sync_ f; with_device (mret tt)) w1 = (Ok tt, w1 <| w_sync ::= f |>)) as Hdrop.
  { intros f w1 _ Hf. erewrite bind_ok by done. unfold with_device.
    rewrite (bind_ok _ _ _ true (w1 <| w_sync ::= f |>)); [done|]. unfold getS, gets. cbn. by rewrite Hf. }
  case_decide.
  - erewrite bind_ok by done. erewrite bind_ok by done. case_decide; [by exists w|]. rewrite Hdrop by done. by eexists.
  - rewrite (bind_ok _ _ w tt (w <| w_sync ::= λ y, y <| omci_cc_subscriptions := ∅ |> |>)) by by apply Hdrop.
    erewrite bind_ok by done. case_decide; [by eexists|]. rewrite Hdrop by done. by eexists.
Qed.

(** Stopping the synchronizer while one of its tasks is queued or at work
    leaves, in the state disabled, a call of "timeout" that the failure callback of
    the stopped task asked for, and that the machine refuses when it is made. *)
Theorem stop_leaves_timeout now later id c w :
  rtc estep started_world w → w_clients w !! id = Some c → is_sync c = true →
  let w' := (fire_ now "stop" w).2 in
  (fire_ now "stop" w).1 = Ok tt ∧ state (w_sync w') = "disabled" ∧ mib_timers w' = ["timeout"] ∧
  fire_ later "timeout" w' = (Err MachineError, w').
Proof.
  intros [Hw Htok]%run_good Hid Hs. assert (mib_clients w !! id = Some c) as Hm by by apply mib_client_lookup.
  assert (mib_timers w = [] ∧ current_task (w_sync w) = Some id ∧ state (w_sync w) ≠ "disabled") as (Ht&Hcur&Hst).
  { destruct Htok as [([t|c']&He&Hk)|(_&_&Hk)]; [by destruct Hk as [_ Hk]; rewrite Hk in Hm| |by rewrite Hk in Hm].
    destruct Hk as [Ht (id'&Hk&Hcur)]. rewrite Hk in Hm. apply lookup_singleton_Some in Hm as [-> ->].
    split_and!; try done. intros Hst. rewrite Hst in He. inversion He. }
  destruct (wf_device w Hw Hst) as [Hdev _].
  assert (fire_ now "stop" w = on_enter_disabled device_id get_me_map timeout_delay caps_timeout_delay now (stateless w)) as ->.
  { rewrite (fire_to now "stop" "disabled" w); [done|]. unfold first_dest.
    destruct Htok as [(k&He&_)|([->|[_ ->]]&_)]; [destruct He|..]; by vm_compute. }
  unfold on_enter_disabled.
  destruct (cancel_deferred_none (stateless w) (WF_stateless w Hw) Ht) as (w1&Hr1&Hw1&(Hst1&_&_&Hd1&_)&Ht1&Hc1&Hcur1).
  rewrite (bind_ok _ _ (stateless w) tt w1 Hr1).
  rewrite (bind_ok _ _ w1 true w1) by (unfold getS, gets; by rewrite Hd1; cbn; rewrite Hdev).
  destruct (set_in_sync_run now false w1 Hw1) as (w2&Hr2&Hw2&Hs2&Ht2&Hc2&_). rewrite (bind_ok _ _ w1 tt w2 Hr2).
  rewrite (bind_ok _ _ w2 (Some id) w2) by (unfold getS, gets; rewrite Hs2, Hcur1; cbn; by rewrite Hcur).
  set (w3 := w2 <| w_sync ::= λ y, y <| current_task := None |> |>). rewrite (bind_ok _ _ w2 tt w3) by done.
  assert (WF w3) as Hw3 by by apply WF_sync.
  destruct (stop_task_run c id w3 Hw3) as (w4&Hr4&Hst4&Hd4&Ht4).
  { change (mib_timers w2 = []). congruence. }
  { change (mib_clients w2 !! id = Some c). by rewrite Hc2, Hc1. }
  rewrite (bind_ok _ _ w3 tt w4 Hr4).
  destruct (drop_subscriptions w4) as (w5&->&Hst5&Ht5).
  { rewrite Hd4. change (sdevice (w_sync w2) = true). rewrite Hs2, Hd1. exact Hdev. }
  assert (state (w_sync w5) = "disabled") as Hst6.
  { rewrite Hst5, Hst4. change (state (w_sync w2) = "disabled"). rewrite Hs2, Hst1. done. }
  cbn [fst snd]. split_and!; [done|done|congruence|]. unfold fire. erewrite bind_ok by done.
  by rewrite takes_first, Hst6.
Qed.

(** C30 As long as the synchronizer is not stopped and no audit is asked for
    while one is scheduled, a call of the reactor for it is not refused: the
    machine goes where its table says, and when that is in_sync, the device is
    marked as synchronized and the time is recorded. *)
Theorem trigger_accepted now i n delay t w :
  rtc estep started_world w → w_timers w !! i = Some (n, delay, TMib t) →
  ∃ w', run_timer_ now n w = (Ok tt, w') ∧
    first_dest MIB_TRANSITIONS (state (w_sync w)) t = Some (state (w_sync w')) ∧
    (state (w_sync w') = "in_sync" → mib_db_in_sync (w_dev w') = true ∧ last_mib_db_sync (w_sync w') = Some now).
Proof.
  intros [Hw Htok]%run_good Hi. destruct (timer_taken w n delay _ i Hw Hi) as (Hw1&Hs1&Hc1&Ht1).
  destruct (timer_is_token w t i n delay _ Htok Hi eq_refl) as (Ht&Hc&He). destruct (Ht1 t Ht) as [_ Ht1'].
  set (w1 := (cancel_timer (Some n) w).2) in *. rewrite Hc in Hc1. rewrite <-Hs1 in He |- *.
  destruct (fire_run now t w1 Hw1 He Ht1' Hc1) as (w'&Hr&_&_&Hd&Hin). exists w'. split; [|done].
  unfold run_timer. rewrite (bind_ok _ _ w (w_timers w) w) by done.
  assert (list_find (λ t, t.1.1 = n) (w_timers w) = Some (i, (n, delay, TMib t))) as ->.
  { apply list_find_Some. split_and!; [done|done|]. intros j y Hj Hlt Hy.
    enough (i = j) by lia. eapply (NoDup_lookup _ _ _ n (wf_ids w Hw)); rewrite !list_lookup_fmap;
      [by rewrite Hi|by rewrite Hj; simpl; rewrite Hy]. }
  by rewrite (bind_ok _ _ w tt w1).
Qed.
End mib_sync.

(** ** A run of one ONU

    It is started, uploads its MIB, reports its capabilities, and when the
    next resynchronization is due, a task compares the two MIBs. *)
Section sample.
Local Existing Instance plain_order.
Local Existing Instance plain_deferreds.
Local Existing Instance plain_deferred_laws.
#[local] Instance sample_machine : Machine := first_dest.
#[local] Instance sample_machine_law : MachineLaw := λ _ _ _, eq_refl.
#[local] Instance sample_json : Json := {| loads := λ _, None; dumps := λ _, "" |}.
#[local] Instance sample_api : TaskRunnerApi := task_runner_api 99.
#[local] Instance sample_api_laws : TaskRunnerLaws := task_runner_laws 99.

Definition no_classes : string → result (gmap Z entity) := λ _, Ok ∅.

Inductive happening :=
  | Timer (now : Z) (n : nat)
  | Ended (now id : Z) (o : outcome)
  | Runs (c : call).

Definition happen (w : world) (e : happening) : world :=
  match e with
  | Timer now n => (run_timer "onu" no_classes 5 15 300 10 now n w).2
  | Ended now id o => (end_task "onu" no_classes 5 10 now id o w).2
  | Runs c => w <| w_runner := (perform 100 c (w_runner w)).2 |>
  end.

Definition fitsb (c : client) (o : outcome) : bool :=
  match c, o with
  | _, OFailure | CUpload, OText | CExamine, OMds _ | CAudit, OMds _ | CResync, OResync _ _ _
  | CGet _ _, OAttributes _ | CCaps, OCaps _ _ => true
  | _, _ => false
  end.

Definition possible (w : world) (e : happening) : bool :=
  match e with
  | Timer _ _ => true
  | Ended _ id o => workingb (w_runner w) id && match w_clients w !! id with Some c => fitsb c o | None => true end
  | Runs c => bool_decide (c ∈ calls (w_runner w))
  end.

Local Abbreviation sample_step := (estep "onu" no_classes ∅ 5 15 300 10).

Lemma happen_step w e : possible w e = true → sample_step w (happen w e).
Proof.
  destruct e as [now n|now id o|c]; simpl.
  - intros _. apply e_timer.
  - intros [Hw%workingb_spec Hf]%andb_true_iff. apply e_end; [done|]. intros c Hc. rewrite Hc in Hf. by destruct c, o.
  - intros Hc%bool_decide_eq_true. apply e_runner. by exists c.
Qed.

Fixpoint all_possible (w : world) (l : list happening) : bool :=
  match l with [] => true | e :: l => possible w e && all_possible (happen w e) l end.

Definition sample_start : world := started_world (MibDb.init 0) (mkrunner 0).
Definition after (l : list happening) : world := foldl happen sample_start l.

Lemma after_reachable l : all_possible sample_start l = true → rtc sample_step sample_start (after l).
Proof.
  unfold after. generalize sample_start. induction l as [|e l IH]; intros w; [done|].
  simpl. intros [He Hl]%andb_true_iff. eapply rtc_l; [by apply happen_step|]. by apply IH.
Qed.

Definition uploading : list happening := [Timer 1 0; Timer 1 1; Runs (CStart 1)].
Definition uploaded : list happening := uploading ++ [Ended 2 1 OText].
Definition resyncing : list happening :=
  uploaded ++ [Timer 2 3; Runs CRunNext; Runs (CStart 2); Ended 3 2 (OCaps (Some {[2]}) (Some {[4]}));
               Timer 400 5; Timer 400 7; Runs CRunNext; Runs (CStart 3)].

Lemma sample_db_range n : v_mds <$> data (MibDb.init 0) !! "onu" = Some n → 0 ≤ n ≤ 255.
Proof. discriminate. Qed.

Lemma sample_runner_live : rt_live (mkrunner 0) = ∅.
Proof. reflexivity. Qed.

Lemma waits_for_one_witness : state (w_sync (after uploading)) = "uploading" ∧
  (token (after uploading) ∨ resting 15 (after uploading) ∨ stuck (after uploading)).
Proof.
  split; [vm_compute; reflexivity|].
  apply (waits_for_one (HR := sample_api) (HRL := sample_api_laws) "onu" no_classes ∅ 5 15 300 10 (MibDb.init 0) (mkrunner 0) sample_db_range
    (new_runner_ok 0) sample_runner_live (after uploading)).
  apply after_reachable. vm_compute. reflexivity.
Defined.

Lemma sync_state_typed_witness :
  state (w_sync (after uploaded)) ∈ MIB_STATES ∧ 0 ≤ mib_data_sync (w_sync (after uploaded)) ≤ 255 ∧
  (device_in_db (w_sync (after uploaded)) = true →
   v_mds <$> data (w_db (after uploaded)) !! "onu" = Some (mib_data_sync (w_sync (after uploaded)))).
Proof.
  apply (sync_state_typed (HR := sample_api) (HRL := sample_api_laws) "onu" no_classes ∅ 5 15 300 10
    (MibDb.init 0) (mkrunner 0) sample_db_range (new_runner_ok 0) sample_runner_live (after uploaded)).
  apply after_reachable. vm_compute. reflexivity.
Defined.

Lemma partial_report_sticks_witness :
  stuck (end_task "onu" no_classes 5 10 401 3 (OResync None None None) (after resyncing)).2.
Proof.
  apply (partial_report_sticks (HR := sample_api) (HRL := sample_api_laws) "onu" no_classes ∅ 5 15 300 10
    (MibDb.init 0) (mkrunner 0) sample_db_range (new_runner_ok 0) sample_runner_live 401 3 None None None (after resyncing)).
  - apply after_reachable. vm_compute. reflexivity.
  - apply workingb_spec. vm_compute. reflexivity.
  - vm_compute. reflexivity.
  - by left.
  - apply rtc_refl.
Defined.

Lemma stop_leaves_timeout_witness :
  let w' := (fire "onu" no_classes 5 15 300 10 2 "stop" (after uploading)).2 in
  (fire "onu" no_classes 5 15 300 10 2 "stop" (after uploading)).1 = Ok tt ∧ state (w_sync w') = "disabled" ∧
  mib_timers w' = ["timeout"] ∧ fire "onu" no_classes 5 15 300 10 7 "timeout" w' = (Err MachineError, w').
Proof.
  apply (stop_leaves_timeout (HR := sample_api) (HRL := sample_api_laws) "onu" no_classes ∅ 5 15 300 10
    (MibDb.init 0) (mkrunner 0) sample_db_range (new_runner_ok 0) sample_runner_live 2 7 1 CUpload (after uploading)).
  - apply after_reachable. vm_compute. reflexivity.
  - vm_compute. reflexivity.
  - reflexivity.
Defined.

Lemma trigger_accepted_witness :
  ∃ w', run_timer "onu" no_classes 5 15 300 10 2 3 (after uploaded) = (Ok tt, w') ∧
    first_dest MIB_TRANSITIONS (state (w_sync (after uploaded))) "success" = Some (state (w_sync w')) ∧
    (state (w_sync w') = "in_sync" → mib_db_in_sync (w_dev w') = true ∧ last_mib_db_sync (w_sync w') = Some 2).
Proof.
  apply (trigger_accepted (HR := sample_api) (HRL := sample_api_laws) "onu" no_classes ∅ 5 15 300 10
    (MibDb.init 0) (mkrunner 0) sample_db_range (new_runner_ok 0) sample_runner_live 2 1%nat 3 0 "success" (after uploaded)).
  - apply after_reachable. vm_compute. reflexivity.
  - vm_compute. reflexivity.
Defined.
End sample.
