(* ===== verification/OmciTasks.v ===== *)
(** * The tasks that talk to an ONU

    The generators of src/voltha/extensions/omci/tasks: [MibUploadTask],
    [GetMdsTask], [MibResyncTask], [OnuCapabilitiesTask] and [OmciGetRequest],
    which the state machines of MibSync.v queue on the runner of TaskRunner.v.

    A generator runs until it yields a Deferred ([Wait]): while it waits, its
    task may be stopped, which changes the task's attributes, so the state is
    part of what it is resumed with.  Answers come from the ONU, the device
    entry and the reactor. *)
From S2P Require Import Prelude Generators MibDb OmciEntities MibSync.
From stdpp Require Import base gmap list strings sorting.
From Stdlib Require Import ZArith Lia.
From Stdlib.Strings Require Import Byte.

Local Open Scope Z_scope.

(** ** Generators *)

(** The fields of a response that tasks look at; an absent one raises
    [KeyError].  The value of a table attribute is a list of octets. *)
Record reply := Reply {
  success_code : option Z;
  number_of_commands : option Z;
  object_entity_class : option Z;
  object_entity_id : option Z;
  object_data : option (gmap string input);
  attributes_mask : option Z;
  r_data : option (gmap string input);
  r_tables : option (gmap string octets);
}.
#[export] Instance reply_eta : Eta reply := λ r,
  Reply (success_code r) (number_of_commands r) (object_entity_class r) (object_entity_id r) (object_data r)
    (attributes_mask r) (r_data r) (r_tables r).

(** What a generator asks for: the answer to a frame, some time, the entry of
    the device, whether the device is active and its channel enabled, its MIB
    (the dictionary [query_mib] returns, and the attribute dictionaries this
    one shares with the database), the next turn of the reactor. *)
Inductive wait : Type → Type :=
  | Send (f : omci_frame) : wait (result reply)
  | Asleep (ms : Z) : wait unit
  | GetDevice : wait (result unit)
  | Enabled : wait bool
  | QueryMib : wait (result device_db)
  | SharedAttributes : wait (gmap nat (gmap string aval))
  | MeMap : wait (result (gmap Z me_class))
  | NextTurn : wait unit.

(** The attributes of a task; [k_deferred] is [None] once [cancel_deferred] has
    dropped it, [k_agent], [k_device] and [k_db] are the references that
    [stop] clears, [k_tmp] is the response that the second round of a get
    request completes. *)
Section state.
Context {HPr : Promise outcome}.

Record tstate := TState {
  k_running : bool;
  k_deferred : option (dfr_state outcome);
  k_agent : bool;
  k_device : bool;
  k_db : option mibdb;
  k_entities : option (gset Z);
  k_msg_types : option (gset Z);
  k_results : option reply;
  k_tmp : option reply;
  k_failed : gset string;
}.
End state.

#[export] Instance tstate_eta {HPr : Promise outcome} : Eta tstate := λ t,
  TState (k_running t) (k_deferred t) (k_agent t) (k_device t) (k_db t) (k_entities t) (k_msg_types t) (k_results t)
    (k_tmp t) (k_failed t).

(** The generators of tasks. *)
Abbreviation task_run := (gen_run wait tstate).
Abbreviation T := (gen wait tstate).

Definition zrange (n : Z) : list Z := seqZ 0 n.

(** A MIB in the format of [query]: class, instance, attribute. *)
Abbreviation mib := (gmap Z (gmap Z (gmap string aval))).

Section tasks.
Context {HO : DictOrder} {HJ : Json} {HPr : Promise outcome}.
Context (device_id : string).
Context (get_me_map : string → result (gmap Z entity)) (now : Z).
Context (ShortField : string → aval → field) (FieldListField : string → aval → field).

(** ** Task *)

(** [self.deferred.callback(...)] and [self.deferred.errback(...)] *)
Definition fire_deferred (o : outcome) : T unit :=
  d ← get_ k_deferred;
  d ← some_or AttributeError d;
  d ← some_or AlreadyCalledError (fire_with o d);
  set_ (λ t, t <| k_deferred := Some d |>).

Definition callback (o : outcome) : T unit := fire_deferred o.
Definition errback : T unit := fire_deferred OFailure.

Definition stop_if_not_running (e : exn) : T unit :=
  b ← get_ k_running; if (b : bool) then mret tt else raise_ e.

(** [self.omci_agent.get_device(self.device_id)] *)
Definition agent_device : T unit :=
  b ← get_ k_agent;
  if (b : bool) then r ← yield GetDevice; of_result r else raise_ AttributeError.

(** [yield omci_cc.send(frame)] *)
Definition send (f : M tstate omci_frame) : T reply :=
  f ← lift_ f; r ← yield (Send f); of_result r.

(** [self._device], which [stop] clears *)
Definition self_device : T unit :=
  b ← get_ k_device; if (b : bool) then mret tt else raise_ AttributeError.

Definition device_send (f : M tstate omci_frame) : T reply := _ ← self_device; send f.

Definition with_db {A} (m : M mibdb A) : T A :=
  d ← get_ k_db;
  d ← some_or AttributeError d;
  let '(r, d) := m d in
  _ ← set_ (λ t, t <| k_db := Some d |>);
  of_result r.

(** The frames of [OMCI_CC.send_mib_reset] and its siblings. *)
Definition mib_reset : M tstate omci_frame := f ← ont_data_frame ShortField None None None; mib_reset_frame f.
Definition mib_upload : M tstate omci_frame := f ← ont_data_frame ShortField None None None; mib_upload_frame f.
Definition mib_upload_next (seq_no : Z) : M tstate omci_frame :=
  f ← ont_data_frame ShortField None (Some seq_no) None; mib_upload_next_frame f.

Definition Success : Z := 0.
Definition AttributeFailure : Z := 9.

(** ** MibUploadTask *)

(** One attempt at an instance; [true] is the [break] that follows. *)
Definition upload_next (seq_no retry : Z) : T bool :=
  try_
    (_ ← send (mib_upload_next seq_no);
     _ ← stop_if_not_running MibUploadFailure;
     mret true)
    (λ e,
      if decide (e = TimeoutError) then
        if decide (retry >= 2) then raise_ MibUploadFailure
        else
          _ ← yield (Asleep 300);
          _ ← stop_if_not_running MibUploadFailure;
          mret false
      else raise_ e).

Definition perform_mib_upload : T unit :=
  try_
    (_ ← agent_device;
     results ← send mib_reset;
     _ ← stop_if_not_running MibUploadFailure;
     status ← some_or KeyError (success_code results);
     if decide (status ≠ Success) then raise_ MibUploadFailure
     else
       results ← send mib_upload;
       _ ← stop_if_not_running MibUploadFailure;
       n ← some_or KeyError (number_of_commands results);
       _ ← forT (λ seq_no,
             on ← yield Enabled;
             if (on : bool) then until (upload_next seq_no) (zrange 3)
             else raise_ MibUploadFailure) (zrange n);
       callback OText)
    (λ e,
      if decide (e = AlreadyCalledError) then
        d ← get_ k_deferred;
        d ← some_or AttributeError d;
        lift_ (passert (bool_decide (is_Some (result_of d))))
      else errback).

(** ** GetMdsTask *)

(** The attribute is a number of 16 bits. *)
Definition int_value (v : input) : option Z :=
  match v with Plain (AInt n) => Some n | _ => None end.

Definition perform_get_mds : T unit :=
  try_
    (_ ← agent_device;
     results ← send (f ← ont_data_frame ShortField None None None; get_frame f);
     status ← some_or KeyError (success_code results);
     _ ← lift_ (passert (bool_decide (status = Success)));
     data ← some_or KeyError (r_data results);
     v ← some_or KeyError (data !! "mib_data_sync");
     v ← some_or TypeError (int_value v);
     callback (OMds v))
    (λ _, errback).

(** ** MibResyncTask *)

(** The instances of a device, with the attribute dictionaries they refer to. *)
Definition resolve (h : gmap nat (gmap string aval)) (d : device_db) : mib :=
  (λ c : gmap Z instance, (λ i, default ∅ (h !! i_attributes i)) <$> c) <$> v_classes d.

Definition get_lsh_only_dict (lhs rhs : mib) : list (Z * Z) :=
  flat_map (λ '(cls_id, cls_data),
    match rhs !! cls_id with
    | None => (λ inst_id, (cls_id, inst_id)) <$> (iteritems cls_data).*1
    | Some rhs_cls =>
        (λ inst_id, (cls_id, inst_id)) <$> filter (λ inst_id, rhs_cls !! inst_id = None) (iteritems cls_data).*1
    end) (iteritems lhs).

(** [v == w] of Python: a string equals the unicode string with its content. *)
Definition same_value (v w : aval) : bool :=
  match v, w with
  | (AStr a | AUni a), (AStr b | AUni b) => bool_decide (a = b)
  | _, _ => bool_decide (v = w)
  end.

Definition read_only (a : list access) : bool := bool_decide (a ≠ [] ∧ Forall (λ x, x = AA_R) a).

Definition ro_attrs (me_map : gmap Z me_class) (cls_id : Z) : gset string :=
  match me_map !! cls_id with
  | Some c => list_to_set (fst <$> filter (λ p, read_only p.2 = true) c)
  | None => {["voltha-unknown-blob"]}
  end.

Definition value_differs (omci onu : gmap string aval) (attr : string) : bool :=
  match omci !! attr, onu !! attr with Some v, Some w => negb (same_value v w) | _, _ => false end.

Definition attribute_diffs (ro : gset string) (omci onu : gmap string aval) : list string :=
  let o1 : gset string := dom omci in
  let o2 : gset string := dom onu in
  set_items (((o1 ∖ o2) ∪ (o2 ∖ o1)) ∖ ro) ++
  filter (λ attr, value_differs omci onu attr = true) (set_items ((o1 ∩ o2) ∖ ro)).

Definition get_attribute_diffs (omci_copy onu_copy : mib) (me_map : gmap Z me_class) : list (Z * Z * string) :=
  flat_map (λ cls_id,
    match omci_copy !! cls_id, onu_copy !! cls_id with
    | Some olt_cls, Some onu_cls =>
        flat_map (λ inst_id,
          match olt_cls !! inst_id, onu_cls !! inst_id with
          | Some a, Some b => (λ attr, (cls_id, inst_id, attr)) <$> attribute_diffs (ro_attrs me_map cls_id) a b
          | _, _ => []
          end) (set_items (dom olt_cls ∩ dom onu_cls))
    | _, _ => []
    end) (set_items (dom omci_copy ∩ dom onu_copy)).

Definition compare_mibs (me_map : gmap Z me_class) (db_copy db_active : mib)
    : list (Z * Z) * list (Z * Z) * list (Z * Z * string) :=
  (get_lsh_only_dict db_copy db_active, get_lsh_only_dict db_active db_copy,
   get_attribute_diffs db_copy db_active me_map).

(** [x if len(x) else None] *)
Definition some_items {A} (l : list A) : option (list A) := match l with [] => None | _ => Some l end.

Definition send_mib_upload : T Z :=
  results ← device_send mib_upload;
  _ ← stop_if_not_running MibResyncException;
  n ← some_or KeyError (number_of_commands results);
  if decide (n <= 0) then raise_ ValueError else mret n.

(** A copy is taken after each of the three requests that is answered. *)
Fixpoint snapshot_loop (tries : list Z) (acc : option device_db * option Z) : T (option device_db * option Z) :=
  match tries with
  | [] => mret acc
  | retries :: tries =>
      n ← try_
            (n ← send_mib_upload; _ ← stop_if_not_running MibResyncException; mret (Some n))
            (λ e,
              if decide (e = TimeoutError) then
                if decide (retries >= 2) then raise_ e
                else
                  _ ← yield (Asleep 7000);
                  _ ← stop_if_not_running MibResyncException;
                  mret None
              else raise_ e);
      match n with
      | None => snapshot_loop tries acc
      | Some n =>
          _ ← self_device;
          r ← yield QueryMib;
          d ← of_result r;
          snapshot_loop tries (Some d, Some n)
      end
  end.

Definition snapshot_mib : T (option device_db * Z) :=
  acc ← snapshot_loop (zrange 3) (None, None);
  match acc with
  | (Some d, Some n) => mret (Some d, n)
  | _ => raise_ MibCopyException
  end.

(** One attempt; an exception other than a timeout is only logged. *)
Definition resync_next (seq_no retries : Z) : T bool :=
  try_
    (response ← device_send (mib_upload_next seq_no);
     _ ← stop_if_not_running MibResyncException;
     class_id ← some_or KeyError (object_entity_class response);
     entity_id ← some_or KeyError (object_entity_id response);
     if decide (class_id = OntData_class_id) then mret true
     else
       attributes ← some_or KeyError (object_data response);
       _ ← with_db (MibDb.set get_me_map now device_id class_id entity_id attributes);
       mret true)
    (λ e,
      if decide (e = TimeoutError) then
        if decide (retries < 2) then _ ← yield (Asleep 10000); mret false else raise_ e
      else mret false).

Definition upload_mib (number_of_commands : Z) : T Z :=
  _ ← forT (λ seq_no, until (resync_next seq_no) (zrange 3)) (zrange number_of_commands);
  if decide (number_of_commands <= 0) then raise_ TypeError else mret number_of_commands.

Definition perform_mib_resync : T unit :=
  try_
    (results ← snapshot_mib;
     match results.1 with
     | None => errback
     | Some db_copy =>
         let number_of_commands := results.2 in
         commands_retrieved ← upload_mib number_of_commands;
         if decide (commands_retrieved < number_of_commands) then errback
         else
           a ← with_db (query device_id None None None);
           d ← some_or TypeError (match a with DevAnswer d => Some d | _ => None end);
           h ← get_ (λ t, from_option attrs ∅ (k_db t));
           _ ← agent_device;
           m ← yield MeMap;
           m ← of_result m;
           shared ← yield SharedAttributes;
           let '(on_olt_only, on_onu_only, attr_diffs) := compare_mibs m (resolve shared db_copy) (resolve h d) in
           callback (OResync (some_items on_olt_only) (some_items on_onu_only) (some_items attr_diffs))
     end)
    (λ _, errback).

(** ** OnuCapabilitiesTask *)

(** [Omci] of omci_entities.py and its frames in omci_me.py *)
Definition Omci : entity_class :=
  EntityClass 287
    [ ECA (ShortField "managed_entity_id" ANone) [AA_R] (Some (λ v, bool_decide (v = AInt 0)));
      ECA (FieldListField "me_type_table" ANone) [AA_R] None;
      ECA (FieldListField "message_type_table" ANone) [AA_R] None ]
    [ OpGet; OpGetNext ] [].

(** The size is asked for with a set for one table and with a dictionary for
    the other, where a literal is tested for its type instead of the
    parameter. *)
Definition table_get (table : string) : M tstate omci_frame :=
  f ← init_frame Omci 0
        (if decide (table = "me_type_table") then DSet {[table]} else DDict {[table := AOther "bool" "True"]});
  get_frame f.
Definition table_get_next (table : string) (seq_no : Z) : M tstate omci_frame :=
  f ← init_frame Omci 0 (DDict {[table := AInt seq_no]}); get_next_frame f.

Definition octet_value (b : byte) : Z := Z.of_N (Byte.to_N b).

(** [int(hexlify(data[:4]), 16)] *)
Definition get_count_from_data_buffer (data : octets) : option Z :=
  match firstn 4 data with
  | [] => None
  | l => Some (foldl (λ n b, 256 * n + octet_value b) 0 l)
  end.

(** One piece of a table. *)
Definition table_piece (table : string) (count pdu_size seq_no : Z) : T octets :=
  let offset := seq_no * pdu_size in
  f ← lift_ (table_get_next table seq_no);
  results ← device_send (mret f);
  _ ← stop_if_not_running GetCapabilitiesFailure;
  status ← some_or KeyError (success_code results);
  if decide (status ≠ Success) then raise_ GetCapabilitiesFailure
  else
    let num_octets := if decide (count - offset > pdu_size) then pdu_size else count - offset in
    tables ← some_or KeyError (r_tables results);
    data ← some_or KeyError (tables !! table);
    mret (firstn (Z.to_nat num_octets) data).

Fixpoint pieces (table : string) (count pdu_size : Z) (seqs : list Z) (data_buffer : octets) : T octets :=
  match seqs with
  | [] => mret data_buffer
  | seq_no :: seqs =>
      data ← table_piece table count pdu_size seq_no;
      pieces table count pdu_size seqs (data_buffer ++ data)
  end.

(** The number of offsets in [xrange(0, count, pdu_size)] *)
Definition num_pieces (count pdu_size : Z) : Z := (count + pdu_size - 1) / pdu_size.

Definition get_table (pdu_size : Z) (table : string) : T octets :=
  f ← lift_ (table_get table);
  results ← device_send (mret f);
  _ ← stop_if_not_running GetCapabilitiesFailure;
  status ← some_or KeyError (success_code results);
  if decide (status ≠ Success) then raise_ GetCapabilitiesFailure
  else
    tables ← some_or KeyError (r_tables results);
    data ← some_or KeyError (tables !! table);
    count ← some_or ValueError (get_count_from_data_buffer data);
    pieces table count pdu_size (zrange (num_pieces count pdu_size)) [].

(** [{(b[x] << 8) + b[x + 1] for x in xrange(0, len(b), 2)}] *)
Fixpoint me_types (b : octets) : option (list Z) :=
  match b with
  | [] => Some []
  | [_] => None
  | h :: l :: b => cons (Z.shiftl (octet_value h) 8 + octet_value l) <$> me_types b
  end.

Definition get_supported_entities (pdu_size : Z) : T (option (gset Z)) :=
  try_
    (b ← get_table pdu_size "me_type_table";
     l ← some_or IndexError (me_types b);
     mret (Some (list_to_set l)))
    (λ _, _ ← errback; mret None).

(** [buffer_to_message_type] has no [return]. *)
Definition buffer_to_message_type (value : Z) : option operation :=
  let _ := list_find (λ o, op_value o = value) all_operations in None.

Definition get_supported_message_types (pdu_size : Z) : T (option (gset Z)) :=
  try_
    (b ← get_table pdu_size "message_type_table";
     mret (Some (list_to_set (op_value <$> omap (λ v, buffer_to_message_type (octet_value v)) b))))
    (λ _, _ ← errback; mret None).

(** The properties: [frozenset(x) if len(x) else None] *)
Definition nonempty_set (x : option (gset Z)) : T (option (gset Z)) :=
  s ← some_or TypeError x; mret (if decide (s = ∅) then None else Some s).

Definition perform_get_capabilities (pdu_size : Z) : T unit :=
  try_
    (e ← get_supported_entities pdu_size;
     _ ← set_ (λ t, t <| k_entities := e |>);
     _ ← stop_if_not_running GetCapabilitiesFailure;
     m ← get_supported_message_types pdu_size;
     _ ← set_ (λ t, t <| k_msg_types := m |>);
     _ ← stop_if_not_running GetCapabilitiesFailure;
     e ← get_ k_entities;
     e ← nonempty_set e;
     m ← get_ k_msg_types;
     m ← nonempty_set m;
     callback (OCaps e m))
    (λ _, errback).

(** ** OmciGetRequest

    The frame asked for and the response in hand are updated in place. *)
Section get_request.
Context (entity_class : entity_class) (entity_id : Z) (attributes : gset string) (allow_failure : bool).

Definition attributes_of (r : option reply) : option (gmap string input) := r ← r; r_data r.

(** Its exception class is not imported. *)
Definition get_stop_if_not_running : T unit := stop_if_not_running NameError.

Definition get_attributes (names : gset string) : M tstate omci_frame :=
  f ← init_frame entity_class entity_id (DSet names); get_frame f.

Definition mask_of (f : omci_frame) : option Z :=
  match OmciEntities.omci_message f with OmciGet _ _ m => Some m | _ => None end.

Definition get_missing_attribute (missing_attr index : Z) : T unit :=
  let attr_mask := Z.shiftl 1 index in
  if decide (Z.land attr_mask missing_attr ≠ 0) then
    try_
      (get_results ← device_send (mret (mk_frame (OmciGet (class_id entity_class) entity_id attr_mask)));
       _ ← get_stop_if_not_running;
       status ← some_or KeyError (success_code get_results);
       if decide (status ≠ Success) then mret tt
       else
         m ← some_or KeyError (attributes_mask get_results);
         _ ← lift_ (passert (bool_decide (attr_mask = m)));
         r ← get_ k_results;
         r ← some_or AttributeError r;
         m0 ← some_or KeyError (attributes_mask r);
         let r := r <| attributes_mask := Some (Z.lor m0 attr_mask) |> <| r_data := Some (default ∅ (r_data r)) |> in
         _ ← set_ (λ t, t <| k_results := Some r |>);
         new ← some_or KeyError (r_data get_results);
         set_ (λ t, t <| k_results := Some (r <| r_data := Some (new ∪ default ∅ (r_data r)) |>) |>))
      (λ _, mret tt)
  else mret tt.

Definition perform_get_missing_attributes (missing_attr : Z) : T unit :=
  _ ← forT (get_missing_attribute missing_attr) (zrange 16);
  r ← get_ k_results;
  callback (OAttributes (attributes_of r)).

(** One attribute at a time, after a request for several failed. *)
Definition tmp_ (f : reply → reply) : T unit := set_ (λ t, t <| k_tmp ::= fmap f |>).

Definition get_failed_attribute (attr : string) : T unit :=
  try_
    (f ← lift_ (get_attributes {[attr]});
     results ← device_send (mret f);
     _ ← get_stop_if_not_running;
     status ← some_or KeyError (success_code results);
     if decide (status ≠ Success) then set_ (λ t, t <| k_failed ::= λ s, {[attr]} ∪ s |>)
     else
       _ ← tmp_ (λ r, r <| success_code := Some status |>);
       tmp ← get_ k_tmp;
       m0 ← some_or KeyError (r ← tmp; attributes_mask r);
       m ← some_or KeyError (attributes_mask results);
       _ ← tmp_ (λ r, r <| attributes_mask := Some (Z.lor m0 m) |>);
       _ ← tmp_ (λ r, r <| r_data ::= λ d, Some (default ∅ d) |>);
       data ← some_or KeyError (r_data results);
       v ← some_or KeyError (data !! attr);
       tmp_ (λ r, r <| r_data ::= fmap <[attr := v]> |>))
    (λ _, mret tt).

Definition perform_get_failed_attributes (tmp_results : reply) : T unit :=
  _ ← set_ (λ t, t <| k_tmp := Some tmp_results |>);
  _ ← forT get_failed_attribute (set_items attributes);
  tmp ← get_ k_tmp;
  _ ← set_ (λ t, t <| k_results := tmp |>);
  callback (OAttributes (attributes_of tmp)).

(** What follows the first request, in another turn of the reactor. *)
Inductive followup := FNone | FMissing (missing_attr : Z) | FFailed (results : reply).

Definition perform_get_omci_first : T followup :=
  try_
    (f ← lift_ (get_attributes attributes);
     results ← device_send (mret f);
     _ ← get_stop_if_not_running;
     status ← some_or KeyError (success_code results);
     if decide (status = Success) then
       _ ← set_ (λ t, t <| k_results := Some results |>);
       asked ← some_or KeyError (mask_of f);
       got ← some_or KeyError (attributes_mask results);
       let missing_attr := Z.lxor asked got in
       if decide (missing_attr > 0) then mret (FMissing missing_attr)
       else
         r ← get_ k_results;
         _ ← callback (OAttributes (attributes_of r));
         mret FNone
     else if decide (status = AttributeFailure) then
       if decide (allow_failure = false ∨ (size attributes ≤ 1)%nat) then raise_ GetException
       else mret (FFailed results)
     else raise_ GetException)
    (λ _, _ ← errback; mret FNone).

(** A call of the reactor that [stop] cancels. *)
Definition in_next_turn (m : T unit) : T unit :=
  _ ← yield NextTurn; b ← get_ k_running; if (b : bool) then m else mret tt.

Definition perform_get_omci : T unit :=
  f ← perform_get_omci_first;
  match f with
  | FNone => mret tt
  | FMissing missing_attr => in_next_turn (perform_get_missing_attributes missing_attr)
  | FFailed results => in_next_turn (perform_get_failed_attributes results)
  end.
End get_request.
End tasks.
