(* ===== verification/OmciTasksProofs.v ===== *)
(** * What the tasks guarantee

    Whatever the ONU answers, each task of OmciTasks.v ends and fires its
    Deferred once, with a result that the state machine that queued it handles;
    a stopped task sends nothing more; the comparison of two MIBs finds exactly
    the differences; an upload asks for every instance; a table read in pieces
    is put together again. *)
From S2P Require Import Prelude Generators MibDb OmciEntities MibSync MibSyncProofs OmciTasks.
From stdpp Require Import base gmap list strings sorting.
From Stdlib Require Import ZArith Lia.
From Stdlib.Strings Require Import Byte.

Local Open Scope Z_scope.

(** ** Frames do not depend on the task *)
Definition pure {St A} (m : M St A) : Prop := ∀ s, (m s).2 = s ∧ (m s).1 ≠ Err AlreadyCalledError.

Lemma pure_bind {St A B} (m : M St A) (k : A → M St B) : pure m → (∀ a, pure (k a)) → pure (m ≫= k).
Proof.
  intros Hm Hk s. specialize (Hm s). unfold mbind, M_bind. destruct (m s) as [[a|e] s']; simpl in *.
  - destruct Hm as [-> _]. apply Hk.
  - destruct Hm as [-> He]. split; [done|]. congruence.
Qed.

Lemma pure_ret {St A} (a : A) : pure (St := St) (mret a).
Proof. by intros s. Qed.

Lemma pure_raise {St A} e : e ≠ AlreadyCalledError → pure (St := St) (raise (A := A) e).
Proof. intros He s. split; [done|]. simpl. congruence. Qed.

Lemma pure_from_some {St A} e (o : option A) : e ≠ AlreadyCalledError → pure (St := St) (from_some e o).
Proof. intros He. destruct o; [apply pure_ret|by apply pure_raise]. Qed.

Lemma pure_passert {St} b : pure (St := St) (passert b).
Proof. destruct b; [apply pure_ret|by apply pure_raise]. Qed.

Lemma pure_forM {St B} (f : B → M St unit) l : (∀ b, pure (f b)) → pure (forM_ f l).
Proof. intros Hf. induction l; [apply pure_ret|]. by apply pure_bind. Qed.

Lemma pure_foldM {St A B} (f : A → B → M St A) l : (∀ a b, pure (f a b)) → ∀ a, pure (foldM f a l).
Proof. intros Hf. induction l; intros a'; [apply pure_ret|]. by apply pure_bind. Qed.

Ltac pure :=
  repeat lazymatch goal with
  | |- pure (mret _) => apply pure_ret
  | |- pure (raise _) => apply pure_raise; discriminate
  | |- pure (from_some _ _) => apply pure_from_some; discriminate
  | |- pure (passert _) => apply pure_passert
  | |- pure (forM_ _ _) => apply pure_forM; intros ?
  | |- pure (foldM _ _ _) => apply pure_foldM; intros ? ?
  | |- pure (mbind _ _) => apply pure_bind; [|intros ?]
  | |- pure (if ?x then _ else _) => destruct x
  | |- pure (match ?x with _ => _ end) => destruct x
  | |- pure _ => progress unfold mask_for, check_attributes, check_operation, as_dict, init_frame, ont_data_frame,
                   get_frame, get_next_frame, mib_reset_frame, mib_upload_frame, mib_upload_next_frame
  end.

Section frames.
Context {HO : DictOrder} {HPr : Promise outcome} (ShortField FieldListField : string → aval → field).

Lemma pure_mib_reset : pure (mib_reset ShortField).
Proof. unfold mib_reset. pure. Qed.

Lemma pure_mib_upload : pure (mib_upload ShortField).
Proof. unfold mib_upload. pure. Qed.

Lemma pure_mib_upload_next n : pure (mib_upload_next ShortField n).
Proof. unfold mib_upload_next. pure. Qed.

Lemma pure_get_mds : pure (St := tstate) (f ← ont_data_frame ShortField None None None; get_frame f).
Proof. pure. Qed.

Lemma pure_table_get t : pure (table_get ShortField FieldListField t).
Proof. unfold table_get. pure. Qed.

Lemma pure_table_get_next t n : pure (table_get_next ShortField FieldListField t n).
Proof. unfold table_get_next. pure. Qed.

Lemma pure_get_attributes c i l : pure (get_attributes c i l).
Proof. unfold get_attributes. pure. Qed.

Lemma pure_frame (f : omci_frame) : pure (St := tstate) (mret f).
Proof. apply pure_ret. Qed.
End frames.

#[export] Hint Resolve pure_mib_reset pure_mib_upload pure_mib_upload_next pure_get_mds pure_table_get
  pure_table_get_next pure_get_attributes pure_frame pure_passert : tasks.

(** ** Comparing two MIBs *)
Section compare.
Context {HO : DictOrder}.

Definition inst (m : mib) (c i : Z) : option (gmap string aval) := k ← m !! c; k !! i.

Lemma elem_of_keys {V} (m : gmap Z V) i : i ∈ (iteritems m).*1 ↔ is_Some (m !! i).
Proof.
  rewrite list_elem_of_fmap. split.
  - intros ([j v]&->&Hj). apply elem_of_iteritems in Hj. by eexists.
  - intros [v Hv]. exists (i, v). split; [done|]. by apply elem_of_iteritems.
Qed.

Lemma elem_of_lsh_only lhs rhs c i :
  (c, i) ∈ get_lsh_only_dict lhs rhs ↔ is_Some (inst lhs c i) ∧ inst rhs c i = None.
Proof.
  unfold get_lsh_only_dict, inst. rewrite list_elem_of_In, in_flat_map. split.
  - intros ([c' d]&Hd%list_elem_of_In%elem_of_iteritems&Hi%list_elem_of_In).
    destruct (rhs !! c') as [r|] eqn:Hr; apply list_elem_of_fmap in Hi as (i'&[= -> ->]&Hi).
    + apply list_elem_of_filter in Hi as [Hn Hi%elem_of_keys]. rewrite Hd, Hr. by simpl.
    + apply elem_of_keys in Hi. rewrite Hd, Hr. by simpl.
  - intros [[a Ha] Hn]. destruct (lhs !! c) as [d|] eqn:Hd; [|done]. simpl in Ha. exists (c, d).
    split; [by apply list_elem_of_In, elem_of_iteritems|]. apply list_elem_of_In.
    destruct (rhs !! c) as [r|] eqn:Hr; apply list_elem_of_fmap; exists i; (split; [done|]).
    + apply list_elem_of_filter. split; [done|]. apply elem_of_keys. by eexists.
    + apply elem_of_keys. by eexists.
Qed.

(** Two instances differ on an attribute: one does not have it, or the values
    are not equal. *)
Definition differ (a b : gmap string aval) (n : string) : Prop :=
  match a !! n, b !! n with
  | Some v, Some w => same_value v w = false
  | None, None => False
  | _, _ => True
  end.

Lemma elem_of_attribute_diffs ro a b n : n ∈ attribute_diffs ro a b ↔ n ∉ ro ∧ differ a b n.
Proof.
  unfold attribute_diffs, differ, value_differs.
  rewrite elem_of_app, list_elem_of_filter, !elem_of_set_items, !elem_of_difference, elem_of_union, elem_of_intersection,
    !elem_of_difference, !elem_of_dom.
  destruct (a !! n) as [v|], (b !! n) as [w|]; rewrite ?is_Some_alt, ?negb_true_iff; naive_solver.
Qed.

Lemma elem_of_attr_diffs m x y c i n :
  (c, i, n) ∈ get_attribute_diffs x y m ↔
  ∃ a b, inst x c i = Some a ∧ inst y c i = Some b ∧ n ∉ ro_attrs m c ∧ differ a b n.
Proof.
  unfold get_attribute_diffs, inst. rewrite list_elem_of_In, in_flat_map. split.
  - intros (c'&_&Hc). destruct (x !! c') as [xc|] eqn:Hx, (y !! c') as [yc|] eqn:Hy; try done.
    apply in_flat_map in Hc as (i'&_&Hi). destruct (xc !! i') as [a|] eqn:Ha, (yc !! i') as [b|] eqn:Hb; try done.
    apply list_elem_of_In, list_elem_of_fmap in Hi as (n'&[= -> -> ->]&Hn%elem_of_attribute_diffs).
    exists a, b. rewrite Hx, Hy. simpl. done.
  - intros (a&b&Ha&Hb&Hn). destruct (x !! c) as [xc|] eqn:Hx, (y !! c) as [yc|] eqn:Hy; try done. simpl in Ha, Hb.
    exists c. split; [apply list_elem_of_In, elem_of_set_items, elem_of_intersection; rewrite !elem_of_dom; eauto|].
    rewrite Hx, Hy. apply in_flat_map. exists i.
    split; [apply list_elem_of_In, elem_of_set_items, elem_of_intersection; rewrite !elem_of_dom; eauto|].
    rewrite Ha, Hb. apply list_elem_of_In, list_elem_of_fmap. exists n. split; [done|]. by apply elem_of_attribute_diffs.
Qed.

(** C25 The comparison of the database with the ONU's MIB reports exactly the
    instances that only one of them has, and, for those that both have, exactly
    the attributes that are not read-only and differ. *)
Theorem compare_mibs_exact m x y :
  let '(olt, onu, attr) := compare_mibs m x y in
  (∀ c i, (c, i) ∈ olt ↔ is_Some (inst x c i) ∧ inst y c i = None) ∧
  (∀ c i, (c, i) ∈ onu ↔ is_Some (inst y c i) ∧ inst x c i = None) ∧
  (∀ c i n, (c, i, n) ∈ attr ↔
     ∃ a b, inst x c i = Some a ∧ inst y c i = Some b ∧ n ∉ ro_attrs m c ∧ differ a b n).
Proof. split_and!; intros; [apply elem_of_lsh_only..|apply elem_of_attr_diffs]. Qed.

Lemma same_value_refl v : same_value v v = true.
Proof. destruct v; simpl; first [done|by apply bool_decide_eq_true]. Qed.

(** Equal MIBs: the report has three empty lists, which the task passes on as
    three [None]. *)
Lemma compare_equal m x :
  let '(olt, onu, attr) := compare_mibs m x x in (some_items olt, some_items onu, some_items attr) = (None, None, None).
Proof.
  unfold compare_mibs.
  assert (get_lsh_only_dict x x = []) as ->.
  { apply elem_of_nil_inv. intros [c i] [[a Ha] Hn]%elem_of_lsh_only. congruence. }
  replace (get_attribute_diffs x x m) with (@nil (Z * Z * string)); [done|]. symmetry.
  apply elem_of_nil_inv. intros [[c i] n] (a&b&Ha&Hb&_&Hd)%elem_of_attr_diffs. simplify_eq. unfold differ in Hd.
  destruct (a !! n) as [v|]; [|done]. by rewrite same_value_refl in Hd.
Qed.
End compare.

(** ** Programs *)
Section tasks.
Context {HO : DictOrder} {HJ : Json} {HPr : Promise outcome} {HL : PromiseLaws outcome}.
Context (device_id : string).
Context (get_me_map : string → result (gmap Z entity)) (now : Z).
Context (ShortField : string → aval → field) (FieldListField : string → aval → field).
Context (class_of : Z → entity_class) (asked : Z → Z → gset string) (pdu_size : Z).

(** The generator of the task that each user queues (the audit is a
    [GetMdsTask]; the attributes asked for are those a create left out). *)
Definition perform (c : client) : T unit :=
  match c with
  | CUpload => perform_mib_upload ShortField
  | CExamine | CAudit => perform_get_mds ShortField
  | CResync => perform_mib_resync device_id get_me_map now ShortField
  | CGet class_id entity_id => perform_get_omci (class_of class_id) entity_id (asked class_id entity_id) true
  | CCaps => perform_get_capabilities ShortField FieldListField pdu_size
  end.

(** A task that has been started: the one that compares MIBs has a database of
    its own. *)
Definition fresh_task (c : client) : tstate :=
  TState true (Some Pending) true true
    (match c with
     | CResync => Some ((_ ← MibDb.start; MibDb.add now device_id false) (MibDb.init now)).2
     | _ => None
     end) (Some ∅) (Some ∅) None None ∅.

(** *** Every task fires its Deferred *)

(** Nothing disturbs the task, and the channel does not fail with
    [AlreadyCalledError]. *)
Definition undisturbed (X : Type) (w : wait X) (x : X) (s s' : tstate) : Prop :=
  s' = s ∧ match w in wait Y return Y → Prop with
           | Send _ => λ r, r ≠ Err AlreadyCalledError
           | GetDevice => λ r, r ≠ Err AlreadyCalledError
           | _ => λ _, True
           end x.

Definition anywhere (X : Type) (w : wait X) (s : tstate) : Prop := True.

Local Abbreviation spec_ := (spec anywhere undisturbed).
Local Abbreviation wp_ := (wp anywhere undisturbed).

Definition pending (s : tstate) : Prop := (∃ d, k_deferred s = Some d ∧ result_of d = None) ∧ k_running s = true.
Definition fired_with (o : outcome) (s : tstate) : Prop := ∃ d, k_deferred s = Some d ∧ result_of d = Some o.
(** The results of a task: of the kind its queueing party reads ([fits]); a
    resynchronization reports [None] where there is nothing to report, never an
    empty list. *)
Definition yields (c : client) (o : outcome) : Prop :=
  match c, o with
  | CResync, OResync a b d => a ≠ Some [] ∧ b ≠ Some [] ∧ d ≠ Some []
  | _, _ => fits c o
  end.

Lemma yields_fits c o : yields c o → fits c o.
Proof. by destruct c, o. Qed.

Lemma some_items_ne {A} (l : list A) : some_items l ≠ Some [].
Proof. by destruct l. Qed.

Definition fired_for (c : client) (s : tstate) : Prop := ∃ o, fired_with o s ∧ yields c o.

Section steps.
Context (E : exn → Prop) (HE : ∀ e, e ≠ AlreadyCalledError → E e).
Context (I : tstate → Prop) (HI : ∀ s d, I s → I (s <| k_db := d |>)).
Local Abbreviation keeps_ := (keeps anywhere undisturbed E I).

Lemma keeps_yield {X} (w : wait X) : keeps_ (yield w).
Proof. apply spec_yield; [done|]. by intros s x s' Hs [-> _]. Qed.

Lemma keeps_pure {A} (m : M tstate A) : pure m → keeps_ (lift_ m).
Proof.
  intros Hm. apply keeps_lift. intros s Hs. destruct (Hm s) as [-> He]. split; [done|]. intros e Heq. apply HE. congruence.
Qed.

Lemma keeps_answer {X} (w : wait (result X)) :
  (∀ x s s', undisturbed _ w x s s' → x ≠ Err AlreadyCalledError) → keeps_ (r ← yield w; of_result r).
Proof.
  intros Hw.
  apply (spec_bind _ _ _ _ _ _ (λ r s, match r with Ok x => I s ∧ x ≠ Err AlreadyCalledError | Err _ => False end)).
  - apply spec_yield; [done|]. intros s x s' Hs Hu. pose proof (Hw _ _ _ Hu) as Hx. by destruct Hu as [-> _].
  - intros r. apply spec_lift. intros s [Hs Hr]. split; [done|]. intros e He. apply HE. unfold lift in He. simpl in He. congruence.
  - done.
Qed.

Lemma keeps_send f : pure f → keeps_ (send f).
Proof.
  intros Hf. apply gen_keeps_bind; [by apply keeps_pure|intros fr]. apply keeps_answer. by intros x s s' [_ Hx].
Qed.

Lemma keeps_stop_if e : e ≠ AlreadyCalledError → keeps_ (stop_if_not_running e).
Proof. intros He. unfold stop_if_not_running. keeps. Qed.

Lemma keeps_agent_device : keeps_ agent_device.
Proof.
  unfold agent_device. keeps_step; [keeps_step|]. destruct a.
  - apply keeps_answer. by intros x s s' [_ Hx].
  - apply keeps_raise. auto.
Qed.

Lemma keeps_self_device : keeps_ self_device.
Proof. unfold self_device. keeps. Qed.

Lemma keeps_device_send f : pure f → keeps_ (device_send f).
Proof. intros Hf. apply gen_keeps_bind; [apply keeps_self_device|intros _]. by apply keeps_send. Qed.

Lemma keeps_with_db {A} (m : M mibdb A) : (∀ e, E e) → keeps_ (with_db m).
Proof.
  intros Hall. unfold with_db. keeps_step; [keeps_step|]. keeps_step; [keeps_step|].
  destruct (m a0) as [r d]. keeps_step; [apply gen_keeps_set; auto|]. apply keeps_result. by intros e _.
Qed.

End steps.

Section ends.
Context (E : exn → Prop) (HE : ∀ e, e ≠ AlreadyCalledError → E e).
Local Abbreviation keeps_ := (keeps anywhere undisturbed E pending).

Lemma fire_pending o : spec_ pending (fire_deferred o) (λ r s, r = Ok tt ∧ fired_with o s).
Proof.
  intros s [(d&Hd&Hn) Hr]. destruct (fire_pending_ok o d Hn) as (d'&Hf&Ho).
  unfold fire_deferred, some_or, get_, gets, lift_, mbind, gen_bind. simpl. rewrite Hd. simpl. rewrite Hf. simpl.
  split; [done|]. by exists d'.
Qed.

(** A body that fires the Deferred last, or raises before that. *)
Definition ends (c : client) {A} (r : result A) (s : tstate) : Prop :=
  match r with Ok _ => fired_for c s | Err e => pending s ∧ E e end.

Lemma ends_bind c {A B} (m : T A) (k : A → T B) : keeps_ m → (∀ a, spec_ pending (k a) (ends c)) → spec_ pending (m ≫= k) (ends c).
Proof.
  intros Hm Hk. apply (spec_bind _ _ _ _ _ _ (λ r s, pending s ∧ raises E r)); [done|..].
  - intros a. eapply spec_mono; [apply Hk| |done]. by intros s [? _].
  - intros e s [? He]. split; [done|]. by apply He.
Qed.

Lemma ends_callback c o : yields c o → spec_ pending (callback o) (ends c).
Proof. intros Ho. eapply spec_mono; [apply fire_pending|done|]. intros r s [-> Hf]. by exists o. Qed.

Lemma ends_raise c {A} e : E e → spec_ pending (raise_ (A := A) e) (ends c).
Proof. intros He. by apply spec_lift. Qed.

Lemma ends_errback c : spec_ pending errback (ends c).
Proof. apply ends_callback. destruct c; exact I. Qed.
End ends.

Ltac ends :=
  repeat lazymatch goal with
  | |- spec _ _ _ (mbind _ _) _ => apply ends_bind; [keeps|intros ?]
  | |- spec _ _ _ (callback _) _ => apply ends_callback
  | |- spec _ _ _ errback _ => apply ends_errback
  | |- spec _ _ _ (raise_ _) _ => apply ends_raise; auto with tasks
  | |- spec _ _ _ (if ?x then _ else _) _ => destruct x
  | |- spec _ _ _ (match ?x with _ => _ end) _ => destruct x
  end.

Hint Resolve keeps_yield keeps_pure keeps_send keeps_stop_if keeps_agent_device keeps_self_device keeps_device_send keeps_with_db : tasks.
Hint Extern 1 (_ ≠ AlreadyCalledError) => discriminate : tasks.

Lemma pending_db s d : pending s → pending (s <| k_db := d |>).
Proof. done. Qed.
Hint Resolve pending_db : tasks.

(** Anything but [AlreadyCalledError], or anything. *)
Definition no_ace (e : exn) : Prop := e ≠ AlreadyCalledError.
Definition any_exn (e : exn) : Prop := True.

Lemma errback_ends c : spec_ pending errback (λ _ s, fired_for c s).
Proof.
  eapply spec_mono; [apply fire_pending|done|]. intros r s [_ Hf]. exists OFailure. split; [done|]. destruct c; exact I.
Qed.

Lemma try_errback c (m : T unit) : spec_ pending m (ends any_exn c) → spec_ pending (try_ m (λ _, errback)) (λ _ s, fired_for c s).
Proof.
  intros Hm. eapply spec_try; [exact Hm| |by intros a s Hs]. intros e. eapply spec_mono; [apply (errback_ends c)| |done]. by intros s [? _].
Qed.

Local Lemma any_ok e : e ≠ AlreadyCalledError → any_exn e.
Proof. done. Qed.
Local Lemma no_ace_ok e : e ≠ AlreadyCalledError → no_ace e.
Proof. done. Qed.
Local Lemma any_all e : any_exn e.
Proof. done. Qed.
Hint Resolve any_ok no_ace_ok any_all : tasks.

Lemma mds_fires c : (∀ v, yields c (OMds v)) → spec_ pending (perform_get_mds ShortField) (λ _ s, fired_for c s).
Proof. intros Hc. pose proof any_ok as HE. apply try_errback. ends. apply Hc. Qed.

Lemma upload_fires : spec_ pending (perform_mib_upload ShortField) (λ _ s, fired_for CUpload s).
Proof.
  pose proof no_ace_ok as HE. unfold perform_mib_upload.
  apply (spec_try _ _ _ _ _ _ (ends no_ace CUpload)); [| |by intros a s Hs].
  - unfold upload_next. ends. exact I.
  - intros e s [Hs He]. rewrite decide_False by done. by apply errback_ends.
Qed.

Lemma keeps_snapshot_loop l : ∀ acc, keeps anywhere undisturbed any_exn pending (snapshot_loop ShortField l acc).
Proof. pose proof any_ok as HE. induction l as [|r l IH]; intros acc; cbn [snapshot_loop]; unfold send_mib_upload; keeps; apply IH. Qed.

Lemma resync_fires : spec_ pending (perform_mib_resync device_id get_me_map now ShortField) (λ _ s, fired_for CResync s).
Proof.
  pose proof any_ok as HE. apply try_errback. unfold snapshot_mib, upload_mib, resync_next. 
  pose proof keeps_snapshot_loop. ends; split_and!; apply some_items_ne.
Qed.

(** *** The capabilities task

    A table that cannot be read fires the Deferred, and the task goes on. *)
Definition failed_ (s : tstate) : Prop := fired_with OFailure s.

Lemma failed_db s d : failed_ s → failed_ (s <| k_db := d |>).
Proof. done. Qed.
Hint Resolve failed_db : tasks.

Lemma failed_fire o : keeps anywhere undisturbed any_exn failed_ (fire_deferred o).
Proof.
  intros s (d&Hd&Hr). unfold fire_deferred, some_or, get_, gets, lift_, mbind, gen_bind. simpl. rewrite Hd. simpl.
  destruct (fire_with o d) as [d'|] eqn:Hf; (split; [|by intros e _]); [|by exists d]. exists d'. split; [done|].
  by eapply fire_again.
Qed.

Lemma keeps_pieces I t n (HI : ∀ s d, I s → I (s <| k_db := d |>)) l : ∀ b,
  keeps anywhere undisturbed any_exn I (pieces ShortField FieldListField t n pdu_size l b).
Proof.
  pose proof any_ok as HE. induction l as [|r l IH]; intros b; cbn [pieces]; unfold table_piece; keeps; apply IH.
Qed.

Lemma keeps_get_table I t (HI : ∀ s d, I s → I (s <| k_db := d |>)) :
  keeps anywhere undisturbed any_exn I (get_table ShortField FieldListField pdu_size t).
Proof. pose proof any_ok as HE. pose proof (keeps_pieces I). unfold get_table. keeps. Qed.

Definition read_or_failed {A} (r : result (option A)) (s : tstate) : Prop :=
  match r with Ok (Some _) => pending s | Ok None => failed_ s | Err _ => False end.

Definition read_some {A} (r : result (option A)) (s : tstate) : Prop := pending s ∧ r ≠ Ok None.

Lemma read_bind {A B} (m : T A) (k : A → T (option B)) : keeps anywhere undisturbed any_exn pending m →
  (∀ a, spec_ pending (k a) read_some) → spec_ pending (m ≫= k) read_some.
Proof.
  intros Hm Hk. apply (spec_bind _ _ _ _ _ _ (λ r s, pending s)); [|done|done].
  eapply spec_mono; [exact Hm|done|]. by intros r s [? _].
Qed.

Lemma read_table {A} (m : T (option A)) : spec_ pending m read_some →
  spec_ pending (try_ m (λ _, _ ← errback; mret None)) read_or_failed.
Proof.
  intros Hm. apply (spec_try _ _ _ _ _ _ read_some); [done| |].
  - intros e. eapply spec_bind; [eapply spec_mono; [apply fire_pending|by intros s [? _]|done]| |by intros e' s [? _]].
    intros a. apply spec_ret. by intros s [_ ?].
  - by intros [a|] s [Hs ?].
Qed.

Lemma entities_read : spec_ pending (get_supported_entities ShortField FieldListField pdu_size) read_or_failed.
Proof.
  pose proof any_ok as HE. apply read_table. apply read_bind; [by apply keeps_get_table|intros b].
  apply read_bind; [keeps|intros l]. by apply spec_ret.
Qed.

Lemma types_read : spec_ pending (get_supported_message_types ShortField FieldListField pdu_size) read_or_failed.
Proof. apply read_table. apply read_bind; [by apply keeps_get_table|intros b]. by apply spec_ret. Qed.

Lemma types_failed :
  keeps anywhere undisturbed any_exn failed_ (get_supported_message_types ShortField FieldListField pdu_size).
Proof.
  pose proof (keeps_get_table failed_). pose proof failed_fire. unfold get_supported_message_types, errback. keeps.
Qed.

Lemma caps_fires : spec_ pending (perform_get_capabilities ShortField FieldListField pdu_size) (λ _ s, fired_for CCaps s).
Proof.
  pose proof any_ok as HE. pose proof failed_fire as Hff.
  assert (∀ s, failed_ s → fired_for CCaps s) as Hfail by (intros s Hs; by exists OFailure).
  apply (spec_try _ _ _ _ _ _ (λ r s, match r with Ok _ => fired_for CCaps s | Err _ => pending s ∨ failed_ s end)); [| |done].
  2: { intros e s [Hs|Hs]; [by apply errback_ends|]. eapply wp_mono; [|by apply Hff]. intros r s' [? _]. auto. }
  assert (∀ A (m : T A), keeps anywhere undisturbed any_exn failed_ m → spec_ failed_ m (λ r s, fired_for CCaps s ∧ failed_ s)) as Hkf.
  { intros A m Hm. eapply spec_mono; [exact Hm|done|]. intros r s [? _]. auto. }
  apply (spec_bind _ _ _ _ _ _ read_or_failed); [apply entities_read| |done]. intros [e|]; simpl.
  - apply (spec_bind _ _ _ _ _ _ (λ _ s, pending s)); [by apply spec_lift| |by left].
    intros _. apply (spec_bind _ _ _ _ _ _ (λ _ s, pending s)).
    { eapply spec_mono; [by apply (keeps_stop_if any_exn HE pending)|done|]. by intros r s [? _]. }
    2: by left.
    intros _. apply (spec_bind _ _ _ _ _ _ read_or_failed); [apply types_read| |done]. intros [t|]; simpl.
    + eapply spec_mono; [|done|].
      * instantiate (1 := ends any_exn CCaps). apply ends_bind; [by apply gen_keeps_set|intros _]. unfold nonempty_set. ends. exact I.
      * intros [a|e'] s; [done|]. intros [? _]. by left.
    + eapply spec_mono; [apply Hkf|done|]; [|intros [|] s []; auto]. unfold nonempty_set. keeps; try by apply gen_keeps_set.
  - eapply spec_mono; [apply Hkf|done|]; [|intros [|] s []; auto]. pose proof types_failed. unfold nonempty_set.
    keeps; try by apply gen_keeps_set.
Qed.

(** *** The get request *)
Section get_request.
Context (cls : entity_class) (eid : Z) (names : gset string) (allow : bool) (a b : Z).

Definition first_step (r : result followup) (s : tstate) : Prop :=
  match r with Ok FNone => fired_for (CGet a b) s | _ => pending s end.

Definition first_done (r : result followup) (s : tstate) : Prop :=
  match r with Ok FNone => fired_for (CGet a b) s | Ok _ => pending s | Err _ => False end.

Lemma first_bind {A} (m : T A) (k : A → T followup) : keeps anywhere undisturbed any_exn pending m →
  (∀ x, spec_ pending (k x) first_step) → spec_ pending (m ≫= k) first_step.
Proof.
  intros Hm Hk. apply (spec_bind _ _ _ _ _ _ (λ r s, pending s)); [|done|done].
  eapply spec_mono; [exact Hm|done|]. by intros r s [? _].
Qed.

Lemma first_raise e : spec_ pending (raise_ e) first_step.
Proof. by apply spec_lift. Qed.

Lemma first_fires : spec_ pending (perform_get_omci_first cls eid names allow) first_done.
Proof.
  pose proof any_ok as HE. unfold perform_get_omci_first, get_stop_if_not_running.
  apply (spec_try _ _ _ _ _ _ first_step); [| |done].
  - do 4 (apply first_bind; [keeps|intros ?]). case_decide.
    + apply first_bind; [by apply gen_keeps_set|intros _]. do 2 (apply first_bind; [keeps|intros ?]).
      case_decide; [by apply spec_ret|]. apply first_bind; [keeps|intros r].
      eapply spec_bind; [apply fire_pending| |by intros e s [? _]]. intros u. apply spec_ret. intros s [_ Hs]. by eexists.
    + case_decide; [|apply first_raise]. case_decide; [apply first_raise|by apply spec_ret].
  - intros e. eapply spec_bind; [apply fire_pending| |by intros e' s [? _]]. intros u. apply spec_ret.
    intros s [_ Hs]. by exists OFailure.
Qed.

(** Steps whose exceptions are caught. *)
Definition quiet (r : result unit) (s : tstate) : Prop := r = Ok tt ∧ pending s.

Lemma quiet_try m : keeps anywhere undisturbed any_exn pending m → spec_ pending (try_ m (λ _, mret tt)) quiet.
Proof.
  intros Hm. eapply spec_try; [exact Hm| |].
  - intros e. apply spec_ret. by intros s [? _].
  - by intros [] s [? _].
Qed.

Lemma quiet_forT {B} (f : B → T unit) l : (∀ x, spec_ pending (f x) quiet) → spec_ pending (forT f l) quiet.
Proof.
  intros Hf. induction l as [|x l IH]; [by intros s Hs|]. eapply spec_bind; [apply Hf| |by intros e s [? _]].
  intros u. eapply spec_mono; [exact IH| |done]. by intros s [_ ?].
Qed.

Lemma missing_quiet m i : spec_ pending (get_missing_attribute cls eid m i) quiet.
Proof.
  pose proof any_ok as HE. unfold get_missing_attribute, get_stop_if_not_running. case_decide; [|by apply spec_ret].
  apply quiet_try. keeps; by apply gen_keeps_set.
Qed.

Lemma failed_quiet n : spec_ pending (get_failed_attribute cls eid n) quiet.
Proof.
  pose proof any_ok as HE. unfold get_failed_attribute, get_stop_if_not_running, tmp_.
  apply quiet_try. keeps; by apply gen_keeps_set.
Qed.

Local Abbreviation fired_ := (λ (_ : result unit) s, fired_for (CGet a b) s).

Lemma quiet_then {B} (m : T unit) (f : tstate → B) (k : B → T unit) :
  spec_ pending m quiet → (∀ x, spec_ pending (k x) fired_) → spec_ pending (_ ← m; x ← get_ f; k x) fired_.
Proof.
  intros Hm Hk. eapply spec_bind; [exact Hm| |by intros e s [? _]]. intros u.
  apply (spec_bind _ _ _ _ _ _ (λ r s, pending s ∧ ∃ x, r = Ok x)).
  - apply spec_lift. intros s [_ Hs]. split; [done|]. by eexists.
  - intros x. eapply spec_mono; [apply Hk| |done]. by intros s [? _].
  - by intros e s [_ [x ?]].
Qed.

Lemma callback_fires o : spec_ pending (callback (OAttributes o)) fired_.
Proof. eapply spec_mono; [apply fire_pending|done|]. intros r s [_ Hs]. by eexists. Qed.

Lemma followup_fires (m : T unit) : spec_ pending m fired_ → spec_ pending (in_next_turn m) fired_.
Proof.
  intros Hm. unfold in_next_turn. apply (spec_bind _ _ _ _ _ _ (λ r s, pending s ∧ r = Ok tt)).
  - apply spec_yield; [done|]. intros s [] s' Hs [-> _]. done.
  - intros u. apply (spec_bind _ _ _ _ _ _ (λ r s, pending s ∧ r = Ok true)).
    + apply spec_lift. intros s [[Hd Hr] _]. simpl. by rewrite Hr.
    + intros x s [Hs [= ->]]. by apply Hm.
    + by intros e s [_ ?].
  - by intros e s [_ ?].
Qed.

Lemma get_fires : spec_ pending (perform_get_omci cls eid names allow) fired_.
Proof.
  unfold perform_get_omci. eapply spec_bind; [apply first_fires| |].
  - intros [|m|r]; simpl.
    + by apply spec_ret.
    + apply followup_fires. apply quiet_then; [apply quiet_forT, missing_quiet|intros x; apply callback_fires].
    + apply followup_fires. unfold perform_get_failed_attributes.
      apply (spec_bind _ _ _ _ _ _ quiet); [by apply spec_lift| |by intros e s [? _]]. intros u.
      eapply spec_mono; [apply quiet_then; [apply quiet_forT, failed_quiet|]|by intros s [_ ?]|done].
      intros tmp. apply (spec_bind _ _ _ _ _ _ quiet); [by apply spec_lift| |by intros e s [? _]]. intros u'.
      eapply spec_mono; [apply callback_fires|by intros s [_ ?]|done].
  - by intros e s [].
Qed.
End get_request.

Lemma fresh_pending c : pending (fresh_task c).
Proof. split; [|done]. exists Pending. split; [done|apply new_pending]. Qed.


(** *** A stopped task is silent *)

(** [task.stop()]: the tasks that keep a reference to the device drop it. *)
Definition stopped_task (c : client) (s : tstate) : tstate :=
  let s := s <| k_running := false |> <| k_deferred := None |> <| k_agent := false |> in
  match c with
  | CResync => s <| k_device := false |> <| k_db := None |>
  | CCaps => s <| k_device := false |>
  | _ => s
  end.

(** While a task waits for an answer, a delay or the reactor it may be stopped;
    the other questions are answered at once. *)
Definition may_stop (c : client) (X : Type) (w : wait X) (x : X) (s s' : tstate) : Prop :=
  match w with
  | Send _ | Asleep _ | NextTurn => s' = s ∨ s' = stopped_task c s
  | _ => s' = s
  end.

Definition sends_running (X : Type) (w : wait X) (s : tstate) : Prop :=
  match w with Send _ => k_running s = true | _ => True end.

Section silent.
Context (c : client).
Local Abbreviation sspec := (spec sends_running (may_stop c)).

Definition is_running (s : tstate) : Prop := k_running s = true.

(** It goes on only while it runs. *)
Definition goes_on {A} (r : result A) (s : tstate) : Prop := match r with Ok _ => is_running s | Err _ => True end.
Definition whatever {A} (r : result A) (s : tstate) : Prop := True.

Lemma on_bind {A B} (m : T A) (k : A → T B) : sspec is_running m goes_on → (∀ a, sspec is_running (k a) goes_on) →
  sspec is_running (m ≫= k) goes_on.
Proof. intros Hm Hk. by apply (spec_bind _ _ _ _ _ _ goes_on). Qed.

Lemma on_ret {A} (a : A) : sspec is_running (mret a) goes_on.
Proof. intros s Hs. exact Hs. Qed.

Lemma on_lift {A} (m : M tstate A) : (∀ s, k_running (m s).2 = k_running s) → sspec is_running (lift_ m) goes_on.
Proof. intros Hm. apply spec_lift. intros s Hs. unfold goes_on, is_running. rewrite Hm. by destruct (m s).1. Qed.

Lemma on_pure {A} (m : M tstate A) : pure m → sspec is_running (lift_ m) goes_on.
Proof. intros Hm. apply on_lift. intros s. by rewrite (proj1 (Hm s)). Qed.

Lemma on_some_or {A} e (o : option A) : sspec is_running (some_or e o) goes_on.
Proof. apply on_lift. by destruct o. Qed.

(** A request, and the test that follows it. *)
Lemma on_send {B} (f : M tstate omci_frame) e (k : reply → T B) : pure f →
  (∀ r, sspec is_running (k r) goes_on) → sspec is_running (r ← send f; _ ← stop_if_not_running e; k r) goes_on.
Proof.
  intros Hf Hk. apply (spec_bind _ _ _ _ _ _ whatever); [|intros r|done].
  - apply (spec_bind _ _ _ _ _ _ goes_on); [by apply on_pure| |done]. intros fr.
    apply (spec_bind _ _ _ _ _ _ whatever); [by apply spec_yield|intros r|done]. by apply spec_lift.
  - apply (spec_bind _ _ _ _ _ _ goes_on); [|intros u; apply Hk|done].
    intros s _. unfold stop_if_not_running, get_, gets, lift_, mbind, gen_bind. simpl. by destruct (k_running s) eqn:Hr.
Qed.

Lemma on_stop_if e : sspec (λ _, True) (stop_if_not_running e) goes_on.
Proof. intros s _. unfold stop_if_not_running, get_, gets, lift_, mbind, gen_bind. simpl. by destruct (k_running s) eqn:Hr. Qed.

Lemma on_forT {B} (f : B → T unit) l : (∀ b, sspec is_running (f b) goes_on) → sspec is_running (forT f l) goes_on.
Proof. intros Hf. induction l; [apply on_ret|]. by apply on_bind. Qed.

Lemma on_until {B} (f : B → T bool) l : (∀ b, sspec is_running (f b) goes_on) → sspec is_running (until f l) goes_on.
Proof. intros Hf. induction l as [|b l IH]; [apply on_ret|]. apply on_bind; [done|]. intros []; [apply on_ret|done]. Qed.

Lemma silent_fire P o : sspec P (fire_deferred o) whatever.
Proof.
  unfold fire_deferred. do 3 (apply (spec_bind _ _ _ _ _ _ whatever); [by apply spec_lift|intros ?|done]). by apply spec_lift.
Qed.

Lemma on_agent_device : sspec is_running agent_device goes_on.
Proof.
  apply on_bind; [by apply on_lift|]. intros []; [|by apply on_lift]. apply on_bind; [|intros r; by apply on_lift].
  apply spec_yield; [done|]. intros s x s' Hs ->. exact Hs.
Qed.
Lemma on_fire o : sspec is_running (fire_deferred o) goes_on.
Proof.
  unfold fire_deferred. apply on_bind; [by apply on_lift|intros d]. do 2 (apply on_bind; [apply on_some_or|intros ?]).
  by apply on_lift.
Qed.

Lemma on_upload_next n r : sspec is_running (upload_next ShortField n r) goes_on.
Proof.
  apply (spec_try _ _ _ _ _ _ goes_on); [|intros e|done].
  - apply on_send; [apply pure_mib_upload_next|intros x; apply on_ret].
  - case_decide; [|by apply spec_lift]. case_decide; [by apply spec_lift|].
    apply (spec_bind _ _ _ _ _ _ whatever); [by apply spec_yield|intros u|done].
    apply (spec_bind _ _ _ _ _ _ goes_on); [apply on_stop_if|intros v; apply on_ret|done].
Qed.

Lemma silent_upload : sspec is_running (perform_mib_upload ShortField) whatever.
Proof.
  unfold perform_mib_upload. apply (spec_try _ _ _ _ _ _ goes_on); [|intros e|done].
  - apply on_bind; [apply on_agent_device|intros _]. apply on_send; [apply pure_mib_reset|intros r].
    apply on_bind; [apply on_some_or|intros st]. case_decide; [by apply on_lift|].
    apply on_send; [apply pure_mib_upload|intros r']. apply on_bind; [apply on_some_or|intros n].
    apply on_bind; [|intros _; apply on_fire]. apply on_forT. intros i. apply on_bind.
    + apply spec_yield; [done|]. intros s x s' Hs ->. exact Hs.
    + intros []; [apply on_until; intros; apply on_upload_next|by apply on_lift].
  - case_decide; [|apply silent_fire]. apply (spec_bind _ _ _ _ _ _ whatever); [by apply spec_lift| |done].
    intros d. apply (spec_bind _ _ _ _ _ _ whatever); [by apply spec_lift|intros ?|done]. by apply spec_lift.
Qed.

Lemma silent_mds : sspec is_running (perform_get_mds ShortField) whatever.
Proof.
  unfold perform_get_mds. apply (spec_try _ _ _ _ _ _ whatever); [|intros e; apply silent_fire|done].
  apply (spec_bind _ _ _ _ _ _ goes_on); [apply on_agent_device|intros u|done].
  apply (spec_bind _ _ _ _ _ _ whatever); [|intros r|done].
  - apply (spec_bind _ _ _ _ _ _ goes_on); [by apply on_pure, pure_get_mds| |done]. intros fr.
    apply (spec_bind _ _ _ _ _ _ whatever); [by apply spec_yield|intros x|done]. by apply spec_lift.
  - do 5 (apply (spec_bind _ _ _ _ _ _ whatever); [by apply spec_lift|intros ?|done]). apply silent_fire.
Qed.

(** The tasks that drop their device when stopped. *)
Definition device_runs (s : tstate) : Prop := k_device s = true → k_running s = true.
Context (Hc : c = CResync ∨ c = CCaps).
Local Abbreviation skeeps := (keeps sends_running (may_stop c) any_exn device_runs).

Lemma may_stop_device {X} (w : wait X) x s s' : may_stop c X w x s s' → device_runs s → device_runs s'.
Proof.
  intros Hst Hs. assert (s' = s ∨ s' = stopped_task c s) as [->| ->]; [destruct w; simpl in Hst; auto|done|].
  by destruct Hc as [->| ->].
Qed.

Lemma device_yield {X} (w : wait X) : (∀ s, sends_running X w s) → skeeps (yield w).
Proof. intros Hw. apply spec_yield; [done|]. intros s x s' Hs Hst. split; [by eapply may_stop_device|done]. Qed.

Lemma device_send_ok f : pure f → skeeps (device_send f).
Proof.
  intros Hf. unfold device_send, self_device.
  apply (spec_bind _ _ _ _ _ _ (λ r s, device_runs s ∧ match r with Ok _ => is_running s | Err _ => True end));
    [|intros u|by intros e s [? _]].
  - apply (spec_bind _ _ _ _ _ _ (λ r s, match r with Ok d => device_runs s ∧ k_device s = d | Err _ => False end));
      [by apply spec_lift|intros []|done].
    + apply spec_ret. intros s [Hs Hd]. split; [done|]. by apply Hs.
    + apply spec_lift. by intros s [? _].
  - apply (spec_bind _ _ _ _ _ _ (λ r s, device_runs s ∧ match r with Ok _ => is_running s | Err _ => True end));
      [|intros fr|by intros e s [? _]].
    + apply spec_lift. intros s [Hs Hr]. rewrite (proj1 (Hf s)). split; [done|]. by destruct (f s).1.
    + apply (spec_bind _ _ _ _ _ _ (λ r s, device_runs s)); [|intros r|done].
      * apply spec_yield; [by intros s [_ ?]|]. intros s x s' [Hs _] Hst. by eapply may_stop_device.
      * by apply spec_lift.
Qed.

Lemma device_pure {A} (m : M tstate A) : pure m → skeeps (lift_ m).
Proof. intros Hm. apply keeps_lift. intros s Hs. by rewrite (proj1 (Hm s)). Qed.

Lemma device_stop_if e : skeeps (stop_if_not_running e).
Proof. unfold stop_if_not_running. keeps. Qed.

Lemma device_with_db {A} (m : M mibdb A) : skeeps (with_db m).
Proof.
  unfold with_db. pose proof any_ok as HE. keeps_step; [keeps_step|]. keeps_step; [keeps_step|].
  destruct (m a0) as [r d]. keeps_step; [by apply gen_keeps_set|]. by apply keeps_result.
Qed.

Lemma device_fire o : skeeps (fire_deferred o).
Proof.
  unfold fire_deferred. apply gen_keeps_bind; [apply keeps_get|intros d]. pose proof any_ok as HE.
  apply gen_keeps_bind; [keeps|intros d']. apply gen_keeps_bind; [|intros u; by apply gen_keeps_set].
  apply keeps_lift. intros s Hs. by destruct (fire_with o d').
Qed.

Lemma device_agent_device : skeeps agent_device.
Proof. unfold agent_device. keeps. by apply device_yield. Qed.

Hint Resolve device_send_ok device_pure device_stop_if device_with_db device_fire device_agent_device : tasks.

Lemma device_snapshot_loop l : ∀ acc, skeeps (snapshot_loop ShortField l acc).
Proof.
  pose proof any_ok as HE. induction l as [|r l IH]; intros acc; cbn [snapshot_loop]; unfold send_mib_upload, self_device;
    keeps; first [apply IH|by apply device_yield].
Qed.

Lemma device_resync : skeeps (perform_mib_resync device_id get_me_map now ShortField).
Proof.
  pose proof any_ok as HE. pose proof device_snapshot_loop.
  unfold perform_mib_resync, snapshot_mib, upload_mib, resync_next, errback, callback. keeps; by apply device_yield.
Qed.

Lemma device_pieces t n l : ∀ b, skeeps (pieces ShortField FieldListField t n pdu_size l b).
Proof.
  pose proof any_ok as HE. induction l as [|r l IH]; intros b; cbn [pieces]; unfold table_piece; keeps; apply IH.
Qed.

Lemma device_caps : skeeps (perform_get_capabilities ShortField FieldListField pdu_size).
Proof.
  pose proof any_ok as HE. pose proof device_pieces.
  unfold perform_get_capabilities, get_supported_entities, get_supported_message_types, get_table, nonempty_set, errback, callback.
  keeps; by apply gen_keeps_set.
Qed.
End silent.

(** A task that was stopped sends nothing more to the ONU: in all of the
    tasks but the get request, a frame is only sent while the task runs. *)
Theorem stopped_is_silent c : (∀ a b, c ≠ CGet a b) →
  wp sends_running (may_stop c) (λ _ _, True) (perform c (fresh_task c)).
Proof.
  intros Hc. destruct c as [| | | |a b|]; [by apply silent_upload|by apply silent_mds|by apply silent_mds| |by destruct (Hc a b)|].
  - eapply wp_mono; [|apply device_resync; [by left|done]]. done.
  - eapply wp_mono; [|apply device_caps; [by right|done]]. done.
Qed.

(** *** Runs against a given environment *)
Section run.
Context (answer : ∀ X, wait X → X).

(** The requests sent, the result and the final state. *)
Fixpoint run_with {A} (m : task_run A) : list omci_request * result A * tstate :=
  match m with
  | Done r s => ([], r, s)
  | Wait w s k =>
      let '(l, r, s') := run_with (k (answer _ w) s) in
      (match w with Send f => [OmciEntities.omci_message f] | _ => [] end ++ l, r, s')
  end.

Definition evals {A} (m : T A) (s : tstate) (l : list omci_request) (r : result A) (s' : tstate) : Prop :=
  run_with (m s) = (l, r, s').

Lemma wp_run {A} G R (Q : result A → tstate → Prop) m :
  wp G R Q m → (∀ X (w : wait X) s, R X w (answer X w) s s) → let '(_, r, s) := run_with m in Q r s.
Proof.
  intros Hm HR. induction m as [r s|X w s k IH]; [done|]. destruct Hm as [_ Hm]. simpl.
  specialize (IH (answer X w) s (Hm _ _ (HR X w s))). by destruct (run_with (k (answer X w) s)) as [[l r] s'].
Qed.

Lemma evals_bind {A B} (m : T A) (k : A → T B) s l a s' l' r s'' :
  evals m s l (Ok a) s' → evals (k a) s' l' r s'' → evals (m ≫= k) s (l ++ l') r s''.
Proof.
  unfold evals, mbind, gen_bind. revert l. induction (m s) as [[x|e] s0|X w s0 k0 IH]; intros l; simpl; intros Hm Hk.
  - injection Hm as <- -> ->. done.
  - by injection Hm.
  - destruct (run_with (k0 (answer X w) s0)) as [[l0 r0] s1] eqn:He. injection Hm as <- -> ->.
    rewrite (IH _ _ l0 He Hk). by rewrite app_assoc.
Qed.

Lemma evals_try {A} (m : T A) h s l a s' : evals m s l (Ok a) s' → evals (try_ m h) s l (Ok a) s'.
Proof.
  unfold evals, try_. revert l. induction (m s) as [[x|e] s0|X w s0 k0 IH]; intros l; simpl; intros Hm; [done..|].
  destruct (run_with (k0 (answer X w) s0)) as [[l0 r0] s1] eqn:He. injection Hm as <- -> ->.
  by rewrite (IH _ _ l0 He).
Qed.

Lemma evals_ret {A} (a : A) s : evals (mret a) s [] (Ok a) s.
Proof. done. Qed.

Lemma evals_lift {A} (m : M tstate A) s r s' : m s = (r, s') → evals (lift_ m) s [] r s'.
Proof. intros H. unfold evals, lift_. by rewrite H. Qed.

(** Silent steps before others. *)
Lemma evals_then {A B} (m : T A) (k : A → T B) s a s' l r s'' :
  evals m s [] (Ok a) s' → evals (k a) s' l r s'' → evals (m ≫= k) s l r s''.
Proof. intros Hm Hk. by apply (evals_bind _ _ _ [] a s'). Qed.

Lemma evals_send f fr s r : f s = (Ok fr, s) → answer _ (Send fr) = Ok r →
  evals (send f) s [OmciEntities.omci_message fr] (Ok r) s.
Proof.
  intros Hf Ha. unfold send. eapply evals_then; [by apply evals_lift|]. unfold evals, yield, mbind, gen_bind. simpl.
  by rewrite Ha.
Qed.

Lemma evals_callback o s : k_deferred s = Some Pending →
  ∃ s', evals (callback o) s [] (Ok tt) s' ∧ fired_with o s'.
Proof.
  intros Hd. destruct (fire_pending_ok o Pending new_pending) as (d&Hf&Ho). exists (s <| k_deferred := Some d |>).
  split; [|by exists d]. unfold callback, fire_deferred. eapply evals_then; [done|]. rewrite Hd. eapply evals_then; [done|].
  rewrite Hf. by eapply evals_then.
Qed.

Lemma evals_stop_if e s : k_running s = true → evals (stop_if_not_running e) s [] (Ok tt) s.
Proof. intros Hr. unfold stop_if_not_running. eapply evals_then; [done|]. by rewrite Hr. Qed.

Lemma evals_agent_device s : k_agent s = true → answer _ GetDevice = Ok tt → evals agent_device s [] (Ok tt) s.
Proof.
  intros Ha Hd. unfold agent_device. eapply evals_then; [done|]. rewrite Ha. unfold evals, yield, mbind, gen_bind. simpl. by rewrite Hd.
Qed.

Lemma evals_some_or {A} e (a : A) s : evals (some_or e (Some a)) s [] (Ok a) s.
Proof. done. Qed.

Lemma evals_forT {B} (f : B → T unit) (g : B → list omci_request) l s :
  (∀ b, b ∈ l → evals (f b) s (g b) (Ok tt) s) → evals (forT f l) s (flat_map g l) (Ok tt) s.
Proof.
  induction l as [|b l IH]; intros Hf; [done|]. simpl. eapply evals_bind; [apply Hf; set_solver|]. apply IH. intros; apply Hf; set_solver.
Qed.

(** ** An upload asks for every instance *)
Context (Hsf : ∀ n d, fname (ShortField n d) = n ∧ ftype (ShortField n d) = "ShortField").

Lemma mib_upload_next_eq n (s : tstate) : 0 ≤ n ≤ 65535 →
  mib_upload_next ShortField n s = (Ok (mk_frame (OmciMibUploadNext 2 0 (AInt n))), s).
Proof. intros Hn. unfold mib_upload_next. rewrite upload_next_frame by done. by rewrite decide_True. Qed.

Lemma evals_upload_next i r s : 0 ≤ i ≤ 65535 → k_running s = true →
  answer _ (Send (mk_frame (OmciMibUploadNext 2 0 (AInt i)))) = Ok r →
  evals (upload_next ShortField i 0) s [OmciMibUploadNext 2 0 (AInt i)] (Ok true) s.
Proof.
  intros Hi Hrun Ha. apply evals_try. apply (evals_bind _ _ _ [_] r s []).
  - apply (evals_send _ (mk_frame (OmciMibUploadNext 2 0 (AInt i)))); [by apply mib_upload_next_eq|done].
  - eapply evals_then; [by apply evals_stop_if|]. done.
Qed.

(** When the ONU announces n instances and answers, the upload resets the
    MIB, starts the upload and asks for each instance once, in order, and then
    succeeds. *)
Theorem upload_asks_all n r1 r2 :
  0 ≤ n ≤ 65536 → answer _ GetDevice = Ok tt → answer _ Enabled = true →
  answer _ (Send (mk_frame (OmciMibReset 2 0))) = Ok r1 → success_code r1 = Some 0 →
  answer _ (Send (mk_frame (OmciMibUpload 2 0))) = Ok r2 → number_of_commands r2 = Some n →
  (∀ i, 0 ≤ i < n → ∃ r, answer _ (Send (mk_frame (OmciMibUploadNext 2 0 (AInt i)))) = Ok r) →
  ∃ s, run_with (perform CUpload (fresh_task CUpload)) =
         (OmciMibReset 2 0 :: OmciMibUpload 2 0 :: ((λ i, OmciMibUploadNext 2 0 (AInt i)) <$> zrange n), Ok tt, s) ∧
       fired_with OText s.
Proof.
  intros Hn Hd He Ha1 Hr1 Ha2 Hr2 Hnext. destruct (evals_callback OText (fresh_task CUpload) eq_refl) as (s'&Hcb&Hf). exists s'.
  split; [|done]. change (evals (perform_mib_upload ShortField) (fresh_task CUpload)
    ([OmciMibReset 2 0] ++ [OmciMibUpload 2 0] ++ ((λ i, OmciMibUploadNext 2 0 (AInt i)) <$> zrange n)) (Ok tt)
    s').
  apply evals_try. eapply evals_then; [by apply evals_agent_device|]. eapply evals_bind; [by apply (evals_send _ (mk_frame (OmciMibReset 2 0)))|].
  eapply evals_then; [by apply evals_stop_if|]. rewrite Hr1. eapply evals_then; [done|]. rewrite decide_False by (by intros []).
  eapply evals_bind; [by apply (evals_send _ (mk_frame (OmciMibUpload 2 0)))|]. eapply evals_then; [by apply evals_stop_if|].
  rewrite Hr2. eapply evals_then; [done|]. rewrite <-(app_nil_r (_ <$> _)). apply (evals_bind _ _ _ _ tt (fresh_task CUpload)); [|exact Hcb].
  replace ((λ i, OmciMibUploadNext 2 0 (AInt i)) <$> zrange n) with (flat_map (λ i, [OmciMibUploadNext 2 0 (AInt i)]) (zrange n))
    by (clear; induction (zrange n); csimpl; congruence).
  apply evals_forT. intros i Hi. unfold zrange in Hi. apply elem_of_seqZ in Hi.
  destruct (Hnext i) as [r Hr]; [lia|]. eapply evals_then; [done|]. rewrite He.
  apply (evals_bind _ _ _ [_] true (fresh_task CUpload) []); [|reflexivity].
  apply (evals_upload_next i r); [lia|done|done].
Qed.

(** ** Tables are read in pieces *)
Context (Hfl : ∀ n d, fname (FieldListField n d) = n).

Definition is_table (t : string) : Prop := t = "me_type_table" ∨ t = "message_type_table".
Definition table_mask (t : string) : Z := if decide (t = "me_type_table") then 32768 else 16384.

Lemma set_items_singleton `{Countable A} (x : A) : set_items {[x]} = [x].
Proof.
  unfold set_items. assert (gset_to_gmap tt ({[x]} : gset A) = {[x := tt]}) as ->.
  { apply map_eq. intros y. apply option_eq. intros []. rewrite lookup_gset_to_gmap_Some, lookup_singleton_Some.
    rewrite elem_of_singleton. naive_solver. }
  by rewrite iteritems_singleton.
Qed.

Lemma table_index t : is_table t →
  ∃ i a, attribute_name_to_index_map (Omci ShortField FieldListField) !! t = Some i ∧
    attributes (Omci ShortField FieldListField) !! i = Some a ∧ acc a = [AA_R] ∧
    Z.shiftl 1 (16 - Z.of_nat i) = table_mask t ∧ (i ≤ 16)%nat.
Proof.
  unfold attribute_name_to_index_map, attr_name. simpl. rewrite !Hfl, (proj1 (Hsf _ _)).
  intros [->| ->]; [exists 1%nat|exists 2%nat]; eexists; split_and!; try done; lia.
Qed.

Lemma table_frame t (s : tstate) : is_table t →
  check_attributes (Omci ShortField FieldListField) (DSet {[t]}) AA_R s = (Ok tt, s) ∧
  mask_for (Omci ShortField FieldListField) [t] s = (Ok (table_mask t), s).
Proof.
  intros Ht. destruct (table_index t Ht) as (i&a&Hi&Ha&Hacc&Hm&Hle). split.
  - unfold check_attributes. change (names_of (DSet {[t]})) with (set_items ({[t]} : gset string)).
    rewrite set_items_singleton. rewrite (bind_ok _ _ s tt s); [done|]. cbn [forM_]. rewrite (bind_ok _ _ s tt s); [done|].
    rewrite Hi, (bind_ok _ _ s i s) by done. rewrite Ha, (bind_ok _ _ s a s) by done. by rewrite Hacc.
  - unfold mask_for. cbn [foldM]. rewrite Hi, (bind_ok _ _ s (table_mask t) s); [done|].
    rewrite (bind_ok _ _ s i s) by done. rewrite decide_False by lia. by rewrite Hm.
Qed.

Lemma table_get_eq t (s : tstate) : is_table t →
  table_get ShortField FieldListField t s = (Ok (mk_frame (OmciGet 287 0 (table_mask t))), s).
Proof.
  intros Ht. destruct (table_frame t s Ht) as [Hc Hm]. unfold table_get. erewrite bind_ok by done. unfold get_frame. simpl mf_data.
  assert (∀ d, (match d with DSet s => DSet s | DDict m => DSet (dom m) end) = DSet {[t]} → names_of d = [t] →
    (_ ← passert (bool_decide (names_of d ≠ [])); _ ← check_operation (Omci ShortField FieldListField) OpGet;
     _ ← check_attributes (Omci ShortField FieldListField) (match d with DSet s => DSet s | DDict m => DSet (dom m) end) AA_R;
     mask ← mask_for (Omci ShortField FieldListField) (names_of d);
     mret (mk_frame (OmciGet 287 0 mask))) s = (Ok (mk_frame (OmciGet 287 0 (table_mask t))), s)) as Hgo.
  { intros d Hd Hn. rewrite Hn, Hd. rewrite (bind_ok _ _ s tt s) by done. rewrite (bind_ok _ _ s tt s) by done.
    rewrite (bind_ok _ _ s tt s Hc). by rewrite (bind_ok _ _ s _ s Hm). }
  apply Hgo.
  - case_decide; [done|]. by rewrite dom_singleton_L.
  - case_decide; [apply (set_items_singleton t)|]. simpl. by rewrite iteritems_singleton.
Qed.

Lemma table_get_next_eq t n (s : tstate) : is_table t →
  table_get_next ShortField FieldListField t n s = (Ok (mk_frame (OmciGetNext 287 0 (table_mask t) (AInt n))), s).
Proof.
  intros Ht. destruct (table_frame t s Ht) as [Hc Hm]. unfold table_get_next. erewrite bind_ok by done. unfold get_next_frame.
  erewrite bind_ok by done. rewrite (bind_ok _ _ s tt s) by (by rewrite map_size_singleton).
  rewrite (bind_ok _ _ s tt s) by done. rewrite dom_singleton_L, (bind_ok _ _ s tt s Hc). simpl.
  rewrite iteritems_singleton. simpl. rewrite (bind_ok _ _ s _ s Hm). done.
Qed.

(** The ONU has the octets [b] in a table: it tells their number and gives them
    in pieces, each with anything after it. *)
Definition answers (f : omci_request) (t : string) (P : octets → Prop) : Prop :=
  ∃ r m d, answer _ (Send (mk_frame f)) = Ok r ∧ success_code r = Some 0 ∧ r_tables r = Some m ∧ m !! t = Some d ∧ P d.

Record serves (t : string) (b : octets) : Prop := {
  serves_count : answers (OmciGet 287 0 (table_mask t)) t
    (λ d, get_count_from_data_buffer d = Some (Z.of_nat (length b)));
  serves_piece : ∀ i, (i * Z.to_nat pdu_size < length b)%nat →
    answers (OmciGetNext 287 0 (table_mask t) (AInt (Z.of_nat i))) t
      (λ d, firstn (Z.to_nat pdu_size) (skipn (i * Z.to_nat pdu_size) b) `prefix_of` d);
}.

Context (Hpdu : 0 < pdu_size).

Definition ready (s : tstate) : Prop := k_running s = true ∧ k_device s = true.

Lemma evals_device_send fr s r : k_device s = true → answer _ (Send fr) = Ok r →
  evals (device_send (mret fr)) s [OmciEntities.omci_message fr] (Ok r) s.
Proof.
  intros Hd Ha. unfold device_send. eapply evals_then.
  - unfold self_device. eapply evals_then; [done|]. rewrite Hd. apply evals_ret.
  - by apply evals_send.
Qed.

Lemma evals_piece t b i s : is_table t → serves t b → ready s → (i * Z.to_nat pdu_size < length b)%nat →
  ∃ l, evals (table_piece ShortField FieldListField t (Z.of_nat (length b)) pdu_size (Z.of_nat i)) s l
    (Ok (firstn (Z.to_nat pdu_size) (skipn (i * Z.to_nat pdu_size) b))) s.
Proof.
  intros Ht [_ Hp] [Hr Hd] Hi. destruct (Hp i Hi) as (r&m&d&Ha&Hsc&Htab&Hm&[rest ->]). eexists. unfold table_piece.
  eapply evals_then; [by apply evals_lift, table_get_next_eq|]. eapply evals_bind; [by apply evals_device_send|].
  eapply evals_then; [by apply evals_stop_if|]. rewrite Hsc. eapply evals_then; [done|].
  rewrite decide_False by (by intros []). rewrite Htab. eapply evals_then; [done|]. rewrite Hm. eapply evals_then; [done|].
  match goal with |- evals (mret ?x) _ _ (Ok ?y) _ => assert (x = y) as ->; [|apply evals_ret] end.
  set (p := firstn (Z.to_nat pdu_size) (skipn (i * Z.to_nat pdu_size) b)).
  assert (length p = Z.to_nat (if decide (Z.of_nat (length b) - Z.of_nat i * pdu_size > pdu_size) then pdu_size
    else Z.of_nat (length b) - Z.of_nat i * pdu_size)) as Hlen.
  { unfold p. rewrite length_firstn, length_skipn. case_decide; nia. }
  rewrite <-Hlen. by rewrite firstn_app, Nat.sub_diag, firstn_all, firstn_O, app_nil_r.
Qed.

Lemma evals_pieces t b s n : is_table t → serves t b → ready s → ∀ k,
  (∀ i, (k ≤ i < k + n)%nat → (i * Z.to_nat pdu_size < length b)%nat) →
  ∃ l, evals (pieces ShortField FieldListField t (Z.of_nat (length b)) pdu_size (seqZ (Z.of_nat k) (Z.of_nat n))
                (firstn (k * Z.to_nat pdu_size) b)) s l (Ok (firstn ((k + n) * Z.to_nat pdu_size) b)) s.
Proof.
  intros Ht Hsrv Hs. induction n as [|n IH]; intros k Hk.
  - exists []. rewrite Nat.add_0_r. apply evals_ret.
  - rewrite seqZ_cons by lia. cbn [pieces]. destruct (evals_piece t b k s Ht Hsrv Hs) as [l1 H1]; [apply Hk; lia|].
    destruct (IH (S k)) as [l2 H2]; [intros i Hi; apply Hk; lia|]. exists (l1 ++ l2). eapply evals_bind; [exact H1|].
    replace (k + S n)%nat with (S k + n)%nat by lia.
    replace (Z.succ (Z.of_nat k)) with (Z.of_nat (S k)) by lia. replace (Z.pred (Z.of_nat (S n))) with (Z.of_nat n) by lia.
    replace (firstn (k * Z.to_nat pdu_size) b ++ firstn (Z.to_nat pdu_size) (skipn (k * Z.to_nat pdu_size) b))
      with (firstn (S k * Z.to_nat pdu_size) b); [done|].
    rewrite take_take_drop. f_equal. lia.
Qed.

Lemma evals_get_table t b s : is_table t → serves t b → ready s →
  ∃ l, evals (get_table ShortField FieldListField pdu_size t) s l (Ok b) s.
Proof.
  intros Ht Hsrv Hs. destruct Hs as [Hr Hd]. pose proof (serves_count _ _ Hsrv) as (r&m&d&Ha&Hsc&Htab&Hm&Hc).
  set (n := Z.to_nat (num_pieces (Z.of_nat (length b)) pdu_size)).
  assert (0 ≤ num_pieces (Z.of_nat (length b)) pdu_size) as Hn0 by (apply Z.div_pos; lia).
  assert (num_pieces (Z.of_nat (length b)) pdu_size = Z.of_nat n) as Hn by lia.
  pose proof (Z.mul_div_le (Z.of_nat (length b) + pdu_size - 1) pdu_size Hpdu) as Hlo.
  pose proof (Z.mul_succ_div_gt (Z.of_nat (length b) + pdu_size - 1) pdu_size Hpdu) as Hhi.
  unfold num_pieces in Hn. rewrite Hn in Hlo, Hhi.
  destruct (evals_pieces t b s n Ht Hsrv (conj Hr Hd) 0) as [l Hl].
  { intros i Hi. apply Nat2Z.inj_lt. rewrite Nat2Z.inj_mul, Z2Nat.id by lia. assert (Z.of_nat i + 1 ≤ Z.of_nat n) by lia. nia. }
  eexists. unfold get_table.
  eapply evals_then; [by apply evals_lift, table_get_eq|]. eapply evals_bind; [by apply evals_device_send|].
  eapply evals_then; [by apply evals_stop_if|]. rewrite Hsc. eapply evals_then; [done|]. rewrite decide_False by (by intros []).
  rewrite Htab. eapply evals_then; [done|]. rewrite Hm. eapply evals_then; [done|]. rewrite Hc. eapply evals_then; [done|].
  unfold zrange, num_pieces. rewrite Hn. change (firstn (0 * Z.to_nat pdu_size) b) with (@nil byte) in Hl.
  rewrite (firstn_all2 b) in Hl; [exact Hl|].
  apply Nat2Z.inj_le. rewrite Nat2Z.inj_mul, Z2Nat.id by lia. nia.
Qed.

(** Class identifiers as octets. *)
Definition octet_of (n : Z) : byte := default x00 (Byte.of_N (Z.to_N n)).
Definition encode_ids (ids : list Z) : octets := flat_map (λ i, [octet_of (i / 256); octet_of (i mod 256)]) ids.

Lemma octet_of_value n : 0 ≤ n < 256 → octet_value (octet_of n) = n.
Proof.
  intros Hn. unfold octet_value, octet_of. destruct (Byte.of_N (Z.to_N n)) as [b|] eqn:Hb.
  - apply Byte.to_of_N in Hb. simpl. lia.
  - apply Byte.of_N_None_iff in Hb. lia.
Qed.

Lemma me_types_encode ids : Forall (λ i, 0 ≤ i ≤ 65535) ids → me_types (encode_ids ids) = Some ids.
Proof.
  induction 1 as [|i ids Hi _ IH]; [done|]. simpl. fold (encode_ids ids). rewrite IH. simpl.
  rewrite !octet_of_value by (split; first [apply Z.div_pos; lia|apply Z.div_lt_upper_bound; lia|apply Z.mod_pos_bound; lia]).
  rewrite Z.shiftl_mul_pow2 by done. do 2 f_equal. pose proof (Z.div_mod i 256). lia.
Qed.

Lemma no_message_types b : omap (λ v, buffer_to_message_type (octet_value v)) b = [].
Proof. by induction b. Qed.

(** The entity classes that an ONU reports in pieces of the size of a
    message are put together without loss; the message types it reports are
    lost. *)
Theorem capabilities_roundtrip ids types :
  Forall (λ i, 0 ≤ i ≤ 65535) ids → ids ≠ [] →
  serves "me_type_table" (encode_ids ids) → serves "message_type_table" types →
  ∃ l s, run_with (perform CCaps (fresh_task CCaps)) = (l, Ok tt, s) ∧
    fired_with (OCaps (Some (list_to_set ids)) None) s.
Proof.
  intros Hids Hne H1 H2. set (s0 := fresh_task CCaps).
  destruct (evals_get_table "me_type_table" _ s0 (or_introl eq_refl) H1 (conj eq_refl eq_refl)) as [l1 Hl1].
  set (s1 := s0 <| k_entities := Some (list_to_set ids) |>).
  destruct (evals_get_table "message_type_table" _ s1 (or_intror eq_refl) H2 (conj eq_refl eq_refl)) as [l2 Hl2].
  destruct (evals_callback (OCaps (Some (list_to_set ids)) None) (s1 <| k_msg_types := Some ∅ |>)) as (s2&Hcb&Hf); [reflexivity|].
  exists (l1 ++ l2), s2. split; [|done]. change (evals (perform CCaps) s0 (l1 ++ l2) (Ok tt) s2). apply evals_try.
  apply (evals_bind _ _ _ _ (Some (list_to_set ids)) s0).
  { apply evals_try. rewrite <-(app_nil_r l1). eapply evals_bind; [exact Hl1|]. rewrite me_types_encode by done. done. }
  eapply evals_then; [done|]. eapply evals_then; [by apply evals_stop_if|]. rewrite <-(app_nil_r l2).
  apply (evals_bind _ _ _ _ (Some ∅) s1).
  { apply evals_try. rewrite <-(app_nil_r l2). eapply evals_bind; [exact Hl2|]. by rewrite no_message_types. }
  eapply evals_then; [done|]. eapply evals_then; [by apply evals_stop_if|]. do 2 (eapply evals_then; [done|]).
  do 2 (eapply evals_then; [done|]). rewrite decide_False; [exact Hcb|].
  intros Heq. destruct ids as [|i ids]; [done|]. assert (i ∈ (∅ : gset Z)) as Hi by (rewrite <-Heq; set_solver). set_solver.
Qed.
End run.
End tasks.

(** ** A sample ONU *)
Section sample.
Local Existing Instance plain_order.
#[local] Instance sample_promise : Promise outcome := plain_promise outcome.
#[local] Instance sample_promise_laws : PromiseLaws outcome := plain_promise_laws outcome.
#[local] Instance sample_task_json : Json := {| loads := λ _, None; dumps := λ _, "" |}.

Definition list_field (name : string) (d : aval) : field :=
  Fld name "FieldListField" d (λ _, raise TypeError) (raise TypeError).

Definition sample_ids : list Z := [2; 256; 65535].
Definition sample_types : octets := [x04; x05; x06].
Definition sample_table (mask : Z) : string * octets :=
  if decide (mask = table_mask "me_type_table") then ("me_type_table", encode_ids sample_ids)
  else ("message_type_table", sample_types).

Definition success : reply := Reply (Some 0) None None None None None None None.

(** It reports three classes and three message types, four octets at a time
    and padded, and announces two instances. *)
Definition sample_reply (f : omci_request) : reply :=
  match f with
  | OmciMibUpload _ _ => success <| number_of_commands := Some 2 |>
  | OmciGet _ _ mask =>
      let '(t, b) := sample_table mask in
      success <| r_tables := Some {[t := [x00; x00; x00; octet_of (Z.of_nat (length b))]]} |>
  | OmciGetNext _ _ mask (AInt i) =>
      let '(t, b) := sample_table mask in
      success <| r_tables := Some {[t := firstn 4 (skipn (Z.to_nat i * 4) b) ++ [x00; x00]]} |>
  | _ => success
  end.

Definition sample_answer (X : Type) (w : wait X) : X :=
  match w in wait Y return Y with
  | Send f => Ok (sample_reply (OmciEntities.omci_message f))
  | Asleep _ => tt
  | GetDevice => Ok tt
  | Enabled => true
  | QueryMib => Err KeyError
  | SharedAttributes => ∅
  | MeMap => Ok ∅
  | NextTurn => tt
  end.

Definition wanted (class_id entity_id : Z) : gset string := {["alloc_id"; "policy"]}.
Definition no_entities : string → result (gmap Z entity) := λ _, Ok ∅.

Local Abbreviation sample_perform := (perform "onu" no_entities 0 short_field list_field (λ _, Tcont) wanted 4).
Local Abbreviation sample_task := (fresh_task "onu" 0).

Lemma sample_serves t b : (t = "me_type_table" ∧ b = encode_ids sample_ids) ∨ (t = "message_type_table" ∧ b = sample_types) →
  serves 4 sample_answer t b.
Proof.
  intros Ht. split.
  - destruct Ht as [[-> ->]|[-> ->]]; unfold answers; do 3 eexists; do 4 (split; [vm_compute; reflexivity|]); reflexivity.
  - intros i Hi. assert (i = 0 ∨ i = 1)%nat as Hi2.
    { destruct Ht as [[-> ->]|[-> ->]]; cbv [Z.to_nat Pos.to_nat Pos.iter_op Nat.add] in Hi; simpl in Hi; lia. }
    destruct Ht as [[-> ->]|[-> ->]], Hi2 as [-> | ->]; (do 3 eexists; do 4 (split; [vm_compute; reflexivity|]));
      first [by exists [x00; x00]|vm_compute in Hi; lia].
Qed.


Lemma upload_asks_all_witness : ∃ s,
  run_with sample_answer (sample_perform CUpload (sample_task CUpload)) =
    ([OmciMibReset 2 0; OmciMibUpload 2 0; OmciMibUploadNext 2 0 (AInt 0); OmciMibUploadNext 2 0 (AInt 1)], Ok tt, s) ∧
  fired_with OText s.
Proof.
  apply (upload_asks_all "onu" no_entities 0 short_field list_field (λ _, Tcont) wanted 4 sample_answer
    (λ _ _, conj eq_refl eq_refl) 2 success (success <| number_of_commands := Some 2 |>)); try reflexivity; [lia|].
  intros i Hi. by eexists.
Defined.

Lemma capabilities_roundtrip_witness : ∃ l s,
  run_with sample_answer (sample_perform CCaps (sample_task CCaps)) = (l, Ok tt, s) ∧
  fired_with (OCaps (Some (list_to_set [2; 256; 65535])) None) s.
Proof.
  apply (capabilities_roundtrip "onu" no_entities 0 short_field list_field (λ _, Tcont) wanted 4 sample_answer
    (λ _ _, conj eq_refl eq_refl) (λ _ _, eq_refl) eq_refl sample_ids sample_types).
  - repeat constructor; lia.
  - discriminate.
  - apply sample_serves. by left.
  - apply sample_serves. by right.
Defined.

Lemma stopped_is_silent_witness :
  wp sends_running (may_stop CUpload) (λ _ _, True) (sample_perform CUpload (sample_task CUpload)).
Proof.
  apply (stopped_is_silent "onu" no_entities 0 short_field list_field (λ _, Tcont) wanted 4 CUpload). discriminate.
Defined.

(** A run in which the task may be stopped at each wait: whether a frame is
    sent after that. *)
Fixpoint sends_stopped {A} (answer : ∀ X, wait X → X) (c : client) (stops : list bool) (m : task_run A) {struct m} : bool :=
  match m with
  | Done _ _ => false
  | Wait w s k =>
      let late := match w with Send _ => negb (k_running s) | _ => false end in
      match stops with
      | [] => late
      | stop :: stops =>
          let s' := match w with Send _ | Asleep _ | NextTurn => if stop : bool then stopped_task c s else s | _ => s end in
          late || sends_stopped answer c stops (k (answer _ w) s')
      end
  end.

Lemma silent_run {A} answer c (Q : result A → tstate → Prop) m : wp sends_running (may_stop c) Q m →
  ∀ stops, sends_stopped answer c stops m = false.
Proof.
  induction m as [r s|X w s k IH]; simpl; [done|]. intros [HG HR] stops.
  assert (match w with Send _ => negb (k_running s) | _ => false end = false) as Hl
    by (unfold sends_running in HG; destruct w; try done; by rewrite HG).
  destruct stops as [|b stops]; [done|]. rewrite Hl. simpl. apply IH, HR. unfold may_stop. destruct w, b; auto.
Qed.

(** A get request that was stopped goes on: the exception it would raise is
    not imported, and what is raised instead is swallowed for each attribute. *)
Lemma stopped_get_sends :
  ¬ wp sends_running (may_stop (CGet 262 5)) (λ _ _, True) (sample_perform (CGet 262 5) (sample_task (CGet 262 5))).
Proof.
  intros H. apply (silent_run (λ X w, match w with Send _ => Ok (success <| attributes_mask := Some 0 |>) | w => sample_answer _ w end))
    with (stops := [false; false; true]) in H.
  vm_compute in H. discriminate H.
Qed.
End sample.
