(* ===== verification/OmciCC.v ===== *)
(** * The OMCI communication channel

    [OMCI_CC] of src/voltha/extensions/omci/omci_cc.py: it gives transaction
    identifiers to requests, keeps those that are not yet answered, matches the
    frames that an ONU sends with them, publishes what arrives and counts.

    The reactor's part is explicit: the calls it has been asked to make in its
    next turn and the timeouts it has been asked to watch.  scapy's encoding
    and decoding of frames, the queues and Deferreds of Twisted, the adapter
    agent and the clock are parameters; times are in microseconds. *)
From S2P Require Import Prelude MibDb OmciEntities OmciTasks.
From stdpp Require Import base gmap list strings sorting.
From Stdlib Require Import ZArith Lia.
From Stdlib.Strings Require Import Byte.

Local Open Scope Z_scope.

(** ** Frames received *)
Record rx_frame := RxFrame {
  rx_tid : Z;
  rx_message_type : Z;
  rx_message_id : Z;
  rx_body : reply;
}.

(** ** Events *)
Inductive OmciCCRxEvents :=
  | AVC_Notification | MIB_Upload | MIB_Upload_Next | Create | Delete | SetE | Alarm_Notification | Test_Result
  | MIB_Reset | Connectivity.
#[export] Instance rx_event_eq_dec : EqDecision OmciCCRxEvents.
Proof. solve_decision. Defined.

Definition event_name (e : OmciCCRxEvents) : string :=
  match e with
  | AVC_Notification => "AVC_Notification"
  | MIB_Upload => "MIB_Upload"
  | MIB_Upload_Next => "MIB_Upload_Next"
  | Create => "Create"
  | Delete => "Delete"
  | SetE => "Set"
  | Alarm_Notification => "Alarm_Notification"
  | Test_Result => "Test_Result"
  | MIB_Reset => "MIB_Reset"
  | Connectivity => "Connectivity"
  end.

Definition event_bus_topic (device_id : string) (event : OmciCCRxEvents) : string :=
  "omci-rx:" +:+ device_id +:+ ":" +:+ event_name event.

(** [_frame_to_event_type], by the [message_id] of the response classes *)
Definition frame_to_event_type (message_id : Z) : option OmciCCRxEvents :=
  if decide (message_id = 0x2f) then Some MIB_Reset
  else if decide (message_id = 0x2d) then Some MIB_Upload
  else if decide (message_id = 0x2e) then Some MIB_Upload_Next
  else if decide (message_id = 0x24) then Some Create
  else if decide (message_id = 0x26) then Some Delete
  else if decide (message_id = 0x28) then Some SetE
  else None.

Inductive bus_msg :=
  | Exchange (tx : option omci_frame) (rx : rx_frame)
  | Connected (connected : bool).

(** ** Parameters *)

(** Twisted's [DeferredQueue] of a given size: [put] is [None] for
    [QueueOverflow]; [get] returns a Deferred. *)
Class DeferredQueues := {
  dqueue : Type;
  dq_item : Type;
  DeferredQueue : Z → dqueue;
  dq_put : rx_frame * Z → dqueue → option dqueue;
  dq_get : dqueue → dq_item * dqueue;
}.

(** The adapter agent: the proxy address of a device, and sending a frame in
    hexadecimal.  scapy: encoding a request, decoding a frame and encoding it
    again, with the classes of [entity_id_to_class_map]. *)
Class Channel := {
  address : Type;
  get_device : string → result address;
  send_proxied_message : address → string → result unit;
  hexify_str : gmap Z entity_class → omci_frame → result string;
  dissect : gmap Z entity_class → octets → result rx_frame;
  rebuild : gmap Z entity_class → rx_frame → result unit;
}.

(** ** State *)
Section cc.
Context {HO : DictOrder} {HQ : DeferredQueues} {HC : Channel} {HPr : Promise (result rx_frame)}.

(** An entry of [_requests]; the Deferred is an object. *)
Record request := Request {
  rq_ts : Z;
  rq_deferred : nat;
  rq_frame : omci_frame;
  rq_timeout : Z;
}.

(** A Deferred that [send] made: the argument of its errback, its timeout and
    its state. *)
Record cc_deferred := CCDeferred {
  cd_tid : Z;
  cd_timeout : Z;
  cd_state : dfr_state (result rx_frame);
}.

(** The calls made with [reactor.callLater(0, ...)] *)
Inductive cc_call :=
  | CPublish (topic : string) (m : bus_msg)
  | CCallback (d : nat) (f : rx_frame)
  | CPublishRx (tx : omci_frame) (rx : rx_frame)
  | CPublishConnectivity (connected : bool).

Record omci_cc := OMCI_CC {
  cc_device_id : string;
  cc_me_map : gmap Z entity_class;
  proxy_address : option address;
  tx_tid : Z;
  enabled : bool;
  requests : gmap Z request;
  alarm_queue : option dqueue;
  avc_queue : option dqueue;
  test_results_queue : option dqueue;
  tx_frames : Z;
  rx_frames : Z;
  rx_unknown_tid : Z;
  rx_onu_frames : Z;
  rx_alarm_overflow : Z;
  rx_avc_overflow : Z;
  rx_onu_discards : Z;
  rx_timeouts : Z;
  rx_unknown_me : Z;
  tx_errors : Z;
  consecutive_errors : Z;
  reply_min : Z;
  reply_max : Z;
  reply_sum : Z;
  (** [omci_entities.entity_id_to_class_map], a global *)
  entity_id_to_class_map : gmap Z entity_class;
  (** the Deferreds made so far, the calls and timeouts that the reactor has
      yet to run, all calls it was asked to make, and what was published *)
  deferreds : list cc_deferred;
  cc_calls : list cc_call;
  cc_timers : list nat;
  scheduled : list cc_call;
  published : list (string * bus_msg);
}.

#[export] Instance omci_cc_eta : Eta omci_cc := λ s,
  OMCI_CC (cc_device_id s) (cc_me_map s) (proxy_address s) (tx_tid s) (enabled s) (requests s) (alarm_queue s)
    (avc_queue s) (test_results_queue s) (tx_frames s) (rx_frames s) (rx_unknown_tid s) (rx_onu_frames s)
    (rx_alarm_overflow s) (rx_avc_overflow s) (rx_onu_discards s) (rx_timeouts s) (rx_unknown_me s) (tx_errors s)
    (consecutive_errors s) (reply_min s) (reply_max s) (reply_sum s) (entity_id_to_class_map s) (deferreds s)
    (cc_calls s) (cc_timers s) (scheduled s) (published s).

Definition MAX_INCOMING_ALARM_MESSAGES : Z := 256.
Definition MAX_INCOMING_TEST_RESULT_MESSAGES : Z := 64.
Definition DEFAULT_OMCI_TIMEOUT : Z := 3.
Definition MAX_OMCI_REQUEST_AGE : Z := 60.
Definition MAX_OMCI_TX_ID : Z := 0xFFFF.
Definition UNKNOWN_CLASS_ATTRIBUTE_KEY : string := "voltha-unknown-blob".

Definition usecs (seconds : Z) : Z := 1000000 * seconds.
Definition maxint : Z := 2 ^ 63 - 1.

(** [OMCI_CC(adapter_agent, device_id, me_map)] with the default sizes;
    [classes] is the global map. *)
Definition init (device_id : string) (me_map classes : gmap Z entity_class) : omci_cc :=
  OMCI_CC device_id me_map None 1 false ∅
    (Some (DeferredQueue MAX_INCOMING_ALARM_MESSAGES)) (Some (DeferredQueue MAX_INCOMING_ALARM_MESSAGES))
    (Some (DeferredQueue MAX_INCOMING_TEST_RESULT_MESSAGES))
    0 0 0 0 0 0 0 0 0 0 0 (usecs maxint) 0 0 classes [] [] [] [] [].

Definition call_later (c : cc_call) : M omci_cc unit :=
  modify (λ s, s <| cc_calls ::= λ l, l ++ [c] |> <| scheduled ::= λ l, l ++ [c] |>).

Definition publish (topic : string) (m : bus_msg) : M omci_cc unit :=
  modify (λ s, s <| published ::= λ l, l ++ [(topic, m)] |>).

(** ** Requests *)

(** [flush] contains [yield] and is not decorated: a call only makes a
    generator, which nobody iterates over, and none of its body runs. *)
Definition flush (max_age : Z) : M omci_cc unit := mret tt.

Definition get_tx_tid : M omci_cc Z :=
  t ← gets tx_tid;
  _ ← modify (λ s, s <| tx_tid := if decide (t + 1 > MAX_OMCI_TX_ID) then 1 else t + 1 |>);
  mret t.

(** [self._tx_errors] aside, what a failed exchange does. *)
Definition count_error : M omci_cc unit :=
  _ ← modify (λ s, s <| consecutive_errors ::= Z.add 1 |>);
  n ← gets consecutive_errors;
  if decide (n = 1) then call_later (CPublishConnectivity false) else mret tt.

(** What the errback makes of a failure: [trap] raises it again unless it is a
    [CancelledError]. *)
Definition request_failure (value : exn) (tid : Z) : M omci_cc exn :=
  _ ← modify (λ s, s <| requests ::= delete tid |>);
  if decide (value ≠ CancelledError) then mret value
  else
    _ ← modify (λ s, s <| rx_timeouts ::= Z.add 1 |>);
    _ ← count_error;
    mret TimeoutError.

Definition request_success (f : rx_frame) : rx_frame := f.

(** [d.cancel()]: a Deferred that has not fired fails with [CancelledError],
    which goes through the errback; then its timeout is no longer watched. *)
Definition set_deferred (d : nat) (x : dfr_state (result rx_frame)) : M omci_cc unit :=
  modify (λ s, s <| deferreds ::= alter (λ c, CCDeferred (cd_tid c) (cd_timeout c) x) d |>
                 <| cc_timers ::= filter (λ e, e ≠ d) |>).

Definition d_cancel (d : nat) : M omci_cc unit :=
  ds ← gets deferreds;
  match ds !! d with
  | None => mret tt
  | Some c =>
      match result_of (cd_state c) with
      | Some _ => mret tt
      | None =>
          e ← request_failure CancelledError (cd_tid c);
          set_deferred d (cancel_with (Err e) (cd_state c))
      end
  end.

(** [d.callback(rx_frame)], a call of the reactor *)
Definition callback (d : nat) (f : rx_frame) : M omci_cc unit :=
  ds ← gets deferreds;
  match ds !! d with
  | None => mret tt
  | Some c =>
      x ← from_some AlreadyCalledError (fire_with (Ok (request_success f)) (cd_state c));
      set_deferred d x
  end.

(** The timeout of a request, which the reactor runs once. *)
Definition time_out (d : nat) : M omci_cc unit :=
  l ← gets cc_timers;
  if decide (d ∈ l) then
    _ ← modify (λ s, s <| cc_timers ::= filter (λ e, e ≠ d) |>);
    d_cancel d
  else mret tt.

(** The global map of classes is replaced while [m] runs. *)
Definition with_me_map {A} (m : M omci_cc A) : M omci_cc A :=
  saved ← gets entity_id_to_class_map;
  own ← gets cc_me_map;
  _ ← modify (λ s, s <| entity_id_to_class_map := own |>);
  try_finally m (modify (λ s, s <| entity_id_to_class_map := saved |>)).

(** A Deferred that has failed already, or the one made. *)
Definition sent : Type := exn + nat.

Definition send_frame (frame : omci_frame) (tid timeout now : Z) : M omci_cc nat :=
  rs ← gets requests;
  _ ← passert (bool_decide (rs !! tid = None));
  _ ← passert (bool_decide (tid >= 0));
  _ ← with_me_map (
        classes ← gets entity_id_to_class_map;
        msg ← lift (hexify_str classes frame);
        a ← gets proxy_address;
        a ← from_some TypeError a;
        lift (send_proxied_message a msg));
  _ ← modify (λ s, s <| tx_frames ::= Z.add 1 |>);
  d ← gets (λ s, length (deferreds s));
  _ ← modify (λ s, s <| deferreds ::= λ l, l ++ [CCDeferred tid timeout Pending] |>
                     <| requests ::= <[tid := Request now d frame timeout]> |>);
  _ ← (if decide (timeout > 0) then modify (λ s, s <| cc_timers ::= λ l, l ++ [d] |>) else mret tt);
  mret d.

(** [send] also writes the transaction identifier in the frame, which is the
    caller's object: it is returned as it is after the call. *)
Definition send (frame : omci_frame) (timeout now : Z) : M omci_cc (sent * omci_frame) :=
  _ ← flush MAX_OMCI_REQUEST_AGE;
  _ ← passert (bool_decide (timeout <= MAX_OMCI_REQUEST_AGE));
  en ← gets enabled;
  a ← gets proxy_address;
  match en, a with
  | true, Some _ =>
      tid ← match transaction_id frame with None => get_tx_tid | Some t => mret t end;
      let frame := OmciFrame (Some tid) (message_type frame) (omci_message frame) in
      r ← try_except (d ← send_frame frame tid timeout now; mret (inr d))
            (λ e,
              _ ← modify (λ s, s <| tx_errors ::= Z.add 1 |>);
              _ ← count_error;
              mret (inl e));
      mret (r, frame)
  | _, _ => mret (inl GenericException, frame)
  end.

(** ** Enabling *)
Definition start_ : M omci_cc unit :=
  en ← gets enabled;
  _ ← passert en;
  _ ← flush 0;
  dev ← gets cc_device_id;
  a ← lift (get_device dev);
  modify (λ s, s <| proxy_address := Some a |>).

Definition stop_ : M omci_cc unit :=
  en ← gets enabled;
  _ ← passert (negb en);
  _ ← flush 0;
  modify (λ s, s <| proxy_address := None |> <| alarm_queue := None |> <| avc_queue := None |>
                 <| test_results_queue := None |>).

Definition set_enabled (value : bool) : M omci_cc unit :=
  en ← gets enabled;
  if decide (en = value) then mret tt
  else
    _ ← modify (λ s, s <| enabled := value |>);
    if value then start_ else stop_.

(** [get_alarm_message], [get_avc_message] and [get_test_results] *)
Definition get_alarm_message : M omci_cc dq_item :=
  q ← gets alarm_queue;
  q ← from_some AttributeError q;
  let '(d, q) := dq_get q in
  _ ← modify (λ s, s <| alarm_queue := Some q |>);
  mret d.

Definition get_avc_message : M omci_cc dq_item :=
  q ← gets avc_queue;
  q ← from_some AttributeError q;
  let '(d, q) := dq_get q in
  _ ← modify (λ s, s <| avc_queue := Some q |>);
  mret d.

Definition get_test_results : M omci_cc dq_item :=
  q ← gets test_results_queue;
  q ← from_some AttributeError q;
  let '(d, q) := dq_get q in
  _ ← modify (λ s, s <| test_results_queue := Some q |>);
  mret d.

(** ** Reception *)
Definition later_publish (event : OmciCCRxEvents) (f : rx_frame) : M omci_cc unit :=
  dev ← gets cc_device_id;
  call_later (CPublish (event_bus_topic dev event) (Exchange None f)).

Definition receive_onu_message (f : rx_frame) (now : Z) : M omci_cc unit :=
  classes ← gets entity_id_to_class_map;
  _ ← lift (rebuild classes f);
  _ ← modify (λ s, s <| rx_onu_frames ::= Z.add 1 |>);
  let msg_type := rx_message_type f in
  if decide (msg_type = op_value OpAlarmNotification) then
    _ ← later_publish Alarm_Notification f;
    q ← gets alarm_queue;
    q ← from_some AttributeError q;
    match dq_put (f, now) q with
    | Some q => modify (λ s, s <| alarm_queue := Some q |>)
    | None => modify (λ s, s <| rx_alarm_overflow ::= Z.add 1 |>)
    end
  else if decide (msg_type = op_value OpAttributeValueChange) then
    _ ← later_publish AVC_Notification f;
    q ← gets alarm_queue;
    q ← from_some AttributeError q;
    match dq_put (f, now) q with
    | Some q => modify (λ s, s <| alarm_queue := Some q |>)
    | None => modify (λ s, s <| rx_avc_overflow ::= Z.add 1 |>)
    end
  else if decide (msg_type = op_value OpTestResult) then
    _ ← later_publish Test_Result f;
    q ← gets test_results_queue;
    q ← from_some AttributeError q;
    match dq_put (f, now) q with
    | Some q => modify (λ s, s <| test_results_queue := Some q |>)
    | None => mret tt
    end
  else modify (λ s, s <| rx_onu_discards ::= Z.add 1 |>).

(** [unpack('!H', msg[i:i + 2])[0]] *)
Definition unpack_H (msg : octets) (i : nat) : option Z :=
  match firstn 2 (skipn i msg) with
  | [h; l] => Some (256 * octet_value h + octet_value l)
  | _ => None
  end.

Definition hex_digit (n : Z) : string :=
  match n with
  | 0 => "0" | 1 => "1" | 2 => "2" | 3 => "3" | 4 => "4" | 5 => "5" | 6 => "6" | 7 => "7" | 8 => "8" | 9 => "9"
  | 10 => "a" | 11 => "b" | 12 => "c" | 13 => "d" | 14 => "e" | _ => "f"
  end.
Definition hexlify (b : octets) : string :=
  String.concat "" ((λ x, hex_digit (octet_value x / 16) +:+ hex_digit (octet_value x mod 16)) <$> b).

(** [msg[a:-4]] *)
Definition upto_last4 (a : nat) (msg : octets) : octets := skipn a (firstn (length msg - 4) msg).

Definition OmciMibUploadNextResponse_message_id : Z := 0x2e.

Definition decode_unknown_me (msg : octets) : M omci_cc rx_frame :=
  match firstn 4 msg with
  | [t1; t0; ty; framing] =>
      let tid := 256 * octet_value t1 + octet_value t0 in
      let msg_type := octet_value ty in
      _ ← passert (bool_decide (octet_value framing = 0xa));
      let msg := skipn 4 msg in
      _ ← from_some StructError (unpack_H msg 0);
      _ ← from_some StructError (unpack_H msg 2);
      oc ← from_some StructError (unpack_H msg 4);
      oi ← from_some StructError (unpack_H msg 6);
      _ ← from_some StructError (unpack_H msg 8);
      if decide (msg_type = OmciMibUploadNextResponse_message_id) then
        mret (RxFrame tid msg_type OmciMibUploadNextResponse_message_id
                (Reply None None (Some oc) (Some oi)
                   (Some {[UNKNOWN_CLASS_ATTRIBUTE_KEY := Plain (AStr (hexlify (upto_last4 10 msg)))]}) None None None))
      else raise TypeError
  | _ => raise StructError
  end.

(** Decoding a frame: [None] when nothing is left to do. *)
Definition decode_frame (msg : octets) (now : Z) : M omci_cc (option rx_frame) :=
  with_me_map (
    try_except
      (classes ← gets entity_id_to_class_map;
       f ← lift (dissect classes msg);
       if decide (rx_tid f = 0) then _ ← receive_onu_message f now; mret None
       else
         n ← gets rx_frames;
         errors ← gets consecutive_errors;
         _ ← (if decide (n = 0 ∨ errors ≠ 0) then call_later (CPublishConnectivity true) else mret tt);
         _ ← modify (λ s, s <| rx_frames ::= Z.add 1 |> <| consecutive_errors := 0 |>);
         mret (Some f))
      (λ e,
        if decide (e = KeyError) then
          f ← decode_unknown_me msg;
          _ ← modify (λ s, s <| rx_unknown_me ::= Z.add 1 |>);
          mret (Some f)
        else mret None)).

Definition receive_message (msg : octets) (now : Z) : M omci_cc unit :=
  en ← gets enabled;
  if (en : bool) then
    swallow (
      o ← decode_frame msg now;
      match o with
      | None => mret tt
      | Some f =>
          rs ← gets requests;
          match rs !! rx_tid f with
          | None => modify (λ s, s <| rx_unknown_tid ::= Z.add 1 |>)
          | Some r =>
              let secs := now - rq_ts r in
              _ ← modify (λ s,
                    s <| requests ::= delete (rx_tid f) |> <| reply_sum ::= Z.add secs |>
                      <| reply_min ::= Z.min secs |> <| reply_max ::= Z.max secs |>);
              _ ← call_later (CCallback (rq_deferred r) f);
              call_later (CPublishRx (rq_frame r) f)
          end
      end)
  else mret tt.

Definition publish_rx_frame (tx : omci_frame) (rx : rx_frame) : M omci_cc unit :=
  en ← gets enabled;
  if (en : bool) then
    match frame_to_event_type (rx_message_id rx) with
    | Some event => dev ← gets cc_device_id; publish (event_bus_topic dev event) (Exchange (Some tx) rx)
    | None => mret tt
    end
  else mret tt.

Definition publish_connectivity_event (connected : bool) : M omci_cc unit :=
  en ← gets enabled;
  if (en : bool) then dev ← gets cc_device_id; publish (event_bus_topic dev Connectivity) (Connected connected)
  else mret tt.

(** The reactor makes the [i]-th call it was asked for. *)
Definition run_call (i : nat) : M omci_cc unit :=
  l ← gets cc_calls;
  match l !! i with
  | None => mret tt
  | Some c =>
      _ ← modify (λ s, s <| cc_calls ::= delete i |>);
      match c with
      | CPublish topic m => publish topic m
      | CCallback d f => callback d f
      | CPublishRx tx rx => publish_rx_frame tx rx
      | CPublishConnectivity b => publish_connectivity_event b
      end
  end.

(** ** Shortcuts *)
Section shortcuts.
Context (ShortField ByteField : string → aval → field) (StrFixedLenField BitField : string → aval → Z → field).

(** [OntG] of omci_entities.py *)
Definition OntG : entity_class :=
  EntityClass 256
    [ ECA (ShortField "managed_entity_id" ANone) [AA_R] (Some (λ v, bool_decide (v = AInt 0)));
      ECA (StrFixedLenField "vendor_id" ANone 4) [AA_R] None;
      ECA (StrFixedLenField "version" ANone 14) [AA_R] None;
      ECA (StrFixedLenField "serial_number" ANone 8) [AA_R] None;
      ECA (ByteField "traffic_management_options" ANone) [AA_R] (Some (int_upto 2));
      ECA (ByteField "vp_vc_cross_connection_option" (AInt 0)) [AA_R] None;
      ECA (ByteField "battery_backup" ANone) [AA_R; AA_W] (Some (int_upto 1));
      ECA (ByteField "administrative_state" ANone) [AA_R; AA_W] (Some (int_upto 1));
      ECA (ByteField "operational_state" ANone) [AA_R] (Some (int_upto 1));
      ECA (ByteField "ont_survival_time" ANone) [AA_R] None;
      ECA (StrFixedLenField "logical_onu_id" ANone 24) [AA_R] None;
      ECA (StrFixedLenField "logical_password" ANone 12) [AA_R] None;
      ECA (ByteField "credentials_status" ANone) [AA_R; AA_W] (Some (int_upto 4));
      ECA (BitField "extended_tc_layer_options" ANone 16) [AA_R] None ]
    [ OpGet; OpSet; OpReboot; OpTest; OpSynchronizeTime ] [].

(** Without attributes: a reboot has none. *)
Definition ont_g_frame : M omci_cc me_frame := init_frame OntG 0 (DSet ∅).

Definition send_mib_reset (timeout now : Z) : M omci_cc (sent * omci_frame) :=
  f ← (f ← ont_data_frame ShortField None None None; mib_reset_frame f); send f timeout now.
Definition send_mib_upload (timeout now : Z) : M omci_cc (sent * omci_frame) :=
  f ← (f ← ont_data_frame ShortField None None None; mib_upload_frame f); send f timeout now.
Definition send_mib_upload_next (seq_no timeout now : Z) : M omci_cc (sent * omci_frame) :=
  f ← (f ← ont_data_frame ShortField None (Some seq_no) None; mib_upload_next_frame f); send f timeout now.
Definition send_reboot (timeout now : Z) : M omci_cc (sent * omci_frame) :=
  f ← (f ← ont_g_frame; reboot_frame f); send f timeout now.
End shortcuts.

(** ** Steps

    What the owner of the channel, the ONU and the reactor can do. *)
Inductive action :=
  | ASetEnabled (value : bool)
  | ASend (frame : omci_frame) (timeout now : Z)
  | AReceive (msg : octets) (now : Z)
  | ACall (i : nat)
  | ATimeOut (d : nat)
  | ACancel (d : nat).

Definition act (a : action) : M omci_cc unit :=
  match a with
  | ASetEnabled v => set_enabled v
  | ASend f t now => _ ← send f t now; mret tt
  | AReceive msg now => receive_message msg now
  | ACall i => run_call i
  | ATimeOut d => time_out d
  | ACancel d => d_cancel d
  end.

Inductive reachable (dev : string) (me_map classes : gmap Z entity_class) : omci_cc → Prop :=
  | r_init : reachable dev me_map classes (init dev me_map classes)
  | r_act s a : reachable dev me_map classes s → reachable dev me_map classes (act a s).2.
End cc.
