(* ===== verification/OmciCCProofs.v ===== *)
(** * What the OMCI channel guarantees

    In every state that OmciCC.v can reach: a Deferred fires at most once, with
    the response that has its transaction identifier or with a timeout; each
    unanswered request that has a timeout is watched; identifiers stay in their
    range and do not repeat for 65535 requests; the changes of connectivity
    that are announced alternate; the global map of classes is always put
    back. *)
From S2P Require Import Prelude MibDb OmciEntities OmciTasks OmciTasksProofs OmciCC.
From stdpp Require Import base gmap list strings sorting.
From Stdlib Require Import ZArith Lia.
From Stdlib.Strings Require Import Byte.

Local Open Scope Z_scope.

Ltac follows_step tac :=
  lazymatch goal with
  | |- follows _ (call_later _) => unfold call_later
  | |- _ => first [follows_gen tac|progress unfold later_publish, publish, with_me_map, count_error]
  end.

Section cc.
Context {HO : DictOrder} {HQ : DeferredQueues} {HC : Channel}.
Context {HPr : Promise (result rx_frame)} {HL : PromiseLaws (result rx_frame)}.

(** ** The invariant *)
Definition cb_of (c : cc_call) : option (nat * rx_frame) :=
  match c with CCallback d f => Some (d, f) | _ => None end.
Definition callbacks (s : omci_cc) : list (nat * rx_frame) := omap cb_of (cc_calls s).

(** A Deferred that accepts one more result: not fired, or just cancelled. *)
Definition accepts (x : dfr_state (result rx_frame)) : Prop :=
  result_of x = None ∨ ∃ r x0, x = cancel_with r x0 ∧ result_of x0 = None.

(** A timeout, or a response with the identifier of the request. *)
Definition proper (tid : Z) (r : result rx_frame) : Prop := r = Err TimeoutError ∨ ∃ f, r = Ok f ∧ rx_tid f = tid.

Record wf_ (t : Z) (rs : gmap Z request) (ds : list cc_deferred) (cbs : list (nat * rx_frame)) (ts : list nat) : Prop := {
  wf_tid : 1 ≤ t ≤ MAX_OMCI_TX_ID;
  wf_requests : ∀ tid r, rs !! tid = Some r → ∃ c, ds !! rq_deferred r = Some c ∧ cd_tid c = tid ∧
    result_of (cd_state c) = None ∧ rq_deferred r ∉ cbs.*1 ∧ cd_timeout c = rq_timeout r;
  wf_once : NoDup cbs.*1;
  wf_callbacks : ∀ d f, (d, f) ∈ cbs → ∃ c, ds !! d = Some c ∧ cd_tid c = rx_tid f ∧ accepts (cd_state c);
  wf_results : ∀ d c r, ds !! d = Some c → result_of (cd_state c) = Some r → proper (cd_tid c) r;
  wf_timers : ∀ d c, ds !! d = Some c → result_of (cd_state c) = None → cd_timeout c > 0 → d ∈ ts;
}.
Definition wf (s : omci_cc) : Prop := wf_ (tx_tid s) (requests s) (deferreds s) (callbacks s) (cc_timers s).

Definition keeps_wf (s s' : omci_cc) : Prop := wf s → wf s'.
#[local] Instance keeps_wf_pre : PreOrder keeps_wf.
Proof. split; [by intros s Hs|]. intros x y z Hxy Hyz Hx. apply Hyz, Hxy, Hx. Qed.

Local Abbreviation stable := (follows keeps_wf).

(** Steps that do not touch what the invariant is about. *)
Definition same_core (s s' : omci_cc) : Prop :=
  tx_tid s' = tx_tid s ∧ requests s' = requests s ∧ deferreds s' = deferreds s ∧ callbacks s' = callbacks s ∧
  cc_timers s' = cc_timers s.

Lemma same_core_wf s s' : same_core s s' → keeps_wf s s'.
Proof. intros (Ht&Hr&Hd&Hc&Hts) Hs. unfold wf. by rewrite Ht, Hr, Hd, Hc, Hts. Qed.

Lemma stable_call_later c : cb_of c = None → stable (call_later c).
Proof.
  intros Hc. apply follows_modify. intros s. apply same_core_wf. split_and!; try done. unfold callbacks. simpl. rewrite omap_app. simpl.
  by rewrite Hc, app_nil_r.
Qed.

Ltac stable_step :=
  lazymatch goal with
  | |- stable (call_later _) => apply stable_call_later; reflexivity
  | |- _ => follows_step ltac:(apply same_core_wf; split_and!; reflexivity)
  end.
Ltac stable := repeat stable_step.

Lemma stable_set_enabled v : stable (set_enabled v).
Proof. unfold set_enabled, start_, stop_, flush. stable. Qed.

Lemma stable_receive_onu f now : stable (receive_onu_message f now).
Proof. unfold receive_onu_message. stable. Qed.

Lemma stable_decode msg now : stable (decode_frame msg now).
Proof. unfold decode_frame, decode_unknown_me. pose proof stable_receive_onu. stable; done. Qed.

Lemma stable_get_tid : stable get_tx_tid.
Proof.
  intros s [Ht ?????]. unfold get_tx_tid, wf. simpl. split; try done. unfold MAX_OMCI_TX_ID in *. case_decide; lia.
Qed.

(** ** The steps that do *)
Lemma accepts_fire x r : accepts x → is_Some (fire_with r x).
Proof.
  intros [Hx|(r0&x0&->&Hx)]; [|by apply fire_cancelled]. destruct (fire_pending_ok r x Hx) as (x'&->&_). by eexists.
Qed.

(** A response to a request takes it out and queues its callback. *)
Lemma wf_response t rs ds cbs ts tid r f : wf_ t rs ds cbs ts → rs !! tid = Some r → rx_tid f = tid →
  wf_ t (delete tid rs) ds (cbs ++ [(rq_deferred r, f)]) ts.
Proof.
  intros [] Hr Hf. destruct (wf_requests0 tid r Hr) as (c&Hc&Hct&Hcn&Hcb&_). split; try done.
  - intros tid' r' Hr'. apply lookup_delete_Some in Hr' as [Hne Hr']. destruct (wf_requests0 _ _ Hr') as (c'&Hc'&Ht'&Hn'&Hcb'&Hto).
    exists c'. split_and!; try done. rewrite fmap_app, elem_of_app. intros [?|He]; [done|]. apply list_elem_of_singleton in He.
    simpl in He. rewrite He in Hc'. congruence.
  - rewrite fmap_app, NoDup_app. split_and!; [done| |apply NoDup_singleton].
    intros d Hd He. apply list_elem_of_singleton in He. simpl in He. by subst.
  - intros d g Hd. apply elem_of_app in Hd as [Hd|Hd]; [by apply wf_callbacks0|].
    apply list_elem_of_singleton in Hd as [= -> ->]. exists c. split_and!; [done|congruence|by left].
Qed.

(** Cancelling one. *)
Lemma wf_cancel t rs ds cbs ts ts' d c : wf_ t rs ds cbs ts → ds !! d = Some c → result_of (cd_state c) = None →
  (∀ e, e ∈ ts → e ≠ d → e ∈ ts') →
  wf_ t (delete (cd_tid c) rs)
    (alter (λ c, CCDeferred (cd_tid c) (cd_timeout c) (cancel_with (Err TimeoutError) (cd_state c))) d ds) cbs ts'.
Proof.
  intros [] Hd Hn Hts. set (g := λ c, CCDeferred _ _ _). split; try done.
  - intros tid r Hr. apply lookup_delete_Some in Hr as [Hne Hr]. destruct (wf_requests0 _ _ Hr) as (c'&Hc'&Ht'&Hn'&Hcb').
    exists c'. assert (rq_deferred r ≠ d) as Hdd by congruence. split_and!; try done. by rewrite list_lookup_alter_ne by done.
    all: apply Hcb'.
  - intros e f He. destruct (wf_callbacks0 _ _ He) as (c'&Hc'&Ht'&Ha). destruct (decide (e = d)) as [->|Hne].
    + exists (g c'). rewrite list_lookup_alter_eq, Hc'. simplify_eq. split_and!; [done|done|]. right. simpl. eauto.
    + exists c'. by rewrite list_lookup_alter_ne by done.
  - intros e c' r He Hr. destruct (decide (e = d)) as [->|Hne].
    + rewrite list_lookup_alter_eq, Hd in He. simplify_eq/=. rewrite cancel_pending in Hr by done. simplify_eq. by left.
    + rewrite list_lookup_alter_ne in He by done. by eapply wf_results0.
  - intros e c' He Hr Hto. destruct (decide (e = d)) as [->|Hne].
    + rewrite list_lookup_alter_eq, Hd in He. simplify_eq/=. by rewrite cancel_pending in Hr.
    + rewrite list_lookup_alter_ne in He by done. eauto.
Qed.

(** A callback that runs. *)
Lemma wf_fire t rs ds cbs cbs' ts d f c x : wf_ t rs ds cbs ts → (d, f) :: cbs' ≡ₚ cbs → ds !! d = Some c →
  fire_with (Ok f) (cd_state c) = Some x →
  wf_ t rs (alter (λ c, CCDeferred (cd_tid c) (cd_timeout c) x) d ds) cbs' (filter (λ e, e ≠ d) ts).
Proof.
  intros [] Hp Hd Hx. assert (NoDup ((d, f) :: cbs').*1) as [Hnd Hnd']%NoDup_cons by (by rewrite Hp).
  assert ((d, f) ∈ cbs) as Hdf by (rewrite <-Hp; left).
  assert (d ∈ cbs.*1) as Hd1 by (rewrite <-Hp; left).
  assert (∀ p, p ∈ cbs' → p ∈ cbs) as Hsub by (intros p; rewrite <-Hp; by right).
  destruct (wf_callbacks0 _ _ Hdf) as (c0&Hc0&Ht0&Ha). simplify_eq. split; try done.
  - intros tid r Hr. destruct (wf_requests0 _ _ Hr) as (c'&Hc'&Ht'&Hn'&Hcb'&Hto). exists c'.
    assert (rq_deferred r ≠ d) as Hdd by congruence. split_and!; try done; [by rewrite list_lookup_alter_ne|].
    intros He. apply Hcb'. rewrite <-Hp. by right.
  - intros e g He. destruct (wf_callbacks0 _ _ (Hsub _ He)) as (c'&Hc'&Ht'&Ha'). exists c'.
    rewrite list_lookup_alter_ne; [done|]. intros <-. apply Hnd. simpl. apply list_elem_of_fmap. by exists (d, g).
  - intros e c' r He Hr. destruct (decide (e = d)) as [->|Hne].
    + rewrite list_lookup_alter_eq, Hd in He. simplify_eq/=. destruct (result_of (cd_state c)) as [r0|] eqn:Hr0.
      * rewrite (fire_again _ _ _ _ Hr0 Hx) in Hr. simplify_eq. by eapply wf_results0.
      * destruct (fire_pending_ok (Ok f) _ Hr0) as (x'&Hx'&Hr'). simplify_eq. right. by exists f.
    + rewrite list_lookup_alter_ne in He by done. by eapply wf_results0.
  - intros e c' He Hr Hto. destruct (decide (e = d)) as [->|Hne].
    + rewrite list_lookup_alter_eq, Hd in He. simplify_eq/=. destruct (result_of (cd_state c)) as [r0|] eqn:Hr0.
      * by rewrite (fire_again _ _ _ _ Hr0 Hx) in Hr.
      * destruct (fire_pending_ok (Ok f) _ Hr0) as (x'&Hx'&Hr'). congruence.
    + rewrite list_lookup_alter_ne in He by done. apply list_elem_of_filter. eauto.
Qed.

(** A request that is sent. *)
Lemma wf_sent t rs ds cbs ts tid now f to : wf_ t rs ds cbs ts → rs !! tid = None →
  wf_ t (<[tid := Request now (length ds) f to]> rs) (ds ++ [CCDeferred tid to Pending]) cbs
    (if decide (to > 0) then ts ++ [length ds] else ts).
Proof.
  intros [] Hn. assert (∀ d c, ds !! d = Some c → (ds ++ [CCDeferred tid to Pending]) !! d = Some c) as Hup
    by (intros; by apply lookup_app_l_Some).
  split; try done.
  - intros tid' r Hr. apply lookup_insert_Some in Hr as [[<- <-]|[Hne Hr]].
    + exists (CCDeferred tid to Pending). simpl. split_and!; try done; [by apply list_lookup_middle|apply new_pending|].
      intros ([e g]&Heq&He)%list_elem_of_fmap. destruct (wf_callbacks0 _ _ He) as (c&Hc&_). simpl in Heq. subst e.
      apply lookup_lt_Some in Hc. lia.
    + destruct (wf_requests0 _ _ Hr) as (c&Hc&?). exists c. eauto.
  - intros d g Hd. destruct (wf_callbacks0 _ _ Hd) as (c&Hc&?). exists c. eauto.
  - intros d c r Hd Hr. apply lookup_app_Some in Hd as [Hd|[_ Hd]]; [by eapply wf_results0|].
    apply list_lookup_singleton_Some in Hd as [_ <-]. simpl in Hr. by rewrite new_pending in Hr.
  - intros d c Hd Hr Hto. assert (∀ e, e ∈ ts → e ∈ if decide (to > 0) then ts ++ [length ds] else ts) as Hin.
    { intros e He. case_decide; [|done]. apply elem_of_app. by left. }
    apply lookup_app_Some in Hd as [Hd|[Hle Hd]]; [by eapply Hin, wf_timers0|].
    apply list_lookup_singleton_Some in Hd as [Hle' <-]. simpl in Hto. rewrite decide_True by done.
    apply elem_of_app. right. apply list_elem_of_singleton. lia.
Qed.

(** The result of [count_error]: only its counter and the reactor's calls
    change. *)
Lemma count_error_core s : (count_error s).1 = Ok tt ∧ same_core s (count_error s).2.
Proof.
  unfold count_error. erewrite bind_ok by done. erewrite bind_ok by done. case_decide; [|done].
  split; [done|]. split_and!; try done. unfold callbacks. simpl. rewrite omap_app. simpl. by rewrite app_nil_r.
Qed.

Lemma request_failure_core t s : ∃ s', request_failure CancelledError t s = (Ok TimeoutError, s') ∧
  same_core (s <| requests ::= delete t |>) s'.
Proof.
  unfold request_failure. erewrite bind_ok by done. rewrite decide_False by (by intros []). erewrite bind_ok by done.
  set (s1 := _ <| rx_timeouts ::= _ |>). destruct (count_error_core s1) as [He Hs]. destruct (count_error s1) as [r s2] eqn:Hc.
  simpl in He. subst r. exists s2. by rewrite (bind_ok _ _ _ tt s2).
Qed.

(** Cancelling, on the components of the invariant. *)
Lemma cancel_core d c s : deferreds s !! d = Some c → result_of (cd_state c) = None → ∃ s', d_cancel d s = (Ok tt, s') ∧
  tx_tid s' = tx_tid s ∧ requests s' = delete (cd_tid c) (requests s) ∧
  deferreds s' = alter (λ c, CCDeferred (cd_tid c) (cd_timeout c) (cancel_with (Err TimeoutError) (cd_state c))) d (deferreds s) ∧
  callbacks s' = callbacks s ∧ cc_timers s' = filter (λ e, e ≠ d) (cc_timers s).
Proof.
  intros Hd Hn. unfold d_cancel. erewrite bind_ok by done. rewrite Hd, Hn.
  destruct (request_failure_core (cd_tid c) s) as (s1&Hf&Ht&Hr&Hds&Hcb&Hts). rewrite (bind_ok _ _ _ _ _ Hf).
  eexists. split; [reflexivity|]. split_and!; try done; simpl; [|by rewrite Hts]. rewrite Hds. simpl.
  apply list_eq. intros i. destruct (decide (i = d)) as [->|Hne].
  - by rewrite !list_lookup_alter_eq, Hd.
  - by rewrite !list_lookup_alter_ne.
Qed.

Lemma cancel_done d s : (∀ c, deferreds s !! d = Some c → is_Some (result_of (cd_state c))) → d_cancel d s = (Ok tt, s).
Proof.
  intros Hd. unfold d_cancel. erewrite bind_ok by done. destruct (deferreds s !! d) as [c|]; [|done].
  by destruct (Hd c eq_refl) as [r ->].
Qed.

Lemma pending_or_done d s : (∃ c, deferreds s !! d = Some c ∧ result_of (cd_state c) = None) ∨
  ∀ c, deferreds s !! d = Some c → is_Some (result_of (cd_state c)).
Proof.
  destruct (deferreds s !! d) as [c|]; [|by right]. destruct (result_of (cd_state c)) eqn:Hr; [right|left; eauto].
  intros c' [= <-]. by eexists.
Qed.

(** Also when the timeout has just been taken off the reactor's list. *)
Lemma cancel_stable d s ts : wf (s <| cc_timers := ts |>) → (∀ e, e ∈ ts → e ≠ d → e ∈ cc_timers s) →
  wf (d_cancel d s).2.
Proof.
  intros Hw Hts. destruct (pending_or_done d s) as [(c&Hd&Hn)|Hdone].
  - destruct (cancel_core d c s Hd Hn) as (s'&->&Ht&Hr&Hds&Hcb&Hti). unfold wf. simpl. rewrite Ht, Hr, Hds, Hcb, Hti.
    eapply (wf_cancel _ _ _ _ ts); [exact Hw|done|done|]. intros e He Hne. apply list_elem_of_filter. auto.
  - rewrite cancel_done by done. destruct Hw as [? ? ? ? ? Hw]. split; try done. intros e c He Hr Hto.
    apply Hts; [eapply Hw; [exact He|done|done]|]. intros ->. destruct (Hdone c He) as [r ?]. congruence.
Qed.

Lemma stable_cancel d : stable (d_cancel d).
Proof. intros s Hs. apply (cancel_stable d s (cc_timers s)); [|done]. exact Hs. Qed.

Lemma stable_time_out d : stable (time_out d).
Proof.
  intros s Hs. unfold time_out. erewrite bind_ok by done. case_decide; [|done]. erewrite bind_ok by done.
  apply (cancel_stable d _ (cc_timers s)); [exact Hs|]. intros e He Hne. simpl. by apply list_elem_of_filter.
Qed.

(** The callbacks that are left when a call has run. *)
Lemma omap_delete {A B} (f : A → option B) (l : list A) i x : l !! i = Some x →
  omap f l ≡ₚ (match f x with Some y => [y] | None => [] end) ++ omap f (delete i l).
Proof.
  intros Hi. rewrite <-(take_drop_middle l i x Hi) at 1. rewrite delete_take_drop, !omap_app. csimpl.
  destruct (f x); csimpl; [|done]. by rewrite Permutation_middle.
Qed.

Lemma callback_runs s i d f : wf s → cc_calls s !! i = Some (CCallback d f) →
  ∃ s', run_call i s = (Ok tt, s') ∧ wf s' ∧
    ∃ c x, deferreds s !! d = Some c ∧ fire_with (Ok f) (cd_state c) = Some x ∧
      deferreds s' = alter (λ c, CCDeferred (cd_tid c) (cd_timeout c) x) d (deferreds s).
Proof.
  intros Hs Hi. pose proof (omap_delete cb_of _ _ _ Hi) as Hp. simpl in Hp.
  assert ((d, f) ∈ callbacks s) as Hin by (unfold callbacks; rewrite Hp; left).
  destruct (wf_callbacks _ _ _ _ _ Hs _ _ Hin) as (c&Hc&Ht&Ha). destruct (accepts_fire _ (Ok f) Ha) as [x Hx].
  unfold run_call. erewrite bind_ok by done. rewrite Hi. erewrite bind_ok by done. unfold callback. erewrite bind_ok by done.
  simpl. rewrite Hc. unfold request_success. rewrite Hx. erewrite bind_ok by done. eexists. split; [reflexivity|].
  split; [|by exists c, x]. unfold wf, callbacks. simpl. eapply (wf_fire _ _ _ _ _ _ d f c x); [exact Hs|by rewrite Hp|done|done].
Qed.

Lemma stable_run_call i : stable (run_call i).
Proof.
  intros s Hs. destruct (cc_calls s !! i) as [c|] eqn:Hi; [|by unfold run_call; erewrite bind_ok by done; rewrite Hi].
  destruct (cb_of c) as [[d f]|] eqn:Hc.
  - destruct c; simplify_eq/=. by destruct (callback_runs s i d f Hs Hi) as (s'&->&Hw&_).
  - unfold run_call. erewrite bind_ok by done. rewrite Hi.
    assert (wf (s <| cc_calls ::= delete i |>)) as Hs'.
    { destruct Hs. pose proof (omap_delete cb_of _ _ _ Hi) as Hp. rewrite Hc in Hp. simpl in Hp. split; simpl; try done.
      - intros tid r Hr. destruct (wf_requests0 _ _ Hr) as (c'&?&?&?&Hn&?). exists c'. split_and!; try done.
        unfold callbacks. simpl. by rewrite <-Hp.
      - unfold callbacks. simpl. by rewrite <-Hp.
      - intros d f. unfold callbacks. simpl. rewrite <-Hp. auto. }
    erewrite bind_ok by done. match goal with |- wf (?m _).2 => enough (stable m) as Hst by (apply Hst, Hs') end.
    destruct c; simplify_eq/=; unfold publish_rx_frame, publish_connectivity_event; stable.
Qed.

Lemma stable_receive msg now : stable (receive_message msg now).
Proof.
  unfold receive_message. do 2 stable_step; [|stable]. stable_step. stable_step; [apply stable_decode|].
  destruct a as [f|]; [|stable]. intros s Hs. erewrite bind_ok by done. destruct (requests s !! rx_tid f) as [r|] eqn:Hr;
    [|exact Hs].
  do 2 erewrite bind_ok by done. unfold wf, callbacks. simpl. rewrite !omap_app. simpl. rewrite app_nil_r.
  by apply wf_response.
Qed.

(** Putting a frame on the wire. *)
Lemma with_me_map_pure {A} (m : M omci_cc A) s : (∀ s, (m s).2 = s) → (with_me_map m s).2 = s.
Proof.
  intros Hm. unfold with_me_map. do 3 erewrite bind_ok by done. unfold try_finally. specialize (Hm (s <| entity_id_to_class_map := cc_me_map s |>)).
  destruct (m _) as [r s']. simpl in Hm. subst s'. simpl. by destruct s.
Qed.

Definition post (frame : omci_frame) : M omci_cc unit :=
  with_me_map (
    classes ← gets entity_id_to_class_map;
    msg ← lift (hexify_str classes frame);
    a ← gets proxy_address;
    a ← from_some TypeError a;
    lift (send_proxied_message a msg)).

Lemma post_pure frame s : (post frame s).2 = s.
Proof.
  apply with_me_map_pure. clear s. intros s. erewrite bind_ok by done. unfold mbind at 1, M_bind at 1, lift at 1.
  destruct (hexify_str _ frame); [|done]. erewrite bind_ok by done. unfold mbind, M_bind. by destruct (proxy_address s).
Qed.

(** What [send_frame] does: it fails and changes nothing, or it adds a
    request. *)
Lemma send_frame_cases frame tid to now s :
  (∃ e, send_frame frame tid to now s = (Err e, s)) ∨
  ∃ s', send_frame frame tid to now s = (Ok (length (deferreds s)), s') ∧ requests s !! tid = None ∧ tid >= 0 ∧
    tx_tid s' = tx_tid s ∧ requests s' = <[tid := Request now (length (deferreds s)) frame to]> (requests s) ∧
    deferreds s' = deferreds s ++ [CCDeferred tid to Pending] ∧ cc_calls s' = cc_calls s ∧
    cc_timers s' = (if decide (to > 0) then cc_timers s ++ [length (deferreds s)] else cc_timers s).
Proof.
  unfold send_frame. fold (post frame). erewrite bind_ok by done.
  destruct (decide (requests s !! tid = None)) as [Hn|Hn];
    [rewrite (bool_decide_true (requests s !! tid = None)) by done
    |left; rewrite (bool_decide_false (requests s !! tid = None)) by done; by eexists].
  erewrite bind_ok by done.
  destruct (decide (tid >= 0)) as [Ht|Ht]; [rewrite bool_decide_true by done|left; rewrite bool_decide_false by done; by eexists].
  erewrite bind_ok by done. pose proof (post_pure frame s) as Hp. destruct (post frame s) as [[u|e] s1] eqn:Hpost; simpl in Hp; subst s1.
  - right. rewrite (bind_ok _ _ _ _ _ Hpost). do 3 erewrite bind_ok by done.
    case_decide; eexists; (erewrite bind_ok by done); (split; [reflexivity|split_and!; done]).
  - left. exists e. by rewrite (bind_err _ _ _ _ _ Hpost).
Qed.

Lemma stable_send_frame frame tid to now : stable (send_frame frame tid to now).
Proof.
  intros s Hs. destruct (send_frame_cases frame tid to now s) as [[e ->]|(s'&->&Hn&_&Ht&Hr&Hd&Hc&Hts)]; [done|].
  unfold wf, callbacks. simpl. rewrite Ht, Hr, Hd, Hc, Hts. by apply wf_sent.
Qed.

Lemma stable_send f to now : stable (send f to now).
Proof.
  unfold send, flush. do 4 (stable_step; [stable|]). destruct a1, a2; stable; first [apply stable_get_tid|apply stable_send_frame].
Qed.

Lemma stable_act a : stable (act a).
Proof.
  destruct a; simpl; [apply stable_set_enabled|stable; apply stable_send|apply stable_receive|apply stable_run_call
    |apply stable_time_out|apply stable_cancel].
Qed.

Context (dev : string) (me_map classes : gmap Z entity_class).
Local Abbreviation reachable_ := (reachable dev me_map classes).

Lemma reachable_wf s : reachable_ s → wf s.
Proof.
  induction 1 as [|s a _ IH]; [|by apply stable_act]. split; simpl; try done; [apply NoDup_nil_2|].
  intros d f Hd. by apply elem_of_nil in Hd.
Qed.

(** ** Results are final *)
Definition grows (s s' : omci_cc) : Prop := ∀ d c, deferreds s !! d = Some c → ∃ c', deferreds s' !! d = Some c' ∧
  cd_tid c' = cd_tid c ∧ cd_timeout c' = cd_timeout c ∧ ∀ r, result_of (cd_state c) = Some r → result_of (cd_state c') = Some r.
#[local] Instance grows_pre : PreOrder grows.
Proof.
  split; [intros s d c Hd; by exists c|]. intros x y z Hxy Hyz d c Hd. destruct (Hxy d c Hd) as (c'&Hd'&Ht&Hto&Hr).
  destruct (Hyz d c' Hd') as (c''&Hd''&Ht'&Hto'&Hr'). exists c''. split_and!; [done|congruence..|auto].
Qed.

Lemma grows_same s s' : deferreds s' = deferreds s → grows s s'.
Proof. intros Hs d c Hd. exists c. by rewrite Hs. Qed.

Lemma grows_alter s s' d c x : deferreds s !! d = Some c → deferreds s' = alter (λ c, CCDeferred (cd_tid c) (cd_timeout c) x) d (deferreds s) →
  (∀ r, result_of (cd_state c) = Some r → result_of x = Some r) → grows s s'.
Proof.
  intros Hd Hs Hx e c' He. destruct (decide (e = d)) as [->|Hne].
  - simplify_eq. exists (CCDeferred (cd_tid c) (cd_timeout c) x). by rewrite Hs, list_lookup_alter_eq, Hd.
  - exists c'. by rewrite Hs, list_lookup_alter_ne.
Qed.

Ltac grows := repeat follows_step ltac:(apply grows_same; reflexivity).

Lemma grows_callback d f : follows grows (callback d f).
Proof.
  intros s. unfold callback. erewrite bind_ok by done. destruct (deferreds s !! d) as [c|] eqn:Hd; [|reflexivity].
  destruct (fire_with _ (cd_state c)) as [x|] eqn:Hx; [|reflexivity]. erewrite bind_ok by done.
  eapply grows_alter; [done|reflexivity|]. intros r Hr. by eapply fire_again.
Qed.

Lemma grows_cancel d : follows grows (d_cancel d).
Proof.
  intros s. destruct (pending_or_done d s) as [(c&Hd&Hn)|Hdone]; [|by rewrite cancel_done].
  unfold d_cancel. erewrite bind_ok by done. rewrite Hd, Hn.
  destruct (request_failure_core (cd_tid c) s) as (s1&Hf&_&_&Hds&_). rewrite (bind_ok _ _ _ _ _ Hf).
  eapply grows_alter; [done|simpl; by rewrite Hds|]. by rewrite Hn.
Qed.

Lemma grows_send_frame f tid to now : follows grows (send_frame f tid to now).
Proof.
  intros s. destruct (send_frame_cases f tid to now s) as [[e ->]|(s'&->&_&_&_&_&Hd&_)]; [reflexivity|].
  intros d c Hc. exists c. simpl. rewrite Hd. split_and!; try done. by apply lookup_app_l_Some.
Qed.

Lemma grows_act a : follows grows (act a).
Proof.
  destruct a; simpl.
  - unfold set_enabled, start_, stop_, flush. grows.
  - follows_step idtac; [|grows]. unfold send, flush, get_tx_tid. do 4 (follows_step idtac; [grows|]).
    destruct a1, a2; grows; apply grows_send_frame.
  - unfold receive_message, decode_frame, receive_onu_message, decode_unknown_me. grows.
  - unfold run_call, publish_rx_frame, publish_connectivity_event. grows; apply grows_callback.
  - unfold time_out. grows; apply grows_cancel.
  - apply grows_cancel.
Qed.

(** C9 In every state that the channel can reach: a Deferred that has fired
    did so with the response that carries the identifier of its request or
    with a timeout, whatever happens next it keeps that result, and no
    callback that the reactor runs finds its Deferred already called. *)
Theorem answered_once s : reachable_ s →
  (∀ d c r, deferreds s !! d = Some c → result_of (cd_state c) = Some r →
     (r = Err TimeoutError ∨ ∃ f, r = Ok f ∧ rx_tid f = cd_tid c) ∧
     ∀ a, ∃ c', deferreds (act a s).2 !! d = Some c' ∧ result_of (cd_state c') = Some r) ∧
  (∀ i, (run_call i s).1 = Ok tt).
Proof.
  intros Hs%reachable_wf. split.
  - intros d c r Hd Hr. split; [by eapply (wf_results _ _ _ _ _ Hs)|]. intros a.
    destruct (grows_act a s d c Hd) as (c'&Hd'&_&_&Hk). exists c'. auto.
  - intros i. destruct (cc_calls s !! i) as [c|] eqn:Hi; [|by unfold run_call; erewrite bind_ok by done; rewrite Hi].
    destruct (cb_of c) as [[d f]|] eqn:Hc.
    + destruct c; simplify_eq/=. by destruct (callback_runs s i d f Hs Hi) as (s'&->&_).
    + unfold run_call. erewrite bind_ok by done. rewrite Hi. erewrite bind_ok by done.
      destruct c; simplify_eq/=; try done; unfold publish_rx_frame, publish_connectivity_event; erewrite bind_ok by done.
      * destruct (enabled _); [|done]. by destruct (frame_to_event_type _).
      * by destruct (enabled _).
Qed.

(** C34 A request that has a timeout is never forgotten: as long as it is not
    answered its timeout is watched, even when the channel is disabled, and
    when that runs the Deferred fails with [TimeoutError]. *)
Theorem requests_time_out s d c : reachable_ s → deferreds s !! d = Some c → cd_timeout c > 0 →
  result_of (cd_state c) = None →
  d ∈ cc_timers s ∧ ∃ c', deferreds (time_out d s).2 !! d = Some c' ∧ result_of (cd_state c') = Some (Err TimeoutError) ∧
    requests (time_out d s).2 = delete (cd_tid c) (requests s).
Proof.
  intros Hs%reachable_wf Hd Hto Hn. pose proof (wf_timers _ _ _ _ _ Hs _ _ Hd Hn Hto) as Ht. split; [done|].
  unfold time_out. erewrite bind_ok by done. rewrite decide_True by done. erewrite bind_ok by done. set (s1 := s <| cc_timers ::= _ |>).
  destruct (cancel_core d c s1 Hd Hn) as (s'&->&_&Hr&Hds&_). simpl. rewrite Hds, list_lookup_alter_eq. unfold s1. simpl. rewrite Hd.
  eexists. split; [reflexivity|]. split; [by apply cancel_pending|done].
Qed.

(** ** Responses *)

(** Decoding a frame that is not the ONU's own. *)
Lemma decode_known msg now s f : dissect (cc_me_map s) msg = Ok f → rx_tid f ≠ 0 →
  ∃ s', decode_frame msg now s = (Ok (Some f), s') ∧ same_core s s' ∧ rx_frames s' = rx_frames s + 1 ∧ consecutive_errors s' = 0.
Proof.
  intros Hf Ht. unfold decode_frame, with_me_map. do 3 erewrite bind_ok by done. set (s1 := s <| entity_id_to_class_map := _ |>).
  unfold try_finally, try_except. erewrite bind_ok by done. change (entity_id_to_class_map s1) with (cc_me_map s). rewrite Hf.
  erewrite bind_ok by done. rewrite decide_False by done. do 2 erewrite bind_ok by done. case_decide.
  - do 2 erewrite bind_ok by done. eexists. split; [reflexivity|]. unfold same_core. split_and!; try done; [|simpl; lia].
    unfold callbacks. simpl. by rewrite omap_app, app_nil_r.
  - do 2 erewrite bind_ok by done. eexists. split; [reflexivity|]. split_and!; try done. simpl. lia.
Qed.

(** A response to an outstanding request reaches it: the request is taken
    off the table and the callback that the reactor is asked to make fires its
    Deferred with that response. *)
Theorem response_delivered s msg now f r : reachable_ s → enabled s = true → dissect (cc_me_map s) msg = Ok f →
  rx_tid f ≠ 0 → requests s !! rx_tid f = Some r →
  let s1 := (receive_message msg now s).2 in
  requests s1 = delete (rx_tid f) (requests s) ∧
  ∃ i, cc_calls s1 !! i = Some (CCallback (rq_deferred r) f) ∧
    ∃ c, deferreds (run_call i s1).2 !! rq_deferred r = Some c ∧ result_of (cd_state c) = Some (Ok f).
Proof.
  intros Hs%reachable_wf He Hf Ht Hr s1. pose proof (stable_receive msg now s Hs) as Hw. fold s1 in Hw.
  destruct (decode_known msg now s f Hf Ht) as (s0&Hdec&(_&Hreq&Hds&_&_)&_).
  destruct (wf_requests _ _ _ _ _ Hs _ _ Hr) as (c&Hc&_&Hn&_).
  assert (∃ i, cc_calls s1 !! i = Some (CCallback (rq_deferred r) f) ∧ requests s1 = delete (rx_tid f) (requests s) ∧
    deferreds s1 = deferreds s) as (i&Hi&Hreq1&Hds1).
  { unfold s1, receive_message. erewrite bind_ok by done. rewrite He. unfold swallow. rewrite (bind_ok _ _ _ _ _ Hdec).
    erewrite bind_ok by done. rewrite Hreq, Hr. do 2 erewrite bind_ok by done. exists (length (cc_calls s0)). simpl.
    split_and!; [|by rewrite Hreq|done]. rewrite <-app_assoc. by apply list_lookup_middle. }
  split; [done|]. exists i. split; [done|]. destruct (callback_runs s1 i _ _ Hw Hi) as (s2&->&_&c'&x&Hc'&Hx&Hd2). simpl.
  rewrite Hds1, Hc in Hc'. simplify_eq. rewrite Hd2, list_lookup_alter_eq, Hds1, Hc. eexists. split; [reflexivity|]. simpl.
  destruct (fire_pending_ok (Ok f) _ Hn) as (x'&?&?). by simplify_eq.
Qed.

(** ** Identifiers *)

(** The identifier that a step writes in a frame that came without one: the
    one in the frame after [send]. *)
Definition gives (a : action) (s : omci_cc) : option Z :=
  match a with
  | ASend f to now =>
      match transaction_id f, (send f to now s).1 with
      | None, Ok (_, f') => transaction_id f'
      | _, _ => None
      end
  | _ => None
  end.

(** Which one that is. *)
Definition next_given (a : action) (s : omci_cc) : option Z :=
  match a with
  | ASend f to _ =>
      if decide (to ≤ MAX_OMCI_REQUEST_AGE ∧ enabled s = true ∧ is_Some (proxy_address s) ∧ transaction_id f = None)
      then Some (tx_tid s) else None
  | _ => None
  end.

Lemma gives_next a s : gives a s = next_given a s.
Proof.
  destruct a; try done. simpl. unfold send, flush. erewrite bind_ok by done.
  destruct (transaction_id frame) as [t|] eqn:Htid; [by rewrite decide_False by (intros (_&_&_&?); done)|].
  destruct (decide (timeout ≤ MAX_OMCI_REQUEST_AGE)) as [Hto|Hto].
  2: { rewrite bool_decide_false by done. rewrite (bind_err _ _ _ AssertionError s) by done.
       by rewrite decide_False by (by intros [? _]). }
  rewrite bool_decide_true by done. do 3 erewrite bind_ok by done.
  destruct (enabled s) eqn:Hen; [|by rewrite decide_False by naive_solver].
  destruct (proxy_address s) as [ad|] eqn:Had; [|by rewrite decide_False by (intros (_&_&[? ?]&_); done)].
  rewrite decide_True by eauto. unfold get_tx_tid. rewrite (bind_ok _ _ s (tx_tid s) (s <| tx_tid := if decide (tx_tid s + 1 > MAX_OMCI_TX_ID) then 1 else tx_tid s + 1 |>)) by done.
  unfold mbind at 1, M_bind at 1. destruct (try_except _ _ _) as [[x|e] s2] eqn:Ht; [done|]. exfalso.
  unfold try_except in Ht.
  match type of Ht with context [match ?x with _ => _ end] => destruct x as [[d|e1] s3] end; [done|].
  unfold count_error in Ht. unfold mbind, M_bind, modify, gets in Ht. simpl in Ht.
  by destruct (decide _).
Qed.

Fixpoint given (l : list action) (s : omci_cc) : list Z :=
  match l with
  | [] => []
  | a :: l => (match gives a s with Some t => [t] | None => [] end) ++ given l (act a s).2
  end.

(** A request that was sent is in the table under the identifier in its
    frame. *)
Lemma send_registers f to now s d f' s' : send f to now s = (Ok (inr d, f'), s') →
  ∃ t, transaction_id f' = Some t ∧ requests s' !! t = Some (Request now d f' to).
Proof.
  unfold send. intros Hr. minv Hr as ([]&s1&_&Hr). minv Hr as ([]&s2&_&Hr).
  minv Hr as (en&s3&_&Hr). minv Hr as (ad&s4&_&Hr). destruct en, ad as [ad|]; try done.
  minv Hr as (tid&s5&_&Hr). minv Hr as (x&s6&Ht&Hr). injection Hr as -> <- <-. exists tid. split; [done|].
  unfold try_except in Ht.
  match type of Ht with context [match ?m with _ => _ end] => destruct m as [[y|e1] s7] eqn:Hs end.
  - injection Ht as -> <-. minv Hs as (d'&s8&Hs&Hd). injection Hd as <- <-.
    unfold send_frame in Hs. minv Hs as (rs&t1&_&Hs). minv Hs as ([]&t2&_&Hs). minv Hs as ([]&t3&_&Hs).
    minv Hs as (?&t4&_&Hs). minv Hs as ([]&t5&_&Hs). minv Hs as (k&t6&_&Hs). minv Hs as ([]&t7&Hm&Hs).
    minv Hs as ([]&t8&Hl&Hs). injection Hs as <- <-. injection Hm as <-.
    case_decide; injection Hl as <-; simpl; apply lookup_insert_eq.
  - exfalso. unfold count_error, mbind, M_bind, modify, gets in Ht. simpl in Ht. by destruct (decide _).
Qed.

Definition succ_tid (t : Z) : Z := if decide (t + 1 > MAX_OMCI_TX_ID) then 1 else t + 1.

Definition same_tid (s s' : omci_cc) : Prop := tx_tid s' = tx_tid s.
#[local] Instance same_tid_pre : PreOrder same_tid.
Proof. split; [done|]. intros x y z Hxy Hyz. unfold same_tid in *. congruence. Qed.

Ltac same_tid := repeat follows_step ltac:(reflexivity).

Lemma same_tid_cancel d : follows same_tid (d_cancel d).
Proof. unfold d_cancel, request_failure, set_deferred. same_tid. Qed.

Lemma act_tid a s : tx_tid (act a s).2 = match gives a s with Some t => succ_tid t | None => tx_tid s end.
Proof.
  rewrite gives_next. destruct a; simpl.
  - change (same_tid s (set_enabled value s).2). revert s. change (follows same_tid (set_enabled value)).
    unfold set_enabled, start_, stop_, flush. same_tid.
  - unfold mbind at 1, M_bind at 1. destruct (send frame timeout now s) as [r s'] eqn:Hsend. 
    transitivity (tx_tid s'); [by destruct r|]. revert Hsend. unfold send, flush. erewrite bind_ok by done.
    destruct (decide (timeout ≤ MAX_OMCI_REQUEST_AGE)) as [Hto|Hto].
    2: { rewrite bool_decide_false by done. rewrite (bind_err _ _ _ AssertionError s) by done. intros [= <- <-].
         rewrite decide_False by (by intros [? _]). done. }
    rewrite bool_decide_true by done. do 3 erewrite bind_ok by done.
    destruct (enabled s) eqn:Hen; [|intros [= <- <-]; rewrite decide_False by naive_solver; done].
    destruct (proxy_address s) as [ad|] eqn:Had;
      [|intros [= <- <-]; rewrite decide_False by (intros (_&_&[? ?]&_); done); done].
    assert (∀ fr tid s1, tx_tid (try_except (d ← send_frame fr tid timeout now; mret (inr d))
              (λ e, _ ← modify (λ s, s <| tx_errors ::= Z.add 1 |>); _ ← count_error; mret (inl e)) s1).2 = tx_tid s1) as Hkeep.
    { intros fr tid s1. change (same_tid s1 (try_except (d ← send_frame fr tid timeout now; mret (@inr exn nat d))
              (λ e, _ ← modify (λ s, s <| tx_errors ::= Z.add 1 |>); _ ← count_error; mret (inl e)) s1).2). revert s1.
      match goal with |- ∀ s1, same_tid s1 (?m s1).2 => change (follows same_tid m) end. unfold send_frame. same_tid. }
    destruct (transaction_id frame) as [t|] eqn:Htid.
    + rewrite decide_False by (intros (_&_&_&?); done). rewrite (bind_ok _ _ s t s) by done.
      unfold mbind at 1, M_bind at 1. specialize (Hkeep (OmciFrame (Some t) (message_type frame) (omci_message frame)) t s).
      destruct (try_except _ _ s) as [[x|e] s2]; intros [= <- <-]; exact Hkeep.
    + rewrite decide_True by eauto. unfold get_tx_tid at 1. set (s1 := s <| tx_tid := succ_tid (tx_tid s) |>).
      rewrite (bind_ok _ _ s (tx_tid s) s1) by done. unfold mbind at 1, M_bind at 1.
      specialize (Hkeep (OmciFrame (Some (tx_tid s)) (message_type frame) (omci_message frame)) (tx_tid s) s1).
      destruct (try_except _ _ s1) as [[x|e] s2]; intros [= <- <-]; exact Hkeep.
  - change (same_tid s (receive_message msg now s).2). revert s. change (follows same_tid (receive_message msg now)).
    unfold receive_message, decode_frame, receive_onu_message, decode_unknown_me. same_tid.
  - change (same_tid s (run_call i s).2). revert s. change (follows same_tid (run_call i)).
    unfold run_call, callback, set_deferred, publish_rx_frame, publish_connectivity_event. same_tid.
  - change (same_tid s (time_out d s).2). revert s. change (follows same_tid (time_out d)).
    unfold time_out. same_tid. apply same_tid_cancel.
  - apply same_tid_cancel.
Qed.

(** The identifiers from [t] on. *)
Fixpoint orbit (n : nat) (t : Z) : list Z :=
  match n with O => [] | S n => t :: orbit n (succ_tid t) end.

Lemma given_orbit l : ∀ s, given l s = orbit (length (given l s)) (tx_tid s).
Proof.
  induction l as [|a l IH]; intros s; [done|]. simpl. pose proof (act_tid a s) as Ha. specialize (IH (act a s).2).
  destruct (gives a s) as [t|] eqn:Hg; simpl.
  - assert (t = tx_tid s) as ->. { rewrite gives_next in Hg. destruct a; simpl in Hg; try done. by case_decide; simplify_eq. }
    rewrite Ha in IH. f_equal. exact IH.
  - rewrite Ha in IH. exact IH.
Qed.

Lemma orbit_lookup n : ∀ t k, 1 ≤ t ≤ MAX_OMCI_TX_ID → (k < n)%nat →
  orbit n t !! k = Some ((t - 1 + Z.of_nat k) mod MAX_OMCI_TX_ID + 1).
Proof.
  unfold MAX_OMCI_TX_ID. induction n as [|n IH]; intros t k Ht Hk; [lia|]. destruct k as [|k]; simpl.
  - f_equal. rewrite Z.add_0_r, Z.mod_small by lia. lia.
  - unfold succ_tid, MAX_OMCI_TX_ID. case_decide.
    + rewrite IH by lia. f_equal. f_equal. replace t with 65535 by lia.
      replace (65535 - 1 + Z.of_nat (S k)) with (1 - 1 + Z.of_nat k + 1 * 65535) by lia. by rewrite Z.mod_add.
    + rewrite IH by lia. do 3 f_equal. lia.
Qed.

Lemma orbit_length n : ∀ t, length (orbit n t) = n.
Proof. induction n; intros; simpl; auto. Qed.

(** C36 The identifiers that [send] writes in frames that come without one are
    not that of the ONU's own messages, fit in 16 bits, and 65535 in a row are
    distinct, whatever happens in between; and a request that was sent is
    outstanding under the identifier in its frame. *)
Theorem tids_distinct s l : reachable_ s →
  Forall (λ t, 0 < t < 2 ^ 16) (given l s) ∧
  (∀ n, NoDup (take (Z.to_nat MAX_OMCI_TX_ID) (drop n (given l s)))) ∧
  ∀ f to now d f' s', send f to now s = (Ok (inr d, f'), s') →
    ∃ t, transaction_id f' = Some t ∧ requests s' !! t = Some (Request now d f' to).
Proof.
  intros Hs%reachable_wf. apply and_assoc. split; [|intros f to now d f' s'; apply send_registers]. pose proof (wf_tid _ _ _ _ _ Hs) as Ht. rewrite given_orbit.
  assert (∀ k x, orbit (length (given l s)) (tx_tid s) !! k = Some x →
    x = (tx_tid s - 1 + Z.of_nat k) mod MAX_OMCI_TX_ID + 1) as Hx.
  { intros k x Hk. pose proof (lookup_lt_Some _ _ _ Hk) as Hlt. rewrite orbit_length in Hlt.
    rewrite orbit_lookup in Hk by done. by simplify_eq. }
  split.
  - apply Forall_lookup_2. intros k x Hk. rewrite (Hx k x Hk).
    pose proof (Z.mod_pos_bound (tx_tid s - 1 + Z.of_nat k) MAX_OMCI_TX_ID ltac:(done)). unfold MAX_OMCI_TX_ID in *. lia.
  - intros n. apply NoDup_alt. intros i j x Hi Hj. apply lookup_take_Some in Hi as [Hi Hilt]. apply lookup_take_Some in Hj as [Hj Hjlt].
    rewrite lookup_drop in Hi, Hj. apply Hx in Hi, Hj. rewrite Hi in Hj. apply Z.add_cancel_r in Hj.
    unfold MAX_OMCI_TX_ID in *. pose proof (Z.div_mod (tx_tid s - 1 + Z.of_nat (n + i)) 65535).
    pose proof (Z.div_mod (tx_tid s - 1 + Z.of_nat (n + j)) 65535). nia.
Qed.

(** ** Connectivity *)
Definition conn_of (c : cc_call) : option bool := match c with CPublishConnectivity b => Some b | _ => None end.
Definition announced (s : omci_cc) : list bool := omap conn_of (scheduled s).

(** Each announcement is a change. *)
Definition alternating (l : list bool) : Prop := ∀ i a b, l !! i = Some a → l !! S i = Some b → b = negb a.

Lemma alternating_snoc l b : alternating l → last l ≠ Some b → alternating (l ++ [b]).
Proof.
  intros Hl Hb i x y Hx Hy. apply lookup_app_Some in Hy as [Hy|[Hle Hy]].
  - rewrite lookup_app_l in Hx by (apply lookup_lt_Some in Hy; lia). by eapply Hl.
  - apply list_lookup_singleton_Some in Hy as [Hi <-]. assert (length l = S i) as Hlen by lia.
    rewrite lookup_app_l in Hx by lia. rewrite last_lookup, Hlen in Hb. simpl in Hb. rewrite Hx in Hb. by destruct x, b.
Qed.

Record linked (s : omci_cc) : Prop := {
  l_alternating : alternating (announced s);
  l_errors : 0 ≤ consecutive_errors s;
  l_frames : 0 ≤ rx_frames s;
  l_last : last (announced s) =
    if decide (consecutive_errors s = 0) then if decide (rx_frames s = 0) then None else Some true else Some false;
}.

Definition keeps_linked (s s' : omci_cc) : Prop := linked s → linked s'.
#[local] Instance keeps_linked_pre : PreOrder keeps_linked.
Proof. split; [by intros s Hs|]. intros x y z Hxy Hyz Hx. apply Hyz, Hxy, Hx. Qed.

Lemma same_link s s' : announced s' = announced s → consecutive_errors s' = consecutive_errors s → rx_frames s' = rx_frames s →
  keeps_linked s s'.
Proof. intros Ha He Hf []. split; rewrite ?Ha, ?He, ?Hf; done. Qed.

Lemma linked_call_later c : conn_of c = None → follows keeps_linked (call_later c).
Proof.
  intros Hc. apply follows_modify. intros s. apply same_link; [|done..]. unfold announced. simpl. rewrite omap_app. simpl.
  by rewrite Hc, app_nil_r.
Qed.

Lemma linked_count_error : follows keeps_linked count_error.
Proof.
  intros s []. unfold count_error. do 2 erewrite bind_ok by done. set (s1 := s <| consecutive_errors ::= _ |>).
  assert (consecutive_errors s1 = consecutive_errors s + 1) as Hs1 by (apply Z.add_comm).
  destruct (decide (consecutive_errors s1 = 1)) as [Hone|Hone].
  - assert (consecutive_errors s = 0) as He by lia. split; [|change (0 ≤ consecutive_errors s1); lia|done|].
    + unfold announced. simpl. rewrite omap_app. apply alternating_snoc; [done|].
      change (last (announced s) ≠ Some false). rewrite l_last0, He. repeat case_decide; done.
    + unfold announced. simpl. rewrite omap_app. simpl. rewrite last_snoc, decide_False; [done|]. change (consecutive_errors s1 ≠ 0). lia.
  - assert (consecutive_errors s ≠ 0) as He by lia. split; try done; [change (0 ≤ consecutive_errors s1); lia|].
    rewrite decide_False by (change (consecutive_errors s1 ≠ 0); lia).
    change (last (announced s) = Some false). by rewrite l_last0, decide_False.
Qed.

Ltac linked_step :=
  lazymatch goal with
  | |- follows _ (call_later _) => apply linked_call_later; reflexivity
  | |- follows _ count_error => apply linked_count_error
  | |- _ => follows_step ltac:(apply same_link; reflexivity)
  end.
Ltac linked := repeat linked_step.

Lemma linked_decode msg now : follows keeps_linked (decode_frame msg now).
Proof.
  unfold decode_frame, with_me_map. do 3 (linked_step; [linked|]). linked_step; [|linked]. linked_step.
  2: { unfold decode_unknown_me. linked. }
  do 2 (linked_step; [linked|]). linked_step; [unfold receive_onu_message; linked|].
  intros s []. do 2 erewrite bind_ok by done. destruct (decide (rx_frames s = 0 ∨ consecutive_errors s ≠ 0)) as [Hn|Hn].
  - do 2 erewrite bind_ok by done. set (s2 := s <| cc_calls ::= _ |> <| scheduled ::= _ |>).
    assert (announced s2 = announced s ++ [true]) as Ha by (unfold announced; simpl; by rewrite omap_app).
    split; [|done| |].
    + change (alternating (announced s2)). rewrite Ha. apply alternating_snoc; [done|]. rewrite l_last0.
      destruct (decide (consecutive_errors s = 0)); [|done]. rewrite decide_True; [done|]. naive_solver.
    + change (0 ≤ 1 + rx_frames s). lia.
    + change (last (announced s2) = if decide (0 = 0) then if decide (1 + rx_frames s = 0) then None else Some true else Some false).
      rewrite Ha, last_snoc, decide_True, decide_False by lia. done.
  - do 2 erewrite bind_ok by done. split; [done|done|change (0 ≤ 1 + rx_frames s); lia|].
    change (last (announced s) = if decide (0 = 0) then if decide (1 + rx_frames s = 0) then None else Some true else Some false).
    rewrite l_last0. repeat case_decide; first [done|lia|naive_solver].
Qed.

Lemma linked_act a : follows keeps_linked (act a).
Proof.
  destruct a; simpl; unfold set_enabled, start_, stop_, flush, send, get_tx_tid, send_frame, receive_message, time_out,
    run_call, callback, d_cancel, request_failure, set_deferred, publish_rx_frame, publish_connectivity_event, flush.
  - linked.
  - linked_step; [|linked]. do 4 (linked_step; [linked|]). destruct a1, a2; linked.
  - linked. all: apply linked_decode.
  - linked.
  - linked.
  - linked.
Qed.

(** What the channel announces about connectivity is a change each time,
    and the last announcement tells whether the last exchange worked. *)
Theorem connectivity_alternates s : reachable_ s →
  alternating (announced s) ∧
  (consecutive_errors s ≠ 0 → last (announced s) = Some false) ∧
  (consecutive_errors s = 0 → rx_frames s ≠ 0 → last (announced s) = Some true).
Proof.
  intros Hs. assert (linked s) as [Ha He Hf Hl].
  { induction Hs as [|s a _ IH]; [|by apply linked_act]. by split. }
  split; [done|]. rewrite Hl. split; intros; repeat case_decide; done.
Qed.

(** ** The global map of classes *)
Definition same_classes (s s' : omci_cc) : Prop := entity_id_to_class_map s' = entity_id_to_class_map s.
#[local] Instance same_classes_pre : PreOrder same_classes.
Proof. split; [done|]. intros x y z Hxy Hyz. unfold same_classes in *. congruence. Qed.

Lemma restored {A} (m : M omci_cc A) : follows same_classes (with_me_map m).
Proof. intros s. unfold with_me_map. do 3 erewrite bind_ok by done. unfold try_finally. by destruct (m _). Qed.

Ltac same_classes_step :=
  lazymatch goal with
  | |- follows _ (with_me_map _) => apply restored
  | |- _ => follows_step ltac:(reflexivity)
  end.
Ltac same_classes := repeat same_classes_step.

(** The map of entity classes that all channels share, which a channel
    replaces by its own while it encodes or decodes, is the same after every
    step, whatever is raised in between. *)
Theorem class_map_restored a s : entity_id_to_class_map (act a s).2 = entity_id_to_class_map s.
Proof.
  revert s. change (follows same_classes (act a)).
  destruct a; simpl; unfold set_enabled, start_, stop_, flush, send, get_tx_tid, send_frame, receive_message, decode_frame,
    time_out, run_call, callback, d_cancel, request_failure, set_deferred, publish_rx_frame, publish_connectivity_event, flush.
  2: { same_classes_step; [|same_classes]. do 4 (same_classes_step; [same_classes|]). destruct a1, a2; same_classes. }
  all: same_classes.
Qed.

(** ** Disabling *)

(** Nothing is flushed: the requests, their timeouts and the calls that are
    under way stay. *)
Lemma disable_keeps_requests s : enabled s = true →
  let s' := (set_enabled false s).2 in
  requests s' = requests s ∧ deferreds s' = deferreds s ∧ cc_timers s' = cc_timers s ∧ cc_calls s' = cc_calls s.
Proof. intros He s'. unfold s', set_enabled. erewrite bind_ok by done. rewrite He. done. Qed.

(** The queues are gone for good once the channel has been disabled. *)
Definition no_queues (s : omci_cc) : Prop := alarm_queue s = None ∧ avc_queue s = None ∧ test_results_queue s = None.
Definition keeps_no_queues (s s' : omci_cc) : Prop := no_queues s → no_queues s'.
#[local] Instance keeps_no_queues_pre : PreOrder keeps_no_queues.
Proof. split; [by intros s Hs|]. intros x y z Hxy Hyz Hx. apply Hyz, Hxy, Hx. Qed.

Lemma no_queues_same s s' : alarm_queue s' = alarm_queue s → avc_queue s' = avc_queue s →
  test_results_queue s' = test_results_queue s → keeps_no_queues s s'.
Proof. intros Ha Hv Ht (?&?&?). unfold no_queues. by rewrite Ha, Hv, Ht. Qed.

Ltac no_queues := repeat follows_step ltac:(first [apply no_queues_same; reflexivity|intros (?&?&?); split_and!; done]).

Lemma no_queues_onu f now : follows keeps_no_queues (receive_onu_message f now).
Proof.
  intros s (Ha&Hv&Ht). unfold receive_onu_message. erewrite bind_ok by done. unfold mbind at 1, M_bind at 1, lift.
  destruct (rebuild _ f); [|done]. erewrite bind_ok by done.
  repeat case_decide; [| | |done]; unfold later_publish; do 2 erewrite bind_ok by done; simpl; rewrite ?Ha, ?Ht; done.
Qed.

Lemma no_queues_act a : follows keeps_no_queues (act a).
Proof.
  destruct a; simpl; unfold set_enabled, start_, stop_, flush, send, get_tx_tid, send_frame, receive_message, decode_frame,
    decode_unknown_me, time_out, run_call, callback, d_cancel, request_failure, set_deferred, publish_rx_frame,
    publish_connectivity_event, flush.
  2: { follows_step idtac; [|no_queues]. do 4 (follows_step idtac; [no_queues|]). destruct a1, a2; no_queues. }
  all: no_queues; apply no_queues_onu.
Qed.

(** The queues for what an ONU sends on its own are gone for good once the
    channel has been disabled: nothing that happens later, enabling included,
    brings them back. *)
Theorem queues_never_return s l : enabled s = true →
  let s' := foldl (λ s a, (act a s).2) (set_enabled false s).2 l in
  alarm_queue s' = None ∧ avc_queue s' = None ∧ test_results_queue s' = None.
Proof.
  intros He. assert (no_queues (set_enabled false s).2) as Hn.
  { unfold set_enabled. erewrite bind_ok by done. by rewrite He. }
  revert Hn. generalize (set_enabled false s).2. clear He s. induction l as [|a l IH]; intros s Hn; [done|]. simpl.
  apply IH. by apply no_queues_act.
Qed.

(** ** Frames of unknown classes *)
Definition be16 (n : Z) : octets := [octet_of (n / 256); octet_of (n mod 256)].

Lemma be16_value n : 0 ≤ n < 65536 → 256 * octet_value (octet_of (n / 256)) + octet_value (octet_of (n mod 256)) = n.
Proof.
  intros Hn. rewrite !octet_of_value; [pose proof (Z.div_mod n 256); lia|apply Z.mod_pos_bound; lia|].
  split; [apply Z.div_pos; lia|apply Z.div_lt_upper_bound; lia].
Qed.

(** An instance of a class that the channel does not know is still taken
    from an upload: its class, its identifier and its octets, in hexadecimal. *)
Theorem unknown_me_decoded tid cls eid ocls oid mask data trailer s :
  0 ≤ tid < 65536 → 0 ≤ ocls < 65536 → 0 ≤ oid < 65536 → length trailer = 4%nat →
  decode_unknown_me (be16 tid ++ [octet_of OmciMibUploadNextResponse_message_id; octet_of 10] ++
    be16 cls ++ be16 eid ++ be16 ocls ++ be16 oid ++ be16 mask ++ data ++ trailer) s =
  (Ok (RxFrame tid 46 46 (Reply None None (Some ocls) (Some oid)
         (Some {["voltha-unknown-blob" := Plain (AStr (hexlify data))]}) None None None)), s).
Proof.
  intros Ht Hc Hi Hl. unfold decode_unknown_me, be16. cbn [app firstn skipn]. rewrite be16_value by done.
  rewrite (bool_decide_true (octet_value (octet_of 10) = 10)) by done. do 6 (erewrite bind_ok by reflexivity).
  rewrite decide_True by done. unfold unpack_H. cbn [firstn skipn]. rewrite !be16_value by done.
  replace (upto_last4 10 _) with data; [done|]. unfold upto_last4. cbn [length].
  replace (_ - 4)%nat with (10 + length data)%nat by (rewrite length_app; lia). cbn [Nat.add firstn skipn].
  rewrite firstn_app, firstn_all, Nat.sub_diag. by rewrite firstn_O, app_nil_r.
Qed.
End cc.

(** ** A sample channel *)
Section sample.
Local Existing Instance plain_order.
#[local] Instance sample_rx_promise : Promise (result rx_frame) := plain_promise (result rx_frame).
#[local] Instance sample_rx_laws : PromiseLaws (result rx_frame) := plain_promise_laws (result rx_frame).
#[local] Instance sample_queues : DeferredQueues := {|
  dqueue := list (rx_frame * Z) * Z;
  dq_item := option (rx_frame * Z);
  DeferredQueue n := ([], n);
  dq_put x '(l, n) := if decide (Z.of_nat (length l) < n) then Some (l ++ [x], n) else None;
  dq_get '(l, n) := (head l, (tail l, n));
|}.
Definition sample_frame (tid : Z) : rx_frame := RxFrame tid 0x29 0x29 (Reply (Some 0) None None None None None None None).
#[local] Instance sample_channel : Channel := {|
  address := string;
  get_device _ := Ok "olt";
  send_proxied_message _ _ := Ok tt;
  hexify_str _ _ := Ok "";
  dissect _ msg := match msg with [t] => Ok (sample_frame (octet_value t)) | _ => Err KeyError end;
  rebuild _ _ := Ok tt;
|}.

Definition sample_request : omci_frame := mk_frame (OmciGet 262 5 40960).

Definition acts (l : list action) : omci_cc := foldl (λ s a, (act a s).2) (init "onu" ∅ ∅) l.

Lemma acts_reachable l : reachable "onu" ∅ ∅ (acts l).
Proof.
  unfold acts. induction l as [|a l IH] using rev_ind; [apply r_init|]. rewrite foldl_snoc. by apply r_act.
Qed.

Definition two_sent : list action := [ASetEnabled true; ASend sample_request 3 100; ASend sample_request 0 200].

Lemma answered_once_witness :
  let s := acts (two_sent ++ [AReceive [x01] 300; ACall 1; ATimeOut 0]) in
  reachable "onu" ∅ ∅ s ∧
  ∃ c, deferreds s !! 0%nat = Some c ∧ result_of (cd_state c) = Some (Ok (sample_frame 1)) ∧
    ((Ok (sample_frame 1) = Err TimeoutError ∨ ∃ f, Ok (sample_frame 1) = Ok f ∧ rx_tid f = cd_tid c) ∧
     ∀ a, ∃ c', deferreds (act a s).2 !! 0%nat = Some c' ∧ result_of (cd_state c') = Some (Ok (sample_frame 1))).
Proof.
  intros s. assert (reachable "onu" ∅ ∅ s) as Hs by apply acts_reachable. split; [exact Hs|].
  eexists. split; [vm_compute; reflexivity|]. split; [reflexivity|].
  apply (proj1 (answered_once "onu" ∅ ∅ s Hs) 0%nat); [vm_compute; reflexivity|reflexivity].
Defined.

Lemma requests_time_out_witness :
  let s := acts (two_sent ++ [ASetEnabled false]) in
  0%nat ∈ cc_timers s ∧ ∃ c', deferreds (time_out 0 s).2 !! 0%nat = Some c' ∧
    result_of (cd_state c') = Some (Err TimeoutError) ∧ requests (time_out 0 s).2 = delete 1 (requests s).
Proof.
  intros s. apply (requests_time_out "onu" ∅ ∅ s 0%nat (CCDeferred 1 3 Pending)); [apply acts_reachable|vm_compute; reflexivity|done|done].
Defined.

Lemma response_delivered_witness :
  let s := acts two_sent in
  let s1 := (receive_message [x02] 300 s).2 in
  requests s1 = delete 2 (requests s) ∧
  ∃ i, cc_calls s1 !! i = Some (CCallback 1 (sample_frame 2)) ∧
    ∃ c, deferreds (run_call i s1).2 !! 1%nat = Some c ∧ result_of (cd_state c) = Some (Ok (sample_frame 2)).
Proof.
  intros s. apply (response_delivered "onu" ∅ ∅ s [x02] 300 (sample_frame 2)
    (Request 200 1 (OmciFrame (Some 2) (message_type sample_request) (OmciEntities.omci_message sample_request)) 0));
    [apply acts_reachable|vm_compute; reflexivity|vm_compute; reflexivity|done|vm_compute; reflexivity].
Defined.

Lemma tids_distinct_witness :
  let s := acts [ASetEnabled true] in
  given [ASend sample_request 3 0; ASend sample_request 3 0] s = [1; 2] ∧
  Forall (λ t, 0 < t < 2 ^ 16) (given [ASend sample_request 3 0; ASend sample_request 3 0] s) ∧
  requests (send sample_request 3 0 s).2 !! 1 = Some (Request 0 0 (OmciFrame (Some 1) (message_type sample_request) (OmciEntities.omci_message sample_request)) 3).
Proof.
  intros s. split; [vm_compute; reflexivity|].
  destruct (tids_distinct "onu" ∅ ∅ s [ASend sample_request 3 0; ASend sample_request 3 0]) as (H1&_&H3); [apply acts_reachable|].
  split; [exact H1|]. destruct (send sample_request 3 0 s) as [r s'] eqn:Hs.
  assert (r = Ok (inr 0%nat, OmciFrame (Some 1) (message_type sample_request) (OmciEntities.omci_message sample_request))) as ->.
  { change r with (r, s').1. rewrite <- Hs. vm_compute. reflexivity. }
  destruct (H3 sample_request 3 0 0%nat _ s' Hs) as (t&[= <-]&Hr). exact Hr.
Defined.

Lemma connectivity_alternates_witness :
  let s := acts (two_sent ++ [ATimeOut 0; AReceive [x02] 300; ACancel 1]) in
  announced s = [false; true; false] ∧ alternating (announced s) ∧
  (consecutive_errors s ≠ 0 → last (announced s) = Some false) ∧
  (consecutive_errors s = 0 → rx_frames s ≠ 0 → last (announced s) = Some true).
Proof.
  intros s. split; [vm_compute; reflexivity|]. apply (connectivity_alternates "onu" ∅ ∅ s). apply acts_reachable.
Defined.

Lemma queues_never_return_witness :
  let s' := foldl (λ s a, (act a s).2) (set_enabled false (acts [ASetEnabled true])).2 [ASetEnabled true] in
  enabled s' = true ∧ alarm_queue s' = None ∧ avc_queue s' = None ∧ test_results_queue s' = None.
Proof.
  intros s'. split; [vm_compute; reflexivity|]. apply (queues_never_return (acts [ASetEnabled true]) [ASetEnabled true]).
  vm_compute. reflexivity.
Defined.

Lemma unknown_me_decoded_witness :
  decode_unknown_me (be16 7 ++ [x2e; x0a] ++ be16 2 ++ be16 0 ++ be16 65000 ++ be16 3 ++ be16 1024 ++ [xab; x01] ++
      [x00; x00; x00; x28]) (acts []) =
  (Ok (RxFrame 7 46 46 (Reply None None (Some 65000) (Some 3) (Some {["voltha-unknown-blob" := Plain (AStr "ab01")]})
         None None None)), acts []).
Proof.
  apply (unknown_me_decoded 7 2 0 65000 3 1024 [xab; x01] [x00; x00; x00; x28] (acts [])); [lia..|reflexivity].
Defined.
End sample.
