(* ===== verification/OmciClasses.v ===== *)
(** * The managed entities

    The entity classes of src/voltha/extensions/omci/omci_entities.py, as
    tables: the fields with their defaults and sizes, the access to each, its
    range check and its flags, and the operations of the class.  A table gives
    an entity class of OmciEntities.v once scapy has made its fields. *)
From S2P Require Import Prelude MibDb OmciEntities OmciTasks OmciTasksProofs OmciCC.
From stdpp Require Import base gmap list strings sorting.
From Stdlib Require Import ZArith Lia.
From Stdlib.Strings Require Import Byte.

Local Open Scope Z_scope.

(** ** Tables *)

(** scapy fields as they are written: name, default and size; a list has a
    fixed number of elements. *)
Inductive field_spec :=
  | ByteField (name : string) (default : aval)
  | ShortField (name : string) (default : aval)
  | IntField (name : string) (default : aval)
  | LongField (name : string) (default : aval)
  | MACField (name : string) (default : aval)
  | IPField (name : string) (default : aval)
  | StrFixedLenField (name : string) (default : aval) (length : Z)
  | BitField (name : string) (default : aval) (size : Z)
  | FieldListField (name : string) (default : aval) (element : field_spec) (count : Z).

Definition spec_name (f : field_spec) : string :=
  match f with
  | ByteField n _ | ShortField n _ | IntField n _ | LongField n _ | MACField n _ | IPField n _ => n
  | StrFixedLenField n _ _ | BitField n _ _ | FieldListField n _ _ _ => n
  end.

Definition spec_type (f : field_spec) : string :=
  match f with
  | ByteField _ _ => "ByteField"
  | ShortField _ _ => "ShortField"
  | IntField _ _ => "IntField"
  | LongField _ _ => "LongField"
  | MACField _ _ => "MACField"
  | IPField _ _ => "IPField"
  | StrFixedLenField _ _ _ => "StrFixedLenField"
  | BitField _ _ _ => "BitField"
  | FieldListField _ _ _ _ => "FieldListField"
  end.

(** Its size in bits. *)
Fixpoint spec_bits (f : field_spec) : Z :=
  match f with
  | ByteField _ _ => 8
  | ShortField _ _ => 16
  | IntField _ _ | IPField _ _ => 32
  | MACField _ _ => 48
  | LongField _ _ => 64
  | StrFixedLenField _ _ n => 8 * n
  | BitField _ _ n => n
  | FieldListField _ _ e n => n * spec_bits e
  end.

(** [EntityClassAttribute] *)
Record eca := Eca {
  a_field : field_spec;
  a_access : list access;
  a_optional : bool;
  a_range_check : option (aval → bool);
  a_avc : bool;
  a_deprecated : bool;
}.

Record me_table := MeTable {
  t_name : string;
  t_class_id : Z;
  t_attributes : list eca;
  t_mandatory : list operation;
  t_optional : list operation;
  t_notifications : list operation;
}.

(** Range checks are on numbers; a string is above all numbers in Python 2.
    The checks that are not bounded above are on fields whose type is checked
    first. *)
Definition on_int (f : Z → bool) (v : aval) : bool := match v with AInt x => f x | _ => false end.
Definition between (a b : Z) : aval → bool := on_int (λ x, (a <=? x) && (x <=? b)).
Definition is_zero (v : aval) : bool := bool_decide (v = AInt 0).
Definition OmciNullPointer : Z := 0xffff.

Definition OntData : me_table :=
  MeTable "OntData" 2
    [
      Eca (ShortField "managed_entity_id" ANone) [AA_R] false (Some is_zero) false false;
      Eca (ShortField "mib_data_sync" (AInt 0)) [AA_R; AA_W] false None false false ]
    [OpGet; OpSet; OpGetAllAlarms; OpGetAllAlarmsNext; OpMibReset; OpMibUpload; OpMibUploadNext]
    []
    [].

Definition Cardholder : me_table :=
  MeTable "Cardholder" 5
    [
      Eca (ShortField "managed_entity_id" ANone) [AA_R] false (Some (on_int (λ x, (((0 <=? x) && (x <? 255)) || ((256
        <=? x) && (x <? 511)))))) true false;
      Eca (ByteField "actual_plugin_unit_type" ANone) [AA_R] false None false false;
      Eca (ByteField "expected_plugin_unit_type" ANone) [AA_R; AA_W] false None false false;
      Eca (ByteField "expected_port_count" ANone) [AA_R; AA_W] true None false false;
      Eca (StrFixedLenField "expected_equipment_id" ANone 20) [AA_R; AA_W] true None true false;
      Eca (StrFixedLenField "actual_equipment_id" ANone 20) [AA_R] true None false false;
      Eca (ByteField "protection_profile_pointer" ANone) [AA_R] true None false false;
      Eca (ByteField "invoke_protection_switch" ANone) [AA_R; AA_W] true (Some (between 0 3)) false false;
      Eca (ByteField "arc" (AInt 0)) [AA_R; AA_W] true (Some (between 0 1)) true false;
      Eca (ByteField "arc_interval" (AInt 0)) [AA_R; AA_W] true None false false ]
    [OpGet; OpSet]
    []
    [OpAttributeValueChange; OpAlarmNotification].

Definition CircuitPack : me_table :=
  MeTable "CircuitPack" 6
    [
      Eca (StrFixedLenField "managed_entity_id" ANone 22) [AA_R; AA_SBC] false (Some (on_int (λ x, (((0 <=? x) && (x
        <? 255)) || ((256 <=? x) && (x <? 511)))))) false false;
      Eca (ByteField "type" ANone) [AA_R; AA_SBC] false None false false;
      Eca (ByteField "number_of_ports" ANone) [AA_R] true None false false;
      Eca (StrFixedLenField "serial_number" ANone 8) [AA_R] false None false false;
      Eca (StrFixedLenField "version" ANone 14) [AA_R] false None false false;
      Eca (StrFixedLenField "vendor_id" ANone 4) [AA_R] false None false false;
      Eca (ByteField "administrative_state" ANone) [AA_R; AA_W] false None false false;
      Eca (ByteField "operational_state" ANone) [AA_R] true None true false;
      Eca (ByteField "bridged_or_ip_ind" ANone) [AA_R; AA_W] true (Some (between 0 2)) false false;
      Eca (StrFixedLenField "equipment_id" ANone 20) [AA_R] true None false false;
      Eca (ByteField "card_configuration" ANone) [AA_R; AA_W; AA_SBC] true None false false;
      Eca (ByteField "total_tcont_buffer_number" ANone) [AA_R] true None false false;
      Eca (ByteField "total_priority_queue_number" ANone) [AA_R] true None false false;
      Eca (ByteField "total_traffic_scheduler_number" ANone) [AA_R] true None false false;
      Eca (IntField "power_sched_override" ANone) [AA_R; AA_W] true None false false ]
    [OpGet; OpSet; OpReboot]
    [OpCreate; OpDelete; OpTest]
    [OpAttributeValueChange; OpAlarmNotification].

Definition SoftwareImage : me_table :=
  MeTable "SoftwareImage" 7
    [
      Eca (ShortField "managed_entity_id" ANone) [AA_R] false (Some (on_int (λ x, (((0 <=? (x / 256)) && ((x / 256)
        <=? 254)) || ((0 <=? (x mod 256)) && ((x mod 256) <=? 1)))))) false false;
      Eca (StrFixedLenField "version" ANone 14) [AA_R] false None true false;
      Eca (ByteField "is_committed" ANone) [AA_R] false (Some (between 0 1)) true false;
      Eca (ByteField "is_active" ANone) [AA_R] false (Some (between 0 1)) true false;
      Eca (ByteField "is_valid" ANone) [AA_R] false (Some (between 0 1)) true false;
      Eca (StrFixedLenField "product_code" ANone 25) [AA_R] true None true false;
      Eca (StrFixedLenField "image_hash" ANone 16) [AA_R] true None true false ]
    [OpGet; OpStartSoftwareDownload; OpDownloadSection; OpEndSoftwareDownload; OpActivateSoftware; OpCommitSoftware]
    []
    [OpAttributeValueChange].

Definition PptpEthernetUni : me_table :=
  MeTable "PptpEthernetUni" 11
    [
      Eca (ShortField "managed_entity_id" ANone) [AA_R] false None false false;
      Eca (ByteField "expected_type" (AInt 0)) [AA_R; AA_W] false (Some (between 0 254)) false false;
      Eca (ByteField "sensed_type" (AInt 0)) [AA_R] true None true false;
      Eca (ByteField "autodetection_config" (AInt 0)) [AA_R; AA_W] true (Some (on_int (λ x, bool_decide (x ∈ [0; 1;
        2; 3; 4; 5; 16; 17; 18; 19; 20; 32; 48])))) false false;
      Eca (ByteField "ethernet_loopback_config" (AInt 0)) [AA_R; AA_W] false (Some (on_int (λ x, bool_decide (x ∈ [0;
        3])))) false false;
      Eca (ByteField "administrative_state" (AInt 1)) [AA_R; AA_W] false (Some (between 0 1)) false false;
      Eca (ByteField "operational_state" (AInt 1)) [AA_R; AA_W] true (Some (between 0 1)) true false;
      Eca (ByteField "config_ind" (AInt 0)) [AA_R] false (Some (on_int (λ x, bool_decide (x ∈ [0; 1; 2; 3; 4; 17; 18;
        19])))) false false;
      Eca (ShortField "max_frame_size" (AInt 1518)) [AA_R; AA_W] true None false false;
      Eca (ByteField "dte_dce_ind" (AInt 0)) [AA_R; AA_W] false (Some (between 0 2)) false false;
      Eca (ShortField "pause_time" (AInt 0)) [AA_R; AA_W] true None false false;
      Eca (ByteField "bridged_ip_ind" (AInt 2)) [AA_R; AA_W] true (Some (between 0 2)) false false;
      Eca (ByteField "arc" (AInt 0)) [AA_R; AA_W] true (Some (between 0 1)) true false;
      Eca (ByteField "arc_interval" (AInt 0)) [AA_R; AA_W] true None false false;
      Eca (ByteField "pppoe_filter" (AInt 0)) [AA_R; AA_W] true None false false;
      Eca (ByteField "power_control" (AInt 0)) [AA_R; AA_W] true None false false ]
    [OpGet; OpSet]
    []
    [OpAttributeValueChange; OpAlarmNotification].

Definition MacBridgeServiceProfile : me_table :=
  MeTable "MacBridgeServiceProfile" 45
    [
      Eca (ShortField "managed_entity_id" ANone) [AA_R; AA_SBC] false None false false;
      Eca (ByteField "spanning_tree_ind" ANone) [AA_R; AA_W; AA_SBC] false (Some (between 0 1)) false false;
      Eca (ByteField "learning_ind" ANone) [AA_R; AA_W; AA_SBC] false (Some (between 0 1)) false false;
      Eca (ByteField "port_bridging_ind" ANone) [AA_R; AA_W; AA_SBC] false (Some (between 0 1)) false false;
      Eca (ShortField "priority" ANone) [AA_R; AA_W; AA_SBC] false None false false;
      Eca (ShortField "max_age" ANone) [AA_R; AA_W; AA_SBC] false (Some (between 1536 10240)) false false;
      Eca (ShortField "hello_time" ANone) [AA_R; AA_W; AA_SBC] false (Some (between 256 2560)) false false;
      Eca (ShortField "forward_delay" ANone) [AA_R; AA_W; AA_SBC] false (Some (between 1024 7680)) false false;
      Eca (ByteField "unknown_mac_address_discard" ANone) [AA_R; AA_W; AA_SBC] false (Some (between 0 1)) false false;
      Eca (ByteField "mac_learning_depth" ANone) [AA_R; AA_W; AA_SBC] true None false false;
      Eca (ByteField "dynamic_filtering_ageing_time" ANone) [AA_R; AA_W; AA_SBC] true None false false ]
    [OpCreate; OpDelete; OpGet; OpSet]
    []
    [].

Definition MacBridgePortConfigurationData : me_table :=
  MeTable "MacBridgePortConfigurationData" 47
    [
      Eca (ShortField "managed_entity_id" ANone) [AA_R; AA_SBC] false None false false;
      Eca (ShortField "bridge_id_pointer" ANone) [AA_R; AA_W; AA_SBC] false None false false;
      Eca (ByteField "port_num" ANone) [AA_R; AA_W; AA_SBC] false None false false;
      Eca (ByteField "tp_type" ANone) [AA_R; AA_W; AA_SBC] false (Some (between 1 12)) false false;
      Eca (ShortField "tp_pointer" ANone) [AA_R; AA_W; AA_SBC] false None false false;
      Eca (ShortField "port_priority" ANone) [AA_R; AA_W; AA_SBC] false None false false;
      Eca (ShortField "port_path_cost" ANone) [AA_R; AA_W; AA_SBC] false None false false;
      Eca (ByteField "port_spanning_tree_in" ANone) [AA_R; AA_W; AA_SBC] false None false false;
      Eca (ByteField "encapsulation_methods" ANone) [AA_R; AA_W; AA_SBC] true None false true;
      Eca (ByteField "lan_fcs_ind" ANone) [AA_R; AA_W; AA_SBC] true None false true;
      Eca (MACField "port_mac_address" ANone) [AA_R] true None false false;
      Eca (ShortField "outbound_td_pointer" ANone) [AA_R; AA_W] true None false false;
      Eca (ShortField "inbound_td_pointer" ANone) [AA_R; AA_W] true None false false;
      Eca (ByteField "mac_learning_depth" (AInt 0)) [AA_R; AA_W; AA_SBC] true None false false ]
    [OpCreate; OpDelete; OpGet; OpSet]
    []
    [OpAlarmNotification].

Definition MacBridgePortFilterPreAssignTable : me_table :=
  MeTable "MacBridgePortFilterPreAssignTable" 79
    [
      Eca (ShortField "managed_entity_id" ANone) [AA_R; AA_SBC] false None false false;
      Eca (ShortField "ipv4_multicast" (AInt 0)) [AA_R; AA_W] false (Some (between 0 1)) false false;
      Eca (ShortField "ipv6_multicast" (AInt 0)) [AA_R; AA_W] false (Some (between 0 1)) false false;
      Eca (ShortField "ipv4_broadcast" (AInt 0)) [AA_R; AA_W] false (Some (between 0 1)) false false;
      Eca (ShortField "rarp" (AInt 0)) [AA_R; AA_W] false (Some (between 0 1)) false false;
      Eca (ShortField "ipx" (AInt 0)) [AA_R; AA_W] false (Some (between 0 1)) false false;
      Eca (ShortField "netbeui" (AInt 0)) [AA_R; AA_W] false (Some (between 0 1)) false false;
      Eca (ShortField "appletalk" (AInt 0)) [AA_R; AA_W] false (Some (between 0 1)) false false;
      Eca (ShortField "bridge_management_information" (AInt 0)) [AA_R; AA_W] false (Some (between 0 1)) false false;
      Eca (ShortField "arp" (AInt 0)) [AA_R; AA_W] false (Some (between 0 1)) false false;
      Eca (ShortField "pppoe_broadcast" (AInt 0)) [AA_R; AA_W] false (Some (between 0 1)) false false ]
    [OpGet; OpSet]
    []
    [OpAlarmNotification].

Definition VlanTaggingFilterData : me_table :=
  MeTable "VlanTaggingFilterData" 84
    [
      Eca (ShortField "managed_entity_id" ANone) [AA_R; AA_SBC] false None false false;
      Eca (FieldListField "vlan_filter_list" ANone (ShortField "" (AInt 0)) 12) [AA_R; AA_W; AA_SBC] false
        None false false;
      Eca (ByteField "forward_operation" ANone) [AA_R; AA_W; AA_SBC] false (Some (between 0 33)) false false;
      Eca (ByteField "number_of_entries" ANone) [AA_R; AA_W; AA_SBC] false None false false ]
    [OpCreate; OpDelete; OpGet; OpSet]
    []
    [].

Definition Ieee8021pMapperServiceProfile : me_table :=
  MeTable "Ieee8021pMapperServiceProfile" 130
    [
      Eca (ShortField "managed_entity_id" ANone) [AA_R; AA_SBC] false None false false;
      Eca (ShortField "tp_pointer" ANone) [AA_R; AA_W; AA_SBC] false None false false;
      Eca (ShortField "interwork_tp_pointer_for_p_bit_priority_0" (AOther "type" "OmciNullPointer")) [AA_R; AA_W;
        AA_SBC] false None false false;
      Eca (ShortField "interwork_tp_pointer_for_p_bit_priority_1" (AOther "type" "OmciNullPointer")) [AA_R; AA_W;
        AA_SBC] false None false false;
      Eca (ShortField "interwork_tp_pointer_for_p_bit_priority_2" (AOther "type" "OmciNullPointer")) [AA_R; AA_W;
        AA_SBC] false None false false;
      Eca (ShortField "interwork_tp_pointer_for_p_bit_priority_3" (AOther "type" "OmciNullPointer")) [AA_R; AA_W;
        AA_SBC] false None false false;
      Eca (ShortField "interwork_tp_pointer_for_p_bit_priority_4" (AOther "type" "OmciNullPointer")) [AA_R; AA_W;
        AA_SBC] false None false false;
      Eca (ShortField "interwork_tp_pointer_for_p_bit_priority_5" (AOther "type" "OmciNullPointer")) [AA_R; AA_W;
        AA_SBC] false None false false;
      Eca (ShortField "interwork_tp_pointer_for_p_bit_priority_6" (AOther "type" "OmciNullPointer")) [AA_R; AA_W;
        AA_SBC] false None false false;
      Eca (ShortField "interwork_tp_pointer_for_p_bit_priority_7" (AOther "type" "OmciNullPointer")) [AA_R; AA_W;
        AA_SBC] false None false false;
      Eca (ByteField "unmarked_frame_option" ANone) [AA_R; AA_W; AA_SBC] false (Some (between 0 1)) false false;
      Eca (StrFixedLenField "dscp_to_p_bit_mapping" ANone 24) [AA_R; AA_W] false None false false;
      Eca (ByteField "default_p_bit_marking" ANone) [AA_R; AA_W; AA_SBC] false None false false;
      Eca (ByteField "tp_type" ANone) [AA_R; AA_W; AA_SBC] true (Some (between 0 8)) false false ]
    [OpCreate; OpDelete; OpGet; OpSet]
    []
    [].

Definition OltG : me_table :=
  MeTable "OltG" 131
    [
      Eca (ShortField "managed_entity_id" ANone) [AA_R] false (Some is_zero) false false;
      Eca (StrFixedLenField "olt_vendor_id" ANone 4) [AA_R; AA_W] false None false false;
      Eca (StrFixedLenField "equipment_id" ANone 20) [AA_R; AA_W] false None false false;
      Eca (StrFixedLenField "version" ANone 14) [AA_R; AA_W] false None false false;
      Eca (StrFixedLenField "time_of_day" ANone 14) [AA_R; AA_W] false None false false ]
    [OpGet; OpSet]
    []
    [].

Definition OntPowerShedding : me_table :=
  MeTable "OntPowerShedding" 133
    [
      Eca (ShortField "managed_entity_id" ANone) [AA_R] false (Some is_zero) false false;
      Eca (ShortField "restore_power_time_reset_interval" (AInt 0)) [AA_R; AA_W] false None false false;
      Eca (ShortField "data_class_shedding_interval" (AInt 0)) [AA_R; AA_W] false None false false;
      Eca (ShortField "voice_class_shedding_interval" (AInt 0)) [AA_R; AA_W] false None false false;
      Eca (ShortField "video_overlay_class_shedding_interval" (AInt 0)) [AA_R; AA_W] false None false false;
      Eca (ShortField "video_return_class_shedding_interval" (AInt 0)) [AA_R; AA_W] false None false false;
      Eca (ShortField "dsl_class_shedding_interval" (AInt 0)) [AA_R; AA_W] false None false false;
      Eca (ShortField "atm_class_shedding_interval" (AInt 0)) [AA_R; AA_W] false None false false;
      Eca (ShortField "ces_class_shedding_interval" (AInt 0)) [AA_R; AA_W] false None false false;
      Eca (ShortField "frame_class_shedding_interval" (AInt 0)) [AA_R; AA_W] false None false false;
      Eca (ShortField "sonet_class_shedding_interval" (AInt 0)) [AA_R; AA_W] false None false false;
      Eca (ShortField "shedding_status" ANone) [AA_R; AA_W] true None true false ]
    [OpGet; OpSet]
    []
    [OpAttributeValueChange].

Definition IpHostConfigData : me_table :=
  MeTable "IpHostConfigData" 134
    [
      Eca (ShortField "managed_entity_id" ANone) [AA_R] false None false false;
      Eca (BitField "ip_options" (AInt 0) 8) [AA_R; AA_W] false None false false;
      Eca (MACField "mac_address" ANone) [AA_R] false None false false;
      Eca (StrFixedLenField "onu_identifier" ANone 25) [AA_R; AA_W] false None false false;
      Eca (IPField "ip_address" ANone) [AA_R; AA_W] false None false false;
      Eca (IPField "mask" ANone) [AA_R; AA_W] false None false false;
      Eca (IPField "gateway" ANone) [AA_R; AA_W] false None false false;
      Eca (IPField "primary_dns" ANone) [AA_R; AA_W] false None false false;
      Eca (IPField "secondary_dns" ANone) [AA_R; AA_W] false None false false;
      Eca (IPField "current_address" ANone) [AA_R] false None true false;
      Eca (IPField "current_mask" ANone) [AA_R] false None true false;
      Eca (IPField "current_gateway" ANone) [AA_R] false None true false;
      Eca (IPField "current_primary_dns" ANone) [AA_R] false None true false;
      Eca (IPField "current_secondary_dns" ANone) [AA_R] false None true false;
      Eca (StrFixedLenField "domain_name" ANone 25) [AA_R] false None true false;
      Eca (StrFixedLenField "host_name" ANone 25) [AA_R] false None true false;
      Eca (ShortField "relay_agent_options" ANone) [AA_R; AA_W] true None false false ]
    [OpGet; OpSet; OpTest]
    []
    [OpAttributeValueChange].

Definition ExtendedVlanTaggingOperationConfigurationData : me_table :=
  MeTable "ExtendedVlanTaggingOperationConfigurationData" 171
    [
      Eca (ShortField "managed_entity_id" ANone) [AA_R; AA_SBC] false None false false;
      Eca (ByteField "association_type" ANone) [AA_R; AA_W; AA_SBC] false (Some (between 0 11)) false false;
      Eca (ShortField "received_vlan_tagging_operation_table_max_size" ANone) [AA_R] false None false false;
      Eca (ShortField "input_tpid" ANone) [AA_R; AA_W] false None false false;
      Eca (ShortField "output_tpid" ANone) [AA_R; AA_W] false None false false;
      Eca (ByteField "downstream_mode" ANone) [AA_R; AA_W] false (Some (between 0 8)) false false;
      Eca (StrFixedLenField "received_frame_vlan_tagging_operation_table" (AOther "type" "VlanTaggingOperation") 16)
        [AA_R; AA_W] false None false false;
      Eca (ShortField "associated_me_pointer" ANone) [AA_R; AA_W; AA_SBC] false None false false;
      Eca (FieldListField "dscp_to_p_bit_mapping" ANone (BitField "" (AInt 0) 3) 64) [AA_R; AA_W] false None
        false false ]
    [OpCreate; OpDelete; OpSet; OpGet; OpGetNext]
    [OpSetTable]
    [].

Definition OntG : me_table :=
  MeTable "OntG" 256
    [
      Eca (ShortField "managed_entity_id" ANone) [AA_R] false (Some is_zero) false false;
      Eca (StrFixedLenField "vendor_id" ANone 4) [AA_R] false None false false;
      Eca (StrFixedLenField "version" ANone 14) [AA_R] false None false false;
      Eca (StrFixedLenField "serial_number" ANone 8) [AA_R] false None false false;
      Eca (ByteField "traffic_management_options" ANone) [AA_R] false (Some (between 0 2)) false false;
      Eca (ByteField "vp_vc_cross_connection_option" (AInt 0)) [AA_R] true None false true;
      Eca (ByteField "battery_backup" ANone) [AA_R; AA_W] false (Some (between 0 1)) false false;
      Eca (ByteField "administrative_state" ANone) [AA_R; AA_W] false (Some (between 0 1)) false false;
      Eca (ByteField "operational_state" ANone) [AA_R] true (Some (between 0 1)) true false;
      Eca (ByteField "ont_survival_time" ANone) [AA_R] true None false false;
      Eca (StrFixedLenField "logical_onu_id" ANone 24) [AA_R] true None true false;
      Eca (StrFixedLenField "logical_password" ANone 12) [AA_R] true None true false;
      Eca (ByteField "credentials_status" ANone) [AA_R; AA_W] true (Some (between 0 4)) false false;
      Eca (BitField "extended_tc_layer_options" ANone 16) [AA_R] true None false false ]
    [OpGet; OpSet; OpReboot; OpTest; OpSynchronizeTime]
    []
    [OpTestResult; OpAttributeValueChange; OpAlarmNotification].

Definition Ont2G : me_table :=
  MeTable "Ont2G" 257
    [
      Eca (ShortField "managed_entity_id" ANone) [AA_R] false (Some is_zero) false false;
      Eca (StrFixedLenField "equipment_id" ANone 20) [AA_R] false None false false;
      Eca (ByteField "omcc_version" ANone) [AA_R] false None true false;
      Eca (ShortField "vendor_product_code" ANone) [AA_R] false None false false;
      Eca (ByteField "security_capability" ANone) [AA_R] false (Some (between 0 1)) false false;
      Eca (ByteField "security_mode" ANone) [AA_R; AA_W] false (Some (between 0 1)) false false;
      Eca (ShortField "total_priority_queue_number" ANone) [AA_R] false None false false;
      Eca (ByteField "total_traffic_scheduler_number" ANone) [AA_R] false None false false;
      Eca (ByteField "mode" ANone) [AA_R] false None false true;
      Eca (ShortField "total_gem_port_id_number" ANone) [AA_R] false None false false;
      Eca (IntField "sys_uptime" ANone) [AA_R] false None false false;
      Eca (BitField "connectivity_capability" ANone 16) [AA_R] false None false false;
      Eca (ByteField "current_connectivity_mode" ANone) [AA_R; AA_W] false (Some (between 0 7)) false false;
      Eca (BitField "qos_configuration_flexibility" ANone 16) [AA_R] true None false false;
      Eca (ShortField "priority_queue_scale_factor" ANone) [AA_R; AA_W] true None false false ]
    [OpGet; OpSet]
    []
    [OpAttributeValueChange].

Definition Tcont : me_table :=
  MeTable "Tcont" 262
    [
      Eca (ShortField "managed_entity_id" ANone) [AA_R] false None false false;
      Eca (ShortField "alloc_id" ANone) [AA_R; AA_W] false None false false;
      Eca (ByteField "mode_indicator" (AInt 1)) [AA_R] false None false true;
      Eca (ByteField "policy" ANone) [AA_R; AA_W] false (Some (between 0 2)) false false ]
    [OpGet; OpSet]
    []
    [].

Definition AniG : me_table :=
  MeTable "AniG" 263
    [
      Eca (ShortField "managed_entity_id" ANone) [AA_R] false None false false;
      Eca (ByteField "sr_indication" ANone) [AA_R] false None false false;
      Eca (ShortField "total_tcont_number" ANone) [AA_R] false None false false;
      Eca (ShortField "gem_block_length" ANone) [AA_R; AA_W] false None false false;
      Eca (ByteField "piggyback_dba_reporting" ANone) [AA_R] false (Some (between 0 4)) false false;
      Eca (ByteField "whole_ont_dba_reporting" ANone) [AA_R] false None false true;
      Eca (ByteField "sf_threshold" (AInt 5)) [AA_R; AA_W] false None false false;
      Eca (ByteField "sd_threshold" (AInt 9)) [AA_R; AA_W] false None false false;
      Eca (ByteField "arc" (AInt 0)) [AA_R; AA_W] false (Some (between 0 1)) true false;
      Eca (ByteField "arc_interval" (AInt 0)) [AA_R; AA_W] false None false false;
      Eca (ShortField "optical_signal_level" ANone) [AA_R] false None false false;
      Eca (ByteField "lower_optical_threshold" (AInt 255)) [AA_R; AA_W] false None false false;
      Eca (ByteField "upper_optical_threshold" (AInt 255)) [AA_R; AA_W] false None false false;
      Eca (ByteField "ont_response_time" ANone) [AA_R] false None false false;
      Eca (ShortField "transmit_optical_level" ANone) [AA_R] false None false false;
      Eca (ByteField "lower_transmit_power_threshold" (AInt 129)) [AA_R; AA_W] false None false false;
      Eca (ByteField "upper_transmit_power_threshold" (AInt 129)) [AA_R; AA_W] false None false false ]
    [OpGet; OpSet; OpTest]
    []
    [OpAttributeValueChange; OpAlarmNotification].

Definition UniG : me_table :=
  MeTable "UniG" 264
    [
      Eca (ShortField "managed_entity_id" ANone) [AA_R] false None false false;
      Eca (ShortField "configuration_option_status" ANone) [AA_R; AA_W] false None false true;
      Eca (ByteField "administrative_state" ANone) [AA_R; AA_W] false None false false;
      Eca (ByteField "management_capability" ANone) [AA_R] false (Some (between 0 2)) false false;
      Eca (ShortField "non_omci_management_identifier" ANone) [AA_R; AA_W] false None false false;
      Eca (ShortField "relay_agent_options" ANone) [AA_R; AA_W] true None false false ]
    [OpGet; OpSet]
    []
    [].

Definition GemInterworkingTp : me_table :=
  MeTable "GemInterworkingTp" 266
    [
      Eca (ShortField "managed_entity_id" ANone) [AA_R; AA_SBC] false None false false;
      Eca (ShortField "gem_port_network_ctp_pointer" ANone) [AA_R; AA_W; AA_SBC] false None false false;
      Eca (ByteField "interworking_option" ANone) [AA_R; AA_W; AA_SBC] false (Some (between 0 7)) false false;
      Eca (ShortField "service_profile_pointer" ANone) [AA_R; AA_W; AA_SBC] false None false false;
      Eca (ShortField "interworking_tp_pointer" ANone) [AA_R; AA_W; AA_SBC] false None false false;
      Eca (ByteField "pptp_counter" ANone) [AA_R] true None false false;
      Eca (ByteField "operational_state" ANone) [AA_R] true (Some (between 0 1)) true false;
      Eca (ShortField "gal_profile_pointer" ANone) [AA_R; AA_W; AA_SBC] false None false false;
      Eca (ByteField "gal_loopback_configuration" (AInt 0)) [AA_R; AA_W] false (Some (between 0 1)) false false ]
    [OpCreate; OpDelete; OpGet; OpSet]
    []
    [OpAttributeValueChange; OpAlarmNotification].

Definition GemPortNetworkCtp : me_table :=
  MeTable "GemPortNetworkCtp" 268
    [
      Eca (ShortField "managed_entity_id" ANone) [AA_R; AA_SBC] false None false false;
      Eca (ShortField "port_id" ANone) [AA_R; AA_W; AA_SBC] false None false false;
      Eca (ShortField "tcont_pointer" ANone) [AA_R; AA_W; AA_SBC] false None false false;
      Eca (ByteField "direction" ANone) [AA_R; AA_W; AA_SBC] false (Some (between 1 3)) false false;
      Eca (ShortField "traffic_management_pointer_upstream" ANone) [AA_R; AA_W; AA_SBC] false None false false;
      Eca (ShortField "traffic_descriptor_profile_pointer" ANone) [AA_R; AA_W; AA_SBC] true None false false;
      Eca (ByteField "uni_counter" ANone) [AA_R] true None false false;
      Eca (ShortField "priority_queue_pointer_downstream" ANone) [AA_R; AA_W; AA_SBC] false None false false;
      Eca (ByteField "encryption_state" ANone) [AA_R] true None false false;
      Eca (ShortField "traffic_desc_profile_pointer_downstream" ANone) [AA_R; AA_W; AA_SBC] true None false false;
      Eca (ShortField "encryption_key_ring" ANone) [AA_R; AA_W; AA_SBC] false (Some (between 0 3)) false false ]
    [OpCreate; OpDelete; OpGet; OpSet]
    []
    [OpAlarmNotification].

Definition GalEthernetProfile : me_table :=
  MeTable "GalEthernetProfile" 272
    [
      Eca (ShortField "managed_entity_id" ANone) [AA_R; AA_SBC] false None false false;
      Eca (ShortField "max_gem_payload_size" ANone) [AA_R; AA_W; AA_SBC] false None false false ]
    [OpCreate; OpDelete; OpGet; OpSet]
    []
    [].

Definition PriorityQueueG : me_table :=
  MeTable "PriorityQueueG" 277
    [
      Eca (ShortField "managed_entity_id" ANone) [AA_R] false None false false;
      Eca (ByteField "queue_configuration_option" ANone) [AA_R] false (Some (between 0 1)) false false;
      Eca (ShortField "maximum_queue_size" ANone) [AA_R] false None false false;
      Eca (ShortField "allocated_queue_size" ANone) [AA_R; AA_W] false None false false;
      Eca (ShortField "discard_block_counter_reset_interval" ANone) [AA_R; AA_W] false None false false;
      Eca (ShortField "threshold_value_for_discarded_blocks" ANone) [AA_R; AA_W] false None false false;
      Eca (IntField "related_port" ANone) [AA_R] false None false false;
      Eca (ShortField "traffic_scheduler_pointer" (AInt 0)) [AA_R; AA_W] false None false false;
      Eca (ByteField "weight" (AInt 1)) [AA_R; AA_W] false None false false;
      Eca (ShortField "back_pressure_operation" (AInt 0)) [AA_R; AA_W] false (Some (between 0 1)) false false;
      Eca (IntField "back_pressure_time" (AInt 0)) [AA_R; AA_W] false None false false;
      Eca (ShortField "back_pressure_occur_queue_threshold" ANone) [AA_R; AA_W] false None false false;
      Eca (ShortField "back_pressure_clear_queue_threshold" ANone) [AA_R; AA_W] false None false false;
      Eca (LongField "packet_drop_queue_thresholds" ANone) [AA_R; AA_W] true None false false;
      Eca (ShortField "packet_drop_max_p" (AInt 65535)) [AA_R; AA_W] true None false false;
      Eca (ByteField "queue_drop_w_q" (AInt 9)) [AA_R; AA_W] true None false false;
      Eca (ByteField "drop_precedence_colour_marking" (AInt 0)) [AA_R; AA_W] true (Some (between 0 7)) false false ]
    [OpGet; OpSet]
    []
    [OpAlarmNotification].

Definition TrafficSchedulerG : me_table :=
  MeTable "TrafficSchedulerG" 278
    [
      Eca (ShortField "managed_entity_id" ANone) [AA_R] false None false false;
      Eca (ShortField "tcont_pointer" ANone) [AA_R] false None false false;
      Eca (ShortField "traffic_scheduler_pointer" ANone) [AA_R] false None false false;
      Eca (ByteField "policy" ANone) [AA_R; AA_W] false (Some (between 0 2)) false false;
      Eca (ByteField "priority_weight" (AInt 0)) [AA_R; AA_W] false None false false ]
    [OpGet; OpSet]
    []
    [].

Definition MulticastGemInterworkingTp : me_table :=
  MeTable "MulticastGemInterworkingTp" 281
    [
      Eca (ShortField "managed_entity_id" ANone) [AA_R; AA_SBC] false (Some (on_int (λ x, negb (x =?
        OmciNullPointer)))) false false;
      Eca (ShortField "gem_port_network_ctp_pointer" ANone) [AA_R; AA_SBC] false None false false;
      Eca (ByteField "interworking_option" ANone) [AA_R; AA_W; AA_SBC] false (Some (on_int (λ x, bool_decide (x ∈ [0;
        1; 3; 5])))) false false;
      Eca (ShortField "service_profile_pointer" ANone) [AA_R; AA_W; AA_SBC] false None false false;
      Eca (ShortField "interworking_tp_pointer" (AInt 0)) [AA_R; AA_W; AA_SBC] false None false true;
      Eca (ByteField "pptp_counter" ANone) [AA_R] false None false false;
      Eca (ByteField "operational_state" ANone) [AA_R] false (Some (between 0 1)) true false;
      Eca (ShortField "gal_profile_pointer" ANone) [AA_R; AA_W; AA_SBC] false None false false;
      Eca (ByteField "gal_loopback_configuration" ANone) [AA_R; AA_W; AA_SBC] false None false true ]
    [OpCreate; OpDelete; OpGet; OpGetNext; OpSet]
    [OpSetTable]
    [OpAttributeValueChange; OpAlarmNotification].

Definition MulticastOperationsProfile : me_table :=
  MeTable "MulticastOperationsProfile" 309
    [
      Eca (ShortField "managed_entity_id" ANone) [AA_R; AA_SBC] false (Some (on_int (λ x, (negb (x =? 0) && negb (x
        =? OmciNullPointer))))) false false;
      Eca (ByteField "igmp_version" ANone) [AA_R; AA_W; AA_SBC] false (Some (on_int (λ x, bool_decide (x ∈ [1; 2; 3;
        16; 17])))) false false;
      Eca (ByteField "igmp_function" ANone) [AA_R; AA_W; AA_SBC] false (Some (between 0 2)) false false;
      Eca (ByteField "immediate_leave" ANone) [AA_R; AA_W; AA_SBC] false (Some (between 0 1)) false false;
      Eca (ShortField "us_igmp_tci" ANone) [AA_R; AA_W; AA_SBC] true None false false;
      Eca (ByteField "us_igmp_tag_ctrl" ANone) [AA_R; AA_W; AA_SBC] true (Some (between 0 3)) false false;
      Eca (IntField "us_igmp_rate" ANone) [AA_R; AA_W; AA_SBC] true None false false;
      Eca (StrFixedLenField "dynamic_access_control_list_table" ANone 24) [AA_R; AA_W] false None false false;
      Eca (StrFixedLenField "static_access_control_list_table" ANone 24) [AA_R; AA_W] false None false false;
      Eca (StrFixedLenField "lost_groups_list_table" ANone 10) [AA_R] false None false false;
      Eca (ByteField "robustness" ANone) [AA_R; AA_W; AA_SBC] false None false false;
      Eca (IntField "querier_ip" ANone) [AA_R; AA_W; AA_SBC] false None false false;
      Eca (IntField "query_interval" ANone) [AA_R; AA_W; AA_SBC] false None false false;
      Eca (IntField "querier_max_response_time" ANone) [AA_R; AA_W; AA_SBC] false None false false;
      Eca (IntField "last_member_response_time" (AInt 10)) [AA_R; AA_W] false None false false;
      Eca (ByteField "unauthorized_join_behaviour" ANone) [AA_R; AA_W] false None false false;
      Eca (StrFixedLenField "ds_igmp_mcast_tci" ANone 3) [AA_R; AA_W; AA_SBC] true None false false ]
    [OpCreate; OpDelete; OpSet; OpGet; OpGetNext]
    [OpSetTable]
    [OpAlarmNotification].

Definition MulticastSubscriberConfigInfo : me_table :=
  MeTable "MulticastSubscriberConfigInfo" 310
    [
      Eca (ShortField "managed_entity_id" ANone) [AA_R; AA_SBC] false None false false;
      Eca (ByteField "me_type" ANone) [AA_R; AA_W; AA_SBC] false (Some (between 0 1)) false false;
      Eca (ShortField "mcast_operations_profile_pointer" ANone) [AA_R; AA_W; AA_SBC] false None false false;
      Eca (ShortField "max_simultaneous_groups" ANone) [AA_R; AA_W; AA_SBC] false None false false;
      Eca (IntField "max_multicast_bandwidth" ANone) [AA_R; AA_W; AA_SBC] false None false false;
      Eca (ByteField "bandwidth_enforcement" ANone) [AA_R; AA_W; AA_SBC] false (Some (between 0 1)) false false;
      Eca (StrFixedLenField "multicast_service_package_table" ANone 20) [AA_R; AA_W] false None false false;
      Eca (StrFixedLenField "allowed_preview_groups_table" ANone 22) [AA_R; AA_W] false None false false ]
    [OpCreate; OpDelete; OpSet; OpGet; OpGetNext; OpSetTable]
    []
    [].

Definition VirtualEthernetInterfacePt : me_table :=
  MeTable "VirtualEthernetInterfacePt" 329
    [
      Eca (ShortField "managed_entity_id" ANone) [AA_R] false (Some (on_int (λ x, (negb (x =? 0) && negb (x =?
        OmciNullPointer))))) false false;
      Eca (ByteField "administrative_state" ANone) [AA_R; AA_W] false (Some (between 0 1)) false false;
      Eca (ByteField "operational_state" ANone) [AA_R] false (Some (between 0 1)) true false;
      Eca (StrFixedLenField "interdomain_name" ANone 25) [AA_R; AA_W] true None false false;
      Eca (ShortField "tcp_udp_pointer" ANone) [AA_R; AA_W] true None false false;
      Eca (ShortField "iana_assigned_port" ANone) [AA_R] false None false false ]
    [OpGet; OpSet]
    []
    [OpAttributeValueChange; OpAlarmNotification].

Definition Omci : me_table :=
  MeTable "Omci" 287
    [
      Eca (ShortField "managed_entity_id" ANone) [AA_R] false (Some is_zero) false false;
      Eca (FieldListField "me_type_table" ANone (ByteField "" (AInt 0)) 29) [AA_R] false None false false;
      Eca (FieldListField "message_type_table" ANone (ByteField "" (AInt 0)) 29) [AA_R] false None false false ]
    [OpGet; OpGetNext]
    []
    [].

Definition EnhSecurityControl : me_table :=
  MeTable "EnhSecurityControl" 332
    [
      Eca (ShortField "managed_entity_id" ANone) [AA_R] false None false false;
      Eca (BitField "olt_crypto_capabilities" ANone 128) [AA_W] false None false false;
      Eca (StrFixedLenField "olt_random_challenge_table" ANone 17) [AA_R; AA_W] false None false false;
      Eca (ByteField "olt_challenge_status" (AInt 0)) [AA_R; AA_W] false (Some (between 0 1)) false false;
      Eca (ByteField "onu_selected_crypto_capabilities" ANone) [AA_R] false None false false;
      Eca (StrFixedLenField "onu_random_challenge_table" ANone 16) [AA_R] false None true false;
      Eca (StrFixedLenField "onu_authentication_result_table" ANone 16) [AA_R] false None true false;
      Eca (StrFixedLenField "olt_authentication_result_table" ANone 17) [AA_W] false None false false;
      Eca (ByteField "olt_result_status" ANone) [AA_R; AA_W] false (Some (between 0 1)) false false;
      Eca (ByteField "onu_authentication_status" ANone) [AA_R] false (Some (between 0 5)) true false;
      Eca (StrFixedLenField "master_session_key_name" ANone 16) [AA_R] false None false false;
      Eca (StrFixedLenField "broadcast_key_table" ANone 18) [AA_R; AA_W] false None false false;
      Eca (ShortField "effective_key_length" ANone) [AA_R] false None false false ]
    [OpSet; OpGet; OpGetNext]
    []
    [OpAttributeValueChange].

Definition entity_classes : list me_table :=
  [OntData;
   Cardholder;
   CircuitPack;
   SoftwareImage;
   PptpEthernetUni;
   MacBridgeServiceProfile;
   MacBridgePortConfigurationData;
   MacBridgePortFilterPreAssignTable;
   VlanTaggingFilterData;
   Ieee8021pMapperServiceProfile;
   OltG;
   OntPowerShedding;
   IpHostConfigData;
   ExtendedVlanTaggingOperationConfigurationData;
   OntG;
   Ont2G;
   Tcont;
   AniG;
   UniG;
   GemInterworkingTp;
   GemPortNetworkCtp;
   GalEthernetProfile;
   PriorityQueueG;
   TrafficSchedulerG;
   MulticastGemInterworkingTp;
   MulticastOperationsProfile;
   MulticastSubscriberConfigInfo;
   VirtualEthernetInterfacePt;
   Omci;
   EnhSecurityControl].

(** ** Entity classes from tables *)
Section classes.
Context (make : field_spec → field).

Definition entity_class_attribute (a : eca) : attribute := ECA (make (a_field a)) (a_access a) (a_range_check a).

Definition class_of_table (t : me_table) : entity_class :=
  EntityClass (t_class_id t) (entity_class_attribute <$> t_attributes t) (t_mandatory t) (t_optional t).

(** [dict((c.class_id, c) for c in entity_classes)] *)
Definition class_map : gmap Z entity_class :=
  list_to_map ((λ t, (t_class_id t, class_of_table t)) <$> reverse entity_classes).

(** [EntityClass.serialize]: the attributes of the mask, or those given. *)
Definition attribute_indices_from_data (c : entity_class) (data : gmap string aval) `{DictOrder} : M octets (list Z) :=
  l ← foldM (λ acc name,
        i ← from_some KeyError (attribute_name_to_index_map c !! name); mret (acc ++ [Z.of_nat i])) [] (iteritems data).*1;
  mret (merge_sort Z.le l).

Definition serialize `{DictOrder} (c : entity_class) (data : gmap string aval) (mask : option Z) : M octets unit :=
  indices ← match mask with
            | Some m => mret (attribute_indices_from_mask m)
            | None => attribute_indices_from_data c data
            end;
  forM_ (λ index,
    a ← from_some IndexError (attr_at c index);
    v ← from_some OmciUninitializedFieldError (data !! attr_name a);
    _ ← (if valid a v then mret tt else raise OmciInvalidTypeError);
    addfield (fld a) v) indices.

Context (Hname : ∀ f, fname (make f) = spec_name f).

(** What the tables of all classes have in common. *)
Definition table_ok (t : me_table) : bool :=
  bool_decide (NoDup ((λ a, spec_name (a_field a)) <$> t_attributes t)) &&
  bool_decide (length (t_attributes t) ≤ 17)%nat &&
  bool_decide ((spec_name ∘ a_field <$> head (t_attributes t)) = Some "managed_entity_id") &&
  forallb (λ a, bool_decide (AA_W ∉ a_access a)) (firstn 1 (t_attributes t)) &&
  forallb (λ a, bool_decide (a_access a ≠ [])) (t_attributes t).

Lemma tables_ok : Forall (λ t, table_ok t = true) entity_classes.
Proof. unfold entity_classes. repeat (apply Forall_cons; split; [vm_compute; reflexivity|]). constructor. Qed.

Lemma class_ids_distinct : NoDup (t_class_id <$> entity_classes).
Proof. apply (bool_decide_unpack _). vm_compute. exact I. Qed.

Lemma table_class_ok t : t ∈ entity_classes → class_ok (class_of_table t) ∧ (length (t_attributes t) ≤ 17)%nat ∧
  (∃ a, head (t_attributes t) = Some a ∧ spec_name (a_field a) = "managed_entity_id" ∧ AA_W ∉ a_access a) ∧
  Forall (λ a, a_access a ≠ []) (t_attributes t).
Proof.
  intros Ht. pose proof (proj1 (Forall_forall _ _) tables_ok t Ht) as Hok. unfold table_ok in Hok.
  repeat (apply andb_true_iff in Hok as [Hok ?]). repeat match goal with H : bool_decide _ = true |- _ => apply bool_decide_eq_true in H end.
  split_and!; [|done| |].
  - unfold class_ok. simpl. rewrite <-list_fmap_compose. erewrite list_fmap_ext; [exact Hok|]. intros i a _. apply Hname.
  - destruct (t_attributes t) as [|a l]; [done|]. exists a. simpl in *. split_and!; [done|by simplify_eq|].
    rewrite andb_true_r in *. match goal with H : bool_decide (AA_W ∉ _) = true |- _ => by apply bool_decide_eq_true in H end.
  - apply Forall_forall. intros a Ha%list_elem_of_In. match goal with H : forallb _ (t_attributes t) = true |- _ =>
      by apply (proj1 (forallb_forall _ _) H), bool_decide_eq_true in Ha end.
Qed.

(** A mask of attributes that the class has. *)
Lemma mask_exists {St} c names (s : St) :
  (∀ n, n ∈ names → ∃ i, attribute_name_to_index_map c !! n = Some i ∧ (1 ≤ i ≤ 16)%nat) →
  ∃ mask, mask_for c names s = (Ok mask, s) ∧ is_uint 16 mask.
Proof.
  intros Hn. unfold mask_for. set (f := λ mask attr_name, _).
  assert (∀ m, is_uint 16 m → ∃ mask, foldM f m names s = (Ok mask, s) ∧ is_uint 16 mask) as Hgen; [|by apply Hgen].
  induction names as [|n names IH]; intros m Hm; [by exists m|]. destruct (Hn n) as (i&Hi&Hr); [left|].
  destruct (IH (λ n H, Hn n (list_elem_of_further _ _ _ H)) (Z.lor m (Z.shiftl 1 (16 - Z.of_nat i)))) as (mask&Hf&Hu).
  { apply is_uint_lor; [done|done|]. unfold is_uint. rewrite Z.shiftl_1_l. split; [apply Z.pow_nonneg; done|].
    apply Z.pow_lt_mono_r; lia. }
  exists mask. split; [|done]. cbn [foldM]. assert (f m n s = (Ok (Z.lor m (Z.shiftl 1 (16 - Z.of_nat i))), s)) as Hstep.
  { unfold f. rewrite Hi. erewrite bind_ok by done. by rewrite decide_False by lia. }
  by rewrite (bind_ok _ _ _ _ _ Hstep).
Qed.

(** For every managed entity and every set of its attributes, their mask is
    a 16 bit number from which exactly these attributes are read back. *)
Theorem masks_exact {St} t names (s : St) : t ∈ entity_classes →
  (∀ n, n ∈ names → n ≠ "managed_entity_id" ∧ n ∈ (λ a, spec_name (a_field a)) <$> t_attributes t) →
  ∃ mask, mask_for (class_of_table t) names s = (Ok mask, s) ∧ 0 ≤ mask < 2 ^ 16 ∧
    ∀ i, i ∈ attribute_indices_from_mask mask ↔
      1 ≤ i ∧ ∃ a, t_attributes t !! Z.to_nat i = Some a ∧ spec_name (a_field a) ∈ names.
Proof.
  intros Ht Hn. destruct (table_class_ok t Ht) as (Hok&Hlen&(a0&Ha0&Hm0&_)&_).
  destruct (mask_exists (class_of_table t) names s) as (mask&Hm&Hu).
  { intros n Hin. destruct (Hn n Hin) as [Hne (a&Hna&Ha)%list_elem_of_fmap]. apply list_elem_of_lookup in Ha as [i Hi].
    exists i. split.
    - apply name_to_index; [done|]. exists (entity_class_attribute a). simpl. rewrite list_lookup_fmap, Hi. split; [done|].
      unfold attr_name. simpl. by rewrite Hname.
    - pose proof (lookup_lt_Some _ _ _ Hi). destruct i as [|i]; [|lia]. rewrite <-head_lookup in Hi. naive_solver. }
  exists mask. split_and!; [done|apply Hu..|]. intros i. rewrite (mask_indices _ _ _ _ _ i Hok Hm). unfold attr_at, attr_name. simpl.
  rewrite list_lookup_fmap. split; intros (Hi&a&Ha&Hin); (split; [done|]).
  - destruct (t_attributes t !! Z.to_nat i) as [b|]; [|done]. simpl in Ha. simplify_eq. exists b. simpl in Hin. by rewrite Hname in Hin.
  - rewrite Ha. exists (entity_class_attribute a). simpl. by rewrite Hname.
Qed.

(** The three classes that the tasks and the channel use are these. *)
Lemma same_ont_data : class_of_table OntData = OmciEntities.OntData (λ n d, make (ShortField n d)).
Proof. reflexivity. Qed.
Lemma same_omci : class_of_table Omci = OmciTasks.Omci (λ n d, make (ShortField n d))
  (λ n d, make (FieldListField n d (ByteField "" (AInt 0)) 29)).
Proof. reflexivity. Qed.
Lemma same_ont_g : class_of_table OntG = OmciCC.OntG (λ n d, make (ShortField n d)) (λ n d, make (ByteField n d))
  (λ n d k, make (StrFixedLenField n d k)) (λ n d k, make (BitField n d k)).
Proof. reflexivity. Qed.

Lemma class_found t : t ∈ entity_classes → class_map !! t_class_id t = Some (class_of_table t).
Proof.
  intros Ht. unfold class_map. apply elem_of_list_to_map_1.
  - rewrite <-list_fmap_compose.
    change (fst ∘ (λ t, (t_class_id t, class_of_table t))) with t_class_id. rewrite reverse_Permutation. apply class_ids_distinct.
  - apply list_elem_of_fmap. exists t. split; [done|]. by rewrite reverse_Permutation.
Qed.

(** The attributes that [create] must set and refuses, since it asks for write
    access: those that are set by create only. *)
Definition set_by_create_only : list (string * string) :=
  flat_map (λ t, if bool_decide (OpCreate ∈ t_mandatory t) then
    (λ a, (t_name t, spec_name (a_field a))) <$>
      filter (λ a, AA_SBC ∈ a_access a ∧ AA_W ∉ a_access a) (tail (t_attributes t)) else []) entity_classes.

Lemma forM_ext {St B} (f g : B → M St unit) l : (∀ b, b ∈ l → ∀ s, f b s = g b s) → ∀ s, forM_ f l s = forM_ g l s.
Proof.
  intros Hfg. induction l as [|b l IH]; intros s; [done|]. simpl. unfold mbind, M_bind. rewrite (Hfg b) by left.
  destruct (g b s) as [[u|e] s']; [|done]. apply IH. intros b' Hb'. apply Hfg. by right.
Qed.

(** Serializing an entity with a mask and encoding the data of a message
    with it write the same octets, when every attribute of the mask has a
    valid value. *)
Theorem serialize_agrees `{DictOrder} c data mask o :
  (∀ i, i ∈ attribute_indices_from_mask mask →
     ∃ a v, attr_at c i = Some a ∧ data !! attr_name a = Some v ∧ valid a v = true) →
  serialize c data (Some mask) o = masked_addfield (Some c) mask data o.
Proof.
  intros Hv. unfold serialize, masked_addfield. do 2 erewrite bind_ok by done. apply forM_ext. intros i Hi s.
  destruct (Hv i Hi) as (a&v&->&Hd&Hval).
  unfold mbind, M_bind. simpl. rewrite Hd. simpl. by rewrite Hval.
Qed.
End classes.

(** ** Rows of tables

    The packets that the octets of a table attribute hold. *)
Definition VlanTaggingOperation : list field_spec :=
  [ BitField "filter_outer_priority" (AInt 0) 4;
    BitField "filter_outer_vid" (AInt 0) 13;
    BitField "filter_outer_tpid_de" (AInt 0) 3;
    BitField "pad1" (AInt 0) 12;
    BitField "filter_inner_priority" (AInt 0) 4;
    BitField "filter_inner_vid" (AInt 0) 13;
    BitField "filter_inner_tpid_de" (AInt 0) 3;
    BitField "pad2" (AInt 0) 8;
    BitField "filter_ether_type" (AInt 0) 4;
    BitField "treatment_tags_to_remove" (AInt 0) 2;
    BitField "pad3" (AInt 0) 10;
    BitField "treatment_outer_priority" (AInt 0) 4;
    BitField "treatment_outer_vid" (AInt 0) 13;
    BitField "treatment_outer_tpid_de" (AInt 0) 3;
    BitField "pad4" (AInt 0) 12;
    BitField "treatment_inner_priority" (AInt 0) 4;
    BitField "treatment_inner_vid" (AInt 0) 13;
    BitField "treatment_inner_tpid_de" (AInt 0) 3 ].

Definition AccessControlRow0 : list field_spec :=
  [ BitField "set_ctrl" (AInt 0) 2;
    BitField "row_part_id" (AInt 0) 3;
    BitField "test" (AInt 0) 1;
    BitField "row_key" (AInt 0) 10;
    ShortField "gem_port_id" ANone;
    ShortField "vlan_id" ANone;
    IPField "src_ip" ANone;
    IPField "dst_ip_start" ANone;
    IPField "dst_ip_end" ANone;
    IntField "ipm_group_bw" ANone;
    ShortField "reserved0" (AInt 0) ].

Definition AccessControlRow1 : list field_spec :=
  [ BitField "set_ctrl" (AInt 0) 2;
    BitField "row_part_id" (AInt 0) 3;
    BitField "test" (AInt 0) 1;
    BitField "row_key" (AInt 0) 10;
    StrFixedLenField "ipv6_src_addr_start_bytes" ANone 12;
    ShortField "preview_length" ANone;
    ShortField "preview_repeat_time" ANone;
    ShortField "preview_repeat_count" ANone;
    ShortField "preview_reset_time" ANone;
    ShortField "reserved1" (AInt 0) ].

Definition AccessControlRow2 : list field_spec :=
  [ BitField "set_ctrl" (AInt 0) 2;
    BitField "row_part_id" (AInt 0) 3;
    BitField "test" (AInt 0) 1;
    BitField "row_key" (AInt 0) 10;
    StrFixedLenField "ipv6_dst_addr_start_bytes" ANone 12;
    StrFixedLenField "reserved2" ANone 10 ].

Definition DownstreamIgmpMulticastTci : list field_spec :=
  [ ByteField "ctrl_type" ANone;
    ShortField "tci" ANone ].

Definition MulticastServicePackage : list field_spec :=
  [ BitField "set_ctrl" (AInt 0) 2;
    BitField "reserved0" (AInt 0) 4;
    BitField "row_key" (AInt 0) 10;
    ShortField "vid_uni" ANone;
    ShortField "max_simultaneous_groups" ANone;
    IntField "max_multicast_bw" ANone;
    ShortField "mcast_operations_profile_pointer" ANone;
    StrFixedLenField "reserved1" ANone 8 ].

Definition AllowedPreviewGroupsRow0 : list field_spec :=
  [ BitField "set_ctrl" (AInt 0) 2;
    BitField "row_part_id" (AInt 0) 3;
    BitField "reserved0" (AInt 0) 1;
    BitField "row_key" (AInt 0) 10;
    StrFixedLenField "ipv6_pad" (AInt 0) 12;
    IPField "src_ip" ANone;
    ShortField "vlan_id_ani" ANone;
    ShortField "vlan_id_uni" ANone ].

Definition AllowedPreviewGroupsRow1 : list field_spec :=
  [ BitField "set_ctrl" (AInt 0) 2;
    BitField "row_part_id" (AInt 0) 3;
    BitField "reserved0" (AInt 0) 1;
    BitField "row_key" (AInt 0) 10;
    StrFixedLenField "ipv6_pad" (AInt 0) 12;
    IPField "dst_ip" ANone;
    ShortField "duration" ANone;
    ShortField "time_left" ANone ].

Definition vlan_slices : list (string * nat * nat) :=
  [ ("filter_outer_priority", 0, 4);
    ("filter_outer_vid", 4, 17);
    ("filter_outer_tpid_de", 17, 20);
    ("filter_inner_priority", 32, 36);
    ("filter_inner_vid", 36, 49);
    ("filter_inner_tpid_de", 49, 52);
    ("filter_ether_type", 60, 64);
    ("treatment_tags_to_remove", 64, 66);
    ("treatment_outer_priority", 76, 80);
    ("treatment_outer_vid", 80, 93);
    ("treatment_outer_tpid_de", 93, 96);
    ("treatment_inner_priority", 108, 112);
    ("treatment_inner_vid", 112, 125);
    ("treatment_inner_tpid_de", 125, 128) ]%nat.

Definition row_bits (r : list field_spec) : Z := foldr Z.add 0 (spec_bits <$> r).

(** The table attributes, with the packets of their rows. *)
Definition row_tables : list (me_table * string * list field_spec) :=
  [ (ExtendedVlanTaggingOperationConfigurationData, "received_frame_vlan_tagging_operation_table", VlanTaggingOperation);
    (MulticastOperationsProfile, "dynamic_access_control_list_table", AccessControlRow0);
    (MulticastOperationsProfile, "dynamic_access_control_list_table", AccessControlRow1);
    (MulticastOperationsProfile, "dynamic_access_control_list_table", AccessControlRow2);
    (MulticastOperationsProfile, "ds_igmp_mcast_tci", DownstreamIgmpMulticastTci);
    (MulticastSubscriberConfigInfo, "multicast_service_package_table", MulticastServicePackage);
    (MulticastSubscriberConfigInfo, "allowed_preview_groups_table", AllowedPreviewGroupsRow0);
    (MulticastSubscriberConfigInfo, "allowed_preview_groups_table", AllowedPreviewGroupsRow1) ].

(** A row fills the attribute that holds it. *)
Lemma rows_fill_tables : Forall (λ '(t, n, r),
  existsb (λ a, bool_decide (spec_name (a_field a) = n) && (spec_bits (a_field a) =? row_bits r)) (t_attributes t) = true) row_tables.
Proof. unfold row_tables. repeat (apply Forall_cons; split; [vm_compute; reflexivity|]). constructor. Qed.

(** *** VlanTaggingOperation.json_from_value *)

(** The bits of a value, the highest first, and the number they are. *)
Fixpoint to_bits (w : nat) (x : Z) : list bool :=
  match w with O => [] | S w => Z.testbit x (Z.of_nat w) :: to_bits w x end.
Definition uint_of (l : list bool) : Z := foldl (λ n (b : bool), 2 * n + (if b then 1 else 0)) 0 l.
Definition bits_of (v : octets) : list bool := flat_map (λ b, to_bits 8 (octet_value b)) v.

(** [BitArray(hex=hexlify(value))[a:b].uint] of the bitstring package *)
Class BitSlices := slice_uint : octets → nat → nat → Z.
Class BitSlicesLaw {HB : BitSlices} : Prop :=
  slice_uint_spec : ∀ v a b, slice_uint v a b = uint_of (take (b - a) (drop a (bits_of v))).

Section json.
Context {HB : BitSlices} {HBL : BitSlicesLaw}.

Definition json_from_value (value : octets) : list (string * Z) :=
  (λ '(n, a, b), (n, slice_uint value a b)) <$> vlan_slices.

(** Where each field of a packet starts and ends. *)
Fixpoint layout (off : nat) (fs : list field_spec) : list (string * nat * nat) :=
  match fs with
  | [] => []
  | f :: fs => let e := (off + Z.to_nat (spec_bits f))%nat in (spec_name f, off, e) :: layout e fs
  end.

Definition is_pad (n : string) : bool := bool_decide (n ∈ ["pad1"; "pad2"; "pad3"; "pad4"]).

(** The bits of a packet. *)
Definition packet_bits (fs : list field_spec) (vals : list Z) : list bool :=
  concat (zip_with (λ f x, to_bits (Z.to_nat (spec_bits f)) x) fs vals).

Lemma to_bits_length w x : length (to_bits w x) = w.
Proof. induction w; simpl; auto. Qed.

Lemma uint_to_bits w x : ∀ acc, foldl (λ n (b : bool), 2 * n + (if b then 1 else 0)) acc (to_bits w x) =
  acc * 2 ^ Z.of_nat w + x mod 2 ^ Z.of_nat w.
Proof.
  induction w as [|w IH]; intros acc; [cbn [to_bits foldl]; change (2 ^ Z.of_nat 0) with 1; rewrite Z.mod_1_r; lia|].
  cbn [to_bits foldl]. rewrite IH. replace (2 ^ Z.of_nat (S w)) with (2 ^ Z.of_nat w * 2)
    by (rewrite Nat2Z.inj_succ, Z.pow_succ_r by lia; lia).
  rewrite Z.rem_mul_r by (try apply Z.pow_nonzero; lia). pose proof (Z.testbit_spec' x (Z.of_nat w) ltac:(lia)) as Hb.
  destruct (Z.testbit x (Z.of_nat w)); simpl in Hb; rewrite <-Hb; lia.
Qed.

Definition slice_has (bits : list bool) (p : string * nat * nat) (x : Z) : Prop :=
  let '(_, a, b) := p in take (b - a) (drop a bits) = to_bits (b - a) x ∧ 0 ≤ x < 2 ^ Z.of_nat (b - a).

Lemma layout_slices fs : ∀ vals pre, Forall2 (λ f x, 0 ≤ spec_bits f ∧ 0 ≤ x < 2 ^ spec_bits f) fs vals →
  Forall2 (slice_has (pre ++ packet_bits fs vals)) (layout (length pre) fs) vals.
Proof.
  induction fs as [|f fs IH]; intros vals pre Hl; inversion Hl as [|? x ? vals' [Hf Hx] Hl']; subst; constructor.
  - unfold slice_has. replace (_ - length pre)%nat with (Z.to_nat (spec_bits f)) by lia. rewrite Z2Nat.id by done. split; [|done].
    rewrite drop_app_length. unfold packet_bits. simpl. rewrite take_app_length'; [done|]. by rewrite to_bits_length.
  - specialize (IH vals' (pre ++ to_bits (Z.to_nat (spec_bits f)) x) Hl'). rewrite length_app, to_bits_length in IH.
    unfold packet_bits in *. simpl. by rewrite <-app_assoc in IH.
Qed.

Lemma layout_names fs : ∀ off, fst ∘ fst <$> layout off fs = spec_name <$> fs.
Proof. induction fs; intros; csimpl; f_equal; auto. Qed.

(** The slices are where the fields are. *)
Lemma vlan_slices_layout : vlan_slices = filter (λ '(n, _, _), is_pad n = false) (layout 0 VlanTaggingOperation).
Proof. vm_compute. reflexivity. Qed.

Lemma slices_values (l : list (string * nat * nat)) (vals : list Z) v :
  Forall2 (slice_has (bits_of v)) l vals →
  (λ '(n, a, b), (n, slice_uint v a b)) <$> filter (λ '(n, _, _), is_pad n = false) l =
  filter (λ '(n, _), is_pad n = false) (zip (fst ∘ fst <$> l) vals).
Proof.
  induction 1 as [|[[n a] b] x l vals [Hb Hx] _ IH]; [done|]. csimpl. rewrite !filter_cons.
  destruct (decide (is_pad n = false)) as [Hp|Hp]; [|exact IH]. csimpl. rewrite slice_uint_spec, Hb. unfold uint_of. rewrite uint_to_bits.
  rewrite Z.mul_0_l, Z.add_0_l, Z.mod_small by done. by f_equal.
Qed.

(** The conversion of a row of VLAN tagging operations to JSON reads back
    every field that the packet's layout puts into the row. *)
Theorem vlan_row_roundtrip v vals :
  Forall2 (λ f x, 0 ≤ x < 2 ^ spec_bits f) VlanTaggingOperation vals →
  bits_of v = packet_bits VlanTaggingOperation vals →
  json_from_value v = filter (λ '(n, _), is_pad n = false) (zip (spec_name <$> VlanTaggingOperation) vals).
Proof.
  intros Hv Hbits. unfold json_from_value. rewrite vlan_slices_layout, (slices_values _ vals); [by rewrite layout_names|].
  rewrite Hbits. apply (layout_slices _ _ []).
  assert (Forall (λ f, 0 ≤ spec_bits f) VlanTaggingOperation) as Hf.
  { unfold VlanTaggingOperation. repeat (apply Forall_cons; split; [done|]). constructor. }
  clear Hbits. revert Hv Hf. generalize VlanTaggingOperation as fs. induction 1 as [|f x fs xs Hx _ IH]; intros Hf; [constructor|].
  apply Forall_cons in Hf as [? ?]. constructor; auto.
Qed.
End json.

Lemma create_refuses_only :
  set_by_create_only = [("MulticastGemInterworkingTp", "gem_port_network_ctp_pointer")].
Proof. vm_compute. reflexivity. Qed.

(** ** Samples *)
Section sample.
Local Existing Instance plain_order.
Definition bare_field (f : field_spec) : field := Fld (spec_name f) (spec_type f) ANone (λ _, raise TypeError) (raise TypeError).

Lemma masks_exact_witness :
  ∃ mask, mask_for (class_of_table bare_field Tcont) ["alloc_id"; "policy"] tt = (Ok mask, tt) ∧ 0 ≤ mask < 2 ^ 16 ∧
    ∀ i, i ∈ attribute_indices_from_mask mask ↔
      1 ≤ i ∧ ∃ a, t_attributes Tcont !! Z.to_nat i = Some a ∧ spec_name (a_field a) ∈ ["alloc_id"; "policy"].
Proof.
  apply (masks_exact bare_field (λ _, eq_refl) Tcont ["alloc_id"; "policy"] tt).
  - unfold entity_classes. set_solver.
  - intros n Hn. rewrite !elem_of_cons, elem_of_nil in Hn. destruct Hn as [->|[->|[]]]; (split; [done|]); simpl; set_solver.
Defined.

Lemma serialize_agrees_witness :
  serialize OmciEntities.Tcont sample_values (Some 40960) [] = masked_addfield (Some OmciEntities.Tcont) 40960 sample_values [].
Proof.
  apply (serialize_agrees OmciEntities.Tcont sample_values 40960 []). intros i Hi.
  assert (i ∈ [1; 3]) as Hi' by exact Hi. rewrite !elem_of_cons, elem_of_nil in Hi'.
  destruct Hi' as [->|[->|[]]].
  - by exists (ECA (short_field "alloc_id" ANone) [AA_R; AA_W] None), (AInt 1030).
  - by exists (ECA (byte_field "policy" ANone) [AA_R; AA_W] (Some (int_upto 2))), (AInt 1).
Defined.

#[local] Instance plain_slices : BitSlices := λ v a b, uint_of (take (b - a) (drop a (bits_of v))).
#[local] Instance plain_slices_law : BitSlicesLaw := λ _ _ _, eq_refl.

Definition sample_row : octets :=
  [xf8; x00; x00; x00; x80; x00; x80; x00; x00; x0f; x00; x00; x00; x05; x00; x28].
Definition sample_row_values : list Z := [15; 4096; 0; 0; 8; 1; 0; 0; 0; 0; 0; 15; 0; 0; 0; 5; 5; 0].

Lemma vlan_row_roundtrip_witness :
  json_from_value sample_row = filter (λ '(n, _), is_pad n = false) (zip (spec_name <$> VlanTaggingOperation) sample_row_values).
Proof.
  apply (vlan_row_roundtrip sample_row sample_row_values).
  - unfold VlanTaggingOperation, sample_row_values. repeat (constructor; [vm_compute; split; congruence|]). constructor.
  - vm_compute. reflexivity.
Defined.
End sample.
