(* ===== verification/Coordination.v ===== *)
(** * Coordination: data, the reactor and the proxies for the store

    The instances of a cluster meet in a Consul store.  Each has a
    [Coordinator] (src/voltha/coordinator.py) with a [Worker] (worker.py), and
    the one that holds the lock on the leader key has a [Leader] (leader.py)
    too.  The three share the reactor and call each other, so they are one
    state, [coordinator].  This file has that state, what the classes use of
    Twisted, and the coordinator's proxies for the store, which try again until
    the store answers; Leader.v, Worker.v and Coordinator.v have the classes.

    A generator that waits is one of Generators.v over the events [ev]; one that
    is started and not waited for is a call that the reactor has yet to make:
    all that it does at once is to send its request, whose arguments the call
    holds.  The reactor may make the calls it has in any order, as delays are
    not modelled.  Strings are without line breaks, and the prefixes without
    characters that a regular expression gives a meaning. *)
From S2P Require Import Prelude Generators MessageQueue.
From stdpp Require Import base gmap list strings.
From Stdlib Require Import ZArith Lia Ascii.

Local Open Scope Z_scope.

(** ** The store *)

(** A member as it is found in the lists and, as an object, in the mapping. *)
Record member := Member {
  m_id : string;
  m_host : string;
}.

#[export] Instance member_eq_dec : EqDecision member.
Proof. solve_decision. Defined.

(** Which instance has which core store; [None] is a store to be given away. *)
Abbreviation assignment := (gmap string (option member)).

(** An entry as Consul returns it; [Session] is there only while it is locked. *)
Record kv_entry := KvEntry {
  Key : string;
  Value : option string;
  Session : option string;
  Indices : list Z;        (* CreateIndex, ModifyIndex, LockIndex, Flags *)
}.

#[export] Instance kv_entry_eq_dec : EqDecision kv_entry.
Proof. solve_decision. Defined.

(** The requests that are made, with the type of the answer: [kv.get] of one
    key, with [recurse], and with [keys]; [acquire] is [None] when the keyword
    is absent. *)
Inductive request : Type → Type :=
  | Get (key : string) (index : option Z) : request (Z * option kv_entry)
  | GetAll (key : string) (index : option Z) : request (Z * option (list kv_entry))
  | Keys (key : string) : request (Z * option (list string))
  | Put (key : string) (value : option string) (acquire : option (option string)) : request bool
  | Delete (key : string) : request bool
  | SessionCreate : request string
  | SessionDestroy (session : option string) : request unit
  | SessionRenew (session : option string) : request unit.

(** What the Deferreds of these classes fire with. *)
Inductive dval :=
  | Id (s : option string)
  | Found (x : Z * option kv_entry)
  | FoundAll (x : Z * option (list kv_entry))
  | Renewed.

Inductive ev : Type → Type :=
  | Consul {X} (r : request X) : ev (result X)
  | Asleep (ms : Z) : ev unit
  | Await (d : nat) : ev (result dval)
  | AwaitCoreStore : ev (result dval).   (* worker.wait_for_core_store_assignment *)

(** ** What is not code of the repository, and the configuration

    [loads_*] and [dumps_*] are simplejson's functions on the values stored, and
    [core_match] the regular expression for container names, with its first
    group.  [loops] bounds how often a [while 1] goes round. *)
Class Cluster := {
  loads_mapping : option string → result assignment;
  dumps_mapping : assignment → string;
  loads_host : option string → result string;
  dumps_record : string → string;
  core_match : string → option string;
  prefix_ : string;
  leader_key : string;
  membership_key : string;
  assignment_key : string;
  core_store_key : string;
  instance_id : string;
  external_host_address : string;
  members_tracking_sleep : Z;
  time_to_let_leader_update : Z;
  assignments_track_sleep : Z;
  session_renewal_loop_delay : Z;
  membership_maintenance_loop_delay : Z;
  loops : nat;
}.

Section keys.
Context {HC : Cluster}.

Definition leader_prefix : string := prefix_ +:+ "/" +:+ leader_key.
Definition membership_prefix : string := prefix_ +:+ "/" +:+ membership_key +:+ "/".
Definition assignment_prefix : string := prefix_ +:+ "/" +:+ assignment_key +:+ "/".
Definition core_store_prefix : string := prefix_ +:+ "/" +:+ core_store_key.
Definition core_store_assignment_key : string := core_store_prefix +:+ "/assignment".
Definition core_storage_suffix : string := "core_store".
Definition membership_record_key : string := membership_prefix +:+ instance_id.
End keys.

(** ** Regular expressions *)

(** [s] without the prefix [p] *)
Fixpoint strip (p s : string) : option string :=
  match p, s with
  | EmptyString, _ => Some s
  | String a p, String b s => if decide (a = b) then strip p s else None
  | String _ _, EmptyString => None
  end.

(** [s] up to its first [c], and what comes after that [c] *)
Fixpoint split_at (c : ascii) (s : string) : string * option string :=
  match s with
  | EmptyString => ("", None)
  | String a s => if decide (a = c) then ("", Some s)
                  else let '(x, y) := split_at c s in (String a x, y)
  end.

(** ['^(p)([^/]+)$'], its second group *)
Definition id_match (p s : string) : option string :=
  r ← strip p s;
  match split_at "/"%char r with
  | (EmptyString, _) | (_, Some _) => None
  | (x, None) => Some x
  end.

(** ['^(p)([^/]+)/t$'], its second group *)
Definition id_tail_match (p t s : string) : option string :=
  r ← strip p s;
  match split_at "/"%char r with
  | (EmptyString, _) | (_, None) => None
  | (x, Some y) => if decide (y = t) then Some x else None
  end.

Definition is_digit (a : ascii) : bool :=
  let n := N_of_ascii a in (48 <=? n)%N && (n <=? 57)%N.

Fixpoint all_digits (s : string) : bool :=
  match s with EmptyString => true | String a s => is_digit a && all_digits s end.

(** ['^.*_([0-9]+)$'], its group: the digits after the last underscore *)
Fixpoint timestamp_match (s : string) : option string :=
  match s with
  | EmptyString => None
  | String a s' =>
      match timestamp_match s' with
      | Some t => Some t
      | None => if decide (a = "_"%char ∧ s' ≠ "" ∧ all_digits s' = true) then Some s' else None
      end
  end.

(** ** State *)

(** What the reactor is asked to call: the loops of the three classes, their
    timers, the timeout of a [DeferredWithTimeout], and the generators that are
    started without waiting for them. *)
Inductive call :=
  | AsyncInit
  | MaintainMembership
  | SessionTracking
  | LeadershipTracking
  | TimedOut (d : nat)
  | GetInto (d : nat) (all : bool) (key : string) (index : option Z)
  | RenewInto (d : nat) (session : option string)
  | TrackMembers (l : nat) (index : Z)
  | ReassignCoreStores (l : nat)
  | GetMappings (l : nat)
  | TrackMyAssignments (index : Z)
  | TrackMyPeers (index : Z)
  | UpdateAssignments
  | ProcessConfigAssignment.

#[export] Instance call_eq_dec : EqDecision call.
Proof. solve_decision. Defined.

Record leader := Leader {
  l_halted : bool;
  members : option (list member);
  core_store_ids : list string;
  core_store_assignment : option assignment;
  reassignment_soak_timer : option nat;
  core_store_reassignment_soak_timer : option nat;
}.

#[export] Instance leader_eta : Eta leader := λ l,
  Leader (l_halted l) (members l) (core_store_ids l) (core_store_assignment l) (reassignment_soak_timer l)
    (core_store_reassignment_soak_timer l).

Section coordination.
Context {HP : Promise (result dval)}.

Record worker := Worker {
  w_halted : bool;
  my_workload : option (gset string);
  my_candidate_workload : option (gset string);
  assignment_soak_timer : option nat;
  assignment_core_store_soak_timer : option nat;
  mycore_store_id : option string;
  wait_for_core_store_assignment : dfr_state (result dval);
  peers_map : option assignment;
}.

#[export] Instance worker_eta : Eta worker := λ w,
  Worker (w_halted w) (my_workload w) (my_candidate_workload w) (assignment_soak_timer w)
    (assignment_core_store_soak_timer w) (mycore_store_id w) (wait_for_core_store_assignment w) (peers_map w).

Record coordinator := Coordinator {
  retries : nat;
  session_id : option string;
  i_am_leader : bool;
  leader_id : option string;
  shutting_down : bool;
  leader_ : option nat;
  worker_ : worker;
  wait_for_leader_deferreds : list nat;
  peers_mapping_queue : mq assignment;
  (** the Leader objects and the Deferreds made so far *)
  leaders : list leader;
  deferreds : list (dfr_state (result dval));
  (** the reactor's calls: those to come, by number, the numbers of those made *)
  calls : list (nat * call);
  called : list nat;
  next_call : nat;
}.

#[export] Instance coordinator_eta : Eta coordinator := λ s,
  Coordinator (retries s) (session_id s) (i_am_leader s) (leader_id s) (shutting_down s) (leader_ s) (worker_ s)
    (wait_for_leader_deferreds s) (peers_mapping_queue s) (leaders s) (deferreds s) (calls s) (called s) (next_call s).

Local Abbreviation G := (gen ev coordinator).

(** ** Twisted *)

(** [reactor.callLater(delay, ...)] *)
Definition call_later (c : call) : M coordinator nat :=
  n ← gets next_call;
  _ ← modify (λ s, s <| calls ::= λ l, l ++ [(n, c)] |> <| next_call := S n |>);
  mret n.

(** [timer.cancel()] of a [DelayedCall] *)
Definition cancel_call (n : nat) : M coordinator unit :=
  cs ← gets calls;
  if decide (n ∈ cs.*1) then modify (λ s, s <| calls ::= filter (λ c, c.1 ≠ n) |>)
  else
    done ← gets called;
    if decide (n ∈ done) then raise AlreadyCalled else raise AlreadyCancelled.

(** [if timer is not None: if not timer.called: timer.cancel()] *)
Definition cancel_timer (t : option nat) : M coordinator unit :=
  match t with
  | None => mret tt
  | Some n => done ← gets called; if decide (n ∈ done) then mret tt else cancel_call n
  end.

Definition new_deferred : M coordinator nat :=
  d ← gets (λ s, length (deferreds s));
  _ ← modify (λ s, s <| deferreds ::= λ l, l ++ [Pending] |>);
  mret d.

Definition is_called (d : nat) : M coordinator bool :=
  ds ← gets deferreds;
  mret (match ds !! d with Some x => bool_decide (is_Some (result_of x)) | None => false end).

(** [d.callback(v)] and [d.errback(e)] *)
Definition fire (d : nat) (r : result dval) : M coordinator unit :=
  ds ← gets deferreds;
  x ← from_some AttributeError (ds !! d);
  x' ← from_some AlreadyCalledError (fire_with r x);
  modify (λ s, s <| deferreds ::= <[d := x']> |>).

(** [DeferredWithTimeout(timeout)] of src/common/utils/deferred_utils.py *)
Definition new_deferred_with_timeout : M coordinator nat :=
  d ← new_deferred;
  _ ← call_later (TimedOut d);
  mret d.

(** [callback] and [errback] of that class; the timer that has run already is
    not an error. *)
Definition fire_rcvd (d : nat) (r : result dval) : M coordinator unit :=
  _ ← modify (λ s, s <| calls ::= filter (λ c, c.2 ≠ TimedOut d) |>);
  fire d r.

Definition timed_out (d : nat) : M coordinator unit := fire_rcvd d (Err TimeOutError).

(** ** The proxies for the store *)
Context {HC : Cluster}.

(** [RETRY_BACKOFF], in milliseconds *)
Definition RETRY_BACKOFF : list Z := [50; 100; 200; 500; 1000; 2000; 5000].

Definition backoff_time (retries : nat) : Z := nth (Nat.min retries (length RETRY_BACKOFF - 1)) RETRY_BACKOFF 0.

Definition backoff : G unit :=
  n ← get_ retries;
  _ ← set_ (λ s, s <| retries := S n |>);
  yield (Asleep (backoff_time n)).

Definition clear_backoff : M coordinator unit := modify (λ s, s <| retries := 0%nat |>).

(** The loop of [_retry]: whatever is raised, after a pause it tries again. *)
Fixpoint retry_loop {X} (n : nat) (operation : G X) : G X :=
  match n with
  | O => raise_ OutOfFuel
  | S n =>
      r ← try_ (x ← operation; _ ← lift_ clear_backoff; mret (Some x))
            (λ e, if decide (e = OutOfFuel) then raise_ e else _ ← backoff; mret None);
      match r with
      | Some x => mret x
      | None => retry_loop n operation
      end
  end.

(** The session in [acquire] is replaced by the current one. *)
Definition with_session (s : option string) {X} (r : request X) : request X :=
  match r with
  | Put key value (Some _) => Put key value (Some s)
  | r => r
  end.

Definition ask {X} (r : request X) : G X :=
  x ← yield (Consul r);
  of_result x.

Definition retry {X} (r : request X) : G X := retry_loop loops (s ← get_ session_id; ask (with_session s r)).

Definition kv_get_all (key : string) (index : option Z) : G (Z * option (list kv_entry)) := retry (GetAll key index).
Definition kv_get_keys (key : string) : G (Z * option (list string)) := retry (Keys key).
Definition kv_put (key : string) (value : option string) : G bool := retry (Put key value None).
Definition kv_delete (key : string) : G bool := retry (Delete key).

(** The inner [_get] of [consul_get_with_timeout] *)
Definition get_into (d : nat) (all : bool) (key : string) (index : option Z) : G unit :=
  v ← (if all then x ← retry (GetAll key index); mret (FoundAll x)
       else x ← retry (Get key index); mret (Found x));
  c ← lift_ (is_called d);
  if (c : bool) then mret tt else lift_ (fire_rcvd d (Ok v)).

(** [None] stands for [(True, (None, None))]. *)
Definition consul_get_with_timeout (all : bool) (key : string) (index : option Z) : G (option dval) :=
  rcvd ← lift_ new_deferred_with_timeout;
  _ ← lift_ (call_later (GetInto rcvd all key index));
  r ← yield (Await rcvd);
  mret match r with Ok x => Some x | Err _ => None end.

Definition get_with_timeout (key : string) (index : option Z) : G (option (Z * option kv_entry)) :=
  r ← consul_get_with_timeout false key index;
  match r with
  | None => mret None
  | Some (Found x) => mret (Some x)
  | Some _ => raise_ TypeError
  end.

Definition get_all_with_timeout (key : string) (index : option Z) : G (option (Z * option (list kv_entry))) :=
  r ← consul_get_with_timeout true key index;
  match r with
  | None => mret None
  | Some (FoundAll x) => mret (Some x)
  | Some _ => raise_ TypeError
  end.

(** The loops' [except Exception, e: yield asleep(...)] *)
Definition or_sleep {A} (ms : Z) (m : G A) : G (result A) :=
  try_ (a ← m; mret (Ok a))
    (λ e, if decide (e = OutOfFuel) then raise_ e else _ ← yield (Asleep ms); mret (Err e)).

(** [get_members]: the keys without their prefix *)
Definition get_members : G (list string) :=
  r ← kv_get_all membership_prefix None;
  l ← some_or TypeError r.2;
  mret ((λ e, String.substring (String.length membership_prefix) (String.length (Key e) - String.length membership_prefix) (Key e)) <$> l).

(** ** Waiting for a leader; the map of peers *)

Definition wait_for_a_leader : M coordinator nat :=
  d ← new_deferred;
  i ← gets leader_id;
  match i with
  | Some i => _ ← fire d (Ok (Id (Some i))); mret d
  | None => _ ← modify (λ s, s <| wait_for_leader_deferreds ::= λ l, l ++ [d] |>); mret d
  end.

Definition recv_peers_map : M coordinator nat :=
  zoom peers_mapping_queue (λ q s, s <| peers_mapping_queue := q |>) (MessageQueue.get (λ _ _, true) None).

Definition publish_peers_map_change (msg : assignment) : M coordinator unit :=
  zoom peers_mapping_queue (λ q s, s <| peers_mapping_queue := q |>) (MessageQueue.put (λ _ _, true) msg).

End coordination.
