(* ===== verification/Leader.v ===== *)
(** * The leader

    src/voltha/leader.py, and the methods of src/voltha/coordinator.py that
    make a Leader and halt it.  The leader follows the list of members; when it
    changes and has been stable for a while, it gives every member one core
    store, keeps the stores of the members that stay, and writes the mapping
    and the assignments to the store.  Leaders are objects: a halted one may
    still have a generator under way. *)
From S2P Require Import Prelude Generators MessageQueue IdGeneration Coordination.
From stdpp Require Import base gmap list strings.
From Stdlib Require Import ZArith Lia.

Local Open Scope Z_scope.

(** ** Giving away the core stores *)
Section assign.
Context {HO : DictOrder}.

(** [max(d)]: the greatest key, as strings *)
Definition str_max (a b : string) : string := if String.ltb a b then b else a.
Definition max_key (d : assignment) : string :=
  match (iteritems d).*1 with
  | [] => ""
  | k :: ks => foldl str_max k ks
  end.

(** What the first step finds: the stores that keep their instance or have
    none, the instances that keep theirs, the free stores, and the instances
    that are gone. *)
Record cleared := Cleared {
  updated_mapping : assignment;
  existing_active_config_members : gset string;
  cleared_config_ids : gset string;
  inactive_members : gset string;
}.

Definition clear_one (ms : list member) (c : cleared) (p : string * option member) : cleared :=
  let '(id, instance) := p in
  match instance with
  | Some m =>
      if decide (m ∈ ms)
      then Cleared (<[id := Some m]> (updated_mapping c)) ({[m_id m]} ∪ existing_active_config_members c)
             (cleared_config_ids c) (inactive_members c)
      else Cleared (<[id := None]> (updated_mapping c)) (existing_active_config_members c)
             ({[id]} ∪ cleared_config_ids c) ({[m_id m]} ∪ inactive_members c)
  | None =>
      Cleared (<[id := None]> (updated_mapping c)) (existing_active_config_members c)
        ({[id]} ∪ cleared_config_ids c) (inactive_members c)
  end.

Definition clear_mapping (a : assignment) (ms : list member) : cleared :=
  foldl (clear_one ms) (Cleared ∅ ∅ ∅ ∅) (iteritems a).

(** The second step: a free store or a new one for each new member. *)
Fixpoint give_stores (existing : gset string) (ms : list member) (mapping : assignment) (free : gset string)
    (current_id : string) : result assignment :=
  match ms with
  | [] => Ok mapping
  | m :: ms =>
      if decide (m_id m ∈ existing) then give_stores existing ms mapping free current_id
      else
        match set_items free with
        | next_id :: _ => give_stores existing ms (<[next_id := Some m]> mapping) (free ∖ {[next_id]}) current_id
        | [] =>
            match get_next_core_id (Some current_id) with
            | Ok next_id => give_stores existing ms (<[next_id := Some m]> mapping) free next_id
            | Err e => Err e
            end
        end
  end.

(** [instance not in None] and [for instance in None] *)
Definition plan_stores (a : option assignment) (ms : option (list member)) : result (assignment * cleared) :=
  match ms with
  | None => Err TypeError
  | Some ms =>
      let a := default ∅ a in
      let c := clear_mapping a ms in
      let current_id := if decide (a = ∅) then "0000" else max_key a in
      match give_stores (existing_active_config_members c) ms (updated_mapping c) (cleared_config_ids c) current_id with
      | Ok mapping => Ok (mapping, c)
      | Err e => Err e
      end
  end.

(** [_get_core_data_id_from_instance] *)
Definition core_data_id_from_instance (a : assignment) (name : string) : option string :=
  fst <$> head (filter (λ p, (m_id <$> p.2) = Some name) (iteritems a)).
End assign.

(** ** The list of members *)
Section sanitize.
Context {HO : DictOrder} {HC : Cluster}.

(** By voltha number: the timestamp and the member; and whether a number was
    met again.  [None] is the exception for an id without number or timestamp. *)
Fixpoint sanitize_loop (u : gmap string (string * member)) (update_occurred : bool) (ms : list member)
    : option (gmap string (string * member) * bool) :=
  match ms with
  | [] => Some (u, update_occurred)
  | m :: ms =>
      number ← core_match (m_id m);
      timestamp ← timestamp_match (m_id m);
      match u !! number with
      | None => sanitize_loop (<[number := (timestamp, m)]> u) update_occurred ms
      | Some (t, _) =>
          sanitize_loop (if String.ltb t timestamp then <[number := (timestamp, m)]> u else u) true ms
      end
  end.

Definition sanitize_member_list (ms : list member) : list member :=
  match sanitize_loop ∅ false ms with
  | Some (u, true) => (λ p, p.2.2) <$> iteritems u
  | _ => ms
  end.
End sanitize.

(** ** The class *)
Section leader.
Context {HO : DictOrder} {HP : Promise (result dval)} {HC : Cluster}.

Local Abbreviation G := (gen ev coordinator).

Definition leader_init : leader := Leader false (Some []) [] None None None.

Definition get_leader (l : nat) : M coordinator leader :=
  ls ← gets leaders;
  from_some AttributeError (ls !! l).

Definition set_leader (l : nat) (f : leader → leader) : M coordinator unit :=
  modify (λ s, s <| leaders ::= alter f l |>).

Definition leader_start (l : nat) : M coordinator unit :=
  _ ← call_later (TrackMembers l 0);
  mret tt.

Definition leader_stop (l : nat) : M coordinator unit :=
  _ ← set_leader l (λ x, x <| l_halted := true |>);
  x ← get_leader l;
  _ ← cancel_timer (reassignment_soak_timer x);
  cancel_timer (core_store_reassignment_soak_timer x).

(** *** The coordinator's side *)

(** [self.leader = Leader(self); return self.leader.start()] *)
Definition just_gained_leadership : M coordinator unit :=
  l ← gets (λ s, length (leaders s));
  _ ← modify (λ s, s <| leaders ::= λ ls, ls ++ [leader_init] |> <| leader_ := Some l |>);
  leader_start l.

(** Without a leader the local [d] is returned without having been set. *)
Definition halt_leader : M coordinator unit :=
  l ← gets leader_;
  match l with
  | Some l =>
      _ ← leader_stop l;
      modify (λ s, s <| leader_ := None |>)
  | None => raise UnboundLocalError
  end.

Definition just_lost_leadership : M coordinator unit := halt_leader.

(** *** Timers *)

(** There is no method [_reassign_work]. *)
Definition restart_reassignment_soak_timer (l : nat) : M coordinator unit :=
  x ← get_leader l;
  _ ← cancel_timer (reassignment_soak_timer x);
  raise AttributeError.

Definition restart_core_store_reassignment_soak_timer (l : nat) : M coordinator unit :=
  x ← get_leader l;
  _ ← cancel_timer (core_store_reassignment_soak_timer x);
  t ← call_later (ReassignCoreStores l);
  set_leader l (λ x, x <| core_store_reassignment_soak_timer := Some t |>).

(** *** The mapping in the store *)

(** [loads(mappings[0]['Value'])] *)
Definition load_first (l : nat) (mappings : list kv_entry) : G unit :=
  e ← some_or IndexError (head mappings);
  a ← of_result (loads_mapping (Value e));
  lift_ (set_leader l (λ x, x <| core_store_assignment := Some a |>)).

(** [ConfigMappingException(self.instance_id)]: a Leader has no such attribute. *)
Definition get_core_store_mappings (l : nat) : G unit :=
  try_log
    (r ← kv_get_all core_store_assignment_key None;
     match r.2 with
     | Some ((_ :: _) as mappings) => load_first l mappings
     | _ =>
         ok ← kv_put core_store_assignment_key (Some (dumps_mapping ∅));
         _ ← (if (ok : bool) then mret tt else raise_ AttributeError);
         r ← kv_get_all core_store_assignment_key None;
         mappings ← some_or TypeError r.2;
         load_first l mappings
     end).

(** [_get_core_store_mappings] is not waited for. *)
Definition update_core_store_references (l : nat) : G unit :=
  try_log
    (r ← kv_get_keys core_store_prefix;
     let core_ids := omap (id_tail_match (core_store_prefix +:+ "/") "root") (default [] r.2) in
     _ ← lift_ (set_leader l (λ x, x <| core_store_ids := core_ids |>));
     _ ← lift_ (call_later (GetMappings l));
     mret tt).

(** *** Following the members *)

(** Fewer members than assignments: wait for the next change. *)
Definition is_temporal_state (ms : option (list member)) : G bool :=
  try_
    (r ← kv_get_all assignment_prefix None;
     match r.2 with
     | Some ((_ :: _) as results) =>
         old_assignment ← some_or AttributeError
           (mapM (λ e, id_tail_match assignment_prefix core_storage_suffix (Key e)) results);
         match ms with
         | Some ms => mret (bool_decide (length ms < length old_assignment)%nat)
         | None => mret true
         end
     | _ => mret false
     end)
    (λ e, if decide (e = OutOfFuel) then raise_ e else mret true).

(** The first part of [_track_members]: [None] where it returns early. *)
Definition wait_for_members (l : nat) (index : Z) : G (option (Z * list kv_entry)) :=
  r ← get_all_with_timeout membership_prefix (Some index);
  x ← lift_ (get_leader l);
  if l_halted x then mret None
  else
    match r with
    | None => mret None
    | Some (i, Some ((_ :: _) as results)) => mret (Some (i, results))
    | Some _ => _ ← lift_ just_lost_leadership; mret None
    end.

(** The members whose entry has a session *)
Fixpoint active_members (results : list kv_entry) : result (list member) :=
  match results with
  | [] => Ok []
  | e :: results =>
      match Session e with
      | None => active_members results
      | Some _ =>
          match id_match membership_prefix (Key e) with
          | None => Err AttributeError
          | Some id =>
              match loads_host (Value e), active_members results with
              | Ok host, Ok ms => Ok (Member id host :: ms)
              | Err e, _ | _, Err e => Err e
              end
          end
      end
  end.

(** The second part, where [index] is the new one *)
Definition update_members (l : nat) (previous_index index : Z) (results : list kv_entry) : G unit :=
  if decide (previous_index = index) then mret tt
  else
    ms ← of_result (active_members results);
    let updated_members := match ms with [] => None | _ => Some (sanitize_member_list ms) end in
    temporal_state ← is_temporal_state updated_members;
    if (temporal_state : bool) then mret tt
    else
      x ← lift_ (get_leader l);
      if decide (updated_members = members x) then mret tt
      else
        _ ← update_core_store_references l;
        _ ← lift_ (set_leader l (λ x, x <| members := updated_members |>));
        lift_ (restart_core_store_reassignment_soak_timer l).

(** The [finally] clause *)
Definition members_again (l : nat) (index : Z) : M coordinator unit :=
  x ← get_leader l;
  if l_halted x then mret tt else _ ← call_later (TrackMembers l index); mret tt.

(** The handler does the same in both parts; [index] is a local variable that
    the second part has changed. *)
Definition track_members (l : nat) (index : Z) : G unit :=
  r ← or_sleep members_tracking_sleep (wait_for_members l index);
  match r with
  | Ok (Some (i, results)) =>
      finally_ (_ ← or_sleep members_tracking_sleep (update_members l index i results); mret tt) (members_again l i)
  | _ => finally_ (mret tt) (members_again l index)
  end.

(** *** Reassignment *)
Definition put_assignment (l : nat) (id : string) : G unit :=
  x ← lift_ (get_leader l);
  a ← some_or AttributeError (core_store_assignment x);
  _ ← kv_put (assignment_prefix +:+ id +:+ "/" +:+ core_storage_suffix) (core_data_id_from_instance a id);
  mret tt.

Definition remove_member (id : string) : G unit :=
  _ ← kv_delete (assignment_prefix +:+ id);
  _ ← kv_delete (membership_prefix +:+ id);
  mret tt.

Definition reassign_core_stores (l : nat) : G unit :=
  try_
    (x ← lift_ (get_leader l);
     p ← of_result (plan_stores (core_store_assignment x) (members x));
     let '(updated, c) := p in
     _ ← lift_ (set_leader l (λ x, x <| core_store_assignment := Some updated |>));
     _ ← kv_put core_store_assignment_key (Some (dumps_mapping updated));
     x ← lift_ (get_leader l);
     ms ← some_or TypeError (members x);
     let new_members := list_to_set (m_id <$> ms) ∖ existing_active_config_members c in
     _ ← forT (put_assignment l) (set_items new_members);
     forT remove_member (set_items (inactive_members c)))
    (λ e, if decide (e = OutOfFuel) then raise_ e else lift_ (restart_core_store_reassignment_soak_timer l)).
End leader.
