(* ===== verification/Worker.v ===== *)
(** * The worker

    src/voltha/worker.py: waits for the leader to give this instance a core
    store, then follows the mapping to tell its users about the peers. *)
From S2P Require Import Prelude Generators MessageQueue Coordination.
From stdpp Require Import base gmap list strings.
From Stdlib Require Import ZArith Lia.

Local Open Scope Z_scope.

(** [if s] of a string or [None] *)
Definition truthy (s : option string) : bool :=
  match s with None | Some EmptyString => false | Some _ => true end.

Section worker.
Context {HP : Promise (result dval)} {HC : Cluster}.
Local Abbreviation G := (gen ev coordinator).

Definition worker_init : worker := Worker false (Some ∅) (Some ∅) None None None Pending None.

Definition set_worker (f : worker → worker) : M coordinator unit := modify (λ s, s <| worker_ ::= f |>).

Definition worker_start : M coordinator unit :=
  _ ← call_later (TrackMyAssignments 0);
  _ ← call_later (TrackMyPeers 0);
  mret tt.

Definition worker_stop : M coordinator unit :=
  _ ← set_worker (λ w, w <| w_halted := true |>);
  w ← gets worker_;
  _ ← cancel_timer (assignment_soak_timer w);
  cancel_timer (assignment_core_store_soak_timer w).

Definition get_core_store_id : G (option string) :=
  w ← get_ worker_;
  if truthy (mycore_store_id w) then mret (mycore_store_id w)
  else
    r ← yield AwaitCoreStore;
    v ← of_result r;
    match v with Id s => mret s | _ => raise_ TypeError end.

(** ** Timers *)
Definition stash_and_restart_soak_timer (candidate_workload : gset string) : M coordinator unit :=
  w ← gets worker_;
  _ ← cancel_timer (assignment_soak_timer w);
  _ ← set_worker (λ w, w <| my_candidate_workload := Some candidate_workload |>);
  t ← call_later UpdateAssignments;
  set_worker (λ w, w <| assignment_soak_timer := Some t |>).

(** The lengths of both sets are logged. *)
Definition update_assignments : M coordinator unit :=
  w ← gets worker_;
  _ ← from_some TypeError (my_workload w);
  _ ← from_some TypeError (my_candidate_workload w);
  set_worker (λ w, w <| my_workload := my_candidate_workload w |> <| my_candidate_workload := None |>).

Definition stash_and_restart_core_store_soak_timer : M coordinator unit :=
  w ← gets worker_;
  _ ← cancel_timer (assignment_core_store_soak_timer w);
  t ← call_later ProcessConfigAssignment;
  set_worker (λ w, w <| assignment_core_store_soak_timer := Some t |>).

Definition process_config_assignment : M coordinator unit :=
  w ← gets worker_;
  d ← from_some AlreadyCalledError (fire_with (Ok (Id (mycore_store_id w))) (wait_for_core_store_assignment w));
  set_worker (λ w, w <| wait_for_core_store_assignment := d |>).

(** ** Following the assignments *)

(** The values of the entries for this instance's core store *)
Definition core_stores (results : list kv_entry) : list string :=
  omap (λ e, if decide (Key e = assignment_prefix +:+ instance_id +:+ "/" +:+ core_storage_suffix)
             then if truthy (Value e) then Value e else None else None) results.

(** Until the new index and the entries are there *)
Definition wait_for_assignment (index : Z) : G (Z * option (list kv_entry)) :=
  d ← lift_ wait_for_a_leader;
  c ← lift_ (is_called d);
  _ ← (if (c : bool) then mret tt
       else
         r ← yield (Await d);
         _ ← of_result r;
         yield (Asleep time_to_let_leader_update));
  kv_get_all (assignment_prefix +:+ instance_id) (Some index).

Definition take_assignment (results : option (list kv_entry)) : M coordinator unit :=
  w ← gets worker_;
  match results with
  | Some ((_ :: _) as results) =>
      if truthy (mycore_store_id w) then mret tt
      else
        match core_stores results with
        | [] => mret tt
        | c :: _ =>
            _ ← set_worker (λ w, w <| mycore_store_id := Some c |>);
            stash_and_restart_core_store_soak_timer
        end
  | _ => mret tt
  end.

Definition assignments_again (index : Z) : M coordinator unit :=
  w ← gets worker_;
  if w_halted w || truthy (mycore_store_id w) then mret tt
  else _ ← call_later (TrackMyAssignments index); mret tt.

(** As in the leader, the handler is the same before and after [index] is set. *)
Definition track_my_assignments (index : Z) : G unit :=
  r ← or_sleep assignments_track_sleep (wait_for_assignment index);
  match r with
  | Ok (i, results) =>
      finally_ (_ ← or_sleep assignments_track_sleep (lift_ (take_assignment results)); mret tt) (assignments_again i)
  | Err _ => finally_ (mret tt) (assignments_again index)
  end.

(** ** Following the peers *)

(** [new_map.pop(self.mycore_store_id)] *)
Definition pop_mine (w : worker) (a : assignment) : result assignment :=
  match mycore_store_id w with
  | Some c => match a !! c with Some _ => Ok (delete c a) | None => Err KeyError end
  | None => Err KeyError
  end.

Definition update_peers (prev_index index : Z) (mappings : option (list kv_entry)) : M coordinator unit :=
  match mappings with
  | Some (e :: _) =>
      if decide (index = prev_index) then mret tt
      else
        a ← lift (loads_mapping (Value e));
        w ← gets worker_;
        new_map ← lift (pop_mine w a);
        if decide (peers_map w = Some new_map) then mret tt
        else
          _ ← publish_peers_map_change new_map;
          set_worker (λ w, w <| peers_map := Some new_map |>)
  | _ => mret tt
  end.

Definition wait_for_peers (index : Z) : G (option (Z * option (list kv_entry))) :=
  w ← get_ worker_;
  if truthy (mycore_store_id w) then get_all_with_timeout core_store_assignment_key (Some index) else mret None.

Definition peers_again (index : Z) : M coordinator unit :=
  w ← gets worker_;
  if w_halted w then mret tt else _ ← call_later (TrackMyPeers index); mret tt.

Definition track_my_peers (index : Z) : G unit :=
  r ← or_sleep assignments_track_sleep (wait_for_peers index);
  match r with
  | Ok (Some (i, mappings)) =>
      finally_ (_ ← or_sleep assignments_track_sleep (lift_ (update_peers index i mappings)); mret tt) (peers_again i)
  | _ => finally_ (mret tt) (peers_again index)
  end.
End worker.
