(* ===== verification/Coordinator.v ===== *)
(** * The coordinator

    src/voltha/coordinator.py: the session with the store, the membership
    record, the election, and all the loops of the three classes as threads
    that the reactor and the answers of the store drive. *)
From S2P Require Import Prelude Generators MessageQueue Coordination Leader Worker.
From stdpp Require Import base gmap list strings.
From Stdlib Require Import ZArith Lia.

Local Open Scope Z_scope.

Section coordinator.
Context {HO : DictOrder} {HP : Promise (result dval)} {HC : Cluster}.
Local Abbreviation G := (gen ev coordinator).

Definition init : coordinator :=
  Coordinator 0%nat None false None false None worker_init [] MessageQueue.init [] [] [] [] 0%nat.

Definition start : M coordinator unit :=
  _ ← call_later AsyncInit;
  mret tt.

(** ** The session *)
Definition create_session : G unit :=
  retry_loop loops
    (i ← ask SessionCreate;
     _ ← set_ (λ s, s <| session_id := Some i |>);
     _ ← lift_ (call_later SessionTracking);
     mret tt).

Definition delete_session : G unit :=
  try_log (i ← get_ session_id; ask (SessionDestroy i)).

Definition redo_session : G unit :=
  _ ← delete_session;
  try_log (i ← ask SessionCreate; set_ (λ s, s <| session_id := Some i |>)).

(** [_renew_session(m_callback)]; without an answer the other side times out. *)
Definition renew_into (d : nat) (session : option string) : G unit :=
  try_log
    (_ ← ask (SessionRenew session);
     c ← lift_ (is_called d);
     if (c : bool) then mret tt else lift_ (fire_rcvd d (Ok Renewed))).

Fixpoint session_loop (n : nat) : G unit :=
  match n with
  | O => raise_ OutOfFuel
  | S n =>
      rcvd ← lift_ new_deferred_with_timeout;
      i ← get_ session_id;
      _ ← lift_ (call_later (RenewInto rcvd i));
      r ← yield (Await rcvd);
      _ ← match r with Err TimeOutError => redo_session | _ => mret tt end;
      _ ← yield (Asleep session_renewal_loop_delay);
      session_loop n
  end.

Definition session_tracking_loop : G unit :=
  finally_ (try_log (session_loop loops)) (_ ← call_later SessionTracking; mret tt).

(** ** The membership record *)
Fixpoint create_membership_loop (n : nat) : G unit :=
  match n with
  | O => raise_ OutOfFuel
  | S n =>
      i ← get_ session_id;
      ok ← retry (Put membership_record_key (Some (dumps_record external_host_address)) (Some i));
      if (ok : bool) then mret tt else _ ← backoff; create_membership_loop n
  end.
Definition do_create_membership_record_with_retries : G unit := create_membership_loop loops.

Definition create_membership_record : G unit :=
  _ ← do_create_membership_record_with_retries;
  _ ← lift_ (call_later MaintainMembership);
  mret tt.

(** [record is None or 'Session' not in record or record['Session'] != ...] *)
Definition assert_membership_record_valid : G bool :=
  try_
    (r ← get_with_timeout membership_record_key (Some 0);
     match r with
     | None => mret false
     | Some (_, record) =>
         i ← get_ session_id;
         mret match record with
              | Some e => match Session e with Some x => bool_decide (i = Some x) | None => false end
              | None => false
              end
     end)
    (λ e, if decide (e = OutOfFuel) then raise_ e else mret false).

Fixpoint maintain_loop (n : nat) : G unit :=
  match n with
  | O => raise_ OutOfFuel
  | S n =>
      valid ← assert_membership_record_valid;
      _ ← (if (valid : bool) then mret tt else do_create_membership_record_with_retries);
      _ ← yield (Asleep membership_maintenance_loop_delay);
      maintain_loop n
  end.

Definition maintain_membership_record : G unit :=
  finally_ (try_log (maintain_loop loops))
    (b ← gets shutting_down; if (b : bool) then mret tt else _ ← call_later MaintainMembership; mret tt).

(** ** The election *)
Definition set_leader_id (i : option string) : M coordinator unit :=
  ds ← gets wait_for_leader_deferreds;
  _ ← modify (λ s, s <| leader_id := i |> <| wait_for_leader_deferreds := [] |>);
  forM_ (λ d, fire d (Ok (Id i))) ds.

Definition assert_leadership : M coordinator unit :=
  b ← gets i_am_leader;
  if (b : bool) then mret tt
  else
    _ ← modify (λ s, s <| i_am_leader := true |>);
    _ ← set_leader_id (Some instance_id);
    just_gained_leadership.

Definition assert_nonleadership (i : option string) : M coordinator unit :=
  _ ← set_leader_id i;
  b ← gets i_am_leader;
  if (b : bool) then
    _ ← modify (λ s, s <| i_am_leader := false |>);
    just_lost_leadership
  else mret tt.

(** What to do with the answers to the attempt and to reading the key back *)
Definition elect (result : bool) (record : option kv_entry) : M coordinator unit :=
  match record with
  | None => mret tt
  | Some e =>
      if result then
        x ← from_some KeyError (Session e);
        i ← gets session_id;
        if decide (i = Some x) then assert_leadership else mret tt
      else assert_nonleadership (Value e)
  end.

(** [while last is not None: ...], until the key changes *)
Fixpoint watch_leader_key (n : nat) (index : Z) (last : kv_entry) : G unit :=
  match n with
  | O => raise_ OutOfFuel
  | S n =>
      r ← get_with_timeout leader_prefix (Some index);
      match r with
      | None => watch_leader_key n index last
      | Some (index, updated) =>
          if decide (updated = Some last) then watch_leader_key n index last
          else
            b ← get_ i_am_leader;
            if (b : bool) then lift_ (assert_nonleadership (Some instance_id)) else mret tt
      end
  end.

Definition leadership_tracking_loop : G unit :=
  finally_
    (try_log
      (i ← get_ session_id;
       result ← retry (Put leader_prefix (Some instance_id) (Some i));
       r ← retry (Get leader_prefix None);
       let '(index, record) := r in
       _ ← lift_ (elect result record);
       match record with
       | Some last => watch_leader_key loops index last
       | None => mret tt
       end))
    (b ← gets shutting_down; if (b : bool) then mret tt else _ ← call_later LeadershipTracking; mret tt).

(** ** The class *)
Definition async_init : G unit :=
  _ ← create_session;
  _ ← create_membership_record;
  _ ← lift_ (call_later LeadershipTracking);
  lift_ worker_start.

Definition stop_leader : M coordinator unit :=
  l ← gets leader_;
  match l with
  | Some l => _ ← leader_stop l; modify (λ s, s <| leader_ := None |>)
  | None => mret tt
  end.

Definition stop : G unit :=
  _ ← set_ (λ s, s <| shutting_down := true |>);
  _ ← delete_session;
  _ ← lift_ worker_stop;
  lift_ stop_leader.

Definition get_core_store_id_and_prefix : G (option string * string) :=
  i ← get_core_store_id;
  mret (i, core_store_prefix).

(** ** Threads *)
Definition routine (c : call) : G unit :=
  match c with
  | AsyncInit => async_init
  | MaintainMembership => maintain_membership_record
  | SessionTracking => session_tracking_loop
  | LeadershipTracking => leadership_tracking_loop
  | TimedOut d => lift_ (timed_out d)
  | GetInto d all key index => get_into d all key index
  | RenewInto d session => renew_into d session
  | TrackMembers l index => track_members l index
  | ReassignCoreStores l => reassign_core_stores l
  | GetMappings l => get_core_store_mappings l
  | TrackMyAssignments index => track_my_assignments index
  | TrackMyPeers index => track_my_peers index
  | UpdateAssignments => lift_ update_assignments
  | ProcessConfigAssignment => lift_ process_config_assignment
  end.

(** What the users of the coordinator may do at any time *)
Inductive user := UStop | UCoreStoreId | UMembers | UWaitLeader | URecvPeers | UWorkload (w : gset string).

Definition user_routine (u : user) : G unit :=
  match u with
  | UStop => stop
  | UCoreStoreId => _ ← get_core_store_id_and_prefix; mret tt
  | UMembers => _ ← get_members; mret tt
  | UWaitLeader => _ ← lift_ wait_for_a_leader; mret tt
  | URecvPeers => _ ← lift_ recv_peers_map; mret tt
  | UWorkload w => lift_ (stash_and_restart_soak_timer w)
  end.

(** Who started a generator; a generator that waits. *)
Inductive origin := OCall (c : call) | OUser (u : user).
#[export] Instance user_eq_dec : EqDecision user.
Proof. solve_decision. Defined.
#[export] Instance origin_eq_dec : EqDecision origin.
Proof. solve_decision. Defined.

Inductive thread := Thread (o : origin) {X : Type} (w : ev X) (k : X → coordinator → gen_run ev coordinator unit).

Definition origin_of (t : thread) : origin := match t with Thread o _ _ => o end.

(** [spinning] are those that went round a loop more than [loops] times, and
    are not followed any further. *)
Record world := World {
  st : coordinator;
  threads : list thread;
  spinning : list origin;
}.

Definition settle (o : origin) (m : gen_run ev coordinator unit) (ts : list thread) (sp : list origin) : world :=
  match m with
  | Done (Err OutOfFuel) s => World s ts (o :: sp)
  | Done _ s => World s ts sp
  | Wait w s k => World s (ts ++ [Thread o w k]) sp
  end.

(** A Deferred resumes with what it has fired with; anything may happen at the
    store. *)
Definition answers {X} (s : coordinator) (w : ev X) : X → Prop :=
  match w in ev X return X → Prop with
  | Await d => λ r, ∃ x, deferreds s !! d = Some x ∧ result_of x = Some r
  | AwaitCoreStore => λ r, result_of (wait_for_core_store_assignment (worker_ s)) = Some r
  | _ => λ _, True
  end.

(** The reactor makes call [i]. *)
Definition made (i : nat) (n : nat) (s : coordinator) : coordinator :=
  s <| calls ::= delete i |> <| called ::= cons n |>.

Inductive step : world → world → Prop :=
  | step_call s ts sp i n c : calls s !! i = Some (n, c) →
      step (World s ts sp) (settle (OCall c) (routine c (made i n s)) ts sp)
  | step_resume s ts sp i o X (w : ev X) k x : ts !! i = Some (Thread o w k) → answers s w x →
      step (World s ts sp) (settle o (k x s) (delete i ts) sp)
  | step_user s ts sp u : step (World s ts sp) (settle (OUser u) (user_routine u s) ts sp).

Definition started : world := World (start init).2 [] [].

Inductive reachable : world → Prop :=
  | r_started : reachable started
  | r_step w w' : reachable w → step w w' → reachable w'.

(** ** Runs

    The same steps as a function, to evaluate runs: the reactor makes call [i],
    generator [i] gets an answer, or a user calls. *)
Inductive reply :=
  | RGet (x : result (Z * option kv_entry))
  | RGetAll (x : result (Z * option (list kv_entry)))
  | RKeys (x : result (Z * option (list string)))
  | RBool (x : result bool)
  | RString (x : result string)
  | RUnit (x : result unit)
  | RNow.     (* a pause is over, or a Deferred has fired *)

Definition reply_to {X} (s : coordinator) (w : ev X) (a : reply) : option X :=
  match w in ev X return option X with
  | Consul r =>
      match r in request Y return option (result Y) with
      | Get _ _ => match a with RGet x => Some x | _ => None end
      | GetAll _ _ => match a with RGetAll x => Some x | _ => None end
      | Keys _ => match a with RKeys x => Some x | _ => None end
      | Put _ _ _ | Coordination.Delete _ => match a with RBool x => Some x | _ => None end
      | SessionCreate => match a with RString x => Some x | _ => None end
      | SessionDestroy _ | SessionRenew _ => match a with RUnit x => Some x | _ => None end
      end
  | Asleep _ => Some tt
  | Await d => x ← deferreds s !! d; result_of x
  | AwaitCoreStore => result_of (wait_for_core_store_assignment (worker_ s))
  end.

Inductive move := MCall (i : nat) | MReply (i : nat) (a : reply) | MUser (u : user).

Definition exec (m : move) (w : world) : option world :=
  let '(World s ts sp) := w in
  match m with
  | MCall i => '(n, c) ← calls s !! i; Some (settle (OCall c) (routine c (made i n s)) ts sp)
  | MReply i a =>
      t ← ts !! i;
      match t with
      | Thread o w k => x ← reply_to s w a; Some (settle o (k x s) (delete i ts) sp)
      end
  | MUser u => Some (settle (OUser u) (user_routine u s) ts sp)
  end.

Fixpoint execs (ms : list move) (w : world) : option world :=
  match ms with
  | [] => Some w
  | m :: ms => w ← exec m w; execs ms w
  end.

Lemma reply_answers {X} s (w : ev X) a x : reply_to s w a = Some x → answers s w x.
Proof. destruct w as [Y r| | |]; simpl; try done. intros (y&Hy&Hx)%bind_Some. eauto. Qed.

Lemma exec_step m w w' : exec m w = Some w' → step w w'.
Proof.
  destruct w as [s ts sp], m as [i|i a|u]; simpl.
  - intros ([n c]&Hi&[= <-])%bind_Some. by constructor.
  - intros (t&Ht&Hw)%bind_Some. destruct t as [o X e k]. apply bind_Some in Hw as (x&Hx&[= <-]).
    apply (step_resume s ts sp i o X e k x); [done|]. by eapply reply_answers.
  - intros [= <-]. constructor.
Qed.

Lemma execs_steps ms w w' : execs ms w = Some w' → rtc step w w'.
Proof.
  revert w. induction ms as [|m ms IH]; intros w; simpl; [by intros [= ->]|].
  intros (w1&H1%exec_step&H2%IH)%bind_Some. by eapply rtc_l.
Qed.

Lemma execs_reachable ms w : execs ms started = Some w → reachable w.
Proof.
  intros Hs%execs_steps. assert (reachable started) as Hr by constructor. revert Hr.
  induction Hs as [|x y z Hxy Hyz IH]; intros Hx; [done|]. apply IH. by eapply r_step.
Qed.
End coordinator.
