(* ===== verification/LeaderProofs.v ===== *)
(** * What the leader's assignment guarantees

    The mapping that Leader.v computes gives each member one core store, and the
    list of members that it starts from has each instance once, in its latest
    incarnation. *)
From S2P Require Import Prelude Generators MessageQueue IdGeneration Coordination Leader.
From Stdlib Require Import ZArith NArith Lia Ascii.
From stdpp Require Import base gmap strings numbers list.

(** ** Order of strings

    On identifiers of four hexadecimal digits it is the order of the numbers. *)
Section order.
Local Open Scope N_scope.

Fixpoint lower_hex (s : string) : Prop :=
  match s with EmptyString => True | String a s => (∃ d, d < 16 ∧ a = hex_digit d) ∧ lower_hex s end.

Lemma hex_digit_code d : d < 16 → N_of_ascii (hex_digit d) = if decide (d < 10) then 48 + d else 87 + d.
Proof. intros Hd. unfold hex_digit. case_decide; apply N_ascii_embedding; lia. Qed.

Lemma hex_digit_compare d e : d < 16 → e < 16 → Ascii.compare (hex_digit d) (hex_digit e) = (d ?= e).
Proof.
  intros Hd He. unfold Ascii.compare. rewrite !hex_digit_code by done.
  destruct (N.compare_spec d e) as [->|Hlt|Hlt]; [apply N.compare_refl| |]; repeat case_decide;
    first [apply N.compare_lt_iff; lia|apply N.compare_gt_iff; lia].
Qed.

Lemma lower_hex_parse s a : lower_hex s → is_Some (parse_from 16 s a).
Proof.
  revert a. induction s as [|c s IH]; intros a; [by eexists|]. intros [(d&Hd&->) Hs]. cbn [parse_from].
  rewrite digit_hex by done. by apply IH.
Qed.

Lemma compare_parse s t n m : lower_hex s → lower_hex t → String.length s = String.length t →
  parse_from 16 s 0 = Some n → parse_from 16 t 0 = Some m → String.compare s t = (n ?= m).
Proof.
  revert t n m. induction s as [|c s IH]; intros [|c' t] n m; try done; [by intros _ _ _ [= <-] [= <-]|].
  intros [(d&Hd&->) Hs] [(e&He&->) Ht] [= Hl]. cbn [parse_from String.compare]. rewrite !digit_hex by done. cbn [mbind option_bind].
  intros (n'&Hn&->&Hln)%parse_acc (m'&Hm&->&Hlm)%parse_acc. rewrite hex_digit_compare, Hl in * by done.
  set (p := 16 ^ N.of_nat (String.length t)) in *.
  destruct (N.compare_spec d e) as [->|Hlt|Hlt].
  - rewrite (IH t n' m') by done. symmetry. destruct (N.compare_spec n' m') as [->|?|?];
      [apply N.compare_refl|apply N.compare_lt_iff; lia|apply N.compare_gt_iff; lia].
  - symmetry. apply N.compare_lt_iff. nia.
  - symmetry. apply N.compare_gt_iff. nia.
Qed.

Lemma lower_hex_app s t : lower_hex s → lower_hex t → lower_hex (s +:+ t).
Proof. induction s as [|c s IH]; [done|]. rewrite app_cons. intros [Hc Hs] Ht. split; [done|]. by apply IH. Qed.

Lemma lower_hex_loop fuel n acc : lower_hex acc → lower_hex (hex_loop fuel n acc).
Proof.
  revert n acc. induction fuel as [|fuel IH]; intros n acc Ha; [done|]. cbn [hex_loop]. case_decide as Hn.
  - split; [by exists n|done].
  - apply IH. split; [|done]. exists (n mod 16). split; [apply N.mod_lt; lia|done].
Qed.

Lemma lower_hex_format w n : lower_hex (format_x w n).
Proof.
  unfold format_x. apply lower_hex_app; [|by apply lower_hex_loop].
  induction (w - _)%nat; [done|]. split; [|done]. by exists 0.
Qed.

Lemma hex_loop_length fuel n acc w : (0 < w)%nat → n < 16 ^ N.of_nat w →
  (String.length (hex_loop fuel n acc) ≤ w + String.length acc)%nat.
Proof.
  revert n acc w. induction fuel as [|fuel IH]; intros n acc w Hw Hn; [simpl; lia|]. cbn [hex_loop]. case_decide as Hlt.
  - simpl. lia.
  - destruct w as [|w]; [lia|]. rewrite Nat2N.inj_succ, N.pow_succ_r' in Hn.
    destruct w as [|w]; [simpl in Hn; lia|].
    eapply Nat.le_trans; [apply (IH _ _ (S w)); [lia|]|simpl; lia]. apply N.Div0.div_lt_upper_bound. lia.
Qed.

Lemma format_length_eq w n : (0 < w)%nat → n < 16 ^ N.of_nat w → String.length (format_x w n) = w.
Proof.
  intros Hw Hn. pose proof (hex_loop_length (S (N.to_nat (N.log2 n))) n "" w Hw Hn) as Hl. fold (hex n) in Hl.
  unfold format_x. rewrite string_length_app, zeros_length. simpl in Hl. lia.
Qed.

Lemma format_compare n m : n < 65536 → m < 65536 → String.compare (format_x 4 n) (format_x 4 m) = (n ?= m).
Proof.
  intros Hn Hm. apply compare_parse; auto using lower_hex_format, parse_format. by rewrite !format_length_eq by (done || lia).
Qed.

Lemma format_inj w n m : format_x w n = format_x w m → n = m.
Proof. intros H. pose proof (parse_format w n) as Hn. rewrite H, parse_format in Hn. congruence. Qed.

Lemma format_max n m : n < 65536 → m < 65536 → str_max (format_x 4 n) (format_x 4 m) = format_x 4 (N.max n m).
Proof.
  intros Hn Hm. unfold str_max, String.ltb. rewrite format_compare by done.
  destruct (N.compare_spec n m); f_equal; lia.
Qed.

Lemma next_of_format n : get_next_core_id (Some (format_x 4 n)) = Ok (format_x 4 (n + 1)).
Proof.
  pose proof (format_length 4 n) as Hl. unfold get_next_core_id.
  assert (int_base 16 (format_x 4 n) = Ok n) as Hi.
  { apply int_base_Some; [|apply parse_format]. intros He. rewrite He in Hl. simpl in Hl. lia. }
  destruct (format_x 4 n); [simpl in Hl; lia|]. by rewrite Hi.
Qed.

(** Strings in general *)
Lemma str_compare_trans s t u : String.compare s t ≠ Gt → String.compare t u ≠ Gt → String.compare s u ≠ Gt.
Proof.
  revert t u. induction s as [|a s IH]; intros [|b t] [|c u]; try done. simpl. unfold Ascii.compare.
  destruct (N.compare_spec (N_of_ascii a) (N_of_ascii b)), (N.compare_spec (N_of_ascii b) (N_of_ascii c)),
    (N.compare_spec (N_of_ascii a) (N_of_ascii c)); try done; try lia. apply IH.
Qed.

Lemma ltb_false_iff s t : String.ltb s t = false ↔ String.compare t s ≠ Gt.
Proof. unfold String.ltb. rewrite (String.compare_antisym s t). by destruct (String.compare t s). Qed.

Lemma ltb_step s t u : String.ltb s u = false → String.ltb s t = true → String.ltb t u = false.
Proof.
  rewrite !ltb_false_iff. intros Hs Ht. eapply str_compare_trans; [exact Hs|]. unfold String.ltb in Ht.
  by destruct (String.compare s t).
Qed.
End order.

(** ** The mapping *)
Lemma NoDup_fmap_eq {A B} (f : A → B) (l : list A) x y : NoDup (f <$> l) → x ∈ l → y ∈ l → f x = f y → x = y.
Proof.
  induction l as [|z l IH]; csimpl; [set_solver|]. intros [Hz Hl]%NoDup_cons Hx Hy Heq.
  assert (∀ w, w ∈ l → f w ≠ f z) as Hne by (intros w Hw Hwz; apply Hz; rewrite <- Hwz; by apply list_elem_of_fmap_2).
  apply elem_of_cons in Hx as [->|Hx], Hy as [->|Hy]; [done|by destruct (Hne y Hy)|by destruct (Hne x Hx)|by apply IH].
Qed.

Section mapping.
Context {HO : DictOrder}.

(** The ids of the stores are four digits and numbered up to [n]. *)
Definition ids_upto (n : N) (a : assignment) : Prop := ∀ k, is_Some (a !! k) → ∃ i, (i ≤ n)%N ∧ k = format_x 4 i.

(** No instance has two stores. *)
Definition exclusive (a : assignment) : Prop :=
  ∀ k k' m m', a !! k = Some (Some m) → a !! k' = Some (Some m') → m_id m = m_id m' → k = k'.

(** *** The first step *)
Definition keep (ms : list member) (v : option member) : option member :=
  m ← v; if decide (m ∈ ms) then Some m else None.

Record clears (ms : list member) (l : list (string * option member)) (c : cleared) : Prop := {
  clears_mapping : ∀ k v, updated_mapping c !! k = Some v ↔ ∃ v', (k, v') ∈ l ∧ v = keep ms v';
  clears_existing : ∀ i, i ∈ existing_active_config_members c ↔ ∃ k m, (k, Some m) ∈ l ∧ m ∈ ms ∧ m_id m = i;
  clears_free : ∀ k, k ∈ cleared_config_ids c ↔ updated_mapping c !! k = Some None;
  clears_inactive : ∀ i, i ∈ inactive_members c ↔ ∃ k m, (k, Some m) ∈ l ∧ m ∉ ms ∧ m_id m = i;
}.

Lemma keep_Some ms v m : keep ms v = Some m ↔ v = Some m ∧ m ∈ ms.
Proof. unfold keep. destruct v as [m'|]; simpl; [case_decide|]; naive_solver. Qed.

Lemma clear_one_clears ms l c k v : clears ms l c → k ∉ l.*1 → clears ms (l ++ [(k, v)]) (clear_one ms c (k, v)).
Proof.
  intros [Hm He Hf Hi] Hk.
  assert (updated_mapping c !! k = None) as Hnone.
  { apply eq_None_not_Some. intros [w (v'&Hv'&_)%Hm]. apply Hk. by eapply od_elem_key. }
  assert (updated_mapping (clear_one ms c (k, v)) = <[k := keep ms v]> (updated_mapping c)) as Hu.
  { unfold clear_one, keep. destruct v as [m|]; simpl; [case_decide|]; done. }
  split.
  - intros k' w. rewrite Hu, lookup_insert_Some, Hm. setoid_rewrite elem_of_app. setoid_rewrite list_elem_of_singleton.
    split; [naive_solver|]. intros (v'&[Hin|[= -> ->]]&->); [right|by left]. split; [|by exists v'].
    intros <-. apply Hk. by eapply od_elem_key.
  - intros i. setoid_rewrite elem_of_app. setoid_rewrite list_elem_of_singleton. unfold clear_one.
    destruct v as [m|]; simpl; [case_decide|]; simpl; rewrite ?elem_of_union, ?elem_of_singleton, He; naive_solver.
  - intros k'. rewrite Hu, lookup_insert_Some, <- Hf. unfold clear_one, keep.
    destruct v as [m|]; simpl; [case_decide|]; simpl; rewrite ?elem_of_union, ?elem_of_singleton, Hf;
      destruct (decide (k = k')); naive_solver.
  - intros i. setoid_rewrite elem_of_app. setoid_rewrite list_elem_of_singleton. unfold clear_one.
    destruct v as [m|]; simpl; [case_decide|]; simpl; rewrite ?elem_of_union, ?elem_of_singleton, Hi; naive_solver.
Qed.

Lemma clear_mapping_clears a ms : clears ms (iteritems a) (clear_mapping a ms).
Proof.
  unfold clear_mapping. pose proof (NoDup_iteritems_keys a) as Hnd. revert Hnd.
  induction (iteritems a) as [|[k v] l IH] using rev_ind; intros Hnd.
  - split; intros; simpl; set_solver.
  - rewrite fmap_app in Hnd. apply NoDup_app in Hnd as (Hl&Hk&_). rewrite foldl_app. simpl.
    apply clear_one_clears; [by apply IH|]. intros Hin. apply (Hk k Hin). simpl. set_solver.
Qed.

Lemma cleared_lookup a ms k : updated_mapping (clear_mapping a ms) !! k = keep ms <$> a !! k.
Proof.
  pose proof (clears_mapping _ _ _ (clear_mapping_clears a ms)) as Hm. setoid_rewrite elem_of_iteritems in Hm.
  destruct (a !! k) as [v|] eqn:Hk; simpl.
  - apply Hm. by exists v.
  - apply eq_None_not_Some. intros [w (v'&Hv'&_)%Hm]. congruence.
Qed.

(** *** The second step *)
Lemma give_stores_spec existing ms b free (n : N) : NoDup (m_id <$> ms) → (n + N.of_nat (length ms) < 65536)%N →
  ids_upto n b → exclusive b → (∀ k, k ∈ free ↔ b !! k = Some None) →
  (∀ k m m', b !! k = Some (Some m) → m' ∈ ms → m_id m' ∉ existing → m_id m ≠ m_id m') →
  ∃ b' n', give_stores existing ms b free (format_x 4 n) = Ok b' ∧ (n' ≤ n + N.of_nat (length ms))%N ∧
    ids_upto n' b' ∧ exclusive b' ∧
    (∀ k m, b !! k = Some (Some m) → b' !! k = Some (Some m)) ∧ dom b ⊆ dom b' ∧
    (∀ m, m ∈ ms → m_id m ∉ existing → ∃ k, b' !! k = Some (Some m)) ∧
    (∀ k m, b' !! k = Some (Some m) → b !! k = Some (Some m) ∨ m ∈ ms) ∧
    ((∃ k, b' !! k = Some None) → dom b' = dom b).
Proof.
  revert b free n. induction ms as [|m ms IH]; intros b free n Hnd Hn Hids Hex Hfree Hnew; csimpl in Hnd; cbn [length] in *.
  { exists b, n. split_and!; try done; [lia|set_solver|by left]. }
  apply NoDup_cons in Hnd as [Hm Hnd]. destruct (decide (m_id m ∈ existing)) as [He|He].
  { destruct (IH b free n) as (b'&n'&Hg&Hn'&?&?&?&?&Hgiven&Hold&?); [done|lia|done..|set_solver|].
    exists b', n'. split_and!; try done; [cbn [give_stores]; by rewrite decide_True|lia|set_solver|].
    intros k m' Hk. destruct (Hold k m' Hk); set_solver. }
  assert (∃ next n1 free1, (n ≤ n1 ≤ n + 1)%N ∧ (∀ k m', b !! k = Some (Some m') → k ≠ next) ∧
    give_stores existing (m :: ms) b free (format_x 4 n) =
      give_stores existing ms (<[next := Some m]> b) free1 (format_x 4 n1) ∧
    (∃ i, (i ≤ n1)%N ∧ next = format_x 4 i) ∧
    (∀ k, k ∈ free1 ↔ <[next := Some m]> b !! k = Some None) ∧
    ((∃ k, k ∈ free) → is_Some (b !! next))) as (next&n1&free1&Hn1&Hfresh&Hgive&Hnext&Hfree1&Hdom).
  { cbn [give_stores]. rewrite decide_False by done. destruct (set_items free) as [|next rest] eqn:Hset.
    - rewrite next_of_format. exists (format_x 4 (n + 1)), (n + 1)%N, free.
      assert (∀ k, k ∉ free) as Hnil by (intros k Hk; apply elem_of_set_items in Hk; rewrite Hset in Hk; set_solver).
      assert (b !! format_x 4 (n + 1) = None) as Hnone.
      { apply eq_None_not_Some. intros (i&Hi&Heq%format_inj)%Hids. lia. }
      split_and!; [lia|lia|congruence|done|by exists (n + 1)%N| |set_solver].
      intros k. rewrite lookup_insert_Some. split; [set_solver|]. intros [[? ?]|[? Hk%Hfree]]; [done|set_solver].
    - assert (next ∈ free) as Hin by (apply elem_of_set_items; rewrite Hset; set_solver).
      exists next, n, (free ∖ {[next]}). pose proof (proj1 (Hfree next) Hin) as Hb.
      split_and!; [lia|lia|congruence|done|apply Hids; by eexists| |by eexists].
      intros k. rewrite lookup_insert_Some, elem_of_difference, elem_of_singleton, Hfree. naive_solver. }
  rewrite Hgive. destruct (IH (<[next := Some m]> b) free1 n1) as (b'&n'&Hg&Hn'&Hids'&Hex'&Hkeep&Hsub&Hgiven&Hold&Hfull).
  - done.
  - lia.
  - intros k [v Hk]. apply lookup_insert_Some in Hk as [[<- _]|[_ Hk]]; [done|].
    destruct (Hids k) as (i&Hi&->); [by eexists|]. exists i. split; [lia|done].
  - assert (∀ k m', b !! k = Some (Some m') → m_id m' ≠ m_id m) as Hd by (intros; eapply Hnew; set_solver).
    intros k k' m1 m2 [[<- [= <-]]|[? H1]]%lookup_insert_Some [[<- [= <-]]|[? H2]]%lookup_insert_Some Heq;
      [done|by apply Hd in H2|by apply Hd in H1|by eapply Hex].
  - done.
  - intros k m1 m2 [[<- [= <-]]|[? H1]]%lookup_insert_Some Hin Hne; [|eapply Hnew; set_solver].
    intros Heq. apply Hm. rewrite Heq. by apply list_elem_of_fmap_2.
  - exists b', n'. split_and!; try done; [lia| | | | |].
    + intros k m' Hk. apply Hkeep. rewrite lookup_insert_ne; [done|]. symmetry. by eapply Hfresh.
    + set_solver.
    + intros m' [->|Hin]%elem_of_cons Hne; [|by apply Hgiven]. exists next. apply Hkeep, lookup_insert_eq.
    + intros k m' [Hk|Hk]%Hold; [|set_solver]. apply lookup_insert_Some in Hk as [[_ [= <-]]|[_ Hk]]; [set_solver|by left].
    + intros Hex0. pose proof Hex0 as (k&Hk). rewrite Hfull by done. rewrite dom_insert_L.
      assert (is_Some (b !! next)) as Hs; [|apply elem_of_dom in Hs; set_solver]. apply Hdom.
      assert (k ∈ dom b') as Hk' by (apply elem_of_dom; by eexists). rewrite Hfull in Hk' by done.
      exists k. apply Hfree. apply elem_of_dom in Hk' as [[m'|] Hv]; [rewrite (Hkeep _ _ Hv) in Hk; done|].
      apply lookup_insert_Some in Hv as [[_ ?]|[_ ?]]; done.
Qed.
(** *** Both steps *)
Lemma max_list (n : N) (ns : list N) : (n < 65536)%N → Forall (λ i, i < 65536)%N ns →
  foldl str_max (format_x 4 n) (format_x 4 <$> ns) = format_x 4 (foldl N.max n ns).
Proof.
  intros Hn His. revert n Hn. induction His as [|i ns Hi _ IH]; intros n Hn; [done|]. simpl. rewrite format_max by done.
  apply IH. lia.
Qed.

Lemma foldl_max (n : N) (ns : list N) : (n ≤ foldl N.max n ns)%N ∧ (∀ i, i ∈ ns → (i ≤ foldl N.max n ns)%N) ∧
  (foldl N.max n ns = n ∨ foldl N.max n ns ∈ ns).
Proof.
  revert n. induction ns as [|i ns IH]; intros n; simpl; [set_solver|]. destruct (IH (N.max n i)) as (H1&H2&H3).
  split_and!; [lia| |].
  - intros j [->|Hj]%elem_of_cons; [lia|auto].
  - destruct H3 as [H3|H3]; [|set_solver]. rewrite H3. destruct (N.max_spec n i) as [[_ ->]|[_ ->]]; set_solver.
Qed.

Lemma max_key_spec a n : ids_upto n a → (n < 65536)%N → a ≠ ∅ → ∃ i, (i ≤ n)%N ∧ max_key a = format_x 4 i ∧ ids_upto i a.
Proof.
  intros Hids Hn Hne. unfold max_key. pose proof (λ k v, elem_of_iteritems a k v) as Hin.
  assert (∃ ns, (iteritems a).*1 = format_x 4 <$> ns ∧ Forall (λ i, i ≤ n)%N ns) as (ns&His&Hle).
  { assert (∀ k, k ∈ (iteritems a).*1 → is_Some (a !! k)) as Hk.
    { intros k ([k' v]&->&Hkv%Hin)%list_elem_of_fmap. by eexists. }
    revert Hk. induction ((iteritems a).*1) as [|k ks IH]; intros Hk; [by exists []|].
    destruct IH as (ns&->&Hle); [set_solver|]. destruct (Hids k) as (i&Hi&->); [apply Hk; set_solver|].
    exists (i :: ns). split; [done|]. by constructor. }
  rewrite His. destruct ns as [|i ns].
  { destruct Hne. apply map_empty. intros k. apply eq_None_not_Some. intros [v Hv%Hin]. apply od_elem_key in Hv. rewrite His in Hv.
    set_solver. }
  apply Forall_cons in Hle as [Hi Hle]. csimpl. rewrite max_list; [|lia|eapply Forall_impl; [exact Hle|]; simpl; lia].
  destruct (foldl_max i ns) as (Hm1&Hm2&Hm3). exists (foldl N.max i ns). split_and!; [|done|].
  - destruct Hm3 as [->|Hm3]; [done|]. rewrite Forall_forall in Hle. by apply Hle.
  - intros k [v Hv%Hin]. apply od_elem_key in Hv. rewrite His in Hv. apply list_elem_of_fmap in Hv as (j&->&Hj).
    exists j. split; [|done]. apply elem_of_cons in Hj as [->|Hj]; [done|]. by apply Hm2.
Qed.

(** C10 When the members change, the new mapping gives every member exactly one
    core store and a store to nobody else; members that stay keep theirs, no
    store is lost, and new ones are made only when none is free. *)
Theorem reassign_correct a ms n (Hids : ids_upto n a) (Hex : exclusive a) (Hnd : NoDup (m_id <$> ms))
    (Hroom : (n + N.of_nat (length ms) < 65536)%N) :
  ∃ b c n', plan_stores (Some a) (Some ms) = Ok (b, c) ∧ ids_upto n' b ∧ (n' ≤ n + N.of_nat (length ms))%N ∧ exclusive b ∧
    (∀ m, m ∈ ms ↔ ∃ k, b !! k = Some (Some m)) ∧
    (∀ k m, a !! k = Some (Some m) → m ∈ ms → b !! k = Some (Some m)) ∧
    dom a ⊆ dom b ∧ ((∃ k, b !! k = Some None) → dom b = dom a).
Proof.
  destruct (clear_mapping_clears a ms) as [_ He Hf _]. pose proof (cleared_lookup a ms) as Hlk. unfold plan_stores. simpl.
  set (c := clear_mapping a ms) in *. set (b0 := updated_mapping c) in *.
  assert (∀ k m, b0 !! k = Some (Some m) ↔ a !! k = Some (Some m) ∧ m ∈ ms) as Hact.
  { intros k m. rewrite Hlk, fmap_Some. setoid_rewrite (eq_comm (Some m)). setoid_rewrite keep_Some. naive_solver. }
  assert (∀ k, is_Some (b0 !! k) ↔ is_Some (a !! k)) as Hdom by (intros k; rewrite Hlk; apply fmap_is_Some).
  assert (dom b0 = dom a) as Hdom' by (apply set_eq; intros k; rewrite !elem_of_dom; apply Hdom).
  assert (∃ i, (i ≤ n)%N ∧ (if decide (a = ∅) then "0000" else max_key a) = format_x 4 i ∧ ids_upto i b0) as (i&Hi&->&Hids0).
  { assert (∀ i, ids_upto i a → ids_upto i b0) as Hup by (intros i Hi k Hk; apply Hi, Hdom, Hk).
    case_decide as Hemp; [exists 0%N; split_and!; [lia|done|]; apply Hup; subst a; by intros k [v ?]|].
    destruct (max_key_spec a n) as (i&?&?&?); [done|lia|done|]. exists i. auto. }
  destruct (give_stores_spec (existing_active_config_members c) ms b0 (cleared_config_ids c) i)
    as (b&n'&->&Hn'&?&?&Hkeep&Hsub&Hgiven&Hold&Hfull); [done|lia|done| |done| |].
  { intros k k' m m' [H1 _]%Hact [H2 _]%Hact. by eapply Hex. }
  { intros k m m' [H1 H2]%Hact Hin Hnot Heq. apply Hnot, He. exists k, m. by rewrite elem_of_iteritems. }
  exists b, c, n'. split_and!; try done; [lia| | |set_solver|].
  - intros m. split.
    + intros Hm. destruct (decide (m_id m ∈ existing_active_config_members c)) as [Hin|Hin]; [|by apply Hgiven].
      apply He in Hin as (k&m'&Hk%elem_of_iteritems&Hm'&Heq). exists k. apply Hkeep, Hact.
      by rewrite <- (NoDup_fmap_eq m_id ms m' m).
    + intros [k [Hk|Hk]%Hold]; [|done]. by apply Hact in Hk as [_ Hk].
  - intros k m Hk Hm. by apply Hkeep, Hact.
  - intros Hnone. by rewrite <- Hdom', Hfull.
Qed.
End mapping.

(** ** The list of members *)
Section members.
Context {HO : DictOrder} {HC : Cluster}.

Definition number (m : member) : option string := core_match (m_id m).
Definition timestamp (m : member) : option string := timestamp_match (m_id m).

(** A later incarnation of the same instance, or the same *)
Definition supersedes (m' m : member) : Prop :=
  number m' = number m ∧ ∀ t t', timestamp m = Some t → timestamp m' = Some t' → String.ltb t' t = false.

Record sane (seen : list member) (u : gmap string (string * member)) (update : bool) : Prop := {
  sane_entry : ∀ n t m, u !! n = Some (t, m) → m ∈ seen ∧ number m = Some n ∧ timestamp m = Some t;
  sane_latest : ∀ m, m ∈ seen → ∃ n t m', u !! n = Some (t, m') ∧ supersedes m' m;
  sane_unique : update = false → NoDup (number <$> seen);
}.

Lemma ltb_irrefl s : String.ltb s s = false.
Proof. apply ltb_false_iff. induction s as [|a s IH]; simpl; [done|]. unfold Ascii.compare. by rewrite N.compare_refl. Qed.

Lemma supersedes_refl m : supersedes m m.
Proof. split; [done|]. intros t t' -> [= <-]. apply ltb_irrefl. Qed.

Lemma sane_step seen u update m n t : sane seen u update → number m = Some n → timestamp m = Some t →
  match u !! n with
  | None => sane (seen ++ [m]) (<[n := (t, m)]> u) update
  | Some (t0, _) => sane (seen ++ [m]) (if String.ltb t0 t then <[n := (t, m)]> u else u) true
  end.
Proof.
  intros [He Hl Hu] Hn Ht. destruct (u !! n) as [[t0 m0]|] eqn:Hlk.
  - destruct (He n t0 m0 Hlk) as (_&Hn0&Ht0). destruct (String.ltb t0 t) eqn:Hlt; split; try done.
    + intros n' t' m' [[<- [= <- <-]]|[_ Hlk']]%lookup_insert_Some; [set_solver|]. apply He in Hlk' as (?&?&?). set_solver.
    + intros m' [Hm'| ->%list_elem_of_singleton]%elem_of_app.
      * destruct (Hl m' Hm') as (n1&t1&m1&Hlk1&Hs). destruct (decide (n1 = n)) as [->|Hne].
        -- exists n, t, m. rewrite lookup_insert_eq. split; [done|]. simplify_eq. destruct Hs as [Hs1 Hs2].
           split; [congruence|]. intros t2 t3 Ht2 Ht3. simplify_eq. eapply ltb_step; [by apply Hs2|congruence].
        -- exists n1, t1, m1. by rewrite lookup_insert_ne.
      * exists n, t, m. rewrite lookup_insert_eq. split; [done|apply supersedes_refl].
    + intros n' t' m' Hlk'. apply He in Hlk' as (?&?&?). set_solver.
    + intros m' [Hm'| ->%list_elem_of_singleton]%elem_of_app; [by apply Hl|]. exists n, t0, m0. split; [done|].
      split; [congruence|]. intros. by simplify_eq.
  - split.
    + intros n' t' m' [[<- [= <- <-]]|[_ Hlk']]%lookup_insert_Some; [set_solver|]. apply He in Hlk' as (?&?&?). set_solver.
    + intros m' [Hm'| ->%list_elem_of_singleton]%elem_of_app.
      * destruct (Hl m' Hm') as (n1&t1&m1&Hlk1&Hs). exists n1, t1, m1. rewrite lookup_insert_ne by congruence. done.
      * exists n, t, m. rewrite lookup_insert_eq. split; [done|apply supersedes_refl].
    + intros Hup. rewrite fmap_app. apply NoDup_app. split_and!; [by apply Hu| |apply NoDup_singleton].
      intros o (m'&->&Hm')%list_elem_of_fmap Hin%list_elem_of_singleton. destruct (Hl m' Hm') as (n1&t1&m1&Hlk1&[Hs _]).
      apply He in Hlk1 as Hlk2. destruct Hlk2 as (_&?&_). congruence.
Qed.

Lemma sanitize_loop_spec ms seen u update u' update' : sane seen u update →
  sanitize_loop u update ms = Some (u', update') → sane (seen ++ ms) u' update'.
Proof.
  revert seen u update. induction ms as [|m ms IH]; intros seen u update Hs; simpl.
  { intros [= <- <-]. by rewrite app_nil_r. }
  intros (n&Hn&(t&Ht&H)%bind_Some)%bind_Some. pose proof (sane_step _ _ _ _ _ _ Hs Hn Ht) as Hs'.
  replace (seen ++ m :: ms) with ((seen ++ [m]) ++ ms) by by rewrite <- app_assoc.
  destruct (u !! n) as [[t0 m0]|]; by eapply IH.
Qed.

Lemma sanitize_loop_total ms u update :
  Forall (λ m, is_Some (number m) ∧ is_Some (timestamp m)) ms ↔ is_Some (sanitize_loop u update ms).
Proof.
  revert u update. induction ms as [|m ms IH]; intros u update; simpl; [split; [by eexists|by constructor]|].
  rewrite Forall_cons. unfold number, timestamp in *.
  destruct (core_match (m_id m)) as [n|] eqn:Hn; simpl; [|split; [by intros [[[? ?] ?] ?]|by intros [? ?]]].
  destruct (timestamp_match (m_id m)) as [t|]; simpl; [|split; [by intros [[? [? ?]] ?]|by intros [? ?]]].
  destruct (u !! n) as [[t0 m0]|]; rewrite <- IH; naive_solver.
Qed.

(** When the ids of the members have a number and a start time, the
    cleaned list has each number once, with its latest incarnation; otherwise
    it is left as it is. *)
Theorem sanitize_latest ms :
  if decide (Forall (λ m, is_Some (number m) ∧ is_Some (timestamp m)) ms)
  then (∀ m, m ∈ sanitize_member_list ms → m ∈ ms) ∧ NoDup (number <$> sanitize_member_list ms) ∧
    ∀ m, m ∈ ms → ∃ m', m' ∈ sanitize_member_list ms ∧ supersedes m' m
  else sanitize_member_list ms = ms.
Proof.
  pose proof (sanitize_loop_total ms ∅ false) as Htot. unfold sanitize_member_list. case_decide as Hall.
  - apply Htot in Hall as [[u update] Hs]. rewrite Hs.
    assert (sane ms u update) as [He Hl Hu].
    { apply (sanitize_loop_spec ms [] ∅ false); [|done]. split; [set_solver|set_solver|]. intros _. constructor. }
    destruct update; [|split_and!; [done|by apply Hu|]; intros m Hm; exists m; split; [done|apply supersedes_refl]].
    split_and!.
    + intros m ([n [t m']]&->&Hin%elem_of_iteritems)%list_elem_of_fmap. by apply He in Hin as (?&_&_).
    + rewrite <- list_fmap_compose. assert ((number ∘ (λ p, p.2.2)) <$> iteritems u = Some <$> (iteritems u).*1) as ->.
      { rewrite <- list_fmap_compose. apply list_fmap_ext. intros i [n [t m]] Hi. simpl.
        apply list_elem_of_lookup_2, elem_of_iteritems, He in Hi. naive_solver. }
      apply NoDup_fmap; [apply _|apply NoDup_iteritems_keys].
    + intros m (n&t&m'&Hlk&Hsup)%Hl. exists m'. split; [|done]. apply list_elem_of_fmap. exists (n, (t, m')).
      by rewrite elem_of_iteritems.
  - destruct (sanitize_loop ∅ false ms) as [[u up]|]; [|done]. destruct Hall, Htot as [_ Htot]. by apply Htot.
Qed.
End members.

(** ** What is written *)
Section writes.
Context {HO : DictOrder} {HP : Promise (result dval)} {HC : Cluster}.

(** The writes of which Consul has acknowledged the receipt *)
Inductive write := WPut (key : string) (value : option string) | WDelete (key : string).

Definition written {X} (w : ev X) : X → list write :=
  match w in ev X return X → list write with
  | Consul r => λ x,
      match x with
      | Ok _ => match r with Put key v _ => [WPut key v] | Coordination.Delete key => [WDelete key] | _ => [] end
      | Err _ => []
      end
  | _ => λ _, []
  end.

(** While it waits, the leader [l] itself is not changed; a [steady] Consul
    answers every request. *)
Definition answers {X} (w : ev X) : X → Prop :=
  match w in ev X return X → Prop with
  | Consul r => λ x, match x with Ok _ => True | Err _ => False end
  | _ => λ _, True
  end.

Definition undisturbed (l : nat) (steady : bool) (X : Type) (w : ev X) (x : X) (s s' : coordinator) : Prop :=
  leaders s' !! l = leaders s !! l ∧ (steady = true → answers w x).

(** What holds at the end of every run of a generator, of the acknowledged
    writes too *)
Section wlog.
Context (l : nat) (steady : bool).

Fixpoint wlog {A} (Q : list write → result A → coordinator → Prop) (m : gen_run ev coordinator A) : Prop :=
  match m with
  | Done r s => Q [] r s
  | Wait w s k => ∀ x s', undisturbed l steady _ w x s s' → wlog (λ u, Q (written w x ++ u)) (k x s')
  end.

Lemma wlog_mono {A} m : ∀ Q Q' : list write → result A → coordinator → Prop,
  (∀ u r s, Q u r s → Q' u r s) → wlog Q m → wlog Q' m.
Proof. induction m as [r s|X w s k IH]; simpl; intros Q Q' HQ Hm; [auto|]. intros x s' Hx. eapply IH; [|by apply Hm]. auto. Qed.

Lemma wlog_bind {A B} (f : A → gen ev coordinator B) m : ∀ Q Q',
  wlog Q' m → (∀ u a s, Q' u (Ok a) s → wlog (λ v, Q (u ++ v)) (f a s)) → (∀ u e s, Q' u (Err e) s → Q u (Err e) s) →
  wlog Q (run_bind m f).
Proof.
  induction m as [[a|e] s|X w s k IH]; simpl; intros Q Q' Hm Ha He; [by apply (Ha [])|by apply He|].
  intros x s' Hx. eapply IH; [by apply Hm|..]; simpl.
  - intros u a s1 Hu. eapply wlog_mono; [|by apply Ha]. simpl. intros v r s2. by rewrite app_assoc.
  - auto.
Qed.

Lemma wlog_try {A} (h : exn → gen ev coordinator A) m : ∀ Q Q',
  wlog Q' m → (∀ u e s, Q' u (Err e) s → wlog (λ v, Q (u ++ v)) (h e s)) → (∀ u a s, Q' u (Ok a) s → Q u (Ok a) s) →
  wlog Q (run_try m h).
Proof.
  induction m as [[a|e] s|X w s k IH]; simpl; intros Q Q' Hm He Ha; [by apply Ha|by apply (He [])|].
  intros x s' Hx. eapply IH; [by apply Hm|..]; simpl.
  - intros u a s1 Hu. eapply wlog_mono; [|by apply He]. simpl. intros v r s2. by rewrite app_assoc.
  - auto.
Qed.
End wlog.

Definition holds (l : nat) (b : assignment) (ms : list member) (s : coordinator) : Prop :=
  ∃ x, leaders s !! l = Some x ∧ core_store_assignment x = Some b ∧ members x = Some ms.

Lemma core_data_id_found b ms m k : b !! k = Some (Some m) → m ∈ ms → NoDup (m_id <$> ms) →
  (∀ k' m', b !! k' = Some (Some m') → m' ∈ ms) →
  ∃ k', core_data_id_from_instance b (m_id m) = Some k' ∧ b !! k' = Some (Some m).
Proof.
  intros Hk Hm Hnd Hall. unfold core_data_id_from_instance.
  destruct (filter _ (iteritems b)) as [|[k' v] rest] eqn:Hf.
  - assert ((k, Some m) ∈ filter (λ p, (m_id <$> p.2) = Some (m_id m)) (iteritems b)) as Hin.
    { apply list_elem_of_filter. split; [done|]. by apply elem_of_iteritems. }
    rewrite Hf in Hin. set_solver.
  - exists k'. split; [done|]. assert ((k', v) ∈ filter (λ p, (m_id <$> p.2) = Some (m_id m)) (iteritems b)) as Hin
      by (rewrite Hf; set_solver).
    apply list_elem_of_filter in Hin as [Hv Hin%elem_of_iteritems]. simpl in Hv. destruct v as [m'|]; [|done].
    rewrite Hin. do 2 f_equal. apply (NoDup_fmap_eq m_id ms); [done|by eapply Hall|done|]. by injection Hv.
Qed.

Section rest.
Context (l : nat) (steady : bool) (b : assignment) (ms : list member) (Hnd : NoDup (m_id <$> ms)).
Context (Hgiven : ∀ m, m ∈ ms ↔ ∃ k, b !! k = Some (Some m)).

(** A program that, on every run, has written [u] when it returns, and that
    raises only if a request had to be repeated too often. *)
Definition ends_with {A} (u : list write) (v : list write) (r : result A) (s : coordinator) : Prop :=
  holds l b ms s ∧
  match r with
  | Ok _ => v = u
  | Err e => e = OutOfFuel ∧ (steady = false ∨ loops = 0%nat)
  end.

Definition logs {A} (u : list write) (m : gen ev coordinator A) : Prop :=
  ∀ s, holds l b ms s → wlog l steady (ends_with u) (m s).

Lemma logs_bind {A B} u v (m : gen ev coordinator A) (k : A → gen ev coordinator B) :
  logs u m → (∀ a, logs v (k a)) → logs (u ++ v) (m ≫= k).
Proof.
  intros Hm Hk s Hs. eapply wlog_bind; [by apply Hm|..].
  - intros u' a s' [Hs' ->]. eapply wlog_mono; [|by apply Hk]. intros v' r s2 [Hs2 Hr]. split; [done|].
    destruct r; [by rewrite Hr|done].
  - done.
Qed.

Lemma logs_ret {A} (a : A) : logs [] (mret a).
Proof. intros s Hs. by split. Qed.

Lemma holds_undisturbed X (w : ev X) x s s' : holds l b ms s → undisturbed l steady X w x s s' → holds l b ms s'.
Proof. intros (y&Hy&?) [Hl _]. exists y. by rewrite Hl. Qed.

(** The loop of retries, with [n] rounds left *)
Lemma retry_loop_logs {X} (r : request X) u n : (∀ i, with_session i r = r) →
  (∀ x : X, written (Consul r) (Ok x) = u) → (steady = true → n = loops) →
  ∀ s, holds l b ms s → wlog l steady (ends_with u) (retry_loop n (i ← get_ session_id; ask (with_session i r)) s).
Proof.
  intros Hsess Hu. induction n as [|n IH]; intros Hn s Hs.
  { split; [done|]. split; [done|]. destruct steady; [right; by rewrite <- Hn|by left]. }
  cbn [retry_loop]. unfold mbind, gen_bind, try_, ask, of_result, get_, lift_, yield, backoff. simpl.
  rewrite Hsess. intros x s1 Hx. pose proof (holds_undisturbed _ _ _ _ _ Hs Hx) as Hs1.
  assert (∀ k, holds l b ms (s1 <| retries := k |>)) as Hk by (intros k; destruct Hs1 as (y&?); by exists y).
  destruct x as [x|e]; simpl.
  - split; [apply Hk|]. rewrite app_nil_r. exact (Hu x).
  - case_decide as He; simpl.
    + split; [done|]. split; [done|]. left. destruct steady; [|done]. destruct Hx as [_ Hx]. by destruct (Hx eq_refl).
    + intros [] s2 Hx2. simpl. pose proof (holds_undisturbed _ _ _ _ _ (Hk _) Hx2) as Hs2.
      eapply wlog_mono; [|apply IH; [|done]].
      * intros v [y|e'] s3 Hv; done.
      * intros Hst. destruct Hx as [_ Hx]. by destruct (Hx Hst).
Qed.

Lemma retry_logs {X} (r : request X) u : (∀ i, with_session i r = r) → (∀ x : X, written (Consul r) (Ok x) = u) →
  logs u (retry r).
Proof. intros H1 H2 s Hs. by apply retry_loop_logs. Qed.

(** The leader as it is read back *)
Lemma logs_with_leader {A} u (k : leader → gen ev coordinator A) :
  (∀ x, core_store_assignment x = Some b → members x = Some ms → logs u (k x)) → logs u (x ← lift_ (get_leader l); k x).
Proof.
  intros Hk s Hs. pose proof Hs as (x&Hx&Hb&Hms). unfold mbind, gen_bind, lift_, get_leader, mbind, M_bind, gets. rewrite Hx.
  simpl. by apply Hk.
Qed.

Lemma logs_some {A B} u e (a : A) (k : A → gen ev coordinator B) : logs u (k a) → logs u (some_or e (Some a) ≫= k).
Proof. done. Qed.

Definition store_key (id : string) : string := assignment_prefix +:+ id +:+ "/" +:+ core_storage_suffix.

Lemma put_logs i : logs [WPut (store_key i) (core_data_id_from_instance b i)] (put_assignment l i).
Proof.
  apply logs_with_leader. intros x Hb _. rewrite Hb.
  apply logs_some. apply (logs_bind [_] [] (kv_put _ _)); [by apply retry_logs|intros _; apply logs_ret].
Qed.

Lemma remove_logs i : logs [WDelete (assignment_prefix +:+ i); WDelete (membership_prefix +:+ i)] (remove_member i).
Proof.
  apply (logs_bind [_] [_] (kv_delete _)); [by apply retry_logs|intros _].
  apply (logs_bind [_] [] (kv_delete _)); [by apply retry_logs|intros _; apply logs_ret].
Qed.

Lemma forT_logs {B} (f : B → gen ev coordinator unit) (u : B → list write) js :
  (∀ i, logs (u i) (f i)) → logs (js ≫= u) (forT f js).
Proof.
  intros Hf. induction js as [|i js IH]; simpl; [apply logs_ret|]. apply logs_bind; [done|]. by intros _.
Qed.
End rest.

(** C26 Undisturbed by a change of the leader's state, whichever requests fail
    and are repeated on the way, the leader ends by having written, in this
    order and nothing else: the mapping it has computed; for every member that
    had no store, to the member's key, the id of a store that the mapping gives
    it; and the deletion of the two keys of every instance that had a store and
    is gone.  It gives up only when requests fail more often than the bound on
    retries, which a Consul that answers never makes it do. *)
Theorem assignments_agree l x a ms b c s (steady : bool) (Hleader : leaders s !! l = Some x)
    (Ha : core_store_assignment x = Some a) (Hms : members x = Some ms) (Hnd : NoDup (m_id <$> ms))
    (Hplan : plan_stores (Some a) (Some ms) = Ok (b, c)) (Hgiven : ∀ m, m ∈ ms ↔ ∃ k, b !! k = Some (Some m)) :
  wlog l steady (λ u r _,
    (r = Err OutOfFuel ∧ (steady = false ∨ loops = 0%nat)) ∨
    r = Ok tt ∧ ∃ puts dels,
      u = WPut core_store_assignment_key (Some (dumps_mapping b)) :: puts ++ dels ∧
      (∀ w, w ∈ puts ↔ ∃ m k, m ∈ ms ∧ (¬ ∃ k0, a !! k0 = Some (Some m)) ∧ b !! k = Some (Some m) ∧
         core_data_id_from_instance b (m_id m) = Some k ∧ w = WPut (store_key (m_id m)) (Some k)) ∧
      (∀ w, w ∈ dels ↔ ∃ k m, a !! k = Some (Some m) ∧ m ∉ ms ∧
         (w = WDelete (assignment_prefix +:+ m_id m) ∨ w = WDelete (membership_prefix +:+ m_id m))))
    (reassign_core_stores l s).
Proof.
  assert (c = clear_mapping a ms) as Hc.
  { unfold plan_stores in Hplan. simpl in Hplan. destruct (give_stores _ _ _ _ _); [|done]. by injection Hplan as _ <-. }
  destruct (clear_mapping_clears a ms) as [_ Hex _ Hin]. rewrite <- Hc in Hex, Hin. clear Hc.
  setoid_rewrite elem_of_iteritems in Hex. setoid_rewrite elem_of_iteritems in Hin.
  set (new := set_items (list_to_set (m_id <$> ms) ∖ existing_active_config_members c)).
  set (gone := set_items (inactive_members c)).
  set (u := WPut core_store_assignment_key (Some (dumps_mapping b)) ::
    (new ≫= λ i, [WPut (store_key i) (core_data_id_from_instance b i)]) ++
    (gone ≫= λ i, [WDelete (assignment_prefix +:+ i); WDelete (membership_prefix +:+ i)])).
  assert (∀ s1, holds l b ms s1 → wlog l steady (ends_with l steady b ms u)
    ((_ ← kv_put core_store_assignment_key (Some (dumps_mapping b));
      x ← lift_ (get_leader l);
      ms ← some_or TypeError (members x);
      let new_members := list_to_set (m_id <$> ms) ∖ existing_active_config_members c in
      _ ← forT (put_assignment l) (set_items new_members);
      forT remove_member (set_items (inactive_members c))) s1)) as Hlog.
  { apply (logs_bind l steady b ms [_] _ (kv_put _ _)); [by apply retry_logs|intros _].
    apply logs_with_leader. intros y _ Hy. rewrite Hy.
    apply logs_some. apply logs_bind; [apply forT_logs, put_logs|intros _]. apply forT_logs, remove_logs. }
  eapply (wlog_try _ _ _ _ _ (ends_with l steady b ms u)).
  - unfold mbind, gen_bind, lift_, of_result, get_leader, mbind, M_bind, gets. rewrite Hleader. simpl.
    rewrite Ha, Hms. unfold lift. rewrite Hplan. simpl. apply Hlog.
    exists (x <| core_store_assignment := Some b |>). simpl. by rewrite list_lookup_alter_eq, Hleader.
  - intros v e s1 [_ [-> Hst]]. rewrite decide_True by done. left. by split.
  - intros v [] s1 [_ ->]. right. split; [done|]. eexists _, _. split; [reflexivity|]. split; intros w.
    + rewrite list_elem_of_bind. split.
      * intros (i&->%list_elem_of_singleton&[(m&->&Hm)%elem_of_list_to_set%list_elem_of_fmap Hne]%elem_of_set_items%elem_of_difference).
        destruct (proj1 (Hgiven m) Hm) as [k Hk].
        destruct (core_data_id_found b ms m k) as (k'&Hcore&Hk'); [done..| |].
        { intros k1 m1 H1. apply Hgiven. by exists k1. }
        exists m, k'. rewrite Hcore. split_and!; try done. intros [k0 Hk0]. apply Hne, Hex. by exists k0, m.
      * intros (m&k&Hm&Hnone&Hk&Hcore&->). exists (m_id m). rewrite Hcore. split; [by apply list_elem_of_singleton|].
        apply elem_of_set_items, elem_of_difference. split; [by apply elem_of_list_to_set, list_elem_of_fmap_2|].
        intros (k0&m0&Hk0&Hm0&Heq)%Hex. apply Hnone. exists k0. by rewrite <- (NoDup_fmap_eq m_id ms m0 m).
    + rewrite list_elem_of_bind. split.
      * intros (i&Hw&(k&m&Hk&Hm&<-)%elem_of_set_items%Hin). exists k, m. set_solver.
      * intros (k&m&Hk&Hm&Hw). exists (m_id m). split; [set_solver|]. apply elem_of_set_items, Hin. by exists k, m.
Qed.
End writes.

(** ** Samples *)
Definition member1 : member := Member "voltha.1.a_100" "10.0.0.1".
Definition member2 : member := Member "voltha.2.b_100" "10.0.0.2".
Definition member3 : member := Member "voltha.3.c_200" "10.0.0.3".
Definition sample_mapping : assignment := {["0001" := Some member1; "0002" := Some member2]}.

(** [voltha.<number>.<name>_<time>] *)
Definition sample_number (s : string) : option string :=
  r ← (split_at "."%char s).2;
  Some (split_at "."%char r).1.

Definition sample_cluster : Cluster := {|
  loads_mapping v := match v with Some "sample" => Ok sample_mapping | Some "{}" => Ok ∅ | _ => Err ValueError end;
  dumps_mapping a := if decide (a = ∅) then "{}" else "sample";
  loads_host v := match v with Some h => Ok h | None => Err TypeError end;
  dumps_record h := h;
  core_match := sample_number;
  prefix_ := "service/voltha"; leader_key := "leader"; membership_key := "members"; assignment_key := "assignments";
  core_store_key := "data/core"; instance_id := "voltha.1.a_100"; external_host_address := "10.0.0.1";
  members_tracking_sleep := 1000; time_to_let_leader_update := 5000; assignments_track_sleep := 1000;
  session_renewal_loop_delay := 3000; membership_maintenance_loop_delay := 5000; loops := 10;
|}.

(** An instance that comes back under another address is taken for one that is
    gone: it keeps a store in the mapping, and is then removed as inactive. *)
Example moved_member_removed :
  ∃ b c, @plan_stores plain_order (Some sample_mapping) (Some [Member (m_id member1) "10.0.0.9"; member2]) = Ok (b, c) ∧
    b !! "0001" = Some (Some (Member (m_id member1) "10.0.0.9")) ∧ m_id member1 ∈ inactive_members c.
Proof. do 2 eexists. split; [vm_compute; reflexivity|]. split; [reflexivity|]. vm_compute. set_solver. Qed.

(** Without the mapping, which is not waited for, stores change hands. *)
Example late_mapping_swaps :
  ∃ b c, @plan_stores plain_order None (Some [member2; member1]) = Ok (b, c) ∧
    b !! "0001" = Some (Some member2) ∧ b !! "0002" = Some (Some member1).
Proof. do 2 eexists. split; [vm_compute; reflexivity|]. split; reflexivity. Qed.

(** Without members there is an exception, after which the timer is set again. *)
Example no_members_raise : @plan_stores plain_order (Some sample_mapping) None = Err TypeError.
Proof. reflexivity. Qed.

(** Past [ffff] the order of the strings is not that of the numbers, and the
    new store is one that is in use. *)
Example past_ffff_overwrites :
  ∃ b c, @plan_stores plain_order (Some {["ffff" := Some member1; "10000" := Some member2]}) (Some [member1; member2; member3]) = Ok (b, c) ∧
    b !! "10000" = Some (Some member3) ∧ size b = 2%nat.
Proof. do 2 eexists. split; [vm_compute; reflexivity|]. split; reflexivity. Qed.

Lemma sample_ids : ids_upto 2 sample_mapping ∧ exclusive sample_mapping.
Proof.
  assert (∀ k v, sample_mapping !! k = Some v → k = "0001" ∧ v = Some member1 ∨ k = "0002" ∧ v = Some member2) as H.
  { unfold sample_mapping. intros k v [[<- <-]|[_ [<- <-]%lookup_singleton_Some]]%lookup_insert_Some; [by left|by right]. }
  split.
  - intros k [v [[-> _]|[-> _]]%H]; [by exists 1%N|by exists 2%N].
  - intros k k' x x' [[-> [= ->]]|[-> [= ->]]]%H [[-> [= ->]]|[-> [= ->]]]%H; done.
Qed.

Lemma reassign_correct_witness :
  let _ := plain_order in
  ∃ b c n', plan_stores (Some sample_mapping) (Some [member2; member3]) = Ok (b, c) ∧ ids_upto n' b ∧ (n' ≤ 2 + 2)%N ∧ exclusive b ∧
    (∀ m, m ∈ [member2; member3] ↔ ∃ k, b !! k = Some (Some m)) ∧
    (∀ k m, sample_mapping !! k = Some (Some m) → m ∈ [member2; member3] → b !! k = Some (Some m)) ∧
    dom sample_mapping ⊆ dom b ∧ ((∃ k, b !! k = Some None) → dom b = dom sample_mapping).
Proof.
  apply (@reassign_correct plain_order sample_mapping [member2; member3] 2); [apply sample_ids|apply sample_ids| |done].
  vm_compute. apply NoDup_cons. split; [set_solver|]. apply NoDup_singleton.
Defined.

Definition sample_leader : leader := Leader false (Some [member2; member1]) [] (Some sample_mapping) None None.
Definition sample_coordinator : @coordinator (plain_promise (result dval)) :=
  @Coordinator (plain_promise (result dval)) 0 (Some "s1") true (Some "voltha.1.a_100") false (Some 0%nat)
    (@Worker (plain_promise (result dval)) false (Some ∅) (Some ∅) None None None None None) [] MessageQueue.init
    [sample_leader] [] [] [] 0.

(** Member 1 is gone and member 3 is new: it gets store 1. *)
Definition moved_leader : leader := Leader false (Some [member2; member3]) [] (Some sample_mapping) None None.
Definition moved_coordinator : @coordinator (plain_promise (result dval)) :=
  @Coordinator (plain_promise (result dval)) 0 (Some "s1") true (Some "voltha.1.a_100") false (Some 0%nat)
    (@Worker (plain_promise (result dval)) false (Some ∅) (Some ∅) None None None None None) [] MessageQueue.init
    [moved_leader] [] [] [] 0.
Definition moved_mapping : assignment := {["0001" := Some member3; "0002" := Some member2]}.

Lemma moved_given m : m ∈ [member2; member3] ↔ ∃ k, moved_mapping !! k = Some (Some m).
Proof.
  split.
  - intros [->|[->|?%elem_of_nil]%elem_of_cons]%elem_of_cons; [by exists "0002"|by exists "0001"|done].
  - intros [k Hk]. unfold moved_mapping in Hk.
    apply lookup_insert_Some in Hk as [[_ [= <-]]|[_ [_ [= <-]]%lookup_singleton_Some]]; set_solver.
Qed.

Lemma assignments_agree_witness :
  @wlog (plain_promise _) 0 true _ (λ u r _, r = Ok tt ∧
      WPut (@store_key sample_cluster "voltha.3.c_200") (Some "0001") ∈ u ∧
      WDelete (@assignment_prefix sample_cluster +:+ "voltha.1.a_100") ∈ u)
    (@reassign_core_stores plain_order (plain_promise _) sample_cluster 0 moved_coordinator).
Proof.
  eapply wlog_mono; [|eapply (@assignments_agree plain_order (plain_promise _) sample_cluster 0 moved_leader sample_mapping
    [member2; member3] moved_mapping)].
  - intros u r s [(_&[?|?])|(->&puts&dels&->&Hputs&Hdels)]; [done..|]. split; [done|]. split.
    + apply list_elem_of_further, elem_of_app. left. apply Hputs. exists member3, "0001". split_and!; try done.
      * set_solver.
      * intros [k0 Hk]. unfold sample_mapping in Hk.
        apply lookup_insert_Some in Hk as [[_ [=]]|[_ [_ [=]]%lookup_singleton_Some]].
    + apply list_elem_of_further, elem_of_app. right. apply Hdels. exists "0001", member1. split_and!; [done| |by left].
      apply (bool_decide_unpack _). vm_compute. exact I.
  - reflexivity.
  - reflexivity.
  - reflexivity.
  - vm_compute. apply NoDup_cons. split; [set_solver|]. apply NoDup_singleton.
  - vm_compute. reflexivity.
  - exact moved_given.
Defined.
