(* ===== verification/CoordinationProofs.v ===== *)
(** * What coordination guarantees

    For every interleaving of the generators of Coordinator.v: at most one
    Leader object is active, and only while the coordinator believes to be the
    leader; the core store that a worker reports is the one it was given first.
    MemberLoops.v adds that an active leader has exactly one loop that follows
    the members. *)
From S2P Require Import Prelude Generators MessageQueue Coordination Leader Worker Coordinator LeaderProofs.
From Stdlib Require Import ZArith Lia.
From stdpp Require Import base gmap strings list.

(** [paced tac] goes through a generator; [tac] is for what it does between two
    waits, [paced_db] knows the generators it calls. *)
Create HintDb paced_db discriminated.
Ltac paced_step :=
  lazymatch goal with
  | |- paced _ (mret _) => apply paced_ret; apply _
  | |- paced _ (yield _) => apply paced_yield; apply _
  | |- paced _ (get_ _) => apply paced_lift, follows_pure; [apply _|reflexivity]
  | |- paced _ (raise_ _) => apply paced_lift, follows_pure; [apply _|reflexivity]
  | |- paced _ (of_result _) => apply paced_lift, follows_pure; [apply _|reflexivity]
  | |- paced _ (some_or _ ?o) => apply paced_lift, follows_pure; [apply _|by destruct o]
  | |- paced _ (mbind _ _) => apply paced_bind; [apply _| |intros ?]
  | |- paced _ (try_ _ _) => apply paced_try; [apply _| |intros ?]
  | |- paced _ (try_log _) => apply paced_try; [apply _| |intros ? ?; simpl; reflexivity]
  | |- paced _ (finally_ _ _) => apply paced_finally; [apply _| |]
  | |- paced _ (forT _ _) => apply paced_forT; [apply _|intros ?]
  | |- paced _ (if ?x then _ else _) => destruct x
  | |- paced _ (match ?x with _ => _ end) => destruct x
  | |- _ => solve [eauto 6 with paced_db]
  end.
Ltac paced := repeat paced_step.

(** ** What the generators do to the state *)
Section frames.
Context {HO : DictOrder} {HP : Promise (result dval)} {HC : Cluster}.

Lemma f_get_leader R {HR : PreOrder R} l : follows R (get_leader l).
Proof. apply follows_pure; [apply _|]. intros s. unfold get_leader, mbind, M_bind, gets. simpl. by destruct (leaders s !! l). Qed.

(** The calls that are neither a loop of the leader or the worker, nor fire
    the worker's Deferred. *)
Definition side_call (c : call) : bool :=
  match c with
  | TrackMembers _ _ | TrackMyAssignments _ | TrackMyPeers _ | ReassignCoreStores _ | UpdateAssignments
  | ProcessConfigAssignment => false
  | _ => true
  end.

(** A relation that the parts of the generators between two waits respect. *)
Class Frames (R : coordinator → coordinator → Prop) : Prop := {
  fr_pre :: PreOrder R;
  fr_retries s n : R s (s <| retries := n |>);
  fr_session s i : R s (s <| session_id := i |>);
  fr_down s : R s (s <| shutting_down := true |>);
  fr_call c : side_call c = true → follows R (call_later c);
  fr_new : follows R new_deferred;
  fr_fire d r : follows R (fire d r);
  fr_rcvd d r : follows R (fire_rcvd d r);
  fr_waiter d s : R s (s <| wait_for_leader_deferreds ::= λ l, l ++ [d] |>);
  fr_ids l v : follows R (set_leader l (λ x, x <| core_store_ids := v |>));
  fr_assignment l v : follows R (set_leader l (λ x, x <| core_store_assignment := v |>));
  fr_members l v : follows R (set_leader l (λ x, x <| members := v |>));
  fr_restart l : follows R (restart_core_store_reassignment_soak_timer l);
  fr_lost : follows R just_lost_leadership;
  fr_elect b e : follows R (elect b e);
  fr_nonleader i : follows R (assert_nonleadership i);
  fr_stop_leader : follows R stop_leader;
  fr_worker_start : follows R worker_start;
  fr_worker_stop : follows R worker_stop;
  fr_workload w : follows R (stash_and_restart_soak_timer w);
  fr_update : follows R update_assignments;
  fr_take r : follows R (take_assignment r);
  fr_peers i j m : follows R (update_peers i j m);
  fr_recv : follows R recv_peers_map;
  fr_assignments_again i : follows R (assignments_again i);
  fr_peers_again i : follows R (peers_again i);
}.

Section paced.
Context (R : coordinator → coordinator → Prop) {HF : Frames R}.
Local Abbreviation pc := (paced (Ev := ev) R).

#[local] Hint Resolve paced_lift fr_pre fr_call fr_new fr_fire fr_rcvd fr_ids fr_assignment fr_members fr_restart fr_lost fr_elect
  fr_nonleader fr_stop_leader fr_worker_start fr_worker_stop fr_workload fr_update fr_take fr_peers fr_recv
  fr_assignments_again fr_peers_again : paced_db.

Lemma p_clear_backoff : pc (lift_ clear_backoff).
Proof. apply paced_lift, follows_modify. intros s. apply fr_retries. Qed.

Lemma p_backoff : pc backoff.
Proof. unfold backoff. paced. apply paced_lift, follows_modify. intros s. apply fr_retries. Qed.
#[local] Hint Resolve p_clear_backoff p_backoff : paced_db.

Lemma p_retry_loop {X} n (m : gen ev coordinator X) : pc m → pc (retry_loop n m).
Proof. intros Hm. induction n as [|n IH]; cbn [retry_loop]; paced; done. Qed.

Lemma p_ask {X} (r : request X) : pc (ask r).
Proof. unfold ask. paced. Qed.
#[local] Hint Resolve p_ask : paced_db.

Lemma p_retry {X} (r : request X) : pc (retry r).
Proof. apply p_retry_loop. paced. Qed.
#[local] Hint Resolve p_retry : paced_db.

Lemma p_kv_get_all key index : pc (kv_get_all key index). Proof. apply p_retry. Qed.
Lemma p_kv_get_keys key : pc (kv_get_keys key). Proof. apply p_retry. Qed.
Lemma p_kv_put key v : pc (kv_put key v). Proof. apply p_retry. Qed.
Lemma p_kv_delete key : pc (kv_delete key). Proof. apply p_retry. Qed.
#[local] Hint Resolve p_kv_get_all p_kv_get_keys p_kv_put p_kv_delete : paced_db.

(** Reading the state *)
Lemma f_is_called d : follows R (is_called d).
Proof. by apply follows_pure; [apply _|]. Qed.

Lemma f_timeout : follows R new_deferred_with_timeout.
Proof. apply follows_bind; [apply _|apply fr_new|]. intros d. apply follows_bind; [apply _|by apply fr_call|]. intros n s. reflexivity. Qed.

Lemma f_wait_for_a_leader : follows R wait_for_a_leader.
Proof.
  apply follows_bind; [apply _|apply fr_new|]. intros d. apply follows_bind; [apply _|by apply follows_pure; [apply _|]|]. intros [i|].
  - apply follows_bind; [apply _|apply fr_fire|]. intros _ s. reflexivity.
  - apply follows_bind; [apply _|apply follows_modify; intros s; apply fr_waiter|]. intros _ s. reflexivity.
Qed.
#[local] Hint Resolve f_get_leader f_is_called f_timeout f_wait_for_a_leader : paced_db.

Lemma p_get_into d all key index : pc (get_into d all key index).
Proof. unfold get_into. paced. Qed.

Lemma p_get_with_timeout all key index : pc (consul_get_with_timeout all key index).
Proof. unfold consul_get_with_timeout. paced. Qed.
#[local] Hint Resolve p_get_into p_get_with_timeout : paced_db.

Lemma p_get_one key index : pc (get_with_timeout key index).
Proof. unfold get_with_timeout. paced. Qed.
Lemma p_get_all key index : pc (get_all_with_timeout key index).
Proof. unfold get_all_with_timeout. paced. Qed.
Lemma p_get_members : pc get_members.
Proof. unfold get_members. paced. Qed.
#[local] Hint Resolve p_get_one p_get_all p_get_members : paced_db.

Lemma p_or_sleep {A} ms (m : gen ev coordinator A) : pc m → pc (or_sleep ms m).
Proof. intros Hm. unfold or_sleep. paced. Qed.

(** *** The leader *)
Lemma p_mappings l : pc (get_core_store_mappings l).
Proof. unfold get_core_store_mappings, load_first. paced. Qed.
Lemma p_references l : pc (update_core_store_references l).
Proof. unfold update_core_store_references. paced. Qed.
Lemma p_temporal ms : pc (is_temporal_state ms).
Proof. unfold is_temporal_state. paced. Qed.
#[local] Hint Resolve p_mappings p_references p_temporal : paced_db.

Lemma p_wait_for_members l index : pc (wait_for_members l index).
Proof. unfold wait_for_members. paced. Qed.
Lemma p_update_members l i j results : pc (update_members l i j results).
Proof. unfold update_members. paced. Qed.
Lemma p_reassign l : pc (reassign_core_stores l).
Proof. unfold reassign_core_stores, put_assignment, remove_member. paced. Qed.
#[local] Hint Resolve p_or_sleep p_wait_for_members p_update_members p_reassign : paced_db.

(** [or_sleep] raises nothing. *)
Definition quietly {A} (r : result A) (s s' : coordinator) : Prop := R s s' ∧ ∀ e, r = Err e → e = OutOfFuel.

Lemma e_or_sleep {A} ms (m : gen ev coordinator A) : pc m → ends R quietly (or_sleep ms m).
Proof.
  intros Hm. apply (ends_try _ (λ _, R)); [|done|done|change (pc (a ← m; mret (Ok a))); paced|].
  { intros r s s' s'' H1 [H2 ?]. split; [by etrans|done]. }
  intros e. cbv beta. destruct (decide (e = OutOfFuel)) as [->|He].
  - intros s. split; [reflexivity|]. intros e' [= <-]. done.
  - intros s. split; [reflexivity|]. intros x s'. split; [reflexivity|done].
Qed.

(** The loop over the members ends with its [finally] clause. *)
Lemma e_track_members (E : result unit → coordinator → coordinator → Prop) l index :
  (∀ r s s' s'', R s s' → E r s' s'' → E r s s'') → (∀ s s', R s s' → E (Err OutOfFuel) s s' ) →
  (∀ r i s, r ≠ Err OutOfFuel → E r s (members_again l i s).2) → ends R E (track_members l index).
Proof.
  intros HE Ho Ha. apply (ends_mbind _ quietly); [done|by intros a s s' [? _]| |apply e_or_sleep; paced|].
  { intros e s s' [? He]. rewrite (He e) by done. by apply Ho. }
  assert (∀ m i, pc m → ends R E (finally_ m (members_again l i))) as Hf.
  { intros m i Hm. apply ends_finally; [done| |done]. intros r s s' Hs Hr. eapply HE; [exact Hs|]. apply Ha. intros Hr'%Hr.
    unfold members_again, get_leader, mbind, M_bind, gets in Hr'. destruct (leaders s' !! l) as [x|]; [|done].
    simpl in Hr'. by destruct (l_halted x). }
  intros [[[i results]|]|e]; apply Hf; paced.
Qed.

(** *** The worker *)
Lemma p_wait_for_assignment index : pc (wait_for_assignment index).
Proof. unfold wait_for_assignment. paced. Qed.
Lemma p_wait_for_peers index : pc (wait_for_peers index).
Proof. unfold wait_for_peers. paced. Qed.
#[local] Hint Resolve p_wait_for_assignment p_wait_for_peers : paced_db.
Lemma p_my_assignments index : pc (track_my_assignments index).
Proof. unfold track_my_assignments. paced. Qed.
Lemma p_my_peers index : pc (track_my_peers index).
Proof. unfold track_my_peers. paced. Qed.

(** *** The coordinator *)
Lemma p_set_session i : pc (set_ (λ s, s <| session_id := i |>)).
Proof. apply paced_lift, follows_modify. intros s. apply fr_session. Qed.
Lemma p_set_down : pc (set_ (λ s, s <| shutting_down := true |>)).
Proof. apply paced_lift, follows_modify. intros s. apply fr_down. Qed.
#[local] Hint Resolve p_set_session p_set_down p_retry_loop : paced_db.

Lemma p_create_session : pc create_session.
Proof. apply p_retry_loop. paced. Qed.
Lemma p_delete_session : pc delete_session.
Proof. unfold delete_session. paced. Qed.
#[local] Hint Resolve p_create_session p_delete_session : paced_db.
Lemma p_redo_session : pc redo_session.
Proof. unfold redo_session. paced. Qed.
Lemma p_renew d session : pc (renew_into d session).
Proof. unfold renew_into. paced. Qed.
#[local] Hint Resolve p_redo_session p_renew : paced_db.

Lemma p_session_loop n : pc (session_loop n).
Proof. induction n; cbn [session_loop]; paced. Qed.
Lemma p_create_membership n : pc (create_membership_loop n).
Proof. induction n; cbn [create_membership_loop]; paced. Qed.
#[local] Hint Resolve p_session_loop p_create_membership : paced_db.
Lemma p_do_create : pc do_create_membership_record_with_retries.
Proof. apply p_create_membership. Qed.
Lemma p_valid : pc assert_membership_record_valid.
Proof. unfold assert_membership_record_valid. paced. Qed.
#[local] Hint Resolve p_do_create p_valid : paced_db.
Lemma p_maintain_loop n : pc (maintain_loop n).
Proof. induction n; cbn [maintain_loop]; paced. Qed.
Lemma p_watch n index last : pc (watch_leader_key n index last).
Proof. revert index. induction n; intros index; cbn [watch_leader_key]; paced. Qed.
#[local] Hint Resolve p_maintain_loop p_watch : paced_db.

(** The [finally] clauses that schedule a loop again *)
Lemma f_unless_down c : side_call c = true →
  follows R (b ← gets shutting_down; if (b : bool) then mret tt else _ ← call_later c; mret tt).
Proof.
  intros Hc. apply follows_bind; [apply _|by apply follows_pure; [apply _|]|]. intros [].
  - intros s. reflexivity.
  - apply follows_bind; [apply _|by apply fr_call|]. intros n s. reflexivity.
Qed.

Lemma p_routine c : (∀ l i, c ≠ TrackMembers l i) → c ≠ ProcessConfigAssignment → pc (routine c).
Proof.
  intros Hc Hp. destruct c; cbn [routine]; [| | | | | | |by destruct (Hc l index)|..].
  - unfold async_init, create_membership_record. paced.
  - apply paced_finally; [apply _|paced|by apply f_unless_down].
  - apply paced_finally; [apply _|paced|]. apply follows_bind; [apply _|by apply fr_call|]. intros n s. reflexivity.
  - apply paced_finally; [apply _| |by apply f_unless_down]. paced.
  - apply paced_lift, fr_rcvd.
  - apply p_get_into.
  - apply p_renew.
  - apply p_reassign.
  - apply p_mappings.
  - apply p_my_assignments.
  - apply p_my_peers.
  - apply paced_lift, fr_update.
  - done.
Qed.

Lemma p_user u : pc (user_routine u).
Proof.
  destruct u; cbn [user_routine]; unfold stop, get_core_store_id_and_prefix, get_core_store_id; paced.
Qed.
End paced.
End frames.

(** ** Steps of the whole

    [E o] relates the states around the last part of a generator that [o]
    started. *)
Section world.
Context {HO : DictOrder} {HP : Promise (result dval)} {HC : Cluster}.
Context (R : coordinator → coordinator → Prop) {HR : PreOrder R}.
Context (E : origin → result unit → coordinator → coordinator → Prop).
Context (Hcall : ∀ c, ends R (E (OCall c)) (routine c)) (Huser : ∀ u, ends R (E (OUser u)) (user_routine u)).

Definition thread_ok (t : thread) : Prop :=
  match t with Thread o w k => ∀ x s, segs R (E o) s (k x s) end.

(** Who goes on in a step, in which state, and the threads that are left *)
Inductive resumes (w : world) : origin → coordinator → list thread → Prop :=
  | res_call i n c : calls (st w) !! i = Some (n, c) → resumes w (OCall c) (made i n (st w)) (threads w)
  | res_thread i t : threads w !! i = Some t → resumes w (origin_of t) (st w) (delete i (threads w))
  | res_user u : resumes w (OUser u) (st w) (threads w).

(** It waits again, or it ends. *)
Inductive settles (o : origin) (s0 : coordinator) (ts : list thread) (sp : list origin) : world → Prop :=
  | set_waits s t : R s0 s → origin_of t = o → settles o s0 ts sp (World s (ts ++ [t]) sp)
  | set_ends s r : r ≠ Err OutOfFuel → E o r s0 s → settles o s0 ts sp (World s ts sp)
  | set_spins s : E o (Err OutOfFuel) s0 s → settles o s0 ts sp (World s ts (o :: sp)).

Lemma settle_settles o s0 m ts sp : segs R (E o) s0 m → Forall thread_ok ts →
  settles o s0 ts sp (settle o m ts sp) ∧ Forall thread_ok (threads (settle o m ts sp)).
Proof.
  intros Hm Hts. destruct m as [r s|X w s k]; simpl in *.
  - assert (r = Err OutOfFuel ∨ r ≠ Err OutOfFuel ∧ settle o (Done r s) ts sp = World s ts sp) as [->|[Hr Hs]].
    { destruct r as [[]|[]]; by auto. }
    + split; [by constructor|done].
    + simpl in Hs. rewrite Hs. split; [by eapply set_ends|done].
  - destruct Hm as [HR1 Hk]. split; [by constructor|]. apply Forall_app. split; [done|]. by apply Forall_singleton.
Qed.

Lemma step_settles w w' : Forall thread_ok (threads w) → step w w' →
  ∃ o s0 ts, resumes w o s0 ts ∧ settles o s0 ts (spinning w) w' ∧ Forall thread_ok (threads w').
Proof.
  intros Hts Hstep. destruct Hstep as [s ts sp i n c Hi|s ts sp i o X w k x Hi Hx|s ts sp u]; simpl in Hts.
  - eexists _, _, _. split; [by apply (res_call (World s ts sp) i n c)|]. by apply settle_settles; [apply Hcall|].
  - eexists _, _, _. split; [by eapply (res_thread (World s ts sp) i)|]. simpl.
    apply settle_settles; [|by apply Forall_delete]. rewrite Forall_forall in Hts.
    apply (Hts _ (list_elem_of_lookup_2 _ _ _ Hi)).
  - eexists _, _, _. split; [by apply (res_user (World s ts sp) u)|]. by apply settle_settles; [apply Huser|].
Qed.

Lemma reachable_threads w : reachable w → Forall thread_ok (threads w).
Proof. induction 1 as [|w w' _ IH Hstep]; [constructor|]. by destruct (step_settles w w') as (?&?&?&?&?&?). Qed.
End world.

(** The call that fires the worker's Deferred does not wait. *)
Lemma no_process_thread `{DictOrder} `{Promise (result dval)} `{Cluster} w :
  reachable w → Forall (λ t, origin_of t ≠ OCall ProcessConfigAssignment) (threads w).
Proof.
  assert (∀ o m ts sp, (∀ X (e : ev X) s k, m = Wait e s k → o ≠ OCall ProcessConfigAssignment) →
    Forall (λ t, origin_of t ≠ OCall ProcessConfigAssignment) ts →
    Forall (λ t, origin_of t ≠ OCall ProcessConfigAssignment) (threads (settle o m ts sp))) as Hset.
  { intros o m ts sp Hm Hts. destruct m as [[[]|[]]|X e s k]; simpl; try done. apply Forall_app. split; [done|].
    apply Forall_singleton. by eapply Hm. }
  induction 1 as [|w w' Hw IH Hs]; [constructor|]. destruct Hs as [s ts sp i n c Hi|s ts sp i o X e k x Hi Hx|s ts sp u]; simpl in IH.
  - apply Hset; [|done]. intros X e s1 k Hm [= ->]. simpl in Hm. unfold lift_ in Hm.
    by destruct (process_config_assignment (made i n s)).
  - apply Hset; [|by apply Forall_delete]. intros Y e' s1 k' _. rewrite Forall_forall in IH.
    apply (IH (Thread o e k)). by eapply list_elem_of_lookup_2.
  - by apply Hset.
Qed.

(** A relation that every part of a generator and the reactor respect holds
    between a state and the later ones. *)
Section monotone.
Context {HO : DictOrder} {HP : Promise (result dval)} {HC : Cluster}.
Context (R : coordinator → coordinator → Prop) {HF : Frames R}.
Context (Hagain : ∀ l i, follows R (members_again l i)) (Hmade : ∀ i n s, R s (made i n s)).
Context (Hprocess : ∀ i n s, calls s !! i = Some (n, ProcessConfigAssignment) → R s (process_config_assignment (made i n s)).2).

Definition last_part (o : origin) : result unit → coordinator → coordinator → Prop :=
  if decide (o = OCall ProcessConfigAssignment) then λ _ s s', s' = (process_config_assignment s).2 else λ _, R.

Lemma routine_ends c : ends R (last_part (OCall c)) (routine c).
Proof.
  unfold last_part. destruct (decide (c = ProcessConfigAssignment)) as [->|Hc].
  { rewrite decide_True by done. intros s. cbn [routine]. unfold lift_. destruct (process_config_assignment s) eqn:Hp; simpl; by rewrite Hp. }
  rewrite decide_False by congruence. destruct c as [| | | | | | |l i| | | | | |]; try by apply p_routine.
  apply (e_track_members R (λ _, R)); [|done|].
  - intros _ s s' s''. apply transitivity.
  - intros _ j s _. apply Hagain.
Qed.

Lemma user_ends u : ends R (last_part (OUser u)) (user_routine u).
Proof. unfold last_part. rewrite decide_False by done. by apply p_user. Qed.

Lemma step_follows w w' : reachable w → step w w' → R (st w) (st w').
Proof.
  intros Hw Hs. destruct (step_settles R last_part routine_ends user_ends w w') as (o&s0&ts&Hres&Hset&_); [|done|].
  { by apply (reachable_threads R); [apply routine_ends|apply user_ends|]. }
  assert (R (st w) s0) as H0 by (destruct Hres; [apply Hmade|reflexivity..]).
  assert (∀ r s', last_part o r s0 s' → R (st w) s') as Hlast.
  { intros r s' HE. unfold last_part in HE. case_decide as Ho; [|by etrans]. rewrite HE. clear Hset HE. destruct Hres as [i n c Hi|i t Ht|u].
    - injection Ho as ->. by apply Hprocess.
    - exfalso. pose proof (no_process_thread w Hw) as Hno. rewrite Forall_forall in Hno.
      apply (Hno t); [by eapply list_elem_of_lookup_2|done].
    - done. }
  destruct Hset; simpl; [by etrans|by eapply Hlast..].
Qed.

Lemma reachable_follows w w' : reachable w → rtc step w w' → reachable w' ∧ R (st w) (st w').
Proof.
  intros Hw Hr. induction Hr as [w|w w1 w' Hs Hr IH]; [split; [done|reflexivity]|].
  destruct IH as [H1 H2]; [by eapply r_step|]. split; [done|]. etrans; [by apply step_follows|done].
Qed.

Lemma reachable_started w : reachable w → R (start init).2 (st w).
Proof.
  induction 1 as [|w w' Hw IH Hs]; [reflexivity|]. etrans; [exact IH|]. by apply step_follows.
Qed.
End monotone.

(** ** One active leader *)
Section active.
Context {HO : DictOrder} {HP : Promise (result dval)} {HC : Cluster}.

(** A Leader that is not halted is the coordinator's, which then believes to
    be the leader. *)
Definition active_is_current (s : coordinator) : Prop :=
  ∀ l x, leaders s !! l = Some x → l_halted x = false → leader_ s = Some l ∧ i_am_leader s = true.

Definition keeps_active (s s' : coordinator) : Prop := active_is_current s → active_is_current s'.
#[local] Instance keeps_active_pre : PreOrder keeps_active.
Proof. split; [by intros s Hs|]. intros x y z Hxy Hyz Hx. apply Hyz, Hxy, Hx. Qed.

(** What most of the code leaves alone *)
Definition same_role (s s' : coordinator) : Prop :=
  (l_halted <$> leaders s') = (l_halted <$> leaders s) ∧ leader_ s' = leader_ s ∧ i_am_leader s' = i_am_leader s.
#[local] Instance same_role_pre : PreOrder same_role.
Proof. split; [done|]. intros x y z (?&?&?) (?&?&?). split_and!; congruence. Qed.

Lemma same_role_active s s' : same_role s s' → keeps_active s s'.
Proof.
  intros (Hh&Hl&Hi) Hs l x Hx Hn. rewrite Hl, Hi.
  assert ((l_halted <$> leaders s) !! l = Some false) as Hs2 by (rewrite <- Hh, list_lookup_fmap, Hx; simpl; by rewrite Hn).
  rewrite list_lookup_fmap in Hs2. apply fmap_Some in Hs2 as (y&Hy&Hy'). by eapply Hs.
Qed.

Lemma same_role_set l f : (∀ x, l_halted (f x) = l_halted x) → follows same_role (set_leader l f).
Proof.
  intros Hf. apply follows_modify. intros s. split_and!; try done. apply list_eq. intros i. simpl.
  rewrite !list_lookup_fmap, list_lookup_alter. case_decide; subst; [|done]. destruct (leaders s !! i); simpl; by rewrite ?Hf.
Qed.

Ltac role :=
  repeat first
    [ lazymatch goal with |- follows _ (set_leader _ _) => apply same_role_set; done end
    | lazymatch goal with |- follows _ (get_leader _) => apply f_get_leader; apply _ end
    | lazymatch goal with |- follows _ (zoom _ _ ?m) =>
        intros ?; unfold zoom; destruct (m _); simpl; split_and!; reflexivity end
    | follows_gen ltac:(split_and!; reflexivity)
    | progress unfold call_later, cancel_timer, cancel_call, fire_rcvd, fire, new_deferred, set_worker,
        publish_peers_map_change, recv_peers_map ].

Local Abbreviation role_of m := (follows same_role m).

Lemma role_cancel t : role_of (cancel_timer t).
Proof. role. Qed.

Lemma role_restart l : role_of (restart_core_store_reassignment_soak_timer l).
Proof. unfold restart_core_store_reassignment_soak_timer. role. Qed.

Lemma role_set_leader_id i : role_of (set_leader_id i).
Proof. unfold set_leader_id. role. Qed.

Lemma role_active {A} (m : M coordinator A) : role_of m → follows keeps_active m.
Proof. intros Hm s. apply same_role_active, Hm. Qed.

(** Halting the current leader: then there is no active one. *)
Definition all_halted (s : coordinator) : Prop := ∀ l x, leaders s !! l = Some x → l_halted x = true.

Lemma halted_same_role s s' : same_role s s' → all_halted s → all_halted s'.
Proof.
  intros (Hh&_&_) Hs l x Hx. assert ((l_halted <$> leaders s) !! l = Some (l_halted x)) as H1.
  { by rewrite <- Hh, list_lookup_fmap, Hx. }
  rewrite list_lookup_fmap in H1. apply fmap_Some in H1 as (y&Hy&->). by eapply Hs.
Qed.

Lemma leader_stop_halts l s : (∀ l' x, leaders s !! l' = Some x → l_halted x = false → l' = l) → all_halted (leader_stop l s).2.
Proof.
  intros Hs. unfold leader_stop, mbind at 1, M_bind at 1, set_leader, modify.
  set (s1 := s <| leaders ::= alter (λ x, x <| l_halted := true |>) l |>).
  assert (all_halted s1) as H1.
  { intros l' x. simpl. rewrite list_lookup_alter. case_decide as Hl.
    - subst. intros (y&Hy&->)%fmap_Some. done.
    - intros Hx. destruct (l_halted x) eqn:Hh; [done|]. destruct Hl. symmetry. by eapply Hs. }
  eapply halted_same_role; [|exact H1].
  assert (role_of (x ← get_leader l; _ ← cancel_timer (reassignment_soak_timer x);
    cancel_timer (core_store_reassignment_soak_timer x))) as Hr; [|apply Hr].
  role.
Qed.

Lemma all_halted_active s : all_halted s → active_is_current s.
Proof. intros Hs l x Hx. rewrite (Hs l x Hx). done. Qed.

(** [self.leader.stop(); self.leader = None], or the exception of [stop] *)
Lemma stop_current_halts l s : (∀ l' x, leaders s !! l' = Some x → l_halted x = false → leader_ s = Some l') →
  leader_ s = Some l → all_halted ((_ ← leader_stop l; modify (λ s, s <| leader_ := None |>)) s).2.
Proof.
  intros Hs Hl. pose proof (leader_stop_halts l s) as Hh. unfold mbind, M_bind.
  assert (all_halted (leader_stop l s).2) as H1 by (apply Hh; intros l' x Hx Hn; specialize (Hs l' x Hx Hn); congruence).
  destruct (leader_stop l s) as [[[]|e] s1]; simpl in *; [|done]. exact H1.
Qed.

Lemma halt_leader_halts s : (∀ l x, leaders s !! l = Some x → l_halted x = false → leader_ s = Some l) →
  all_halted (halt_leader s).2.
Proof.
  intros Hs. unfold halt_leader, mbind at 1, M_bind at 1, gets. destruct (leader_ s) as [l|] eqn:Hl.
  - apply stop_current_halts; [by rewrite Hl|done].
  - intros l x Hx. destruct (l_halted x) eqn:Hn; [done|]. by specialize (Hs l x Hx Hn).
Qed.

Lemma active_lost : follows keeps_active just_lost_leadership.
Proof. intros s Hs. apply all_halted_active, halt_leader_halts. intros l x Hx Hn. by destruct (Hs l x Hx Hn). Qed.

Lemma active_nonleader i : follows keeps_active (assert_nonleadership i).
Proof.
  apply follows_bind; [apply _|apply role_active, role_set_leader_id|]. intros _ s Hs.
  unfold mbind at 1, M_bind at 1, gets. destruct (i_am_leader s); [|done].
  apply all_halted_active, halt_leader_halts. intros l x Hx Hn. by destruct (Hs l x Hx Hn).
Qed.

Lemma active_leadership : follows keeps_active assert_leadership.
Proof.
  intros s Hs. unfold assert_leadership, mbind at 1, M_bind at 1, gets. destruct (i_am_leader s) eqn:Hi; [done|].
  assert (all_halted (s <| i_am_leader := true |>)) as H1.
  { intros l x Hx. destruct (l_halted x) eqn:Hn; [done|]. destruct (Hs l x Hx Hn). congruence. }
  unfold mbind at 1, M_bind at 1, modify. set (s1 := s <| i_am_leader := true |>) in *.
  pose proof (role_set_leader_id (Some instance_id) s1) as Hr. unfold mbind, M_bind.
  destruct (set_leader_id (Some instance_id) s1) as [[[]|e] s2]; simpl in Hr.
  - pose proof (halted_same_role _ _ Hr H1) as H2. destruct Hr as (_&_&Hi2). intros l x. simpl.
    intros Hx Hn. apply lookup_app_Some in Hx as [Hx|[Hlen Hx]]; [by rewrite (H2 l x Hx) in Hn|].
    apply list_lookup_singleton_Some in Hx as [Hx _]. split; [f_equal; lia|done].
  - apply all_halted_active. by eapply halted_same_role.
Qed.

Lemma active_elect b e : follows keeps_active (elect b e).
Proof.
  destruct e as [e|]; [|by intros s]. destruct b; [|apply active_nonleader]. unfold elect.
  apply follows_bind; [apply _|by apply follows_pure; [apply _|]; destruct (Session e)|]. intros x.
  apply follows_bind; [apply _|by apply follows_pure; [apply _|]|]. intros i. case_decide; [apply active_leadership|by intros s].
Qed.

Lemma active_stop_leader : follows keeps_active stop_leader.
Proof.
  intros s Hs. unfold stop_leader, mbind at 1, M_bind at 1, gets. destruct (leader_ s) as [l|] eqn:Hl; [|done].
  apply all_halted_active, stop_current_halts; [|done]. intros l' x Hx Hn. by destruct (Hs l' x Hx Hn).
Qed.

#[local] Instance active_frames : Frames keeps_active.
Proof.
  split; try apply _; try (intros; by apply same_role_active);
    auto using active_lost, active_elect, active_nonleader, active_stop_leader; intros; apply role_active.
  all: unfold worker_start, worker_stop, stash_and_restart_soak_timer, update_assignments, take_assignment,
    stash_and_restart_core_store_soak_timer, process_config_assignment, update_peers, assignments_again, peers_again.
  all: try apply role_restart; role.
Qed.

(** C13 In every interleaving, at most one Leader of an instance is active: one
    that is not halted is the coordinator's current one, and the coordinator
    believes to be the leader. *)
Theorem one_active_leader w (Hw : reachable w) l x (Hx : leaders (st w) !! l = Some x) (Hn : l_halted x = false) :
  leader_ (st w) = Some l ∧ i_am_leader (st w) = true.
Proof.
  assert (keeps_active (start init).2 (st w)) as Hk; [|by eapply Hk].
  apply reachable_started; [apply _| |intros; by apply same_role_active| |done].
  - intros l' i. apply role_active. unfold members_again. role.
  - intros i n s _. transitivity (made i n s); [by apply same_role_active|]. apply role_active.
    unfold process_config_assignment. role.
Qed.
End active.

(** ** The core store of a worker *)
Section core_store.
Context {HO : DictOrder} {HP : Promise (result dval)} {HL : PromiseLaws (result dval)} {HC : Cluster}.

Definition my_store (s : coordinator) : option string := mycore_store_id (worker_ s).
Definition store_deferred (s : coordinator) : dfr_state (result dval) := wait_for_core_store_assignment (worker_ s).

Definition store_ok (s : coordinator) : Prop :=
  (∀ n, (n, ProcessConfigAssignment) ∈ calls s → truthy (my_store s) = true) ∧
  (∀ r, result_of (store_deferred s) = Some r → truthy (my_store s) = true ∧ r = Ok (Id (my_store s))).

Definition keeps_store (s s' : coordinator) : Prop :=
  store_ok s → store_ok s' ∧ (truthy (my_store s) = true → my_store s' = my_store s).
#[local] Instance keeps_store_pre : PreOrder keeps_store.
Proof.
  split; [by intros s Hs|]. intros x y z Hxy Hyz Hx. destruct (Hxy Hx) as [Hy E1]. destruct (Hyz Hy) as [Hz E2].
  split; [done|]. intros Ht. rewrite E2; [auto|]. by rewrite E1.
Qed.

(** What most of the code leaves alone *)
Definition same_store (s s' : coordinator) : Prop :=
  my_store s' = my_store s ∧ store_deferred s' = store_deferred s ∧
  ∀ n, (n, ProcessConfigAssignment) ∈ calls s' → (n, ProcessConfigAssignment) ∈ calls s.
#[local] Instance same_store_pre : PreOrder same_store.
Proof. split; [done|]. intros x y z (?&?&?) (?&?&?). split_and!; [congruence|congruence|auto]. Qed.

Lemma same_store_keeps s s' : same_store s s' → keeps_store s s'.
Proof. intros (Hm&Hd&Hc) [H1 H2]. split; [|done]. split; rewrite Hm, ?Hd; eauto. Qed.

Lemma store_keeps {A} (m : M coordinator A) : follows same_store m → follows keeps_store m.
Proof. intros Hm s. apply same_store_keeps, Hm. Qed.

Lemma store_call_later c : c ≠ ProcessConfigAssignment → follows same_store (call_later c).
Proof. intros Hc s. split_and!; try done. intros n. simpl. rewrite elem_of_app, list_elem_of_singleton. naive_solver. Qed.

Lemma store_cancel t : follows same_store (cancel_timer t).
Proof.
  intros s. destruct t as [n|]; [|done]. unfold cancel_timer, cancel_call, mbind, M_bind, gets. repeat case_decide; try done.
  split_and!; try done. intros k. simpl. by intros [_ ?]%list_elem_of_filter.
Qed.

Lemma store_unwatch d : follows same_store (modify (λ s, s <| calls ::= filter (λ c, c.2 ≠ TimedOut d) |>)).
Proof. intros s. split_and!; try done. intros k. simpl. by intros [_ ?]%list_elem_of_filter. Qed.

Ltac store :=
  repeat first
    [ lazymatch goal with
      | |- follows _ (call_later _) => apply store_call_later; first [discriminate|by intros ->]
      | |- follows _ (cancel_timer _) => apply store_cancel
      | |- follows _ (get_leader _) => apply f_get_leader; apply _
      | |- follows _ (modify (λ s, update_field calls (filter _) s)) => apply store_unwatch
      | |- follows _ (zoom _ _ ?m) => intros ?; unfold zoom; destruct (m _); simpl; split_and!; done
      end
    | follows_gen ltac:(split_and!; done)
    | progress unfold fire_rcvd, fire, new_deferred, set_worker, set_leader, publish_peers_map_change, recv_peers_map ].

Lemma store_leader_stop l : follows same_store (leader_stop l).
Proof. unfold leader_stop. store. Qed.

Lemma store_halt : follows same_store halt_leader.
Proof. unfold halt_leader. apply follows_bind; [apply _|store|]. intros []; [apply follows_bind; [apply _|apply store_leader_stop|intros ?]|]; store. Qed.

Lemma store_set_leader_id i : follows same_store (set_leader_id i).
Proof. unfold set_leader_id. store. Qed.

Lemma store_elect b e : follows same_store (elect b e).
Proof.
  assert (∀ i, follows same_store (assert_nonleadership i)) as Hn.
  { intros i. unfold assert_nonleadership. apply follows_bind; [apply _|apply store_set_leader_id|]. intros _.
    apply follows_bind; [apply _|store|]. intros []; [|store]. apply follows_bind; [apply _|store|]. intros _. apply store_halt. }
  unfold elect. destruct e as [e|]; [|store]. destruct b; [|apply Hn].
  unfold assert_leadership, just_gained_leadership, leader_start. store; apply store_set_leader_id.
Qed.

Lemma store_nonleader i : follows same_store (assert_nonleadership i).
Proof. exact (store_elect false (Some (KvEntry "" i None []))). Qed.

Lemma store_stop_leader : follows same_store stop_leader.
Proof.
  unfold stop_leader. apply follows_bind; [apply _|store|]. intros []; [|store].
  apply follows_bind; [apply _|apply store_leader_stop|intros ?]. store.
Qed.

(** The stores that are read have a name. *)
Lemma core_stores_truthy results c cs : core_stores results = c :: cs → truthy (Some c) = true.
Proof.
  intros Hc. assert (c ∈ core_stores results) as Hin by (rewrite Hc; set_solver). unfold core_stores in Hin.
  apply list_elem_of_omap in Hin as (e&_&He). case_decide; [|done]. destruct (truthy (Value e)) eqn:Ht; [|done]. by rewrite <- He.
Qed.

Lemma keeps_stash s : truthy (my_store s) = true → keeps_store s (stash_and_restart_core_store_soak_timer s).2.
Proof.
  intros Ht Hs. unfold stash_and_restart_core_store_soak_timer. rewrite (bind_ok _ _ s (worker_ s) s) by done.
  pose proof (store_cancel (assignment_core_store_soak_timer (worker_ s)) s) as Hk.
  destruct (cancel_timer (assignment_core_store_soak_timer (worker_ s)) s) as [[[]|e'] s2] eqn:Hc; simpl in Hk;
    destruct (same_store_keeps _ _ Hk Hs) as [[H3 H4] H5].
  - rewrite (bind_ok _ _ _ _ _ Hc). split; [|exact H5]. split; [|exact H4]. intros n _. by rewrite <- (H5 Ht) in Ht.
  - rewrite (bind_err _ _ _ _ _ Hc). done.
Qed.

Lemma keeps_take r : follows keeps_store (take_assignment r).
Proof.
  intros s. unfold take_assignment. rewrite (bind_ok _ _ s (worker_ s) s) by done. destruct r as [[|e es]|]; [done| |done].
  fold (my_store s). destruct (truthy (my_store s)) eqn:Ht; [done|]. destruct (core_stores (e :: es)) as [|c cs] eqn:Hc; [done|].
  apply core_stores_truthy in Hc. set (s1 := s <| worker_ ::= λ w, w <| mycore_store_id := Some c |> |>).
  rewrite (bind_ok _ _ s tt s1) by done. transitivity s1; [|by apply keeps_stash].
  intros [H1 H2]. split; [|by rewrite Ht]. split; [intros; exact Hc|]. intros r [Hr _]%H2. congruence.
Qed.

Lemma keeps_process i n s : calls s !! i = Some (n, ProcessConfigAssignment) →
  keeps_store s (process_config_assignment (made i n s)).2.
Proof.
  intros Hi Hs. assert (truthy (my_store s) = true) as Ht by (eapply (proj1 Hs), list_elem_of_lookup_2, Hi).
  assert (same_store s (made i n s)) as Hm.
  { split_and!; try done. intros k Hk. by apply elem_of_delete in Hk. }
  destruct (same_store_keeps _ _ Hm Hs) as [[H1 H2] H3]. set (s1 := made i n s) in *.
  unfold process_config_assignment. rewrite (bind_ok _ _ s1 (worker_ s1) s1) by done. fold (my_store s1) (store_deferred s1).
  destruct (fire_with (Ok (Id (my_store s1))) (store_deferred s1)) as [d|] eqn:Hf; [|done].
  split; [|exact H3]. split; [exact H1|]. intros r Hr.
  change (result_of d = Some r) in Hr. change (truthy (my_store s1) = true ∧ r = Ok (Id (my_store s1))).
  destruct (result_of (store_deferred s1)) as [r0|] eqn:H0.
  - rewrite (fire_again _ _ _ _ H0 Hf) in Hr. injection Hr as <-. by apply H2.
  - destruct (fire_pending_ok (Ok (Id (my_store s1))) _ H0) as (d'&Hf'&Hd'). split; [|congruence]. by destruct Hm as [-> _].
Qed.

#[local] Instance store_frames : Frames keeps_store.
Proof.
  split; try apply _; try (intros; by apply same_store_keeps); auto using keeps_take; intros; apply store_keeps;
    auto using store_halt, store_elect, store_nonleader, store_stop_leader.
  - apply store_call_later. by intros ->.
  - store.
  - store.
  - store.
  - store.
  - store.
  - store.
  - unfold restart_core_store_reassignment_soak_timer. store.
  - unfold worker_start. store.
  - unfold worker_stop. store.
  - unfold stash_and_restart_soak_timer. store.
  - unfold update_assignments. store.
  - unfold update_peers. store.
  - store.
  - unfold assignments_again. store.
  - unfold peers_again. store.
Qed.

(** Once a worker has a core store it keeps it, and the Deferred that its
    users wait for fires with that store and nothing else. *)
Theorem core_store_final w w' c (Hw : reachable w) (Hsteps : rtc step w w')
    (Hc : mycore_store_id (worker_ (st w)) = Some c) (Hne : c ≠ "") :
  mycore_store_id (worker_ (st w')) = Some c ∧
  ∀ r, result_of (wait_for_core_store_assignment (worker_ (st w'))) = Some r → r = Ok (Id (Some c)).
Proof.
  assert (∀ l i, follows keeps_store (members_again l i)) as Hagain.
  { intros l i. apply store_keeps. unfold members_again. store. }
  assert (∀ i n s, keeps_store s (made i n s)) as Hmade.
  { intros i n s. apply same_store_keeps. split_and!; try done. intros k Hk. by apply elem_of_delete in Hk. }
  assert (store_ok (st w)) as Hok.
  { apply (reachable_started keeps_store Hagain Hmade keeps_process w Hw). split; [|intros r Hr; change (result_of Pending = Some r) in Hr; by rewrite new_pending in Hr].
    intros n Hn. apply list_elem_of_singleton in Hn. done. }
  destruct (reachable_follows keeps_store Hagain Hmade keeps_process w w' Hw Hsteps) as [_ Hf].
  destruct (Hf Hok) as [[_ H2] Hs]. assert (my_store (st w') = Some c) as Hm.
  { rewrite Hs; [done|]. unfold my_store. rewrite Hc. by destruct c. }
  split; [exact Hm|]. intros r Hr. destruct (H2 r Hr) as [_ ->]. by rewrite Hm.
Qed.
End core_store.
