(* ===== verification/MemberLoops.v ===== *)
(** * The loops of the leaders

    In every interleaving, a leader that is not halted has exactly one loop
    that follows the members: none is lost to an exception, and none is started
    twice. *)
From S2P Require Import Prelude Generators MessageQueue Coordination Leader Worker Coordinator LeaderProofs CoordinationProofs.
From Stdlib Require Import ZArith Lia.
From stdpp Require Import base gmap strings list.

(** ** The loops that follow the members *)
Section member_loops.
Context {HO : DictOrder} {HP : Promise (result dval)} {HC : Cluster}.

Definition loop_of (c : call) : option nat := match c with TrackMembers l _ => Some l | _ => None end.

(** The calls to come that go on with the loop of leader [l] *)
Definition loop_calls (l : nat) (s : coordinator) : nat := length (filter (λ p, loop_of p.2 = Some l) (calls s)).

(** A timer that somebody may cancel *)
Definition timer_of (s : coordinator) (n : nat) : Prop :=
  (∃ l x, leaders s !! l = Some x ∧ (reassignment_soak_timer x = Some n ∨ core_store_reassignment_soak_timer x = Some n)) ∨
  assignment_soak_timer (worker_ s) = Some n ∨ assignment_core_store_soak_timer (worker_ s) = Some n.

(** A number that is not that of a loop *)
Definition harmless (s : coordinator) (n : nat) : Prop := n < next_call s ∧ ∀ c, (n, c) ∈ calls s → loop_of c = None.

Record calm (s : coordinator) : Prop := {
  calm_fresh : ∀ n c, (n, c) ∈ calls s → n < next_call s;
  calm_timers : ∀ n, timer_of s n → harmless s n;
  calm_absent : ∀ l, length (leaders s) ≤ l → loop_calls l s = 0;
}.

Definition halted_at (s : coordinator) (l : nat) : Prop := ∃ x, leaders s !! l = Some x ∧ l_halted x = true.

(** Leaders are added, each with its loop, and halted. *)
Record grows (s s' : coordinator) : Prop := {
  grows_length : length (leaders s) ≤ length (leaders s');
  grows_halted : ∀ l, halted_at s l → halted_at s' l;
  grows_old : ∀ l, l < length (leaders s) → loop_calls l s' = loop_calls l s;
  grows_new : ∀ l, length (leaders s) ≤ l < length (leaders s') → loop_calls l s' = 1;
}.

Definition keeps_calm (s s' : coordinator) : Prop := calm s → calm s' ∧ grows s s'.

#[local] Instance grows_pre : PreOrder grows.
Proof.
  split.
  - intros s. split; [done..|]. intros l ?. lia.
  - intros x y z [L1 H1 O1 N1] [L2 H2 O2 N2]. split; [lia|auto| |].
    + intros l Hl. rewrite O2 by lia. by apply O1.
    + intros l Hl. destruct (decide (l < length (leaders y))); [rewrite O2 by lia; apply N1; lia|apply N2; lia].
Qed.

#[local] Instance keeps_calm_pre : PreOrder keeps_calm.
Proof.
  split; [by intros s Hs|]. intros x y z Hxy Hyz Hx. destruct (Hxy Hx) as [Hy ?], (Hyz Hy) as [Hz ?].
  split; [done|]. by trans y.
Qed.

(** What most of the code leaves alone; it may add calls that are not loops. *)
Record same_loops (s s' : coordinator) : Prop := {
  sl_leaders : (λ x, (l_halted x, reassignment_soak_timer x, core_store_reassignment_soak_timer x)) <$> leaders s' =
    (λ x, (l_halted x, reassignment_soak_timer x, core_store_reassignment_soak_timer x)) <$> leaders s;
  sl_worker : assignment_soak_timer (worker_ s') = assignment_soak_timer (worker_ s) ∧
    assignment_core_store_soak_timer (worker_ s') = assignment_core_store_soak_timer (worker_ s);
  sl_next : next_call s ≤ next_call s';
  sl_calls : ∀ n c, (n, c) ∈ calls s' → (n, c) ∈ calls s ∨ next_call s ≤ n < next_call s' ∧ loop_of c = None;
  sl_loops : ∀ l, loop_calls l s' = loop_calls l s;
}.

#[local] Instance same_loops_pre : PreOrder same_loops.
Proof.
  split; [split; auto|]. intros x y z [A1 [B1 B2] C1 D1 F1] [A2 [B3 B4] C2 D2 F2]. split; [congruence|split; congruence|lia| |congruence].
  intros n c [Hy|[? ?]]%D2; [|right; split; [lia|done]]. destruct (D1 n c Hy) as [|[? ?]]; [by left|]. right. split; [lia|done].
Qed.

Lemma same_loops_lookup s s' l x : same_loops s s' → leaders s' !! l = Some x → ∃ y, leaders s !! l = Some y ∧
  l_halted y = l_halted x ∧ reassignment_soak_timer y = reassignment_soak_timer x ∧
  core_store_reassignment_soak_timer y = core_store_reassignment_soak_timer x.
Proof.
  intros [Hl _ _ _ _] Hx. apply (f_equal (lookup l)) in Hl. rewrite !list_lookup_fmap, Hx in Hl. simpl in Hl.
  symmetry in Hl. apply fmap_Some in Hl as (y&Hy&[= H1 H2 H3]). by exists y.
Qed.

Lemma same_loops_length s s' : same_loops s s' → length (leaders s') = length (leaders s).
Proof. intros [Hl _ _ _ _]. apply (f_equal length) in Hl. by rewrite !length_fmap in Hl. Qed.

Lemma same_loops_timer s s' n : same_loops s s' → timer_of s' n → timer_of s n.
Proof.
  intros Hs [(l&x&Hx&Ht)|Ht].
  - left. destruct (same_loops_lookup s s' l x Hs Hx) as (y&Hy&_&H1&H2). exists l, y. by rewrite H1, H2.
  - right. destruct Hs as [_ [H1 H2] _ _ _]. by rewrite <- H1, <- H2.
Qed.

Lemma same_loops_calm s s' : same_loops s s' → keeps_calm s s'.
Proof.
  intros Hs [Hf Ht Ha]. pose proof (same_loops_length s s' Hs) as Hlen. pose proof Hs as [Hl Hw Hn Hc Hloops]. split; [split|split].
  - intros n c [Hin|[? _]]%Hc; [|lia]. apply Hf in Hin. lia.
  - intros n Htn%(same_loops_timer s s'); [|done]. destruct (Ht n Htn) as [H1 H2]. split; [lia|].
    intros c [Hin|[? _]]%Hc; [by apply H2|lia].
  - intros l Hle. rewrite Hloops. apply Ha. lia.
  - lia.
  - intros l (x&Hx&Hh). apply (f_equal (lookup l)) in Hl. rewrite !list_lookup_fmap, Hx in Hl.
    apply fmap_Some in Hl as (y&Hy&[= H1 _ _]). exists y. split; [done|]. congruence.
  - intros l _. apply Hloops.
  - intros l ?. lia.
Qed.

Lemma loops_keeps {A} (m : M coordinator A) : follows same_loops m → follows keeps_calm m.
Proof. intros Hm s. apply same_loops_calm, Hm. Qed.

Lemma loops_call_later c : loop_of c = None → follows same_loops (call_later c).
Proof.
  intros Hc s. split; try done; simpl; [lia| |].
  - intros n c'. rewrite elem_of_app, list_elem_of_singleton. intros [?|[= -> ->]]; [by left|right]. split; [lia|done].
  - intros l. unfold loop_calls. simpl. rewrite filter_app, length_app, filter_cons_False by (simpl; congruence). simpl. lia.
Qed.

Lemma filter_loops (P : nat * call → Prop) `{∀ p, Decision (P p)} s : (∀ p, p ∈ calls s → ¬ P p → loop_of p.2 = None) →
  same_loops s (s <| calls ::= filter P |>).
Proof.
  intros Hp. split; try done; simpl.
  - intros n c [_ ?]%list_elem_of_filter. by left.
  - intros l. unfold loop_calls. simpl. revert Hp. induction (calls s) as [|p cs IH]; intros Hp; [done|].
    rewrite (filter_cons P), (filter_cons _ p cs). assert (∀ q, q ∈ cs → ¬ P q → loop_of q.2 = None) as Hq by set_solver.
    specialize (IH Hq). destruct (decide (P p)) as [HPp|HPp].
    + rewrite filter_cons. case_decide; simpl; by rewrite IH.
    + rewrite decide_False; [done|]. rewrite (Hp p); [done|set_solver|done].
Qed.

(** Cancelling a timer that is not a loop *)
Lemma loops_cancel t s : (∀ n, t = Some n → harmless s n) → same_loops s (cancel_timer t s).2.
Proof.
  intros Ht. destruct t as [n|]; [|reflexivity]. destruct (Ht n eq_refl) as [_ Hn].
  unfold cancel_timer, cancel_call, mbind, M_bind, gets. repeat case_decide; try reflexivity.
  apply filter_loops. intros [n' c] Hin Hne. simpl in *. apply (Hn c). by destruct (decide (n' = n)) as [->|].
Qed.

(** Storing a timer that is not a loop *)
Lemma calm_set s s' : calls s' = calls s → next_call s' = next_call s → length (leaders s') = length (leaders s) →
  (∀ l, halted_at s l → halted_at s' l) → (∀ n, timer_of s' n → timer_of s n ∨ harmless s n) → keeps_calm s s'.
Proof.
  intros Hc Hn Hl Hh Ht [H1 H2 H3].
  assert (∀ l, loop_calls l s' = loop_calls l s) as Hloops by (intros l; unfold loop_calls; by rewrite Hc).
  split; [split|split].
  - intros n c. rewrite Hc, Hn. apply H1.
  - intros n Hs. unfold harmless. rewrite Hc, Hn. destruct (Ht n Hs) as [H|H]; [exact (H2 n H)|exact H].
  - intros l Hle. rewrite Hloops. apply H3. lia.
  - lia.
  - done.
  - by intros l _.
  - intros l ?. lia.
Qed.

Lemma set_leader_halted l f s l' : (∀ x, l_halted x = true → l_halted (f x) = true) → halted_at s l' →
  halted_at (s <| leaders ::= alter f l |>) l'.
Proof.
  intros Hf (x&Hx&Hh). unfold halted_at. simpl. rewrite list_lookup_alter. case_decide; [|by exists x]. subst.
  rewrite Hx. exists (f x). auto.
Qed.

Lemma calm_set_leader l f s :
  (∀ x, l_halted x = true → l_halted (f x) = true) →
  (∀ x n, reassignment_soak_timer (f x) = Some n → reassignment_soak_timer x = Some n) →
  (∀ x n, core_store_reassignment_soak_timer (f x) = Some n → core_store_reassignment_soak_timer x = Some n ∨ harmless s n) →
  keeps_calm s (s <| leaders ::= alter f l |>).
Proof.
  intros Hh H1 H2. apply calm_set; try done; [apply length_alter|by intros; apply set_leader_halted|].
  intros n [(l'&x&Hx&Ht)|Ht]; [|by left; right]. simpl in Hx. rewrite list_lookup_alter in Hx. case_decide as Hl.
  - subst. apply fmap_Some in Hx as (y&Hy&->). destruct Ht as [Ht|Ht].
    + left. left. exists l', y. eauto.
    + destruct (H2 _ _ Ht) as [Ht'|]; [|by right]. left. left. exists l', y. eauto.
  - left. left. by exists l', x.
Qed.

(** A call whose number is then kept as a timer *)
Lemma new_call_harmless c s : loop_of c = None → calm s → harmless (call_later c s).2 (next_call s).
Proof.
  intros Hc Hs. split; [simpl; lia|]. intros c'. simpl. rewrite elem_of_app, list_elem_of_singleton.
  intros [Hin|[= ->]]; [|done]. apply Hs in Hin. lia.
Qed.

(** [restart] in general: cancel the old timer, make a call, keep its number *)
Lemma calm_restart (t : option nat) (c : call) (keep : nat → coordinator → coordinator) s :
  loop_of c = None → (∀ n, t = Some n → timer_of s n) →
  (∀ n s, harmless s n → keeps_calm s (keep n s)) →
  keeps_calm s ((_ ← cancel_timer t; n ← call_later c; modify (keep n)) s).2.
Proof.
  intros Hc Ht Hk Hs. pose proof (loops_cancel t s (λ n Hn, calm_timers s Hs n (Ht n Hn))) as Hcancel.
  destruct (cancel_timer t s) as [[[]|e] s1] eqn:Hct; simpl in Hcancel.
  2: { rewrite (bind_err _ _ _ _ _ Hct). by apply same_loops_calm. }
  rewrite (bind_ok _ _ _ _ _ Hct).
  destruct (same_loops_calm s s1 Hcancel Hs) as [Hs1 Hg1].
  destruct (loops_keeps _ (loops_call_later c Hc) s1 Hs1) as [Hs2 Hg2].
  destruct (Hk (next_call s1) _ (new_call_harmless c s1 Hc Hs1) Hs2) as [Hs3 Hg3].
  split; [exact Hs3|]. etrans; [exact Hg1|]. etrans; [exact Hg2|exact Hg3].
Qed.

(** Reading the leader first *)
Lemma with_leader {A} l (k : leader → M coordinator A) (R : coordinator → coordinator → Prop) s : R s s →
  (∀ x, leaders s !! l = Some x → R s (k x s).2) → R s ((x ← get_leader l; k x) s).2.
Proof.
  intros Hr Hk. unfold get_leader, mbind, M_bind, gets. destruct (leaders s !! l) as [x|] eqn:Hx; simpl; [by apply Hk|done].
Qed.

Lemma calm_restart_core l : follows keeps_calm (restart_core_store_reassignment_soak_timer l).
Proof.
  intros s. apply (with_leader l _ keeps_calm); [reflexivity|]. intros x Hx. apply calm_restart; [done| |].
  - intros n Hn. left. exists l, x. auto.
  - intros n s1 Hn. apply calm_set_leader; [done|done|]. intros y k. simpl. intros [= ->]. by right.
Qed.

Lemma calm_leader_stop l : follows keeps_calm (leader_stop l).
Proof.
  intros s. unfold leader_stop, mbind at 1, M_bind at 1, set_leader, modify.
  set (s1 := s <| leaders ::= alter (λ x, x <| l_halted := true |>) l |>).
  transitivity s1; [apply calm_set_leader; auto|]. apply (with_leader l _ keeps_calm); [reflexivity|]. intros x Hx Hs.
  pose proof (loops_cancel (reassignment_soak_timer x) s1) as Hc1. unfold mbind, M_bind.
  destruct (cancel_timer (reassignment_soak_timer x) s1) as [[[]|e] s2] eqn:Hc; simpl in Hc1 |- *.
  - assert (same_loops s1 s2) as H12 by (apply Hc1; intros n Hn; apply Hs; left; eauto).
    assert (keeps_calm s1 s2) as H1 by by apply same_loops_calm. destruct (H1 Hs) as [Hs2 Hg].
    assert (same_loops s2 (cancel_timer (core_store_reassignment_soak_timer x) s2).2) as H23%same_loops_calm.
    { apply loops_cancel. intros n Hn. apply Hs2.
      pose proof (f_equal (lookup l) (sl_leaders _ _ H12)) as Hl. rewrite !list_lookup_fmap, Hx in Hl.
      apply fmap_Some in Hl as (y&Hy&[= _ _ Ht]). left. exists l, y. split; [done|]. right. congruence. }
    destruct (H23 Hs2). split; [done|]. by etrans.
  - assert (same_loops s1 s2) as H12 by (apply Hc1; intros n Hn; apply Hs; left; eauto). by apply same_loops_calm.
Qed.

(** *** The code that has nothing to do with the loops *)
Lemma loops_set_leader l f : (∀ x, (l_halted (f x), reassignment_soak_timer (f x), core_store_reassignment_soak_timer (f x)) =
  (l_halted x, reassignment_soak_timer x, core_store_reassignment_soak_timer x)) → follows same_loops (set_leader l f).
Proof.
  intros Hf s. split; try done; [|by left]. apply list_eq. intros i. simpl.
  rewrite !list_lookup_fmap, list_lookup_alter. case_decide; subst; [|done]. destruct (leaders s !! i); simpl; by rewrite ?Hf.
Qed.

Lemma loops_unwatch d : follows same_loops (modify (λ s, s <| calls ::= filter (λ c, c.2 ≠ TimedOut d) |>)).
Proof.
  intros s. apply filter_loops. intros [n c] _ Hc. simpl in *. by destruct (decide (c = TimedOut d)) as [->|].
Qed.

Ltac quiet :=
  repeat first
    [ lazymatch goal with
      | |- follows _ (call_later _) => apply loops_call_later; reflexivity
      | |- follows _ (get_leader _) => apply f_get_leader; apply _
      | |- follows _ (set_leader _ _) => apply loops_set_leader; reflexivity
      | |- follows _ (modify (λ s, update_field calls (filter _) s)) => apply loops_unwatch
      | |- follows _ (zoom _ _ ?m) => intros ?; unfold zoom; destruct (m _); simpl; split; auto
      end
    | follows_gen ltac:(split; auto)
    | progress unfold fire_rcvd, fire, new_deferred, set_worker, publish_peers_map_change, recv_peers_map ].

Lemma loops_set_leader_id i : follows same_loops (set_leader_id i).
Proof. unfold set_leader_id. quiet. Qed.

(** *** Halting and making leaders *)
Lemma calm_halt : follows keeps_calm halt_leader.
Proof.
  apply follows_bind; [apply _|apply loops_keeps; quiet|]. intros [l|]; [|apply loops_keeps; quiet].
  apply follows_bind; [apply _|apply calm_leader_stop|intros _]. apply loops_keeps. quiet.
Qed.

Lemma calm_nonleader i : follows keeps_calm (assert_nonleadership i).
Proof.
  apply follows_bind; [apply _|apply loops_keeps, loops_set_leader_id|]. intros _.
  apply follows_bind; [apply _|apply loops_keeps; quiet|]. intros []; [|apply loops_keeps; quiet].
  apply follows_bind; [apply _|apply loops_keeps; quiet|]. intros _. apply calm_halt.
Qed.

Lemma calm_gained : follows keeps_calm just_gained_leadership.
Proof.
  intros s [Hf Ht Ha].
  assert (∀ l, loop_calls l (just_gained_leadership s).2 = loop_calls l s + (if decide (l = length (leaders s)) then 1 else 0)) as Hl.
  { intros l. unfold loop_calls. simpl. rewrite filter_app, length_app. f_equal. rewrite filter_cons. simpl.
    repeat case_decide; simpl; congruence. }
  split; [split|split].
  - intros n c. simpl. rewrite elem_of_app, list_elem_of_singleton. intros [Hin%Hf|[= -> ->]]; lia.
  - intros n Hn. assert (timer_of s n) as Hn'.
    { destruct Hn as [(l&x&Hx&Hn)|Hn]; [|by right]. simpl in Hx. apply lookup_app_Some in Hx as [Hx|[_ Hx]]; [by left; eauto|].
      apply list_lookup_singleton_Some in Hx as [_ <-]. by destruct Hn. }
    destruct (Ht n Hn') as [H1 H2]. split; [simpl; lia|]. intros c. simpl. rewrite elem_of_app, list_elem_of_singleton.
    intros [Hin|[= -> ->]]; [by apply H2|lia].
  - intros l Hle. rewrite Hl. simpl in Hle. rewrite length_app in Hle. simpl in Hle. rewrite Ha, decide_False; lia.
  - simpl. rewrite length_app. lia.
  - intros l (x&Hx&Hh). exists x. split; [|done]. simpl. by apply lookup_app_l_Some.
  - intros l Hle. rewrite Hl, decide_False; lia.
  - intros l Hle. simpl in Hle. rewrite length_app in Hle. simpl in Hle. rewrite Hl, decide_True, Ha; lia.
Qed.

Lemma calm_elect b e : follows keeps_calm (elect b e).
Proof.
  destruct e as [e|]; [|by intros s]. destruct b; [|apply calm_nonleader]. unfold elect.
  apply follows_bind; [apply _|apply loops_keeps; quiet|]. intros x.
  apply follows_bind; [apply _|apply loops_keeps; quiet|]. intros i. case_decide; [|by intros s].
  apply follows_bind; [apply _|apply loops_keeps; quiet|]. intros []; [by intros s|].
  apply follows_bind; [apply _|apply loops_keeps; quiet|]. intros _.
  apply follows_bind; [apply _|apply loops_keeps, loops_set_leader_id|]. intros _. apply calm_gained.
Qed.

Lemma calm_stop_leader : follows keeps_calm stop_leader.
Proof.
  apply follows_bind; [apply _|apply loops_keeps; quiet|]. intros [l|]; [|apply loops_keeps; quiet].
  apply follows_bind; [apply _|apply calm_leader_stop|intros _]. apply loops_keeps. quiet.
Qed.

(** *** The worker's timers *)
Lemma calm_set_worker g s : (∀ w n, assignment_soak_timer (g w) = Some n → assignment_soak_timer w = Some n ∨ harmless s n) →
  (∀ w n, assignment_core_store_soak_timer (g w) = Some n → assignment_core_store_soak_timer w = Some n ∨ harmless s n) →
  keeps_calm s (s <| worker_ ::= g |>).
Proof.
  intros H1 H2. apply calm_set; try done. intros n [Ht|[Ht|Ht]]; [by left; left| |].
  - destruct (H1 _ _ Ht); [left; right; by left|by right].
  - destruct (H2 _ _ Ht); [left; right; by right|by right].
Qed.

Lemma calm_worker_stop : follows keeps_calm worker_stop.
Proof.
  apply follows_bind; [apply _|apply loops_keeps; quiet|]. intros _ s Hs. rewrite (bind_ok _ _ s (worker_ s) s) by done.
  assert (same_loops s (cancel_timer (assignment_soak_timer (worker_ s)) s).2) as H1.
  { apply loops_cancel. intros n Hn. apply Hs. right. by left. }
  destruct (cancel_timer (assignment_soak_timer (worker_ s)) s) as [[[]|e] s1] eqn:Hc; simpl in H1;
    destruct (same_loops_calm _ _ H1 Hs) as [Hs1 Hg1]; [rewrite (bind_ok _ _ _ _ _ Hc)|by rewrite (bind_err _ _ _ _ _ Hc)].
  assert (keeps_calm s1 (cancel_timer (assignment_core_store_soak_timer (worker_ s)) s1).2) as H2.
  { apply same_loops_calm, loops_cancel. intros n Hn. apply Hs1. right. right. destruct (sl_worker _ _ H1). congruence. }
  destruct (H2 Hs1). split; [done|]. by etrans.
Qed.

Lemma calm_stash_core : follows keeps_calm stash_and_restart_core_store_soak_timer.
Proof.
  intros s. unfold stash_and_restart_core_store_soak_timer. rewrite (bind_ok _ _ s (worker_ s) s) by done.
  apply calm_restart; [done|intros n Hn; right; by right|].
  intros n s1 Hn. apply calm_set_worker; [by left|]. intros w k [= ->]. by right.
Qed.

Lemma calm_take r : follows keeps_calm (take_assignment r).
Proof.
  apply follows_bind; [apply _|apply loops_keeps; quiet|]. intros w. destruct r as [[|e es]|]; [by intros s| |by intros s].
  destruct (truthy (mycore_store_id w)); [by intros s|]. destruct (core_stores (e :: es)) as [|c cs]; [by intros s|].
  apply follows_bind; [apply _|apply loops_keeps; quiet|]. intros _. apply calm_stash_core.
Qed.

Lemma calm_stash w : follows keeps_calm (stash_and_restart_soak_timer w).
Proof.
  intros s Hs. unfold stash_and_restart_soak_timer. rewrite (bind_ok _ _ s (worker_ s) s) by done.
  assert (same_loops s (cancel_timer (assignment_soak_timer (worker_ s)) s).2) as H1.
  { apply loops_cancel. intros n Hn. apply Hs. right. by left. }
  destruct (cancel_timer (assignment_soak_timer (worker_ s)) s) as [[[]|e] s1] eqn:Hc; simpl in H1;
    destruct (same_loops_calm _ _ H1 Hs) as [Hs1 Hg1]; [rewrite (bind_ok _ _ _ _ _ Hc)|by rewrite (bind_err _ _ _ _ _ Hc)].
  assert (keeps_calm s1 ((_ ← set_worker (λ v, v <| my_candidate_workload := Some w |>);
    t ← call_later UpdateAssignments; set_worker (λ v, v <| assignment_soak_timer := Some t |>)) s1).2) as H2.
  { rewrite (bind_ok _ _ s1 tt (s1 <| worker_ ::= λ v, v <| my_candidate_workload := Some w |> |>)) by done.
    etrans; [|apply (calm_restart None UpdateAssignments (λ t s, s <| worker_ ::= λ v, v <| assignment_soak_timer := Some t |> |>))];
      [|done|done|].
    - apply calm_set_worker; by left.
    - intros n s2 Hn. apply calm_set_worker; [|by left]. intros v k [= ->]. by right. }
  destruct (H2 Hs1). split; [done|]. by etrans.
Qed.

#[local] Instance calm_frames : Frames keeps_calm.
Proof.
  split; try apply _; auto using calm_restart_core, calm_halt, calm_elect, calm_nonleader, calm_stop_leader, calm_worker_stop,
    calm_stash, calm_take; intros; try (apply same_loops_calm; split; auto; done); apply loops_keeps.
  - apply loops_call_later. by destruct c.
  - quiet.
  - quiet.
  - quiet.
  - quiet.
  - quiet.
  - quiet.
  - unfold worker_start. quiet.
  - unfold update_assignments. quiet.
  - unfold update_peers. quiet.
  - quiet.
  - unfold assignments_again. quiet.
  - unfold peers_again. quiet.
Qed.

(** ** Counting the loops *)
Definition loop_origin (o : origin) : option nat := match o with OCall c => loop_of c | OUser _ => None end.
Definition is_loop (l : nat) (o : origin) : nat := if decide (loop_origin o = Some l) then 1 else 0.

(** Those among the calls to come, among the generators that wait, and among
    those that are still going round *)
Definition running (l : nat) (ts : list thread) : nat := length (filter (λ t, loop_origin (origin_of t) = Some l) ts).
Definition spins (l : nat) (sp : list origin) : nat := length (filter (λ o, loop_origin o = Some l) sp).
Definition member_loops (l : nat) (w : world) : nat := loop_calls l (st w) + running l (threads w) + spins l (spinning w).

Lemma running_app l ts t : running l (ts ++ [t]) = running l ts + is_loop l (origin_of t).
Proof. unfold running, is_loop. rewrite filter_app, length_app, filter_cons. f_equal. by case_decide. Qed.

Lemma running_delete l ts i t : ts !! i = Some t → running l ts = running l (delete i ts) + is_loop l (origin_of t).
Proof.
  intros Hi. unfold running, is_loop. rewrite (delete_Permutation ts i t Hi) at 1. rewrite filter_cons.
  case_decide; simpl; lia.
Qed.

Lemma spins_cons l o sp : spins l (o :: sp) = is_loop l o + spins l sp.
Proof. unfold spins, is_loop. rewrite filter_cons. by case_decide. Qed.

Lemma made_loops l i n c s : calls s !! i = Some (n, c) → loop_calls l s = loop_calls l (made i n s) + is_loop l (OCall c).
Proof.
  intros Hi. unfold loop_calls, is_loop. simpl. rewrite (delete_Permutation (calls s) i (n, c) Hi) at 1. rewrite filter_cons. simpl.
  case_decide; simpl; lia.
Qed.

Lemma made_calm i n s : calm s → calm (made i n s).
Proof.
  intros [Hf Ht Ha]. assert (∀ p, p ∈ calls (made i n s) → p ∈ calls s) as Hin by (intros p Hp; by apply elem_of_delete in Hp).
  split.
  - intros k c Hc. by apply (Hf k c), Hin.
  - intros k Hk. destruct (Ht k Hk) as [H1 H2]. split; [done|]. intros c Hc. by apply H2, Hin.
  - intros l Hl. specialize (Ha l Hl). unfold loop_calls in *.
    apply nil_length_inv in Ha. assert (filter (λ p, loop_of p.2 = Some l) (calls (made i n s)) = []) as Hnil; [|by rewrite Hnil].
    apply elem_of_nil_inv. intros p [Hp Hc]%list_elem_of_filter. apply (elem_of_nil p). rewrite <- Ha.
    apply list_elem_of_filter. split; [done|]. by apply Hin.
Qed.

(** The [finally] clause of the loop: a new call, unless the leader is halted *)
Lemma again_calm l i s : calm s → calm (members_again l i s).2 ∧ leaders (members_again l i s).2 = leaders s ∧
  (∀ l', l' ≠ l → loop_calls l' (members_again l i s).2 = loop_calls l' s) ∧
  (loop_calls l (members_again l i s).2 = loop_calls l s ∧ (length (leaders s) ≤ l ∨ halted_at s l) ∨
   loop_calls l (members_again l i s).2 = S (loop_calls l s) ∧ l < length (leaders s)).
Proof.
  intros Hs. unfold members_again, get_leader, mbind, M_bind, gets. destruct (leaders s !! l) as [x|] eqn:Hx; simpl.
  2: { split_and!; try done. left. split; [done|]. left. by apply lookup_ge_None. }
  destruct (l_halted x) eqn:Hh; simpl; [split_and!; try done; left; split; [done|]; right; by exists x|].
  assert (∀ l', loop_calls l' (call_later (TrackMembers l i) s).2 = loop_calls l' s + (if decide (l' = l) then 1 else 0)) as Hl.
  { intros l'. unfold loop_calls. simpl. rewrite filter_app, length_app. f_equal. rewrite filter_cons. simpl.
    repeat case_decide; simpl; congruence. }
  pose proof (lookup_lt_Some _ _ _ Hx) as Hlt. split_and!; [|done| |].
  - destruct Hs as [Hf Ht Ha]. split.
    + intros n c. simpl. rewrite elem_of_app, list_elem_of_singleton. intros [Hin%Hf|[= -> ->]]; lia.
    + intros n Hn. destruct (Ht n Hn) as [H1 H2]. split; [simpl; lia|]. intros c. simpl. rewrite elem_of_app, list_elem_of_singleton.
      intros [Hin|[= -> ->]]; [by apply H2|lia].
    + intros l' Hl'. simpl in Hl'. specialize (Hl l'). simpl in Hl. rewrite Hl, (Ha l' Hl'), decide_False; lia.
  - intros l' Hne. specialize (Hl l'). simpl in Hl. rewrite Hl, decide_False by done. lia.
  - right. specialize (Hl l). simpl in Hl. rewrite Hl, decide_True by done. lia.
Qed.

(** *** Steps *)
Definition last_loop (o : origin) : result unit → coordinator → coordinator → Prop :=
  match loop_origin o with
  | None => λ _, keeps_calm
  | Some l => λ r s s', r = Err OutOfFuel ∧ keeps_calm s s' ∨
      r ≠ Err OutOfFuel ∧ ∃ s1 i, keeps_calm s s1 ∧ s' = (members_again l i s1).2
  end.

Lemma loop_ends c : ends keeps_calm (last_loop (OCall c)) (routine c).
Proof.
  unfold last_loop. destruct c as [| | | | | | |l i| | | | | |]; cbn [loop_origin loop_of]; try by apply (p_routine keeps_calm).
  - apply (e_track_members keeps_calm).
    + intros r s s' s'' H1 [[? H2]|(?&s1&j&H2&->)]; [left; split; [done|by etrans]|right]. split; [done|]. exists s1, j.
      split; [by etrans|done].
    + auto.
    + intros r j s Hr. right. split; [done|]. by exists s, j.
  - apply (paced_lift keeps_calm), loops_keeps. unfold process_config_assignment. quiet.
Qed.

Lemma loop_user_ends u : ends keeps_calm (last_loop (OUser u)) (user_routine u).
Proof. by apply (p_user keeps_calm). Qed.

(** Every leader has at most one loop, and one that is not halted has one. *)
Definition looped (w : world) : Prop :=
  calm (st w) ∧ ∀ l, (l < length (leaders (st w)) → member_loops l w ≤ 1 ∧ (halted_at (st w) l ∨ member_loops l w = 1)) ∧
    (length (leaders (st w)) ≤ l → member_loops l w = 0).

Lemma resumes_loops w o s0 ts : resumes w o s0 ts → calm (st w) →
  calm s0 ∧ leaders s0 = leaders (st w) ∧
  ∀ l, loop_calls l s0 + running l ts + is_loop l o = loop_calls l (st w) + running l (threads w).
Proof.
  intros Hres Hs. destruct Hres as [i n c Hi|i t Ht|u].
  - split_and!; [by apply made_calm|done|]. intros l. rewrite (made_loops l i n c (st w) Hi). lia.
  - split_and!; [done..|]. intros l. rewrite (running_delete l (threads w) i t Ht). lia.
  - split_and!; [done..|]. intros l. unfold is_loop. simpl. lia.
Qed.

(** What may have happened to the loops of [l] when [o] has gone on from
    [s0]: [n] are left of it. *)
Definition loop_outcome (o : origin) (s0 s : coordinator) (n : nat → nat) : Prop :=
  calm s ∧ length (leaders s0) ≤ length (leaders s) ∧ (∀ l, halted_at s0 l → halted_at s l) ∧
  (∀ l, l < length (leaders s0) →
    loop_calls l s + n l = loop_calls l s0 + is_loop l o ∨ loop_calls l s + n l ≤ loop_calls l s0 + is_loop l o ∧ halted_at s l) ∧
  (∀ l, length (leaders s0) ≤ l → loop_calls l s + n l ≤ (if decide (l < length (leaders s)) then 1 else 0) + is_loop l o ∧
    (l < length (leaders s) → 1 ≤ loop_calls l s)).

Lemma calm_outcome o s0 s n : keeps_calm s0 s → calm s0 → (∀ l, n l = is_loop l o) → loop_outcome o s0 s n.
Proof.
  intros Hk Hs Hn. destruct (Hk Hs) as [Hc [H1 H2 H3 H4]]. split_and!; [done..| |].
  - intros l Hl. left. rewrite Hn, H3 by done. lia.
  - intros l Hl. rewrite Hn. case_decide as Hd; [rewrite H4 by lia; lia|]. rewrite (calm_absent s Hc) by lia. lia.
Qed.

Lemma settles_loops o s0 ts sp w' : calm s0 → settles keeps_calm last_loop o s0 ts sp w' →
  ∃ n, loop_outcome o s0 (st w') n ∧ ∀ l, running l (threads w') + spins l (spinning w') = running l ts + spins l sp + n l.
Proof.
  intros Hs Hset. destruct Hset as [s t Hk Ho|s r Hr HE|s HE]; simpl.
  - exists (λ l, is_loop l o). split; [by apply calm_outcome|]. intros l. rewrite running_app, Ho. lia.
  - exists (λ _, 0). split; [|intros l; lia]. unfold last_loop in HE. destruct (loop_origin o) as [l0|] eqn:Ho.
    2: { apply calm_outcome; [done..|]. intros l. unfold is_loop. by rewrite Ho. }
    destruct HE as [[? _]|(_&s1&i&Hk&->)]; [done|]. destruct (Hk Hs) as [Hc1 [H1 H2 H3 H4]].
    destruct (again_calm l0 i s1 Hc1) as (Hc&Hl&Hother&Hl0).
    assert (∀ l, is_loop l o = if decide (l = l0) then 1 else 0) as Hi.
    { intros l. unfold is_loop. rewrite Ho. repeat case_decide; congruence. }
    split_and!; [done|by rewrite Hl| | |].
    + intros l Hh%H2. destruct Hh as (x&Hx&?). exists x. by rewrite Hl.
    + intros l Hlt. rewrite Hi. case_decide as Hd; [|left; rewrite Hother, H3 by done; lia]. subst l.
      destruct Hl0 as [[-> [?|Hh]]|[-> _]]; [lia| |left; rewrite H3 by done; lia]. right. rewrite H3 by done. split; [lia|].
      destruct Hh as (x&Hx&?). exists x. by rewrite Hl.
    + intros l Hle. rewrite Hi, Hl. assert (loop_calls l s1 = if decide (l < length (leaders s1)) then 1 else 0) as Hn.
      { case_decide; [apply H4; lia|apply Hc1; lia]. }
      repeat case_decide; subst; try (rewrite Hother by done; lia); destruct Hl0 as [[-> _]|[-> ?]]; lia.
  - exists (λ l, is_loop l o). split; [|intros l; rewrite spins_cons; lia]. unfold last_loop in HE.
    apply calm_outcome; [|done|done]. destruct (loop_origin o); [|done]. by destruct HE as [[_ ?]|[? _]].
Qed.

Lemma step_looped w w' : Forall (thread_ok keeps_calm last_loop) (threads w) → looped w → step w w' → looped w'.
Proof.
  intros Hts [Hs Hw] Hstep. destruct (step_settles _ _ loop_ends loop_user_ends w w' Hts Hstep) as (o&s0&ts&Hres&Hset&_).
  destruct (resumes_loops w o s0 ts Hres Hs) as (Hs0&Hl0&Htot).
  destruct (settles_loops o s0 ts (spinning w) w' Hs0 Hset) as (n&(Hc&Hlen&Hh&Hold&Hnew)&Hn).
  split; [done|]. intros l. specialize (Hw l) as [Hw1 Hw2]. specialize (Htot l). specialize (Hn l). specialize (Hold l). specialize (Hnew l).
  unfold member_loops in *. rewrite Hl0 in *.
  assert (halted_at (st w) l → halted_at (st w') l) as Hhl.
  { intros (x&Hx&?). apply Hh. exists x. by rewrite Hl0. }
  split.
  - intros Hlt. destruct (decide (l < length (leaders (st w)))) as [Hlt0|].
    + destruct (Hw1 Hlt0) as [H1 H2]. destruct (Hold Hlt0) as [H3|[H3 H4]].
      * split; [lia|]. destruct H2 as [H2|H2]; [left; auto|right; lia].
      * split; [lia|by left].
    + rewrite decide_True in Hnew by done. destruct Hnew as [H1 H2]; [lia|]. specialize (Hw2 ltac:(lia)). specialize (H2 Hlt).
      split; [lia|right; lia].
  - intros Hle. rewrite decide_False in Hnew by lia. destruct Hnew as [H1 _]; [lia|]. specialize (Hw2 ltac:(lia)). lia.
Qed.

(** C14 An active leader follows the members with exactly one loop, in every
    interleaving: no exception ends it and no step starts a second one.  A
    halted leader has at most one. *)
Theorem member_loop_alive w (Hw : reachable w) l x (Hx : leaders (st w) !! l = Some x) :
  member_loops l w ≤ 1 ∧ (l_halted x = false → member_loops l w = 1).
Proof.
  assert (looped w) as [_ Hl].
  { clear Hx. induction Hw as [|w w' Hw IH Hstep].
    - split; [|intros k; split; [simpl; lia|done]]. split.
      + intros n c Hc. apply list_elem_of_singleton in Hc as [= -> ->]. simpl. lia.
      + intros n [(k&y&Hy&_)|[Hn|Hn]]; done.
      + done.
    - eapply step_looped; [|done|done]. by eapply reachable_threads; [apply loop_ends|apply loop_user_ends|]. }
  destruct (Hl l) as [Hl1 _]. destruct (Hl1 (lookup_lt_Some _ _ _ Hx)) as [H1 H2]. split; [done|].
  intros Hn. destruct H2 as [(y&Hy&?)|]; [congruence|done].
Qed.
End member_loops.
