(* ===== verification/CoordinationSample.v ===== *)
(** * Sample runs of the coordinator

    Runs of Coordinator.v, for the witnesses and for behaviours that the
    comments of the code do not expect. *)
From S2P Require Import Prelude Generators MessageQueue Coordination Leader Worker Coordinator LeaderProofs CoordinationProofs MemberLoops.
From Stdlib Require Import ZArith Lia.
From stdpp Require Import base gmap strings list.

Local Open Scope Z_scope.

#[local] Existing Instance plain_order.
#[local] Existing Instance sample_cluster.
#[local] Existing Instance plain_promise.
#[local] Existing Instance plain_promise_laws.

Definition lock (i : Z) : kv_entry := KvEntry leader_prefix (Some instance_id) (Some "s1") [i].

(** The session, the membership record, and an attempt to take the lock *)
Definition joins : list move := [MCall 0; MReply 0 (RString (Ok "s1")); MReply 0 (RBool (Ok true)); MCall 2].

(** The lock is ours. *)
Definition elected : list move := joins ++ [MReply 0 (RBool (Ok true)); MReply 0 (RGet (Ok (1, Some (lock 1))))].

Definition world_after (ms : list move) : world := default started (execs ms started).

Example elected_leader :
  let w := world_after elected in
  leader_ (st w) = Some 0%nat ∧ (l_halted <$> leaders (st w)) = [false] ∧ i_am_leader (st w) = true ∧
  snd <$> calls (st w) = [SessionTracking; MaintainMembership; TrackMyAssignments 0; TrackMyPeers 0;
    TrackMembers 0 0; TimedOut 0; GetInto 0 false leader_prefix (Some 1)].
Proof. vm_compute. done. Qed.

Definition runs (ms : list move) (w : world) : bool := if execs ms w then true else false.

Lemma sample_reachable ms : runs ms started = true → reachable (world_after ms).
Proof.
  unfold runs, world_after. destruct (execs ms started) as [w|] eqn:Hw; [|done]. intros _. by apply (execs_reachable ms).
Qed.

Lemma one_active_leader_witness :
  leader_ (st (world_after elected)) = Some 0%nat ∧ i_am_leader (st (world_after elected)) = true.
Proof.
  apply (one_active_leader (world_after elected)) with (x := leader_init).
  - apply sample_reachable. vm_compute. reflexivity.
  - vm_compute. reflexivity.
  - reflexivity.
Defined.

Lemma member_loop_alive_witness :
  (member_loops 0 (world_after elected) ≤ 1)%nat ∧ (false = false → member_loops 0 (world_after elected) = 1%nat).
Proof.
  apply (member_loop_alive (world_after elected)) with (l := 0%nat) (x := leader_init).
  - apply sample_reachable. vm_compute. reflexivity.
  - vm_compute. reflexivity.
Defined.

(** ** The worker gets its core store *)
Definition store_entry (c : string) : kv_entry :=
  KvEntry (assignment_prefix +:+ instance_id +:+ "/" +:+ core_storage_suffix) (Some c) None [].

Definition assigned : list move := elected ++ [MCall 2; MReply 1 (RGetAll (Ok (5, Some [store_entry "0001"])))].

Lemma core_store_final_witness :
  let w := world_after assigned in
  let w' := default w (exec (MCall 6) w) in
  mycore_store_id (worker_ (st w')) = Some "0001" ∧
  ∀ r, result_of (wait_for_core_store_assignment (worker_ (st w'))) = Some r → r = Ok (Id (Some "0001")).
Proof.
  apply (core_store_final (world_after assigned) _ "0001").
  - apply sample_reachable. vm_compute. reflexivity.
  - destruct (exec (MCall 6) (world_after assigned)) as [w'|] eqn:He; simpl; [|constructor]. apply rtc_once. by eapply exec_step.
  - vm_compute. reflexivity.
  - done.
Defined.

Example store_reported :
  result_of (wait_for_core_store_assignment (worker_ (st (world_after (assigned ++ [MCall 6]))))) = Some (Ok (Id (Some "0001"))).
Proof. vm_compute. reflexivity. Qed.

(** ** Behaviours that are not expected *)

(** A coordinator that is stopped between taking the lock and reading it back
    becomes the leader afterwards, and nothing halts that leader. *)
Definition stopped_late : list move :=
  joins ++ [MReply 0 (RBool (Ok true)); MUser UStop; MReply 1 (RUnit (Ok tt)); MReply 0 (RGet (Ok (1, Some (lock 1))))].

Example stopped_becomes_leader :
  let s := st (world_after stopped_late) in
  shutting_down s = true ∧ i_am_leader s = true ∧ (l_halted <$> leaders s) = [false].
Proof. vm_compute. done. Qed.

(** When the members are gone the leader bails out, but the coordinator still
    believes to be the leader and holds the lock: a new attempt does not make a
    new Leader. *)
Definition bails_out : list move :=
  elected ++ [MCall 4; MCall 7; MReply 2 (RGetAll (Ok (3, None))); MReply 1 RNow].

Example bail_out_leaves_no_leader :
  let s := st (world_after bails_out) in
  i_am_leader s = true ∧ leader_ s = None ∧ (l_halted <$> leaders s) = [true] ∧
  leader_ (elect true (Some (lock 2)) s).2 = None.
Proof. vm_compute. done. Qed.

(** A leader that is halted while it follows a change of the members still
    schedules the reassignment. *)
Definition halted_midway : list move :=
  elected ++ [MCall 4; MCall 7;
    MReply 2 (RGetAll (Ok (3, Some [KvEntry (membership_prefix +:+ m_id member1) (Some "10.0.0.1") (Some "s1") []])));
    MReply 1 RNow; MReply 1 (RGetAll (Ok (1, None))); MUser UStop; MReply 2 (RUnit (Ok tt)); MReply 1 (RKeys (Ok (1, None)))].

Example halted_leader_reassigns :
  let s := st (world_after halted_midway) in
  (l_halted <$> leaders s) = [true] ∧ ReassignCoreStores 0 ∈ snd <$> calls s.
Proof. vm_compute. split; [done|]. set_solver. Qed.
