(* ===== verification/PonSim.v ===== *)
(** * The PON simulator

    src/ponsim/ponsim.py: an OLT and ONUs that forward frames by the flows
    installed on them, as the device adapters do it in hardware.  Frames are
    scapy packets: Ethernet, any number of 802.1Q tags, and a body of which the
    code reads the IP and UDP headers.  Composing packets with [/] copies them,
    while setting a field of a tag changes the packet in place: an outcome says
    whether it is still the packet that came in, and a link that is given a
    packet returns it as the receivers have left it.  The alarm simulation and
    the message with the counters are not modelled. *)
From S2P Require Import Prelude OpenFlow.
From stdpp Require Import base gmap list strings pretty.
From Stdlib Require Import ZArith Lia.

Local Open Scope Z_scope.

(** ** Frames *)
Record dot1q := Dot1Q {
  prio : Z;
  dei : Z;
  vlan : Z;
  shim_type : Z;
}.

Record ip := IP {
  proto : Z;
  ip_dst : string;
}.

Record udp := UDP {
  sport : Z;
  dport : Z;
}.

Inductive payload :=
  | Shim (q : dot1q) (p : payload)
  | Data (i : option ip) (u : option udp) (size : Z).

Record frame := Ether {
  src : string;
  dst : string;
  ether_type : Z;
  body : payload;
}.

#[export] Instance dot1q_eq_dec : EqDecision dot1q.
Proof. solve_decision. Defined.
#[export] Instance ip_eq_dec : EqDecision ip.
Proof. solve_decision. Defined.
#[export] Instance udp_eq_dec : EqDecision udp.
Proof. solve_decision. Defined.
#[export] Instance payload_eq_dec : EqDecision payload.
Proof. solve_decision. Defined.
#[export] Instance frame_eq_dec : EqDecision frame.
Proof. solve_decision. Defined.

(** [len(p)] *)
Fixpoint size_of (p : payload) : Z :=
  match p with Shim _ p => 4 + size_of p | Data _ _ n => n end.

(** [frame.getlayer(Dot1Q)], [getlayer(IP)], [getlayer(UDP)]; [None] without *)
Definition get_shim (f : frame) : option dot1q := match body f with Shim q _ => Some q | Data _ _ _ => None end.

Fixpoint ip_in (p : payload) : option ip := match p with Shim _ p => ip_in p | Data i _ _ => i end.
Fixpoint udp_in (p : payload) : option udp := match p with Shim _ p => udp_in p | Data _ u _ => u end.
Definition get_ip (f : frame) : option ip := ip_in (body f).
Definition get_udp (f : frame) : option udp := udp_in (body f).

Definition byte_of (n : Z) (shift : Z) : Z := Z.land (Z.shiftr n shift) 0xff.

Definition ipv4int2str (n : Z) : string :=
  pretty (byte_of n 24) +:+ "." +:+ pretty (byte_of n 16) +:+ "." +:+ pretty (byte_of n 8) +:+ "." +:+ pretty (Z.land n 0xff).

(** ** Matching *)
Definition FlowMatchMask_UDP_DST := 1.
Definition FlowMatchMask_UDP_SRC := 2.
Definition FlowMatchMask_IPV4_DST := 4.
Definition FlowMatchMask_VLAN_PCP := 8.
Definition FlowMatchMask_VLAN_VID := 16.
Definition FlowMatchMask_IP_PROTO := 34.
Definition FlowMatchMask_ETH_TYPE := 64.
Definition FlowMatchMask_IN_PORT := 128.

(** The type after the first tag *)
Definition get_non_shim_ether_type (f : frame) : Z :=
  match get_shim f with Some q => shim_type q | None => ether_type f end.

(** What a frame has for a field, [None] where the comparison is with [None];
    the bits of the mask that it adds. *)
Definition hit (b : bool) (mask : Z) : result (option Z) := Ok (if b then Some mask else None).

Definition match_field (field : ofb_field) (ingress_port : Z) (f : frame) : result (option Z) :=
  let t := of_type field in
  if decide (t = IN_PORT) then hit (bool_decide (read_int C_port field = ingress_port)) FlowMatchMask_IN_PORT
  else if decide (t = ETH_TYPE) then
    hit (bool_decide (read_int C_eth_type field = get_non_shim_ether_type f)) FlowMatchMask_ETH_TYPE
  else if decide (t = IP_PROTO) then
    hit (bool_decide (Some (read_int C_ip_proto field) = proto <$> get_ip f)) FlowMatchMask_IP_PROTO
  else if decide (t = VLAN_VID) then
    let expected_vlan := read_int C_vlan_vid field in
    hit match get_shim f with
        | Some q => bool_decide (Z.land expected_vlan 4096 ≠ 0) && bool_decide (vlan q = Z.land expected_vlan 4095)
        | None => bool_decide (Z.land expected_vlan 4096 = 0)
        end FlowMatchMask_VLAN_VID
  else if decide (t = VLAN_PCP) then
    hit (bool_decide (Some (read_int C_vlan_pcp field) = prio <$> get_shim f)) FlowMatchMask_VLAN_PCP
  else if decide (t = IPV4_DST) then
    hit (bool_decide (Some (ipv4int2str (read_int C_ipv4_dst field)) = ip_dst <$> get_ip f)) FlowMatchMask_IPV4_DST
  else if decide (t = UDP_SRC) then
    hit (bool_decide (Some (read_int C_udp_src field) = sport <$> get_udp f)) FlowMatchMask_UDP_SRC
  else if decide (t = UDP_DST) then
    hit (bool_decide (Some (read_int C_udp_dst field) = dport <$> get_udp f)) FlowMatchMask_UDP_DST
  else if decide (t = METADATA) then Ok (Some 0)
  else Err NotImplementedError.

Fixpoint match_fields (fields : list ofb_field) (ingress_port : Z) (f : frame) (matched_mask : Z) : result Z :=
  match fields with
  | [] => Ok matched_mask
  | field :: fields =>
      match match_field field ingress_port f with
      | Ok (Some m) => match_fields fields ingress_port f (Z.lor matched_mask m)
      | Ok None => Ok 0
      | Err e => Err e
      end
  end.

Definition is_match (flow : ofp_flow_stats) (ingress_port : Z) (f : frame) : result Z :=
  match get_ofb_fields flow with
  | Ok fields => match_fields fields ingress_port f 0
  | Err e => Err e
  end.

(** ** Actions *)

(** The port and the packet so far, and whether that is still the packet that
    came in *)
Record frame_outcome := Outcome {
  outcome_port : option Z;
  egress_frame : frame;
  same_packet : bool;
}.

Definition with_shim (g : dot1q → dot1q) (f : frame) : result frame :=
  match body f with
  | Shim q p => Ok (Ether (src f) (dst f) (ether_type f) (Shim (g q) p))
  | Data _ _ _ => Err AttributeError
  end.

Definition pop_shim (f : frame) : frame :=
  match body f with
  | Shim q p => Ether (src f) (dst f) (shim_type q) p
  | Data _ _ _ => f
  end.

(** scapy's [Dot1Q(type=...)] has priority 0 and vlan 1. *)
Definition push_shim (ethertype : Z) (f : frame) : frame :=
  Ether (src f) (dst f) ethertype (Shim (Dot1Q 0 0 1 (ether_type f)) (body f)).

Definition set_shim_field (field : ofb_field) (f : frame) : result frame :=
  if decide (of_type field = VLAN_VID) then
    with_shim (λ q, Dot1Q (prio q) (dei q) (Z.land (read_int C_vlan_vid field) 4095) (shim_type q)) f
  else if decide (of_type field = VLAN_PCP) then
    with_shim (λ q, Dot1Q (read_int C_vlan_pcp field) (dei q) (vlan q) (shim_type q)) f
  else Err NotImplementedError.

(** [action.push.ethertype] and [action.set_field.field] *)
Definition action_push_ethertype (a : ofp_action) : Z := match a_body a with APush t => t | _ => 0 end.
Definition action_set_field (a : ofp_action) : oxm_field :=
  match a_body a with ASetField f => f | _ => Oxm 0 OxmNone end.

Definition process_action (o : frame_outcome) (a : ofp_action) : result frame_outcome :=
  let '(Outcome port f same) := o in
  if decide (a_type a = OUTPUT) then Ok (Outcome (Some (action_output_port a)) f same)
  else if decide (a_type a = POP_VLAN) then
    match get_shim f with
    | Some _ => Ok (Outcome port (pop_shim f) false)
    | None => Ok o
    end
  else if decide (a_type a = PUSH_VLAN) then Ok (Outcome port (push_shim (action_push_ethertype a) f) false)
  else if decide (a_type a = SET_FIELD) then
    if decide (oxm_class (action_set_field a) = OFPXMC_OPENFLOW_BASIC) then
      match set_shim_field (oxm_ofb_field (action_set_field a)) f with
      | Ok g => Ok (Outcome port g same)
      | Err e => Err e
      end
    else Err AssertionError
  else Err NotImplementedError.

Fixpoint run_actions (acts : list ofp_action) (o : frame_outcome) : result frame_outcome :=
  match acts with
  | [] => Ok o
  | a :: acts => match process_action o a with Ok o => run_actions acts o | Err e => Err e end
  end.

Definition process_actions (flow : ofp_flow_stats) (f : frame) : result frame_outcome :=
  match iter_actions flow with
  | Ok acts => run_actions acts (Outcome None f true)
  | Err e => Err e
  end.

(** ** Devices *)

(** The flow chosen so far, its mask, and the priority of the last flow seen *)
Fixpoint best_flow (flows : list ofp_flow_stats) (ingress_port : Z) (f : frame)
    (matched : option ofp_flow_stats) (matched_mask highest_priority : Z) : result (option ofp_flow_stats) :=
  match flows with
  | [] => Ok matched
  | flow :: flows =>
      if bool_decide (is_Some matched ∧ fs_priority flow < highest_priority) then Ok matched
      else
        match is_match flow ingress_port f with
        | Ok current_mask =>
            if decide (current_mask > matched_mask)
            then best_flow flows ingress_port f (Some flow) current_mask (fs_priority flow)
            else best_flow flows ingress_port f matched matched_mask (fs_priority flow)
        | Err e => Err e
        end
  end.

Definition process_frame (flows : list ofp_flow_stats) (ingress_port : Z) (f : frame) : result (option frame_outcome) :=
  match best_flow flows ingress_port f None 0 0 with
  | Ok (Some flow) => match process_actions flow f with Ok o => Ok (Some o) | Err e => Err e end
  | Ok None => Ok None
  | Err e => Err e
  end.

(** [sorted(flows, key=priority, reverse=True)]: flows of the same priority stay
    in their order. *)
Fixpoint insert_flow (f : ofp_flow_stats) (l : list ofp_flow_stats) : list ofp_flow_stats :=
  match l with
  | [] => [f]
  | g :: l => if decide (fs_priority g ≤ fs_priority f) then f :: g :: l else g :: insert_flow f l
  end.
Definition sort_flows (l : list ofp_flow_stats) : list ofp_flow_stats := foldr insert_flow [] l.

(** The functions that are given to [link] *)
Inductive link := ToWorld (port_no : Z) | ToOlt | ToOnu (port_no : Z).

(** A counter: its bounds, and a value for the PON and the network port *)
Record counter := Counter {
  c_min : Z;
  c_max : Z;
  c_value : list Z;
}.

Record sim_device := SimDevice {
  sd_name : string;
  logical_port_no : Z;
  links : gmap Z (list link);
  flows : list ofp_flow_stats;
  rx_counters : gmap string counter;
  tx_counters : gmap string counter;
}.

#[export] Instance sim_device_eta : Eta sim_device := λ d,
  SimDevice (sd_name d) (logical_port_no d) (links d) (flows d) (rx_counters d) (tx_counters d).

Definition mk_counters (p : string) : gmap string counter :=
  list_to_map ((λ c, (p +:+ c.1.1, Counter c.1.2 c.2 [0; 0])) <$>
    [("_64_pkts", 1, 64); ("_65_127_pkts", 65, 127); ("_128_255_pkts", 128, 255); ("_256_511_pkts", 256, 511);
     ("_512_1023_pkts", 512, 1024); ("_1024_1518_pkts", 1024, 1518); ("_1519_9k_pkts", 1519, 9216)]).

Definition new_device (name : string) (port : Z) : sim_device :=
  SimDevice name port ∅ [] (mk_counters "rx") (mk_counters "tx").

Definition add_link (port : Z) (l : link) (d : sim_device) : sim_device :=
  d <| links ::= λ m, <[port := default [] (m !! port) ++ [l]]> m |>.

Definition install_flows (fl : list ofp_flow_stats) (d : sim_device) : sim_device := d <| flows := sort_flows fl |>.

Section sim.
Context {HO : DictOrder}.

(** [value[port - 1] += 1] of a list of two: Python counts negative indices from
    the end. *)
Definition bump (port : Z) (v : list Z) : result (list Z) :=
  let i := port - 1 in
  let i := if decide (i < 0) then i + Z.of_nat (length v) else i in
  if decide (0 ≤ i < Z.of_nat (length v)) then Ok (alter (Z.add 1) (Z.to_nat i) v) else Err IndexError.

Definition count_frame (port size : Z) (cs : gmap string counter) : result (gmap string counter) :=
  match list_find (λ p, c_min p.2 ≤ size ∧ size ≤ c_max p.2) (iteritems cs) with
  | Some (_, (k, c)) =>
      match bump port (c_value c) with
      | Ok v => Ok (<[k := Counter (c_min c) (c_max c) v]> cs)
      | Err e => Err e
      end
  | None => Ok cs
  end.

(** The devices by port, the OLT at 0, and the frames that left the simulator *)
Record ponsim := PonSim {
  devices : gmap Z sim_device;
  egressed : list (Z * frame);
}.

#[export] Instance ponsim_eta : Eta ponsim := λ s, PonSim (devices s) (egressed s).

Definition sim_device_at (p : Z) : M ponsim sim_device :=
  ds ← gets devices;
  from_some KeyError (ds !! p).

Definition set_device (p : Z) (g : sim_device → sim_device) : M ponsim unit :=
  modify (λ s, s <| devices ::= alter g p |>).

Definition count_rx_frame (d port size : Z) : M ponsim unit :=
  x ← sim_device_at d;
  cs ← lift (count_frame port size (rx_counters x));
  set_device d (λ x, x <| rx_counters := cs |>).

Definition count_tx_frame (d port size : Z) : M ponsim unit :=
  x ← sim_device_at d;
  cs ← lift (count_frame port size (tx_counters x));
  set_device d (λ x, x <| tx_counters := cs |>).

(** [SimDevice.ingress]: the device [d] is given the packet [f] and leaves it as
    returned.  [n] bounds the nesting of devices. *)
Fixpoint ingress (n : nat) (d port : Z) (f : frame) : M ponsim frame :=
  match n with
  | O => raise OutOfFuel
  | S n =>
      _ ← count_rx_frame d port (size_of (body f));
      x ← sim_device_at d;
      o ← lift (process_frame (flows x) port f);
      match o with
      | None => mret f
      | Some (Outcome out g same) =>
          match out ≫= λ p, links x !! p with
          | None => mret (if (same : bool) then g else f)
          | Some ls =>
              _ ← count_tx_frame d (default 0 out) (size_of (body g));
              g' ← foldM (λ g l,
                     match l with
                     | ToWorld p => _ ← modify (λ s, s <| egressed ::= λ e, e ++ [(p, g)] |>); mret g
                     | ToOlt => ingress n 0 1 g
                     | ToOnu p => ingress n p 1 g
                     end) g ls;
              mret (if (same : bool) then g' else f)
          end
      end
  end.

(** ** The simulator *)
Definition new_onu (i : Z) : sim_device :=
  add_link 2 (ToWorld (128 + i)) (add_link 1 ToOlt (new_device ("onu" +:+ pretty i) (128 + i))).

(** [PonSim(onus, egress_fun, alarm_config)] *)
Definition mk_ponsim (onus : nat) : ponsim :=
  let olt := add_link 2 (ToWorld 0) (new_device "olt" 0) in
  let ports := Z.of_nat <$> seq 0 onus in
  let olt := foldl (λ d i, add_link 1 (ToOnu (128 + i)) d) olt ports in
  PonSim (<[0 := olt]> (list_to_map ((λ i, (128 + i, new_onu i)) <$> ports))) [].

Definition olt_install_flows (fl : list ofp_flow_stats) : M ponsim unit := set_device 0 (install_flows fl).

Definition onu_install_flows (onu_port : Z) (fl : list ofp_flow_stats) : M ponsim unit :=
  _ ← sim_device_at onu_port;
  set_device onu_port (install_flows fl).

(** [PonSim.ingress]: a frame from the outside *)
Definition sim_ingress (n : nat) (port : Z) (f : frame) : M ponsim unit :=
  _ ← ingress n port 2 f;
  mret tt.
End sim.
