(* ===== verification/PonSimProofs.v ===== *)
(** * Forwarding by the simulator

    A device forwards a frame by the flow of the highest priority that matches
    it, the most specific one among equals.  The flows that FlowDecomposer.v
    makes of a pair of upstream flows, installed on the ONU and on the OLT of
    PonSim.v, forward a frame as the pair says.  Frames nest at most two devices
    deep. *)
From S2P Require Import Prelude OpenFlow Devices FlowDecomposer DeviceGraph LogicalDeviceAgent PonSim.
From Stdlib Require Import ZArith Lia.
From stdpp Require Import base gmap strings list sorting.

Local Open Scope Z_scope.

(** ** Matching *)

(** The fields that [is_match] knows *)
Definition known (field : ofb_field) : Prop :=
  of_type field ∈ [IN_PORT; ETH_TYPE; IP_PROTO; VLAN_VID; VLAN_PCP; IPV4_DST; UDP_SRC; UDP_DST; METADATA].

Definition sat (port : Z) (f : frame) (field : ofb_field) : bool :=
  match match_field field port f with Ok (Some _) => true | _ => false end.

Definition mask_of (field : ofb_field) : Z :=
  let t := of_type field in
  if decide (t = IN_PORT) then FlowMatchMask_IN_PORT
  else if decide (t = ETH_TYPE) then FlowMatchMask_ETH_TYPE
  else if decide (t = IP_PROTO) then FlowMatchMask_IP_PROTO
  else if decide (t = VLAN_VID) then FlowMatchMask_VLAN_VID
  else if decide (t = VLAN_PCP) then FlowMatchMask_VLAN_PCP
  else if decide (t = IPV4_DST) then FlowMatchMask_IPV4_DST
  else if decide (t = UDP_SRC) then FlowMatchMask_UDP_SRC
  else if decide (t = UDP_DST) then FlowMatchMask_UDP_DST
  else 0.

Lemma mask_nonneg field : 0 ≤ mask_of field.
Proof. unfold mask_of. repeat case_decide; compute; done. Qed.

Lemma match_field_known field port f : known field →
  match_field field port f = Ok (if sat port f field then Some (mask_of field) else None).
Proof.
  unfold known, sat, match_field, mask_of. intros Hk.
  repeat match goal with |- context [decide (of_type field = ?t)] => destruct (decide (of_type field = t)) end;
    try (unfold hit; by case_match); [done|].
  exfalso. set_solver.
Qed.

Definition masks (acc : Z) (fields : list ofb_field) : Z := foldl (λ a x, Z.lor a (mask_of x)) acc fields.

Lemma match_fields_known fields port f acc : Forall known fields →
  match_fields fields port f acc = Ok (if forallb (sat port f) fields then masks acc fields else 0).
Proof.
  intros Hk. revert acc. induction Hk as [|x fields Hx Hk IH]; intros acc; simpl; [done|].
  rewrite match_field_known by done. destruct (sat port f x); simpl; [apply IH|done].
Qed.

Lemma lor_pos a b : 0 ≤ a → 0 ≤ b → 0 < a ∨ 0 < b → 0 < Z.lor a b.
Proof.
  intros Ha Hb Hab. assert (0 ≤ Z.lor a b) by (by apply Z.lor_nonneg). destruct (decide (Z.lor a b = 0)) as [He|]; [|lia].
  apply Z.lor_eq_0_iff in He. lia.
Qed.

Lemma masks_nonneg acc fields : 0 ≤ acc → 0 ≤ masks acc fields.
Proof.
  revert acc. induction fields as [|x fields IH]; intros acc Ha; simpl; [done|]. apply IH. apply Z.lor_nonneg. split; [done|apply mask_nonneg].
Qed.

Lemma masks_pos acc fields : 0 ≤ acc → 0 < acc ∨ (∃ x, x ∈ fields ∧ of_type x = IN_PORT) → 0 < masks acc fields.
Proof.
  revert acc. induction fields as [|x fields IH]; intros acc Ha Hpos; simpl; [destruct Hpos as [?|(x&Hx&_)]; [done|set_solver]|].
  apply IH; [apply Z.lor_nonneg; split; [done|apply mask_nonneg]|].
  destruct Hpos as [Hpos|(y&[->|Hy]%elem_of_cons&Ht)].
  - left. apply lor_pos; [done|apply mask_nonneg|by left].
  - left. apply lor_pos; [done|apply mask_nonneg|right]. unfold mask_of. rewrite Ht. done.
  - right. eauto.
Qed.

(** A flow that matches an input port matches when all of its fields do. *)
Lemma is_match_spec flow fields port f : get_ofb_fields flow = Ok fields → Forall known fields →
  (∃ x, x ∈ fields ∧ of_type x = IN_PORT) →
  ∃ m, is_match flow port f = Ok m ∧ 0 ≤ m ∧ (0 < m ↔ forallb (sat port f) fields = true).
Proof.
  intros Hf Hk Hin. unfold is_match. rewrite Hf, match_fields_known by done. eexists. split; [done|].
  destruct (forallb (sat port f) fields); [|split; [lia|]; split; [lia|done]].
  pose proof (masks_pos 0 fields ltac:(lia) (or_intror Hin)). split; [lia|]. split; [done|lia].
Qed.

(** ** The flow that is chosen *)
Section best.
Context (port : Z) (f : frame).

Definition mask (flow : ofp_flow_stats) : Z := match is_match flow port f with Ok m => m | Err _ => 0 end.

(** [g] is not preferred to [b]. *)
Definition beats (b g : ofp_flow_stats) : Prop :=
  fs_priority g < fs_priority b ∨ fs_priority g = fs_priority b ∧ mask g ≤ mask b.

Lemma best_flow_matched flows b : (∀ g, g ∈ flows → ∃ m, is_match g port f = Ok m) →
  (∀ g, g ∈ flows → fs_priority g ≤ fs_priority b) → StronglySorted (λ g h, fs_priority h ≤ fs_priority g) flows →
  ∃ b', best_flow flows port f (Some b) (mask b) (fs_priority b) = Ok (Some b') ∧ (b' = b ∨ b' ∈ flows) ∧
    mask b ≤ mask b' ∧ fs_priority b' = fs_priority b ∧ ∀ g, g ∈ flows → beats b' g.
Proof.
  revert b. induction flows as [|g flows IH]; intros b Hok Hle Hs; [exists b; split_and!; [done|by left|lia|done|set_solver]|].
  apply StronglySorted_inv in Hs as [Hs Hg]. rewrite Forall_forall in Hg. cbn [best_flow].
  case_bool_decide as Hlt.
  - destruct Hlt as [_ Hlt]. exists b. split_and!; try done; [by left|]. intros h [->|Hh]%elem_of_cons; [by left|].
    left. specialize (Hg h Hh). simpl in Hg. lia.
  - assert (fs_priority g = fs_priority b) as Hp.
    { assert (¬ fs_priority g < fs_priority b) by (intros ?; apply Hlt; eauto). pose proof (Hle g ltac:(set_solver)). lia. }
    destruct (Hok g) as [m Hm]; [set_solver|]. rewrite Hm.
    assert (mask g = m) as Hmask by (unfold mask; by rewrite Hm). rewrite <- Hmask, Hp.
    case_decide as Hgt.
    + rewrite <- Hp. destruct (IH g) as (b'&Hb'&Hin&Hm'&Hp'&Hbeats); [set_solver|set_solver|done|]. exists b'.
      split_and!; [done|set_solver|lia|congruence|]. intros h [->|Hh]%elem_of_cons; [right; lia|by apply Hbeats].
    + destruct (IH b) as (b'&Hb'&Hin&Hm'&Hp'&Hbeats); [set_solver|set_solver|done|]. exists b'.
      split_and!; [done|set_solver|done|done|]. intros h [->|Hh]%elem_of_cons; [right; lia|by apply Hbeats].
Qed.

Lemma best_flow_spec flows p : (∀ g, g ∈ flows → ∃ m, is_match g port f = Ok m ∧ 0 ≤ m) →
  StronglySorted (λ g h, fs_priority h ≤ fs_priority g) flows →
  ∃ r, best_flow flows port f None 0 p = Ok r ∧
    match r with
    | None => ∀ g, g ∈ flows → mask g = 0
    | Some b => b ∈ flows ∧ 0 < mask b ∧ ∀ g, g ∈ flows → 0 < mask g → beats b g
    end.
Proof.
  revert p. induction flows as [|g flows IH]; intros p Hok Hs; [exists None; split; [done|set_solver]|].
  apply StronglySorted_inv in Hs as [Hs Hg]. rewrite Forall_forall in Hg. cbn [best_flow].
  rewrite bool_decide_false by (intros [[? ?] _]; done). destruct (Hok g) as (m&Hm&Hm0); [set_solver|]. rewrite Hm.
  assert (mask g = m) as Hmask by (unfold mask; by rewrite Hm). rewrite <- Hmask in *. case_decide as Hgt.
  - destruct (best_flow_matched flows g) as (b'&Hb'&Hin&Hm'&Hp'&Hbeats); [|done|done|].
    { intros h Hh. destruct (Hok h) as (k&Hk&_); [set_solver|]. eauto. }
    exists (Some b'). split; [done|]. split_and!; [set_solver|lia|]. intros h [->|Hh]%elem_of_cons _; [right; lia|by apply Hbeats].
  - destruct (IH (fs_priority g)) as ([b|]&Hb&Hr); [set_solver|done| |].
    + exists (Some b). split; [done|]. destruct Hr as (?&?&?). split_and!; [set_solver|done|].
      intros h [->|Hh]%elem_of_cons Hpos; [lia|auto].
    + exists None. split; [done|]. intros h [->|Hh]%elem_of_cons; [lia|auto].
Qed.
End best.

(** ** The order of the flows *)
Lemma insert_flow_perm f l : insert_flow f l ≡ₚ f :: l.
Proof. induction l as [|g l IH]; simpl; [done|]. case_decide; [done|]. rewrite IH. apply Permutation_swap. Qed.

Lemma sort_flows_perm l : sort_flows l ≡ₚ l.
Proof. induction l as [|f l IH]; simpl; [done|]. by rewrite insert_flow_perm, IH. Qed.

Lemma insert_flow_sorted f l : StronglySorted (λ g h, fs_priority h ≤ fs_priority g) l →
  StronglySorted (λ g h, fs_priority h ≤ fs_priority g) (insert_flow f l).
Proof.
  induction 1 as [|g l Hs IH Hg]; simpl; [repeat constructor|]. case_decide as Hle.
  - repeat constructor; [done|done|done|]. eapply Forall_impl; [exact Hg|]. simpl. lia.
  - constructor; [done|]. rewrite insert_flow_perm. constructor; [lia|done].
Qed.

Lemma sort_flows_sorted l : StronglySorted (λ g h, fs_priority h ≤ fs_priority g) (sort_flows l).
Proof. induction l; simpl; [constructor|by apply insert_flow_sorted]. Qed.

Lemma best_flow_in flows port f o k hp b : best_flow flows port f o k hp = Ok (Some b) → o = Some b ∨ b ∈ flows.
Proof.
  revert o k hp. induction flows as [|g flows IH]; intros o k hp; simpl; [intros [= ->]; by left|].
  repeat case_match; intros Hb; simplify_eq; try (by left); try (apply IH in Hb; set_solver).
Qed.

(** The sort looks at priorities only. *)
Lemma sort_flows_map (φ : ofp_flow_stats → ofp_flow_stats) l : (∀ g, fs_priority (φ g) = fs_priority g) →
  sort_flows (φ <$> l) = φ <$> sort_flows l.
Proof.
  intros Hφ. assert (∀ f l, insert_flow (φ f) (φ <$> l) = φ <$> insert_flow f l) as Hi.
  { intros f l'. induction l' as [|g l' IH]; csimpl; [done|]. rewrite !Hφ. case_decide; csimpl; [done|by rewrite IH]. }
  induction l as [|f l IH]; csimpl; [done|]. by rewrite IH, Hi.
Qed.

(** A flow with a match that [is_match] can read *)
Definition readable (flow : ofp_flow_stats) : Prop := ∃ fields, get_ofb_fields flow = Ok fields ∧ Forall known fields.

Lemma readable_mask flow port f : readable flow → ∃ m, is_match flow port f = Ok m ∧ 0 ≤ m.
Proof.
  intros (fields&Hf&Hk). unfold is_match. rewrite Hf, match_fields_known by done. eexists. split; [done|].
  case_match; [|done]. by apply masks_nonneg.
Qed.

Lemma mask_spec g fields port f : readable g → get_ofb_fields g = Ok fields → (∃ x, x ∈ fields ∧ of_type x = IN_PORT) →
  0 < mask port f g ↔ forallb (sat port f) fields = true.
Proof.
  intros (fields'&Hf'&Hk) Hf Hin. rewrite Hf in Hf'. injection Hf' as <-.
  destruct (is_match_spec g fields port f Hf Hk Hin) as (m&Hm&_&Hiff). unfold mask. by rewrite Hm.
Qed.

(** Whatever flows are installed on a device and in whatever order they are given, a frame is
    handled by one of them that matches it, such that every other flow that matches has a lower
    priority, or the same priority and a match that is not more specific; it is dropped just when no
    flow matches.  A flow that names an input port matches when all of its fields agree with the
    frame. *)
Theorem process_frame_best fl d port f (Hfl : Forall readable fl) :
  (∀ g fields, g ∈ fl → get_ofb_fields g = Ok fields → (∃ x, x ∈ fields ∧ of_type x = IN_PORT) →
     0 < mask port f g ↔ forallb (sat port f) fields = true) ∧
  ((∃ b, b ∈ fl ∧ 0 < mask port f b ∧ (∀ g, g ∈ fl → 0 < mask port f g → beats port f b g) ∧
     process_frame (flows (install_flows fl d)) port f =
       match process_actions b f with Ok o => Ok (Some o) | Err e => Err e end) ∨
  (∀ g, g ∈ fl → mask port f g = 0) ∧ process_frame (flows (install_flows fl d)) port f = Ok None).
Proof.
  split; [intros g fields Hg Hf Hin; apply mask_spec; try done; by apply (proj1 (Forall_forall _ _) Hfl)|].
  change (flows (install_flows fl d)) with (sort_flows fl). rewrite Forall_forall in Hfl.
  destruct (best_flow_spec port f (sort_flows fl) 0) as ([b|]&Hb&Hr); [|apply sort_flows_sorted|..].
  - intros g Hg. rewrite sort_flows_perm in Hg. by apply readable_mask, Hfl.
  - left. exists b. unfold process_frame. rewrite Hb. destruct Hr as (Hin&Hpos&Hbeats).
    rewrite sort_flows_perm in Hin. split_and!; [done|done| |done]. intros g Hg. apply Hbeats. by rewrite sort_flows_perm.
  - right. unfold process_frame. rewrite Hb. split; [|done]. intros g Hg. apply Hr. by rewrite sort_flows_perm.
Qed.

(** ** Flows placed on the devices of a route *)

(** The outcome with another port *)
Definition sent (p : Z) (o : frame_outcome) : frame_outcome := Outcome (Some p) (egress_frame o) (same_packet o).

Definition sent_frame (p : Z) (r : result (option frame_outcome)) : result (option frame_outcome) :=
  match r with Ok o => Ok (sent p <$> o) | Err e => Err e end.

Lemma match_field_port field p q f : of_type field ≠ IN_PORT → match_field field p f = match_field field q f.
Proof. intros Ht. unfold match_field. by rewrite !(decide_False (P := of_type field = IN_PORT)). Qed.

Lemma match_in_port field p f : of_type field = IN_PORT → read_int C_port field = p →
  match_field field p f = Ok (Some FlowMatchMask_IN_PORT).
Proof. intros Ht Hp. unfold match_field. rewrite decide_True by done. unfold hit. by rewrite bool_decide_true. Qed.

(** Dropping the matches of the input port changes nothing where they hold and are counted otherwise. *)
Lemma match_fields_drop fields lp q f acc : (∀ x, x ∈ fields → of_type x = IN_PORT → read_int C_port x = lp) →
  Z.lor acc FlowMatchMask_IN_PORT = acc ∨ (∃ x, x ∈ fields ∧ of_type x = IN_PORT) →
  match_fields (drop_types [IN_PORT] fields) q f (Z.lor acc FlowMatchMask_IN_PORT) = match_fields fields lp f acc.
Proof.
  revert acc. induction fields as [|x fields IH]; intros acc Hlp Hin; simpl.
  - destruct Hin as [->|(x&Hx&_)]; [done|set_solver].
  - unfold drop_types in *. rewrite filter_cons. destruct (decide (of_type x = IN_PORT)) as [Ht|Ht].
    + rewrite decide_False by set_solver. rewrite (match_in_port x lp) by first [done | apply Hlp; [left|done]].
      rewrite <- IH; [by rewrite <- Z.lor_assoc, Z.lor_diag|set_solver|]. left. by rewrite <- Z.lor_assoc, Z.lor_diag.
    + rewrite decide_True by set_solver. simpl. rewrite (match_field_port x q lp) by done.
      destruct (match_field x lp f) as [[m|]|e]; [|done|done].
      rewrite <- IH; [|set_solver|].
      * by rewrite <- !Z.lor_assoc, (Z.lor_comm _ m).
      * destruct Hin as [Hin|(y&Hy&Hty)]; [left|right; set_solver]. rewrite <- Z.lor_assoc, (Z.lor_comm m), Z.lor_assoc. by rewrite Hin.
Qed.

(** OUTPUT actions only change the port. *)
Lemma process_action_port o q a :
  match process_action (Outcome q (egress_frame o) (same_packet o)) a with
  | Ok o' => match process_action o a with
             | Ok o'' => egress_frame o' = egress_frame o'' ∧ same_packet o' = same_packet o''
             | Err _ => False
             end
  | Err e => process_action o a = Err e
  end.
Proof. destruct o as [q' f s]. unfold process_action. simpl. repeat case_match; simplify_eq; done. Qed.

Lemma run_actions_sent acts drop p q o : drop = [] ∨ drop = [OUTPUT] →
  run_actions (drop_action_types drop acts ++ [] ++ [output p]) (Outcome q (egress_frame o) (same_packet o)) =
  match run_actions acts o with Ok o => Ok (sent p o) | Err e => Err e end.
Proof.
  intros Hd. revert q o. unfold drop_action_types. induction acts as [|a acts IH]; intros q o.
  - destruct Hd as [-> | ->]; done.
  - rewrite filter_cons. destruct (decide (a_type a ∉ drop)) as [Hin|Hin].
    + cbn [app run_actions]. pose proof (process_action_port o q a) as Hp.
      destruct (process_action (Outcome q _ _) a) as [[q' f' s']|e]; [|by rewrite Hp].
      destruct (process_action o a) as [o'|]; [|done]. simpl in Hp. destruct Hp as [-> ->]. apply IH.
    + assert (a_type a = OUTPUT) as Ht.
      { destruct (decide (a_type a ∈ drop)) as [Hm|]; [|done]. destruct Hd as [-> | ->]; [by apply elem_of_nil in Hm|].
        by apply list_elem_of_singleton in Hm. }
      destruct o as [q' f s]. cbn [run_actions].
      assert (process_action (Outcome q' f s) a = Ok (Outcome (Some (action_output_port a)) f s)) as ->
        by (unfold process_action; by rewrite decide_True).
      exact (IH q (Outcome (Some (action_output_port a)) f s)).
Qed.

Section placed.
Context `{FlowDigest}.

(** The flow that a hop of a route is given *)
Definition placed (drop : list Z) (h : RouteHop) (g : ofp_flow_stats) : ofp_flow_stats :=
  match get_ofb_fields g, get_actions g with
  | Ok fields, Some acts => through_hop g fields acts [IN_PORT] drop [] h
  | _, _ => g
  end.

(** Flows for the logical port [lp] *)
Definition from_port (lp : Z) (g : ofp_flow_stats) : Prop :=
  ∃ fields acts, get_ofb_fields g = Ok fields ∧ get_actions g = Some acts ∧
    (∃ x, x ∈ fields ∧ of_type x = IN_PORT) ∧ ∀ x, x ∈ fields → of_type x = IN_PORT → read_int C_port x = lp.

Lemma placed_match drop h lp g f : from_port lp g →
  is_match (placed drop h g) (port_no (ingress_port h)) f = is_match g lp f.
Proof.
  intros (fields&acts&Hf&Ha&Hin&Hlp). unfold placed, is_match. rewrite Hf, Ha. unfold through_hop. rewrite mk_flow_stat_fields.
  cbn [match_fields]. rewrite match_in_port by done. apply (match_fields_drop fields lp _ f 0); [done|by right].
Qed.

Lemma placed_actions drop h lp g f : from_port lp g → drop = [] ∨ drop = [OUTPUT] →
  process_actions (placed drop h g) f =
  match process_actions g f with Ok o => Ok (sent (port_no (egress_port h)) o) | Err e => Err e end.
Proof.
  intros (fields&acts&Hf&Ha&_) Hd. unfold placed, process_actions, iter_actions. rewrite Hf, Ha. unfold through_hop.
  rewrite mk_flow_stat_actions. apply (run_actions_sent acts drop _ None (Outcome None f true) Hd).
Qed.

Lemma placed_best drop h lp T f o k hp : Forall (from_port lp) T →
  best_flow (placed drop h <$> T) (port_no (ingress_port h)) f (placed drop h <$> o) k hp =
  match best_flow T lp f o k hp with Ok r => Ok (placed drop h <$> r) | Err e => Err e end.
Proof.
  intros HT. revert o k hp. induction HT as [|g T Hg HT IH]; intros o k hp; csimpl; [done|].
  assert (fs_priority (placed drop h g) = fs_priority g) as Hp by (unfold placed; repeat case_match; done).
  rewrite Hp, (placed_match drop h lp) by done. destruct (is_match g lp f) as [m|e].
  - rewrite (bool_decide_ext _ (is_Some o ∧ fs_priority g < hp)) by (by rewrite fmap_is_Some).
    case_match; [done|]. case_match; [apply (IH (Some g))|apply IH].
  - rewrite (bool_decide_ext _ (is_Some o ∧ fs_priority g < hp)) by (by rewrite fmap_is_Some). by case_match.
Qed.

(** A device whose table is a logical table placed at its hop forwards as the logical table does. *)
Lemma placed_frame drop h lp T f : Forall (from_port lp) T → drop = [] ∨ drop = [OUTPUT] →
  process_frame (sort_flows (placed drop h <$> T)) (port_no (ingress_port h)) f =
  sent_frame (port_no (egress_port h)) (process_frame (sort_flows T) lp f).
Proof.
  intros HT Hd. rewrite sort_flows_map by (intros g; unfold placed; repeat case_match; done).
  assert (Forall (from_port lp) (sort_flows T)) as HT' by (by rewrite sort_flows_perm).
  unfold process_frame. rewrite (placed_best drop h lp _ f None) by done.
  destruct (best_flow (sort_flows T) lp f None 0 0) as [[g|]|e] eqn:Hb; [|done|done].
  assert (g ∈ sort_flows T) as Hg by (apply best_flow_in in Hb as [?|?]; done).
  csimpl. rewrite (placed_actions drop h lp) by first [done | by apply (proj1 (Forall_forall _ _) HT')].
  by destruct (process_actions g f).
Qed.

(** A frame that comes in by another port is not matched. *)
Lemma placed_other_port drop h lp T port f : Forall (from_port lp) T → port ≠ port_no (ingress_port h) →
  process_frame (sort_flows (placed drop h <$> T)) port f = Ok None.
Proof.
  intros HT Hp. assert (∀ g, from_port lp g → is_match (placed drop h g) port f = Ok 0) as Hm.
  { intros g (fields&acts&Hf&Ha&_). unfold is_match, placed. rewrite Hf, Ha. unfold through_hop. rewrite mk_flow_stat_fields.
    cbn [match_fields]. unfold match_field. rewrite decide_True by done. unfold hit. by rewrite bool_decide_false by (intros Heq; by apply Hp). }
  assert (∀ fl k, Forall (from_port lp) fl → best_flow (placed drop h <$> fl) port f None 0 k = Ok None) as Hb.
  { intros fl k Hfl. revert k. induction Hfl as [|g fl Hg Hfl IH]; intros k; csimpl; [done|]. rewrite Hm by done. apply IH. }
  unfold process_frame. rewrite sort_flows_map by (intros g; unfold placed; repeat case_match; done).
  by rewrite Hb by (by rewrite sort_flows_perm).
Qed.

(** Flows placed at a hop do not send frames back. *)
Lemma placed_hairpin_free drop h lp T d : Forall (from_port lp) T → drop = [] ∨ drop = [OUTPUT] →
  port_no (ingress_port h) ≠ port_no (egress_port h) →
  ∀ port f o, process_frame (flows (install_flows (placed drop h <$> T) d)) port f = Ok (Some o) → outcome_port o ≠ Some port.
Proof.
  intros HT Hd Hne port f o. change (flows _) with (sort_flows (placed drop h <$> T)).
  destruct (decide (port = port_no (ingress_port h))) as [->|Hp]; [|by rewrite (placed_other_port drop h lp)].
  rewrite (placed_frame drop h lp) by done. destruct (process_frame (sort_flows T) lp f) as [[o'|]|]; simpl; intros; simplify_eq/=. congruence.
Qed.
End placed.

(** ** The devices and their links *)
Section net.
Context {HO : DictOrder}.

Definition counting (x : sim_device) : Prop :=
  map_Forall (λ _ c, length (c_value c) = 2%nat) (rx_counters x) ∧
  map_Forall (λ _ c, length (c_value c) = 2%nat) (tx_counters x).

(** The links are those of the constructor, with any flows and counters. *)
Definition wired (onus : nat) (s : ponsim) : Prop :=
  (∀ p, links <$> devices s !! p = links <$> devices (mk_ponsim onus) !! p) ∧ map_Forall (λ _, counting) (devices s).

(** What frames do not change *)
Definition same_net (s s' : ponsim) : Prop :=
  (∀ p, (λ x, (links x, flows x)) <$> devices s' !! p = (λ x, (links x, flows x)) <$> devices s !! p) ∧
  (map_Forall (λ _, counting) (devices s) → map_Forall (λ _, counting) (devices s')).

#[export] Instance same_net_preorder : PreOrder same_net.
Proof.
  split; [by intros s|]. intros s1 s2 s3 [H1 K1] [H2 K2]. split; [|by auto]. intros p. by rewrite H2, H1.
Qed.

Lemma same_net_flows s s' p x : same_net s s' → devices s !! p = Some x →
  ∃ x', devices s' !! p = Some x' ∧ links x' = links x ∧ flows x' = flows x.
Proof.
  intros [Hs _] Hx. specialize (Hs p). rewrite Hx in Hs. destruct (devices s' !! p) as [x'|]; simplify_eq/=. by exists x'.
Qed.

Lemma same_net_wired onus s s' : same_net s s' → wired onus s → wired onus s'.
Proof.
  intros [Hs Hc] [Hw Hk]. split; [|by auto]. intros p. specialize (Hs p). rewrite <- Hw.
  destruct (devices s !! p), (devices s' !! p); simpl in *; congruence.
Qed.

Lemma bump_ok port v v' : bump port v = Ok v' → length v' = length v.
Proof. unfold bump. case_decide; intros [= <-]. apply length_alter. Qed.

Lemma count_frame_keeps port n cs cs' : count_frame port n cs = Ok cs' →
  map_Forall (λ _ c, length (c_value c) = 2%nat) cs → map_Forall (λ _ c, length (c_value c) = 2%nat) cs'.
Proof.
  unfold count_frame. destruct (list_find _ _) as [[i [k c]]|] eqn:Hf; [|by intros [= <-]].
  destruct (bump port (c_value c)) as [v|] eqn:Hb; intros [= <-] Hcs. apply map_Forall_insert_2; [|done]. simpl.
  rewrite (bump_ok _ _ _ Hb). apply list_find_Some in Hf as [Hi _]. apply list_elem_of_lookup_2, elem_of_iteritems in Hi. by apply Hcs in Hi.
Qed.

Lemma count_frame_total port n cs : port = 1 ∨ port = 2 → map_Forall (λ _ c, length (c_value c) = 2%nat) cs →
  ∃ cs', count_frame port n cs = Ok cs'.
Proof.
  intros Hp Hcs. unfold count_frame. destruct (list_find _ _) as [[i [k c]]|] eqn:Hf; [|eauto].
  apply list_find_Some in Hf as [Hi _]. apply list_elem_of_lookup_2, elem_of_iteritems in Hi. apply Hcs in Hi. unfold bump. rewrite Hi.
  destruct Hp as [-> | ->]; simpl; eauto.
Qed.

Lemma same_net_set d g s : (∀ x, links (g x) = links x ∧ flows (g x) = flows x) →
  (∀ x, devices s !! d = Some x → counting x → counting (g x)) →
  same_net s (s <| devices ::= alter g d |>).
Proof.
  intros Hg Hc. split; simpl.
  - intros p. destruct (decide (p = d)) as [->|Hp]; [|by rewrite lookup_alter_ne].
    rewrite lookup_alter_eq. destruct (devices s !! d) as [x|]; simpl; [|done]. by destruct (Hg x) as [-> ->].
  - intros Hk p y. destruct (decide (p = d)) as [->|Hp]; [|rewrite lookup_alter_ne by done; apply Hk].
    rewrite lookup_alter_eq. intros (x&Hx&->)%fmap_Some. eapply Hc; [done|]. by apply Hk in Hx.
Qed.

Lemma count_rx_run d port n s :
  (∃ e, count_rx_frame d port n s = (Err e, s) ∧ e ≠ OutOfFuel) ∨
  ∃ s', count_rx_frame d port n s = (Ok tt, s') ∧ same_net s s' ∧ egressed s' = egressed s.
Proof.
  unfold count_rx_frame, sim_device_at. unfold mbind, M_bind, gets, from_some, lift, mret, M_ret, raise. simpl.
  destruct (devices s !! d) as [x|] eqn:Hx; [|by left; eexists].
  destruct (count_frame port n (rx_counters x)) as [cs|e] eqn:Hc.
  - right. eexists. split; [done|]. split; [|done]. apply same_net_set; [done|]. rewrite Hx. intros ? [= <-] [Hr Ht].
    split; [by eapply count_frame_keeps|done].
  - left. eexists. split; [done|]. unfold count_frame, bump in Hc. repeat case_match; simplify_eq; done.
Qed.

Lemma count_tx_run d port n s :
  (∃ e, count_tx_frame d port n s = (Err e, s) ∧ e ≠ OutOfFuel) ∨
  ∃ s', count_tx_frame d port n s = (Ok tt, s') ∧ same_net s s' ∧ egressed s' = egressed s.
Proof.
  unfold count_tx_frame, sim_device_at. unfold mbind, M_bind, gets, from_some, lift, mret, M_ret, raise. simpl.
  destruct (devices s !! d) as [x|] eqn:Hx; [|by left; eexists].
  destruct (count_frame port n (tx_counters x)) as [cs|e] eqn:Hc.
  - right. eexists. split; [done|]. split; [|done]. apply same_net_set; [done|]. rewrite Hx. intros ? [= <-] [Hr Ht].
    split; [done|by eapply count_frame_keeps].
  - left. eexists. split; [done|]. unfold count_frame, bump in Hc. repeat case_match; simplify_eq; done.
Qed.

(** On the ports that are linked, counting a frame succeeds. *)
Lemma counts_total d port n s x : devices s !! d = Some x → counting x → port = 1 ∨ port = 2 →
  (∃ s', count_rx_frame d port n s = (Ok tt, s') ∧ same_net s s' ∧ egressed s' = egressed s) ∧
  (∃ s', count_tx_frame d port n s = (Ok tt, s') ∧ same_net s s' ∧ egressed s' = egressed s).
Proof.
  intros Hx [Hr Ht] Hp. destruct (count_frame_total port n _ Hp Hr) as [cr Hcr], (count_frame_total port n _ Hp Ht) as [ct Hct].
  split.
  - destruct (count_rx_run d port n s) as [(e&He&_)|?]; [|done]. exfalso. revert He.
    unfold count_rx_frame, sim_device_at, mbind, M_bind, gets, from_some, lift, mret, M_ret. by rewrite Hx, Hcr.
  - destruct (count_tx_run d port n s) as [(e&He&_)|?]; [|done]. exfalso. revert He.
    unfold count_tx_frame, sim_device_at, mbind, M_bind, gets, from_some, lift, mret, M_ret. by rewrite Hx, Hct.
Qed.

Lemma links_fold ports d q : links (foldl (λ d i, add_link 1 (ToOnu (128 + i)) d) d ports) !! q =
  if decide (q = 1 ∧ ports ≠ []) then Some (default [] (links d !! 1) ++ ((λ i, ToOnu (128 + i)) <$> ports)) else links d !! q.
Proof.
  revert d. induction ports as [|i ports IH]; intros d; [by rewrite decide_False by (intros []; done)|]. cbn [foldl]. rewrite IH. clear IH.
  unfold add_link. cbn [links update_field]. simpl. destruct (decide (q = 1)) as [->|Hq].
  - rewrite lookup_insert_eq. rewrite (decide_True (P := 1 = 1 ∧ i :: ports ≠ [])) by done. simpl.
    destruct ports; [by rewrite decide_False by (intros []; done)|]. rewrite decide_True by done. by rewrite <- app_assoc.
  - rewrite !decide_False by (intros []; done). by rewrite lookup_insert_ne.
Qed.

Lemma onu_port_inj ports : NoDup ports → NoDup ((λ i : Z, (128 + i, new_onu i)) <$> ports).*1.
Proof. intros Hp. rewrite <- list_fmap_compose. apply NoDup_fmap_2; [|done]. intros i j. simpl. lia. Qed.

Lemma nodup_ports n : NoDup (Z.of_nat <$> seq 0 n).
Proof. apply NoDup_fmap_2; [|apply NoDup_seq]. intros i j. lia. Qed.

Lemma device_cases onus p x : devices (mk_ponsim onus) !! p = Some x →
  p = 0 ∨ ∃ i, (i < onus)%nat ∧ p = 128 + Z.of_nat i ∧ x = new_onu (Z.of_nat i).
Proof.
  unfold mk_ponsim. cbn [devices]. rewrite lookup_insert_Some. intros [[<- _]|[_ Hx]]; [by left|right].
  apply elem_of_list_to_map_2, list_elem_of_fmap in Hx as (z&[= -> ->]&Hz). apply list_elem_of_fmap in Hz as (i&->&Hi).
  rewrite elem_of_seq in Hi. exists i. split_and!; [lia|done|done].
Qed.

Lemma onu_device onus (i : nat) : (i < onus)%nat →
  devices (mk_ponsim onus) !! (128 + Z.of_nat i) = Some (new_onu (Z.of_nat i)).
Proof.
  intros Hi. unfold mk_ponsim. cbn [devices]. rewrite lookup_insert_ne by lia.
  apply elem_of_list_to_map_1; [apply onu_port_inj, nodup_ports|]. apply list_elem_of_fmap. exists (Z.of_nat i).
  split; [done|]. apply list_elem_of_fmap. exists i. split; [done|]. apply elem_of_seq. lia.
Qed.

(** The links of the constructor: port 2 leads outside, port 1 over the PON to other devices. *)
Lemma initial_links onus p x : devices (mk_ponsim onus) !! p = Some x →
  links x !! 2 = Some [ToWorld p] ∧ (∀ q, is_Some (links x !! q) → q = 1 ∨ q = 2) ∧
  ∀ ls l, links x !! 1 = Some ls → l ∈ ls →
    ∃ p', is_Some (devices (mk_ponsim onus) !! p') ∧ (l = ToOlt ∧ p' = 0 ∨ l = ToOnu p').
Proof.
  intros Hx. destruct (device_cases _ _ _ Hx) as [->|(i&Hi&->&->)].
  - unfold mk_ponsim in Hx. cbn [devices] in Hx. rewrite lookup_insert_eq in Hx. injection Hx as <-.
    rewrite !links_fold. split_and!; [done| |].
    + intros q. rewrite links_fold. case_decide as Hq; [intros _; left; apply Hq|]. simpl.
      intros [ls Hls]. apply lookup_insert_Some in Hls as [[<- _]|[_ Hls]]; [by right|done].
    + intros ls l. case_decide as Hq; [|done]. intros [= <-] Hl. apply list_elem_of_fmap in Hl as (z&->&Hz).
      apply list_elem_of_fmap in Hz as (i&->&Hi). rewrite elem_of_seq in Hi. exists (128 + Z.of_nat i).
      split; [|by right]. rewrite onu_device by lia. eauto.
  - split_and!; [done| |].
    + intros q [ls Hls]. unfold new_onu, add_link in Hls. simpl in Hls. rewrite !lookup_insert_Some in Hls. naive_solver.
    + intros ls l Hls Hl. unfold new_onu, add_link in Hls. simpl in Hls. vm_compute in Hls. injection Hls as <-. apply list_elem_of_singleton in Hl as ->.
      exists 0. split; [|by left]. unfold mk_ponsim. cbn [devices]. rewrite lookup_insert_eq. eauto.
Qed.

Lemma wired_device onus s p x : wired onus s → devices s !! p = Some x →
  counting x ∧ links x !! 2 = Some [ToWorld p] ∧ (∀ q, is_Some (links x !! q) → q = 1 ∨ q = 2) ∧
  ∀ ls l, links x !! 1 = Some ls → l ∈ ls → ∃ p', is_Some (devices s !! p') ∧ (l = ToOlt ∧ p' = 0 ∨ l = ToOnu p').
Proof.
  intros [Hw Hc] Hx. split; [by apply Hc in Hx|]. pose proof (Hw p) as Hp. rewrite Hx in Hp.
  destruct (devices (mk_ponsim onus) !! p) as [y|] eqn:Hy; [|done]. injection Hp as Hp. destruct (initial_links _ _ _ Hy) as (H2&Hq&H1).
  rewrite Hp. split_and!; [done|done|]. intros ls l Hls Hl. destruct (H1 ls l Hls Hl) as (p'&[z Hz]&Hl'). exists p'. split; [|done].
  specialize (Hw p'). rewrite Hz in Hw. destruct (devices s !! p'); [eauto|done].
Qed.

Lemma mk_ponsim_wired onus : wired onus (mk_ponsim onus).
Proof.
  split; [done|]. intros p x Hx.
  assert (∀ d i, counting d → counting (add_link 1 (ToOnu (128 + i)) d)) as Hadd by done.
  assert (∀ ports d, counting d → counting (foldl (λ d i, add_link 1 (ToOnu (128 + i)) d) d ports)) as Hfold.
  { induction ports; intros d Hd; simpl; auto. }
  assert (∀ name port, counting (new_device name port)) as Hnew.
  { intros name port. split; intros k c Hc; apply elem_of_list_to_map_2, list_elem_of_fmap in Hc as (y&[= -> ->]&_); done. }
  destruct (device_cases _ _ _ Hx) as [->|(i&_&->&->)]; [|apply Hnew].
  unfold mk_ponsim in Hx. cbn [devices] in Hx. rewrite lookup_insert_eq in Hx. injection Hx as <-. apply Hfold, Hnew.
Qed.

(** ** Nesting *)
Definition carry (n : nat) (g : frame) (l : link) : M ponsim frame :=
  match l with
  | ToWorld p => _ ← modify (λ s, s <| egressed ::= λ e, e ++ [(p, g)] |>); mret g
  | ToOlt => ingress n 0 1 g
  | ToOnu p => ingress n p 1 g
  end.

(** What a device does with a frame once it is counted *)
Definition forward (n : nat) (d port : Z) (f : frame) : M ponsim frame :=
  x ← sim_device_at d;
  o ← lift (process_frame (flows x) port f);
  match o with
  | None => mret f
  | Some (Outcome out g same) =>
      match out ≫= λ p, links x !! p with
      | None => mret (if (same : bool) then g else f)
      | Some ls =>
          _ ← count_tx_frame d (default 0 out) (size_of (body g));
          g' ← foldM (carry n) g ls;
          mret (if (same : bool) then g' else f)
      end
  end.

Lemma ingress_S n d port f : ingress (S n) d port f = (_ ← count_rx_frame d port (size_of (body f)); forward n d port f).
Proof. done. Qed.

Lemma forward_run n d port f s x : devices s !! d = Some x → forward n d port f s =
  match process_frame (flows x) port f with
  | Ok None => (Ok f, s)
  | Ok (Some (Outcome out g same)) =>
      match out ≫= λ p, links x !! p with
      | None => (Ok (if (same : bool) then g else f), s)
      | Some ls =>
          (_ ← count_tx_frame d (default 0 out) (size_of (body g));
           g' ← foldM (carry n) g ls;
           mret (if (same : bool) then g' else f)) s
      end
  | Err e => (Err e, s)
  end.
Proof.
  intros Hx. unfold forward, sim_device_at. unfold mbind at 1. unfold M_bind at 1. unfold mbind at 1. unfold M_bind at 1.
  unfold gets, from_some. rewrite Hx. unfold mret at 1. unfold M_ret at 1. unfold mbind at 1. unfold M_bind at 1. unfold lift.
  destruct (process_frame (flows x) port f) as [[[out g same]|]|e]; [|done|done]. by destruct (out ≫= _).
Qed.

Lemma follows_foldM {A B} (g : A → B → M ponsim A) l a : (∀ a b, follows same_net (g a b)) → follows same_net (foldM g a l).
Proof.
  intros Hg. revert a. induction l as [|b l IH]; intros a; [apply follows_pure; [apply _|done]|].
  by apply follows_bind; [apply _|..].
Qed.

Lemma follows_count d port n : follows same_net (count_rx_frame d port n) ∧ follows same_net (count_tx_frame d port n).
Proof.
  split; intros s; [destruct (count_rx_run d port n s) as [(e&->&_)|(s'&->&?&_)]|destruct (count_tx_run d port n s) as [(e&->&_)|(s'&->&?&_)]];
    done.
Qed.

(** Frames change the counters and what left the simulator, nothing else. *)
Lemma ingress_follows n d port f : follows same_net (ingress n d port f).
Proof.
  revert d port f. induction n as [|n IH]; intros d port f; [by apply follows_pure; [apply _|]|]. rewrite ingress_S.
  unfold forward, sim_device_at. repeat first [apply follows_count | apply follows_foldM; intros ? []; cbn [carry] | apply IH | follows_gen ltac:(done)].
Qed.

(** No flow sends a frame back where it came from. *)
Definition hairpin_free (x : sim_device) : Prop :=
  ∀ port f o, process_frame (flows x) port f = Ok (Some o) → outcome_port o ≠ Some port.

Definition straight (onus : nat) (s : ponsim) : Prop := wired onus s ∧ map_Forall (λ _, hairpin_free) (devices s).

Lemma straight_keep onus s s' : same_net s s' → straight onus s → straight onus s'.
Proof.
  intros Hn [Hw Hh]. split; [by eapply same_net_wired|]. intros p x' Hx'. destruct Hn as [Hn _]. specialize (Hn p). rewrite Hx' in Hn.
  destruct (devices s !! p) as [x|] eqn:Hx; [|done]. injection Hn as _ Hf. apply Hh in Hx. unfold hairpin_free in *. by rewrite Hf.
Qed.

Lemma process_frame_exn fl port f e : process_frame fl port f = Err e → e ≠ OutOfFuel.
Proof.
  assert (∀ field e, match_field field port f = Err e → e ≠ OutOfFuel) as Hfield.
  { intros field e'. unfold match_field, hit. repeat case_match; intros; simplify_eq; done. }
  assert (∀ g e, is_match g port f = Err e → e ≠ OutOfFuel) as Hmatch.
  { intros g e'. unfold is_match. destruct (get_ofb_fields g) as [fields|e''] eqn:Hf.
    - clear Hf. generalize 0. induction fields as [|x fields IH]; intros acc; simpl; [done|].
      destruct (match_field x port f) as [[m|]|] eqn:Hm; [apply IH|done|]. intros [= ->]. by eapply Hfield.
    - intros [= ->]. by apply get_ofb_fields_exn in Hf as ->. }
  assert (∀ o k hp e, best_flow fl port f o k hp = Err e → e ≠ OutOfFuel) as Hbest.
  { induction fl as [|g fl IH]; intros o k hp e'; simpl; [done|]. case_match; [done|].
    destruct (is_match g port f) as [m|] eqn:Hm; [case_match; apply IH|]. intros [= ->]. by eapply Hmatch. }
  assert (∀ acts o e, run_actions acts o = Err e → e ≠ OutOfFuel) as Hrun.
  { induction acts as [|a acts IH]; intros o e'; simpl; [done|].
    destruct (process_action o a) as [o'|e''] eqn:Ha; [apply IH|]. intros [= <-]. revert Ha. destruct o as [q g b].
    unfold process_action, set_shim_field, with_shim. repeat case_match; intros; simplify_eq; done. }
  unfold process_frame. destruct (best_flow fl port f None 0 0) as [[g|]|e'] eqn:Hb; [|done|intros [= <-]; by eapply Hbest].
  unfold process_actions. destruct (iter_actions g) as [acts|e'] eqn:Ha.
  - destruct (run_actions acts _) eqn:Hr; [done|]. intros [= <-]. by eapply Hrun.
  - intros [= <-]. by apply iter_actions_exn in Ha as ->.
Qed.

Definition fueled {A} (r : result A * ponsim) : Prop := r.1 ≠ Err OutOfFuel.

(** A bind that agrees with another one and has enough fuel, step by step *)
Lemma bind_agree {A B} (m : M ponsim A) (k k' : A → M ponsim B) s : fueled (m s) →
  (∀ a s', m s = (Ok a, s') → k a s' = k' a s' ∧ fueled (k' a s')) →
  (m ≫= k) s = (m ≫= k') s ∧ fueled ((m ≫= k') s).
Proof.
  intros Hm Hk. unfold mbind, M_bind. destruct (m s) as [[a|e] s'] eqn:He; [by apply Hk|]. split; [done|].
  unfold fueled in *. simpl in *. congruence.
Qed.

Lemma count_rx_fueled d port n s : fueled (count_rx_frame d port n s).
Proof. destruct (count_rx_run d port n s) as [(e&->&He)|(s'&->&_)]; unfold fueled; simpl; congruence. Qed.
Lemma count_tx_fueled d port n s : fueled (count_tx_frame d port n s).
Proof. destruct (count_tx_run d port n s) as [(e&->&He)|(s'&->&_)]; unfold fueled; simpl; congruence. Qed.

(** The links of a port make [carry n] and [carry m] agree. *)
Lemma fold_carry onus n m ls g s : straight onus s →
  (∀ l g s, l ∈ ls → straight onus s → carry n g l s = carry m g l s ∧ fueled (carry m g l s)) →
  foldM (carry n) g ls s = foldM (carry m) g ls s ∧ fueled (foldM (carry m) g ls s).
Proof.
  revert g s. induction ls as [|l ls IH]; intros g s Hs Hl; [done|]. cbn [foldM].
  destruct (Hl l g s ltac:(left) Hs) as [He Hf]. unfold mbind at 1. unfold M_bind at 1. rewrite He.
  change (match carry m g l s with (Ok a, s') => foldM (carry n) a ls s' | (Err e, s') => (Err e, s') end)
    with ((carry m g l ≫= λ a, foldM (carry n) a ls) s).
  apply bind_agree; [done|]. intros a s' Hc. apply IH; [|by intros; apply Hl; [right|]].
  eapply straight_keep; [|exact Hs]. rewrite <- He in Hc.
  assert (s' = (carry n g l s).2) as -> by (by rewrite Hc). destruct l; [done|apply ingress_follows|apply ingress_follows].
Qed.

(** Two depths agree on a device that passes frames only to links on which they agree. *)
Lemma ingress_agree onus n m d port f s : straight onus s →
  (∀ x p ls l g s', devices s !! d = Some x → p ≠ port → links x !! p = Some ls → l ∈ ls → straight onus s' →
     carry n g l s' = carry m g l s' ∧ fueled (carry m g l s')) →
  ingress (S n) d port f s = ingress (S m) d port f s ∧ fueled (ingress (S m) d port f s).
Proof.
  intros Hs Hl. rewrite !ingress_S. apply bind_agree; [apply count_rx_fueled|]. intros [] s1 H1.
  assert (same_net s s1) as Hn1.
  { pose proof (proj1 (follows_count d port (size_of (body f))) s) as Hn. by rewrite H1 in Hn. }
  pose proof (straight_keep _ _ _ Hn1 Hs) as Hs1. destruct (devices s !! d) as [x|] eqn:Hx; cycle 1.
  { unfold count_rx_frame, sim_device_at, mbind, M_bind, gets in H1. simpl in H1. by rewrite Hx in H1. }
  destruct (same_net_flows _ _ _ _ Hn1 Hx) as (x1&Hx1&Hl1&Hf1). rewrite !(forward_run _ _ _ _ _ _ Hx1).
  destruct (process_frame (flows x1) port f) as [[[out g same]|]|e] eqn:Hp; [|done|].
  - destruct out as [p|]; [|done]. simpl. destruct (links x1 !! p) as [ls|] eqn:Hls; [|done].
    apply bind_agree; [apply count_tx_fueled|]. intros [] s2 H2. assert (straight onus s2) as Hs2.
    { eapply straight_keep; [|exact Hs1]. pose proof (proj2 (follows_count d p (size_of (body g))) s1) as Hn. by rewrite H2 in Hn. }
    destruct (fold_carry onus n m ls g s2 Hs2) as [He Hfu].
    { intros l g' s' Hin Hs'. rewrite Hl1 in Hls. eapply (Hl x p ls l); [done| |done|done|done].
      intros ->. by apply (proj2 Hs1 d x1 Hx1 port f _ Hp). }
    unfold mbind at 1. unfold M_bind at 1. rewrite He. by apply (bind_agree (foldM (carry m) g ls)).
  - split; [done|]. intros [= ->]. by apply process_frame_exn in Hp.
Qed.

(** A frame that came over the PON can only leave for the outside. *)
Lemma leaf_agree onus n p f s : straight onus s → ingress (S n) p 1 f s = ingress 1 p 1 f s ∧ fueled (ingress 1 p 1 f s).
Proof.
  intros Hs. apply (ingress_agree onus); [done|]. intros x q ls l g s' Hx Hq Hls Hl _.
  destruct (wired_device onus s p x (proj1 Hs) Hx) as (_&H2&Hdom&_). destruct (Hdom q) as [-> | ->]; [eauto|done|].
  rewrite H2 in Hls. injection Hls as <-. by apply list_elem_of_singleton in Hl as ->.
Qed.

(** Frames do not circulate in the simulator: as long as no flow sends a frame out of the port
    it came in on, a frame from the outside passes at most two devices, so the depth 2 of the model
    is enough, every larger depth gives the same run, and the call returns or raises an
    error of its own. *)
Theorem nesting_bounded onus s p f n (Hs : straight onus s) :
  sim_ingress (2 + n) p f s = sim_ingress 2 p f s ∧ (sim_ingress 2 p f s).1 ≠ Err OutOfFuel.
Proof.
  assert (ingress (2 + n) p 2 f s = ingress 2 p 2 f s ∧ fueled (ingress 2 p 2 f s)) as [He Hf].
  { apply (ingress_agree onus); [done|]. intros x q ls l g s' Hx Hq Hls Hl Hs'. destruct l; [done|by eapply leaf_agree|by eapply leaf_agree]. }
  unfold sim_ingress. unfold mbind at 1. unfold M_bind at 1. rewrite He. by apply (bind_agree (ingress 2 p 2 f)).
Qed.
End net.

(** ** The upstream pipeline

    Flows of the first table of the logical switch, which go to the second, and
    flows of the second, which leave by the network port *)
Definition pipeline (T1 T2 : list ofp_flow_stats) (lp : Z) (f : frame) : result (option frame) :=
  match process_frame (sort_flows T1) lp f with
  | Ok (Some o) =>
      match process_frame (sort_flows T2) lp (egress_frame o) with
      | Ok (Some o) => Ok (Some (egress_frame o))
      | Ok None => Ok None
      | Err e => Err e
      end
  | Ok None => Ok None
  | Err e => Err e
  end.

Section qinq.
Context `{FlowDigest} {HO : DictOrder} {St : Type} {ops : FlowDecomposerOps St}.
Context (lp nni : Z) (ih eh : RouteHop).

Definition goto_flow (g : ofp_flow_stats) : Prop :=
  from_port lp g ∧ get_out_port g = Ok None ∧ has_next_table g = true.
Definition exit_flow (g : ofp_flow_stats) : Prop :=
  from_port lp g ∧ get_out_port g = Ok (Some nni) ∧ has_next_table g = false.

Lemma from_port_in g : from_port lp g → get_in_port g = Ok (Some lp).
Proof.
  intros (fields&acts&Hf&_&(x&Hx&Ht)&Hlp). unfold get_in_port. rewrite Hf. f_equal.
  assert (x ∈ filter (λ f, of_type f = IN_PORT) fields) as Hin by (by apply list_elem_of_filter).
  destruct (filter _ fields) as [|y l] eqn:Hl; [by apply elem_of_nil in Hin|]. simpl. f_equal.
  assert (y ∈ filter (λ f, of_type f = IN_PORT) fields) as Hy by (rewrite Hl; left).
  apply list_elem_of_filter in Hy as [Hy Hyin]. by apply Hlp.
Qed.

Context (Hup : d_root (device ih) = false) (Hctl : is_controller_port (Some nni) = false).
Context (st : St) (oh : option RouteHop).
Context (Hhalf : get_route (Some lp) None st = (Ok (Some [Some ih; oh]), st)).
Context (Hfull : get_route (Some lp) (Some nni) st = (Ok (Some [Some ih; Some eh]), st)).

(** The first flow of a pair goes to the device where the route enters, the second to the one where it leaves. *)
Lemma goto_placed g gm : goto_flow g → decompose_flow g gm st = (Ok {[d_id (device ih) := ([placed [] ih g], [])]}, st).
Proof.
  intros (Hg&Hout&Hn). pose proof (from_port_in g Hg) as Hin. destruct Hg as (fields&acts&Hf&Ha&_).
  unfold decompose_flow, placed. rewrite Hin, Hout, Hf, Ha. do 2 mstep. erewrite bind_ok by exact Hhalf. simpl.
  mstep. rewrite Hup. unfold upstream, iter_actions. rewrite Hn, Hf, Ha. rewrite bool_decide_true by done.
  unfold mbind, M_bind. simpl. unfold append_flow. by rewrite lookup_empty.
Qed.

Lemma exit_placed g gm : exit_flow g →
  decompose_flow g gm st = (Ok {[d_id (device eh) := ([placed [OUTPUT] eh g], [])]}, st).
Proof.
  intros (Hg&Hout&Hn). pose proof (from_port_in g Hg) as Hin. destruct Hg as (fields&acts&Hf&Ha&_).
  unfold decompose_flow, placed. rewrite Hin, Hout, Hf, Ha. do 2 mstep. erewrite bind_ok by exact Hfull. rewrite Hctl.
  mstep. rewrite Hup. unfold upstream, iter_actions. rewrite Hn, Hf, Ha. rewrite bool_decide_true by done.
  unfold mbind, M_bind. simpl. unfold append_flow. by rewrite lookup_empty.
Qed.

Lemma pair_tables T1 T2 gm : Forall goto_flow T1 → Forall exit_flow T2 →
  decompose_flows gm (T1 ++ T2) st =
    (Ok (((λ g, {[d_id (device ih) := ([placed [] ih g], [])]}) <$> T1) ++
         ((λ g, {[d_id (device eh) := ([placed [OUTPUT] eh g], [])]}) <$> T2)), st).
Proof.
  intros H1 H2. unfold decompose_flows. induction H1 as [|g T1 Hg H1 IH]; csimpl.
  - induction H2 as [|g T2 Hg H2 IH]; csimpl; [done|]. erewrite bind_ok by (by apply exit_placed). by erewrite bind_ok.
  - erewrite bind_ok by (by apply goto_placed). by erewrite bind_ok.
Qed.

Lemma flows_for_other dev dev' (φ : ofp_flow_stats → ofp_flow_stats) T : dev ≠ dev' →
  concat (flows_for dev <$> ((λ g, ({[dev' := ([φ g], [])]} : flow_rules)) <$> T)) = [].
Proof. intros Hd. induction T as [|g T IH]; csimpl; [done|]. rewrite IH. unfold flows_for. by rewrite lookup_singleton_ne. Qed.

Lemma flows_for_same dev (φ : ofp_flow_stats → ofp_flow_stats) T :
  concat (flows_for dev <$> ((λ g, ({[dev := ([φ g], [])]} : flow_rules)) <$> T)) = φ <$> T.
Proof. induction T as [|g T IH]; csimpl; [done|]. rewrite IH. unfold flows_for. by rewrite lookup_singleton_eq. Qed.
End qinq.

Section run.
Context {HO : DictOrder}.

(** A device without links to others sends a frame outside. *)
Lemma ingress_exit onus n d port f s x g same : wired onus s → devices s !! d = Some x → port = 1 ∨ port = 2 →
  process_frame (flows x) port f = Ok (Some (Outcome (Some 2) g same)) →
  ∃ f' s', ingress (S n) d port f s = (Ok f', s') ∧ wired onus s' ∧ egressed s' = egressed s ++ [(d, g)].
Proof.
  intros Hw Hx Hport Hp. destruct (wired_device _ _ _ _ Hw Hx) as (Hc&H2&_).
  destruct (counts_total d port (size_of (body f)) s x Hx Hc Hport) as [(s1&Hrx&Hn1&He1) _]. rewrite ingress_S.
  erewrite bind_ok by exact Hrx. destruct (same_net_flows _ _ _ _ Hn1 Hx) as (x1&Hx1&Hl1&Hf1).
  rewrite (forward_run _ _ _ _ _ _ Hx1), Hf1, Hp, Hl1. simpl. rewrite H2.
  pose proof (same_net_wired _ _ _ Hn1 Hw) as Hw1. destruct (wired_device _ _ _ _ Hw1 Hx1) as (Hc1&_).
  destruct (counts_total d 2 (size_of (body g)) s1 x1 Hx1 Hc1 ltac:(by right)) as [_ (s2&Htx&Hn2&He2)].
  erewrite bind_ok by exact Htx. eexists _, _. split; [done|]. split; [by apply (same_net_wired _ s1)|]. simpl. by rewrite He2, He1.
Qed.

(** A device that has no answer leaves the simulator as it is, but for the counters. *)
Lemma ingress_stop onus n d port f s x r : wired onus s → devices s !! d = Some x → port = 1 ∨ port = 2 →
  process_frame (flows x) port f = r → (r = Ok None ∨ ∃ e, r = Err e) →
  ∃ s', ingress (S n) d port f s = (match r with Err e => Err e | Ok _ => Ok f end, s') ∧ wired onus s' ∧ egressed s' = egressed s.
Proof.
  intros Hw Hx Hport Hp Hr. destruct (wired_device _ _ _ _ Hw Hx) as (Hc&_).
  destruct (counts_total d port (size_of (body f)) s x Hx Hc Hport) as [(s1&Hrx&Hn1&He1) _]. rewrite ingress_S.
  erewrite bind_ok by exact Hrx. destruct (same_net_flows _ _ _ _ Hn1 Hx) as (x1&Hx1&Hl1&Hf1).
  rewrite (forward_run _ _ _ _ _ _ Hx1), Hf1, Hp. exists s1.
  split; [by destruct Hr as [->|(e&->)]|]. split; [by eapply same_net_wired|done].
Qed.

(** An ONU sends a frame to the OLT. *)
Lemma ingress_pass onus n (i : nat) f s x g same : wired onus s → (i < onus)%nat → devices s !! (128 + Z.of_nat i) = Some x →
  process_frame (flows x) 2 f = Ok (Some (Outcome (Some 1) g same)) →
  ∃ s1, same_net s s1 ∧ egressed s1 = egressed s ∧
    ∀ r s', ingress n 0 1 g s1 = (r, s') →
      ∃ r', ingress (S n) (128 + Z.of_nat i) 2 f s = (r', s') ∧ match r with Ok _ => ∃ f', r' = Ok f' | Err e => r' = Err e end.
Proof.
  intros Hw Hi Hx Hp. destruct (wired_device _ _ _ _ Hw Hx) as (Hc&_).
  destruct (counts_total _ 2 (size_of (body f)) s x Hx Hc ltac:(by right)) as [(s1&Hrx&Hn1&He1) _].
  destruct (same_net_flows _ _ _ _ Hn1 Hx) as (x1&Hx1&Hl1&Hf1).
  pose proof (same_net_wired _ _ _ Hn1 Hw) as Hw1. destruct (wired_device _ _ _ _ Hw1 Hx1) as (Hc1&_).
  destruct (counts_total _ 1 (size_of (body g)) s1 x1 Hx1 Hc1 ltac:(by left)) as [_ (s2&Htx&Hn2&He2)].
  exists s2. split; [by etrans|]. split; [congruence|]. intros r s' Hr. rewrite ingress_S. erewrite bind_ok by exact Hrx.
  rewrite (forward_run _ _ _ _ _ _ Hx1), Hf1, Hp. simpl.
  assert (links x1 !! 1 = Some [ToOlt]) as ->.
  { pose proof (proj1 Hw (128 + Z.of_nat i)) as Hlk. rewrite Hx, onu_device in Hlk by done. injection Hlk as Hlk. by rewrite Hl1, Hlk. }
  erewrite bind_ok by exact Htx. cbn [foldM carry]. destruct r as [f'|e].
  - erewrite bind_ok by (erewrite bind_ok by exact Hr; done). eexists. split; [done|]. eauto.
  - erewrite bind_err by (by erewrite bind_err by exact Hr). eauto.
Qed.

Lemma install_wired onus s p fl : wired onus s → wired onus (s <| devices ::= alter (install_flows fl) p |>).
Proof.
  intros [Hw Hc]. split; simpl.
  - intros q. rewrite <- Hw. destruct (decide (q = p)) as [->|Hq]; [|by rewrite lookup_alter_ne].
    rewrite lookup_alter_eq. by destruct (devices s !! p).
  - intros q y. destruct (decide (q = p)) as [->|Hq]; [|rewrite lookup_alter_ne by done; apply Hc].
    rewrite lookup_alter_eq. intros (x&Hx&->)%fmap_Some. by apply Hc in Hx.
Qed.

Lemma straight_install onus s p fl : straight onus s → (∀ d, hairpin_free (install_flows fl d)) →
  straight onus (s <| devices ::= alter (install_flows fl) p |>).
Proof.
  intros [Hw Hh] Hfl. split; [by apply install_wired|]. intros q y. simpl.
  destruct (decide (q = p)) as [->|Hq]; [|rewrite lookup_alter_ne by done; apply Hh].
  rewrite lookup_alter_eq. intros (x&Hx&->)%fmap_Some. apply Hfl.
Qed.

Lemma mk_ponsim_straight onus : straight onus (mk_ponsim onus).
Proof.
  split; [apply mk_ponsim_wired|]. intros p x Hx. assert (flows x = []) as Hf; [|intros port f o; by rewrite Hf].
  destruct (device_cases _ _ _ Hx) as [->|(i&_&->&->)]; [|done]. unfold mk_ponsim in Hx. cbn [devices] in Hx.
  rewrite lookup_insert_eq in Hx. injection Hx as <-. generalize (Z.of_nat <$> seq 0 onus).
  assert (flows (add_link 2 (ToWorld 0) (new_device "olt" 0)) = []) as H0 by done. revert H0.
  generalize (add_link 2 (ToWorld 0) (new_device "olt" 0)). intros d Hd l. revert d Hd. induction l; intros d Hd; simpl; auto.
Qed.
End run.

Section refinement.
Context `{FlowDigest} `{ShortestPath} {HO : DictOrder}.

(** The flows decomposed for a device *)
Definition flows_of (h : RouteHop) (rs : list flow_rules) : list ofp_flow_stats := concat (flows_for (d_id (device h)) <$> rs).

Definition install_and_send (onu_port : Z) (onu_flows olt_flows : list ofp_flow_stats) (f : frame) : M ponsim unit :=
  _ ← onu_install_flows onu_port onu_flows;
  _ ← olt_install_flows olt_flows;
  sim_ingress 2 onu_port f.

Lemma send_pipeline onus s (i : nat) lp ih eh T1 T2 f :
  wired onus s → (i < onus)%nat → Forall (from_port lp) T1 → Forall (from_port lp) T2 →
  port_no (ingress_port ih) = 2 → port_no (egress_port ih) = 1 → port_no (ingress_port eh) = 1 → port_no (egress_port eh) = 2 →
  ∃ s', wired onus s' ∧
    install_and_send (128 + Z.of_nat i) (placed [] ih <$> T1) (placed [OUTPUT] eh <$> T2) f s =
      (match pipeline T1 T2 lp f with Ok _ => Ok tt | Err e => Err e end, s') ∧
    egressed s' = egressed s ++ match pipeline T1 T2 lp f with Ok (Some g) => [(0, g)] | _ => [] end.
Proof.
  intros Hw Hi HT1 HT2 Hih1 Hih2 Heh1 Heh2. pose (onu := 128 + Z.of_nat i).
  assert (∀ p, is_Some (devices (mk_ponsim onus) !! p) → ∃ x, devices s !! p = Some x) as Hdev.
  { intros p [y Hy]. pose proof (proj1 Hw p) as Hp. rewrite Hy in Hp. destruct (devices s !! p); [eauto|done]. }
  destruct (Hdev onu) as [x Hx]; [unfold onu; rewrite onu_device by done; eauto|].
  destruct (Hdev 0) as [o Ho]; [unfold mk_ponsim; cbn [devices]; rewrite lookup_insert_eq; eauto|].
  unfold install_and_send, onu_install_flows, olt_install_flows, sim_device_at.
  assert (∀ (k : unit → M ponsim unit) fl,
    ((_ ← (ds ← gets devices; from_some KeyError (ds !! onu)); set_device onu (install_flows fl)) ≫= k) s =
      k tt (s <| devices ::= alter (install_flows fl) onu |>)) as Hinst.
  { intros k fl. unfold mbind, M_bind, gets, from_some. by rewrite Hx. }
  fold onu. rewrite Hinst. erewrite bind_ok by done. clear Hinst.
  set (s0 := _ <| devices ::= alter (install_flows (placed [OUTPUT] eh <$> T2)) 0 |>).
  assert (wired onus s0) as Hw0 by (by apply install_wired, install_wired).
  assert (devices s0 !! onu = Some (install_flows (placed [] ih <$> T1) x)) as Hx0.
  { unfold s0. simpl. rewrite lookup_alter_ne by (unfold onu; lia). rewrite lookup_alter_eq. by rewrite Hx. }
  assert (devices s0 !! 0 = Some (install_flows (placed [OUTPUT] eh <$> T2) o)) as Ho0.
  { unfold s0. simpl. rewrite lookup_alter_eq, lookup_alter_ne by (unfold onu; lia). by rewrite Ho. }
  pose proof (placed_frame [] ih lp T1 f HT1 ltac:(by left)) as H1. rewrite Hih1, Hih2 in H1.
  change (egressed s) with (egressed s0). unfold pipeline, sim_ingress.
  destruct (process_frame (sort_flows T1) lp f) as [[[q g b]|]|e]; simpl in H1.
  - destruct (ingress_pass onus 1 i f s0 _ _ _ Hw0 Hi Hx0 H1) as (s1&Hn1&He1&Hcont).
    pose proof (placed_frame [OUTPUT] eh lp T2 g HT2 ltac:(by right)) as H2. rewrite Heh1, Heh2 in H2.
    pose proof (same_net_wired _ _ _ Hn1 Hw0) as Hw1. destruct (same_net_flows _ _ _ _ Hn1 Ho0) as (o1&Ho1&_&Hf1). simpl in Hf1.
    rewrite <- Hf1 in H2. simpl.
    destruct (process_frame (sort_flows T2) lp g) as [[[q2 g2 b2]|]|e]; simpl in H2.
    + destruct (ingress_exit onus 0 0 1 g s1 o1 _ _ Hw1 Ho1 ltac:(by left) H2) as (f'&s'&Hr&Hw'&He').
      destruct (Hcont _ _ Hr) as (r'&Hr'&f''&->). exists s'. split; [done|]. split; [by erewrite bind_ok by exact Hr'|]. by rewrite He', He1.
    + destruct (ingress_stop onus 0 0 1 g s1 o1 _ Hw1 Ho1 ltac:(by left) H2 ltac:(by left)) as (s'&Hr&Hw'&He').
      destruct (Hcont _ _ Hr) as (r'&Hr'&f''&->). exists s'. split; [done|]. split; [by erewrite bind_ok by exact Hr'|].
      by rewrite He', He1, app_nil_r.
    + destruct (ingress_stop onus 0 0 1 g s1 o1 _ Hw1 Ho1 ltac:(by left) H2 ltac:(by right; eexists)) as (s'&Hr&Hw'&He').
      destruct (Hcont _ _ Hr) as (r'&Hr'&->). exists s'. split; [done|]. split; [by erewrite bind_err by exact Hr'|].
      by rewrite He', He1, app_nil_r.
  - destruct (ingress_stop onus 1 onu 2 f s0 _ _ Hw0 Hx0 ltac:(by right) H1 ltac:(by left)) as (s'&Hr&Hw'&He').
    exists s'. split; [done|]. split; [by erewrite bind_ok by exact Hr|]. by rewrite He', app_nil_r.
  - destruct (ingress_stop onus 1 onu 2 f s0 _ _ Hw0 Hx0 ltac:(by right) H1 ltac:(by right; eexists)) as (s'&Hr&Hw'&He').
    exists s'. split; [done|]. split; [by erewrite bind_err by exact Hr|]. by rewrite He', app_nil_r.
Qed.

(** What the logical device agent answers for a logical port whose only cached route is the one to
    the network port: the whole route when asked for it, its first hop when no output is given. *)
Lemma agent_upstream_routes (lp nni : Z) (ih eh : RouteHop) (routes : routes_map) (st : lda) :
  c_routes (ca st) = Some routes → routes !! (lp, nni) = Some (ih, eh) →
  (∀ e, is_Some (routes !! (lp, e)) → e = nni) → is_controller_port (Some nni) = false →
  agent_get_route (Some lp) None st = (Ok (Some [Some ih; None]), st) ∧
  agent_get_route (Some lp) (Some nni) st = (Ok (Some [Some ih; Some eh]), st).
Proof.
  intros Hc Hr Honly Hctl.
  assert (assure_cached_tables_up_to_date st = (Ok tt, st)) as Ha.
  { unfold assure_cached_tables_up_to_date, mbind, M_bind, gets. by rewrite Hc. }
  split; unfold agent_get_route; erewrite bind_ok by exact Ha.
  - unfold mbind, M_bind, gets. simpl. rewrite Hc. simpl.
    destruct (head _) as [[[l e] [ih' eh']]|] eqn:Hh.
    + apply hd_filter_Some in Hh as [Hin%elem_of_iteritems [= ->]].
      rewrite (Honly e) in Hin by (by eexists). by rewrite Hr in Hin; injection Hin as -> ->.
    + exfalso. assert (((lp, nni), (ih, eh)) ∈ filter (λ kv : Z * Z * (RouteHop * RouteHop), Some kv.1.1 = Some lp) (iteritems routes)) as Hin
        by (apply list_elem_of_filter; split; [done|by apply elem_of_iteritems]).
      destruct (filter _ _); [by apply elem_of_nil in Hin|done].
  - rewrite Hctl. unfold mbind, M_bind, gets. simpl. rewrite Hc. simpl. by rewrite Hr.
Qed.

(** C5 The treatment of upstream Q-in-Q is right on the simulated devices: when the logical device
    agent has cached a route from a logical port over an ONU and the OLT to the network port, and
    no other route from that port, the flows of the port that go to the next table are decomposed
    for the ONU, the flows that output to the network port for the OLT, and when these are
    installed, a frame that enters at the ONU leaves the OLT's network port exactly as the two
    logical tables, one after the other, make it, is dropped when they drop it, and fails when they
    fail; nothing leaves elsewhere. *)
Theorem qinq_refines (upd : list ofp_flow_stats → M lda unit) (onus : nat) (s : ponsim) (i : nat) (lp nni : Z) (ih eh : RouteHop) (routes : routes_map)
    (T1 T2 : list ofp_flow_stats) (gm : gmap Z ofp_group_entry) (st : lda)
    (Hw : wired onus s) (Hi : (i < onus)%nat)
    (Hwarm : c_routes (ca st) = Some routes)
    (Hroute : routes !! (lp, nni) = Some (ih, eh))
    (Honly : ∀ e, is_Some (routes !! (lp, e)) → e = nni)
    (Hih : port_no (ingress_port ih) = 2 ∧ port_no (egress_port ih) = 1)
    (Heh : port_no (ingress_port eh) = 1 ∧ port_no (egress_port eh) = 2)
    (Hids : d_id (device ih) ≠ d_id (device eh)) (Hup : d_root (device ih) = false)
    (Hctl : is_controller_port (Some nni) = false)
    (H1 : Forall (goto_flow lp) T1) (H2 : Forall (exit_flow lp nni) T2) :
  ∃ rs, @decompose_flows _ lda (agent_ops upd) gm (T1 ++ T2) st = (Ok rs, st) ∧
    ∀ f, ∃ s', wired onus s' ∧
      install_and_send (128 + Z.of_nat i) (flows_of ih rs) (flows_of eh rs) f s =
        (match pipeline T1 T2 lp f with Ok _ => Ok tt | Err e => Err e end, s') ∧
      egressed s' = egressed s ++ match pipeline T1 T2 lp f with Ok (Some g) => [(0, g)] | _ => [] end.
Proof.
  destruct (agent_upstream_routes lp nni ih eh routes st Hwarm Hroute Honly Hctl) as [Hhalf Hfull].
  eexists. split; [by eapply (pair_tables (ops := agent_ops upd) lp nni ih eh Hup Hctl st None Hhalf Hfull)|].
  intros f. unfold flows_of. rewrite !fmap_app, !concat_app.
  rewrite (flows_for_other (d_id (device ih)) (d_id (device eh))), (flows_for_other (d_id (device eh)) (d_id (device ih))) by done.
  rewrite !flows_for_same, app_nil_r. apply send_pipeline; try done; try tauto.
  - eapply Forall_impl; [exact H1|]. by intros g [? _].
  - eapply Forall_impl; [exact H2|]. by intros g [? _].
Qed.
End refinement.
