(* ===== verification/PonSimSample.v ===== *)
(** * A simulated network

    Two ONUs with the Q-in-Q flows of a subscriber: witnesses of the theorems of
    PonSimProofs.v, and runs that show what the simulator does where a reader of
    ponsim.py may expect something else. *)
From S2P Require Import Prelude OpenFlow Devices Sample FlowDecomposer DeviceGraph LogicalDeviceAgent PonSim PonSimProofs.
From Stdlib Require Import ZArith Lia.
From stdpp Require Import base gmap strings list.

Local Open Scope Z_scope.

#[local] Instance sim_digest : FlowDigest := sample_digest.
#[local] Instance sim_order : DictOrder := plain_order.
#[local] Instance sim_path : ShortestPath := ref_path.

(** ** A subscriber *)
Definition sim_nni : Port := sample_port 2 PortType.ETHERNET_NNI "olt" [].
Definition sim_up_olt : RouteHop := MkRouteHop olt olt_pon sim_nni.

Definition goto_pair : ofp_flow_stats :=
  flow_stats_entry_from_flow_mod_message
    (mk_simple_flow_mod [in_port 101; vlan_vid 0] [push_vlan 0x8100; set_field (vlan_vid 0x1064)] OFPFC_ADD (Some 1) (kw 500 1)).
Definition exit_pair : ofp_flow_stats :=
  mk_flow_stat 500 2 [in_port 101; vlan_vid 0x1064] [push_vlan 0x8100; set_field (vlan_vid 0x13e8); output 0].

(** The agent of the logical device over the two devices, after a first request for a route *)
Definition sim_tree : tree :=
  Tree [] [] [MkLogicalPort "nni" (sample_ofp_port 0 "nni") "olt" 2 true; uni_lp] "olt"
    {[ "olt" := (olt, [sim_nni; olt_pon]); "onu" := (onu, [onu_pon; onu_uni]) ]} ∅ ∅.
Definition sim_agent : lda := (agent_get_route (Some 101) None (init sim_tree)).2.
Definition sim_routes : routes_map := default ∅ (c_routes (ca sim_agent)).

Definition untagged : frame := Ether "a" "b" 0x0800 (Data (Some (IP 17 "10.0.0.1")) (Some (UDP 68 67)) 100).
Definition double_tagged : frame :=
  Ether "a" "b" 0x8100 (Shim (Dot1Q 0 0 1000 0x8100) (Shim (Dot1Q 0 0 100 0x0800) (body untagged))).

Lemma goto_pair_ok : goto_flow 101 goto_pair.
Proof.
  split; [|done]. eexists _, _. split; [done|]. split; [done|]. split; [exists (in_port 101); split; [left|done]|].
  intros x Hx. rewrite !elem_of_cons, elem_of_nil in Hx. by destruct Hx as [-> | [-> | []]].
Qed.

Lemma exit_pair_ok : exit_flow 101 0 exit_pair.
Proof.
  split; [|done]. eexists _, _. split; [done|]. split; [done|]. split; [exists (in_port 101); split; [left|done]|].
  intros x Hx. rewrite !elem_of_cons, elem_of_nil in Hx. by destruct Hx as [-> | [-> | []]].
Qed.

(** The two tables put two tags on an untagged frame. *)
Example pair_tags : pipeline [goto_pair] [exit_pair] 101 untagged = Ok (Some double_tagged).
Proof. vm_compute. reflexivity. Qed.

Lemma sim_routes_are : sim_routes = {[ (101, 0) := (up_onu, sim_up_olt); (0, 101) := (MkRouteHop olt sim_nni olt_pon, down_onu) ]}.
Proof. vm_compute. reflexivity. Qed.

Lemma qinq_refines_witness : ∃ rs, @decompose_flows _ lda (agent_ops flows_proxy_update) ∅ ([goto_pair] ++ [exit_pair]) sim_agent = (Ok rs, sim_agent) ∧
  ∃ s', install_and_send (128 + Z.of_nat 1) (flows_of up_onu rs) (flows_of sim_up_olt rs) untagged (mk_ponsim 2) = (Ok tt, s') ∧
    egressed s' = [(0, double_tagged)].
Proof.
  destruct (qinq_refines flows_proxy_update 2 (mk_ponsim 2) 1 101 0 up_onu sim_up_olt sim_routes [goto_pair] [exit_pair] ∅ sim_agent)
    as (rs&Hrs&Hrun).
  - apply mk_ponsim_wired.
  - lia.
  - vm_compute. reflexivity.
  - vm_compute. reflexivity.
  - intros e. rewrite sim_routes_are. rewrite lookup_insert_is_Some, lookup_singleton_is_Some. intros [He|[_ He]]; congruence.
  - done.
  - done.
  - done.
  - done.
  - done.
  - repeat constructor; apply goto_pair_ok.
  - repeat constructor; apply exit_pair_ok.
  - exists rs. split; [exact Hrs|]. destruct (Hrun untagged) as (s'&_&Hr&He). exists s'. rewrite pair_tags in Hr, He. exact (conj Hr He).
Defined.

(** ** The other witnesses *)
Definition sim_running : ponsim :=
  (mk_ponsim 2 <| devices ::= alter (install_flows (placed [] up_onu <$> [goto_pair])) 129 |>)
    <| devices ::= alter (install_flows (placed [OUTPUT] sim_up_olt <$> [exit_pair])) 0 |>.

Lemma sim_running_straight : straight 2 sim_running.
Proof.
  apply straight_install; [apply straight_install; [apply mk_ponsim_straight|]|]; intros d port f o.
  - apply (placed_hairpin_free _ _ 101); [repeat constructor; apply goto_pair_ok|by left|done].
  - apply (placed_hairpin_free _ _ 101); [repeat constructor; apply exit_pair_ok|by right|done].
Qed.

Lemma nesting_bounded_witness : straight 2 sim_running ∧
  sim_ingress (2 + 5) 129 untagged sim_running = sim_ingress 2 129 untagged sim_running ∧
  (sim_ingress 2 129 untagged sim_running).1 ≠ Err OutOfFuel.
Proof. split; [exact sim_running_straight|]. apply (nesting_bounded 2). exact sim_running_straight. Defined.

(** UDP from port 68 goes to port 3, any UDP to port 4. *)
Definition any_udp : ofp_flow_stats := mk_flow_stat 500 1 [in_port 1; ip_proto 17] [output 4].
Definition udp_68 : ofp_flow_stats := mk_flow_stat 500 2 [in_port 1; ip_proto 17; udp_src 68] [output 3].
Definition udp_67 : ofp_flow_stats := mk_flow_stat 500 3 [in_port 1; ip_proto 17; udp_dst 67] [output 5].

Lemma readable_flow (fields : list ofb_field) p c acts : Forall known fields → readable (mk_flow_stat p c fields acts).
Proof. intros Hk. exists fields. by rewrite mk_flow_stat_fields. Qed.

Lemma process_frame_best_witness : Forall readable [any_udp; udp_67] ∧
  process_frame (flows (install_flows [any_udp; udp_67] (new_device "onu0" 128))) 1 untagged = Ok (Some (Outcome (Some 5) untagged true)).
Proof.
  assert (Forall readable [any_udp; udp_67]) as Hr.
  { repeat constructor; apply readable_flow; apply Forall_forall; intros x Hx; rewrite !elem_of_cons, elem_of_nil in Hx;
      unfold known; destruct_or?; subst; try done; by apply (bool_decide_unpack _). }
  split; [exact Hr|].
  destruct (process_frame_best [any_udp; udp_67] (new_device "onu0" 128) 1 untagged Hr) as [_ [(b&Hb&_&Hbeats&Hrun)|[Hnone _]]].
  - rewrite Hrun. apply elem_of_cons in Hb as [-> | ->%list_elem_of_singleton]; [|done].
    assert (beats 1 untagged any_udp udp_67) as [Hlt|[_ Hle]]; [apply Hbeats; [set_solver|done]|done|done].
  - specialize (Hnone any_udp ltac:(left)). done.
Defined.

(** ** Runs that surprise *)

(** The bits of [IP_PROTO] contain the one of [UDP_SRC]: a match on a UDP source
    port does not make a flow more specific, so the order of installation decides. *)
Example udp_source_not_preferred :
  PonSimProofs.mask 1 untagged udp_68 = PonSimProofs.mask 1 untagged any_udp ∧
  process_frame (flows (install_flows [any_udp; udp_68] (new_device "onu0" 128))) 1 untagged = Ok (Some (Outcome (Some 4) untagged true)) ∧
  process_frame (flows (install_flows [udp_68; any_udp] (new_device "onu0" 128))) 1 untagged = Ok (Some (Outcome (Some 3) untagged true)).
Proof. vm_compute. done. Qed.

(** A flow without match fields, which should match every frame, matches none. *)
Example wildcard_flow_is_dead :
  process_frame (flows (install_flows [mk_flow_stat 1 1 [] [output 1]] (new_device "onu0" 128))) 2 untagged = Ok None.
Proof. done. Qed.

(** The frame that the OLT sends over the PON is one packet for all ONUs.  The
    first ONU rewrites its tag, and the second, with the same flow, does not
    recognise it. *)
Definition tagged (vid : Z) : frame := Ether "a" "b" 0x8100 (Shim (Dot1Q 0 0 vid 0x0800) (body untagged)).
Definition broadcast : ofp_flow_stats := mk_flow_stat 500 1 [in_port 2; vlan_vid 0x1064] [output 1].
Definition retag : ofp_flow_stats := mk_flow_stat 500 1 [in_port 1; vlan_vid 0x1064] [set_field (vlan_vid 0x1000); output 2].

Definition broadcast_run : M ponsim unit :=
  _ ← olt_install_flows [broadcast];
  _ ← onu_install_flows 128 [retag];
  _ ← onu_install_flows 129 [retag];
  sim_ingress 2 0 (tagged 100).

Example packet_is_shared : egressed (broadcast_run (mk_ponsim 2)).2 = [(128, tagged 0)].
Proof. vm_compute. reflexivity. Qed.

(** The OLT's flow of a pair does not say which ONU a frame comes from: with an
    ONU for logical port 102 that puts the same inner tag on its frames, they
    leave by the pair of port 101, whose table drops them. *)
Definition goto_102 : ofp_flow_stats :=
  flow_stats_entry_from_flow_mod_message
    (mk_simple_flow_mod [in_port 102; vlan_vid 0] [push_vlan 0x8100; set_field (vlan_vid 0x1064)] OFPFC_ADD (Some 1) (kw 500 1)).

Example subscribers_share_the_olt_flow :
  pipeline [goto_102] [exit_pair] 102 untagged = Ok None ∧
  egressed (install_and_send 128 (placed [] up_onu <$> [goto_102]) (placed [OUTPUT] sim_up_olt <$> [exit_pair]) untagged (mk_ponsim 1)).2 =
    [(0, double_tagged)].
Proof. vm_compute. done. Qed.

(** Flows that send frames back where they came from make the devices call each
    other without end. *)
Definition bounce : ofp_flow_stats := mk_flow_stat 500 1 [in_port 1] [output 1].
Definition enter : ofp_flow_stats := mk_flow_stat 500 1 [in_port 2] [output 1].

Example bouncing_frame :
  bool_decide (((_ ← onu_install_flows 128 [enter; bounce]; _ ← olt_install_flows [bounce]; sim_ingress 100 128 untagged)
    (mk_ponsim 1)).1 = Err OutOfFuel) = true.
Proof. vm_compute. reflexivity. Qed.
