(* ===== verification/OpenOlt.v ===== *)
(** * The OpenOLT adapter

    src/voltha/adapters/openolt: the encoding of identifiers
    (openolt_platform.py), the flow manager that makes device flows of OpenFlow
    flows (openolt_flow_mgr.py), and of openolt_device.py the ONU ids, the ports
    of the device, packets in and out, the update of the flow table and the
    heartbeat.  What the device answers to FlowAdd is a parameter. *)
From S2P Require Import Prelude OpenFlow Devices PonSim.
From stdpp Require Import base gmap list strings pretty.
From Stdlib Require Import ZArith Lia.

Local Open Scope Z_scope.

(** ** openolt_platform.py *)
Definition mk_uni_port_num (intf_id onu_id : Z) : Z := Z.lor (Z.shiftl intf_id 11) (Z.shiftl onu_id 4).

Definition mk_alloc_id (onu_id idx : Z) : Z := 1023 + onu_id.

Definition mk_gemport_id (onu_id idx : Z) : Z := Z.lor (Z.lor (Z.shiftl 1 10) (Z.shiftl onu_id 3)) idx.

Definition onu_id_from_gemport_id (gemport_id : Z) : Z := Z.shiftr (Z.land gemport_id (Z.lnot (Z.shiftl 1 10))) 3.

Definition mk_flow_id (intf_id onu_id idx : Z) : Z := Z.lor (Z.lor (Z.shiftl intf_id 11) (Z.shiftl onu_id 4)) idx.

Definition onu_id_from_port_num (port_num : Z) : Z := Z.land (Z.shiftr port_num 4) 0x7f.

Definition intf_id_from_uni_port_num (port_num : Z) : Z := Z.land (Z.shiftr port_num 11) 0xf.

Definition intf_id_from_pon_port_no (port_no : Z) : Z := Z.land port_no 0xf.

Definition intf_id_to_port_no (intf_id : Z) (intf_type : PortType.t) : result Z :=
  match intf_type with
  | PortType.ETHERNET_NNI => Ok (intf_id + 128)
  | PortType.PON_OLT => Ok (Z.lor (Z.shiftl 2 28) intf_id)
  | _ => Err GenericException
  end.

Definition intf_id_from_nni_port_num (port_num : Z) : Z := port_num - 128.

(** ** openolt_flow_mgr.py *)
Definition HSIA_FLOW_INDEX := 0.
Definition DHCP_FLOW_INDEX := 1.
Definition EAPOL_FLOW_INDEX := 2.
Definition EAPOL_DOWNLINK_FLOW_INDEX := 3.
Definition EAPOL_DOWNLINK_SECONDARY_FLOW_INDEX := 4.
Definition EAPOL_UPLINK_SECONDARY_FLOW_INDEX := 5.
Definition EAP_ETH_TYPE := 0x888e.
Definition DEFAULT_MGMT_VLAN := 4091.

(** The dictionaries [classifier_info] and [action_info], [None] where a key is missing *)
Record classifier_info := ClassifierInfo {
  ci_eth_type : option Z;
  ci_ip_proto : option Z;
  ci_in_port : option Z;
  ci_vlan_vid : option Z;
  ci_vlan_pcp : option Z;
  ci_udp_dst : option Z;
  ci_udp_src : option Z;
  ci_ipv4_dst : option Z;
  ci_ipv4_src : option Z;
  ci_metadata : option Z;
  ci_pkt_tag_type : option string;
}.

Record action_info := ActionInfo {
  ai_output : option Z;
  ai_pop_vlan : bool;
  ai_push_vlan : bool;
  ai_tpid : option Z;
  ai_vlan_vid : option Z;
  ai_trap_to_host : bool;
}.

#[export] Instance classifier_info_eta : Eta classifier_info := λ c,
  ClassifierInfo (ci_eth_type c) (ci_ip_proto c) (ci_in_port c) (ci_vlan_vid c) (ci_vlan_pcp c) (ci_udp_dst c) (ci_udp_src c)
    (ci_ipv4_dst c) (ci_ipv4_src c) (ci_metadata c) (ci_pkt_tag_type c).
#[export] Instance action_info_eta : Eta action_info := λ a,
  ActionInfo (ai_output a) (ai_pop_vlan a) (ai_push_vlan a) (ai_tpid a) (ai_vlan_vid a) (ai_trap_to_host a).

Definition no_classifier : classifier_info := ClassifierInfo None None None None None None None None None None None.
Definition no_action : action_info := ActionInfo None false false None None false.

(** The messages of openolt.proto *)
Record Classifier := MkClassifier {
  c_o_vid : Z;
  c_i_vid : Z;
  c_o_pbits : Z;
  c_eth_type : Z;
  c_ip_proto : Z;
  c_dst_ip : Z;
  c_src_ip : Z;
  c_src_port : Z;
  c_dst_port : Z;
  c_pkt_tag_type : string;
}.

Record ActionMsg := MkActionMsg {
  act_o_vid : Z;
  add_outer_tag : bool;
  remove_outer_tag : bool;
  act_trap_to_host : bool;
}.

Record OltFlow := MkOltFlow {
  of_access_intf_id : Z;
  of_onu_id : Z;
  of_flow_id : Z;
  of_flow_type : string;
  of_gemport_id : Z;
  of_classifier : Classifier;
  of_action : option ActionMsg;
}.

#[export] Instance Classifier_eq_dec : EqDecision Classifier.
Proof. solve_decision. Defined.
#[export] Instance ActionMsg_eq_dec : EqDecision ActionMsg.
Proof. solve_decision. Defined.
#[export] Instance OltFlow_eq_dec : EqDecision OltFlow.
Proof. solve_decision. Defined.

(** A field of type fixed32 *)
Definition fixed32 (v : option Z) : result Z :=
  match v with
  | None => Ok 0
  | Some n => if decide (0 ≤ n < 2 ^ 32) then Ok n else Err ValueError
  end.

Definition tag_type (v : option string) : string :=
  match v with
  | None => ""
  | Some t => if decide (t ∈ ["single_tag"; "double_tag"; "untagged"]) then t else "none"
  end.

Definition rbind {A B} (r : result A) (k : A → result B) : result B := match r with Ok a => k a | Err e => Err e end.

Definition mk_classifier (c : classifier_info) : result Classifier :=
  rbind (fixed32 (ci_eth_type c)) (λ eth_type,
  rbind (fixed32 (ci_ip_proto c)) (λ ip_proto,
  rbind (fixed32 (ci_vlan_vid c)) (λ o_vid,
  rbind (fixed32 (ci_metadata c)) (λ i_vid,
  rbind (fixed32 (ci_vlan_pcp c)) (λ o_pbits,
  rbind (fixed32 (ci_udp_src c)) (λ src_port,
  rbind (fixed32 (ci_udp_dst c)) (λ dst_port,
  rbind (fixed32 (ci_ipv4_dst c)) (λ dst_ip,
  rbind (fixed32 (ci_ipv4_src c)) (λ src_ip,
  Ok (MkClassifier o_vid i_vid o_pbits eth_type ip_proto dst_ip src_ip src_port dst_port (tag_type (ci_pkt_tag_type c)))))))))))).

(** [action_info['vlan_vid']] *)
Definition key (v : option Z) : result Z := match v with Some n => Ok n | None => Err KeyError end.

Definition mk_action (a : action_info) : result (option ActionMsg) :=
  if ai_pop_vlan a then
    rbind (key (ai_vlan_vid a)) (λ v, rbind (fixed32 (Some v)) (λ o_vid, Ok (Some (MkActionMsg o_vid false true false))))
  else if ai_push_vlan a then
    rbind (key (ai_vlan_vid a)) (λ v, rbind (fixed32 (Some v)) (λ o_vid, Ok (Some (MkActionMsg o_vid true false false))))
  else if ai_trap_to_host a then Ok (Some (MkActionMsg 0 false false true))
  else Ok None.

Definition classify_field (c : classifier_info) (field : ofb_field) : result classifier_info :=
  let t := of_type field in
  if decide (t = ETH_TYPE) then Ok (c <| ci_eth_type := Some (read_int C_eth_type field) |>)
  else if decide (t = IP_PROTO) then Ok (c <| ci_ip_proto := Some (read_int C_ip_proto field) |>)
  else if decide (t = IN_PORT) then Ok (c <| ci_in_port := Some (read_int C_port field) |>)
  else if decide (t = VLAN_VID) then Ok (c <| ci_vlan_vid := Some (Z.land (read_int C_vlan_vid field) 0xfff) |>)
  else if decide (t = VLAN_PCP) then Ok (c <| ci_vlan_pcp := Some (read_int C_vlan_pcp field) |>)
  else if decide (t = UDP_DST) then Ok (c <| ci_udp_dst := Some (read_int C_udp_dst field) |>)
  else if decide (t = UDP_SRC) then Ok (c <| ci_udp_src := Some (read_int C_udp_src field) |>)
  else if decide (t = IPV4_DST) then Ok (c <| ci_ipv4_dst := Some (read_int C_ipv4_dst field) |>)
  else if decide (t = IPV4_SRC) then Ok (c <| ci_ipv4_src := Some (read_int C_ipv4_src field) |>)
  else if decide (t = METADATA) then Ok (c <| ci_metadata := Some (read_int C_table_metadata field) |>)
  else Err NotImplementedError.

Fixpoint classify (c : classifier_info) (fields : list ofb_field) : result classifier_info :=
  match fields with
  | [] => Ok c
  | field :: fields => rbind (classify_field c field) (λ c, classify c fields)
  end.

Definition read_action (a : action_info) (action : ofp_action) : result action_info :=
  let t := a_type action in
  if decide (t = OUTPUT) then Ok (a <| ai_output := Some (action_output_port action) |>)
  else if decide (t = POP_VLAN) then Ok (a <| ai_pop_vlan := true |>)
  else if decide (t = PUSH_VLAN) then
    Ok (a <| ai_push_vlan := true |> <| ai_tpid := Some (action_push_ethertype action) |>)
  else if decide (t = SET_FIELD) then
    let field := action_set_field action in
    if decide (oxm_class field = OFPXMC_OPENFLOW_BASIC) then
      let field := oxm_ofb_field field in
      if decide (of_type field = VLAN_VID)
      then Ok (a <| ai_vlan_vid := Some (Z.land (read_int C_vlan_vid field) 0xfff) |>)
      else Ok a
    else Err AssertionError
  else Ok a.

Fixpoint read_actions (a : action_info) (acts : list ofp_action) : result action_info :=
  match acts with
  | [] => Ok a
  | act :: acts => rbind (read_action a act) (λ a, read_actions a acts)
  end.

(** The fields of one flow of the device: an EAP flow, and the port it comes from *)
Definition eap_scan (fields : list ofb_field) : bool * option Z :=
  foldl (λ acc field,
    ((acc.1 || (bool_decide (of_type field = ETH_TYPE) && bool_decide (read_int C_eth_type field = EAP_ETH_TYPE)))%bool,
     if decide (of_type field = IN_PORT) then Some (read_int C_port field) else acc.2)) (false, None) fields.

Fixpoint is_eap_enabled (flows : list ofp_flow_stats) (intf_id onu_id : Z) : result bool :=
  match flows with
  | [] => Ok false
  | flow :: flows =>
      match get_ofb_fields flow with
      | Ok fields =>
          let '(eap_flow, port) := eap_scan fields in
          if bool_decide (eap_flow = true ∧ Some intf_id = (intf_id_from_uni_port_num <$> port) ∧
                          Some onu_id = (onu_id_from_port_num <$> port))
          then Ok true else is_eap_enabled flows intf_id onu_id
      | Err e => Err e
      end
  end.

Section flow_mgr.
(** What [stub.FlowAdd] raises, given the calls before; the flows of the device
    in the configuration *)
Context (refuses : list OltFlow → OltFlow → option exn) (device_flows : list ofp_flow_stats).

Definition FlowAdd (f : OltFlow) : M (list OltFlow) unit := λ s,
  (match refuses s f with Some e => Err e | None => Ok tt end, s ++ [f]).

Definition add_olt_flow (intf_id onu_id idx : Z) (flow_type : string) (c : classifier_info) (a : action_info)
    : M (list OltFlow) unit :=
  classifier ← lift (mk_classifier c);
  action ← lift (mk_action a);
  FlowAdd (MkOltFlow intf_id onu_id (mk_flow_id intf_id onu_id idx) flow_type (mk_gemport_id onu_id 0) classifier action).

Definition add_hsia_flow (intf_id onu_id : Z) (uplink_classifier : classifier_info) (uplink_action : action_info)
    (downlink_classifier : classifier_info) (downlink_action : action_info) (hsia_id : Z) : M (list OltFlow) unit :=
  _ ← add_olt_flow intf_id onu_id hsia_id "upstream" uplink_classifier uplink_action;
  add_olt_flow intf_id onu_id hsia_id "downstream" downlink_classifier downlink_action.

Definition add_dhcp_trap (intf_id onu_id : Z) (c : classifier_info) (a : action_info) : M (list OltFlow) unit :=
  add_olt_flow intf_id onu_id DHCP_FLOW_INDEX "upstream"
    (c <| ci_pkt_tag_type := Some "single_tag" |> <| ci_vlan_vid := None |>) (no_action <| ai_trap_to_host := true |>).

Definition add_eapol_flow (intf_id onu_id uplink_eapol_id downlink_eapol_id vlan_id : Z) : M (list OltFlow) unit :=
  let classifier := no_classifier <| ci_eth_type := Some EAP_ETH_TYPE |> <| ci_pkt_tag_type := Some "single_tag" |>
                      <| ci_vlan_vid := Some vlan_id |> in
  _ ← add_olt_flow intf_id onu_id uplink_eapol_id "upstream" classifier (no_action <| ai_trap_to_host := true |>);
  add_olt_flow intf_id onu_id downlink_eapol_id "downstream" classifier
    (no_action <| ai_push_vlan := true |> <| ai_vlan_vid := Some vlan_id |>).

Definition add_data_flow (intf_id onu_id : Z) (c : classifier_info) (a : action_info) : M (list OltFlow) unit :=
  let uplink_classifier := c <| ci_pkt_tag_type := Some "single_tag" |> in
  s_vid ← lift (key (ai_vlan_vid a));
  c_vid ← lift (key (ci_vlan_vid uplink_classifier));
  let downlink_classifier := c <| ci_pkt_tag_type := Some "double_tag" |> <| ci_vlan_vid := Some s_vid |>
                               <| ci_metadata := Some c_vid |> in
  let downlink_action := a <| ai_push_vlan := false |> <| ai_pop_vlan := true |> in
  _ ← add_hsia_flow intf_id onu_id uplink_classifier a downlink_classifier downlink_action HSIA_FLOW_INDEX;
  eap ← lift (is_eap_enabled device_flows intf_id onu_id);
  if (eap : bool) then
    add_eapol_flow intf_id onu_id EAPOL_UPLINK_SECONDARY_FLOW_INDEX EAPOL_DOWNLINK_SECONDARY_FLOW_INDEX c_vid
  else mret tt.

Definition divide_and_add_flow (intf_id onu_id : Z) (c : classifier_info) (a : action_info) : M (list OltFlow) unit :=
  match ci_ip_proto c, ci_eth_type c with
  | Some p, _ => if decide (p = 17) then add_dhcp_trap intf_id onu_id c a else mret tt
  | None, Some t =>
      if decide (t = EAP_ETH_TYPE)
      then add_eapol_flow intf_id onu_id EAPOL_FLOW_INDEX EAPOL_DOWNLINK_FLOW_INDEX DEFAULT_MGMT_VLAN
      else mret tt
  | None, None => if ai_push_vlan a then add_data_flow intf_id onu_id c a else mret tt
  end.

Definition add_flow (flow : ofp_flow_stats) (is_down_stream : bool) : M (list OltFlow) unit :=
  in_port ← lift (get_in_port flow);
  _ ← passert (bool_decide (in_port ≠ None));
  fields ← lift (get_ofb_fields flow);
  c ← lift (classify no_classifier fields);
  acts ← lift (iter_actions flow);
  a ← lift (read_actions no_action acts);
  if is_down_stream then mret tt
  else
    port ← lift (key (ci_in_port c));
    divide_and_add_flow (intf_id_from_uni_port_num port) (onu_id_from_port_num port) c a.

(** ** openolt_device.py: the flow table *)

(** The inner loop adds all flows with the direction found for one of them. *)
Definition openolt_update_flow_table (nni_ports : list Z) (flows : list ofp_flow_stats) : M (list OltFlow) unit :=
  forM_ (λ flow,
    in_port ← lift (get_in_port flow);
    p ← from_some AssertionError in_port;
    forM_ (λ flow, swallow (add_flow flow (bool_decide (p ∈ nni_ports)))) flows) flows.
End flow_mgr.

(** ** openolt_device.py: ONU ids, ports and packets *)
Definition new_onu_id (taken : list Z) : option Z := head (filter (λ i, i ∉ taken) (Z.of_nat <$> seq 1 511)).

Definition port_name (port_no : Z) (port_type : PortType.t) (intf_id : option Z) (serial_number : option string) : option string :=
  match port_type with
  | PortType.ETHERNET_NNI => Some ("nni-" +:+ pretty port_no)
  | PortType.PON_OLT => Some ("pon" +:+ match intf_id with Some i => pretty i | None => "None" end)
  | PortType.ETHERNET_UNI => Some (match serial_number with Some s => s | None => "uni-" +:+ pretty port_no end)
  | _ => None
  end.

(** The ports of the device, which [adapter_agent.add_port] adds or replaces by number *)
Definition openolt_add_port (intf_id : Z) (port_type : PortType.t) (oper_status : OperStatus.t) (ports : gmap Z Port)
    : result (gmap Z Port) :=
  rbind (intf_id_to_port_no intf_id port_type) (λ n,
  Ok (<[n := MkPort n (default "" (port_name n port_type (Some intf_id) None)) port_type AdminState.ENABLED oper_status "" []]> ports)).

Definition port_config (uni_no : Z) (uni_name : string) (ports : gmap Z Port) : gmap Z Port :=
  <[uni_no := MkPort uni_no uni_name PortType.ETHERNET_UNI AdminState.ENABLED OperStatus.ACTIVE "" []]> ports.

Definition port_type (ports : gmap Z Port) (port_no : Z) : option PortType.t := Devices.port_type <$> ports !! port_no.

(** The logical port of a packet from a GEM port *)
Definition packet_indication (intf_id gemport_id : Z) : Z := mk_uni_port_num intf_id (onu_id_from_gemport_id gemport_id).

Inductive packet := OnuPacket (intf_id onu_id : Z) (pkt : frame) | UplinkPacket (intf_id : Z) (pkt : frame).

Definition double_tag (f : frame) : bool := match body f with Shim _ (Shim _ _) => true | _ => false end.

Definition openolt_packet_out (ports : gmap Z Port) (egress_port : Z) (pkt : frame) : option packet :=
  match port_type ports egress_port with
  | Some PortType.ETHERNET_UNI =>
      Some (OnuPacket (intf_id_from_uni_port_num egress_port) (onu_id_from_port_num egress_port)
              (if double_tag pkt then pop_shim pkt else pkt))
  | Some PortType.ETHERNET_NNI => Some (UplinkPacket (intf_id_from_nni_port_num egress_port) pkt)
  | _ => None
  end.

(** ** openolt_device.py: the heartbeat *)
Definition MAX_HEARTBEAT_MISS := 3.

Record heartbeat := Heartbeat {
  heartbeat_miss : Z;
  heartbeat_signature : option Z;
  indications_thread_active : bool;
}.

(** What a round asks the reactor and the threads to do *)
Inductive alert := OltDown | OltReachable | IndicationsStarted.

#[export] Instance alert_eq_dec : EqDecision alert.
Proof. solve_decision. Defined.

(** A round of the loop in which HeartbeatCheck raises, one in which it returns a
    signature, and the end of the thread that reads indications *)
Inductive beat := Missed | Beat (signature : Z) | IndicationsLost.

Definition heartbeat_round (h : heartbeat) (b : beat) : heartbeat * list alert :=
  match b with
  | Missed =>
      let miss := heartbeat_miss h + 1 in
      (Heartbeat miss (heartbeat_signature h) (indications_thread_active h),
       if decide (miss = MAX_HEARTBEAT_MISS) then [OltDown] else [])
  | Beat signature =>
      (Heartbeat 0 (Some signature) true,
       (if decide (heartbeat_miss h > MAX_HEARTBEAT_MISS) then [OltReachable] else []) ++
       (if indications_thread_active h then [] else [IndicationsStarted]))
  | IndicationsLost => (Heartbeat (heartbeat_miss h) (heartbeat_signature h) false, [])
  end.

Fixpoint heartbeat_loop (h : heartbeat) (beats : list beat) : heartbeat * list alert :=
  match beats with
  | [] => (h, [])
  | b :: beats =>
      let '(h1, e1) := heartbeat_round h b in
      let '(h2, e2) := heartbeat_loop h1 beats in
      (h2, e1 ++ e2)
  end.

Definition new_heartbeat : heartbeat := Heartbeat 0 None false.
