(* ===== verification/OpenOltProofs.v ===== *)
(** * Identifiers, flows and alerts of the OpenOLT adapter

    The identifiers of OpenOlt.v can be read back, the flows given to the device
    are told apart by ONU, a subscriber's flow is mirrored downstream, ONU ids are
    free when they are handed out, and what the heartbeat reports of an outage. *)
From S2P Require Import Prelude OpenFlow Devices Sample PonSim OpenOlt.
From Stdlib Require Import ZArith Lia.
From stdpp Require Import base gmap strings list.

Local Open Scope Z_scope.

(** ** Packed integers *)
Lemma lor_pack a b n : 0 ≤ n → 0 ≤ b < 2 ^ n → Z.lor (Z.shiftl a n) b = a * 2 ^ n + b.
Proof.
  intros Hn Hb. pose proof (Z.add_lor_land (Z.shiftl a n) b) as Ha.
  assert (Z.land (Z.shiftl a n) b = 0) as Hl.
  { apply Z.bits_inj'. intros m Hm. rewrite Z.land_spec, Z.bits_0, Z.shiftl_spec by done.
    destruct (decide (m < n)); [by rewrite Z.testbit_neg_r by lia|].
    rewrite andb_comm. apply andb_false_intro1. destruct (decide (b = 0)) as [->|]; [apply Z.bits_0|].
    apply Z.bits_above_log2; [lia|]. assert (Z.log2 b < n) by (apply Z.log2_lt_pow2; lia). lia. }
  rewrite Z.shiftl_mul_pow2 in * by done. lia.
Qed.

Lemma uni_port_num i o : 0 ≤ o < 128 → mk_uni_port_num i o = i * 2048 + o * 16.
Proof.
  intros Ho. unfold mk_uni_port_num. rewrite (Z.shiftl_mul_pow2 o) by lia. rewrite lor_pack by lia. lia.
Qed.

Lemma flow_id_sum i o k : 0 ≤ o < 128 → 0 ≤ k < 16 → mk_flow_id i o k = i * 2048 + o * 16 + k.
Proof.
  intros Ho Hk. unfold mk_flow_id. rewrite <- Z.lor_assoc, (lor_pack o) by lia. rewrite lor_pack by lia. lia.
Qed.

Lemma gemport_id_sum o k : 0 ≤ o < 128 → 0 ≤ k < 8 → mk_gemport_id o k = 1024 + o * 8 + k.
Proof.
  intros Ho Hk. unfold mk_gemport_id. rewrite <- Z.lor_assoc, (lor_pack o) by lia. rewrite lor_pack by lia. lia.
Qed.

Lemma land_ones_mod a n m : 0 ≤ n → m = 2 ^ n - 1 → Z.land a m = a mod 2 ^ n.
Proof. intros Hn ->. rewrite <- Z.land_ones by done. f_equal. rewrite Z.ones_equiv. lia. Qed.

Lemma onu_id_div p : onu_id_from_port_num p = (p / 16) mod 128.
Proof. unfold onu_id_from_port_num. rewrite (land_ones_mod _ 7), Z.shiftr_div_pow2 by lia. done. Qed.

Lemma intf_id_div p : intf_id_from_uni_port_num p = (p / 2048) mod 16.
Proof. unfold intf_id_from_uni_port_num. rewrite (land_ones_mod _ 4), Z.shiftr_div_pow2 by lia. done. Qed.

Lemma ids_in_range p : 0 ≤ onu_id_from_port_num p < 128 ∧ 0 ≤ intf_id_from_uni_port_num p < 16.
Proof. rewrite onu_id_div, intf_id_div. split; apply Z.mod_pos_bound; lia. Qed.

(** The bit of the prefix is cleared. *)
Lemma gemport_onu o k : 0 ≤ o < 128 → 0 ≤ k < 8 → onu_id_from_gemport_id (mk_gemport_id o k) = o.
Proof.
  intros Ho Hk. unfold onu_id_from_gemport_id, mk_gemport_id. rewrite <- Z.lor_assoc, Z.land_lor_distr_l.
  rewrite Z.land_lnot_diag, Z.lor_0_l. rewrite lor_pack by lia.
  assert (Z.land (o * 2 ^ 3 + k) (Z.lnot (Z.shiftl 1 10)) = o * 2 ^ 3 + k) as ->.
  { apply Z.bits_inj'. intros m Hm. rewrite Z.land_spec, Z.lnot_spec, Z.shiftl_spec by done.
    destruct (decide (m = 10)) as [->|Hne].
    - rewrite (Z.bits_above_log2 (o * 2 ^ 3 + k)); [done|lia|].
      destruct (decide (o * 2 ^ 3 + k = 0)) as [->|]; [done|]. apply Z.log2_lt_pow2; lia.
    - replace (Z.testbit 1 (m - 10)) with false; [by rewrite andb_true_r|]. symmetry.
      destruct (decide (m < 10)); [by apply Z.testbit_neg_r; lia|]. apply Z.bits_above_log2; [lia|]. simpl. lia. }
  rewrite Z.shiftr_div_pow2 by lia. symmetry. apply (Z.div_unique _ _ _ k); lia.
Qed.

(** The identifiers of the adapter: for a PON of 16, an ONU of 128, a GEM port of 8 and a flow of
    16, the numbers of UNI ports, flows, GEM ports, PON ports and NNI ports lie in their documented
    ranges, and the PON and the ONU can be read back from them, so that different ONUs have
    different numbers. *)
Theorem platform_roundtrip i o gem flow
    (Hi : 0 ≤ i < 16) (Ho : 0 ≤ o < 128) (Hg : 0 ≤ gem < 8) (Hf : 0 ≤ flow < 16) :
  (0 ≤ mk_uni_port_num i o < 2 ^ 15 ∧
   intf_id_from_uni_port_num (mk_uni_port_num i o) = i ∧ onu_id_from_port_num (mk_uni_port_num i o) = o) ∧
  (0 ≤ mk_flow_id i o flow < 2 ^ 15 ∧
   intf_id_from_uni_port_num (mk_flow_id i o flow) = i ∧ onu_id_from_port_num (mk_flow_id i o flow) = o ∧
   mk_flow_id i o flow mod 16 = flow) ∧
  (1024 ≤ mk_gemport_id o gem < 2048 ∧ onu_id_from_gemport_id (mk_gemport_id o gem) = o) ∧
  (∃ p, intf_id_to_port_no i PortType.PON_OLT = Ok p ∧ intf_id_from_pon_port_no p = i ∧ 2 ^ 29 ≤ p < 2 ^ 29 + 16) ∧
  (∃ p, intf_id_to_port_no i PortType.ETHERNET_NNI = Ok p ∧ intf_id_from_nni_port_num p = i).
Proof.
  rewrite !onu_id_div, !intf_id_div, gemport_onu, gemport_id_sum, uni_port_num, flow_id_sum by lia. split_and!; try lia.
  - rewrite <- (Z.div_unique (i * 2048 + o * 16) 2048 i (o * 16)) by lia. by apply Z.mod_small.
  - rewrite <- (Z.div_unique (i * 2048 + o * 16) 16 (i * 128 + o) 0) by lia.
    symmetry. apply (Z.mod_unique _ _ i); lia.
  - rewrite <- (Z.div_unique (i * 2048 + o * 16 + flow) 2048 i (o * 16 + flow)) by lia. by apply Z.mod_small.
  - rewrite <- (Z.div_unique (i * 2048 + o * 16 + flow) 16 (i * 128 + o) flow) by lia.
    symmetry. apply (Z.mod_unique _ _ i); lia.
  - symmetry. apply (Z.mod_unique _ _ (i * 128 + o)); lia.
  - eexists. split; [done|]. unfold intf_id_from_pon_port_no. rewrite (land_ones_mod _ 4), lor_pack by lia. split; [|lia].
    symmetry. apply (Z.mod_unique _ _ (2 ^ 25)); lia.
  - eexists. split; [done|]. unfold intf_id_from_nni_port_num. lia.
Qed.

Lemma platform_roundtrip_witness : onu_id_from_port_num (mk_uni_port_num 3 100) = 100 ∧ onu_id_from_gemport_id (mk_gemport_id 100 5) = 100.
Proof.
  destruct (platform_roundtrip 3 100 5 2 ltac:(lia) ltac:(lia) ltac:(lia) ltac:(lia)) as ((_&_&H1)&_&(_&H2)&_). exact (conj H1 H2).
Defined.

(** ** Flows of the device *)

(** The identifiers of a flow are those of its PON and ONU. *)
Definition addressed (f : OltFlow) : Prop :=
  0 ≤ of_access_intf_id f < 16 ∧ 0 ≤ of_onu_id f < 128 ∧ of_gemport_id f = mk_gemport_id (of_onu_id f) 0 ∧
  ∃ idx, 0 ≤ idx < 6 ∧ of_flow_id f = mk_flow_id (of_access_intf_id f) (of_onu_id f) idx.

Definition stays_addressed (s s' : list OltFlow) : Prop := Forall addressed s → Forall addressed s'.

#[export] Instance stays_addressed_preorder : PreOrder stays_addressed.
Proof. split; [intros s Hs; exact Hs|]. intros s1 s2 s3 H1 H2 Hs. by apply H2, H1. Qed.

Section flow_mgr.
Context (refuses : list OltFlow → OltFlow → option exn) (device_flows : list ofp_flow_stats).

Lemma add_olt_flow_addressed i o idx t c a : 0 ≤ i < 16 → 0 ≤ o < 128 → 0 ≤ idx < 6 →
  follows stays_addressed (add_olt_flow refuses i o idx t c a).
Proof.
  intros Hi Ho Hidx. unfold add_olt_flow. repeat follows_gen ltac:(done). intros s Hs. simpl. apply Forall_app. split; [done|].
  apply Forall_singleton. unfold addressed. simpl. split_and!; try lia; eauto.
Qed.

Lemma add_flow_addressed flow down : follows stays_addressed (add_flow refuses device_flows flow down).
Proof.
  unfold add_flow, divide_and_add_flow, add_data_flow, add_hsia_flow, add_eapol_flow, add_dhcp_trap.
  repeat follows_gen ltac:(done);
    match goal with |- follows _ (add_olt_flow _ (intf_id_from_uni_port_num ?p) _ _ _ _ _) => destruct (ids_in_range p) end;
    by apply add_olt_flow_addressed.
Qed.

Lemma table_addressed nni flows : follows stays_addressed (openolt_update_flow_table refuses device_flows nni flows).
Proof. unfold openolt_update_flow_table. repeat first [apply add_flow_addressed | follows_gen ltac:(done)]. Qed.

(** The input port that a flow of the core matches on *)
Definition matches_port (flow : ofp_flow_stats) (p : Z) : Prop :=
  ∃ fields x, get_ofb_fields flow = Ok fields ∧ x ∈ fields ∧ of_type x = IN_PORT ∧ read_int C_port x = p.

(** The PON and the ONU are those of the input port of one of [flows]. *)
Definition asked_by (flows : list ofp_flow_stats) (i o : Z) : Prop :=
  ∃ flow p, flow ∈ flows ∧ matches_port flow p ∧ i = intf_id_from_uni_port_num p ∧ o = onu_id_from_port_num p.

Definition adds_asked (flows : list ofp_flow_stats) (s s' : list OltFlow) : Prop :=
  ∀ f, f ∈ s' → f ∈ s ∨ asked_by flows (of_access_intf_id f) (of_onu_id f).

#[export] Instance adds_asked_preorder flows : PreOrder (adds_asked flows).
Proof. split; [by intros s f; left|]. intros s1 s2 s3 H1 H2 f [Hf|?]%H2; [by apply H1|by right]. Qed.

Lemma add_olt_flow_asked flows i o idx t c a : asked_by flows i o →
  follows (adds_asked flows) (add_olt_flow refuses i o idx t c a).
Proof.
  intros Hio. unfold add_olt_flow. repeat follows_gen ltac:(done). intros s f Hf. simpl in Hf.
  apply elem_of_app in Hf as [Hf| ->%list_elem_of_singleton]; [by left|by right].
Qed.

Lemma divide_asked flows i o c a : asked_by flows i o →
  follows (adds_asked flows) (divide_and_add_flow refuses device_flows i o c a).
Proof.
  intros Hio. unfold divide_and_add_flow, add_data_flow, add_hsia_flow, add_eapol_flow, add_dhcp_trap.
  repeat first [by apply add_olt_flow_asked | follows_gen ltac:(done)].
Qed.

Lemma follows_lift {S A B} (R : S → S → Prop) `{!PreOrder R} (r : result A) (k : A → M S B) :
  (∀ a, r = Ok a → follows R (k a)) → follows R (lift r ≫= k).
Proof. intros Hk s. unfold mbind, M_bind, lift. destruct r as [a|e]; [by apply Hk|simpl; reflexivity]. Qed.

Lemma classify_port fields : ∀ c c' p, classify c fields = Ok c' → ci_in_port c' = Some p →
  ci_in_port c = Some p ∨ ∃ x, x ∈ fields ∧ of_type x = IN_PORT ∧ read_int C_port x = p.
Proof.
  induction fields as [|x fields IH]; intros c c' p; simpl; [intros [= <-]; by left|].
  destruct (classify_field c x) as [c1|e] eqn:Hc; simpl; [|done]. intros Hc' Hp.
  destruct (IH c1 c' p Hc' Hp) as [H1|(y & Hy & ?)]; [|right; exists y; by split; [right|]].
  unfold classify_field in Hc. repeat case_decide; simplify_eq; simpl in H1; try (by left); try done.
  injection H1 as <-. right. exists x. split; [left|]. done.
Qed.

Lemma add_flow_asked flows flow down : flow ∈ flows →
  follows (adds_asked flows) (add_flow refuses device_flows flow down).
Proof.
  intros Hin. unfold add_flow. apply follows_lift; [apply _|]. intros ip _.
  apply follows_bind; [apply _|follows_gen ltac:(done)|]. intros _.
  apply follows_lift; [apply _|]. intros fields Hf. apply follows_lift; [apply _|]. intros c Hc.
  do 2 (apply follows_lift; [apply _|intros ? _]). destruct down; [follows_gen ltac:(done)|].
  apply follows_lift; [apply _|]. intros p Hp. apply divide_asked. exists flow, p. split_and!; try done.
  destruct (ci_in_port c) as [q|] eqn:Hq; [|done]. injection Hp as ->.
  destruct (classify_port fields no_classifier c p Hc Hq) as [?|(x & Hx)]; [done|]. by exists fields, x.
Qed.

Lemma table_asked nni flows :
  follows (adds_asked flows) (openolt_update_flow_table refuses device_flows nni flows).
Proof.
  unfold openolt_update_flow_table.
  assert (∀ l, (∀ f, f ∈ l → f ∈ flows) → ∀ b, follows (adds_asked flows)
    (forM_ (λ flow, swallow (add_flow refuses device_flows flow b)) l)) as Hin.
  { induction l as [|f l IH]; intros Hl b; simpl; [by follows_gen ltac:(done)|].
    apply follows_bind; [apply _| |intros _; apply IH; set_solver].
    apply follows_swallow, add_flow_asked. set_solver. }
  match goal with |- follows _ (forM_ ?g flows) => enough (∀ l, follows (adds_asked flows) (forM_ g l)) by done end.
  induction l as [|f l IH]; simpl; [by follows_gen ltac:(done)|].
  apply follows_bind; [apply _| |by intros _].
  apply follows_lift; [apply _|]. intros ip _. apply follows_bind; [apply _|follows_gen ltac:(done)|].
  intros p. by apply Hin.
Qed.

Lemma addressed_apart f g : addressed f → addressed g →
  (of_flow_id f = of_flow_id g → of_access_intf_id f = of_access_intf_id g ∧ of_onu_id f = of_onu_id g) ∧
  (of_gemport_id f = of_gemport_id g → of_onu_id f = of_onu_id g).
Proof.
  intros (Hfi&Hfo&Hfg&k&Hk&Hf) (Hgi&Hgo&Hgg&l&Hl&Hg). rewrite Hfg, Hgg, Hf, Hg.
  rewrite !flow_id_sum, !gemport_id_sum by lia. split; [intros Heq|lia].
  assert (of_access_intf_id f = of_access_intf_id g) as Hi.
  { assert (of_access_intf_id f = (of_access_intf_id f * 2048 + of_onu_id f * 16 + k) / 2048) as ->
      by (apply (Z.div_unique _ _ _ (of_onu_id f * 16 + k)); lia).
    rewrite Heq. symmetry. apply (Z.div_unique _ _ _ (of_onu_id g * 16 + l)); lia. }
  split; [done|]. lia.
Qed.

(** C23 Whatever flows the core asks for, each flow given to the device is for the PON and the ONU
    that the input port of one of them encodes, and carries the flow id and GEM port of that PON and
    ONU: two flows of different ONUs, on one PON or two, have different flow ids, and two flows of
    different ONUs of one PON have different GEM ports. *)
Theorem flows_apart nni flows s (Hs : Forall addressed s) :
  let s' := (openolt_update_flow_table refuses device_flows nni flows s).2 in
  Forall addressed s' ∧
  (∀ f, f ∈ s' → f ∈ s ∨ asked_by flows (of_access_intf_id f) (of_onu_id f)) ∧
  ∀ f g, f ∈ s' → g ∈ s' →
    (of_flow_id f = of_flow_id g → of_access_intf_id f = of_access_intf_id g ∧ of_onu_id f = of_onu_id g) ∧
    (of_access_intf_id f = of_access_intf_id g → of_gemport_id f = of_gemport_id g → of_onu_id f = of_onu_id g).
Proof.
  intros s'. pose proof (table_addressed nni flows s Hs) as Ha. split; [done|]. split; [apply table_asked|].
  intros f g Hf Hg. rewrite Forall_forall in Ha.
  destruct (addressed_apart f g) as [H1 H2]; [by apply Ha..|]. auto.
Qed.

(** The upstream flow of a subscriber: frames tagged [c] at a UNI get the outer tag [s]. *)
Definition subscriber_flow `{FlowDigest} (priority cookie i o c s nni : Z) : ofp_flow_stats :=
  mk_flow_stat priority cookie [in_port (mk_uni_port_num i o); vlan_vid (Z.lor 0x1000 c)]
    [push_vlan 0x8100; set_field (vlan_vid (Z.lor 0x1000 s)); output nni].

Lemma land_present v : 0 ≤ v < 4096 → Z.land (Z.lor 0x1000 v) 0xfff = v.
Proof.
  intros Hv. rewrite (land_ones_mod _ 12) by lia. change 0x1000 with (Z.shiftl 1 12). rewrite lor_pack by lia.
  symmetry. apply (Z.mod_unique _ _ 1); lia.
Qed.

Lemma fixed32_small v : 0 ≤ v < 4096 → fixed32 (Some v) = Ok v.
Proof. intros Hv. unfold fixed32. by rewrite decide_True by lia. Qed.

(** A subscriber's upstream flow becomes a pair of device flows for its PON and ONU, and the second
    undoes the first: upstream, frames with the inner tag get the outer one; downstream, frames with
    the outer and the inner tag lose the outer one. *)
Theorem subscriber_mirrored `{FlowDigest} prio cookie i o c sv nni s
    (Hi : 0 ≤ i < 16) (Ho : 0 ≤ o < 128) (Hc : 0 ≤ c < 4096) (Hsv : 0 ≤ sv < 4096)
    (Heap : is_eap_enabled device_flows i o = Ok false) (Hok : ∀ s f, refuses s f = None) :
  add_flow refuses device_flows (subscriber_flow prio cookie i o c sv nni) false s =
    (Ok tt, s ++
      [MkOltFlow i o (mk_flow_id i o 0) "upstream" (mk_gemport_id o 0)
         (MkClassifier c 0 0 0 0 0 0 0 0 "single_tag") (Some (MkActionMsg sv true false false));
       MkOltFlow i o (mk_flow_id i o 0) "downstream" (mk_gemport_id o 0)
         (MkClassifier sv c 0 0 0 0 0 0 0 "double_tag") (Some (MkActionMsg sv false true false))]).
Proof.
  assert (intf_id_from_uni_port_num (mk_uni_port_num i o) = i) as Hin.
  { rewrite intf_id_div, uni_port_num by lia. rewrite <- (Z.div_unique _ 2048 i (o * 16)) by lia. by apply Z.mod_small. }
  assert (onu_id_from_port_num (mk_uni_port_num i o) = o) as Hon.
  { rewrite onu_id_div, uni_port_num by lia. rewrite <- (Z.div_unique _ 16 (i * 128 + o) 0) by lia.
    symmetry. apply (Z.mod_unique _ _ i); lia. }
  unfold add_flow, subscriber_flow, get_in_port, iter_actions. rewrite mk_flow_stat_fields, mk_flow_stat_actions.
  assert (classify no_classifier [in_port (mk_uni_port_num i o); vlan_vid (Z.lor 0x1000 c)] =
    Ok (no_classifier <| ci_in_port := Some (mk_uni_port_num i o) |> <| ci_vlan_vid := Some c |>)) as Hcl.
  { replace (Some c) with (Some (Z.land (Z.lor 0x1000 c) 0xfff)) by (by rewrite land_present). reflexivity. }
  assert (read_actions no_action [push_vlan 0x8100; set_field (vlan_vid (Z.lor 0x1000 sv)); output nni] =
    Ok (no_action <| ai_push_vlan := true |> <| ai_tpid := Some 0x8100 |> <| ai_vlan_vid := Some sv |> <| ai_output := Some nni |>)) as Hac.
  { replace (Some sv) with (Some (Z.land (Z.lor 0x1000 sv) 0xfff)) by (by rewrite land_present). reflexivity. }
  do 3 mstep. rewrite Hcl. do 2 mstep. rewrite Hac. do 2 mstep.
  unfold divide_and_add_flow, add_data_flow, add_hsia_flow, add_olt_flow, mbind, M_bind, FlowAdd, mk_classifier, mk_action.
  cbn -[fixed32 mk_flow_id mk_gemport_id mk_uni_port_num is_eap_enabled].
  rewrite Hin, Hon, !fixed32_small by lia. cbn -[mk_flow_id mk_gemport_id is_eap_enabled].
  by rewrite !Hok, Heap, <- app_assoc.
Qed.
End flow_mgr.

(** ** ONU ids *)
Lemma onu_ids_from n : new_onu_id n =
  match list_find (λ i, i ∉ n) (Z.of_nat <$> seq 1 511) with Some (_, i) => Some i | None => None end.
Proof.
  unfold new_onu_id. generalize (Z.of_nat <$> seq 1 511). induction l as [|i l IH]; [done|].
  rewrite filter_cons. cbn [list_find]. case_decide; [done|]. rewrite IH. by destruct (list_find _ l) as [[]|].
Qed.

Lemma onu_candidate (k : nat) i : (Z.of_nat <$> seq 1 511) !! k = Some i ↔ (k < 511)%nat ∧ i = Z.of_nat k + 1.
Proof.
  rewrite list_lookup_fmap, fmap_Some. split.
  - intros (j&Hj&->). apply lookup_seq in Hj as [-> Hk]. lia.
  - intros [Hk ->]. exists (1 + k)%nat. split; [apply lookup_seq; lia|lia].
Qed.

(** A new ONU id is not in use, the least such one from 1 to 511, and there is none only when all
    of these are in use; as long as the OLT has fewer than 127 ONUs it is below 128, so that the
    identifiers made of it are those of no other ONU. *)
Theorem new_onu_id_fresh taken :
  match new_onu_id taken with
  | Some i => 1 ≤ i ≤ 511 ∧ i ∉ taken ∧ (∀ j, 1 ≤ j < i → j ∈ taken) ∧ ((length taken < 127)%nat → i < 128)
  | None => (∀ j, 1 ≤ j ≤ 511 → j ∈ taken) ∧ (511 ≤ length taken)%nat
  end.
Proof.
  assert (∀ n : nat, (∀ j, 1 ≤ j ≤ Z.of_nat n → j ∈ taken) → (n ≤ length taken)%nat) as Hpigeon.
  { intros n Hall. rewrite <- (length_seq n 1), <- (length_fmap Z.of_nat). apply submseteq_length, NoDup_submseteq.
    - apply NoDup_fmap_2; [intros a b; lia|apply NoDup_seq].
    - intros j Hj. apply list_elem_of_fmap in Hj as (k&->&Hk). apply elem_of_seq in Hk. apply Hall. lia. }
  rewrite onu_ids_from. destruct (list_find _ _) as [[k i]|] eqn:Hf.
  - apply list_find_Some in Hf as (Hk&Hi&Hmin). apply onu_candidate in Hk as [Hk ->].
    assert (∀ j, 1 ≤ j < Z.of_nat k + 1 → j ∈ taken) as Hbelow.
    { intros j Hj. destruct (decide (j ∈ taken)); [done|]. exfalso.
      apply (Hmin (Z.to_nat (j - 1)) j); [|lia|done]. apply onu_candidate. lia. }
    split_and!; [lia..|done|done|]. intros Hlen. destruct (decide (Z.of_nat k + 1 < 128)); [done|].
    specialize (Hpigeon 127%nat). assert (127 ≤ length taken)%nat; [|lia]. apply Hpigeon. intros j Hj. apply Hbelow. lia.
  - apply list_find_None in Hf. rewrite Forall_forall in Hf. assert (∀ j, 1 ≤ j ≤ 511 → j ∈ taken) as Hall.
    { intros j Hj. destruct (decide (j ∈ taken)); [done|]. exfalso. apply (Hf j); [|done].
      apply list_elem_of_lookup. exists (Z.to_nat (j - 1)). apply onu_candidate. lia. }
    split; [done|]. by apply (Hpigeon 511%nat).
Qed.

(** ** Packets *)

(** Packets find their way back: the logical port reported for a packet from a GEM port of an ONU
    is the port of that ONU, and a packet sent out to it goes to the same PON and ONU, without its
    outer tag if it has two. *)
Theorem packet_roundtrip ports i o gem name pkt (Hi : 0 ≤ i < 16) (Ho : 0 ≤ o < 128) (Hg : 0 ≤ gem < 8) :
  openolt_packet_out (port_config (mk_uni_port_num i o) name ports) (packet_indication i (mk_gemport_id o gem)) pkt =
    Some (OnuPacket i o (if double_tag pkt then pop_shim pkt else pkt)).
Proof.
  unfold packet_indication, openolt_packet_out, port_config, port_type. rewrite gemport_onu by done. rewrite lookup_insert_eq. simpl.
  destruct (ids_in_range (mk_uni_port_num i o)) as [_ _]. rewrite intf_id_div, onu_id_div, uni_port_num by done.
  rewrite <- (Z.div_unique _ 2048 i (o * 16)), <- (Z.div_unique _ 16 (i * 128 + o) 0) by lia.
  rewrite (Z.mod_small i) by done. by rewrite <- (Z.mod_unique _ 128 i o) by lia.
Qed.

(** ** The heartbeat *)
Lemma missed_rounds n h : heartbeat_loop h (replicate n Missed) =
  (Heartbeat (heartbeat_miss h + Z.of_nat n) (heartbeat_signature h) (indications_thread_active h),
   if decide (heartbeat_miss h < MAX_HEARTBEAT_MISS ≤ heartbeat_miss h + Z.of_nat n) then [OltDown] else []).
Proof.
  unfold MAX_HEARTBEAT_MISS. revert h. induction n as [|n IH]; intros [m sg act]; simpl.
  - rewrite decide_False by lia. repeat f_equal. lia.
  - rewrite IH. simpl. unfold MAX_HEARTBEAT_MISS. f_equal; [f_equal; lia|].
    destruct (decide (m + 1 = 3)), (decide (m + 1 < 3 ≤ m + 1 + Z.of_nat n)), (decide (m < 3 ≤ m + Z.of_nat (S n))); simpl; done || lia.
Qed.

Lemma heartbeat_loop_app h l1 l2 : heartbeat_loop h (l1 ++ l2) =
  let '(h1, e1) := heartbeat_loop h l1 in let '(h2, e2) := heartbeat_loop h1 l2 in (h2, e1 ++ e2).
Proof.
  revert h. induction l1 as [|b l1 IH]; intros h; simpl; [by destruct (heartbeat_loop h l2)|].
  destruct (heartbeat_round h b) as [h1 e1]. rewrite IH. destruct (heartbeat_loop h1 l1) as [h2 e2].
  destruct (heartbeat_loop h2 l2) as [h3 e3]. by rewrite app_assoc.
Qed.

(** What the heartbeat reports of an outage of [n] rounds: the OLT is taken down once, at the third
    missed round, and reported reachable again when the connection is back only if the outage was
    longer than three rounds; the counter starts again from zero. *)
Theorem outage_reported n h sig (Hup : heartbeat_miss h = 0) (Hact : indications_thread_active h = true) :
  heartbeat_loop h (replicate n Missed ++ [Beat sig]) =
    (Heartbeat 0 (Some sig) true,
     (if decide (3 ≤ n)%nat then [OltDown] else []) ++ (if decide (4 ≤ n)%nat then [OltReachable] else [])).
Proof.
  rewrite heartbeat_loop_app, missed_rounds. simpl. rewrite Hup, Hact. unfold MAX_HEARTBEAT_MISS. f_equal. rewrite !app_nil_r.
  f_equal; repeat case_decide; done || lia.
Qed.

(** ** Witnesses and runs *)
Section sample_olt.
Local Existing Instance sample_digest.
Local Open Scope string_scope.

Definition accepts : list OltFlow → OltFlow → option exn := λ _ _, None.
Definition eapol_flow (i o : Z) : ofp_flow_stats :=
  mk_flow_stat 1000 1 [in_port (mk_uni_port_num i o); eth_type 0x888e] [output 0xfffffffd].
(** DHCP from the network, trapped at the NNI port 128 *)
Definition nni_dhcp_flow : ofp_flow_stats := mk_flow_stat 1000 2 [in_port 128; ip_proto 17; udp_src 67] [output 0xfffffffd].

Lemma flows_apart_witness : Forall addressed [] ∧
  Forall addressed (openolt_update_flow_table accepts [] [128] [eapol_flow 0 1; eapol_flow 0 2] []).2.
Proof. split; [constructor|]. apply (flows_apart accepts [] [128] [eapol_flow 0 1; eapol_flow 0 2] []). constructor. Defined.

Lemma subscriber_mirrored_witness :
  (add_flow accepts [] (subscriber_flow 500 1 2 5 100 1000 128) false []).1 = Ok tt ∧
  length (add_flow accepts [] (subscriber_flow 500 1 2 5 100 1000 128) false []).2 = 2%nat.
Proof. rewrite (subscriber_mirrored accepts [] 500 1 2 5 100 1000 128 []); [done|lia..|done|done]. Defined.

Lemma packet_roundtrip_witness :
  openolt_packet_out (port_config (mk_uni_port_num 2 5) "uni" ∅) (packet_indication 2 (mk_gemport_id 5 0)) (Ether "a" "b" 0x0800 (Data None None 60)) =
    Some (OnuPacket 2 5 (Ether "a" "b" 0x0800 (Data None None 60))).
Proof. apply (packet_roundtrip ∅ 2 5 0 "uni"); lia. Defined.

Lemma outage_reported_witness :
  heartbeat_loop (Heartbeat 0 (Some 1) true) (replicate 5 Missed ++ [Beat 1]) = (Heartbeat 0 (Some 1) true, [OltDown; OltReachable]).
Proof. apply (outage_reported 5 (Heartbeat 0 (Some 1) true) 1); reflexivity. Defined.

(** An outage of exactly three rounds takes the OLT down for good. *)
Example short_outage_not_restored :
  heartbeat_loop (Heartbeat 0 (Some 1) true) (replicate 3 Missed ++ [Beat 1]) = (Heartbeat 0 (Some 1) true, [OltDown]).
Proof. reflexivity. Qed.

(** The flow table is added once per flow, each time with the direction of that
    flow: a flow at the NNI port is taken for one of ONU 8 on PON 0. *)
Example nni_flow_taken_for_onu_8 :
  (λ f, (of_onu_id f, of_flow_type f)) <$> (openolt_update_flow_table accepts [] [128] [eapol_flow 0 1; nni_dhcp_flow] []).2 =
    [(1, "upstream"); (1, "downstream"); (8, "upstream")].
Proof. vm_compute. reflexivity. Qed.

Example flow_table_added_repeatedly :
  length (openolt_update_flow_table accepts [] [128] [eapol_flow 0 1; eapol_flow 0 2; eapol_flow 0 3] []).2 = 18%nat.
Proof. vm_compute. reflexivity. Qed.

(** The first NNI port and the UNI port of ONU 8 on PON 0 have the same number:
    once the ONU is up, packets for the network go to the ONU. *)
Example uni_replaces_nni :
  mk_uni_port_num 0 8 = 128 ∧ intf_id_to_port_no 0 PortType.ETHERNET_NNI = Ok 128 ∧
  (∀ pkt, match openolt_add_port 0 PortType.ETHERNET_NNI OperStatus.ACTIVE ∅ with
          | Ok ports => openolt_packet_out ports 128 pkt = Some (UplinkPacket 0 pkt) ∧
              openolt_packet_out (port_config (mk_uni_port_num 0 8) "onu" ports) 128 pkt = Some (OnuPacket 0 8 (if double_tag pkt then pop_shim pkt else pkt))
          | Err _ => False
          end).
Proof. done. Qed.

(** Without free ids below 128, an ONU is given one whose numbers are those of another. *)
Example onu_id_overflows :
  new_onu_id (Z.of_nat <$> seq 1 127) = Some 128 ∧ mk_uni_port_num 0 128 = mk_uni_port_num 1 0 ∧
  onu_id_from_port_num (mk_uni_port_num 0 129) = 1.
Proof. vm_compute. done. Qed.

(** T-CONTs are not numbered as the comment on top of the platform says. *)
Example alloc_id_layout : mk_alloc_id 5 3 = 1028 ∧ mk_alloc_id 5 3 = mk_alloc_id 5 0.
Proof. done. Qed.
End sample_olt.
