(* ===== verification/Dispatcher.v ===== *)
(** * The dispatcher

    src/voltha/core/dispatcher.py: requests of the global service go to the local
    instance, to the peer that owns the id in the request, or to all instances.
    The peers are those of the coordinator (Coordination.v); the dispatcher keeps
    a gRPC channel for each.  The calls block, so a request runs to its end before
    anything else; gRPC and the local handler are the class Rpc. *)
From S2P Require Import Prelude IdGeneration Coordination.
From Stdlib Require Import ZArith Lia.
From stdpp Require Import base gmap strings list.

(** ** Calls *)
Inductive StatusCode :=
  | OK | CANCELLED | UNKNOWN | INVALID_ARGUMENT | DEADLINE_EXCEEDED | NOT_FOUND | ALREADY_EXISTS | PERMISSION_DENIED
  | UNAUTHENTICATED | RESOURCE_EXHAUSTED | FAILED_PRECONDITION | ABORTED | OUT_OF_RANGE | UNIMPLEMENTED | INTERNAL | UNAVAILABLE | DATA_LOSS.

#[export] Instance StatusCode_eq_dec : EqDecision StatusCode.
Proof. solve_decision. Defined.

(** What [method.with_call] does *)
Inductive rpc_result (Msg : Type) :=
  | Answer (m : Msg)
  | Rendezvous (code : StatusCode)
  | Raised (e : exn).
Arguments Answer {Msg} m.
Arguments Rendezvous {Msg} code.
Arguments Raised {Msg} e.

(** What [dispatch] returns: None, a message or a DispatchError *)
Inductive dispatched (Msg : Type) :=
  | Nothing
  | Message (m : Msg)
  | DispatchError (error_code : StatusCode).
Arguments Nothing {Msg}.
Arguments Message {Msg} m.
Arguments DispatchError {Msg} error_code.

#[export] Instance dispatched_eq_dec `{EqDecision Msg} : EqDecision (dispatched Msg).
Proof. solve_decision. Defined.

(** The calls made so far.  A call of the local handler passes it the context of the
    request; [code] is the status code that it sets there, if it does. *)
Inductive call_event (Chan Req : Type) :=
  | LocalCall (method_name : string) (request : Req) (code : option StatusCode)
  | RemoteCall (channel : Chan) (method_name : string) (request : Req).
Arguments LocalCall {Chan Req} method_name request code.
Arguments RemoteCall {Chan Req} channel method_name request.

#[export] Instance event_eq_dec `{EqDecision Chan, EqDecision Req} : EqDecision (call_event Chan Req).
Proof. solve_decision. Defined.

(** gRPC, the local handler and messages.  What a call returns may depend on all
    calls before it; [local_code] is the code the local handler sets on the context,
    whether it returns or raises. *)
Class Rpc (Chan Req Msg : Type) := {
  insecure_channel : string → Z → result Chan;
  with_call : list (call_event Chan Req) → Chan → string → Req → rpc_result Msg;
  local_method : list (call_event Chan Req) → string → Req → result Msg;
  local_code : list (call_event Chan Req) → string → Req → option StatusCode;
  MergeFrom : Msg → Msg → result Msg;
}.

Section dispatcher.
Context {Chan Req Msg : Type} `{EqDecision Msg} {rpc : Rpc Chan Req Msg} {HO : DictOrder}.

Record dispatcher := Dispatcher {
  dp_instance_id : string;
  dp_core_store_id : string;
  dp_grpc_port : Z;
  dp_peers_map : assignment;
  grpc_conn_map : gmap string (option Chan);
  trace : list (call_event Chan Req);
}.

#[export] Instance dispatcher_eta : Eta dispatcher := λ d,
  Dispatcher (dp_instance_id d) (dp_core_store_id d) (dp_grpc_port d) (dp_peers_map d) (grpc_conn_map d) (trace d).

Definition mk_dispatcher (instance_id core_store_id : string) (grpc_port : Z) : dispatcher :=
  Dispatcher instance_id core_store_id grpc_port ∅ ∅ [].

(** The value of a key that is there and not [None] *)
Definition live_at {A} (m : gmap string (option A)) (id : string) : option A := m !! id ≫= λ o, o.

(** ** Connections *)

(** [None] if the channel cannot be made *)
Definition connect_to_peer (host : string) : M dispatcher (option Chan) :=
  port ← gets dp_grpc_port;
  match insecure_channel host port with
  | Ok channel => mret (Some channel)
  | Err _ => mret None
  end.

(** [self.grpc_conn_map[id]], a channel that is there or [None] *)
Definition connection (id : string) : M dispatcher (option Chan) :=
  m ← gets grpc_conn_map;
  from_some KeyError (m !! id).

Definition set_connection (id : string) (c : option Chan) : M dispatcher unit :=
  modify (λ d, d <| grpc_conn_map ::= <[id := c]> |>).

(** [self.grpc_conn_map.pop(peer_id)] *)
Definition pop_connection (peer_id : string) : M dispatcher unit :=
  _ ← connection peer_id;
  modify (λ d, d <| grpc_conn_map ::= delete peer_id |>).

Definition disconnect_from_peer (peer_id : string) : M dispatcher unit :=
  _ ← swallow (c ← connection peer_id; if (c : option Chan) then set_connection peer_id None else mret tt);
  pop_connection peer_id.

Definition reconnect_to_peer (peer_id : string) : M dispatcher bool :=
  try_except
    (_ ← disconnect_from_peer peer_id;
     peers ← gets dp_peers_map;
     match live_at peers peer_id with
     | Some peer_instance => c ← connect_to_peer (m_host peer_instance); _ ← set_connection peer_id c; mret true
     | None => mret false
     end)
    (λ _, mret false).

(** The connections to open and to close; [old] are the peers before *)
Definition update_one (old : assignment) (acc : gmap string string * gset string) (p : string * option member)
    : gmap string string * gset string :=
  let '(to_open, to_close) := acc in
  let '(id, instance) := p in
  if decide (old !! id = Some instance) then acc
  else
    match old !! id, instance with
    | None, Some i => (<[id := m_host i]> to_open, to_close)
    | None, None => acc
    | Some o, Some i => (<[id := m_host i]> to_open, if (o : option member) then {[id]} ∪ to_close else to_close)
    | Some o, None => (to_open, if (o : option member) then {[id]} ∪ to_close else to_close)
    end.

Definition close_old (old : assignment) (to_close : gset string) (id : string) : gset string :=
  match old !! id with Some (Some _) => {[id]} ∪ to_close | _ => to_close end.

Definition connection_changes (old new : assignment) : gmap string string * gset string :=
  let '(to_open, to_close) := foldl (update_one old) (∅, ∅) (iteritems new) in
  let old_ids : gset string := dom old ∖ dom new in
  (to_open, foldl (close_old old) to_close (set_items old_ids)).

Definition refresh_grpc_connections (to_open : gmap string string) (to_close : gset string) : M dispatcher unit :=
  swallow
    (_ ← forM_ (λ id, c ← connection id; if (c : option Chan) then disconnect_from_peer id else mret tt) (set_items to_close);
     forM_ (λ '(id, host),
       m ← gets grpc_conn_map;
       _ ← (if decide (is_Some (live_at m id)) then disconnect_from_peer id else mret tt);
       if decide (host = "") then mret tt
       else c ← connect_to_peer host; set_connection id c) (iteritems to_open)).

Definition update_grpc_client_map (peers : assignment) : M dispatcher unit :=
  old ← gets dp_peers_map;
  let '(to_open, to_close) := connection_changes old peers in
  refresh_grpc_connections to_open to_close.

(** A round of [_start_tracking_peers] *)
Definition peers_map_changed (peers : assignment) : M dispatcher unit :=
  _ ← update_grpc_client_map peers;
  modify (λ d, d <| dp_peers_map := peers |>).

(** ** Requests *)
Definition local_dispatch (method_name : string) (request : Req) : M dispatcher Msg :=
  t ← gets trace;
  _ ← modify (λ d, d <| trace ::= λ t, t ++ [LocalCall method_name request (local_code t method_name request)] |>);
  lift (local_method t method_name request).

Definition call_peer (channel : Chan) (method_name : string) (request : Req) : M dispatcher (rpc_result Msg) :=
  t ← gets trace;
  _ ← modify (λ d, d <| trace ::= λ t, t ++ [RemoteCall channel method_name request] |>);
  mret (with_call t channel method_name request).

Fixpoint dispatch_to_peer (core_id method_name : string) (request : Req) (retry : nat) : M dispatcher (dispatched Msg) :=
  peers ← gets dp_peers_map;
  match live_at peers core_id with
  | None => mret Nothing
  | Some _ =>
      c ← connection core_id;
      channel ← from_some AttributeError c;
      r ← call_peer channel method_name request;
      match r with
      | Answer m => mret (Message m)
      | Raised e => raise e
      | Rendezvous code =>
          if decide (code = UNAVAILABLE) then
            status ← reconnect_to_peer core_id;
            match (status : bool), retry with
            | true, S retry => dispatch_to_peer core_id method_name request retry
            | _, _ => mret (DispatchError code)
            end
          else mret (DispatchError code)
      end
  end.

(** The accumulated [result] is the first of the responses. *)
Definition broadcast_step (method_name : string) (request : Req) (acc : Msg * list Msg) (core_id : string)
    : M dispatcher (Msg * list Msg) :=
  let '(res, others) := acc in
  d ← gets id;
  if decide (core_id = dp_core_store_id d) then mret acc
  else
    match grpc_conn_map d !! core_id with
    | None => mret acc
    | Some c =>
        if decide (is_Some (live_at (dp_peers_map d) core_id) ∧ is_Some c) then
          r ← dispatch_to_peer core_id method_name request 0;
          match r with
          | DispatchError _ => mret acc
          | Nothing => raise TypeError
          | Message m =>
              if decide (m ∈ res :: others) then mret acc
              else res' ← lift (MergeFrom res m); mret (res', others ++ [m])
          end
        else mret acc
    end.

Definition broadcast_request (method_name : string) (request : Req) : M dispatcher Msg :=
  res ← local_dispatch method_name request;
  peers ← gets dp_peers_map;
  acc ← foldM (broadcast_step method_name request) (res, []) (iteritems peers).*1;
  mret acc.1.

(** The tests of [dispatch] on optional ids: [None] and the empty string are false *)
Definition truthy_id (s : option string) : option string := match s with Some "" => None | _ => s end.

Inductive target := ToAll | ToLocal | ToPeer (core_id : string).

(** Where a request goes.  [core_of_id] is the core id in the request's id, if it has one. *)
Definition route_request (own : string) (core_id id core_of_id : option string) (broadcast : bool) : result (option target) :=
  if broadcast then Ok (Some ToAll)
  else if bool_decide (truthy_id core_id = Some own) then Ok (Some ToLocal)
  else match truthy_id id with
  | None => Ok (Some ToLocal)
  | Some id =>
      match truthy_id core_of_id with
      | None => Ok None
      | Some c =>
          if decide (c = own) then Ok (Some ToLocal)
          else match is_broadcast_core_id id with
               | Ok true => Ok (Some ToLocal)
               | Ok false => Ok (Some (ToPeer c))
               | Err e => Err e
               end
      end
  end.

Definition dispatch (method_name : string) (request : Req) (core_id id : option string) (broadcast : bool)
    : M dispatcher (dispatched Msg) :=
  let go (core_of_id : option string) : M dispatcher (dispatched Msg) :=
    try_except
      (own ← gets dp_core_store_id;
       t ← lift (route_request own core_id id core_of_id broadcast);
       match t with
       | Some ToAll => m ← broadcast_request method_name request; mret (Message m)
       | Some ToLocal => m ← local_dispatch method_name request; mret (Message m)
       | Some (ToPeer c) => dispatch_to_peer c method_name request 0
       | None => mret (DispatchError INVALID_ARGUMENT)
       end)
      (λ _, mret (DispatchError UNKNOWN)) in
  match truthy_id id with
  | None => go None
  | Some i =>
      match get_core_id_from_device_id i with
      | Ok c => go (Some c)
      | Err _ => mret (DispatchError NOT_FOUND)
      end
  end.

(** ** The instances of the cluster *)

(** [instance['id']] of each entry *)
Definition instance_ids (d : dispatcher) : result (list (string * string)) :=
  foldr (λ p acc,
    match p.2, acc with
    | Some i, Ok l => Ok ((p.1, m_id i) :: l)
    | None, _ => Err TypeError
    | _, Err e => Err e
    end) (Ok []) (iteritems (dp_peers_map d)).

(** Stops at the first entry that is the instance, or has none *)
Fixpoint find_instance (instance_id : string) (l : list (string * option member)) : result (option string) :=
  match l with
  | [] => Ok None
  | (id, Some i) :: l => if decide (m_id i = instance_id) then Ok (Some id) else find_instance instance_id l
  | (_, None) :: _ => Err TypeError
  end.

Definition get_core_id_from_instance_id (instance_id : string) (d : dispatcher) : result (option string) :=
  if decide (instance_id = dp_instance_id d) then Ok (Some (dp_core_store_id d))
  else find_instance instance_id (iteritems (dp_peers_map d)).

Definition get_cluster_instances (d : dispatcher) : result (list string) :=
  match instance_ids d with
  | Ok l => Ok (dp_instance_id d :: l.*2)
  | Err e => Err e
  end.
End dispatcher.

Arguments dispatcher : clear implicits.
