(* ===== verification/DispatcherProofs.v ===== *)
(** * Connections and routing of the dispatcher

    The dispatcher of Dispatcher.v has a channel to the host of each peer at all
    times, sends a request with an id to the instance that owns it and nowhere
    else, and a broadcast to every instance once. *)
From S2P Require Import Prelude IdGeneration Coordination Dispatcher.
From Stdlib Require Import ZArith Lia.
From stdpp Require Import base gmap strings list.

Section proofs.
Context {Chan Req Msg : Type} `{EqDecision Msg} {rpc : Rpc Chan Req Msg} {HO : DictOrder}.
Notation D := (dispatcher Chan Req).

(** A channel is made without connecting, so that always succeeds. *)
Context (Hchannel : ∀ host port, ∃ c, insecure_channel host port = Ok c).

Definition channel_to (d : D) (host : string) : option Chan :=
  match insecure_channel host (dp_grpc_port d) with Ok c => Some c | Err _ => None end.

(** Exactly the peers that have an instance have a connection, to its host. *)
Definition in_step (d : D) : Prop :=
  ∀ id, grpc_conn_map d !! id = (λ m, channel_to d (m_host m)) <$> live_at (dp_peers_map d) id.

(** Only calls were added. *)
Definition only_calls (d d' : D) : Prop := ∃ t, d' = d <| trace := t |>.

Lemma connect_run host (d : D) : connect_to_peer host d = (Ok (channel_to d host), d).
Proof. unfold connect_to_peer, channel_to, mbind, M_bind, gets. by destruct (insecure_channel host (dp_grpc_port d)). Qed.

Lemma channel_some (d : D) host : is_Some (channel_to d host).
Proof. unfold channel_to. destruct (Hchannel host (dp_grpc_port d)) as [c ->]. eauto. Qed.

Lemma connection_run (d : D) id c : grpc_conn_map d !! id = Some c → connection id d = (Ok c, d).
Proof. intros Hc. unfold connection, mbind, M_bind, gets, from_some. by rewrite Hc. Qed.

Lemma conn_ext (d d' : D) g g' : g (grpc_conn_map d) = g' (grpc_conn_map d') →
  d <| grpc_conn_map := ∅ |> = d' <| grpc_conn_map := ∅ |> → d <| grpc_conn_map ::= g |> = d' <| grpc_conn_map ::= g' |>.
Proof. destruct d, d'. unfold update_field. simpl. intros Hg [= -> -> -> -> ->]. by rewrite Hg. Qed.

Lemma disconnect_run (d : D) id c : grpc_conn_map d !! id = Some c →
  disconnect_from_peer id d = (Ok tt, d <| grpc_conn_map ::= delete id |>).
Proof.
  intros Hc. unfold disconnect_from_peer, pop_connection. destruct c as [c|].
  - assert (swallow (c ← connection id; if (c : option Chan) then set_connection id None else mret tt) d =
      (Ok tt, d <| grpc_conn_map ::= <[id := None]> |>)) as Hs.
    { unfold swallow. by erewrite bind_ok by (by apply connection_run). }
    erewrite bind_ok by exact Hs. erewrite bind_ok by (apply connection_run; simpl; apply lookup_insert_eq).
    unfold modify. f_equal. apply conn_ext; [apply delete_insert_eq|done].
  - assert (swallow (c ← connection id; if (c : option Chan) then set_connection id None else mret tt) d = (Ok tt, d)) as Hs.
    { unfold swallow. by erewrite bind_ok by (by apply connection_run). }
    erewrite bind_ok by exact Hs. by erewrite bind_ok by (by apply connection_run).
Qed.

(** Reconnecting to a peer leaves the connections as they are. *)
Lemma reconnect_run (d : D) id m : in_step d → live_at (dp_peers_map d) id = Some m → reconnect_to_peer id d = (Ok true, d).
Proof.
  intros Hs Hm. pose proof (Hs id) as Hc. rewrite Hm in Hc. simpl in Hc. unfold reconnect_to_peer, try_except.
  erewrite bind_ok by (by apply (disconnect_run d id _ Hc)). erewrite bind_ok by done. cbn [dp_peers_map update_field]. simpl. rewrite Hm.
  erewrite bind_ok by apply connect_run. unfold set_connection, modify, mbind, M_bind, mret, M_ret. f_equal.
  transitivity (d <| grpc_conn_map ::= λ c, c |>); [|by destruct d]. apply conn_ext; [|done]. simpl. rewrite insert_delete_eq. by apply insert_id.
Qed.

(** ** Requests to a peer *)
Lemma to_peer_run (d : D) core name req m ch : in_step d → live_at (dp_peers_map d) core = Some m →
  insecure_channel (m_host m) (dp_grpc_port d) = Ok ch →
  dispatch_to_peer core name req 0 d =
    (match with_call (trace d) ch name req with
     | Answer r => Ok (Message r)
     | Raised e => Err e
     | Rendezvous code => Ok (DispatchError code)
     end, d <| trace ::= λ t, t ++ [RemoteCall ch name req] |>).
Proof.
  intros Hs Hm Hch. pose proof (Hs core) as Hc. rewrite Hm in Hc. simpl in Hc. unfold channel_to in Hc. rewrite Hch in Hc.
  cbn [dispatch_to_peer]. erewrite bind_ok by done. rewrite Hm. erewrite bind_ok by (by apply connection_run).
  erewrite bind_ok by done. erewrite bind_ok by done.
  destruct (with_call (trace d) ch name req) as [r|code|e]; [done| |done]. case_decide as Hu; [|done].
  erewrite bind_ok by (apply (reconnect_run _ core m); [exact Hs|exact Hm]). done.
Qed.

Lemma to_nobody_run (d : D) core name req : live_at (dp_peers_map d) core = None → dispatch_to_peer core name req 0 d = (Ok Nothing, d).
Proof. intros Hm. cbn [dispatch_to_peer]. erewrite bind_ok by done. by rewrite Hm. Qed.

(** ** Changes of the peers *)
Lemma iteritems_get {V} (m : gmap string V) k : od_get k (iteritems m) = m !! k.
Proof.
  destruct (m !! k) as [v|] eqn:Hk.
  - apply od_get_in; [apply NoDup_iteritems_keys|]. by apply elem_of_iteritems.
  - apply od_get_None. intros ([k' v]&->&Hin)%list_elem_of_fmap. apply elem_of_iteritems in Hin. simpl in *. congruence.
Qed.

Lemma update_fold old l o c : NoDup l.*1 →
  (∀ id, (foldl (update_one old) (o, c) l).1 !! id =
     match od_get id l with
     | Some (Some i) => if decide (old !! id = Some (Some i)) then o !! id else Some (m_host i)
     | _ => o !! id
     end) ∧
  (∀ id, id ∈ (foldl (update_one old) (o, c) l).2 ↔
     id ∈ c ∨ ∃ inst x, od_get id l = Some inst ∧ old !! id ≠ Some inst ∧ old !! id = Some (Some x)).
Proof.
  revert o c. induction l as [|[id inst] l IH]; intros o c Hnd; [split; [done|naive_solver]|].
  apply NoDup_cons in Hnd as [Hni Hnd]. cbn [foldl].
  assert (od_get id l = None) as Hnone by (by apply od_get_None).
  destruct (update_one old (o, c) (id, inst)) as [o1 c1] eqn:H1. destruct (IH o1 c1 Hnd) as [Ho Hc].
  assert (∀ x, x ≠ id → o1 !! x = o !! x ∧ (x ∈ c1 ↔ x ∈ c)) as Hother.
  { intros x Hx. unfold update_one in H1. repeat case_match; simplify_eq; rewrite ?lookup_insert_ne by done; set_solver. }
  split; intros x; cbn [od_get].
  - rewrite Ho. destruct (decide (x = id)) as [->|Hx]; [|by rewrite (proj1 (Hother x Hx))].
    rewrite Hnone. unfold update_one in H1. repeat case_match; simplify_eq; rewrite ?lookup_insert_eq; try done;
      repeat case_decide; congruence.
  - rewrite Hc. destruct (decide (x = id)) as [->|Hx]; [|by rewrite (proj2 (Hother x Hx))].
    rewrite Hnone. unfold update_one in H1. repeat case_match; simplify_eq; set_solver.
Qed.

Lemma close_fold old l c id : id ∈ foldl (close_old old) c l ↔ id ∈ c ∨ id ∈ l ∧ ∃ x, old !! id = Some (Some x).
Proof.
  revert c. induction l as [|k l IH]; intros c; cbn [foldl]; [set_solver|]. rewrite IH. unfold close_old.
  destruct (old !! k) as [[x|]|] eqn:Hk; set_solver by congruence.
Qed.

(** What is opened: the instances that are new or changed.  What is closed: those that are gone or changed. *)
Lemma changes_spec old new :
  (∀ id h, (connection_changes old new).1 !! id = Some h ↔
     ∃ i, new !! id = Some (Some i) ∧ old !! id ≠ Some (Some i) ∧ h = m_host i) ∧
  (∀ id, id ∈ (connection_changes old new).2 ↔ ∃ x, old !! id = Some (Some x) ∧ new !! id ≠ Some (Some x)).
Proof.
  unfold connection_changes. pose proof (update_fold old (iteritems new) ∅ ∅ (NoDup_iteritems_keys new)) as [Ho Hc].
  destruct (foldl (update_one old) (∅, ∅) (iteritems new)) as [o c]. simpl in *. split.
  - intros id h. rewrite Ho, iteritems_get. destruct (new !! id) as [[i|]|].
    + case_decide; rewrite ?lookup_empty; naive_solver.
    + rewrite lookup_empty. naive_solver.
    + rewrite lookup_empty. naive_solver.
  - intros id. rewrite close_fold, Hc, iteritems_get, elem_of_set_items, elem_of_difference, !elem_of_dom. split.
    + intros [[?|(inst&x&Hn&Hne&Hx)]|([_ Hn]&x&Hx)]; [set_solver| |]; exists x; (split; [done|]); [congruence|].
      intros Hs. apply Hn. by eexists.
    + intros (x&Hx&Hn). destruct (new !! id) as [inst|] eqn:Hnew.
      * left. right. exists inst, x. split_and!; [done| |done]. congruence.
      * right. split; [|by eexists]. split; [by eexists|]. by intros [? [=]].
Qed.

Lemma close_loop l (d : D) : NoDup l → (∀ id, id ∈ l → ∃ ch, grpc_conn_map d !! id = Some (Some ch)) →
  ∃ m, forM_ (λ id, c ← connection id; if (c : option Chan) then disconnect_from_peer id else mret tt) l d =
         (Ok tt, d <| grpc_conn_map := m |>) ∧ ∀ id, m !! id = if decide (id ∈ l) then None else grpc_conn_map d !! id.
Proof.
  revert d. induction l as [|k l IH]; intros d Hnd Hl; [exists (grpc_conn_map d); by destruct d|].
  apply NoDup_cons in Hnd as [Hk Hnd]. destruct (Hl k ltac:(left)) as [ch Hch]. cbn [forM_].
  erewrite bind_ok by (erewrite bind_ok by (by apply connection_run); by apply (disconnect_run d k _ Hch)).
  destruct (IH (d <| grpc_conn_map ::= delete k |>) Hnd) as (m&Hm&Hlk).
  { intros id Hid. simpl. rewrite lookup_delete_ne by set_solver. apply Hl. by right. }
  exists m. rewrite Hm. split; [done|]. intros id. rewrite Hlk. simpl. destruct (decide (id = k)) as [->|Hne].
  - rewrite (decide_True (P := k ∈ k :: l)) by left. rewrite decide_False by done. apply lookup_delete_eq.
  - rewrite lookup_delete_ne by done. repeat case_decide; set_solver.
Qed.

Lemma open_loop l (d : D) : NoDup l.*1 → (∀ id h, (id, h) ∈ l → h ≠ "") →
  ∃ m, forM_ (λ '(id, host),
         mm ← gets grpc_conn_map;
         _ ← (if decide (is_Some (live_at mm id)) then disconnect_from_peer id else mret tt);
         if decide (host = "") then mret tt else c ← connect_to_peer host; set_connection id c) l d =
         (Ok tt, d <| grpc_conn_map := m |>) ∧
       ∀ id, m !! id = match od_get id l with Some h => Some (channel_to d h) | None => grpc_conn_map d !! id end.
Proof.
  revert d. induction l as [|[k h] l IH]; intros d Hnd Hl; [exists (grpc_conn_map d); by destruct d|].
  apply NoDup_cons in Hnd as [Hk Hnd]. assert (h ≠ "") as Hh by (apply (Hl k); left). cbn [forM_].
  assert (∃ m, ((mm ← gets grpc_conn_map;
         _ ← (if decide (is_Some (live_at mm k)) then disconnect_from_peer k else mret tt);
         if decide (h = "") then mret tt else c ← connect_to_peer h; set_connection k c) : M D unit) d = (Ok tt, d <| grpc_conn_map := m |>) ∧
       ∀ id, m !! id = if decide (id = k) then Some (channel_to d h) else grpc_conn_map d !! id) as (m1&Hm1&Hl1).
  { erewrite bind_ok by done. destruct (decide (is_Some (live_at (grpc_conn_map d) k))) as [Hlive|Hlive].
    - destruct (grpc_conn_map d !! k) as [c|] eqn:Hc; [|by unfold live_at in Hlive; rewrite Hc in Hlive; destruct Hlive].
      erewrite bind_ok by (by apply (disconnect_run d k c Hc)). rewrite decide_False by done.
      erewrite bind_ok by apply connect_run. eexists. split; [done|]. intros id. simpl. case_decide as Hid.
      + subst. apply lookup_insert_eq.
      + rewrite lookup_insert_ne by done. by apply lookup_delete_ne.
    - erewrite bind_ok by done. rewrite decide_False by done. erewrite bind_ok by apply connect_run. eexists. split; [done|].
      intros id. simpl. case_decide as Hid; [subst; apply lookup_insert_eq|by apply lookup_insert_ne]. }
  erewrite bind_ok by exact Hm1. destruct (IH (d <| grpc_conn_map := m1 |>) Hnd) as (m&Hm&Hlk).
  { intros id h' Hin. apply (Hl id). by right. }
  exists m. rewrite Hm. split; [done|]. intros id. rewrite Hlk. cbn [od_get]. simpl. rewrite Hl1.
  destruct (decide (id = k)) as [->|Hne]; [|by destruct (od_get id l)].
  rewrite (proj2 (od_get_None k l) Hk). done.
Qed.

(** Hosts are not empty. *)
Definition hosted (peers : assignment) : Prop := ∀ id i, peers !! id = Some (Some i) → m_host i ≠ "".

Lemma peers_changed (d : D) peers : in_step d → hosted peers →
  ∃ d', peers_map_changed peers d = (Ok tt, d') ∧ in_step d' ∧ dp_peers_map d' = peers ∧ trace d' = trace d ∧
    dp_core_store_id d' = dp_core_store_id d ∧ dp_grpc_port d' = dp_grpc_port d.
Proof.
  intros Hs Hh. unfold peers_map_changed, update_grpc_client_map.
  destruct (changes_spec (dp_peers_map d) peers) as [Hopen Hclose].
  destruct (connection_changes (dp_peers_map d) peers) as [to_open to_close] eqn:Hch. simpl in *.
  destruct (close_loop (set_items to_close) d (NoDup_set_items to_close)) as (m1&Hrun1&Hm1).
  { intros id Hid. apply elem_of_set_items, Hclose in Hid as (x&Hx&_). rewrite (Hs id). unfold live_at. rewrite Hx. simpl.
    destruct (channel_some d (m_host x)) as [c ->]. by exists c. }
  destruct (open_loop (iteritems to_open) (d <| grpc_conn_map := m1 |>) (NoDup_iteritems_keys to_open)) as (m2&Hrun2&Hm2).
  { intros id h Hin. apply elem_of_iteritems, Hopen in Hin as (i&Hi&_&->). by apply (Hh id). }
  eexists. split.
  { erewrite bind_ok by (erewrite bind_ok by done; rewrite Hch; unfold refresh_grpc_connections, swallow;
      erewrite bind_ok by exact Hrun1; by rewrite Hrun2). done. }
  split_and!; try done. intros id. simpl. rewrite Hm2, iteritems_get, Hm1. simpl.
  destruct (to_open !! id) as [h|] eqn:Ho.
  - apply Hopen in Ho as (i&Hi&_&->). unfold live_at. rewrite Hi. done.
  - unfold live_at. destruct (peers !! id) as [[i|]|] eqn:Hp; simpl.
    + assert (dp_peers_map d !! id = Some (Some i)) as Hold.
      { destruct (decide (dp_peers_map d !! id = Some (Some i))); [done|]. exfalso.
        assert (to_open !! id = Some (m_host i)) as Hx by (apply Hopen; by exists i). congruence. }
      rewrite decide_False by (rewrite elem_of_set_items, Hclose; intros (x&Hx&Hne); congruence).
      rewrite (Hs id). unfold live_at. by rewrite Hold.
    + case_decide as Hin; [done|]. rewrite (Hs id). unfold live_at. destruct (dp_peers_map d !! id) as [[x|]|] eqn:Hold; [|done|done].
      destruct Hin. apply elem_of_set_items, Hclose. exists x. split; [done|congruence].
    + case_decide as Hin; [done|]. rewrite (Hs id). unfold live_at. destruct (dp_peers_map d !! id) as [[x|]|] eqn:Hold; [|done|done].
      destruct Hin. apply elem_of_set_items, Hclose. exists x. split; [done|congruence].
Qed.

(** ** Requests change nothing but the calls made *)
Definition quiet (d d' : D) : Prop := in_step d → only_calls d d'.

#[export] Instance quiet_preorder : PreOrder quiet.
Proof.
  split; [intros d _; exists (trace d); by destruct d|]. intros d1 d2 d3 H1 H2 Hs. destruct (H1 Hs) as [t1 ->].
  destruct (H2 Hs) as [t2 ->]. by exists t2.
Qed.

Lemma local_quiet name req : follows quiet (local_dispatch name req).
Proof. intros d _. by eexists. Qed.

Lemma peer_quiet core name req : follows quiet (dispatch_to_peer core name req 0).
Proof.
  intros d Hs. destruct (live_at (dp_peers_map d) core) as [m|] eqn:Hm.
  - destruct (Hchannel (m_host m) (dp_grpc_port d)) as [ch Hch]. rewrite (to_peer_run d core name req m ch Hs Hm Hch). by eexists.
  - rewrite (to_nobody_run d core name req Hm). exists (trace d). by destruct d.
Qed.

Lemma follows_foldM_quiet {A B} (g : A → B → M D A) l a : (∀ a b, follows quiet (g a b)) → follows quiet (foldM g a l).
Proof.
  intros Hg. revert a. induction l as [|b l IH]; intros a; [apply follows_pure; [apply _|done]|]. by apply follows_bind; [apply _|..].
Qed.

Lemma dispatch_quiet name req core_id id broadcast : follows quiet (dispatch name req core_id id broadcast).
Proof.
  unfold dispatch, broadcast_request.
  repeat first [apply local_quiet | apply peer_quiet | apply follows_foldM_quiet; intros; unfold broadcast_step | follows_gen ltac:(done)].
Qed.

(** What happens to a dispatcher *)
Inductive dispatcher_step : D → D → Prop :=
  | step_peers d peers : hosted peers → dispatcher_step d (peers_map_changed peers d).2
  | step_request d name req core_id id broadcast : dispatcher_step d (dispatch name req core_id id broadcast d).2.

(** C16 Through any sequence of requests and changes of the peers, whatever the calls return, the
    dispatcher has exactly one connection for each peer that has an instance, to the host of that
    instance, and none for anybody else. *)
Theorem connections_in_step instance core port d (Hr : rtc dispatcher_step (mk_dispatcher instance core port) d) id :
  grpc_conn_map d !! id =
    match live_at (dp_peers_map d) id with Some m => Some (channel_to d (m_host m)) | None => None end ∧
  (∀ m, live_at (dp_peers_map d) id = Some m → is_Some (channel_to d (m_host m))).
Proof.
  assert (in_step d) as Hs.
  { remember (mk_dispatcher instance core port) as d0 eqn:Hd0.
    assert (in_step d0) as H0 by (subst; intros i; unfold live_at; simpl; by rewrite !lookup_empty). clear Hd0.
    induction Hr as [|d1 d2 d3 Hstep _ IH]; [done|]. apply IH. destruct Hstep as [d1 peers Hh|d1 name req ci i b].
    - destruct (peers_changed d1 peers H0 Hh) as (d'&Hrun&Hs&_). by rewrite Hrun.
    - destruct (dispatch_quiet name req ci i b d1 H0) as [t ->]. exact H0. }
  split; [|intros m _; apply channel_some]. rewrite (Hs id). by destruct (live_at (dp_peers_map d) id).
Qed.

(** ** Routing *)
Lemma first_chars_truthy id : String.length id = 16%nat → truthy_id (Some (first_chars 4 id)) = Some (first_chars 4 id) ∧ truthy_id (Some id) = Some id.
Proof. destruct id as [|a id]; [done|]. by destruct id. Qed.

(** A request with the id of a device goes to the instance that owns the id and to no other, once:
    to the local one if its core id, or the broadcast id, is in the id, otherwise to the host of the
    peer with that core id, and its answer or error code comes back; with no such peer nothing is
    called. *)
Theorem dispatch_owner d name req id (Hs : in_step d) (Hlen : String.length id = 16%nat) :
  let c := first_chars 4 id in
  (c = dp_core_store_id d ∨ c = BROADCAST_CORE_ID →
     dispatch name req None (Some id) false d =
       (Ok (match local_method (trace d) name req with Ok m => Message m | Err _ => DispatchError UNKNOWN end),
        d <| trace ::= λ t, t ++ [LocalCall name req (local_code (trace d) name req)] |>)) ∧
  (c ≠ dp_core_store_id d → c ≠ BROADCAST_CORE_ID →
     match live_at (dp_peers_map d) c with
     | Some i => ∃ ch, insecure_channel (m_host i) (dp_grpc_port d) = Ok ch ∧
         dispatch name req None (Some id) false d =
           (Ok (match with_call (trace d) ch name req with
                | Answer m => Message m
                | Rendezvous code => DispatchError code
                | Raised _ => DispatchError UNKNOWN
                end),
            d <| trace ::= λ t, t ++ [RemoteCall ch name req] |>)
     | None => dispatch name req None (Some id) false d = (Ok Nothing, d)
     end).
Proof.
  destruct (first_chars_truthy id Hlen) as [Ht Hid]. simpl.
  assert (dispatch name req None (Some id) false d =
    try_except
      (t ← lift (if decide (first_chars 4 id = dp_core_store_id d ∨ first_chars 4 id = BROADCAST_CORE_ID)
                 then Ok ToLocal else Ok (ToPeer (first_chars 4 id)));
       match t with
       | ToAll => m ← broadcast_request name req; mret (Message m)
       | ToLocal => m ← local_dispatch name req; mret (Message m)
       | ToPeer c => dispatch_to_peer c name req 0
       end) (λ _, mret (DispatchError UNKNOWN)) d) as ->.
  { unfold dispatch. rewrite Hid. unfold get_core_id_from_device_id. rewrite decide_True by done. unfold try_except.
    erewrite bind_ok by done. unfold route_request. rewrite Hid, Ht. rewrite bool_decide_false by done.
    unfold is_broadcast_core_id. rewrite (decide_True (P := String.length id = 16%nat)) by done.
    repeat case_decide; simpl; try done; try tauto; case_bool_decide; done || tauto. }
  split.
  - intros Hc. rewrite decide_True by done. unfold try_except. erewrite bind_ok by done. unfold local_dispatch.
    unfold mbind, M_bind, gets, modify, lift. by destruct (local_method (trace d) name req).
  - intros Hc Hb. rewrite decide_False by tauto. unfold try_except. erewrite bind_ok by done.
    destruct (live_at (dp_peers_map d) (first_chars 4 id)) as [i|] eqn:Hl.
    + destruct (Hchannel (m_host i) (dp_grpc_port d)) as [ch Hch]. exists ch. split; [done|].
      rewrite (to_peer_run d _ name req i ch Hs Hl Hch). by destruct (with_call (trace d) ch name req).
    + by rewrite (to_nobody_run d _ name req Hl).
Qed.

(** A request always comes back with something the handler can return; exceptions of the local
    handler, of gRPC and of the dispatcher itself become error codes. *)
Theorem dispatch_total name req core_id id broadcast d :
  ∃ r d', dispatch (Msg := Msg) name req core_id id broadcast d = (Ok r, d').
Proof.
  assert (∀ (m : M D (dispatched Msg)) x, ∃ r d', try_except m (λ _, mret x) d = (Ok r, d')) as Htry.
  { intros m x. unfold try_except. destruct (m d) as [[r|e] d']; eauto. }
  unfold dispatch. destruct (truthy_id id) as [i|]; [destruct (get_core_id_from_device_id i) as [c|e]; [|eauto]|]; apply Htry.
Qed.

(** ** Broadcasts *)
Section broadcast.
Context (Hcall : ∀ t ch name req e, with_call t ch name req ≠ Raised e).
Context (Hmerge : ∀ a b : Msg, ∃ c, MergeFrom a b = Ok c).

(** The channels of the other instances, in the order of the dictionary *)
Definition peer_channels (d : D) : list Chan :=
  omap (λ p : string * option member,
    if decide (p.1 = dp_core_store_id d) then None else p.2 ≫= λ m, channel_to d (m_host m)) (iteritems (dp_peers_map d)).

(** The merged result of the answers: errors are left out, and what was answered before *)
Fixpoint collect (t : list (call_event Chan Req)) (name : string) (req : Req) (res : Msg) (others : list Msg) (chs : list Chan) : Msg :=
  match chs with
  | [] => res
  | ch :: chs =>
      let t' := t ++ [RemoteCall ch name req] in
      match with_call t ch name req with
      | Answer m =>
          if decide (m ∈ res :: others) then collect t' name req res others chs
          else match MergeFrom res m with Ok res' => collect t' name req res' (others ++ [m]) chs | Err _ => res end
      | _ => collect t' name req res others chs
      end
  end.

Lemma trace_nil (d : D) : d <| trace ::= λ t, t ++ [] |> = d.
Proof. destruct d. unfold update_field. simpl. by rewrite app_nil_r. Qed.

Lemma trace_app (d : D) a b : d <| trace ::= λ t, t ++ a |> <| trace ::= λ t, t ++ b |> = d <| trace ::= λ t, t ++ (a ++ b) |>.
Proof. destruct d. unfold update_field. simpl. by rewrite app_assoc. Qed.

Lemma broadcast_loop name req l d res others : in_step d → (∀ p, p ∈ l → dp_peers_map d !! p.1 = Some p.2) →
  let chs := omap (λ p : string * option member,
    if decide (p.1 = dp_core_store_id d) then None else p.2 ≫= λ m, channel_to d (m_host m)) l in
  ∃ others', foldM (broadcast_step name req) (res, others) l.*1 d =
    (Ok (collect (trace d) name req res others chs, others'), d <| trace ::= λ t, t ++ ((λ ch, RemoteCall ch name req) <$> chs) |>).
Proof.
  revert d res others. induction l as [|[core inst] l IH]; intros d res others Hs Hl.
  { exists others. simpl. by rewrite trace_nil. }
  assert (∀ d' r o, broadcast_step name req (res, others) core d = (Ok (r, o), d') → in_step d' → dp_peers_map d' = dp_peers_map d →
    dp_core_store_id d' = dp_core_store_id d → dp_grpc_port d' = dp_grpc_port d →
    ∃ others', foldM (broadcast_step name req) (res, others) (core :: l.*1) d =
      (Ok (collect (trace d') name req r o (omap (λ p : string * option member,
         if decide (p.1 = dp_core_store_id d) then None else p.2 ≫= λ m, channel_to d (m_host m)) l), others'),
       d' <| trace ::= λ t, t ++ ((λ ch, RemoteCall ch name req) <$> omap (λ p : string * option member,
         if decide (p.1 = dp_core_store_id d) then None else p.2 ≫= λ m, channel_to d (m_host m)) l) |>)) as Hnext.
  { intros d' r o Hstep Hs' Hp Hc Hg. cbn [foldM]. erewrite bind_ok by exact Hstep.
    destruct (IH d' r o Hs') as (others'&Hrun); [intros p Hin; rewrite Hp; apply Hl; by right|].
    exists others'. rewrite Hrun. unfold channel_to. by rewrite Hc, Hg. }
  pose proof (Hl (core, inst) ltac:(left)) as Hinst. simpl in Hinst.
  assert (broadcast_step name req (res, others) core d =
    (if decide (core = dp_core_store_id d) then mret (res, others)
     else match inst with
          | None => mret (res, others)
          | Some m => r ← dispatch_to_peer core name req 0;
              match r with
              | DispatchError _ => mret (res, others)
              | Nothing => raise TypeError
              | Message m => if decide (m ∈ res :: others) then mret (res, others)
                             else res' ← lift (MergeFrom res m); mret (res', others ++ [m])
              end
          end) d) as Hstep.
  { unfold broadcast_step. erewrite bind_ok by done. unfold id. case_decide; [done|]. rewrite (Hs core). unfold live_at. rewrite Hinst. simpl.
    destruct inst as [m|]; [|done]. simpl. rewrite decide_True; [done|]. split; [eauto|apply channel_some]. }
  cbn [fmap list_fmap omap list_omap fst snd]. destruct (decide (core = dp_core_store_id d)).
  { apply (Hnext d); try done. }
  destruct inst as [m|]; simpl; [|by apply (Hnext d)].
  destruct (Hchannel (m_host m) (dp_grpc_port d)) as [ch Hch]. assert (channel_to d (m_host m) = Some ch) as Hto by (unfold channel_to; by rewrite Hch).
  rewrite Hto. cbn [collect fmap list_fmap].
  pose proof (to_peer_run d core name req m ch Hs ltac:(unfold live_at; by rewrite Hinst) Hch) as Hpeer.
  destruct (with_call (trace d) ch name req) as [a|code|e] eqn:Hw; [| |by apply Hcall in Hw].
  - erewrite bind_ok in Hstep by exact Hpeer. cbn beta iota in Hstep. destruct (decide (a ∈ res :: others)).
    + edestruct (Hnext _ _ _ Hstep Hs) as (others'&Hrun); [done..|]. exists others'. etrans; [exact Hrun|]. by rewrite trace_app.
    + destruct (Hmerge res a) as [b Hb]. rewrite Hb in Hstep |- *. erewrite bind_ok in Hstep by done.
      edestruct (Hnext _ _ _ Hstep Hs) as (others'&Hrun); [done..|]. exists others'. etrans; [exact Hrun|]. by rewrite trace_app.
  - erewrite bind_ok in Hstep by exact Hpeer.
    edestruct (Hnext _ _ _ Hstep Hs) as (others'&Hrun); [done..|]. exists others'. etrans; [exact Hrun|]. by rewrite trace_app.
Qed.

(** A broadcast reaches the local instance and then every other live instance of the cluster
    exactly once, also when some of them fail; the result is the local response with the answers of
    the peers merged into it, without errors and without repeated answers. *)
Theorem broadcast_reaches_all d name req core_id id res (Hs : in_step d)
    (Hid : id = None ∨ ∃ i, id = Some i ∧ String.length i = 16%nat)
    (Hlocal : local_method (trace d) name req = Ok res) :
  dispatch name req core_id id true d =
    (Ok (Message (collect (trace d ++ [LocalCall name req (local_code (trace d) name req)]) name req res [] (peer_channels d))),
     d <| trace ::= λ t, t ++ LocalCall name req (local_code (trace d) name req) :: ((λ ch, RemoteCall ch name req) <$> peer_channels d) |>).
Proof.
  assert (dispatch name req core_id id true d =
    try_except (m ← broadcast_request name req; mret (Message m)) (λ _, mret (DispatchError UNKNOWN)) d) as ->.
  { unfold dispatch. destruct Hid as [->|(i&->&Hi)]; [done|]. destruct (first_chars_truthy i Hi) as [_ ->].
    unfold get_core_id_from_device_id. by rewrite decide_True. }
  unfold try_except, broadcast_request, local_dispatch.
  set (d1 := d <| trace ::= λ t, t ++ [LocalCall name req (local_code (trace d) name req)] |>).
  destruct (broadcast_loop name req (iteritems (dp_peers_map d)) d1 res [] Hs) as (others&Hrun).
  { intros [k v] Hin. by apply elem_of_iteritems in Hin. }
  assert ((r ← (t ← gets trace; _ ← modify (λ d, d <| trace ::= λ t', t' ++ [LocalCall name req (local_code t name req)] |>); lift (local_method t name req));
     peers ← gets dp_peers_map; acc ← foldM (broadcast_step name req) (r, []) (iteritems peers).*1; mret acc.1) d =
    (Ok (collect (trace d1) name req res [] (peer_channels d)), d1 <| trace ::= λ t, t ++ ((λ ch, RemoteCall ch name req) <$> peer_channels d) |>))
    as Hbody.
  { erewrite bind_ok by (erewrite bind_ok by done; erewrite bind_ok by done; unfold lift; by rewrite Hlocal).
    erewrite bind_ok by done. by erewrite bind_ok by exact Hrun. }
  erewrite bind_ok by exact Hbody. unfold d1. by rewrite trace_app.
Qed.
End broadcast.
End proofs.

(** ** A cluster of three instances

    Channels are hosts, messages lists of names: each instance answers with its name. *)
Section sample_cluster.
Local Open Scope string_scope.

#[local] Instance sample_rpc : Rpc string unit (list string) := {|
  insecure_channel := λ host _, Ok host;
  with_call := λ t ch name _, if decide (name = "down") then Rendezvous UNAVAILABLE else if decide (name = "same") then
                 (if decide (ch = "host3") then Answer ["b"] else Answer ["a"]) else Answer [ch];
  local_method := λ _ _ _, Ok ["a"];
  local_code := λ _ _ _, None;
  MergeFrom := λ a b, Ok (a ++ b)%list;
|}.
#[local] Instance sample_order : DictOrder := plain_order.

Definition sample_peers : assignment := {[ "0002" := Some (Member "two" "host2"); "0003" := Some (Member "three" "host3"); "0004" := None ]}.
Definition sample_dispatcher : dispatcher string unit := (peers_map_changed sample_peers (mk_dispatcher "one" "0001" 50556)).2.

Lemma sample_channel : ∀ host port, ∃ c : string, insecure_channel host port = Ok c.
Proof. by eexists. Qed.

Lemma sample_hosted : hosted sample_peers.
Proof.
  intros id i Hi. unfold sample_peers in Hi.
  repeat (apply lookup_insert_Some in Hi as [[_ Hi]|[_ Hi]]; [injection Hi as <-; done|]).
  by apply lookup_singleton_Some in Hi as [_ Hi].
Qed.

Lemma cluster_reachable : rtc dispatcher_step (mk_dispatcher "one" "0001" 50556) sample_dispatcher.
Proof. apply rtc_once. apply step_peers, sample_hosted. Qed.

Lemma connections_in_step_witness :
  grpc_conn_map sample_dispatcher !! "0002" = Some (Some "host2") ∧ grpc_conn_map sample_dispatcher !! "0004" = None.
Proof.
  split.
  - destruct (connections_in_step sample_channel "one" "0001" 50556 sample_dispatcher cluster_reachable "0002") as [Hc _].
    etrans; [exact Hc|]. vm_compute. reflexivity.
  - destruct (connections_in_step sample_channel "one" "0001" 50556 sample_dispatcher cluster_reachable "0004") as [Hc _].
    etrans; [exact Hc|]. vm_compute. reflexivity.
Defined.

Lemma sample_in_step : in_step sample_dispatcher.
Proof.
  intros id. destruct (peers_changed sample_channel (mk_dispatcher "one" "0001" 50556) sample_peers) as (d'&Hrun&Hs&_).
  - intros i. unfold live_at. simpl. by rewrite !lookup_empty.
  - apply sample_hosted.
  - unfold sample_dispatcher. rewrite Hrun. apply Hs.
Qed.

Lemma sample_live : live_at (dp_peers_map sample_dispatcher) "0002" = Some (Member "two" "host2").
Proof. vm_compute. reflexivity. Qed.

Lemma dispatch_owner_witness :
  dispatch "GetDevice" tt None (Some "0002abcdefabcdef") false sample_dispatcher =
    (Ok (Message ["host2"]), sample_dispatcher <| trace ::= λ t, (t ++ [RemoteCall "host2" "GetDevice" tt])%list |>).
Proof.
  pose proof (dispatch_owner sample_channel sample_dispatcher "GetDevice" tt "0002abcdefabcdef" sample_in_step eq_refl) as Hd.
  cbv zeta in Hd. change (first_chars 4 "0002abcdefabcdef") with "0002" in Hd. rewrite sample_live in Hd. destruct Hd as [_ Hpeer].
  assert (dp_core_store_id sample_dispatcher = "0001") as Hown by (vm_compute; reflexivity). rewrite Hown in Hpeer.
  destruct (Hpeer ltac:(discriminate) ltac:(discriminate)) as (ch&Hch&Hrun). cbn in Hch. injection Hch as <-. exact Hrun.
Defined.

Lemma broadcast_reaches_all_witness :
  (dispatch "ListDevices" tt None None true sample_dispatcher).1 = Ok (Message ["a"; "host3"; "host2"]).
Proof.
  rewrite (broadcast_reaches_all sample_channel) with (res := ["a"]); [vm_compute; reflexivity| | |apply sample_in_step|by left|done].
  - intros t ch name req e. simpl. by repeat case_decide.
  - by eexists.
Defined.

(** Asked for another instance by its core id, the local instance answers. *)
Example core_id_is_ignored :
  (dispatch "GetVolthaInstance" tt (Some "0002") None false sample_dispatcher).1 = Ok (Message ["a"]) ∧
  trace (dispatch "GetVolthaInstance" tt (Some "0002") None false sample_dispatcher).2 = [LocalCall "GetVolthaInstance" tt None].
Proof. vm_compute. done. Qed.

(** A request for a device of an instance that is gone returns no error code. *)
Example absent_owner : (dispatch "GetDevice" tt None (Some "0004abcdefabcdef") false sample_dispatcher).1 = Ok Nothing.
Proof. vm_compute. done. Qed.

(** The local response is merged into, and then compared with what the peers
    answer: an answer equal to the original response is merged again. *)
Example local_answer_repeated :
  (dispatch "same" tt None None true sample_dispatcher).1 = Ok (Message ["a"; "b"; "a"]).
Proof. vm_compute. done. Qed.

(** A core without an instance makes the list of instances fail. *)
Example instances_unlisted : get_cluster_instances sample_dispatcher = Err TypeError.
Proof. vm_compute. done. Qed.
End sample_cluster.
