(* ===== verification/GlobalHandler.v ===== *)
(** * The global handler

    src/voltha/core/global_handler.py: the methods of the global gRPC service.
    Each hands its request to the dispatcher (Dispatcher.v) and turns an error
    into a status code on the context.  Requests and messages are protobuf
    messages, the class Messages.  The texts of the error details are left out, as
    is GetVoltha, which reads the handler's own copy of the configuration. *)
From S2P Require Import Prelude IdGeneration Coordination Dispatcher.
From Stdlib Require Import ZArith Lia.
From stdpp Require Import base gmap strings list.

Local Open Scope string_scope.

(** [request.id], setting it, [isinstance(request, T)], [Empty()] as a request,
    and the reply [T()]; "OperationResp" is the one for a failure *)
Class Messages (Req Msg : Type) := {
  req_id : Req → string;
  set_req_id : string → Req → Req;
  isinstance : Req → string → bool;
  EmptyReq : Req;
  mk : string → Msg;
}.

(** What a method returns, and the code it has itself set on the context *)
Record grpc_reply (Msg : Type) := Reply {
  reply : dispatched Msg;
  reply_code : option StatusCode;
}.
Arguments Reply {Msg} reply reply_code.
Arguments reply {Msg} g.
Arguments reply_code {Msg} g.

#[export] Instance grpc_reply_eq_dec `{EqDecision Msg} : EqDecision (grpc_reply Msg).
Proof. solve_decision. Defined.

Definition xpon_object_types : list (string * string) := [
  ("CreateChannelgroup", "ChannelgroupConfig");
  ("UpdateChannelgroup", "ChannelgroupConfig");
  ("DeleteChannelgroup", "ChannelgroupConfig");
  ("CreateChannelpartition", "ChannelpartitionConfig");
  ("UpdateChannelpartition", "ChannelpartitionConfig");
  ("DeleteChannelpartition", "ChannelpartitionConfig");
  ("CreateChannelpair", "ChannelpairConfig");
  ("UpdateChannelpair", "ChannelpairConfig");
  ("DeleteChannelpair", "ChannelpairConfig");
  ("CreateChanneltermination", "ChannelterminationConfig");
  ("UpdateChanneltermination", "ChannelterminationConfig");
  ("DeleteChanneltermination", "ChannelterminationConfig");
  ("CreateVOntani", "VOntaniConfig");
  ("UpdateVOntani", "VOntaniConfig");
  ("DeleteVOntani", "VOntaniConfig");
  ("CreateOntani", "OntaniConfig");
  ("UpdateOntani", "OntaniConfig");
  ("DeleteOntani", "OntaniConfig");
  ("CreateVEnet", "VEnetConfig");
  ("UpdateVEnet", "VEnetConfig");
  ("DeleteVEnet", "VEnetConfig");
  ("CreateTrafficDescriptorProfileData", "TrafficDescriptorProfileData");
  ("UpdateTrafficDescriptorProfileData", "TrafficDescriptorProfileData");
  ("DeleteTrafficDescriptorProfileData", "TrafficDescriptorProfileData");
  ("CreateTcontsConfigData", "TcontsConfigData");
  ("UpdateTcontsConfigData", "TcontsConfigData");
  ("DeleteTcontsConfigData", "TcontsConfigData");
  ("CreateGemportsConfigData", "GemportsConfigData");
  ("UpdateGemportsConfigData", "GemportsConfigData");
  ("DeleteGemportsConfigData", "GemportsConfigData");
  ("CreateMulticastGemportsConfigData", "MulticastGemportsConfigData");
  ("UpdateMulticastGemportsConfigData", "MulticastGemportsConfigData");
  ("DeleteMulticastGemportsConfigData", "MulticastGemportsConfigData");
  ("CreateMulticastDistributionSetData", "MulticastDistributionSetData");
  ("UpdateMulticastDistributionSetData", "MulticastDistributionSetData");
  ("DeleteMulticastDistributionSetData", "MulticastDistributionSetData")].

Section handler.
Context {Chan Req Msg : Type} `{EqDecision Msg} {rpc : Rpc Chan Req Msg} {HO : DictOrder} {msgs : Messages Req Msg}.
Notation D := (dispatcher Chan Req).

(** [if isinstance(response, DispatchError)] sets the code and returns an empty
    message, else the response is returned. *)
Definition on_error (err : string) (response : dispatched Msg) : grpc_reply Msg :=
  match response with
  | DispatchError code => Reply (Message (mk err)) (Some code)
  | _ => Reply response None
  end.

(** To the instance that owns the id *)
Definition by_id (method_name err : string) (request : Req) : M D (grpc_reply Msg) :=
  response ← dispatch method_name request None (Some (req_id request)) false;
  mret (on_error err response).

(** To any instance, which is the local one *)
Definition any_instance (method_name err : string) (request : Req) : M D (grpc_reply Msg) :=
  response ← dispatch method_name request None None false;
  mret (on_error err response).

(** To all instances *)
Definition from_all (method_name err : string) (arg : Req → Req) (request : Req) : M D (grpc_reply Msg) :=
  response ← dispatch method_name (arg request) None None true;
  mret (on_error err response).

(** To all instances, without a look at the response *)
Definition list_all (method_name : string) (request : Req) : M D (grpc_reply Msg) :=
  response ← dispatch method_name EmptyReq None None true;
  mret (Reply response None).

(** To all instances, with an id of the cluster *)
Definition cluster_object (method_name type id : string) (request : Req) : M D (grpc_reply Msg) :=
  if isinstance request type then
    let request := set_req_id id request in
    response ← dispatch method_name request None (Some (req_id request)) true;
    mret (on_error type response)
  else mret (Reply (Message (mk type)) (Some INVALID_ARGUMENT)).

Definition get_all_global_xpon_object_data (method_name : string) (request : Req) : M D (grpc_reply Msg) :=
  response ← dispatch method_name EmptyReq None None true;
  mret (on_error "Empty" response).

Definition manage_global_xpon_object (method_name : string) (request : Req) : M D (grpc_reply Msg) :=
  type ← from_some KeyError (od_get method_name xpon_object_types);
  cluster_object method_name type create_empty_broadcast_id request.

(** ** The methods *)
Definition ListVolthaInstances (request : Req) : M D (list string) :=
  d ← gets (λ d, d);
  lift (get_cluster_instances d).

Definition GetVolthaInstance (request : Req) : M D (grpc_reply Msg) :=
  d ← gets (λ d, d);
  core_id ← lift (get_core_id_from_instance_id (req_id request) d);
  match truthy_id core_id with
  | None => mret (Reply (Message (mk "VolthaInstance")) (Some NOT_FOUND))
  | Some core_id =>
      response ← dispatch "GetVolthaInstance" EmptyReq (Some core_id) None false;
      mret (on_error "VolthaInstance" response)
  end.

(** Those that return [Empty()] in any case *)
Definition DeleteDevice (request : Req) : M D (grpc_reply Msg) :=
  response ← dispatch "DeleteDevice" request None (Some (req_id request)) false;
  mret (Reply (Message (mk "Empty")) (reply_code (on_error "Empty" response))).

Definition DeleteAlarmFilter (request : Req) : M D (grpc_reply Msg) :=
  response ← dispatch "DeleteAlarmFilter" request None (Some (req_id request)) true;
  mret (Reply (Message (mk "Empty")) (reply_code (on_error "Empty" response))).

Definition UpdateAlarmFilter (request : Req) : M D (grpc_reply Msg) :=
  response ← dispatch "UpdateAlarmFilter" request None (Some (req_id request)) true;
  mret (on_error "AlarmFilter" response).

(** [create_cluster_id()] makes the id of a new UUID. *)
Definition CreateAlarmFilter (uuid : string) := cluster_object "CreateAlarmFilter" "AlarmFilter" (create_cluster_id uuid).

(** To the owner of the id *)
Definition GetLogicalDevice := by_id "GetLogicalDevice" "LogicalDevice".
Definition ListLogicalDevicePorts := by_id "ListLogicalDevicePorts" "Ports".
Definition GetLogicalDevicePort := by_id "GetLogicalDevicePort" "LogicalPort".
Definition ListLogicalDeviceFlows := by_id "ListLogicalDeviceFlows" "Flows".
Definition EnableLogicalDevicePort := by_id "EnableLogicalDevicePort" "Empty".
Definition DisableLogicalDevicePort := by_id "DisableLogicalDevicePort" "Empty".
Definition UpdateLogicalDeviceFlowTable := by_id "UpdateLogicalDeviceFlowTable" "Empty".
Definition ListLogicalDeviceFlowGroups := by_id "ListLogicalDeviceFlowGroups" "FlowGroups".
Definition UpdateLogicalDeviceFlowGroupTable := by_id "UpdateLogicalDeviceFlowGroupTable" "Empty".
Definition GetDevice := by_id "GetDevice" "Device".
Definition EnableDevice := by_id "EnableDevice" "Device".
Definition DisableDevice := by_id "DisableDevice" "Device".
Definition RebootDevice := by_id "RebootDevice" "Device".
Definition ListDevicePorts := by_id "ListDevicePorts" "Ports".
Definition ListDevicePmConfigs := by_id "ListDevicePmConfigs" "PmConfigs".
Definition UpdateDevicePmConfigs := by_id "UpdateDevicePmConfigs" "Empty".
Definition ListDeviceFlows := by_id "ListDeviceFlows" "Flows".
Definition ListDeviceFlowGroups := by_id "ListDeviceFlowGroups" "FlowGroups".
Definition GetDeviceGroup := by_id "GetDeviceGroup" "DeviceGroup".
Definition GetAllChannelterminationConfig := by_id "GetAllChannelterminationConfig" "ChannelterminationConfig".
Definition CreateChanneltermination := by_id "CreateChanneltermination" "ChannelterminationConfig".
Definition UpdateChanneltermination := by_id "UpdateChanneltermination" "ChannelterminationConfig".
Definition DeleteChanneltermination := by_id "DeleteChanneltermination" "ChannelterminationConfig".
Definition GetAlarmFilter := by_id "GetAlarmFilter" "AlarmFilter".
Definition GetImages := by_id "GetImages" "Images".
Definition SelfTest := by_id "SelfTest" "SelfTestResponse".
Definition DownloadImage := by_id "DownloadImage" "OperationResp".
Definition GetImageDownloadStatus := by_id "GetImageDownloadStatus" "ImageDownloads".
Definition GetImageDownload := by_id "GetImageDownload" "ImageDownload".
Definition ListImageDownloads := by_id "ListImageDownloads" "ImageDownloads".
Definition CancelImageDownload := by_id "CancelImageDownload" "OperationResp".
Definition ActivateImageUpdate := by_id "ActivateImageUpdate" "OperationResp".
Definition RevertImageUpdate := by_id "RevertImageUpdate" "OperationResp".
Definition GetMibDeviceData := by_id "GetMibDeviceData" "MibDeviceData".

(** To the local instance *)
Definition CreateDevice := any_instance "CreateDevice" "Device".
Definition ListDeviceTypes := any_instance "ListDeviceTypes" "DeviceTypes".
Definition GetDeviceType := any_instance "GetDeviceType" "DeviceType".

(** Lists of all instances, as they are *)
Definition ListLogicalDevices := list_all "ListLogicalDevices".
Definition ListDevices := list_all "ListDevices".
Definition ListAdapters := list_all "ListAdapters".
Definition ListDeviceGroups := list_all "ListDeviceGroups".

(** From all instances *)
Definition GetAllChannelgroupConfig := from_all "GetAllChannelgroupConfig" "Empty" (λ _, EmptyReq).
Definition GetAllChannelpartitionConfig := from_all "GetAllChannelpartitionConfig" "Empty" (λ _, EmptyReq).
Definition GetAllChannelpairConfig := from_all "GetAllChannelpairConfig" "Empty" (λ _, EmptyReq).
Definition GetAllOntaniConfig := from_all "GetAllOntaniConfig" "Empty" (λ _, EmptyReq).
Definition GetAllVOntaniConfig := from_all "GetAllVOntaniConfig" "Empty" (λ _, EmptyReq).
Definition GetAllVEnetConfig := from_all "GetAllVEnetConfig" "Empty" (λ request, request).
Definition ListAlarmFilters := from_all "ListAlarmFilters" "AlarmFilter" (λ _, EmptyReq).

(** Objects of the cluster *)
Definition UpdateChannelgroup := cluster_object "UpdateChannelgroup" "ChannelgroupConfig" create_empty_broadcast_id.
Definition DeleteChannelgroup := cluster_object "DeleteChannelgroup" "ChannelgroupConfig" create_empty_broadcast_id.
Definition CreateChannelpartition := cluster_object "CreateChannelpartition" "ChannelpartitionConfig" create_empty_broadcast_id.
Definition UpdateChannelpartition := cluster_object "UpdateChannelpartition" "ChannelpartitionConfig" create_empty_broadcast_id.
Definition DeleteChannelpartition := cluster_object "DeleteChannelpartition" "ChannelpartitionConfig" create_empty_broadcast_id.
Definition CreateChannelpair := cluster_object "CreateChannelpair" "ChannelpairConfig" create_empty_broadcast_id.
Definition UpdateChannelpair := cluster_object "UpdateChannelpair" "ChannelpairConfig" create_empty_broadcast_id.
Definition DeleteChannelpair := cluster_object "DeleteChannelpair" "ChannelpairConfig" create_empty_broadcast_id.
Definition CreateOntani := cluster_object "CreateOntani" "OntaniConfig" create_empty_broadcast_id.
Definition UpdateOntani := cluster_object "UpdateOntani" "OntaniConfig" create_empty_broadcast_id.
Definition DeleteOntani := cluster_object "DeleteOntani" "OntaniConfig" create_empty_broadcast_id.
Definition CreateVOntani := cluster_object "CreateVOntani" "VOntaniConfig" create_empty_broadcast_id.
Definition UpdateVOntani := cluster_object "UpdateVOntani" "VOntaniConfig" create_empty_broadcast_id.
Definition DeleteVOntani := cluster_object "DeleteVOntani" "VOntaniConfig" create_empty_broadcast_id.
Definition CreateVEnet := cluster_object "CreateVEnet" "VEnetConfig" create_empty_broadcast_id.
Definition UpdateVEnet := cluster_object "UpdateVEnet" "VEnetConfig" create_empty_broadcast_id.
Definition DeleteVEnet := cluster_object "DeleteVEnet" "VEnetConfig" create_empty_broadcast_id.

(** Other xPON data *)
Definition GetAllTrafficDescriptorProfileData := get_all_global_xpon_object_data "GetAllTrafficDescriptorProfileData".
Definition GetAllTcontsConfigData := get_all_global_xpon_object_data "GetAllTcontsConfigData".
Definition GetAllGemportsConfigData := get_all_global_xpon_object_data "GetAllGemportsConfigData".
Definition GetAllMulticastGemportsConfigData := get_all_global_xpon_object_data "GetAllMulticastGemportsConfigData".
Definition GetAllMulticastDistributionSetData := get_all_global_xpon_object_data "GetAllMulticastDistributionSetData".

Definition CreateChannelgroup := manage_global_xpon_object "CreateChannelgroup".
Definition CreateTrafficDescriptorProfileData := manage_global_xpon_object "CreateTrafficDescriptorProfileData".
Definition UpdateTrafficDescriptorProfileData := manage_global_xpon_object "UpdateTrafficDescriptorProfileData".
Definition DeleteTrafficDescriptorProfileData := manage_global_xpon_object "DeleteTrafficDescriptorProfileData".
Definition CreateTcontsConfigData := manage_global_xpon_object "CreateTcontsConfigData".
Definition UpdateTcontsConfigData := manage_global_xpon_object "UpdateTcontsConfigData".
Definition DeleteTcontsConfigData := manage_global_xpon_object "DeleteTcontsConfigData".
Definition CreateGemportsConfigData := manage_global_xpon_object "CreateGemportsConfigData".
Definition UpdateGemportsConfigData := manage_global_xpon_object "UpdateGemportsConfigData".
Definition DeleteGemportsConfigData := manage_global_xpon_object "DeleteGemportsConfigData".
Definition CreateMulticastGemportsConfigData := manage_global_xpon_object "CreateMulticastGemportsConfigData".
Definition UpdateMulticastGemportsConfigData := manage_global_xpon_object "UpdateMulticastGemportsConfigData".
Definition DeleteMulticastGemportsConfigData := manage_global_xpon_object "DeleteMulticastGemportsConfigData".
Definition CreateMulticastDistributionSetData := manage_global_xpon_object "CreateMulticastDistributionSetData".
Definition UpdateMulticastDistributionSetData := manage_global_xpon_object "UpdateMulticastDistributionSetData".
Definition DeleteMulticastDistributionSetData := manage_global_xpon_object "DeleteMulticastDistributionSetData".

(** ** The service *)

(** The code that the local handler left on the context of a request that made [calls] *)
Definition context_code (calls : list (call_event Chan Req)) : option StatusCode :=
  foldl (λ code e, match e with LocalCall _ _ (Some c) => Some c | _ => code end) None calls.

(** What the client of a method gets: its reply and the code on the context when it
    returns.  The method and the local handler share the context, and the method
    sets its code after dispatching. *)
Definition serve (h : Req → M D (grpc_reply Msg)) (request : Req) : M D (dispatched Msg * option StatusCode) :=
  before ← gets trace;
  g ← h request;
  after ← gets trace;
  mret (reply g, match reply_code g with
                 | Some code => Some code
                 | None => context_code (drop (length before) after)
                 end).

Definition owner_methods : list (string * (Req → M D (grpc_reply Msg))) := [
  ("GetLogicalDevice", GetLogicalDevice); ("ListLogicalDevicePorts", ListLogicalDevicePorts);
  ("GetLogicalDevicePort", GetLogicalDevicePort); ("ListLogicalDeviceFlows", ListLogicalDeviceFlows);
  ("EnableLogicalDevicePort", EnableLogicalDevicePort); ("DisableLogicalDevicePort", DisableLogicalDevicePort);
  ("UpdateLogicalDeviceFlowTable", UpdateLogicalDeviceFlowTable);
  ("ListLogicalDeviceFlowGroups", ListLogicalDeviceFlowGroups);
  ("UpdateLogicalDeviceFlowGroupTable", UpdateLogicalDeviceFlowGroupTable); ("GetDevice", GetDevice);
  ("EnableDevice", EnableDevice); ("DisableDevice", DisableDevice); ("RebootDevice", RebootDevice);
  ("ListDevicePorts", ListDevicePorts); ("ListDevicePmConfigs", ListDevicePmConfigs);
  ("UpdateDevicePmConfigs", UpdateDevicePmConfigs); ("ListDeviceFlows", ListDeviceFlows);
  ("ListDeviceFlowGroups", ListDeviceFlowGroups); ("GetDeviceGroup", GetDeviceGroup);
  ("GetAllChannelterminationConfig", GetAllChannelterminationConfig);
  ("CreateChanneltermination", CreateChanneltermination); ("UpdateChanneltermination", UpdateChanneltermination);
  ("DeleteChanneltermination", DeleteChanneltermination); ("GetAlarmFilter", GetAlarmFilter);
  ("GetImages", GetImages); ("SelfTest", SelfTest); ("DownloadImage", DownloadImage);
  ("GetImageDownloadStatus", GetImageDownloadStatus); ("GetImageDownload", GetImageDownload);
  ("ListImageDownloads", ListImageDownloads); ("CancelImageDownload", CancelImageDownload);
  ("ActivateImageUpdate", ActivateImageUpdate); ("RevertImageUpdate", RevertImageUpdate);
  ("GetMibDeviceData", GetMibDeviceData)].

Definition list_methods : list (string * (Req → M D (grpc_reply Msg))) := [
  ("ListLogicalDevices", ListLogicalDevices); ("ListDevices", ListDevices); ("ListAdapters", ListAdapters);
  ("ListDeviceGroups", ListDeviceGroups)].

Definition local_methods : list (string * (Req → M D (grpc_reply Msg))) := [
  ("CreateDevice", CreateDevice); ("ListDeviceTypes", ListDeviceTypes); ("GetDeviceType", GetDeviceType)].

Definition data_methods : list (string * (Req → M D (grpc_reply Msg))) := [
  ("GetAllChannelgroupConfig", GetAllChannelgroupConfig);
  ("GetAllChannelpartitionConfig", GetAllChannelpartitionConfig);
  ("GetAllChannelpairConfig", GetAllChannelpairConfig); ("GetAllOntaniConfig", GetAllOntaniConfig);
  ("GetAllVOntaniConfig", GetAllVOntaniConfig); ("GetAllVEnetConfig", GetAllVEnetConfig);
  ("ListAlarmFilters", ListAlarmFilters)].

Definition object_methods : list (string * (Req → M D (grpc_reply Msg))) := [
  ("UpdateChannelgroup", UpdateChannelgroup); ("DeleteChannelgroup", DeleteChannelgroup);
  ("CreateChannelpartition", CreateChannelpartition); ("UpdateChannelpartition", UpdateChannelpartition);
  ("DeleteChannelpartition", DeleteChannelpartition); ("CreateChannelpair", CreateChannelpair);
  ("UpdateChannelpair", UpdateChannelpair); ("DeleteChannelpair", DeleteChannelpair); ("CreateOntani", CreateOntani);
  ("UpdateOntani", UpdateOntani); ("DeleteOntani", DeleteOntani); ("CreateVOntani", CreateVOntani);
  ("UpdateVOntani", UpdateVOntani); ("DeleteVOntani", DeleteVOntani); ("CreateVEnet", CreateVEnet);
  ("UpdateVEnet", UpdateVEnet); ("DeleteVEnet", DeleteVEnet)].

Definition xpon_data_methods : list (string * (Req → M D (grpc_reply Msg))) := [
  ("GetAllTrafficDescriptorProfileData", GetAllTrafficDescriptorProfileData);
  ("GetAllTcontsConfigData", GetAllTcontsConfigData); ("GetAllGemportsConfigData", GetAllGemportsConfigData);
  ("GetAllMulticastGemportsConfigData", GetAllMulticastGemportsConfigData);
  ("GetAllMulticastDistributionSetData", GetAllMulticastDistributionSetData)].

Definition xpon_object_methods : list (string * (Req → M D (grpc_reply Msg))) := [
  ("CreateChannelgroup", CreateChannelgroup);
  ("CreateTrafficDescriptorProfileData", CreateTrafficDescriptorProfileData);
  ("UpdateTrafficDescriptorProfileData", UpdateTrafficDescriptorProfileData);
  ("DeleteTrafficDescriptorProfileData", DeleteTrafficDescriptorProfileData);
  ("CreateTcontsConfigData", CreateTcontsConfigData); ("UpdateTcontsConfigData", UpdateTcontsConfigData);
  ("DeleteTcontsConfigData", DeleteTcontsConfigData); ("CreateGemportsConfigData", CreateGemportsConfigData);
  ("UpdateGemportsConfigData", UpdateGemportsConfigData); ("DeleteGemportsConfigData", DeleteGemportsConfigData);
  ("CreateMulticastGemportsConfigData", CreateMulticastGemportsConfigData);
  ("UpdateMulticastGemportsConfigData", UpdateMulticastGemportsConfigData);
  ("DeleteMulticastGemportsConfigData", DeleteMulticastGemportsConfigData);
  ("CreateMulticastDistributionSetData", CreateMulticastDistributionSetData);
  ("UpdateMulticastDistributionSetData", UpdateMulticastDistributionSetData);
  ("DeleteMulticastDistributionSetData", DeleteMulticastDistributionSetData)].

Definition special_methods : list (string * (Req → M D (grpc_reply Msg))) := [
  ("DeleteDevice", DeleteDevice); ("DeleteAlarmFilter", DeleteAlarmFilter); ("UpdateAlarmFilter", UpdateAlarmFilter);
  ("GetVolthaInstance", GetVolthaInstance)].

(** The methods that look at the response for an error *)
Definition reporting_methods : list (string * (Req → M D (grpc_reply Msg))) :=
  (owner_methods ++ local_methods ++ data_methods ++ object_methods ++ xpon_data_methods ++ xpon_object_methods ++ special_methods)%list.

Definition methods : list (string * (Req → M D (grpc_reply Msg))) := (list_methods ++ reporting_methods)%list.
End handler.
