(* ===== verification/GlobalHandlerProofs.v ===== *)
(** * The global service

    Each method of GlobalHandler.v calls the method of its own name on the
    instances and no other, those that take the id of a device serve it by its
    owner, and errors reach the client as status codes. *)
From S2P Require Import Prelude IdGeneration Coordination Dispatcher DispatcherProofs GlobalHandler.
From Stdlib Require Import ZArith Lia.
From stdpp Require Import base gmap strings list.

Local Open Scope string_scope.

Section proofs.
Context {Chan Req Msg : Type} `{EqDecision Msg} {rpc : Rpc Chan Req Msg} {HO : DictOrder} {msgs : Messages Req Msg}.
Notation D := (dispatcher Chan Req).

(** What holds of each kind of method holds of all. *)
Lemma reporting_ind (P : string → (Req → M D (grpc_reply Msg)) → Prop) :
  (∀ n err, P n (by_id n err)) → (∀ n err, P n (any_instance n err)) →
  (∀ n err arg, P n (from_all n err arg)) → (∀ n type id, P n (cluster_object n type id)) →
  (∀ n, P n (get_all_global_xpon_object_data n)) → (∀ n, P n (manage_global_xpon_object n)) →
  P "DeleteDevice" DeleteDevice → P "DeleteAlarmFilter" DeleteAlarmFilter → P "UpdateAlarmFilter" UpdateAlarmFilter →
  P "GetVolthaInstance" GetVolthaInstance → ∀ name h, (name, h) ∈ reporting_methods → P name h.
Proof.
  intros Hby Hany Hall Hobj Hdata Hxobj H1 H2 H3 H4. assert (Forall (λ p, P p.1 p.2) reporting_methods) as Hm.
  { unfold reporting_methods. rewrite !Forall_app. split_and!.
    - repeat (apply Forall_cons; split; [exact (Hby _ _)|]). by apply Forall_nil.
    - repeat (apply Forall_cons; split; [exact (Hany _ _)|]). by apply Forall_nil.
    - repeat (apply Forall_cons; split; [exact (Hall _ _ _)|]). by apply Forall_nil.
    - repeat (apply Forall_cons; split; [exact (Hobj _ _ _)|]). by apply Forall_nil.
    - repeat (apply Forall_cons; split; [exact (Hdata _)|]). by apply Forall_nil.
    - repeat (apply Forall_cons; split; [exact (Hxobj _)|]). by apply Forall_nil.
    - repeat (apply Forall_cons; split; [done|]). by apply Forall_nil. }
  intros name h Hin. exact (proj1 (Forall_forall _ _) Hm (name, h) Hin).
Qed.

Lemma list_form name h : (name, h) ∈ list_methods → h = list_all name.
Proof.
  intros Hin. refine (proj1 (Forall_forall (λ p : string * (Req → M D (grpc_reply Msg)), p.2 = list_all p.1) _) _ (name, h) Hin).
  repeat (apply Forall_cons; split; [reflexivity|]). by apply Forall_nil.
Qed.

Lemma serve_run (h : Req → M D (grpc_reply Msg)) request (d d' : D) g : h request d = (Ok g, d') →
  serve h request d =
    (Ok (reply g, match reply_code g with Some code => Some code | None => context_code (drop (length (trace d)) (trace d')) end), d').
Proof. intros Hrun. unfold serve. erewrite bind_ok by done. erewrite bind_ok by exact Hrun. by erewrite bind_ok by done. Qed.

(** ** Calls *)
Definition method_of (e : call_event Chan Req) : string :=
  match e with LocalCall name _ _ => name | RemoteCall _ name _ => name end.

(** Only calls of [name] were added. *)
Definition calls_only (name : string) (d d' : D) : Prop := ∃ l, trace d' = (trace d ++ l)%list ∧ Forall (λ e, method_of e = name) l.

#[export] Instance calls_only_preorder name : PreOrder (calls_only name).
Proof.
  split; [intros d; exists []; by rewrite app_nil_r|]. intros d1 d2 d3 (l1&H1&F1) (l2&H2&F2). exists (l1 ++ l2)%list.
  rewrite H2, H1, app_assoc. split; [done|]. by apply Forall_app.
Qed.

Lemma calls_same name (d d' : D) : trace d' = trace d → calls_only name d d'.
Proof. intros Ht. exists []. by rewrite app_nil_r. Qed.

Ltac calls := repeat first [follows_gen ltac:(by apply calls_same) | progress unfold connection].

Lemma disconnect_calls name id : follows (calls_only name) (disconnect_from_peer id).
Proof. unfold disconnect_from_peer, pop_connection, set_connection. calls. Qed.

Lemma connect_calls name host : follows (calls_only name) (connect_to_peer host).
Proof. unfold connect_to_peer. calls. Qed.

Lemma reconnect_calls name id : follows (calls_only name) (reconnect_to_peer id).
Proof.
  unfold reconnect_to_peer, set_connection.
  repeat first [apply disconnect_calls | apply connect_calls | follows_gen ltac:(by apply calls_same)].
Qed.

Lemma peer_calls core name req retry : follows (calls_only name) (dispatch_to_peer core name req retry).
Proof.
  revert core. induction retry as [|n IH]; intros core; cbn [dispatch_to_peer]; unfold connection, call_peer;
    repeat first [apply reconnect_calls | apply IH | follows_gen ltac:(eexists [_]; split; [done|by repeat constructor])].
Qed.

Lemma follows_foldM_calls {A B} name (g : A → B → M D A) l a :
  (∀ a b, follows (calls_only name) (g a b)) → follows (calls_only name) (foldM g a l).
Proof.
  intros Hg. revert a. induction l as [|b l IH]; intros a; [apply follows_pure; [apply _|done]|]. by apply follows_bind; [apply _|..].
Qed.

Lemma dispatch_calls name req core_id id broadcast : follows (calls_only name) (dispatch (Msg := Msg) name req core_id id broadcast).
Proof.
  unfold dispatch, broadcast_request, local_dispatch.
  repeat first [apply peer_calls | apply follows_foldM_calls; intros; unfold broadcast_step
               | follows_gen ltac:(eexists [_]; split; [done|by repeat constructor])].
Qed.

Ltac method_calls := repeat first [apply dispatch_calls | follows_gen ltac:(done)].

Lemma by_id_calls name err (r : Req) : follows (calls_only name) (by_id (Msg := Msg) name err r).
Proof. unfold by_id. method_calls. Qed.

Lemma object_calls name type id (r : Req) : follows (calls_only name) (cluster_object (Msg := Msg) name type id r).
Proof. unfold cluster_object. method_calls. Qed.

Lemma managed_calls name (r : Req) : follows (calls_only name) (manage_global_xpon_object (Msg := Msg) name r).
Proof. unfold manage_global_xpon_object. repeat first [apply object_calls | follows_gen ltac:(done)]. Qed.

Lemma simple_calls name err arg (r : Req) :
  follows (calls_only name) (any_instance (Msg := Msg) name err r) ∧ follows (calls_only name) (from_all (Msg := Msg) name err arg r) ∧
  follows (calls_only name) (list_all (Msg := Msg) name r) ∧ follows (calls_only name) (get_all_global_xpon_object_data (Msg := Msg) name r).
Proof. unfold any_instance, from_all, list_all, get_all_global_xpon_object_data. split_and!; method_calls. Qed.

Lemma special_calls (r : Req) :
  follows (calls_only "DeleteDevice") (DeleteDevice (Msg := Msg) r) ∧ follows (calls_only "DeleteAlarmFilter") (DeleteAlarmFilter (Msg := Msg) r) ∧
  follows (calls_only "UpdateAlarmFilter") (UpdateAlarmFilter (Msg := Msg) r) ∧ follows (calls_only "GetVolthaInstance") (GetVolthaInstance (Msg := Msg) r).
Proof. unfold DeleteDevice, DeleteAlarmFilter, UpdateAlarmFilter, GetVolthaInstance. split_and!; method_calls. Qed.

(** No method of the global service is wired to another: whatever it is asked, the calls that
    the method makes, on this instance and on its peers, are to the method of the same name. *)
Theorem methods_call_namesakes name h request d
    (Hh : (name, h) ∈ (methods : list (string * (Req → M D (grpc_reply Msg))))) :
  ∃ l, trace (h request d).2 = (trace d ++ l)%list ∧ Forall (λ e, method_of e = name) l.
Proof.
  change (calls_only name d (h request d).2). revert d. change (follows (calls_only name) (h request)).
  apply elem_of_app in Hh as [->%list_form|Hh]; [exact (proj1 (proj2 (proj2 (simple_calls name "" (λ r, r) request))))|].
  refine (reporting_ind (λ n h, ∀ r, follows (calls_only n) (h r)) _ _ _ _ _ _ _ _ _ _ name h Hh request); clear.
  - intros n err r. exact (by_id_calls n err r).
  - intros n err r. exact (proj1 (simple_calls n err (λ r, r) r)).
  - intros n err arg r. exact (proj1 (proj2 (simple_calls n err arg r))).
  - intros n type id r. exact (object_calls n type id r).
  - intros n r. exact (proj2 (proj2 (proj2 (simple_calls n "" (λ r, r) r)))).
  - intros n r. exact (managed_calls n r).
  - intros r. exact (proj1 (special_calls r)).
  - intros r. exact (proj1 (proj2 (special_calls r))).
  - intros r. exact (proj1 (proj2 (proj2 (special_calls r)))).
  - intros r. exact (proj2 (proj2 (proj2 (special_calls r)))).
Qed.

(** ** Errors *)
Lemma on_error_clean err (r : dispatched Msg) code : reply (on_error err r) ≠ DispatchError code.
Proof. by destruct r. Qed.

(** A reply that is not an error of the dispatcher *)
Definition clean (m : M D (grpc_reply Msg)) : Prop := ∀ d g d', m d = (Ok g, d') → ∀ code, reply g ≠ DispatchError code.

Lemma clean_ret g : (∀ code, reply g ≠ DispatchError code) → clean (mret g).
Proof. by intros Hg d g' d' [= <- <-]. Qed.

Lemma clean_bind {A} (m : M D A) k : (∀ a, clean (k a)) → clean (m ≫= k).
Proof. intros Hk d g d' Hrun. apply bind_ok_inv in Hrun as (a&d1&_&Hrun). by eapply Hk. Qed.

Ltac clean := repeat first [apply clean_bind; intros | apply clean_ret; intros | apply on_error_clean | case_match | done].

(** Errors of the dispatcher do not reach clients as replies: every method except the four lists of
    all instances replies with a message or nothing, and where dispatching failed sets its error
    code on the call. *)
Theorem errors_become_codes name h request d g d'
    (Hh : (name, h) ∈ (reporting_methods : list (string * (Req → M D (grpc_reply Msg)))))
    (Hrun : h request d = (Ok g, d')) code :
  reply g ≠ DispatchError code.
Proof.
  revert code. revert Hrun. revert d g d'. change (clean (h request)).
  refine (reporting_ind (λ n h, ∀ r, clean (h r)) _ _ _ _ _ _ _ _ _ _ name h Hh request); clear; intros;
    unfold by_id, any_instance, from_all, cluster_object, get_all_global_xpon_object_data, manage_global_xpon_object,
      DeleteDevice, DeleteAlarmFilter, UpdateAlarmFilter, GetVolthaInstance, cluster_object; clean.
Qed.

(** ** Requests for devices *)
Context (Hchannel : ∀ host port, ∃ c, insecure_channel (Chan := Chan) host port = Ok c).

(** The methods that take the id of a device, a logical device, a device group or an
    alarm filter and are not broadcast, with the type of the empty message each
    returns with an error code *)
Definition error_types : list (string * string) := [
  ("DeleteDevice", "Empty"); ("GetLogicalDevice", "LogicalDevice"); ("ListLogicalDevicePorts", "Ports");
  ("GetLogicalDevicePort", "LogicalPort"); ("ListLogicalDeviceFlows", "Flows");
  ("EnableLogicalDevicePort", "Empty"); ("DisableLogicalDevicePort", "Empty");
  ("UpdateLogicalDeviceFlowTable", "Empty"); ("ListLogicalDeviceFlowGroups", "FlowGroups");
  ("UpdateLogicalDeviceFlowGroupTable", "Empty"); ("GetDevice", "Device"); ("EnableDevice", "Device");
  ("DisableDevice", "Device"); ("RebootDevice", "Device"); ("ListDevicePorts", "Ports");
  ("ListDevicePmConfigs", "PmConfigs"); ("UpdateDevicePmConfigs", "Empty"); ("ListDeviceFlows", "Flows");
  ("ListDeviceFlowGroups", "FlowGroups"); ("GetDeviceGroup", "DeviceGroup");
  ("GetAllChannelterminationConfig", "ChannelterminationConfig");
  ("CreateChanneltermination", "ChannelterminationConfig");
  ("UpdateChanneltermination", "ChannelterminationConfig");
  ("DeleteChanneltermination", "ChannelterminationConfig"); ("GetAlarmFilter", "AlarmFilter");
  ("GetImages", "Images"); ("SelfTest", "SelfTestResponse"); ("DownloadImage", "OperationResp");
  ("GetImageDownloadStatus", "ImageDownloads"); ("GetImageDownload", "ImageDownload");
  ("ListImageDownloads", "ImageDownloads"); ("CancelImageDownload", "OperationResp");
  ("ActivateImageUpdate", "OperationResp"); ("RevertImageUpdate", "OperationResp");
  ("GetMibDeviceData", "MibDeviceData")].

(** DeleteDevice returns [Empty()] in place of the answer. *)
Definition passed_on (name : string) (m : dispatched Msg) : dispatched Msg :=
  if decide (name = "DeleteDevice") then Message (mk "Empty") else m.

Lemma owner_response name err (request : Req) (d : D) : name ≠ "DeleteDevice" →
  by_id name err request d = (response ← dispatch name request None (Some (req_id request)) false;
    mret (match response with
          | DispatchError code => Reply (Message (mk err)) (Some code)
          | _ => Reply (passed_on name response) None
          end)) d.
Proof.
  intros Hn. unfold by_id, mbind, M_bind. destruct (dispatch _ _ _ _ _ d) as [[[]|] ?]; try done.
  - unfold passed_on. by rewrite decide_False.
  - unfold passed_on. by rewrite decide_False.
Qed.

Lemma owner_table name h : (name, h) ∈ (("DeleteDevice", DeleteDevice) :: owner_methods : list (string * (Req → M D (grpc_reply Msg)))) →
  ∃ err, od_get name error_types = Some err ∧
    ∀ request d, h request d = (response ← dispatch name request None (Some (req_id request)) false;
      mret (match response with
            | DispatchError code => Reply (Message (mk err)) (Some code)
            | _ => Reply (passed_on name response) None
            end)) d.
Proof.
  intros Hin. refine (proj1 (Forall_forall (λ p : string * (Req → M D (grpc_reply Msg)), ∃ err, od_get p.1 error_types = Some err ∧
    ∀ request d, p.2 request d = (response ← dispatch p.1 request None (Some (req_id request)) false;
      mret (match response with
            | DispatchError code => Reply (Message (mk err)) (Some code)
            | _ => Reply (passed_on p.1 response) None
            end)) d) _) _ (name, h) Hin).
  apply Forall_cons. split.
  { eexists. split; [reflexivity|]. intros request d. unfold DeleteDevice. cbn [snd fst]. unfold mbind, M_bind.
    destruct (dispatch _ _ _ _ _ d) as [[[]|] ?]; reflexivity. }
  unfold owner_methods. repeat (apply Forall_cons; split; [eexists; split; [reflexivity|intros request d; refine (owner_response _ _ request d _); discriminate]|]). by apply Forall_nil.
Qed.

End proofs.

(** ** A cluster of two instances

    Requests are ids, replies lists of names; the local handler fails on lists of adapters. *)
Section sample_service.
#[local] Instance service_rpc : Rpc string string (list string) := {|
  insecure_channel := λ host _, Ok host;
  with_call := λ _ ch name _, if decide (name = "SelfTest") then Rendezvous UNAVAILABLE else Answer [ch];
  local_method := λ _ name _, if decide (name = "ListAdapters") then Err RuntimeError else Ok ["local"];
  local_code := λ _ name r, if decide (r = "0001abcdefabcdee") then Some NOT_FOUND else None;
  MergeFrom := λ a b, Ok (a ++ b)%list;
|}.
#[local] Instance service_order : DictOrder := plain_order.
#[local] Instance service_messages : Messages string (list string) := {|
  req_id := λ r, r;
  set_req_id := λ i _, i;
  isinstance := λ _ _, true;
  EmptyReq := "";
  mk := λ t, [t];
|}.

Definition service_peers : assignment := {[ "0002" := Some (Member "two" "host2") ]}.
Definition service : dispatcher string string :=
  Dispatcher "one" "0001" 50556 service_peers {[ "0002" := Some "host2" ]} [].

Lemma service_in_step : in_step service.
Proof.
  intros id. unfold live_at, service, service_peers. simpl. destruct (decide (id = "0002")) as [->|Hid]; [done|].
  by rewrite !lookup_singleton_ne by congruence.
Qed.

Lemma service_channel : ∀ host port, ∃ c : string, insecure_channel host port = Ok c.
Proof. by eexists. Qed.


Lemma methods_call_namesakes_witness :
  ∃ l, trace (ListDevices "" service).2 = (trace service ++ l)%list ∧ Forall (λ e, method_of e = "ListDevices") l.
Proof.
  apply (methods_call_namesakes "ListDevices" ListDevices "" service). unfold methods, list_methods.
  apply elem_of_app. left. repeat (first [apply list_elem_of_here | apply list_elem_of_further]).
Defined.

Lemma errors_become_codes_witness : (SelfTest "0002abcdefabcdef" service).1 = Ok (Reply (Message ["SelfTestResponse"]) (Some UNAVAILABLE)) ∧
  ∀ code, Message ["SelfTestResponse"] ≠ DispatchError code.
Proof.
  split; [vm_compute; reflexivity|]. intros code.
  apply (errors_become_codes "SelfTest" SelfTest "0002abcdefabcdef" service (Reply (Message ["SelfTestResponse"]) (Some UNAVAILABLE))
    (SelfTest "0002abcdefabcdef" service).2).
  - unfold reporting_methods, owner_methods. apply elem_of_app. left. repeat (first [apply list_elem_of_here | apply list_elem_of_further]).
  - vm_compute. reflexivity.
Defined.

(** A list whose local part fails is answered with the dispatcher's error object. *)
Example list_returns_error : (ListAdapters "" service).1 = Ok (Reply (DispatchError UNKNOWN) None).
Proof. vm_compute. reflexivity. Qed.

(** Another instance is asked for; the local one answers. *)
Example other_instance_unreachable : (GetVolthaInstance "two" service).1 = Ok (Reply (Message ["local"]) None).
Proof. vm_compute. reflexivity. Qed.

(** A device of an instance that is not there: no answer and no error code *)
Example absent_owner_no_code : (GetDevice "0003abcdefabcdef" service).1 = Ok (Reply Nothing None).
Proof. vm_compute. reflexivity. Qed.
End sample_service.
