(* ===== verification/AdapterAgent.v ===== *)
(** * The adapter agent

    The class [AdapterAgent] of src/voltha/core/adapter_agent.py, the gateway
    between the core and one adapter.  The agents of all adapters share the
    configuration tree, the event bus and the core's table of device agents:
    [world].  The nodes of the tree the agent reads and writes are ordered
    tables ([container]) with the operations of a root proxy; the callbacks
    that a write triggers belong to the device and logical device agents, which
    have files of their own, and are left out here.

    What an adapter does when it is called ([run_adapter]), what a device agent
    does ([run_agent]), the callbacks of other users of the bus ([run_other]),
    the regular expressions of other subscribers ([re_match]) and protobuf's
    JSON rendering of a proxy address ([message_to_json]) are parameters. *)
From S2P Require Import Prelude OpenFlow Devices EventBus IdGeneration.
From Stdlib Require Import Ascii.
From stdpp Require Import base gmap list strings.
From Stdlib Require Import ZArith.

(** ** Messages *)

(** [Device.ProxyAddress] *)
Record ProxyAddress := MkProxyAddress {
  pa_device_id : string;
  pa_channel_id : Z;
  pa_channel_group_id : Z;
  pa_channel_termination : string;
  pa_onu_id : Z;
  pa_onu_session_id : Z;
}.

#[export] Instance ProxyAddress_eq_dec : EqDecision ProxyAddress.
Proof. solve_decision. Defined.

(** [oneof address] of a device *)
Inductive device_address :=
  | MacAddress (a : string)
  | Ipv4Address (a : string)
  | Ipv6Address (a : string)
  | HostAndPort (a : string).

#[export] Instance device_address_eq_dec : EqDecision device_address.
Proof. solve_decision. Defined.

(** The fields of a [Device] that the adapter agent and the local handler
    read, beside those of Devices.v; [dm_images] stands for the message
    [Images]. *)
Record DeviceMsg := MkDeviceMsg {
  dm_device :> Device;
  dm_vendor_id : string;
  dm_serial_number : string;
  dm_proxy_address : ProxyAddress;
  dm_address : option device_address;
  dm_images : nat;
}.
#[export] Instance eta_DeviceMsg : Eta DeviceMsg := λ d,
  MkDeviceMsg (dm_device d) (dm_vendor_id d) (dm_serial_number d) (dm_proxy_address d) (dm_address d) (dm_images d).

#[export] Instance DeviceMsg_eq_dec : EqDecision DeviceMsg.
Proof. solve_decision. Defined.

#[export] Instance eta_Port : Eta Port := λ p,
  MkPort (port_no p) (port_label p) (port_type p) (port_admin_state p) (port_oper_status p)
    (port_device_id p) (peers p).

Record LogicalDeviceMsg := MkLogicalDeviceMsg {
  ld_id : string;
  ld_datapath_id : N;
  ld_mfr_desc : string;
  ld_root_device_id : string;
}.

Record DeviceTypeMsg := MkDeviceTypeMsg {
  dt_id : string;
  dt_vendor_id : string;
  dt_vendor_ids : list string;
  dt_adapter : string;
}.

(** The node of an adapter; [ad_config] stands for everything but the id. *)
Record AdapterMsg := MkAdapterMsg { ad_id : string; ad_config : string }.

Record ImageDownloadMsg := MkImageDownloadMsg { img_id : string; img_name : string }.

Module AlarmEventType.
Inductive t := COMMUNICATION | ENVIRONMENT | EQUIPMENT | SERVICE | PROCESSING | SECURITY.

Definition Name (x : t) : string :=
  match x with
  | COMMUNICATION => "COMMUNICATION" | ENVIRONMENT => "ENVIRONMENT" | EQUIPMENT => "EQUIPMENT"
  | SERVICE => "SERVICE" | PROCESSING => "PROCESSING" | SECURITY => "SECURITY"
  end.
End AlarmEventType.

Module AlarmEventCategory.
Inductive t := PON | OLT | ONT.

Definition Name (x : t) : string := match x with PON => "PON" | OLT => "OLT" | ONT => "ONT" end.
End AlarmEventCategory.

Module AlarmEventSeverity.
Inductive t := INDETERMINATE | WARNING | MINOR | MAJOR | CRITICAL.

Definition Name (x : t) : string :=
  match x with
  | INDETERMINATE => "INDETERMINATE" | WARNING => "WARNING" | MINOR => "MINOR"
  | MAJOR => "MAJOR" | CRITICAL => "CRITICAL"
  end.
End AlarmEventSeverity.

Inductive AlarmEventState := RAISED | CLEARED.

Record AlarmEvent := MkAlarmEvent {
  ae_id : string;
  ae_resource_id : string;
  ae_type : AlarmEventType.t;
  ae_category : AlarmEventCategory.t;
  ae_severity : AlarmEventSeverity.t;
  ae_state : AlarmEventState;
  ae_description : string;
  ae_reported_ts : Z;
  ae_raised_ts : Z;
  ae_changed_ts : Z;
  ae_context : list (string * string);
}.

Inductive AlarmFilterRuleKey := RK_id | RK_type | RK_severity | RK_resource_id | RK_category | RK_device_id.

Record AlarmFilterRule := MkRule { rule_key : AlarmFilterRuleKey; rule_value : string }.

Record AlarmFilter := MkAlarmFilter { af_id : string; af_rules : list AlarmFilterRule }.

(** What is published on the bus. *)
Inductive bus_msg :=
  | Payload (data : string)                          (* proxied and inter-adapter messages, states *)
  | PacketIn (logical_port_no : Z) (packet : string)
  | PacketOut (actions : list ofp_action) (data : string)
  | Kpi (event : string)
  | Alarm (event : AlarmEvent).

(** ** State *)

Record device_entry := DeviceEntry {
  de_message : DeviceMsg;
  de_ports : odict Z Port;
  de_image_downloads : odict string ImageDownloadMsg;
}.
#[export] Instance eta_device_entry : Eta device_entry :=
  λ e, DeviceEntry (de_message e) (de_ports e) (de_image_downloads e).

Record logical_entry := LogicalEntry {
  le_message : LogicalDeviceMsg;
  le_ports : odict string LogicalPort;
}.
#[export] Instance eta_logical_entry : Eta logical_entry :=
  λ e, LogicalEntry (le_message e) (le_ports e).

Record cfg_tree := CfgTree {
  t_adapters : odict string AdapterMsg;
  t_device_types : odict string DeviceTypeMsg;
  t_devices : odict string device_entry;
  t_device_groups : odict string string;
  t_logical_devices : odict string logical_entry;
  t_alarm_filters : odict string AlarmFilter;
}.
#[export] Instance eta_cfg_tree : Eta cfg_tree := λ t,
  CfgTree (t_adapters t) (t_device_types t) (t_devices t) (t_device_groups t)
    (t_logical_devices t) (t_alarm_filters t).

(** The callbacks the agent subscribes with. *)
Inductive closure :=
  | SendProxied (pa : ProxyAddress)        (* lambda t, m: self._send_proxied_message(pa, m) *)
  | ReceiveProxied (pa : ProxyAddress)
  | ReceivePacketOut (logical_device_id : string)
  | ReceiveInterAdapter
  | ForwardOnuDetect (device_id : string).

(** The attributes of one agent that change. *)
Record agent_state := AgentState {
  ag_adapter : bool;                                (* self.adapter is not None *)
  ag_node_proxy : option string;
  ag_rx : gmap string subscription;
  ag_tx : gmap string subscription;
  ag_packet_out : gmap string subscription;
  ag_onu_detect : gmap string subscription;
}.
#[export] Instance eta_agent_state : Eta agent_state := λ a,
  AgentState (ag_adapter a) (ag_node_proxy a) (ag_rx a) (ag_tx a) (ag_packet_out a) (ag_onu_detect a).

Record aworld := AWorld {
  w_tree : cfg_tree;
  w_bus : bus bus_msg;
  w_closures : gmap nat (string * closure);   (* by subscription: the agent and its callback *)
  w_agent : string → agent_state;             (* by adapter name *)
  w_device_agents : gset string;              (* core.device_agents *)
  w_core_store_id : string;
}.
#[export] Instance eta_aworld : Eta aworld := λ w,
  AWorld (w_tree w) (w_bus w) (w_closures w) (w_agent w) (w_device_agents w) (w_core_store_id w).

(** [AdapterAgent.__init__] *)
Definition new_agent : agent_state := AgentState false None ∅ ∅ ∅ ∅.

(** [except Exception]: [MacAddressError] and [IDError] derive from
    [BaseException] and pass. *)
Definition is_Exception (e : exn) : bool :=
  match e with MacAddressError | IDError | OutOfFuel => false | _ => true end.

Definition log_exception {St} (m : M St unit) : M St unit :=
  try_except m (λ e, if is_Exception e then mret tt else raise e).

(** ** The root proxy

    A keyed list of nodes of the tree: where it is (absent, when the node above
    it is), the message of a node, a new node for a message and the node with
    its message replaced (its own children stay). *)
Record container (K V : Type) := Container {
  node : Type;
  nodes : cfg_tree → option (odict K node);
  set_nodes : odict K node → cfg_tree → cfg_tree;
  message : node → V;
  new_node : V → node;
  with_message : V → node → node;
  key_of : V → K;
}.
Arguments Container {K V}.
Arguments node {K V}.
Arguments nodes {K V}.
Arguments set_nodes {K V}.
Arguments message {K V}.
Arguments new_node {K V}.
Arguments with_message {K V}.
Arguments key_of {K V}.

Definition c_adapters : container string AdapterMsg :=
  Container AdapterMsg (λ t, Some (t_adapters t)) (λ d t, t <| t_adapters := d |>) id id (λ m _, m) ad_id.
Definition c_device_types : container string DeviceTypeMsg :=
  Container DeviceTypeMsg (λ t, Some (t_device_types t)) (λ d t, t <| t_device_types := d |>) id id (λ m _, m) dt_id.
Definition c_devices : container string DeviceMsg :=
  Container device_entry (λ t, Some (t_devices t)) (λ d t, t <| t_devices := d |>)
    de_message (λ m, DeviceEntry m [] []) (λ m e, e <| de_message := m |>) (λ m, d_id m).
Definition c_device_groups : container string string :=
  Container string (λ t, Some (t_device_groups t)) (λ d t, t <| t_device_groups := d |>) id id (λ m _, m) id.
Definition c_logical_devices : container string LogicalDeviceMsg :=
  Container logical_entry (λ t, Some (t_logical_devices t)) (λ d t, t <| t_logical_devices := d |>)
    le_message (λ m, LogicalEntry m []) (λ m e, e <| le_message := m |>) ld_id.
Definition c_alarm_filters : container string AlarmFilter :=
  Container AlarmFilter (λ t, Some (t_alarm_filters t)) (λ d t, t <| t_alarm_filters := d |>) id id (λ m _, m) af_id.

(** A change of the entry of a key that is there. *)
Definition od_alter `{EqDecision K} {V} (f : V → V) (k : K) (d : odict K V) : odict K V :=
  match od_get k d with Some v => od_set k (f v) d | None => d end.

Definition c_ports (device_id : string) : container Z Port :=
  Container Port (λ t, de_ports <$> od_get device_id (t_devices t))
    (λ d t, t <| t_devices ::= od_alter (λ e, e <| de_ports := d |>) device_id |>)
    id id (λ m _, m) port_no.
Definition c_image_downloads (device_id : string) : container string ImageDownloadMsg :=
  Container ImageDownloadMsg (λ t, de_image_downloads <$> od_get device_id (t_devices t))
    (λ d t, t <| t_devices ::= od_alter (λ e, e <| de_image_downloads := d |>) device_id |>)
    id id (λ m _, m) img_name.
Definition c_logical_ports (logical_device_id : string) : container string LogicalPort :=
  Container LogicalPort (λ t, le_ports <$> od_get logical_device_id (t_logical_devices t))
    (λ d t, t <| t_logical_devices ::= od_alter (λ e, e <| le_ports := d |>) logical_device_id |>)
    id id (λ m _, m) lp_id.

Section root_proxy.
Context {K V : Type} `{EqDecision K} (c : container K V).

Definition get_nodes : M aworld (odict K (node c)) :=
  t ← gets w_tree;
  from_some KeyError (nodes c t).

(** [root_proxy.get('<container>')]: copies of the messages *)
Definition get_list : M aworld (list V) :=
  d ← get_nodes;
  mret (message c <$> d.*2).

(** [root_proxy.get('<container>/<key>')] *)
Definition get_node (k : K) : M aworld V :=
  d ← get_nodes;
  e ← from_some KeyError (od_get k d);
  mret (message c e).

Definition update_node (k : K) (v : V) : M aworld unit :=
  d ← get_nodes;
  e ← from_some KeyError (od_get k d);
  if decide (key_of c v = k) then
    modify (λ w, w <| w_tree ::= set_nodes c (od_set k (with_message c v e) d) |>)
  else raise ValueError.

Definition add_node (v : V) : M aworld unit :=
  d ← get_nodes;
  if od_mem (key_of c v) d then raise ValueError
  else modify (λ w, w <| w_tree ::= set_nodes c (d ++ [(key_of c v, new_node c v)]) |>).

Definition drop_node (k : K) : M aworld unit :=
  d ← get_nodes;
  _ ← from_some KeyError (od_get k d);
  modify (λ w, w <| w_tree ::= set_nodes c (od_del k d) |>).

Definition _make_up_to_date (k : K) (data : V) : M aworld unit :=
  try_except (_ ← get_node k; update_node k data)
    (λ e, if decide (e = KeyError) then add_node data else raise e).

Definition _remove_node (k : K) : M aworld unit :=
  try_except (_ ← get_node k; drop_node k)
    (λ e, if decide (e = KeyError) then mret tt else raise e).
End root_proxy.

(** ** Calls to the adapter and to the device agents *)
Inductive arg :=
  | ADevice (d : DeviceMsg)
  | AStr (s : string)
  | APort (p : option Z)
  | AProxy (pa : ProxyAddress)
  | AMsg (m : bus_msg)
  | AData (handle : nat).         (* a message the agent only passes on *)

Record adapter_call := Call { call_method : string; call_args : list arg }.

Inductive agent_call :=
  | UpdateDevice (d : DeviceMsg)
  | UpdateDevicePmConfig (handle : nat) (init : bool)
  | UpdateDeviceImageDownload (img : ImageDownloadMsg)
  | UnregisterDeviceImageDownload (name : string)
  | ReconcileExistingDevice (d : DeviceMsg).

(** [seq.remove(x)] of the first element equal to [x] *)
Fixpoint remove_first `{EqDecision A} (x : A) (l : list A) : list A :=
  match l with
  | [] => []
  | y :: l => if decide (y = x) then l else y :: remove_first x l
  end.

(** [for x in l: l.remove(x)]: the loop goes by index over the list it
    shortens. *)
Fixpoint remove_while_iterating `{EqDecision A} (fuel i : nat) (l : list A) : list A :=
  match fuel with
  | O => l
  | S fuel => match l !! i with
              | None => l
              | Some x => remove_while_iterating fuel (S i) (remove_first x l)
              end
  end.

(** [s.lower()] *)
Definition lower_char (a : ascii) : ascii :=
  let n := N_of_ascii a in
  if bool_decide (65 ≤ n ∧ n ≤ 90)%N then ascii_of_N (n + 32) else a.

Fixpoint lower (s : string) : string :=
  match s with EmptyString => EmptyString | String a s => String (lower_char a) (lower s) end.

(** [s.replace(c, '')] *)
Fixpoint drop_char (c : ascii) (s : string) : string :=
  match s with
  | EmptyString => EmptyString
  | String a s => if decide (a = c) then drop_char c s else String a (drop_char c s)
  end.

Definition newline : ascii := "010"%char.

(** [0-9a-f] *)
Definition is_hex (a : ascii) : bool :=
  let n := N_of_ascii a in bool_decide ((48 ≤ n ∧ n ≤ 57) ∨ (97 ≤ n ∧ n ≤ 102))%N.

(** k times [sep] and two digits, then [$], which is the end or a newline that
    ends the string *)
Fixpoint mac_tail (sep : ascii) (k : nat) (s : string) : bool :=
  match k with
  | O => bool_decide (s = EmptyString ∨ s = String newline EmptyString)
  | S k => match s with
           | String c (String a (String b s)) => bool_decide (c = sep) && is_hex a && is_hex b && mac_tail sep k s
           | _ => false
           end
  end.

Definition _is_valid_mac_address (data : string) : bool :=
  match data with
  | String a (String b (String sep rest)) =>
      is_hex a && is_hex b && bool_decide (sep = "-"%char ∨ sep = ":"%char) &&
      mac_tail sep 5 (String sep rest)
  | _ => false
  end.

(** [int(s, 16)], which ignores a newline at the end *)
Definition int16 (s : string) : result N := int_base 16 (drop_char newline s).

(** ** The agent of one adapter *)
Section calls.
Context {R : Type}.
Context (run_adapter : string → adapter_call → M aworld R).
Context (run_agent : string → agent_call → M aworld unit).

(** [self.adapter_name] *)
Context (self : string).

Definition self_state : M aworld agent_state := gets (λ w, w_agent w self).

Definition set_self (f : agent_state → agent_state) : M aworld unit :=
  modify (λ w, w <| w_agent := λ n, if decide (n = self) then f (w_agent w n) else w_agent w n |>).

(** [self.adapter.<method>(<args>)] *)
Definition call_adapter (method : string) (args : list arg) : M aworld R :=
  a ← self_state;
  if ag_adapter a then run_adapter self (Call method args) else raise AttributeError.

(** [self.core.get_device_agent(device_id).<method>(...)] *)
Definition call_device_agent (device_id : string) (c : agent_call) : M aworld unit :=
  l ← gets w_device_agents;
  if decide (device_id ∈ l) then run_agent device_id c else raise KeyError.

(** *** The event bus *)

Definition zoom_bus {A} (m : M (bus bus_msg) A) : M aworld A :=
  zoom w_bus (λ b w, w <| w_bus := b |>) m.

(** [self.event_bus.subscribe(topic, callback)] *)
Definition subscribe (topic : string) (c : closure) : M aworld subscription :=
  n ← gets (λ w, next_sid (w_bus w));
  s ← zoom_bus (EventBus.subscribe (TStr topic) n None);
  _ ← modify (λ w, w <| w_closures ::= <[n := (self, c)]> |>);
  mret s.

Definition unsubscribe (s : subscription) : M aworld unit := zoom_bus (EventBus.unsubscribe s).

(** The agent's methods that are callbacks *)
Definition receive_packet_out (logical_device_id : string) (m : bus_msg) : M aworld unit :=
  match m with
  | PacketOut actions data =>
      let out_port := action_output_port <$> find (λ a, bool_decide (a_type a = OUTPUT)) actions in
      _ ← call_adapter "receive_packet_out" [AStr logical_device_id; APort out_port; AStr data];
      mret tt
  | _ => raise AttributeError
  end.

Definition _send_proxied_message (pa : ProxyAddress) (m : bus_msg) : M aworld unit :=
  _ ← call_adapter "send_proxied_message" [AProxy pa; AMsg m]; mret tt.

Definition _receive_proxied_message (pa : ProxyAddress) (m : bus_msg) : M aworld unit :=
  _ ← call_adapter "receive_proxied_message" [AProxy pa; AMsg m]; mret tt.

Definition _forward_onu_detect_state (device_id : string) (m : bus_msg) : M aworld unit :=
  _ ← call_adapter "receive_onu_detect_state" [AStr device_id; AMsg m]; mret tt.

Definition run_closure (c : closure) (m : bus_msg) : M aworld unit :=
  match c with
  | SendProxied pa => _send_proxied_message pa m
  | ReceiveProxied pa => _receive_proxied_message pa m
  | ReceivePacketOut id => receive_packet_out id m
  | ReceiveInterAdapter => _ ← call_adapter "receive_inter_adapter_message" [AMsg m]; mret tt
  | ForwardOnuDetect id => _forward_onu_detect_state id m
  end.
End calls.

Section adapter_agent.
Context `{DictOrder}.
Context {R : Type}.
Context (message_to_json : ProxyAddress → string).
Context (re_match : string → string → bool).
Context (run_adapter : string → adapter_call → M aworld R).
Context (run_agent : string → agent_call → M aworld unit).
Context (run_other : nat → string → bus_msg → M aworld unit).

(** The callback of a subscription, of whichever agent it is ([cs] has the
    callback of each subscription); an exception is logged. *)
Definition run_subscription (cs : gmap nat (string * closure)) (d : delivery bus_msg) : M aworld unit :=
  let '(n, t, m) := d in
  log_exception (match cs !! n with
                 | Some (owner, c) => run_closure run_adapter owner c m
                 | None => run_other n t m
                 end).

(** [self.event_bus.publish(topic, msg)]: the bus calls the subscribers it has
    when the message is published, in order.  The predicates of subscriptions are
    taken to be true: those of the agents have none. *)
Definition publish (topic : string) (m : bus_msg) : M aworld unit :=
  n ← gets (λ w, length (delivered (w_bus w)));
  _ ← zoom_bus (EventBus.publish re_match (λ _ _, Ok true) (λ _ _ _, mret tt) topic m);
  l ← gets (λ w, drop n (delivered (w_bus w)));
  cs ← gets w_closures;
  forM_ (run_subscription cs) l.

Context (self : string).
Local Notation self_state := (self_state self).
Local Notation set_self := (set_self self).
Local Notation call_adapter := (call_adapter run_adapter self).
Local Notation call_device_agent := (call_device_agent run_agent).
Local Notation subscribe := (subscribe self).

(** *** Starting and stopping *)

(** What the class of the adapter gives: its constructor, [start],
    [adapter_descriptor] and [device_types]. *)
Context (adapter_cls : option AdapterMsg → M aworld unit).
Context (adapter_descriptor : M aworld AdapterMsg).
Context (adapter_device_types : M aworld (list DeviceTypeMsg)).

Definition _get_adapter_config : M aworld (option AdapterMsg) :=
  try_except (c ← get_node c_adapters self; mret (Some c))
    (λ e, if decide (e = KeyError) then mret None else raise e).

Definition _update_adapter_node : M aworld string :=
  desc ← adapter_descriptor;
  _ ← passert (bool_decide (ad_id desc = self));
  _ ← _make_up_to_date c_adapters self desc;
  mret ("/adapters/" +:+ self).

Definition _update_device_types : M aworld unit :=
  l ← adapter_device_types;
  forM_ (λ dt, _make_up_to_date c_device_types (dt_id dt) dt) l.

Definition start : M aworld unit :=
  config ← _get_adapter_config;
  log_exception (
    _ ← adapter_cls config;
    _ ← run_adapter self (Call "start" []);
    _ ← set_self (λ a, a <| ag_adapter := true |>);
    p ← _update_adapter_node;
    _ ← set_self (λ a, a <| ag_node_proxy := Some p |>);
    _update_device_types).

Definition stop : M aworld unit :=
  a ← self_state;
  if ag_adapter a then
    _ ← run_adapter self (Call "stop" []);
    set_self (λ a, a <| ag_adapter := false |>)
  else mret tt.

(** *** Core-facing service *)

Definition adopt_device (d : DeviceMsg) : M aworld R := call_adapter "adopt_device" [ADevice d].
Definition reconcile_device (d : DeviceMsg) : M aworld R := call_adapter "reconcile_device" [ADevice d].
Definition abandon_device (d : DeviceMsg) : M aworld R := call_adapter "abandon_device" [ADevice d].
Definition disable_device (d : DeviceMsg) : M aworld R := call_adapter "disable_device" [ADevice d].
Definition reenable_device (d : DeviceMsg) : M aworld R := call_adapter "reenable_device" [ADevice d].
Definition reboot_device (d : DeviceMsg) : M aworld R := call_adapter "reboot_device" [ADevice d].
Definition download_image (d : DeviceMsg) (request : nat) : M aworld R :=
  call_adapter "download_image" [ADevice d; AData request].
Definition get_image_download_status (d : DeviceMsg) (request : nat) : M aworld R :=
  call_adapter "get_image_download_status" [ADevice d; AData request].
Definition cancel_image_download (d : DeviceMsg) (request : nat) : M aworld R :=
  call_adapter "cancel_image_download" [ADevice d; AData request].
Definition activate_image_update (d : DeviceMsg) (request : nat) : M aworld R :=
  call_adapter "activate_image_update" [ADevice d; AData request].
Definition revert_image_update (d : DeviceMsg) (request : nat) : M aworld R :=
  call_adapter "revert_image_update" [ADevice d; AData request].
Definition self_test (d : DeviceMsg) : M aworld R := call_adapter "self_test_device" [ADevice d].
Definition get_device_details (d : DeviceMsg) : M aworld R := call_adapter "get_device_details" [ADevice d].
Definition update_flows_bulk (d : DeviceMsg) (flows groups : nat) : M aworld R :=
  call_adapter "update_flows_bulk" [ADevice d; AData flows; AData groups].
Definition update_flows_incrementally (d : DeviceMsg) (flow_changes group_changes : nat) : M aworld R :=
  call_adapter "update_flows_incrementally" [ADevice d; AData flow_changes; AData group_changes].
Definition suppress_alarm (filter : nat) : M aworld R := call_adapter "suppress_alarm" [AData filter].
Definition unsuppress_alarm (filter : nat) : M aworld R := call_adapter "unsuppress_alarm" [AData filter].
Definition create_interface (d : DeviceMsg) (data : nat) : M aworld R :=
  call_adapter "create_interface" [ADevice d; AData data].
Definition update_interface (d : DeviceMsg) (data : nat) : M aworld R :=
  call_adapter "update_interface" [ADevice d; AData data].
Definition remove_interface (d : DeviceMsg) (data : nat) : M aworld R :=
  call_adapter "remove_interface" [ADevice d; AData data].
Definition create_tcont (d : DeviceMsg) (tcont_data traffic_descriptor_data : nat) : M aworld R :=
  call_adapter "create_tcont" [ADevice d; AData tcont_data; AData traffic_descriptor_data].
Definition update_tcont (d : DeviceMsg) (tcont_data traffic_descriptor_data : nat) : M aworld R :=
  call_adapter "update_tcont" [ADevice d; AData tcont_data; AData traffic_descriptor_data].
Definition remove_tcont (d : DeviceMsg) (tcont_data traffic_descriptor_data : nat) : M aworld R :=
  call_adapter "remove_tcont" [ADevice d; AData tcont_data; AData traffic_descriptor_data].
Definition create_gemport (d : DeviceMsg) (data : nat) : M aworld R :=
  call_adapter "create_gemport" [ADevice d; AData data].
Definition update_gemport (d : DeviceMsg) (data : nat) : M aworld R :=
  call_adapter "update_gemport" [ADevice d; AData data].
Definition remove_gemport (d : DeviceMsg) (data : nat) : M aworld R :=
  call_adapter "remove_gemport" [ADevice d; AData data].
Definition create_multicast_gemport (d : DeviceMsg) (data : nat) : M aworld R :=
  call_adapter "create_multicast_gemport" [ADevice d; AData data].
Definition update_multicast_gemport (d : DeviceMsg) (data : nat) : M aworld R :=
  call_adapter "update_multicast_gemport" [ADevice d; AData data].
Definition remove_multicast_gemport (d : DeviceMsg) (data : nat) : M aworld R :=
  call_adapter "remove_multicast_gemport" [ADevice d; AData data].
Definition create_multicast_distribution_set (d : DeviceMsg) (data : nat) : M aworld R :=
  call_adapter "create_multicast_distribution_set" [ADevice d; AData data].
Definition update_multicast_distribution_set (d : DeviceMsg) (data : nat) : M aworld R :=
  call_adapter "update_multicast_distribution_set" [ADevice d; AData data].
Definition remove_multicast_distribution_set (d : DeviceMsg) (data : nat) : M aworld R :=
  call_adapter "remove_multicast_distribution_set" [ADevice d; AData data].

(** *** Adapter-facing service: devices *)

Definition get_device (device_id : string) : M aworld DeviceMsg := get_node c_devices device_id.

(** [set(d.id for d in devices if d.parent_id == parent_device_id)] *)
Definition children_ids (parent_device_id : string) (devices : list DeviceMsg) : list string :=
  set_items (list_to_set (d_id ∘ dm_device <$> filter (λ d : DeviceMsg, d_parent_id d = parent_device_id) devices)).

(** The criteria of [get_child_device] for one child. *)
Definition child_found (parent_port_no onu_id : option Z) (serial_number : option string) (d : DeviceMsg) : bool :=
  let found_onu_id :=
    match onu_id with
    | Some onu_id =>
        bool_decide (pa_onu_id (dm_proxy_address d) = onu_id) &&
        match parent_port_no with Some p => bool_decide (d_parent_port_no d = p) | None => true end
    | None => false
    end in
  let found_serial_number :=
    match serial_number with Some sn => bool_decide (dm_serial_number d = sn) | None => false end in
  match onu_id, serial_number with
  | Some _, Some _ => found_onu_id && found_serial_number
  | _, _ => found_onu_id || found_serial_number
  end.

(** [for id in ids: device = self.get_device(id); if ok(device): return device] *)
Fixpoint first_device (ok : DeviceMsg → bool) (ids : list string) : M aworld (option DeviceMsg) :=
  match ids with
  | [] => mret None
  | i :: ids => d ← get_device i; if ok d then mret (Some d) else first_device ok ids
  end.

Definition get_child_device (parent_device_id : string) (parent_port_no onu_id : option Z)
    (serial_number : option string) : M aworld (option DeviceMsg) :=
  match onu_id, serial_number with
  | None, None => mret None
  | _, _ =>
      devices ← get_list c_devices;
      first_device (child_found parent_port_no onu_id serial_number) (children_ids parent_device_id devices)
  end.

Definition add_device (d : DeviceMsg) : M aworld unit :=
  _ ← _make_up_to_date c_devices (d_id d) d;
  _make_up_to_date c_device_groups "1" "1".

Definition update_device (d : DeviceMsg) : M aworld unit := call_device_agent (d_id d) (UpdateDevice d).

Definition update_device_pm_config (id : string) (config : nat) (init : bool) : M aworld unit :=
  call_device_agent id (UpdateDevicePmConfig config init).

Definition update_adapter_pm_config (device_id : string) (config : nat) : M aworld unit :=
  d ← get_device device_id;
  _ ← call_adapter "update_pm_config" [ADevice d; AData config];
  mret tt.

Definition update_image_download (img : ImageDownloadMsg) : M aworld unit :=
  log_exception (call_device_agent (img_id img) (UpdateDeviceImageDownload img)).

Definition delete_image_download (img : ImageDownloadMsg) : M aworld unit :=
  log_exception (
    _ ← get_node (c_image_downloads (img_id img)) (img_name img);
    _ ← drop_node (c_image_downloads (img_id img)) (img_name img);
    call_device_agent (img_id img) (UnregisterDeviceImageDownload (img_name img))).

(** *** Ports *)

(** One peer of [_add_peer_reference] *)
Definition refer_to (me : PeerPort) (peer : PeerPort) : M aworld unit :=
  let c := c_ports (peer_device_id peer) in
  p ← get_node c (peer_port_no peer);
  let p := if decide (me ∈ peers p) then p else p <| peers ::= (λ l, l ++ [me]) |> in
  update_node c (peer_port_no peer) p.

(** The argument is changed: [port.device_id = device_id]. *)
Definition _add_peer_reference (device_id : string) (port : Port) : M aworld Port :=
  let port := port <| port_device_id := device_id |> in
  _ ← forM_ (refer_to (Peer device_id (port_no port))) (peers port);
  mret port.

Definition stop_referring_to (me : PeerPort) (peer : PeerPort) : M aworld unit :=
  let c := c_ports (peer_device_id peer) in
  p ← get_node c (peer_port_no peer);
  let p := if decide (me ∈ peers p) then p <| peers ::= remove_first me |> else p in
  update_node c (peer_port_no peer) p.

Definition _del_peer_reference (device_id : string) (port : Port) : M aworld unit :=
  forM_ (stop_referring_to (Peer device_id (port_no port))) (peers port).

Definition add_port (device_id : string) (port : Port) : M aworld Port :=
  port ← _add_peer_reference device_id port;
  _ ← _make_up_to_date (c_ports device_id) (port_no port) port;
  mret port.

Definition get_ports (device_id : string) (port_type : option PortType.t) : M aworld (list Port) :=
  ports ← get_list (c_ports device_id);
  mret (match port_type with
        | None => ports
        | Some t => filter (λ p, Devices.port_type p = t) ports
        end).

Definition get_port (device_id : string) (no : option Z) (label : option string) : M aworld (option Port) :=
  ports ← get_list (c_ports device_id);
  mret (find (λ p, bool_decide (Some (port_label p) = label ∨ Some (port_no p) = no)) ports).

Definition delete_port (device_id : string) (port : Port) : M aworld unit :=
  _ ← _del_peer_reference device_id port;
  _remove_node (c_ports device_id) (port_no port).

(** [for port in ports: <change>; self._make_up_to_date(...)] *)
Definition change_ports (device_id : string) (f : Port → Port) : M aworld unit :=
  ports ← get_list (c_ports device_id);
  forM_ (λ p, let p := f p in _make_up_to_date (c_ports device_id) (port_no p) p) ports.

Definition disable_all_ports (device_id : string) : M aworld unit :=
  change_ports device_id
    (λ p, p <| port_admin_state := AdminState.DISABLED |> <| port_oper_status := OperStatus.UNKNOWN |>).

Definition enable_all_ports (device_id : string) : M aworld unit :=
  change_ports device_id
    (λ p, p <| port_admin_state := AdminState.ENABLED |> <| port_oper_status := OperStatus.ACTIVE |>).

Definition update_operstatus_all_ports (device_id : string) (oper_status : OperStatus.t) : M aworld unit :=
  change_ports device_id (λ p, p <| port_oper_status := oper_status |>).

Definition delete_all_peer_references (device_id : string) : M aworld unit :=
  ports ← get_list (c_ports device_id);
  forM_ (λ p, let p := p <| peers ::= (λ l, remove_while_iterating (S (length l)) 0 l) |> in
              update_node (c_ports device_id) (port_no p) p) ports.

Definition delete_port_reference_from_parent (device_id : string) (port : Port) : M aworld unit :=
  _ ← _del_peer_reference device_id port;
  _make_up_to_date (c_ports device_id) (port_no port) port.

Definition add_port_reference_to_parent (device_id : string) (port : Port) : M aworld unit :=
  port ← _add_peer_reference device_id port;
  _make_up_to_date (c_ports device_id) (port_no port) port.

(** *** Logical devices *)

Definition get_logical_device (id : string) : M aworld LogicalDeviceMsg := get_node c_logical_devices id.

Definition get_logical_port (logical_device_id port_id : string) : M aworld LogicalPort :=
  get_node (c_logical_ports logical_device_id) port_id.

Definition _create_cluster_ids_from_dpid (dpid : string) : M aworld (string * N) :=
  switch_id ← lift (int16 (drop_char ":" dpid));
  lds ← get_list c_logical_devices;
  core_id ← gets w_core_store_id;
  '(ld, dp) ← lift (create_cluster_logical_device_ids core_id switch_id);
  if bool_decide (dp ∈ ld_datapath_id <$> lds) || bool_decide (ld ∈ ld_id <$> lds)
  then raise IDError else mret (ld, dp).

Definition subscribe_packet_out (logical_device_id : string) : M aworld unit :=
  s ← subscribe ("packet-out:" +:+ logical_device_id) (ReceivePacketOut logical_device_id);
  set_self (λ a, a <| ag_packet_out ::= <[logical_device_id := s]> |>).

Definition create_logical_device (ld : LogicalDeviceMsg) (dpid : option string) : M aworld LogicalDeviceMsg :=
  dpid ← match dpid with
         | None | Some EmptyString => raise MacAddressError
         | Some s => if _is_valid_mac_address (lower s) then mret (lower s) else raise MacAddressError
         end;
  ld ← (if decide (ld_id ld = "") then
          '(i, dp) ← _create_cluster_ids_from_dpid dpid;
          mret (MkLogicalDeviceMsg i dp (ld_mfr_desc ld) (ld_root_device_id ld))
        else mret ld);
  let ld := if decide (ld_mfr_desc ld = "")
            then MkLogicalDeviceMsg (ld_id ld) (ld_datapath_id ld) "VOLTHA Project" (ld_root_device_id ld)
            else ld in
  _ ← _make_up_to_date c_logical_devices (ld_id ld) ld;
  _ ← subscribe_packet_out (ld_id ld);
  mret ld.

Definition reconcile_logical_device (logical_device_id : string) : M aworld unit :=
  subscribe_packet_out logical_device_id.

Definition delete_logical_device (ld : LogicalDeviceMsg) : M aworld unit :=
  a ← self_state;
  s ← from_some KeyError (ag_packet_out a !! ld_id ld);
  _ ← unsubscribe s;
  _ ← set_self (λ a, a <| ag_packet_out ::= delete (ld_id ld) |>);
  _remove_node c_logical_devices (ld_id ld).

Definition add_logical_port (logical_device_id : string) (port : LogicalPort) : M aworld unit :=
  _make_up_to_date (c_logical_ports logical_device_id) (lp_id port) port.

Definition delete_logical_port (logical_device_id : string) (port : LogicalPort) : M aworld unit :=
  _remove_node (c_logical_ports logical_device_id) (lp_id port).

Definition delete_logical_port_by_id (logical_device_id port_id : string) : M aworld unit :=
  _remove_node (c_logical_ports logical_device_id) port_id.

Definition update_logical_port (logical_device_id : string) (port : LogicalPort) : M aworld unit :=
  _make_up_to_date (c_logical_ports logical_device_id) (lp_id port) port.

(** The path is not formatted: it names the logical device called ["{}"]. *)
Definition remove_all_logical_ports (logical_device_id : string) : M aworld unit :=
  ports ← get_list (c_logical_ports "{}");
  forM_ (λ p, _remove_node (c_logical_ports "{}") (lp_id p)) ports.

(** [flows] is one [Flows] message, and not a list: the loop over it raises. *)
Definition update_flow_stats (logical_device_id : string) (flow_id packet_count byte_count : Z) : M aworld unit :=
  _ ← get_node c_logical_devices logical_device_id;
  raise TypeError.

(** *** Child devices and proxied messages *)

Definition get_child_devices (parent_device_id : string) : M aworld (option (list DeviceMsg)) :=
  try_except
    (devices ← get_list c_devices;
     mret (Some (filter (λ d : DeviceMsg, d_parent_id d = parent_device_id) devices)))
    (λ e, if is_Exception e then mret None else raise e).

Definition _gen_rx_proxy_address_topic (pa : ProxyAddress) : string := "rx:" +:+ message_to_json pa.
Definition _gen_tx_proxy_address_topic (pa : ProxyAddress) : string := "tx:" +:+ message_to_json pa.

Definition subscribe_to_proxy_child_messages (pa : ProxyAddress) : M aworld unit :=
  let topic := _gen_tx_proxy_address_topic pa in
  s ← subscribe topic (SendProxied pa);
  set_self (λ a, a <| ag_tx ::= <[topic := s]> |>).

Definition reconcile_child_devices (parent_device_id : string) : M aworld unit :=
  children ← get_child_devices parent_device_id;
  children ← from_some TypeError children;
  forM_ (λ child : DeviceMsg,
    _ ← subscribe_to_proxy_child_messages (dm_proxy_address child);
    call_device_agent (d_id child) (ReconcileExistingDevice child)) children.

(** The fields of the new device that come with [**kw]; the others have
    protobuf's defaults. *)
Record device_kw := DeviceKw {
  kw_root : bool;
  kw_vlan : Z;
  kw_serial_number : string;
  kw_oper_status : OperStatus.t;
  kw_reason : string;
  kw_connect_status : ConnectStatus.t;
  kw_address : option device_address;
}.

Definition insert_child (device_type vendor_id adapter parent_device_id : string) (parent_port_no : Z)
    (pa : ProxyAddress) (admin_state : AdminState.t) (kw : device_kw) (uuid : string) : M aworld unit :=
  core_id ← gets w_core_store_id;
  i ← lift (create_cluster_device_id core_id uuid);
  let d := MkDeviceMsg
    (MkDevice i device_type (kw_root kw) parent_device_id parent_port_no adapter (kw_vlan kw) admin_state
       (kw_oper_status kw) (kw_reason kw) (kw_connect_status kw))
    vendor_id (kw_serial_number kw) pa (kw_address kw) 0 in
  _ ← _make_up_to_date c_devices i d;
  subscribe_to_proxy_child_messages pa.

(** [uuid] is what [uuid4] draws; [vendor_id] and [adapter] are further
    keywords here. *)
Definition child_device_detected (parent_device_id : string) (parent_port_no : Z) (child_device_type : string)
    (pa : ProxyAddress) (admin_state : AdminState.t) (vendor_id adapter : string) (kw : device_kw)
    (uuid : string) : M aworld unit :=
  insert_child child_device_type vendor_id adapter parent_device_id parent_port_no pa admin_state kw uuid.

(** [s.endswith(suffix)] *)
Definition endswith (suffix s : string) : bool := bool_decide (last_chars (String.length suffix) s = suffix).

(** The last device type that fits, as the loop does not stop. *)
Definition onu_device_type (vendor_id : string) (l : list DeviceTypeMsg) : option DeviceTypeMsg :=
  last (filter (λ dt, (dt_vendor_id dt = vendor_id ∨ vendor_id ∈ dt_vendor_ids dt) ∧ endswith "_onu" (dt_id dt) = true) l).

Definition add_onu_device (parent_device_id : string) (parent_port_no : Z) (vendor_id : string)
    (pa : ProxyAddress) (admin_state : AdminState.t) (kw : device_kw) (uuid : string) : M aworld unit :=
  types ← get_list c_device_types;
  dt ← from_some AssertionError (onu_device_type vendor_id types);
  insert_child (dt_id dt) vendor_id (dt_adapter dt) parent_device_id parent_port_no pa admin_state kw uuid.

Definition get_child_device_with_proxy_address (pa : ProxyAddress) : M aworld (option DeviceMsg) :=
  devices ← get_list c_devices;
  first_device (λ d, bool_decide (dm_proxy_address d = pa)) (children_ids (pa_device_id pa) devices).

(** [self.event_bus.unsubscribe(self._tx_event_subscriptions[topic])] and
    [del self._tx_event_subscriptions[topic]] *)
Definition drop_tx_subscription (topic : string) : M aworld unit :=
  a ← self_state;
  s ← from_some KeyError (ag_tx a !! topic);
  _ ← unsubscribe s;
  set_self (λ a, a <| ag_tx ::= delete topic |>).

Definition delete_all_child_devices (parent_device_id : string) : M aworld unit :=
  devices ← get_list c_devices;
  _ ← forM_ (λ d : DeviceMsg,
        if decide (d_parent_id d = parent_device_id)
        then drop_tx_subscription (_gen_tx_proxy_address_topic (dm_proxy_address d))
        else mret tt) devices;
  forM_ (_remove_node c_devices) (children_ids parent_device_id devices).

Definition delete_device (d : DeviceMsg) : M aworld R :=
  _ ← delete_all_child_devices (d_id d);
  call_adapter "delete_device" [ADevice d].

Definition set_connect_status (s : ConnectStatus.t) (d : Device) : Device :=
  MkDevice (d_id d) (d_type d) (d_root d) (d_parent_id d) (d_parent_port_no d)
    (d_adapter d) (d_vlan d) (d_admin_state d) (d_oper_status d) (d_reason d) s.

(** [connect_status] and [admin_state] are tested as numbers: [UNKNOWN] is 0
    and changes nothing. *)
Definition set_states (oper_status : option OperStatus.t) (connect_status : option ConnectStatus.t)
    (admin_state : option AdminState.t) (d : DeviceMsg) : DeviceMsg :=
  let d := match oper_status with
           | Some s => d <| dm_device ::= set_oper_status s |>
           | None => d
           end in
  let d := match connect_status with
           | None | Some ConnectStatus.UNKNOWN => d
           | Some s => d <| dm_device ::= set_connect_status s |>
           end in
  match admin_state with
  | None | Some AdminState.UNKNOWN => d
  | Some s => d <| dm_device ::= set_admin_state s |>
  end.

Definition update_child_devices_state (parent_device_id : string) (oper_status : option OperStatus.t)
    (connect_status : option ConnectStatus.t) (admin_state : option AdminState.t) : M aworld unit :=
  devices ← get_list c_devices;
  forM_ (λ child_id,
    d ← get_device child_id;
    let d := set_states oper_status connect_status admin_state d in
    _make_up_to_date c_devices (d_id d) d) (children_ids parent_device_id devices).

Definition delete_child_device (parent_device_id child_device_id : string) : M aworld unit :=
  get_device child_device_id ≫= λ d : DeviceMsg,
  if decide (d_parent_id d = parent_device_id) then
    _ ← drop_tx_subscription (_gen_tx_proxy_address_topic (dm_proxy_address d));
    _remove_node c_devices child_device_id
  else mret tt.

Definition register_for_proxied_messages (pa : ProxyAddress) : M aworld unit :=
  let topic := _gen_rx_proxy_address_topic pa in
  s ← subscribe topic (ReceiveProxied pa);
  set_self (λ a, a <| ag_rx ::= <[topic := s]> |>).

Definition unregister_for_proxied_messages (pa : ProxyAddress) : M aworld unit :=
  let topic := _gen_rx_proxy_address_topic pa in
  a ← self_state;
  s ← from_some KeyError (ag_rx a !! topic);
  _ ← unsubscribe s;
  set_self (λ a, a <| ag_rx ::= delete topic |>).

Definition send_proxied_message (pa : ProxyAddress) (m : bus_msg) : M aworld unit :=
  publish (_gen_tx_proxy_address_topic pa) m.

Definition receive_proxied_message (pa : ProxyAddress) (m : bus_msg) : M aworld unit :=
  publish (_gen_rx_proxy_address_topic pa) m.

Definition register_for_inter_adapter_messages : M aworld unit :=
  _ ← subscribe self ReceiveInterAdapter;
  mret tt.

(** [unsubscribe] is given a name and not a subscription: it is no key of the
    bus's table. *)
Definition unregister_for_inter_adapter_messages : M aworld unit := raise KeyError.

Definition publish_inter_adapter_message (device_id : string) (m : bus_msg) : M aworld unit :=
  get_device device_id ≫= λ d : DeviceMsg, publish (d_type d) m.

(** *** Packets, metrics, alarms *)

Definition send_packet_in (logical_device_id : string) (logical_port_no : Z) (packet : string) : M aworld unit :=
  publish ("packet-in:" +:+ logical_device_id) (PacketIn logical_port_no packet).

Definition submit_kpis (m : bus_msg) : M aworld unit :=
  log_exception (
    _ ← passert (match m with Kpi _ => true | _ => false end);
    publish "kpis" m).

(** [now] is [arrow.utcnow().timestamp]; [None] prints as [None] and leaves a
    field unset. *)
Definition create_alarm (id resource_id description : option string) (raised_ts changed_ts : Z)
    (type : AlarmEventType.t) (category : AlarmEventCategory.t) (severity : AlarmEventSeverity.t)
    (state : AlarmEventState) (context : option (list (string * string))) (now : Z) : AlarmEvent :=
  let i := match id with
           | Some i => i
           | None => "voltha." +:+ self +:+ "." +:+ default "None" resource_id
           end in
  MkAlarmEvent i (default "" resource_id) type category severity state (default "" description)
    now raised_ts changed_ts (default [] context).

(** [rule_values] *)
Definition alarm_rule_value (device_id : string) (e : AlarmEvent) (k : AlarmFilterRuleKey) : string :=
  match k with
  | RK_id => ae_id e
  | RK_type => AlarmEventType.Name (ae_type e)
  | RK_category => AlarmEventCategory.Name (ae_category e)
  | RK_severity => AlarmEventSeverity.Name (ae_severity e)
  | RK_resource_id => ae_resource_id e
  | RK_device_id => device_id
  end.

(** The loop over the rules of a filter, with its [break]. *)
Fixpoint rules_exclude (value : AlarmFilterRuleKey → string) (exclude : bool) (rules : list AlarmFilterRule) : bool :=
  match rules with
  | [] => exclude
  | r :: rules =>
      let exclude := exclude && bool_decide (lower (value (rule_key r)) = lower (rule_value r)) in
      if exclude then rules_exclude value exclude rules else false
  end.

Fixpoint filters_exclude (value : AlarmFilterRuleKey → string) (filters : list AlarmFilter) : bool :=
  match filters with
  | [] => false
  | f :: filters =>
      match af_rules f with
      | [] => filters_exclude value filters
      | rules => if rules_exclude value true rules then true else filters_exclude value filters
      end
  end.

Definition filter_alarm (device_id : string) (e : AlarmEvent) : M aworld bool :=
  filters ← get_list c_alarm_filters;
  mret (filters_exclude (alarm_rule_value device_id e) filters).

Definition submit_alarm (device_id : string) (m : bus_msg) : M aworld unit :=
  log_exception (
    match m with
    | Alarm e => b ← filter_alarm device_id e;
                 if (b : bool) then mret tt else publish "alarms" m
    | _ => raise AssertionError
    end).

(** *** Detection of ONUs *)

Definition _gen_onu_detect_proxy_address_topic (device_id : string) : string := "onu_detect:" +:+ device_id.

Definition register_for_onu_detect_state (device_id : string) : M aworld unit :=
  let topic := _gen_onu_detect_proxy_address_topic device_id in
  s ← subscribe topic (ForwardOnuDetect device_id);
  set_self (λ a, a <| ag_onu_detect ::= <[topic := s]> |>).

Definition unregister_for_onu_detect_state (device_id : string) : M aworld unit :=
  let topic := _gen_onu_detect_proxy_address_topic device_id in
  a ← self_state;
  s ← from_some KeyError (ag_onu_detect a !! topic);
  _ ← unsubscribe s;
  set_self (λ a, a <| ag_onu_detect ::= delete topic |>).

Definition forward_onu_detect_state (device_id : string) (m : bus_msg) : M aworld unit :=
  publish (_gen_onu_detect_proxy_address_topic device_id) m.
End adapter_agent.
