(* ===== verification/AdapterAgentProofs.v ===== *)
(** * Properties of the adapter agent: ports and devices

    The ports of the devices refer to each other: a port lists its peers, by
    device and number.  The methods that add and delete ports keep these
    references symmetric.  The rest is about finding, changing and deleting
    child devices. *)
From S2P Require Import Prelude OpenFlow Devices EventBus IdGeneration AdapterAgent.
From stdpp Require Import base gmap list strings.
From Stdlib Require Import ZArith Lia.

(** ** Single nodes *)

Lemma od_get_alter `{EqDecision K} {V} (f : V → V) (k k' : K) (d : odict K V) :
  od_get k' (od_alter f k d) = if decide (k' = k) then f <$> od_get k d else od_get k' d.
Proof.
  unfold od_alter. destruct (od_get k d) eqn:Hk; [rewrite od_get_set; by case_decide|].
  case_decide; [by subst|done].
Qed.

Lemma od_alter_keys `{EqDecision K} {V} (f : V → V) (k : K) (d : odict K V) : (od_alter f k d).*1 = d.*1.
Proof.
  unfold od_alter. destruct (od_get k d) eqn:Hk; [|done]. apply od_set_keys_old.
  apply od_get_Some_in in Hk. by eapply od_elem_key.
Qed.

Section nodes.
Context {K V : Type} `{EqDecision K} (c : container K V).

(** What [_make_up_to_date] leaves in the container. *)
Definition put_node (v : V) (d : odict K (node c)) : odict K (node c) :=
  od_set (key_of c v) (match od_get (key_of c v) d with Some e => with_message c v e | None => new_node c v end) d.

Lemma get_node_ok k d e w : nodes c (w_tree w) = Some d → od_get k d = Some e →
  get_node c k w = (Ok (message c e), w).
Proof. intros Hd He. unfold get_node, get_nodes, from_some, gets, mbind, M_bind. by rewrite Hd; simpl; rewrite He. Qed.

Lemma get_list_ok d w : nodes c (w_tree w) = Some d → get_list c w = (Ok (message c <$> d.*2), w).
Proof. intros Hd. unfold get_list, get_nodes, from_some, gets, mbind, M_bind. by rewrite Hd. Qed.

Lemma get_node_none k d w : nodes c (w_tree w) = Some d → od_get k d = None → get_node c k w = (Err KeyError, w).
Proof. intros Hd He. unfold get_node, get_nodes, from_some, gets, mbind, M_bind. by rewrite Hd; simpl; rewrite He. Qed.

Lemma update_node_ok v d e w : nodes c (w_tree w) = Some d → od_get (key_of c v) d = Some e →
  update_node c (key_of c v) v w = (Ok tt, w <| w_tree ::= set_nodes c (put_node v d) |>).
Proof.
  intros Hd He. unfold update_node, get_nodes, from_some, gets, mbind, M_bind, put_node.
  rewrite Hd. simpl. rewrite He. simpl. by rewrite decide_True.
Qed.

Lemma make_up_to_date_ok v d w : nodes c (w_tree w) = Some d →
  _make_up_to_date c (key_of c v) v w = (Ok tt, w <| w_tree ::= set_nodes c (put_node v d) |>).
Proof.
  intros Hd. unfold _make_up_to_date, try_except, mbind, M_bind. destruct (od_get (key_of c v) d) as [e|] eqn:He.
  - rewrite (get_node_ok _ d e) by done. by rewrite (update_node_ok v d e).
  - rewrite (get_node_none _ d) by done. rewrite decide_True by done.
    unfold add_node, get_nodes, from_some, gets, mbind, M_bind. rewrite Hd. simpl.
    unfold od_mem. rewrite He. unfold put_node. rewrite He.
    rewrite od_set_new by (by apply od_get_None). done.
Qed.

Lemma remove_node_ok k d e w : nodes c (w_tree w) = Some d → od_get k d = Some e →
  _remove_node c k w = (Ok tt, w <| w_tree ::= set_nodes c (od_del k d) |>).
Proof.
  intros Hd He. unfold _remove_node, try_except, mbind, M_bind. rewrite (get_node_ok _ d e) by done.
  unfold drop_node, get_nodes, from_some, gets, mbind, M_bind. rewrite Hd. simpl. by rewrite He.
Qed.

Lemma remove_node_absent k d w : nodes c (w_tree w) = Some d → od_get k d = None → _remove_node c k w = (Ok tt, w).
Proof.
  intros Hd He. unfold _remove_node, try_except, mbind, M_bind. by rewrite (get_node_none _ d).
Qed.
End nodes.

(** ** Ports *)

Definition device_at (w : aworld) (i : string) : option DeviceMsg := de_message <$> od_get i (t_devices (w_tree w)).

Definition port_at (w : aworld) (a : PeerPort) : option Port :=
  e ← od_get (peer_device_id a) (t_devices (w_tree w)); od_get (peer_port_no a) (de_ports e).

(** The world with the port at an address written or, with [None], removed. *)
Definition port_written (a : PeerPort) (p : option Port) (w w' : aworld) : Prop :=
  (∀ b, port_at w' b = if decide (b = a) then p else port_at w b) ∧
  (∀ i, device_at w' i = device_at w i) ∧
  (∀ i e e', od_get i (t_devices (w_tree w)) = Some e → od_get i (t_devices (w_tree w')) = Some e' →
     NoDup (de_ports e).*1 → NoDup (de_ports e').*1).

Lemma set_ports_written a e d' p w :
  od_get (peer_device_id a) (t_devices (w_tree w)) = Some e →
  (∀ n, od_get n d' = if decide (n = peer_port_no a) then p else od_get n (de_ports e)) →
  (NoDup (de_ports e).*1 → NoDup d'.*1) →
  port_written a p w (w <| w_tree ::= set_nodes (c_ports (peer_device_id a)) d' |>).
Proof.
  intros He Hd' Hnd. destruct a as [i n]. simpl in *. split_and!.
  - intros [i' n']. unfold port_at. simpl. rewrite od_get_alter. destruct (decide (i' = i)) as [->|Hi].
    + rewrite He. simpl. rewrite Hd'. destruct (decide (n' = n)) as [->|]; [by rewrite decide_True|].
      rewrite decide_False by congruence. done.
    + rewrite decide_False by congruence. done.
  - intros i'. unfold device_at. simpl. rewrite od_get_alter. case_decide; [subst; by rewrite He|done].
  - intros i' e1 e2 H1. simpl. rewrite od_get_alter. case_decide; [|naive_solver]. subst.
    rewrite He in *. simpl. intros [= <-]. simplify_eq. exact Hnd.
Qed.

Lemma get_port_ok a p w : port_at w a = Some p →
  get_node (c_ports (peer_device_id a)) (peer_port_no a) w = (Ok p, w).
Proof.
  intros Hp. unfold port_at in Hp. apply bind_Some in Hp as (e & He & Hp).
  apply (get_node_ok (c_ports (peer_device_id a)) _ (de_ports e) p); [|done]. simpl. by rewrite He.
Qed.

(** Writing a port under its own number. *)
Lemma make_port_ok i p w : is_Some (device_at w i) →
  ∃ w', _make_up_to_date (c_ports i) (port_no p) p w = (Ok tt, w') ∧ port_written (Peer i (port_no p)) (Some p) w w'.
Proof.
  intros [m Hm]. unfold device_at in Hm. apply fmap_Some in Hm as (e & He & ->). eexists. split.
  - apply (make_up_to_date_ok (c_ports i) p (de_ports e)). simpl. by rewrite He.
  - apply (set_ports_written (Peer i (port_no p)) e); [done| |apply od_set_NoDup].
    intros n. unfold put_node. simpl. rewrite od_get_set. case_decide; [|done]. by case_match.
Qed.

Lemma update_port_ok a p q w : port_at w a = Some q → port_no p = peer_port_no a →
  ∃ w', update_node (c_ports (peer_device_id a)) (peer_port_no a) p w = (Ok tt, w') ∧ port_written a (Some p) w w'.
Proof.
  intros Hq Hno. unfold port_at in Hq. apply bind_Some in Hq as (e & He & Hq). rewrite <- Hno in *. eexists. split.
  - apply (update_node_ok (c_ports (peer_device_id a)) p (de_ports e) q); [|done]. simpl. by rewrite He.
  - apply (set_ports_written a e); [done| |apply od_set_NoDup].
    intros n. unfold put_node. simpl. rewrite od_get_set, Hno. case_decide; [|done]. by case_match.
Qed.

Lemma remove_port_ok i n w : is_Some (device_at w i) →
  ∃ w', _remove_node (c_ports i) n w = (Ok tt, w') ∧ port_written (Peer i n) None w w'.
Proof.
  intros [m Hm]. unfold device_at in Hm. apply fmap_Some in Hm as (e & He & ->).
  assert (nodes (c_ports i) (w_tree w) = Some (de_ports e)) as Hn by (simpl; by rewrite He).
  destruct (od_get n (de_ports e)) as [p|] eqn:Hp.
  - eexists. split; [by apply (remove_node_ok (c_ports i) n (de_ports e) p)|].
    apply (set_ports_written (Peer i n) e); [done| |apply od_del_NoDup]. intros n'. rewrite od_get_del. done.
  - exists w. split; [by apply (remove_node_absent (c_ports i) n (de_ports e))|]. split_and!; [|done|naive_solver].
    intros b. case_decide; [|done]. subst. unfold port_at. simpl. by rewrite He.
Qed.

(** The ports stay under their own numbers, a number at most once per device;
    peers are listed once, and whoever is a peer lists the port in turn. *)
Record linked (w : aworld) : Prop := {
  linked_key : ∀ a p, port_at w a = Some p → port_no p = peer_port_no a;
  linked_once : ∀ a p, port_at w a = Some p → NoDup (peers p);
  linked_back : ∀ a p b, port_at w a = Some p → b ∈ peers p → ∃ q, port_at w b = Some q ∧ a ∈ peers q;
  linked_table : ∀ i e, od_get i (t_devices (w_tree w)) = Some e → NoDup (de_ports e).*1;
}.

Definition add_peer (me : PeerPort) (p : Port) : Port :=
  if decide (me ∈ peers p) then p else p <| peers ::= (λ l, l ++ [me]) |>.

Definition del_peer (me : PeerPort) (p : Port) : Port :=
  if decide (me ∈ peers p) then p <| peers ::= remove_first me |> else p.

Lemma elem_of_add_peer me p b : b ∈ peers (add_peer me p) ↔ b ∈ peers p ∨ b = me.
Proof.
  unfold add_peer. case_decide; simpl; [naive_solver|]. rewrite elem_of_app, list_elem_of_singleton. done.
Qed.

Lemma add_peer_NoDup me p : NoDup (peers p) → NoDup (peers (add_peer me p)).
Proof.
  intros Hp. unfold add_peer. case_decide as Hme; simpl; [done|]. apply NoDup_app. split; [done|].
  split; [set_solver|apply NoDup_singleton].
Qed.

Lemma remove_first_absent `{EqDecision A} (x : A) l : x ∉ l → remove_first x l = l.
Proof.
  induction l as [|y l IH]; [done|]. rewrite not_elem_of_cons. intros [Hy Hl]. simpl.
  rewrite decide_False by done. by rewrite IH.
Qed.

Lemma remove_first_filter `{EqDecision A} (x : A) l : NoDup l → remove_first x l = filter (λ y, y ≠ x) l.
Proof.
  induction 1 as [|y l Hy Hl IH]; [done|]. simpl. rewrite filter_cons. destruct (decide (y = x)) as [->|Hne].
  - rewrite decide_False by naive_solver. rewrite <- IH. by rewrite remove_first_absent.
  - rewrite decide_True by done. by rewrite IH.
Qed.

Lemma elem_of_del_peer me p b : NoDup (peers p) → b ∈ peers (del_peer me p) ↔ b ∈ peers p ∧ b ≠ me.
Proof.
  intros Hp. unfold del_peer. case_decide as Hme; simpl; [|naive_solver].
  unfold update_field. simpl. rewrite remove_first_filter by done. rewrite list_elem_of_filter. naive_solver.
Qed.

Lemma del_peer_NoDup me p : NoDup (peers p) → NoDup (peers (del_peer me p)).
Proof.
  intros Hp. unfold del_peer. case_decide; simpl; [|done].
  unfold update_field. simpl. rewrite remove_first_filter by done. by apply NoDup_filter.
Qed.

Lemma add_peer_no me p : port_no (add_peer me p) = port_no p.
Proof. unfold add_peer. by case_decide. Qed.

Lemma del_peer_no me p : port_no (del_peer me p) = port_no p.
Proof. unfold del_peer. by case_decide. Qed.

#[local] Hint Resolve add_peer_no del_peer_no add_peer_NoDup del_peer_NoDup : voltha.

(** [f] was applied to the ports at the addresses of [l]. *)
Definition ports_mapped (f : Port → Port) (l : list PeerPort) (w w' : aworld) : Prop :=
  (∀ b, port_at w' b = if decide (b ∈ l) then f <$> port_at w b else port_at w b) ∧
  (∀ i, device_at w' i = device_at w i) ∧
  (∀ i e e', od_get i (t_devices (w_tree w)) = Some e → od_get i (t_devices (w_tree w')) = Some e' →
     NoDup (de_ports e).*1 → NoDup (de_ports e').*1).

Lemma device_entry_back w w' i e : (∀ i, device_at w' i = device_at w i) →
  od_get i (t_devices (w_tree w')) = Some e → ∃ e0, od_get i (t_devices (w_tree w)) = Some e0.
Proof.
  intros Hd He. specialize (Hd i). unfold device_at in Hd. rewrite He in Hd. symmetry in Hd.
  apply fmap_Some in Hd as (e0 & He0 & _). by exists e0.
Qed.

(** The loops over the peers of a port: each changes the peer's port. *)
Lemma map_peers_ok (f : Port → Port) (g : PeerPort → M aworld unit) l w :
  (∀ a p w, port_at w a = Some p → port_no p = peer_port_no a →
     ∃ w', g a w = (Ok tt, w') ∧ port_written a (Some (f p)) w w') →
  (∀ p, port_no (f p) = port_no p) →
  (∀ a p, port_at w a = Some p → port_no p = peer_port_no a) →
  NoDup l → (∀ b, b ∈ l → is_Some (port_at w b)) →
  ∃ w', forM_ g l w = (Ok tt, w') ∧ ports_mapped f l w w'.
Proof.
  intros Hg Hf Hkey Hnd Hl. revert w Hkey Hl. induction Hnd as [|a l Ha Hnd IH]; intros w Hkey Hl.
  { exists w. split; [done|]. split_and!; [|done|naive_solver]. intros b. by rewrite decide_False by apply not_elem_of_nil. }
  destruct (Hl a) as [p Hp]; [left|]. destruct (Hg a p w Hp (Hkey _ _ Hp)) as (w1 & Hg1 & Hw1 & Hd1 & Hn1).
  destruct (IH w1) as (w2 & Hr & Hw2 & Hd2 & Hn2).
  - intros b q. rewrite Hw1. case_decide; [subst; intros [= <-]; rewrite Hf|]; eauto.
  - intros b Hb. rewrite Hw1. case_decide; [done|]. apply Hl. by right.
  - exists w2. split; [simpl; unfold mbind, M_bind; by rewrite Hg1|]. split_and!.
    + intros b. rewrite Hw2, Hw1. destruct (decide (b = a)) as [->|Hne].
      * rewrite decide_False by done. rewrite decide_True by left. by rewrite Hp.
      * destruct (decide (b ∈ l)); [rewrite decide_True by (by right)|rewrite decide_False by (by rewrite not_elem_of_cons)]; done.
    + intros i. by rewrite Hd2.
    + intros i e e' He He' Hk. destruct (device_entry_back w1 w2 i e') as [e1 He1]; [done..|]. eauto.
Qed.

Lemma refer_to_ok me a p w : port_at w a = Some p → port_no p = peer_port_no a →
  ∃ w', refer_to me a w = (Ok tt, w') ∧ port_written a (Some (add_peer me p)) w w'.
Proof.
  intros Hp Hno. destruct (update_port_ok a (add_peer me p) p w) as (w' & Hu & Hw'); [done|by rewrite add_peer_no|].
  exists w'. split; [|done]. unfold refer_to. rewrite (bind_ok _ _ _ _ _ (get_port_ok a p w Hp)). exact Hu.
Qed.

Lemma stop_referring_to_ok me a p w : port_at w a = Some p → port_no p = peer_port_no a →
  ∃ w', stop_referring_to me a w = (Ok tt, w') ∧ port_written a (Some (del_peer me p)) w w'.
Proof.
  intros Hp Hno. destruct (update_port_ok a (del_peer me p) p w) as (w' & Hu & Hw'); [done|by rewrite del_peer_no|].
  exists w'. split; [|done]. unfold stop_referring_to. rewrite (bind_ok _ _ _ _ _ (get_port_ok a p w Hp)). exact Hu.
Qed.

Lemma table_kept w w1 : linked w → (∀ i, device_at w1 i = device_at w i) →
  (∀ i e e', od_get i (t_devices (w_tree w)) = Some e → od_get i (t_devices (w_tree w1)) = Some e' →
     NoDup (de_ports e).*1 → NoDup (de_ports e').*1) →
  ∀ i e, od_get i (t_devices (w_tree w1)) = Some e → NoDup (de_ports e).*1.
Proof.
  intros Hl Hd Hn i e He. destruct (device_entry_back w w1 i e) as [e0 He0]; [done..|].
  eapply Hn; [exact He0|exact He|]. by eapply linked_table.
Qed.

(** Symmetry after a port was put in place and its peers were told. *)
Lemma add_port_back me port w w2 : linked w →
  (∀ p, port_at w me = Some p → peers p ⊆ peers port) →
  (∀ b, port_at w2 b = if decide (b = me) then Some port
                       else if decide (b ∈ peers port) then add_peer me <$> port_at w b else port_at w b) →
  (∀ b, b ∈ peers port → is_Some (port_at w b)) →
  ∀ a p b, port_at w2 a = Some p → b ∈ peers p → ∃ q, port_at w2 b = Some q ∧ a ∈ peers q.
Proof.
  intros Hl Hold Hw2 Hex a p b Hp Hb. rewrite Hw2 in Hp. destruct (decide (a = me)) as [->|Ha].
  { simplify_eq. rewrite Hw2. destruct (decide (b = me)) as [->|]; [by eauto|]. rewrite decide_True by done.
    destruct (Hex b Hb) as [q ->]. eexists. split; [done|]. apply elem_of_add_peer. by right. }
  assert (∃ p0, port_at w a = Some p0 ∧ (b ∈ peers p0 ∨ b = me ∧ a ∈ peers port)) as (p0 & Hp0 & Hb0).
  { case_decide; [|by eauto]. apply fmap_Some in Hp as (p0 & Hp0 & ->). apply elem_of_add_peer in Hb. naive_solver. }
  destruct (decide (b = me)) as [->|Hbm]; rewrite Hw2.
  - rewrite decide_True by done. exists port. split; [done|]. destruct Hb0 as [Hb0|[_ ?]]; [|done].
    destruct (linked_back w Hl _ _ _ Hp0 Hb0) as (q0 & Hq0 & Ha0). by apply (Hold q0).
  - rewrite decide_False by done. destruct Hb0 as [Hb0|[? _]]; [|done].
    destruct (linked_back w Hl _ _ _ Hp0 Hb0) as (q0 & -> & Ha0). destruct (decide (b ∈ peers port)); [|by exists q0].
    eexists. split; [done|]. apply elem_of_add_peer. by left.
Qed.

(** Symmetry after a port and the references to it were removed. *)
Lemma delete_port_back me port w w2 : linked w → port_at w me = Some port →
  (∀ b, port_at w2 b = if decide (b = me) then None
                       else if decide (b ∈ peers port) then del_peer me <$> port_at w b else port_at w b) →
  (∀ a p b, port_at w2 a = Some p → b ∈ peers p → ∃ q, port_at w2 b = Some q ∧ a ∈ peers q) ∧
  (∀ a p, port_at w2 a = Some p → me ∉ peers p).
Proof.
  intros Hl Hport Hw2.
  assert (∀ a p, port_at w2 a = Some p → a ≠ me ∧ me ∉ peers p ∧
            ∃ p0, port_at w a = Some p0 ∧ ∀ b, b ∈ peers p → b ∈ peers p0) as Hinv.
  { intros a p. rewrite Hw2. case_decide as Ha; [done|]. case_decide as Hin.
    - intros (p0 & Hp0 & ->)%fmap_Some. pose proof (linked_once w Hl _ _ Hp0). split; [done|].
      split; [rewrite elem_of_del_peer by done; naive_solver|]. exists p0. split; [done|].
      intros b. rewrite elem_of_del_peer by done. naive_solver.
    - intros Hp. split; [done|]. split; [|by eauto]. intros Hme. destruct Hin.
      destruct (linked_back w Hl _ _ _ Hp Hme) as (q & Hq & ?). rewrite Hport in Hq. by injection Hq as <-. }
  split; [|intros a p Hp; by destruct (Hinv _ _ Hp) as (_ & ? & _)].
  intros a p b Hp Hb. destruct (Hinv _ _ Hp) as (Ha & Hme & p0 & Hp0 & Hsub).
  destruct (linked_back w Hl _ _ _ Hp0 (Hsub _ Hb)) as (q0 & Hq0 & Ha0).
  rewrite Hw2, decide_False by (intros ->; done). rewrite Hq0. case_decide; [|by exists q0].
  eexists. split; [done|]. apply elem_of_del_peer; [by eapply linked_once|done].
Qed.

(** Adding a port that is new, or that keeps the peers it had. *)
Lemma add_port_run i port w : linked w → NoDup (peers port) → is_Some (device_at w i) →
  (∀ b, b ∈ peers port → is_Some (port_at w b)) →
  (∀ p, port_at w (Peer i (port_no port)) = Some p → peers p ⊆ peers port) →
  let port' := port <| port_device_id := i |> in
  ∃ w', add_port i port w = (Ok port', w') ∧ linked w' ∧ port_at w' (Peer i (port_no port)) = Some port' ∧
    (∀ j, device_at w' j = device_at w j).
Proof.
  intros Hl Hnd Hi Hpeers Hold port'. set (me := Peer i (port_no port)).
  destruct (map_peers_ok (add_peer me) (refer_to me) (peers port) w) as (w1 & Hr & Hw1 & Hd1 & Hn1);
    [apply refer_to_ok|apply add_peer_no|apply Hl|done|done|].
  destruct (make_port_ok i port' w1) as (w2 & Hm & Hw2 & Hd2 & Hn2); [by rewrite Hd1|].
  change (Peer i (port_no port')) with me in Hw2.
  exists w2. split_and!.
  - assert (_add_peer_reference i port w = (Ok port', w1)) as Ha
      by (unfold _add_peer_reference; by rewrite (bind_ok _ _ _ _ _ Hr)).
    unfold add_port. rewrite (bind_ok _ _ _ _ _ Ha). by rewrite (bind_ok _ _ _ _ _ Hm).
  - split.
    + intros a p. rewrite Hw2. case_decide as Ha; [intros [= <-]; by subst|]. rewrite Hw1. case_decide.
      * intros (q & Hq & ->)%fmap_Some. rewrite add_peer_no. by apply Hl.
      * apply Hl.
    + intros a p. rewrite Hw2. case_decide as Ha; [intros [= <-]; done|]. rewrite Hw1. case_decide.
      * intros (q & Hq & ->)%fmap_Some. apply add_peer_NoDup. by eapply linked_once.
      * by apply Hl.
    + apply (add_port_back me port' w w2 Hl Hold); [|exact Hpeers]. intros b. rewrite Hw2, Hw1. done.
    + eapply table_kept; [exact Hl|intros j; by rewrite Hd2, Hd1|]. intros j e e' He He' Hk.
      destruct (device_entry_back w1 w2 j e') as [e1 He1]; [done..|]. eauto.
  - rewrite Hw2. by rewrite decide_True.
  - intros j. by rewrite Hd2.
Qed.

(** Deleting a port as it is stored. *)
Lemma delete_port_run i port w : linked w → port_at w (Peer i (port_no port)) = Some port →
  ∃ w', delete_port i port w = (Ok tt, w') ∧ linked w' ∧ port_at w' (Peer i (port_no port)) = None ∧
    (∀ j, device_at w' j = device_at w j) ∧
    (∀ a p, port_at w' a = Some p → Peer i (port_no port) ∉ peers p).
Proof.
  intros Hl Hport. set (me := Peer i (port_no port)) in *.
  destruct (map_peers_ok (del_peer me) (stop_referring_to me) (peers port) w) as (w1 & Hr & Hw1 & Hd1 & Hn1);
    [apply stop_referring_to_ok|apply del_peer_no|apply Hl|by eapply linked_once| |].
  { intros b Hb. destruct (linked_back w Hl me port b) as (q & Hq & _); eauto. }
  destruct (remove_port_ok i (port_no port) w1) as (w2 & Hm & Hw2 & Hd2 & Hn2).
  { rewrite Hd1. unfold port_at in Hport. apply bind_Some in Hport as (e & He & _). unfold device_at.
    change (peer_device_id me) with i in He. by rewrite He. }
  fold me in Hw2.
  destruct (delete_port_back me port w w2 Hl Hport) as [Hback Hnone].
  { intros b. rewrite Hw2, Hw1. done. }
  exists w2. split_and!.
  - unfold delete_port, _del_peer_reference. rewrite (bind_ok _ _ _ _ _ Hr). exact Hm.
  - split; [| |exact Hback|].
    + intros a p. rewrite Hw2. case_decide as Ha; [done|]. rewrite Hw1. case_decide.
      * intros (q & Hq & ->)%fmap_Some. rewrite del_peer_no. by apply Hl.
      * apply Hl.
    + intros a p. rewrite Hw2. case_decide as Ha; [done|]. rewrite Hw1. case_decide.
      * intros (q & Hq & ->)%fmap_Some. apply del_peer_NoDup. by eapply linked_once.
      * by apply Hl.
    + eapply table_kept; [exact Hl|intros j; by rewrite Hd2, Hd1|]. intros j e e' He He' Hk.
      destruct (device_entry_back w1 w2 j e') as [e1 He1]; [done..|]. eauto.
  - rewrite Hw2. by rewrite decide_True.
  - intros j. by rewrite Hd2.
  - exact Hnone.
Qed.

(** Changes to the states of all ports of a device. *)
Section change_ports.
Context (f : Port → Port) (Hno : ∀ p, port_no (f p) = port_no p) (Hpeers : ∀ p, peers (f p) = peers p).

Lemma change_loop i ports w : is_Some (device_at w i) → NoDup (port_no <$> ports) →
  ∃ w', forM_ (λ p, let p := f p in _make_up_to_date (c_ports i) (port_no p) p) ports w = (Ok tt, w') ∧
    (∀ p, p ∈ ports → port_at w' (Peer i (port_no p)) = Some (f p)) ∧
    (∀ a, (∀ p, p ∈ ports → a ≠ Peer i (port_no p)) → port_at w' a = port_at w a) ∧
    (∀ j, device_at w' j = device_at w j) ∧
    (∀ j e e', od_get j (t_devices (w_tree w)) = Some e → od_get j (t_devices (w_tree w')) = Some e' →
       NoDup (de_ports e).*1 → NoDup (de_ports e').*1).
Proof.
  intros Hi. revert w Hi. induction ports as [|p ports IH]; intros w Hi Hnd.
  { exists w. split_and!; [done|set_solver|done|done|naive_solver]. }
  rewrite fmap_cons in Hnd. apply NoDup_cons in Hnd as [Hp Hnd].
  destruct (make_port_ok i (f p) w Hi) as (w1 & Hm & Hw1 & Hd1 & Hn1). rewrite Hno in Hw1.
  destruct (IH w1) as (w2 & Hr & Hin & Hout & Hd2 & Hn2); [by rewrite Hd1|done|].
  assert (∀ q, q ∈ ports → Peer i (port_no p) ≠ Peer i (port_no q)) as Hne.
  { intros q Hq [= He]. apply Hp. rewrite He. apply list_elem_of_fmap. by exists q. }
  exists w2. split_and!.
  - cbn [forM_]. by rewrite (bind_ok _ _ _ _ _ Hm).
  - intros q [->|Hq]%elem_of_cons; [|by apply Hin]. rewrite Hout by apply Hne. rewrite Hw1. by rewrite decide_True.
  - intros a Ha. rewrite Hout by set_solver. rewrite Hw1. rewrite decide_False; [done|]. apply Ha. left.
  - intros j. by rewrite Hd2.
  - intros j e e' He He' Hk. destruct (device_entry_back w1 w2 j e') as [e1 He1]; [done..|]. eauto.
Qed.

Lemma change_ports_run i w : linked w → is_Some (device_at w i) →
  ∃ w', change_ports i f w = (Ok tt, w') ∧ linked w' ∧ (∀ j, device_at w' j = device_at w j) ∧
    ∀ a, port_at w' a = if decide (peer_device_id a = i) then f <$> port_at w a else port_at w a.
Proof.
  intros Hl Hi. pose proof Hi as [m Hm]. unfold device_at in Hm. apply fmap_Some in Hm as (e & He & ->).
  assert (nodes (c_ports i) (w_tree w) = Some (de_ports e)) as Hn by (simpl; by rewrite He).
  assert (∀ n p, (n, p) ∈ de_ports e → port_at w (Peer i n) = Some p) as Hget.
  { intros n p Hin. unfold port_at. simpl. rewrite He. simpl. apply od_get_in; [|done]. by eapply linked_table. }
  assert (port_no <$> (de_ports e).*2 = (de_ports e).*1) as Hkeys.
  { rewrite <- list_fmap_compose. apply list_fmap_ext. intros k [n p] Hk.
    apply list_elem_of_lookup_2, Hget in Hk. by apply (linked_key w Hl) in Hk. }
  destruct (change_loop i (de_ports e).*2 w Hi) as (w1 & Hr & Hin & Hout & Hd & Htab).
  { rewrite Hkeys. by eapply linked_table. }
  assert (∀ a, port_at w1 a = if decide (peer_device_id a = i) then f <$> port_at w a else port_at w a) as Hat.
  { intros [j n]. cbn [peer_device_id]. destruct (decide (j = i)) as [->|Hj].
    - destruct (port_at w (Peer i n)) as [p|] eqn:Hp; simpl.
      + pose proof (linked_key w Hl _ _ Hp) as Hk. simpl in Hk. subst n. apply Hin.
        unfold port_at in Hp. simpl in Hp. rewrite He in Hp. simpl in Hp. apply od_get_Some_in in Hp.
        apply list_elem_of_fmap. by exists (port_no p, p).
      + rewrite Hout; [done|]. intros q ([n' q'] & -> & Hq)%list_elem_of_fmap [= ->].
        pose proof (linked_key w Hl _ _ (Hget _ _ Hq)) as Hk. simpl in Hk, Hp. rewrite Hk in Hp. by rewrite (Hget _ _ Hq) in Hp.
    - apply Hout. intros q _. congruence. }
  exists w1. split_and!; [|split|done|exact Hat].
  - unfold change_ports. rewrite (bind_ok _ _ _ _ _ (get_list_ok _ _ _ Hn)). cbn [message c_ports].
    rewrite list_fmap_id. exact Hr.
  - intros a p. rewrite Hat. case_decide; [|apply Hl]. intros (q & Hq & ->)%fmap_Some. rewrite Hno. by apply Hl.
  - intros a p. rewrite Hat. case_decide; [|by apply Hl]. intros (q & Hq & ->)%fmap_Some. rewrite Hpeers. by apply (linked_once w Hl a).
  - intros a p b. rewrite !Hat. intros Hp Hb.
    assert (∃ p0, port_at w a = Some p0 ∧ b ∈ peers p0) as (p0 & Hp0 & Hb0).
    { case_decide; [|by eauto]. apply fmap_Some in Hp as (q & Hq & ->). rewrite Hpeers in Hb. by eauto. }
    destruct (linked_back w Hl _ _ _ Hp0 Hb0) as (q & Hq & Ha). rewrite Hq.
    destruct (decide (peer_device_id b = i)); [|by exists q]. exists (f q). by rewrite Hpeers.
  - by eapply table_kept.
Qed.
End change_ports.

(** The methods that change the ports of devices. *)
Inductive port_op :=
  | OpAddPort (device_id : string) (port : Port)
  | OpAddReference (device_id : string) (port : Port)
  | OpDeletePort (device_id : string) (port : Port)
  | OpDisableAll (device_id : string)
  | OpEnableAll (device_id : string)
  | OpOperStatusAll (device_id : string) (s : OperStatus.t).

Definition run_port_op (o : port_op) : M aworld unit :=
  match o with
  | OpAddPort i p => _ ← add_port i p; mret tt
  | OpAddReference i p => add_port_reference_to_parent i p
  | OpDeletePort i p => delete_port i p
  | OpDisableAll i => disable_all_ports i
  | OpEnableAll i => enable_all_ports i
  | OpOperStatusAll i s => update_operstatus_all_ports i s
  end.

(** The conditions on which they keep the ports linked: the device exists; the peers
    of a port that is added exist and are listed once, and if the port was there
    before, it still has the peers it had; a port is deleted as it is stored.  The
    methods check none of this, and not all adapters keep to it (readded_port in
    AdapterAgentSample.v). *)
Definition op_allowed (w : aworld) (o : port_op) : Prop :=
  match o with
  | OpAddPort i p | OpAddReference i p =>
      is_Some (device_at w i) ∧ NoDup (peers p) ∧ (∀ b, b ∈ peers p → is_Some (port_at w b)) ∧
      (∀ q, port_at w (Peer i (port_no p)) = Some q → peers q ⊆ peers p)
  | OpDeletePort i p => port_at w (Peer i (port_no p)) = Some p
  | OpDisableAll i | OpEnableAll i | OpOperStatusAll i _ => is_Some (device_at w i)
  end.

Ltac change_states Hl Ho :=
  match goal with |- context [change_ports ?i ?f ?w] =>
    destruct (change_ports_run f (λ p, eq_refl) (λ p, eq_refl) i w Hl Ho) as (w' & Hr & ? & _); by exists w'
  end.

Lemma run_port_op_linked o w : linked w → op_allowed w o →
  ∃ w', run_port_op o w = (Ok tt, w') ∧ linked w'.
Proof.
  intros Hl Ho. destruct o as [i p|i p|i p|i|i|i s]; simpl in *.
  - destruct Ho as (? & ? & ? & ?). destruct (add_port_run i p w) as (w' & Hr & ? & _); [done..|].
    exists w'. by rewrite (bind_ok _ _ _ _ _ Hr).
  - destruct Ho as (? & ? & ? & ?). destruct (add_port_run i p w) as (w' & Hr & ? & _); [done..|].
    exists w'. split; [|done]. unfold add_port in Hr. unfold add_port_reference_to_parent.
    minv Hr as (p' & w1 & Ha & Hr). rewrite (bind_ok _ _ _ _ _ Ha). minv Hr as ([] & w2 & Hm & Hr).
    rewrite Hm. by injection Hr as _ ->.
  - destruct (delete_port_run i p w) as (w' & Hr & ? & _); eauto.
  - unfold disable_all_ports. change_states Hl Ho.
  - unfold enable_all_ports. change_states Hl Ho.
  - unfold update_operstatus_all_ports. change_states Hl Ho.
Qed.

(** A run of such calls. *)
Inductive port_run : aworld → list port_op → aworld → Prop :=
  | PortRun_nil w : port_run w [] w
  | PortRun_cons w o r w1 l w2 : op_allowed w o → run_port_op o w = (r, w1) → port_run w1 l w2 →
      port_run w (o :: l) w2.

(** C17 Through any sequence of calls that add, delete, enable and disable ports, in
    which ports are added with peers that exist, a port that is added again keeps
    the peers it has, and ports are deleted as they are stored (op_allowed), the
    references between ports stay symmetric and single: whichever port is listed
    as a peer exists and lists the port that refers to it, so the device graph
    built from them has no dangling edge.  Each such call returns. *)
Theorem peer_references_symmetric w l w' (Hw : linked w) (Hrun : port_run w l w') :
  linked w' ∧ ∀ o, op_allowed w' o → ∃ w'', run_port_op o w' = (Ok tt, w'').
Proof.
  induction Hrun as [w|w o r w1 l w2 Ho Hr Hrun IH].
  - split; [done|]. intros o Ho. destruct (run_port_op_linked o w) as (w'' & ? & _); eauto.
  - destruct (run_port_op_linked o w Hw Ho) as (w1' & Hr' & Hl). rewrite Hr in Hr'. injection Hr' as -> ->.
    by apply IH.
Qed.
