(* ===== verification/AdapterAgentChildren.v ===== *)
(** * Properties of the adapter agent: child devices, messages, alarms *)
From S2P Require Import Prelude OpenFlow Devices EventBus IdGeneration AdapterAgent AdapterAgentProofs.
From Stdlib Require Import Ascii.
From stdpp Require Import base gmap list strings.
From Stdlib Require Import ZArith Lia.

(** ** Child devices *)

(** Devices are stored once, under their own ids. *)
Record devices_keyed (w : aworld) : Prop := {
  keyed_once : NoDup (t_devices (w_tree w)).*1;
  keyed_id : ∀ i (d : DeviceMsg), device_at w i = Some d → d_id d = i;
}.

Definition is_child (parent : string) (w : aworld) (i : string) : Prop :=
  ∃ d, device_at w i = Some d ∧ d_parent_id d = parent.

Lemma get_devices w : get_list c_devices w = (Ok (de_message <$> (t_devices (w_tree w)).*2), w).
Proof. by apply get_list_ok. Qed.

Lemma get_device_ok i d w : device_at w i = Some d → get_device i w = (Ok d, w).
Proof.
  intros Hd. unfold device_at in Hd. apply fmap_Some in Hd as (e & He & ->).
  by apply (get_node_ok c_devices i (t_devices (w_tree w)) e).
Qed.

Lemma elem_of_devices w (d : DeviceMsg) : devices_keyed w →
  d ∈ (de_message <$> (t_devices (w_tree w)).*2) ↔ device_at w (d_id d) = Some d.
Proof.
  intros Hw. split.
  - intros (e & -> & ([i e'] & -> & Hin)%list_elem_of_fmap)%list_elem_of_fmap. simpl.
    assert (device_at w i = Some (de_message e')) as Hi.
    { unfold device_at. by rewrite (od_get_in _ _ _ (keyed_once _ Hw) Hin). }
    by rewrite (keyed_id _ Hw _ _ Hi).
  - unfold device_at. intros (e & He & ->)%fmap_Some. apply od_get_Some_in in He.
    apply list_elem_of_fmap. exists e. split; [done|]. apply list_elem_of_fmap. by eexists (_, e).
Qed.

Lemma devices_NoDup w : devices_keyed w → NoDup (de_message <$> (t_devices (w_tree w)).*2).
Proof.
  intros Hw. apply (NoDup_fmap_1 (λ d : DeviceMsg, d_id d)).
  assert ((λ d : DeviceMsg, d_id d) <$> (de_message <$> (t_devices (w_tree w)).*2) = (t_devices (w_tree w)).*1) as ->;
    [|apply Hw].
  rewrite <- !list_fmap_compose. apply list_fmap_ext. intros k [i e] Hk. simpl. apply (keyed_id _ Hw).
  unfold device_at. apply list_elem_of_lookup_2 in Hk. by rewrite (od_get_in _ _ _ (keyed_once _ Hw) Hk).
Qed.

Section children.
Context `{DictOrder}.

Lemma elem_of_children_ids parent w i : devices_keyed w →
  i ∈ children_ids parent (de_message <$> (t_devices (w_tree w)).*2) ↔ is_child parent w i.
Proof.
  intros Hw. unfold children_ids. rewrite elem_of_set_items, elem_of_list_to_set, list_elem_of_fmap. split.
  - intros (d & -> & [Hp Hd]%list_elem_of_filter). apply elem_of_devices in Hd; [|done]. by exists d.
  - intros (d & Hd & Hp). exists d. simpl. rewrite (keyed_id _ Hw _ _ Hd). split; [done|].
    apply list_elem_of_filter. split; [done|]. apply elem_of_devices; [done|]. by rewrite (keyed_id _ Hw _ _ Hd).
Qed.

Lemma first_device_spec ok ids w : (∀ i, i ∈ ids → is_Some (device_at w i)) →
  ∃ r, first_device ok ids w = (Ok r, w) ∧
    match r with
    | Some d => ∃ i, i ∈ ids ∧ device_at w i = Some d ∧ ok d = true
    | None => ∀ i d, i ∈ ids → device_at w i = Some d → ok d = false
    end.
Proof.
  induction ids as [|i ids IH]; intros Hids; simpl.
  { exists None. split; [done|]. set_solver. }
  destruct (Hids i) as [d Hd]; [left|]. rewrite (bind_ok _ _ _ _ _ (get_device_ok i d w Hd)).
  destruct (ok d) eqn:Hok.
  - exists (Some d). split; [done|]. exists i. split; [left|done].
  - destruct IH as (r & -> & Hr); [set_solver|]. exists r. split; [done|]. destruct r as [d'|].
    + destruct Hr as (i' & ? & ?). exists i'. split; [by right|done].
    + intros i' d' [->|?]%elem_of_cons; naive_solver.
Qed.

(** What the criteria of [get_child_device] mean. *)
Definition matches (parent_port_no onu_id : option Z) (serial_number : option string) (d : DeviceMsg) : Prop :=
  (∀ o, onu_id = Some o → pa_onu_id (dm_proxy_address d) = o ∧ ∀ p, parent_port_no = Some p → d_parent_port_no d = p) ∧
  (∀ s, serial_number = Some s → dm_serial_number d = s).

Lemma child_found_matches pp onu sn d : onu ≠ None ∨ sn ≠ None → child_found pp onu sn d = true ↔ matches pp onu sn d.
Proof.
  intros Hc. unfold child_found, matches. destruct onu as [o|], sn as [s|]; try naive_solver;
    destruct pp as [p|]; rewrite ?andb_true_iff, ?orb_true_iff, ?andb_true_iff, ?bool_decide_eq_true; naive_solver.
Qed.

(** Finding a child device by ONU id (on a PON port) and serial number
    returns a child of the given parent that meets every criterion that was
    given, returns nothing only when there is no such child or no criterion, and
    changes nothing. *)
Theorem get_child_device_spec parent pp onu sn w (Hw : devices_keyed w) :
  ∃ r, get_child_device parent pp onu sn w = (Ok r, w) ∧
    match r with
    | Some d => is_child parent w (d_id d) ∧ device_at w (d_id d) = Some d ∧ matches pp onu sn d
    | None => onu = None ∧ sn = None ∨ ∀ i d, is_child parent w i → device_at w i = Some d → ¬ matches pp onu sn d
    end.
Proof.
  assert (∀ c : onu ≠ None ∨ sn ≠ None, ∃ r,
    (devices ← get_list c_devices; first_device (child_found pp onu sn) (children_ids parent devices)) w = (Ok r, w) ∧
    match r with
    | Some d => is_child parent w (d_id d) ∧ device_at w (d_id d) = Some d ∧ matches pp onu sn d
    | None => ∀ i d, is_child parent w i → device_at w i = Some d → ¬ matches pp onu sn d
    end) as Hcase.
  { intros c. rewrite (bind_ok _ _ _ _ _ (get_devices w)).
    destruct (first_device_spec (child_found pp onu sn) (children_ids parent (de_message <$> (t_devices (w_tree w)).*2)) w)
      as (r & -> & Hr).
    { intros i (d & ? & _)%elem_of_children_ids; [by exists d|done]. }
    exists r. split; [done|]. destruct r as [d|].
    - destruct Hr as (i & Hi & Hd & Hok). apply elem_of_children_ids in Hi; [|done].
      pose proof (keyed_id _ Hw _ _ Hd) as Hid. subst i. split_and!; [done..|]. by apply child_found_matches.
    - intros i d Hi Hd Hm. apply elem_of_children_ids in Hi; [|done]. specialize (Hr i d Hi Hd).
      apply child_found_matches in Hm; [|done]. congruence. }
  unfold get_child_device. destruct onu as [o|], sn as [s|];
    [destruct Hcase as ([d|] & ? & ?); [naive_solver|by eexists (Some _)|exists None; auto]..|].
  exists None. auto.
Qed.

(** *** Changing the children's states *)

Lemma put_device_ok (d : DeviceMsg) w : ∃ w', _make_up_to_date c_devices (d_id d) d w = (Ok tt, w') ∧
  (∀ i, device_at w' i = if decide (i = d_id d) then Some d else device_at w i) ∧
  (NoDup (t_devices (w_tree w)).*1 → NoDup (t_devices (w_tree w')).*1) ∧
  (is_Some (device_at w (d_id d)) → ∀ a, port_at w' a = port_at w a).
Proof.
  eexists. split; [by apply (make_up_to_date_ok c_devices d (t_devices (w_tree w)))|]. split_and!.
  - intros i. unfold device_at, put_node. simpl. rewrite od_get_set. case_decide; [|done]. by case_match.
  - intros Hnd. by apply od_set_NoDup.
  - intros [m Hm] a. unfold device_at in Hm. apply fmap_Some in Hm as (e & He & ->).
    unfold port_at, put_node. simpl. rewrite od_get_set. case_decide as Ha; [|done]. rewrite He, Ha, He. done.
Qed.

Lemma set_states_id os cs ad (d : DeviceMsg) : d_id (set_states os cs ad d) = d_id d.
Proof. unfold set_states. by destruct os, cs as [[]|], ad as [[]|]. Qed.

Lemma states_loop os cs ad ids w : devices_keyed w → NoDup ids → (∀ i, i ∈ ids → is_Some (device_at w i)) →
  ∃ w', forM_ (λ child_id, d ← get_device child_id;
          let d := set_states os cs ad d in _make_up_to_date c_devices (d_id d) d) ids w = (Ok tt, w') ∧
    devices_keyed w' ∧
    (∀ i, device_at w' i = if decide (i ∈ ids) then set_states os cs ad <$> device_at w i else device_at w i) ∧
    (∀ a, port_at w' a = port_at w a).
Proof.
  intros Hw Hnd. revert w Hw. induction Hnd as [|i ids Hi Hnd IH]; intros w Hw Hids.
  { exists w. split_and!; [done|done| |done]. intros i. by rewrite decide_False by apply not_elem_of_nil. }
  destruct (Hids i) as [d Hd]; [left|]. pose proof (keyed_id _ Hw _ _ Hd) as Hid.
  destruct (put_device_ok (set_states os cs ad d) w) as (w1 & Hp & Hat & Hk & Hports).
  rewrite set_states_id, Hid in Hat, Hports.
  destruct (IH w1) as (w2 & Hr & Hw2 & Hat2 & Hports2).
  - split; [apply Hk, Hw|]. intros j d' Hj. rewrite Hat in Hj. case_decide; [|by apply Hw].
    simplify_eq. by rewrite set_states_id.
  - intros j Hj. rewrite Hat. case_decide; [done|]. apply Hids. by right.
  - exists w2. split_and!; [|done| |].
    + cbn [forM_]. unfold mbind at 1, M_bind at 1. rewrite (bind_ok _ _ _ _ _ (get_device_ok i d w Hd)). by rewrite Hp.
    + intros j. rewrite Hat2, Hat. destruct (decide (j = i)) as [->|Hj].
      * rewrite decide_False by done. rewrite decide_True by left. by rewrite Hd.
      * destruct (decide (j ∈ ids)); [rewrite decide_True by (by right)|rewrite decide_False by (by rewrite not_elem_of_cons)]; done.
    + intros a. rewrite Hports2. by apply Hports.
Qed.

(** Updating the states of the child devices of a parent changes exactly the
    children, each as told, keeps every other device and every port, and
    returns. *)
Theorem update_children_exact parent os cs ad w (Hw : devices_keyed w) :
  ∃ w', update_child_devices_state parent os cs ad w = (Ok tt, w') ∧ devices_keyed w' ∧
    (∀ i d, is_child parent w i → device_at w i = Some d → device_at w' i = Some (set_states os cs ad d)) ∧
    (∀ i, ¬ is_child parent w i → device_at w' i = device_at w i) ∧
    (∀ a, port_at w' a = port_at w a).
Proof.
  destruct (states_loop os cs ad (children_ids parent (de_message <$> (t_devices (w_tree w)).*2)) w)
    as (w' & Hr & Hw' & Hat & Hports); [done|apply NoDup_set_items| |].
  { intros i (d & ? & _)%elem_of_children_ids; [by exists d|done]. }
  exists w'. split_and!; [|done| | |done].
  - unfold update_child_devices_state. by rewrite (bind_ok _ _ _ _ _ (get_devices w)).
  - intros i d Hc Hd. rewrite Hat. rewrite decide_True by (by apply elem_of_children_ids). by rewrite Hd.
  - intros i Hc. rewrite Hat. rewrite decide_False; [done|]. by rewrite elem_of_children_ids.
Qed.
End children.

(** ** Subscriptions *)

(** A subscription that is on the bus, under a topic. *)
Definition registered (w : aworld) (s : subscription) (t : string) : Prop :=
  subs_topic_map (w_bus w) !! sid s = Some (Some t) ∧
  ∃ l, subscriptions (w_bus w) !! Some t = Some l ∧ sid s ∈ sid <$> l.

Lemma list_remove_ok s l : sid s ∈ sid <$> l →
  ∃ l1 x l2, l = l1 ++ x :: l2 ∧ sid x = sid s ∧ list_remove s l = Some (l1 ++ l2).
Proof.
  induction l as [|y l IH]; csimpl; [set_solver|]. intros Hs. case_decide as Hy.
  - by exists [], y, l.
  - destruct IH as (l1 & x & l2 & -> & Hx & ->); [set_solver|]. by exists (y :: l1), x, l2.
Qed.

Lemma unsubscribe_ok s t w : registered w s t →
  ∃ b, unsubscribe s w = (Ok tt, w <| w_bus := b |>) ∧
    ∀ s' t', t' ≠ t → registered w s' t' → registered (w <| w_bus := b |>) s' t'.
Proof.
  intros (Hm & l & Hl & Hs). destruct (list_remove_ok s l Hs) as (l1 & x & l2 & -> & _ & Hrem).
  eexists. split.
  - unfold unsubscribe, zoom_bus, zoom, EventBus.unsubscribe, gets, from_some, mbind, M_bind.
    rewrite Hm. simpl. rewrite Hl. simpl. by rewrite Hrem.
  - intros s' t' Ht (Hm' & l' & Hl' & Hs'). split; [done|]. exists l'. simpl. rewrite lookup_insert_ne by congruence. done.
Qed.

Section messages.
Context `{DictOrder} (message_to_json : ProxyAddress → string) (self : string).
Local Notation tx_topic := (_gen_tx_proxy_address_topic message_to_json).
Local Notation drop_tx_subscription := (drop_tx_subscription self).
Local Notation delete_all_child_devices := (delete_all_child_devices message_to_json self).

(** The agent's subscription to what a child sends. *)
Definition tx_live (w : aworld) (t : string) : Prop :=
  ∃ s, ag_tx (w_agent w self) !! t = Some s ∧ registered w s t.

Lemma drop_tx_ok t w : tx_live w t →
  ∃ w', drop_tx_subscription t w = (Ok tt, w') ∧ w_tree w' = w_tree w ∧
    ag_tx (w_agent w' self) = delete t (ag_tx (w_agent w self)) ∧
    (∀ n, n ≠ self → w_agent w' n = w_agent w n) ∧ (∀ t', t' ≠ t → tx_live w t' → tx_live w' t').
Proof.
  intros (s & Hs & Hreg). destruct (unsubscribe_ok s t w Hreg) as (b & Hu & Hoth).
  eexists. split; [|split_and!].
  - unfold drop_tx_subscription, self_state, gets, mbind, M_bind. rewrite Hs. simpl.
    unfold mret, M_ret. rewrite Hu. simpl. reflexivity.
  - done.
  - simpl. by rewrite decide_True.
  - intros n Hn. simpl. by rewrite decide_False.
  - intros t' Ht (s' & Hs' & Hreg'). exists s'. split.
    + simpl. rewrite decide_True by done. simpl. by rewrite lookup_delete_ne.
    + destruct (Hoth s' t' Ht Hreg') as (? & l & ? & ?). split; [done|]. by exists l.
Qed.

Lemma drop_children_ok parent (ds : list DeviceMsg) w :
  NoDup ((λ d, tx_topic (dm_proxy_address d)) <$> filter (λ d : DeviceMsg, d_parent_id d = parent) ds) →
  (∀ d : DeviceMsg, d ∈ ds → d_parent_id d = parent → tx_live w (tx_topic (dm_proxy_address d))) →
  ∃ w', forM_ (λ d : DeviceMsg, if decide (d_parent_id d = parent)
                  then drop_tx_subscription (tx_topic (dm_proxy_address d)) else mret tt) ds w = (Ok tt, w') ∧
    w_tree w' = w_tree w ∧ (∀ n, n ≠ self → w_agent w' n = w_agent w n) ∧
    (∀ t, ag_tx (w_agent w' self) !! t =
       if decide (t ∈ (λ d, tx_topic (dm_proxy_address d)) <$> filter (λ d : DeviceMsg, d_parent_id d = parent) ds)
       then None else ag_tx (w_agent w self) !! t).
Proof.
  revert w. induction ds as [|d ds IH]; intros w Hnd Hlive.
  { exists w. split_and!; [done..|]. intros t. by rewrite decide_False by apply not_elem_of_nil. }
  cbn [forM_]. rewrite filter_cons in Hnd |- *. destruct (decide (d_parent_id d = parent)) as [Hp|Hp].
  - rewrite fmap_cons in Hnd |- *. apply NoDup_cons in Hnd as [Hd Hnd].
    destruct (drop_tx_ok (tx_topic (dm_proxy_address d)) w) as (w1 & Hdrop & Ht1 & Htx1 & Ho1 & Hl1);
      [apply Hlive; [left|done]|].
    destruct (IH w1 Hnd) as (w2 & Hr & Ht2 & Ho2 & Htx2).
    { intros d' Hin' Hp'. apply Hl1; [|apply Hlive; [by right|done]]. intros He. apply Hd. rewrite <- He.
      apply list_elem_of_fmap. exists d'. split; [done|]. by apply list_elem_of_filter. }
    exists w2. split_and!; [by rewrite (bind_ok _ _ _ _ _ Hdrop)|congruence| |].
    + intros n Hn. rewrite Ho2, Ho1; done.
    + intros t. rewrite Htx2, Htx1. destruct (decide (t = tx_topic (dm_proxy_address d))) as [->|Hne].
      * rewrite (decide_True (P := _ ∈ _ :: _)) by left. by rewrite lookup_delete_eq, decide_False by done.
      * rewrite lookup_delete_ne by done.
        destruct (decide (t ∈ (λ d, tx_topic (dm_proxy_address d)) <$> filter (λ d : DeviceMsg, d_parent_id d = parent) ds));
          [rewrite decide_True by (by right)|rewrite decide_False by (by rewrite not_elem_of_cons)]; done.
  - destruct (IH w Hnd) as (w2 & Hr & ?); [intros d' Hin'; apply Hlive; by right|]. by exists w2.
Qed.

Lemma remove_devices_ok ids w :
  ∃ w', forM_ (_remove_node c_devices) ids w = (Ok tt, w') ∧ w_agent w' = w_agent w ∧
    (∀ i, device_at w' i = if decide (i ∈ ids) then None else device_at w i) ∧
    (∀ a, port_at w' a = if decide (peer_device_id a ∈ ids) then None else port_at w a).
Proof.
  revert w. induction ids as [|i ids IH]; intros w.
  { exists w. split_and!; [done|done|intros ?..]; by rewrite decide_False by apply not_elem_of_nil. }
  assert (∃ w1, _remove_node c_devices i w = (Ok tt, w1) ∧ w_agent w1 = w_agent w ∧
    ∀ j, od_get j (t_devices (w_tree w1)) = if decide (j = i) then None else od_get j (t_devices (w_tree w)))
    as (w1 & Hr1 & Ha1 & Hg1).
  { destruct (od_get i (t_devices (w_tree w))) as [e|] eqn:He.
    - eexists. split; [by apply (remove_node_ok c_devices i (t_devices (w_tree w)) e)|]. split; [done|].
      intros j. simpl. by rewrite od_get_del.
    - exists w. split; [by apply (remove_node_absent c_devices i (t_devices (w_tree w)))|]. split; [done|].
      intros j. case_decide; [by subst|done]. }
  destruct (IH w1) as (w2 & Hr2 & Ha2 & Hg2 & Hp2). exists w2. split_and!.
  - cbn [forM_]. by rewrite (bind_ok _ _ _ _ _ Hr1).
  - congruence.
  - intros j. rewrite Hg2. unfold device_at at 1. rewrite Hg1.
    destruct (decide (j ∈ ids)); [rewrite decide_True by (by right); done|].
    destruct (decide (j = i)); [rewrite decide_True by (subst; left)|rewrite decide_False by (by rewrite not_elem_of_cons)]; done.
  - intros a. rewrite Hp2. unfold port_at at 1. rewrite Hg1.
    destruct (decide (peer_device_id a ∈ ids)); [rewrite decide_True by (by right); done|].
    destruct (decide (peer_device_id a = i)) as [He|]; [rewrite decide_True by (rewrite He; left)|rewrite decide_False by (by rewrite not_elem_of_cons)]; done.
Qed.

(** Deleting all children of a parent, when the agent listens to each of them
    at an address of its own, returns with the children gone and their ports with
    them, the agent no longer listening to them, and every other device,
    subscription and agent as it was. *)
Theorem delete_all_children_exact parent w (Hw : devices_keyed w)
    (Hjson : Inj (=) (=) message_to_json)
    (Haddr : ∀ i j (d d' : DeviceMsg), device_at w i = Some d → device_at w j = Some d' → d_parent_id d = parent →
       d_parent_id d' = parent → dm_proxy_address d = dm_proxy_address d' → i = j)
    (Hlive : ∀ i (d : DeviceMsg), device_at w i = Some d → d_parent_id d = parent → tx_live w (tx_topic (dm_proxy_address d))) :
  ∃ w', delete_all_child_devices parent w = (Ok tt, w') ∧
    (∀ i, is_child parent w i → device_at w' i = None) ∧
    (∀ i, ¬ is_child parent w i → device_at w' i = device_at w i ∧ ∀ n, port_at w' (Peer i n) = port_at w (Peer i n)) ∧
    (∀ i d, is_child parent w i → device_at w i = Some d → ag_tx (w_agent w' self) !! tx_topic (dm_proxy_address d) = None) ∧
    (∀ t, (∀ i d, is_child parent w i → device_at w i = Some d → t ≠ tx_topic (dm_proxy_address d)) →
       ag_tx (w_agent w' self) !! t = ag_tx (w_agent w self) !! t) ∧
    (∀ n, n ≠ self → w_agent w' n = w_agent w n).
Proof.
  set (ds := de_message <$> (t_devices (w_tree w)).*2).
  assert (∀ t, t ∈ (λ d, tx_topic (dm_proxy_address d)) <$> filter (λ d : DeviceMsg, d_parent_id d = parent) ds ↔
    ∃ i d, is_child parent w i ∧ device_at w i = Some d ∧ t = tx_topic (dm_proxy_address d)) as Htop.
  { intros t. rewrite list_elem_of_fmap. split.
    - intros (d & -> & [Hp Hd]%list_elem_of_filter). apply elem_of_devices in Hd; [|done].
      exists (d_id d), d. split_and!; [by exists d|done..].
    - intros (i & d & (d' & Hd' & Hp) & Hd & ->). rewrite Hd in Hd'. injection Hd' as <-. exists d. split; [done|]. apply list_elem_of_filter.
      split; [done|]. apply elem_of_devices; [done|]. by rewrite (keyed_id _ Hw _ _ Hd). }
  destruct (drop_children_ok parent ds w) as (w1 & Hr1 & Ht1 & Ho1 & Htx1).
  { apply NoDup_fmap_2_strong; [|apply NoDup_filter].
    - intros d d' [Hp Hd]%list_elem_of_filter [Hp' Hd']%list_elem_of_filter He.
      apply elem_of_devices in Hd, Hd'; [|done..]. unfold _gen_tx_proxy_address_topic in He. simpl in He.
      injection He as He. apply Hjson in He. pose proof (Haddr _ _ _ _ Hd Hd' Hp Hp' He) as Hid. congruence.
    - by apply devices_NoDup. }
  { intros d Hd Hp. apply elem_of_devices in Hd; [|done]. eauto. }
  destruct (remove_devices_ok (children_ids parent ds) w1) as (w2 & Hr2 & Ha2 & Hg2 & Hp2).
  assert (∀ i, i ∈ children_ids parent ds ↔ is_child parent w i) as Hids by (intros; by apply elem_of_children_ids).
  exists w2. split_and!.
  - unfold delete_all_child_devices. rewrite (bind_ok _ _ _ _ _ (get_devices w)). fold ds.
    by rewrite (bind_ok _ _ _ _ _ Hr1).
  - intros i Hi. rewrite Hg2. by rewrite decide_True by (by apply Hids).
  - intros i Hi. split; [|intros n]; [rewrite Hg2|rewrite Hp2]; (rewrite decide_False by (by rewrite Hids));
      unfold device_at, port_at; by rewrite Ht1.
  - intros i d Hi Hd. rewrite Ha2, Htx1. rewrite decide_True; [done|]. apply Htop. by exists i, d.
  - intros t Ht. rewrite Ha2, Htx1. rewrite decide_False; [done|]. rewrite Htop.
    intros (i & d & Hi & Hd & ->). by eapply Ht.
  - intros n Hn. rewrite Ha2. by apply Ho1.
Qed.
End messages.

(** ** Proxied messages *)

(** The topic a callback is subscribed under. *)
Definition topic_of (message_to_json : ProxyAddress → string) (owner : string) (c : closure) : string :=
  match c with
  | SendProxied pa => _gen_tx_proxy_address_topic message_to_json pa
  | ReceiveProxied pa => _gen_rx_proxy_address_topic message_to_json pa
  | ReceivePacketOut i => "packet-out:" +:+ i
  | ReceiveInterAdapter => owner
  | ForwardOnuDetect i => _gen_onu_detect_proxy_address_topic i
  end.

Definition proxy_topic (t : string) : Prop := ∃ x, t = "tx:" +:+ x ∨ t = "rx:" +:+ x.

Section wired.
Context (message_to_json : ProxyAddress → string).
Local Notation topic_of := (topic_of message_to_json).

(** The agents' subscriptions are under the topics of their callbacks, and the
    topics of proxied messages are theirs alone. *)
Record wired (w : aworld) : Prop := {
  wired_sid : ∀ t l s, subscriptions (w_bus w) !! t = Some l → s ∈ l → sid s < next_sid (w_bus w);
  wired_closures : ∀ n x, w_closures w !! n = Some x → n < next_sid (w_bus w);
  wired_topic : ∀ t l s o c, subscriptions (w_bus w) !! t = Some l → s ∈ l →
    w_closures w !! sid s = Some (o, c) → t = Some (topic_of o c);
  wired_owned : ∀ t l s, subscriptions (w_bus w) !! Some t = Some l → s ∈ l → proxy_topic t →
    is_Some (w_closures w !! sid s);
  wired_names : ∀ n o c, w_closures w !! n = Some (o, c) → ¬ proxy_topic o;
}.

(** The agents that listen to a topic, in the order they subscribed. *)
Definition listeners (w : aworld) (t : string) : list string :=
  omap (λ s, fst <$> w_closures w !! sid s) (default [] (subscriptions (w_bus w) !! Some t)).

Lemma subscribe_run self c t w : subscribe self t c w =
  (let n := next_sid (w_bus w) in let s := Sub n None n (TStr t) in
   (Ok s, w <| w_bus := Bus (<[Some t := default [] (subscriptions (w_bus w) !! Some t) ++ [s]]> (subscriptions (w_bus w)))
                          (<[n := Some t]> (subs_topic_map (w_bus w))) (S n) (delivered (w_bus w)) |>
            <| w_closures ::= <[n := (self, c)]> |>)).
Proof. done. Qed.

(** Subscribing for a callback keeps the wiring, and adds the agent behind
    those that listen already. *)
Lemma subscribe_wired self c w : wired w → ¬ proxy_topic self →
  ∃ s w', subscribe self (topic_of self c) c w = (Ok s, w') ∧ wired w' ∧
    listeners w' (topic_of self c) = listeners w (topic_of self c) ++ [self] ∧
    w_tree w' = w_tree w ∧ registered w' s (topic_of self c).
Proof.
  intros Hw Hself. rewrite subscribe_run. set (n := next_sid (w_bus w)). set (t := topic_of self c).
  set (s := Sub n None n (TStr t)). cbv zeta. do 2 eexists. split; [reflexivity|].
  assert (∀ t0 l s0, subscriptions (w_bus w) !! t0 = Some l → s0 ∈ l → sid s0 ≠ n) as Hne.
  { intros t0 l s0 Hl Hs0. pose proof (wired_sid w Hw _ _ _ Hl Hs0). unfold n. lia. }
  assert (∀ s0, s0 ∈ default [] (subscriptions (w_bus w) !! Some t) ++ [s] → s0 = s ∨
            ∃ l, subscriptions (w_bus w) !! Some t = Some l ∧ s0 ∈ l) as Hin.
  { intros s0 [H0|H0%list_elem_of_singleton]%elem_of_app; [|by left]. right.
    destruct (subscriptions (w_bus w) !! Some t) as [l|]; [by exists l|]. by apply elem_of_nil in H0. }
  split_and!; [split; simpl| |done|].
  - intros t0 l s0. destruct (decide (t0 = Some t)) as [->|Ht].
    + rewrite lookup_insert_eq. intros [= <-] [->|(l' & Hl & Hs0)]%Hin; [simpl; lia|].
      pose proof (wired_sid w Hw _ _ _ Hl Hs0). unfold n. lia.
    + rewrite lookup_insert_ne by done. intros Hl Hs0. pose proof (wired_sid w Hw _ _ _ Hl Hs0). unfold n. lia.
  - intros k x. destruct (decide (k = n)) as [->|Hk]; [intros; simpl; lia|]. rewrite lookup_insert_ne by done.
    intros Hx. pose proof (wired_closures w Hw _ _ Hx). unfold n. lia.
  - intros t0 l s0 o c0. destruct (decide (t0 = Some t)) as [->|Ht].
    + rewrite lookup_insert_eq. intros [= <-] [->|(l' & Hl & Hs0)]%Hin.
      * simpl. rewrite lookup_insert_eq. intros [= <- <-]. done.
      * rewrite lookup_insert_ne by (symmetry; by eapply Hne). by eapply wired_topic.
    + rewrite lookup_insert_ne by done. intros Hl Hs0. rewrite lookup_insert_ne by (symmetry; by eapply Hne).
      by eapply wired_topic.
  - intros t0 l s0. destruct (decide (t0 = t)) as [->|Ht].
    + rewrite lookup_insert_eq. intros [= <-] [->|(l' & Hl & Hs0)]%Hin Hpt.
      * simpl. rewrite lookup_insert_eq. done.
      * rewrite lookup_insert_ne by (symmetry; by eapply Hne). by eapply wired_owned.
    + rewrite lookup_insert_ne by congruence. intros Hl Hs0 Hpt.
      rewrite lookup_insert_ne by (symmetry; by eapply Hne). by eapply wired_owned.
  - intros k o c0. destruct (decide (k = n)) as [->|Hk]; [rewrite lookup_insert_eq; by intros [= <- _]|].
    rewrite lookup_insert_ne by done. by apply wired_names.
  - unfold listeners. simpl. rewrite lookup_insert_eq. simpl. rewrite omap_app. simpl. rewrite lookup_insert_eq. simpl.
    f_equal. destruct (subscriptions (w_bus w) !! Some t) as [l|] eqn:Hl; [|done]. simpl.
    apply list_omap_ext. apply Forall_Forall2_diag, Forall_forall. intros s0 Hs0. rewrite lookup_insert_ne; [done|].
    symmetry. by eapply Hne.
  - split; simpl; [by rewrite lookup_insert_eq|]. rewrite lookup_insert_eq. eexists. split; [done|].
    rewrite fmap_app. apply elem_of_app. right. apply list_elem_of_singleton. done.
Qed.

Lemma wired_ext w w' : w_bus w' = w_bus w → w_closures w' = w_closures w → wired w → wired w'.
Proof. intros Hb Hc [? ? ? ? ?]. split; rewrite ?Hb, ?Hc; assumption. Qed.

(** Listening to a child. *)
Lemma subscribe_child_wired self pa w : wired w → ¬ proxy_topic self →
  let t := _gen_tx_proxy_address_topic message_to_json pa in
  ∃ w', subscribe_to_proxy_child_messages message_to_json self pa w = (Ok tt, w') ∧ wired w' ∧
    listeners w' t = listeners w t ++ [self] ∧ w_tree w' = w_tree w ∧ tx_live self w' t.
Proof.
  intros Hw Hself t. destruct (subscribe_wired self (SendProxied pa) w Hw Hself) as (s & w1 & Hs & Hw1 & Hl & Ht & Hreg).
  cbn [AdapterAgentChildren.topic_of] in *. fold t in Hs, Hl, Hreg. eexists. split_and!.
  - unfold subscribe_to_proxy_child_messages. fold t. rewrite (bind_ok _ _ _ _ _ Hs). reflexivity.
  - eapply wired_ext; [..|exact Hw1]; done.
  - rewrite <- Hl. done.
  - done.
  - exists s. split; [|done]. simpl. rewrite decide_True by done. apply lookup_insert_eq.
Qed.

Lemma unsubscribe_wired s t w : wired w → registered w s t → ∃ w', unsubscribe s w = (Ok tt, w') ∧ wired w'.
Proof.
  intros Hw (Hm & l & Hl & Hs). destruct (list_remove_ok s l Hs) as (l1 & x & l2 & -> & _ & Hrem). eexists. split.
  - unfold unsubscribe, zoom_bus, zoom, EventBus.unsubscribe, gets, from_some, mbind, M_bind.
    rewrite Hm. simpl. rewrite Hl. simpl. by rewrite Hrem.
  - assert (∀ t0 l0 s0, <[Some t := l1 ++ l2]> (subscriptions (w_bus w)) !! t0 = Some l0 → s0 ∈ l0 →
      ∃ l', subscriptions (w_bus w) !! t0 = Some l' ∧ s0 ∈ l') as Hback.
    { intros t0 l0 s0. destruct (decide (t0 = Some t)) as [->|Ht].
      - rewrite lookup_insert_eq. intros [= <-] H0. eexists. split; [done|]. set_solver.
      - rewrite lookup_insert_ne by done. by eauto. }
    split; simpl.
    + intros t0 l0 s0 H1 H2. destruct (Hback _ _ _ H1 H2) as (l' & ? & ?). by eapply wired_sid.
    + apply Hw.
    + intros t0 l0 s0 o c H1 H2. destruct (Hback _ _ _ H1 H2) as (l' & ? & ?). by eapply wired_topic.
    + intros t0 l0 s0 H1 H2. destruct (Hback _ _ _ H1 H2) as (l' & ? & ?). by eapply wired_owned.
    + apply Hw.
Qed.
End wired.

Section delivery.
Context {R : Type} (message_to_json : ProxyAddress → string) (re_match : string → string → bool).
Context (run_adapter : string → adapter_call → M aworld R) (run_other : nat → string → bus_msg → M aworld unit).
Local Notation publish := (publish re_match run_adapter run_other).
Local Notation wired := (wired message_to_json).

(** A message was handed to the subscribers of a topic. *)
Definition noted (t : string) (m : bus_msg) (w : aworld) : aworld :=
  let b := w_bus w in
  w <| w_bus := Bus (subscriptions b) (subs_topic_map b) (next_sid b)
         (delivered b ++ ((λ s, (sid s, t, m)) <$> default [] (subscriptions b !! Some t))) |>.

Lemma publish_calls t m w : subscriptions (w_bus w) !! None = None →
  publish t m w = forM_ (run_subscription run_adapter run_other (w_closures w))
    ((λ s, (sid s, t, m)) <$> default [] (subscriptions (w_bus w) !! Some t)) (noted t m w).
Proof.
  intros Hre. unfold AdapterAgent.publish.
  set (l := default [] (subscriptions (w_bus w) !! Some t)). set (ds := (λ s : subscription, (sid s, t, m)) <$> l).
  assert (zoom_bus (EventBus.publish re_match (λ _ _, Ok true) (λ _ _ _, mret tt) t m) w = (Ok tt, noted t m w)) as Hp.
  { unfold zoom_bus, zoom, EventBus.publish. rewrite (bind_ok _ _ _ _ _ (eq_refl : gets _ _ = (Ok _, _))).
    rewrite Hre. cbn [default]. rewrite app_nil_r. fold l.
    match goal with |- context [modify ?f] => set (g := f) end.
    assert (g (w_bus w) = w_bus w) as Hg.
    { unfold g. destruct (subscriptions (w_bus w) !! Some t) as [l'|] eqn:Hl; [|done].
      unfold l. simpl. rewrite insert_id by done. by destruct (w_bus w). }
    rewrite (bind_ok _ _ _ tt (w_bus w)) by (unfold modify; by rewrite Hg).
    rewrite deliver_all by (intros ????; by eexists).
    assert (filter (λ s, passes (λ _ _, Ok true) m (EventBus.predicate s) = true) l = l) as ->; [|done].
    clear. induction l as [|s l IH]; [done|]. rewrite filter_cons, decide_True by (by destruct (EventBus.predicate s)). by rewrite IH. }
  rewrite (bind_ok _ _ _ _ _ (eq_refl : gets _ _ = (Ok _, _))). rewrite (bind_ok _ _ _ _ _ Hp).
  rewrite (bind_ok _ _ _ _ _ (eq_refl : gets _ _ = (Ok _, _))). rewrite (bind_ok _ _ _ _ _ (eq_refl : gets _ _ = (Ok _, _))).
  unfold noted at 1 2. simpl. fold l. rewrite drop_app_length. done.
Qed.

Lemma forM_fmap {A B} (f : A → B) (g : B → M aworld unit) l w : forM_ g (f <$> l) w = forM_ (λ a, g (f a)) l w.
Proof.
  revert w. induction l as [|a l IH]; intros w; [done|]. rewrite fmap_cons. cbn [forM_]. unfold mbind, M_bind.
  destruct (g (f a) w) as [[]]; done.
Qed.

(** Running the callbacks of subscribers that all have the same kind of
    callback is running it for each listener. *)
Lemma run_listeners (cs : gmap nat (string * closure)) t m c l w :
  (∀ s, s ∈ l → ∃ o, cs !! sid s = Some (o, c)) →
  forM_ (λ s, run_subscription run_adapter run_other cs (sid s, t, m)) l w =
    forM_ (λ o, log_exception (run_closure run_adapter o c m)) (omap (λ s, fst <$> cs !! sid s) l) w.
Proof.
  revert w. induction l as [|s l IH]; intros w Hl; [done|]. destruct (Hl s) as [o Ho]; [left|].
  assert (omap (λ s, fst <$> cs !! sid s) (s :: l) = o :: omap (λ s, fst <$> cs !! sid s) l) as ->
    by (simpl; by rewrite Ho).
  assert (run_subscription run_adapter run_other cs (sid s, t, m) = log_exception (run_closure run_adapter o c m)) as Hs
    by (simpl; by rewrite Ho).
  cbn [forM_]. rewrite Hs. unfold mbind, M_bind.
  destruct (log_exception (run_closure run_adapter o c m) w) as [[]]; [|done]. apply IH. set_solver.
Qed.

Lemma proxied_closure pa w : Inj (=) (=) message_to_json → wired w → ∀ s,
  s ∈ default [] (subscriptions (w_bus w) !! Some (_gen_tx_proxy_address_topic message_to_json pa)) →
  ∃ o, w_closures w !! sid s = Some (o, SendProxied pa).
Proof.
  intros Hinj Hw s Hs. set (t := _gen_tx_proxy_address_topic message_to_json pa) in *.
  destruct (subscriptions (w_bus w) !! Some t) as [l|] eqn:Hl; [|by apply elem_of_nil in Hs]. simpl in Hs.
  destruct (wired_owned _ w Hw t l s Hl Hs) as [[o c] Hc]; [by eexists; left|].
  pose proof (wired_topic _ w Hw _ _ _ _ _ Hl Hs Hc) as [= Ht]. exists o.
  destruct c as [pa'|pa'|i| |i]; simpl in Ht; try discriminate Ht.
  - unfold t, _gen_tx_proxy_address_topic in Ht. simpl in Ht. injection Ht as Ht. apply Hinj in Ht. by subst.
  - destruct (wired_names _ w Hw _ _ _ Hc). rewrite <- Ht. by eexists; left.
Qed.

(** C22 A message sent to a parent through the proxy address of a child is
    handed to the adapters whose agents listen at that address, in the order
    they subscribed, each with the address and the message, and to nobody else;
    an adapter that raises does not keep it from the others. *)
Theorem proxied_delivery pa m w (Hjson : Inj (=) (=) message_to_json) (Hw : wired w)
    (Hre : subscriptions (w_bus w) !! None = None) :
  let t := _gen_tx_proxy_address_topic message_to_json pa in
  send_proxied_message message_to_json re_match run_adapter run_other pa m w =
    forM_ (λ owner, log_exception (_send_proxied_message run_adapter owner pa m)) (listeners w t) (noted t m w).
Proof.
  intros t. unfold send_proxied_message. rewrite publish_calls by done. rewrite forM_fmap.
  rewrite (run_listeners _ _ _ (SendProxied pa)); [done|]. by apply proxied_closure.
Qed.
End delivery.
