(* ===== verification/AdapterAgentLogical.v ===== *)
(** * Properties of the adapter agent: logical devices, alarms, calls *)
From S2P Require Import Prelude OpenFlow Devices EventBus IdGeneration AdapterAgent AdapterAgentProofs AdapterAgentChildren.
From Stdlib Require Import Ascii.
From stdpp Require Import base gmap list strings.
From Stdlib Require Import ZArith NArith Lia.

(** ** MAC addresses *)

Lemma is_hex_digit a : is_hex a = true → ∃ d, digit_of 16 a = Some d.
Proof.
  unfold is_hex, digit_of. rewrite bool_decide_eq_true. set (n := N_of_ascii a). intros Hn.
  assert (∃ d : N, (if decide (48 ≤ n ≤ 57)%N then Some (n - 48)%N
           else if decide (97 ≤ n ≤ 102)%N then Some (n - 87)%N
           else if decide (65 ≤ n ≤ 70)%N then Some (n - 55)%N else None) = Some d ∧ (d < 16)%N) as (d & -> & Hd).
  { destruct Hn as [Hn|Hn]; [rewrite decide_True by lia; eexists; split; [done|lia]|].
    rewrite decide_False by lia. rewrite decide_True by lia. eexists; split; [done|lia]. }
  exists d. simpl. by rewrite decide_True by lia.
Qed.

Lemma is_hex_plain a : is_hex a = true → a ≠ newline ∧ a ≠ ":"%char ∧ a ≠ "-"%char.
Proof. by intros Ha; split_and!; intros ->. Qed.

(** The digits of a MAC address with colons, without the separators. *)
Lemma mac_tail_parse k s acc : mac_tail ":" k s = true →
  ∃ n, parse_from 16 (drop_char newline (drop_char ":" s)) acc = Some n ∧ (n < (acc + 1) * 256 ^ N.of_nat k)%N.
Proof.
  revert s acc. induction k as [|k IH]; intros s acc Hs; cbn [mac_tail] in Hs.
  - apply bool_decide_eq_true in Hs as [-> | ->]; exists acc; split; [done|simpl; lia|done|simpl; lia].
  - destruct s as [|c [|a [|b s]]]; try done. rewrite !andb_true_iff in Hs. destruct Hs as [[[Hc Ha] Hb] Hs].
    apply bool_decide_eq_true in Hc as ->.
    destruct (is_hex_plain a Ha) as (Ha1 & Ha2 & _), (is_hex_plain b Hb) as (Hb1 & Hb2 & _).
    destruct (is_hex_digit a Ha) as [da Hda], (is_hex_digit b Hb) as [db Hdb].
    cbn [drop_char]. rewrite decide_True by done. rewrite !decide_False by done. cbn [drop_char]. rewrite !decide_False by done.
    cbn [parse_from]. rewrite Hda. cbn [mbind option_bind]. rewrite Hdb. cbn [mbind option_bind].
    destruct (IH s (16 * (16 * acc + da) + db)%N Hs) as (n & -> & Hn). exists n. split; [done|].
    apply digit_of_lt in Hda, Hdb. rewrite Nat2N.inj_succ, N.pow_succ_r'.
    eapply N.lt_le_trans; [exact Hn|]. rewrite N.mul_assoc. apply N.mul_le_mono_r. lia.
Qed.

(** A valid address with colons is a number of 48 bits; with dashes [int]
    rejects it. *)
Lemma mac_colon a b rest : _is_valid_mac_address (String a (String b (String ":" rest))) = true →
  ∃ n, int16 (drop_char ":" (String a (String b (String ":" rest)))) = Ok n ∧ (n < 2 ^ 48)%N.
Proof.
  cbn [_is_valid_mac_address]. rewrite !andb_true_iff. intros [[[Ha Hb] _] Hs].
  destruct (is_hex_plain a Ha) as (Ha1 & Ha2 & _), (is_hex_plain b Hb) as (Hb1 & Hb2 & _).
  destruct (is_hex_digit a Ha) as [da Hda], (is_hex_digit b Hb) as [db Hdb].
  destruct (mac_tail_parse 5 _ (16 * da + db)%N Hs) as (n & Hn & Hlt). exists n. split.
  - unfold int16. set (s := String ":" rest) in *. cbn [drop_char]. rewrite !decide_False by done.
    cbn [drop_char]. rewrite !decide_False by done. apply int_base_Some; [done|].
    cbn [parse_from]. rewrite Hda. cbn [mbind option_bind]. rewrite Hdb. cbn [mbind option_bind].
    replace (16 * (16 * 0 + da) + db)%N with (16 * da + db)%N by lia. exact Hn.
  - apply digit_of_lt in Hda, Hdb. eapply N.lt_le_trans; [exact Hlt|].
    change (256 ^ N.of_nat 5)%N with 1099511627776%N. change (2 ^ 48)%N with (256 * 1099511627776)%N.
    apply N.mul_le_mono_r. lia.
Qed.

Lemma mac_dash a b rest : _is_valid_mac_address (String a (String b (String "-" rest))) = true →
  int16 (drop_char ":" (String a (String b (String "-" rest)))) = Err ValueError.
Proof.
  cbn [_is_valid_mac_address]. rewrite !andb_true_iff. intros [[[Ha Hb] _] _].
  destruct (is_hex_plain a Ha) as (Ha1 & Ha2 & _), (is_hex_plain b Hb) as (Hb1 & Hb2 & _).
  unfold int16. set (s := String "-" rest). cbn [drop_char]. rewrite !decide_False by done.
  cbn [drop_char]. rewrite !decide_False by done. unfold s. cbn [drop_char]. rewrite decide_False by done.
  cbn [drop_char]. rewrite decide_False by done. unfold int_base. cbn [parse_from].
  destruct (digit_of 16 a); [|done]. cbn [mbind option_bind]. destruct (digit_of 16 b); done.
Qed.

(** ** Logical devices *)
Definition logical_at (w : aworld) (i : string) : option LogicalDeviceMsg :=
  le_message <$> od_get i (t_logical_devices (w_tree w)).

Definition logical_ids_used (w : aworld) : list string := ld_id <$> (le_message <$> (t_logical_devices (w_tree w)).*2).
Definition datapath_ids_used (w : aworld) : list N := ld_datapath_id <$> (le_message <$> (t_logical_devices (w_tree w)).*2).

Definition named (ld : LogicalDeviceMsg) : LogicalDeviceMsg :=
  if decide (ld_mfr_desc ld = "")
  then MkLogicalDeviceMsg (ld_id ld) (ld_datapath_id ld) "VOLTHA Project" (ld_root_device_id ld) else ld.

Section logical.
Context (message_to_json : ProxyAddress → string) (self : string).
Local Notation create_logical_device := (create_logical_device self).
Local Notation listeners := listeners.

(** Storing a logical device and listening for the packets sent to it. *)
Lemma store_logical_ok (ld : LogicalDeviceMsg) w : wired message_to_json w → ¬ proxy_topic self →
  ∃ w', (_ ← _make_up_to_date c_logical_devices (ld_id ld) ld; _ ← subscribe_packet_out self (ld_id ld); mret ld) w
          = (Ok ld, w') ∧
    (∀ i, logical_at w' i = if decide (i = ld_id ld) then Some ld else logical_at w i) ∧
    listeners w' ("packet-out:" +:+ ld_id ld) = listeners w ("packet-out:" +:+ ld_id ld) ++ [self] ∧
    wired message_to_json w'.
Proof.
  intros Hw Hself.
  set (w1 := w <| w_tree ::= set_nodes c_logical_devices (put_node c_logical_devices ld (t_logical_devices (w_tree w))) |>).
  assert (_make_up_to_date c_logical_devices (ld_id ld) ld w = (Ok tt, w1)) as H1
    by (by apply (make_up_to_date_ok c_logical_devices ld (t_logical_devices (w_tree w)))).
  assert (wired message_to_json w1) as Hw1 by (destruct Hw; split; done).
  destruct (subscribe_wired message_to_json self (ReceivePacketOut (ld_id ld)) w1 Hw1 Hself)
    as (s & w2 & Hs & Hw2 & Hl2 & Ht2 & Hreg). cbn [topic_of] in *.
  eexists. split_and!.
  - rewrite (bind_ok _ _ _ _ _ H1). unfold subscribe_packet_out, mbind at 1 2, M_bind at 1 2. rewrite Hs.
    unfold set_self, modify. reflexivity.
  - intros i. unfold logical_at. simpl. rewrite Ht2. unfold w1. simpl. unfold put_node. simpl. rewrite od_get_set.
    case_decide; [|done]. by case_match.
  - unfold AdapterAgentChildren.listeners in *. simpl. rewrite Hl2. unfold w1. done.
  - destruct Hw2; split; done.
Qed.

(** A logical device without an id gets the ids its address makes. *)
Lemma create_from_mac ld x y w : ld_id ld = "" → _is_valid_mac_address (lower (String x y)) = true →
  create_logical_device ld (Some (String x y)) w =
    (ids ← _create_cluster_ids_from_dpid (lower (String x y));
     let ld := named (MkLogicalDeviceMsg ids.1 ids.2 (ld_mfr_desc ld) (ld_root_device_id ld)) in
     _ ← _make_up_to_date c_logical_devices (ld_id ld) ld; _ ← subscribe_packet_out self (ld_id ld); mret ld) w.
Proof.
  intros Hid Hv. unfold AdapterAgent.create_logical_device. rewrite Hv.
  rewrite (bind_ok (mret _) _ w _ w) by done. rewrite (decide_True _ _ Hid).
  destruct (_create_cluster_ids_from_dpid (lower (String x y)) w) as [[[]|] w'] eqn:Hr.
  - rewrite (bind_ok _ _ _ _ _ Hr). erewrite bind_ok by (rewrite (bind_ok _ _ _ _ _ Hr); reflexivity). reflexivity.
  - rewrite (bind_err _ _ _ _ _ Hr). erewrite bind_err by (rewrite (bind_err _ _ _ _ _ Hr); reflexivity). reflexivity.
Qed.

(** C27 Creating a logical device that has no id yet, for a MAC address with colons,
    gives it as datapath id the 48 bits of the address, and as id the lower 16 bits
    of the core's id followed by them; when no logical device has one of the two,
    it is stored under its id with every other logical device kept, and the agent
    listens for the packets sent to it; otherwise [IDError] is raised and nothing
    changes. *)
Theorem create_logical_device_ids ld dpid a b rest core w
    (Hid : ld_id ld = "") (Hmac : lower dpid = String a (String b (String ":" rest)))
    (Hvalid : _is_valid_mac_address (lower dpid) = true) (Hcore : int_base 16 (w_core_store_id w) = Ok core)
    (Hw : wired message_to_json w) (Hself : ¬ proxy_topic self) :
  ∃ n i, int16 (drop_char ":" (lower dpid)) = Ok n ∧
    int_base 16 i = Ok ((core mod 2 ^ 16) * 2 ^ 48 + n)%N ∧
    if decide (n ∈ datapath_ids_used w ∨ i ∈ logical_ids_used w)
    then create_logical_device ld (Some dpid) w = (Err IDError, w)
    else ∃ ld' w', create_logical_device ld (Some dpid) w = (Ok ld', w') ∧ ld_id ld' = i ∧ ld_datapath_id ld' = n ∧
      (∀ j, logical_at w' j = if decide (j = i) then Some ld' else logical_at w j) ∧
      listeners w' ("packet-out:" +:+ i) = listeners w ("packet-out:" +:+ i) ++ [self].
Proof.
  rewrite Hmac in Hvalid. destruct (mac_colon a b rest Hvalid) as (n & Hn & Hlt).
  destruct (logical_ids_roundtrip (w_core_store_id w) core n Hcore) as (i & c & Hcr & _ & Hi & _ & _).
  rewrite (N.mod_small n (2 ^ 48) Hlt) in Hcr, Hi. exists n, i. rewrite Hmac. split; [done|]. split; [done|].
  assert (∃ x y, dpid = String x y) as (x & y & ->) by (destruct dpid; [done|by eexists _, _]).
  assert (_create_cluster_ids_from_dpid (String a (String b (String ":" rest))) w =
    (if decide (n ∈ datapath_ids_used w ∨ i ∈ logical_ids_used w) then (Err IDError, w) else (Ok (i, n), w))) as Hids.
  { unfold _create_cluster_ids_from_dpid. rewrite Hn.
    unfold lift, gets, mbind, M_bind. rewrite (get_list_ok c_logical_devices (t_logical_devices (w_tree w))) by done.
    rewrite Hcr. cbn [message c_logical_devices]. fold (datapath_ids_used w) (logical_ids_used w).
    rewrite <- bool_decide_or. destruct (decide (n ∈ datapath_ids_used w ∨ i ∈ logical_ids_used w)) as [Hc|Hc].
    - rewrite bool_decide_true by done. done.
    - rewrite bool_decide_false by done. reflexivity. }
  rewrite create_from_mac by (rewrite ?Hmac; done). rewrite Hmac.
  case_decide as Hc; [by rewrite (bind_err _ _ _ _ _ Hids)|]. rewrite (bind_ok _ _ _ _ _ Hids). cbn [fst snd].
  match goal with |- context [MkLogicalDeviceMsg i n ?x ?y] => set (ld1 := MkLogicalDeviceMsg i n x y) end.
  destruct (store_logical_ok (named ld1) w Hw Hself) as (w' & Hr & Hat & Hls & _).
  assert (ld_id (named ld1) = i ∧ ld_datapath_id (named ld1) = n) as [Hi1 Hn1] by (unfold named; by case_decide).
  rewrite Hi1 in Hat, Hls. exists (named ld1), w'. split_and!; [exact Hr|done..].
Qed.

(** Without a MAC address, or with a text that is none, [create_logical_device]
    raises [MacAddressError] and changes nothing; for an address with dashes,
    which it takes for valid, it raises [ValueError]. *)
Theorem create_logical_device_rejects ld dpid w :
  match dpid with
  | None => create_logical_device ld dpid w = (Err MacAddressError, w)
  | Some s =>
      (_is_valid_mac_address (lower s) = false → create_logical_device ld dpid w = (Err MacAddressError, w)) ∧
      (∀ a b rest, lower s = String a (String b (String "-" rest)) → _is_valid_mac_address (lower s) = true →
         ld_id ld = "" → create_logical_device ld dpid w = (Err ValueError, w))
  end.
Proof.
  destruct dpid as [[|x y]|]; [split; [done|]; intros; done| |done]. split.
  - intros Hv. unfold create_logical_device. by rewrite Hv.
  - intros a b rest Hs Hv Hid. rewrite create_from_mac by done. rewrite Hs in *.
    apply bind_err. unfold _create_cluster_ids_from_dpid. by rewrite mac_dash.
Qed.
End logical.

(** ** Alarms *)

Lemma rules_exclude_spec value rules :
  rules_exclude value true rules = true ↔ ∀ r, r ∈ rules → lower (value (rule_key r)) = lower (rule_value r).
Proof.
  induction rules as [|r rules IH]; [set_solver|]. cbn [rules_exclude]. rewrite andb_true_l.
  case_bool_decide as Hr.
  - rewrite IH. set_solver.
  - split; [done|]. intros Hall. destruct Hr. apply Hall. left.
Qed.

(** A filter that excludes an alarm has rules, and the alarm meets all of
    them, whatever the case of the letters. *)
Definition excludes (device_id : string) (e : AlarmEvent) (f : AlarmFilter) : Prop :=
  af_rules f ≠ [] ∧ ∀ r, r ∈ af_rules f → lower (alarm_rule_value device_id e (rule_key r)) = lower (rule_value r).

Lemma filters_exclude_spec device_id e filters :
  filters_exclude (alarm_rule_value device_id e) filters = true ↔ ∃ f, f ∈ filters ∧ excludes device_id e f.
Proof.
  induction filters as [|f filters IH]; cbn [filters_exclude]; [set_solver|].
  assert ((∃ f0, f0 ∈ f :: filters ∧ excludes device_id e f0) ↔
    excludes device_id e f ∨ ∃ f0, f0 ∈ filters ∧ excludes device_id e f0) as -> by set_solver.
  rewrite <- IH. unfold excludes. destruct (af_rules f) as [|r rules]; [naive_solver|].
  rewrite <- rules_exclude_spec. destruct (rules_exclude (alarm_rule_value device_id e) true (r :: rules)); naive_solver.
Qed.

(** An alarm is published unless a filter excludes it, that is a filter with
    rules that the alarm meets all, up to the case of letters; a filter without
    rules excludes nothing. *)
Theorem alarm_filtered {R} (re_match : string → string → bool) (run_adapter : string → adapter_call → M aworld R)
    (run_other : nat → string → bus_msg → M aworld unit) device_id e w :
  ∃ b, filter_alarm device_id e w = (Ok b, w) ∧
    (b = true ↔ ∃ f, f ∈ (t_alarm_filters (w_tree w)).*2 ∧ excludes device_id e f) ∧
    submit_alarm re_match run_adapter run_other device_id (Alarm e) w =
      (if b then (Ok tt, w) else log_exception (publish re_match run_adapter run_other "alarms" (Alarm e)) w).
Proof.
  set (b := filters_exclude (alarm_rule_value device_id e) (t_alarm_filters (w_tree w)).*2).
  assert (filter_alarm device_id e w = (Ok b, w)) as Hf.
  { unfold filter_alarm. rewrite (bind_ok _ _ _ _ _ (get_list_ok c_alarm_filters (t_alarm_filters (w_tree w)) w eq_refl)).
    cbn [message c_alarm_filters]. by rewrite list_fmap_id. }
  exists b. split; [done|]. split; [apply filters_exclude_spec|].
  unfold submit_alarm, log_exception, try_except. rewrite (bind_ok _ _ _ _ _ Hf). by destruct b.
Qed.

(** ** Peers removed while iterating *)

(** [delete_all_peer_references] leaves every second peer. *)
Fixpoint every_second {A} (l : list A) : list A :=
  match l with
  | [] | [_] => []
  | _ :: y :: l => y :: every_second l
  end.

Lemma remove_while_iterating_skips `{EqDecision A} fuel (kept l : list A) :
  NoDup (kept ++ l) → length l ≤ fuel →
  remove_while_iterating fuel (length kept) (kept ++ l) = kept ++ every_second l.
Proof.
  revert kept l. induction fuel as [|fuel IH]; intros kept l Hnd Hf.
  { destruct l; [done|simpl in Hf; lia]. }
  destruct l as [|x [|y l]]; cbn [remove_while_iterating].
  - cbn [every_second]. rewrite !app_nil_r. rewrite lookup_ge_None_2 by lia. done.
  - rewrite lookup_app_r by lia. rewrite Nat.sub_diag. cbn [lookup list_lookup].
    assert (remove_first x (kept ++ [x]) = kept) as ->.
    { rewrite remove_first_filter by done. rewrite filter_app, filter_cons, decide_False by naive_solver.
      rewrite app_nil_r. rewrite <- remove_first_filter by (by apply NoDup_app in Hnd as [? _]).
      apply remove_first_absent. apply NoDup_app in Hnd as (_ & Hd & _). intros Hx. apply (Hd x Hx). left. }
    cbn [every_second]. rewrite app_nil_r. destruct fuel; cbn [remove_while_iterating]; [done|].
    by rewrite lookup_ge_None_2 by lia.
  - rewrite lookup_app_r by lia. rewrite Nat.sub_diag. cbn [lookup list_lookup].
    apply NoDup_app in Hnd as (Hk & Hd & Hxy). apply NoDup_cons in Hxy as [Hx Hy].
    assert (remove_first x (kept ++ x :: y :: l) = (kept ++ [y]) ++ l) as ->.
    { rewrite <- app_assoc. clear IH. induction kept as [|k kept IHk]; cbn.
      - by rewrite decide_True.
      - rewrite decide_False by (intros ->; apply (Hd x); left). f_equal. apply IHk; [|set_solver]. by apply NoDup_cons in Hk as [_ ?]. }
    replace (S (length kept)) with (length (kept ++ [y])) by (rewrite length_app; simpl; lia).
    rewrite IH; [cbn [every_second]; by rewrite <- app_assoc| |simpl in Hf; lia].
    rewrite <- app_assoc. apply NoDup_app. split_and!; [done| |done]. intros z Hz Hz'. apply (Hd z Hz). by right.
Qed.

(** Removing all peer references of a device leaves every second one. *)
Theorem peers_left (p : Port) (Hp : NoDup (peers p)) :
  remove_while_iterating (S (length (peers p))) 0 (peers p) = every_second (peers p).
Proof. by apply (remove_while_iterating_skips _ []); [|lia]. Qed.
