(* ===== verification/AdapterAgentSample.v ===== *)
(** * The adapter agent on a sample network

    An OLT with two ONUs: the theorems of the adapter agent applied to it, and
    the agent's defects evaluated. *)
From S2P Require Import Prelude OpenFlow Devices EventBus IdGeneration AdapterAgent AdapterAgentProofs AdapterAgentChildren AdapterAgentLogical.
From Stdlib Require Import Ascii.
From stdpp Require Import base gmap list strings pretty countable.
From Stdlib Require Import ZArith NArith Lia.

#[local] Existing Instance plain_order.

(** An injective rendering of proxy addresses. *)
Definition pa_tuple (pa : ProxyAddress) :=
  (pa_device_id pa, pa_channel_id pa, pa_channel_group_id pa, pa_channel_termination pa, pa_onu_id pa, pa_onu_session_id pa).

Definition sample_json (pa : ProxyAddress) : string := pretty (N.pos (encode (pa_tuple pa))).

Lemma sample_json_inj : Inj (=) (=) sample_json.
Proof.
  intros [] [] He. unfold sample_json in He. apply (inj pretty) in He. injection He as He.
  apply (inj encode) in He. unfold pa_tuple in He. simpl in He. by simplify_eq.
Qed.

Definition sample_adapter (name : string) (c : adapter_call) : M aworld unit := mret tt.
Definition sample_other (n : nat) (t : string) (m : bus_msg) : M aworld unit := mret tt.
Definition no_regex (r t : string) : bool := false.

Definition onu_pa (onu : Z) : ProxyAddress := MkProxyAddress "olt1" 1 0 "" onu 0.

Definition sample_device (i t parent : string) (pa : ProxyAddress) (sn : string) : DeviceMsg :=
  MkDeviceMsg (MkDevice i t (bool_decide (parent = "")) parent 1 "ponsim" 0 AdminState.ENABLED OperStatus.ACTIVE ""
                 ConnectStatus.REACHABLE) "BRCM" sn pa None 0.

Definition olt1 := sample_device "olt1" "ponsim_olt" "" (MkProxyAddress "" 0 0 "" 0 0) "".
Definition onu1 := sample_device "onu1" "ponsim_onu" "olt1" (onu_pa 1) "PSMO1".
Definition onu2 := sample_device "onu2" "ponsim_onu" "olt1" (onu_pa 2) "PSMO2".

Definition empty_tree : cfg_tree := CfgTree [] [] [] [] [] [].
Definition started : agent_state := AgentState true None ∅ ∅ ∅ ∅.
Definition empty_world : aworld := AWorld empty_tree empty_bus ∅ (λ _, started) {["olt1"; "onu1"; "onu2"]} "0001".

(** The devices are added, and the agent listens to the ONUs. *)
Definition setup : M aworld unit :=
  _ ← add_device olt1; _ ← add_device onu1; _ ← add_device onu2;
  _ ← subscribe_to_proxy_child_messages sample_json "ponsim_olt" (onu_pa 1);
  subscribe_to_proxy_child_messages sample_json "ponsim_olt" (onu_pa 2).

Definition sample : aworld := (setup empty_world).2.

Definition pon_port (no : Z) (l : list PeerPort) : Port :=
  MkPort no "PON" PortType.PON_OLT AdminState.ENABLED OperStatus.ACTIVE "" l.

Lemma sample_devices : t_devices (w_tree sample) =
  [("olt1", DeviceEntry olt1 [] []); ("onu1", DeviceEntry onu1 [] []); ("onu2", DeviceEntry onu2 [] [])].
Proof. vm_compute. reflexivity. Qed.

Lemma sample_no_ports a : port_at sample a = None.
Proof. unfold port_at. rewrite sample_devices. simpl. by repeat case_decide. Qed.

Lemma sample_linked : linked sample.
Proof.
  split; [intros a p|intros a p|intros a p b|]; [by rewrite sample_no_ports..|].
  intros i e. rewrite sample_devices. simpl. repeat case_decide; intros; simplify_eq; constructor.
Qed.

Lemma sample_keyed : devices_keyed sample.
Proof.
  split; [rewrite sample_devices; apply (bool_decide_unpack _); vm_compute; exact I|].
  intros i d. unfold device_at. rewrite sample_devices. simpl.
  repeat case_decide; subst; [by intros [= <-]..|done].
Qed.

(** Ports are added and deleted; the ONU's port refers to the OLT's. *)
Definition sample_ops : list port_op :=
  [OpAddPort "olt1" (pon_port 1 []); OpAddPort "onu1" (pon_port 1 [Peer "olt1" 1]); OpDisableAll "onu1"].

Definition after_op (o : port_op) (w : aworld) : aworld := (run_port_op o w).2.

Definition sample_linked_ports : aworld := foldl (λ w o, after_op o w) sample sample_ops.

Fixpoint allowed_along (w : aworld) (l : list port_op) : Prop :=
  match l with [] => True | o :: l => op_allowed w o ∧ allowed_along (after_op o w) l end.

Lemma run_ops l w : allowed_along w l → port_run w l (foldl (λ w o, after_op o w) w l).
Proof.
  revert w. induction l as [|o l IH]; intros w; [constructor|]. intros [Ho Hl].
  apply (PortRun_cons _ _ (run_port_op o w).1 (after_op o w)); [done|apply surjective_pairing|]. by apply IH.
Qed.

Lemma is_Some_eq {A} (o : option A) : (if o then true else false) = true → is_Some o.
Proof. destruct o; [by eexists|done]. Qed.

Lemma sample_run : port_run sample sample_ops sample_linked_ports.
Proof.
  apply run_ops. split; [|split; [|split; [|exact I]]]; cbn [op_allowed].
  - split_and!; [apply is_Some_eq; vm_compute; reflexivity|constructor|set_solver|].
    intros q. by rewrite sample_no_ports.
  - split_and!; [apply is_Some_eq; vm_compute; reflexivity|apply NoDup_singleton| |].
    + intros b Hb. apply list_elem_of_singleton in Hb as ->. apply is_Some_eq. vm_compute. reflexivity.
    + intros q Hq. vm_compute in Hq. discriminate Hq.
  - apply is_Some_eq. vm_compute. reflexivity.
Qed.

(** The witness: the sample network's run keeps the references symmetric. *)
Lemma peer_references_symmetric_witness : linked sample_linked_ports ∧
  (∀ o, op_allowed sample_linked_ports o → ∃ w'', run_port_op o sample_linked_ports = (Ok tt, w'')).
Proof. exact (peer_references_symmetric sample sample_ops sample_linked_ports sample_linked sample_run). Defined.

Example references_made :
  peers <$> port_at sample_linked_ports (Peer "olt1" 1) = Some [Peer "onu1" 1] ∧
  peers <$> port_at sample_linked_ports (Peer "onu1" 1) = Some [Peer "olt1" 1].
Proof. split; vm_compute; reflexivity. Qed.

(** ** Messages *)

Lemma name_is_no_topic : ¬ proxy_topic "ponsim_olt".
Proof. intros (x & [Hx|Hx]); discriminate Hx. Qed.

Definition with_devices : aworld := ((_ ← add_device olt1; _ ← add_device onu1; add_device onu2) empty_world).2.

Lemma wired_devices : wired sample_json with_devices.
Proof.
  apply (wired_ext _ empty_world); [vm_compute; reflexivity..|].
  split; simpl; intros *; rewrite ?lookup_empty; done.
Qed.

Lemma sample_wired : wired sample_json sample.
Proof.
  destruct (subscribe_child_wired sample_json "ponsim_olt" (onu_pa 1) _ wired_devices name_is_no_topic)
    as (w1 & H1 & Hw1 & _).
  destruct (subscribe_child_wired sample_json "ponsim_olt" (onu_pa 2) _ Hw1 name_is_no_topic) as (w2 & H2 & Hw2 & _).
  assert (sample = w2) as ->; [|done]. unfold sample.
  assert (setup empty_world = (Ok tt, w2)) as ->; [|done].
  unfold setup. do 3 (erewrite bind_ok by reflexivity). erewrite bind_ok by exact H1. exact H2.
Qed.

(** The witness: a message to the first ONU's proxy reaches the OLT's adapter
    and no other. *)
Lemma proxied_delivery_witness :
  listeners sample (_gen_tx_proxy_address_topic sample_json (onu_pa 1)) = ["ponsim_olt"] ∧
  send_proxied_message sample_json no_regex sample_adapter sample_other (onu_pa 1) (Payload "omci") sample =
    forM_ (λ owner, log_exception (_send_proxied_message sample_adapter owner (onu_pa 1) (Payload "omci")))
      (listeners sample (_gen_tx_proxy_address_topic sample_json (onu_pa 1)))
      (noted (_gen_tx_proxy_address_topic sample_json (onu_pa 1)) (Payload "omci") sample).
Proof.
  split; [vm_compute; reflexivity|].
  apply (proxied_delivery sample_json no_regex sample_adapter sample_other (onu_pa 1) (Payload "omci") sample sample_json_inj sample_wired).
  vm_compute. reflexivity.
Defined.

(** The witness: the OLT's logical device, from its MAC address. *)
Lemma create_logical_device_ids_witness : ∃ n i, int16 (drop_char ":" "00:00:0a:01:02:fe") = Ok n ∧
  int_base 16 i = Ok ((1 mod 2 ^ 16) * 2 ^ 48 + n)%N ∧
  if decide (n ∈ datapath_ids_used sample ∨ i ∈ logical_ids_used sample)
  then create_logical_device "ponsim_olt" (MkLogicalDeviceMsg "" 0 "" "olt1") (Some "00:00:0A:01:02:FE") sample = (Err IDError, sample)
  else ∃ ld' w', create_logical_device "ponsim_olt" (MkLogicalDeviceMsg "" 0 "" "olt1") (Some "00:00:0A:01:02:FE") sample = (Ok ld', w') ∧
    ld_id ld' = i ∧ ld_datapath_id ld' = n ∧
    (∀ j, logical_at w' j = if decide (j = i) then Some ld' else logical_at sample j) ∧
    listeners w' ("packet-out:" +:+ i) = listeners sample ("packet-out:" +:+ i) ++ ["ponsim_olt"].
Proof.
  apply (create_logical_device_ids sample_json "ponsim_olt" (MkLogicalDeviceMsg "" 0 "" "olt1") "00:00:0A:01:02:FE"
    "0" "0" "00:0a:01:02:fe" 1 sample); [reflexivity..| | |exact sample_wired|exact name_is_no_topic]; vm_compute; reflexivity.
Defined.

Example logical_device_ids : fst (create_logical_device "ponsim_olt" (MkLogicalDeviceMsg "" 0 "" "olt1") (Some "00:00:0A:01:02:FE") sample)
  = Ok (MkLogicalDeviceMsg "000100000a0102fe" 0x0a0102fe "VOLTHA Project" "olt1").
Proof. vm_compute. reflexivity. Qed.

(** ** Defects, evaluated *)

(** Subscribing again for a child (as reconciling it does) forgets the first
    subscription: messages are handed over twice, and deleting the child leaves
    one subscription on the bus. *)
Example resubscribed_twice :
  let w := (subscribe_to_proxy_child_messages sample_json "ponsim_olt" (onu_pa 1) sample).2 in
  let w' := (delete_child_device sample_json "ponsim_olt" "olt1" "onu1" w).2 in
  let t := _gen_tx_proxy_address_topic sample_json (onu_pa 1) in
  listeners w t = ["ponsim_olt"; "ponsim_olt"] ∧ device_at w' "onu1" = None ∧ listeners w' t = ["ponsim_olt"].
Proof. vm_compute. split_and!; reflexivity. Qed.

(** A port with a peer that does not exist is not added, but a peer before it
    refers to it already. *)
Example half_linked :
  let w := after_op (OpAddPort "olt1" (pon_port 1 [])) sample in
  let r := add_port "onu1" (pon_port 1 [Peer "olt1" 1; Peer "olt1" 9]) w in
  r.1 = Err KeyError ∧ port_at r.2 (Peer "onu1" 1) = None ∧
  peers <$> port_at r.2 (Peer "olt1" 1) = Some [Peer "onu1" 1].
Proof. vm_compute. split_and!; reflexivity. Qed.

(** A port that is added again without its peers, as openolt adds its PON ports at each
    indication, no longer lists the port that lists it. *)
Example readded_port :
  let w := (add_port "olt1" (pon_port 1 []) sample_linked_ports).2 in
  peers <$> port_at w (Peer "olt1" 1) = Some [] ∧ peers <$> port_at w (Peer "onu1" 1) = Some [Peer "olt1" 1].
Proof. vm_compute. split; reflexivity. Qed.

(** The states [UNKNOWN] of the connection and of administration cannot be
    set. *)
Example unknown_is_not_set :
  let w := (update_child_devices_state "olt1" (Some OperStatus.UNKNOWN) (Some ConnectStatus.UNKNOWN) None sample).2 in
  (λ d : DeviceMsg, (d_oper_status d, d_connect_status d)) <$> device_at w "onu1" =
    Some (OperStatus.UNKNOWN, ConnectStatus.REACHABLE).
Proof. vm_compute. reflexivity. Qed.

(** The logical ports of no logical device are removed. *)
Example no_logical_ports_removed :
  let r := create_logical_device "ponsim_olt" (MkLogicalDeviceMsg "" 0 "" "olt1") (Some "00:00:0a:01:02:fe") sample in
  fst (remove_all_logical_ports "000100000a0102fe" r.2) = Err KeyError.
Proof. vm_compute. reflexivity. Qed.

(** Flow statistics cannot be updated. *)
Example flow_stats_raise :
  let r := create_logical_device "ponsim_olt" (MkLogicalDeviceMsg "" 0 "" "olt1") (Some "00:00:0a:01:02:fe") sample in
  fst (update_flow_stats "000100000a0102fe" 1 10 1000 r.2) = Err TypeError.
Proof. vm_compute. reflexivity. Qed.

(** An address with dashes is valid and then rejected. *)
Example dashes_rejected :
  _is_valid_mac_address "00-00-0a-01-02-fe" = true ∧
  fst (create_logical_device "ponsim_olt" (MkLogicalDeviceMsg "" 0 "" "olt1") (Some "00-00-0A-01-02-FE") sample) = Err ValueError.
Proof. vm_compute. split; reflexivity. Qed.

(** A message for a device goes to the topic of its type, which its adapter does
    not listen to when it has another name. *)
Example inter_adapter_message_lost :
  let w := (register_for_inter_adapter_messages "ponsim" sample).2 in
  let w' := (publish_inter_adapter_message no_regex sample_adapter sample_other "onu1" (Payload "hello") w).2 in
  (λ d : DeviceMsg, d_adapter d) <$> device_at w "onu1" = Some "ponsim" ∧
  listeners w "ponsim" = ["ponsim"] ∧ delivered (w_bus w') = [].
Proof. vm_compute. split_and!; reflexivity. Qed.
