(* ===== verification/LocalHandler.v ===== *)
(** * The local handler

    src/voltha/core/local_handler.py: the methods of an instance's own gRPC
    service, over the tree of AdapterAgent.v.  A request names a node by its id;
    the handler checks the id, reads or writes the node or calls the agent of
    the device, and turns the errors it expects into status codes on the
    context.

    What a request does goes beyond the handler: a write to a device runs the
    callbacks that core.py and the device's agent have on the tree, and these and
    the calls to agents reach the adapter, which may change the tree in turn
    (activating a device sets its status, deleting an OLT deletes its ONUs,
    cancelling a download enables the device).  The writes to devices and the
    calls to agents are events of a log, and what the rest of the core does at an
    event ([react]: to the tree, the other state of AdapterAgent.v and the set of
    logical agents, before the handler goes on) and returns from a call ([outcome])
    are parameters that may depend on all events so far; callbacks do not raise,
    since those on devices return failed Deferreds.  Parameters too are the
    xPON handler, to which a group of methods forwards, and the nodes that are
    only read ([node_data]: flows, groups, metrics, MIBs).  Left out are the
    callbacks of the alarm filter agent, the texts of error details and the depth
    of a read. *)
From S2P Require Import Prelude OpenFlow Devices EventBus IdGeneration AdapterAgent Dispatcher.
From Stdlib Require Import Ascii.
From stdpp Require Import base gmap list strings sorting.
From Stdlib Require Import ZArith.

(** ** Messages *)
Inductive OperationCode := OPERATION_SUCCESS | OPERATION_FAILURE | OPERATION_UNSUPPORTED.
Inductive DownloadState := DOWNLOAD_UNKNOWN | DOWNLOAD_FAILED.

(** What a method returns *)
Inductive lreply :=
  | LEmpty
  | LDefault (type : string)                 (* T() *)
  | LAdapters (items : list AdapterMsg)
  | LLogicalDevice (m : LogicalDeviceMsg)
  | LLogicalDevices (items : list LogicalDeviceMsg)
  | LLogicalPort (m : LogicalPort)
  | LLogicalPorts (items : list LogicalPort)
  | LDevice (m : DeviceMsg)
  | LDevices (items : list DeviceMsg)
  | LPorts (items : list Port)
  | LDeviceType (m : DeviceTypeMsg)
  | LDeviceTypes (items : list DeviceTypeMsg)
  | LDeviceGroup (m : string)
  | LDeviceGroups (items : list string)
  | LImageDownload (m : ImageDownloadMsg)
  | LImageDownloads (items : list ImageDownloadMsg)
  | LDownloadState (s : DownloadState)       (* ImageDownload(state=...) *)
  | LOperationResp (code : OperationCode)
  | LAlarmFilter (m : AlarmFilter)
  | LAlarmFilters (items : list AlarmFilter)
  | LSubscriber (ofagent_id voltha_id : string)
  | LNone
  | LData (handle : nat).

(** A call to the agent of a device or of a logical device *)
Inductive hcall :=
  | HRebootDevice (d : DeviceMsg)
  | HRegisterImageDownload (img : ImageDownloadMsg)
  | HGetImageDownloadStatus (img : lreply)
  | HCancelImageDownload (img : ImageDownloadMsg)
  | HActivateImageUpdate (img : ImageDownloadMsg)
  | HRevertImageUpdate (img : ImageDownloadMsg)
  | HUpdateDevicePmConfig (config : nat)
  | HSelfTest (d : DeviceMsg)
  | HPortEnable (port_id : string)
  | HPortDisable (port_id : string)
  | HUpdateFlowTable (flow_mod : nat)
  | HUpdateGroupTable (group_mod : nat)
  | HPacketOut (packet_out : nat).

(** What the rest of the core is told: a call to the agent of [id], or a write to the
    device [id] ([None]: it was removed) *)
Inductive hevent :=
  | HCall (id : string) (c : hcall)
  | HWrite (id : string) (d : option DeviceMsg).

(** ** State *)
Record lhandler := LHandler {
  h_world : aworld;
  h_logical_agents : gset string;               (* core.logical_device_agents *)
  h_events : list hevent;
  h_packet_in_queue : list (string * nat);      (* core.packet_in_queue *)
  h_change_event_queue : list (string * nat);
  h_stopped : bool;
  h_subscriber : option (string * string);      (* ofagent_id, voltha_id *)
  h_heartbeat_count : Z;
  h_heartbeat_lc : option bool;                 (* the LoopingCall, and whether it runs *)
  h_ofagent_is_alive : bool;
  h_registered : nat;                           (* registrations with the gRPC server *)
}.
#[export] Instance eta_lhandler : Eta lhandler := λ h,
  LHandler (h_world h) (h_logical_agents h) (h_events h) (h_packet_in_queue h) (h_change_event_queue h) (h_stopped h)
    (h_subscriber h) (h_heartbeat_count h) (h_heartbeat_lc h) (h_ofagent_is_alive h) (h_registered h).

(** [LocalHandler.__init__] *)
Definition new_handler (w : aworld) (agents : gset string) : lhandler :=
  LHandler w agents [] [] [] false None 0 None true 0.

Definition ofagent_heartbeat_max_count : Z := 3.

(** What a method returns and the code it sets on the context *)
Definition answer : Type := lreply * option StatusCode.

Definition reply_ok (r : lreply) : M lhandler answer := mret (r, None).
Definition reply_code (r : lreply) (c : StatusCode) : M lhandler answer := mret (r, Some c).

(** ['/' in s] *)
Fixpoint has_slash (s : string) : bool :=
  match s with EmptyString => false | String a s => bool_decide (a = "/"%char) || has_slash s end.

(** A malformed id *)
Definition check_id (id : string) (r : lreply) (m : M lhandler answer) : M lhandler answer :=
  if has_slash id then reply_code r INVALID_ARGUMENT else m.

(** [except KeyError] *)
Definition except_KeyError (m h : M lhandler answer) : M lhandler answer :=
  try_except m (λ e, if decide (e = KeyError) then h else raise e).

(** [except AssertionError] *)
Definition except_AssertionError (m h : M lhandler answer) : M lhandler answer :=
  try_except m (λ e, if decide (e = AssertionError) then h else raise e).

Definition except_Exception (m h : M lhandler answer) : M lhandler answer :=
  try_except m (λ e, if is_Exception e then h else raise e).

Definition not_found (r : lreply) (m : M lhandler answer) : M lhandler answer :=
  except_KeyError m (reply_code r NOT_FOUND).

Definition root {A} (m : M aworld A) : M lhandler A := zoom h_world (λ w h, h <| h_world := w |>) m.

(** [self.root.get('/<container>/' + id)]: without an id the path names the
    container, whose nodes are returned ([inr]). *)
Definition get_by_id {V} (c : container string V) (id : string) : M lhandler (V + list V) :=
  if decide (id = "") then (l ← root (get_list c); mret (inr l))
  else (m ← root (get_node c id); mret (inl m)).

(** An attribute of what was read; a list has none of them. *)
Definition the_node {V} (r : V + list V) : M lhandler V :=
  match r with inl m => mret m | inr _ => raise AttributeError end.

(** [self.root.get('/devices/{}'.format(id))] where only the presence counts *)
Definition has_node {V} (c : container string V) (id : string) : M lhandler unit :=
  _ ← root (get_node c id); mret tt.

(** [s.partition('/')]: what is before the first slash, and what is after *)
Fixpoint partition_slash (s : string) : string * string :=
  match s with
  | EmptyString => (EmptyString, EmptyString)
  | String a s' => if decide (a = "/"%char) then (EmptyString, s')
                   else let '(k, rest) := partition_slash s' in (String a k, rest)
  end.

(** [self.root.get('<container>/{}'.format(name))] for a name that was not
    checked, of nodes without children *)
Definition get_named {V} (c : container string V) (name : string) : M lhandler V :=
  let '(k, rest) := partition_slash name in
  m ← root (get_node c k);
  if decide (rest = "") then mret m else raise KeyError.

Definition key_le {V} (key : V → string) (a b : V) : Prop := String.leb (key a) (key b) = true.

#[export] Instance key_le_dec {V} (key : V → string) a b : Decision (key_le key a b).
Proof. unfold key_le. apply _. Defined.

Section local_handler.
Context (outcome : list hevent → result nat).
Context (react : list hevent → aworld * gset string → aworld * gset string).
Context (xpon_handler : string → nat → M lhandler answer).
Context (node_data : string → nat) (omci_mibs : gset string).
Context (instance_id : string).

(** An event, and what the rest of the core does at it *)
Definition tell (e : hevent) : M lhandler unit :=
  modify (λ h,
    let l := h_events h ++ [e] in
    let '(w, agents) := react l (h_world h, h_logical_agents h) in
    h <| h_events := l |> <| h_world := w |> <| h_logical_agents := agents |>).

Definition call_agent (id : string) (c : hcall) : M lhandler nat :=
  _ ← tell (HCall id c);
  l ← gets h_events;
  lift (outcome l).

(** [self.root.add('/devices', device)], [self.root.update('/devices/<id>', device,
    strict=True)] and [self.root.remove('/devices/<id>')], with the callbacks *)
Definition add_device_node (d : DeviceMsg) : M lhandler unit :=
  _ ← root (add_node c_devices d); tell (HWrite (d_id d) (Some d)).

Definition write_device_node (id : string) (d : DeviceMsg) : M lhandler unit :=
  _ ← root (update_node c_devices id d); tell (HWrite id (Some d)).

Definition remove_device_node (id : string) : M lhandler unit :=
  _ ← root (drop_node c_devices id); tell (HWrite id None).

(** [self.core.get_device_agent(id)] and a call *)
Definition device_agent (id : string) (c : hcall) : M lhandler nat :=
  w ← gets h_world;
  if decide (id ∈ w_device_agents w) then call_agent id c else raise KeyError.

Definition logical_device_agent (id : string) (c : hcall) : M lhandler nat :=
  l ← gets h_logical_agents;
  if decide (id ∈ l) then call_agent id c else raise KeyError.

(** *** Reading *)
Definition GetVolthaInstance : M lhandler answer := reply_ok (LData (node_data "/")).
Definition GetHealth : M lhandler answer := reply_ok (LData (node_data "/health")).

(** [sorted(items, key=lambda i: i.id)] *)
Definition by_key {V} (key : V → string) (l : list V) : list V := merge_sort (key_le key) l.

Definition ListAdapters : M lhandler answer :=
  items ← root (get_list c_adapters);
  reply_ok (LAdapters (by_key ad_id items)).

Definition ListLogicalDevices : M lhandler answer :=
  items ← root (get_list c_logical_devices);
  reply_ok (LLogicalDevices items).

Definition GetLogicalDevice (id : string) : M lhandler answer :=
  check_id id (LDefault "LogicalDevice")
    (not_found (LDefault "LogicalDevice")
      (r ← get_by_id c_logical_devices id;
       reply_ok (match r with inl m => LLogicalDevice m | inr l => LLogicalDevices l end))).

Definition ListLogicalDevicePorts (id : string) : M lhandler answer :=
  check_id id (LDefault "LogicalPorts")
    (not_found (LDefault "LogicalPorts")
      (items ← root (get_list (c_logical_ports id)); reply_ok (LLogicalPorts items))).

Definition GetLogicalDevicePort (id port_id : string) : M lhandler answer :=
  check_id id (LDefault "LogicalPort")
    (not_found (LDefault "LogicalPort")
      (if decide (port_id = "") then (l ← root (get_list (c_logical_ports id)); reply_ok (LLogicalPorts l))
       else (m ← get_named (c_logical_ports id) port_id; reply_ok (LLogicalPort m)))).

(** A single node below one that has an id *)
Definition data_below {V} (c : container string V) (type path id name : string) : M lhandler answer :=
  check_id id (LDefault type)
    (not_found (LDefault type)
      (_ ← has_node c id; reply_ok (LData (node_data (path +:+ id +:+ name))))).

Definition ListLogicalDeviceFlows (id : string) : M lhandler answer :=
  data_below c_logical_devices "Flows" "/logical_devices/" id "/flows".
Definition ListLogicalDeviceFlowGroups (id : string) : M lhandler answer :=
  data_below c_logical_devices "FlowGroups" "/logical_devices/" id "/flow_groups".
Definition ListDeviceFlows (id : string) : M lhandler answer :=
  data_below c_devices "Flows" "/devices/" id "/flows".
Definition ListDeviceFlowGroups (id : string) : M lhandler answer :=
  data_below c_devices "FlowGroups" "/devices/" id "/flow_groups".
Definition ListDevicePmConfigs (id : string) : M lhandler answer :=
  data_below c_devices "PmConfigs" "/devices/" id "/pm_configs".

(** *** Logical devices *)
Definition to_logical_agent (id : string) (c : hcall) : M lhandler answer :=
  check_id id LEmpty (not_found LEmpty (_ ← logical_device_agent id c; reply_ok LEmpty)).

Definition EnableLogicalDevicePort (id port_id : string) : M lhandler answer := to_logical_agent id (HPortEnable port_id).
Definition DisableLogicalDevicePort (id port_id : string) : M lhandler answer := to_logical_agent id (HPortDisable port_id).
Definition UpdateLogicalDeviceFlowTable (id : string) (flow_mod : nat) : M lhandler answer :=
  to_logical_agent id (HUpdateFlowTable flow_mod).
Definition UpdateLogicalDeviceFlowGroupTable (id : string) (group_mod : nat) : M lhandler answer :=
  to_logical_agent id (HUpdateGroupTable group_mod).

(** *** Devices *)
Definition ListDevices : M lhandler answer :=
  items ← root (get_list c_devices);
  reply_ok (LDevices items).

Definition GetDevice (id : string) : M lhandler answer :=
  check_id id (LDefault "Device")
    (not_found (LDefault "Device")
      (r ← get_by_id c_devices id; reply_ok (match r with inl m => LDevice m | inr l => LDevices l end))).

(** [device.<address> != _device.<address>] for the address that is set *)
Definition address_free (a : device_address) (known : list DeviceMsg) : bool :=
  forallb (λ d, bool_decide (dm_address d ≠ Some a)) known.

(** [device_type] is the last one with the id, as in a dictionary; [uuid] is
    what [uuid4] draws. *)
Definition CreateDevice (request : DeviceMsg) (uuid : string) : M lhandler answer :=
  types ← root (get_list c_device_types);
  known ← root (get_list c_devices);
  let dt := last (filter (λ t, dt_id t = d_type request) types) in
  match dt, dm_address request with
  | Some dt, Some a =>
      if bool_decide (d_id request = "") &&
         bool_decide (d_admin_state request = AdminState.UNKNOWN ∨ d_admin_state request = AdminState.PREPROVISIONED) &&
         address_free a known
      then
        core_id ← gets (λ h, w_core_store_id (h_world h));
        i ← lift (create_cluster_device_id core_id uuid);
        let d := dm_device request in
        let os := if decide (d_admin_state d = AdminState.PREPROVISIONED) then d_oper_status d else OperStatus.UNKNOWN in
        let d := MkDevice i (d_type d) (d_root d) (d_parent_id d) (d_parent_port_no d) (dt_adapter dt) (d_vlan d)
                   AdminState.PREPROVISIONED os (d_reason d) (d_connect_status d) in
        let m := MkDeviceMsg d (dt_vendor_id dt) (dm_serial_number request) (dm_proxy_address request)
                   (dm_address request) (dm_images request) in
        _ ← add_device_node m;
        reply_ok (LDevice m)
      else reply_code (LDefault "Device") INVALID_ARGUMENT
  | _, _ => reply_code (LDefault "Device") INVALID_ARGUMENT
  end.

Definition with_admin_state (s : AdminState.t) (d : DeviceMsg) : DeviceMsg := d <| dm_device ::= set_admin_state s |>.

(** [path], [device = self.root.get(path)] and the attributes of [device] *)
Definition get_device_node (id : string) : M lhandler DeviceMsg := get_by_id c_devices id ≫= the_node.

Definition EnableDevice (id : string) : M lhandler answer :=
  check_id id LEmpty
    (not_found LEmpty
      (except_AssertionError
        (get_device_node id ≫= λ d : DeviceMsg,
         _ ← passert (bool_decide (d_admin_state d = AdminState.PREPROVISIONED ∨ d_admin_state d = AdminState.DISABLED));
         _ ← write_device_node id (with_admin_state AdminState.ENABLED d);
         reply_ok LEmpty)
        (reply_code LEmpty INVALID_ARGUMENT))).

Definition DisableDevice (id : string) : M lhandler answer :=
  check_id id LEmpty
    (except_Exception
      (not_found LEmpty
        (except_AssertionError
          (get_device_node id ≫= λ d : DeviceMsg,
           _ ← passert (bool_decide (d_admin_state d = AdminState.ENABLED));
           _ ← write_device_node id (with_admin_state AdminState.DISABLED d);
           reply_ok LEmpty)
          (reply_code LEmpty INVALID_ARGUMENT)))
      (reply_ok LEmpty)).

Definition RebootDevice (id : string) : M lhandler answer :=
  check_id id LEmpty
    (not_found LEmpty
      (get_device_node id ≫= λ d : DeviceMsg,
       _ ← passert (bool_decide (d_admin_state d ≠ AdminState.DOWNLOADING_IMAGE));
       _ ← device_agent (d_id d) (HRebootDevice d);
       reply_ok LEmpty)).

Definition DeleteDevice (id : string) : M lhandler answer :=
  check_id id LEmpty
    (not_found LEmpty
      (except_AssertionError
        (get_device_node id ≫= λ d : DeviceMsg,
         _ ← passert (bool_decide (d_admin_state d = AdminState.DISABLED ∨ d_admin_state d = AdminState.PREPROVISIONED));
         _ ← passert (negb (endswith "_onu" (d_type d)));
         _ ← remove_device_node id;
         reply_ok LEmpty)
        (reply_code LEmpty INVALID_ARGUMENT))).

Definition ListDevicePorts (id : string) : M lhandler answer :=
  check_id id (LDefault "Ports")
    (not_found (LDefault "Ports") (items ← root (get_list (c_ports id)); reply_ok (LPorts items))).

Definition UpdateDevicePmConfigs (id : string) (config : nat) : M lhandler answer :=
  check_id id LEmpty
    (not_found LEmpty
      (_ ← get_by_id c_devices id;
       _ ← device_agent id (HUpdateDevicePmConfig config);
       reply_ok LEmpty)).

Definition GetImages (id : string) : M lhandler answer :=
  check_id id (LDefault "Images")
    (not_found (LDefault "Images") (d ← get_device_node id; reply_ok (LData (dm_images d)))).

Definition SelfTest (id : string) : M lhandler answer :=
  check_id id (LDefault "SelfTestResponse")
    (not_found (LDefault "SelfTestResponse")
      (get_device_node id ≫= λ d : DeviceMsg, n ← device_agent (d_id d) (HSelfTest d); reply_ok (LData n))).

(** *** Images *)
Definition DownloadImage (request : ImageDownloadMsg) : M lhandler answer :=
  let id := img_id request in
  check_id id (LOperationResp OPERATION_FAILURE)
    (except_Exception
      (not_found (LOperationResp OPERATION_FAILURE)
        (except_AssertionError
          (r ← get_by_id c_devices id;
           _ ← root (add_node (c_image_downloads id) request);
           the_node r ≫= λ d : DeviceMsg,
           _ ← passert (bool_decide (d_admin_state d = AdminState.ENABLED));
           _ ← write_device_node id (with_admin_state AdminState.DOWNLOADING_IMAGE d);
           _ ← device_agent (d_id d) (HRegisterImageDownload request);
           reply_ok (LOperationResp OPERATION_SUCCESS))
          (reply_code (LOperationResp OPERATION_UNSUPPORTED) INVALID_ARGUMENT)))
      (reply_code (LOperationResp OPERATION_FAILURE) NOT_FOUND)).

Definition get_image (id name : string) : M lhandler lreply :=
  if decide (name = "") then (l ← root (get_list (c_image_downloads id)); mret (LImageDownloads l))
  else (m ← get_named (c_image_downloads id) name; mret (LImageDownload m)).

(** The second read is caught on its own; [response] is then unbound. *)
Definition GetImageDownloadStatus (request : ImageDownloadMsg) : M lhandler answer :=
  let id := img_id request in
  check_id id (LDownloadState DOWNLOAD_UNKNOWN)
    (except_Exception
      (not_found (LDownloadState DOWNLOAD_UNKNOWN)
        (get_device_node id ≫= λ d : DeviceMsg,
         w ← gets h_world;
         _ ← (if decide (d_id d ∈ w_device_agents w) then mret tt else raise KeyError);
         img ← get_image id (img_name request);
         _ ← call_agent (d_id d) (HGetImageDownloadStatus img);
         r ← try_except (get_image id (img_name request))
               (λ e, if is_Exception e then raise UnboundLocalError else raise e);
         reply_ok r))
      (reply_ok (LDownloadState DOWNLOAD_FAILED))).

Definition GetImageDownload (id name : string) : M lhandler answer :=
  check_id id (LDownloadState DOWNLOAD_UNKNOWN)
    (not_found (LDownloadState DOWNLOAD_UNKNOWN) (r ← get_image id name; reply_ok r)).

Definition ListImageDownloads (id : string) : M lhandler answer :=
  check_id id (LDownloadState DOWNLOAD_UNKNOWN)
    (not_found (LDownloadState DOWNLOAD_UNKNOWN)
      (l ← root (get_list (c_image_downloads id)); reply_ok (LImageDownloads l))).

(** A call to the agent for an image, in one admin state of the device *)
Definition image_call (s : AdminState.t) (c : ImageDownloadMsg → hcall) (request : ImageDownloadMsg) : M lhandler answer :=
  let id := img_id request in
  check_id id (LOperationResp OPERATION_FAILURE)
    (not_found (LOperationResp OPERATION_FAILURE)
      (get_device_node id ≫= λ d : DeviceMsg,
       _ ← passert (bool_decide (d_admin_state d = s));
       _ ← device_agent (d_id d) (c request);
       reply_ok (LOperationResp OPERATION_SUCCESS))).

Definition CancelImageDownload (request : ImageDownloadMsg) : M lhandler answer :=
  image_call AdminState.DOWNLOADING_IMAGE HCancelImageDownload request.
Definition ActivateImageUpdate (request : ImageDownloadMsg) : M lhandler answer :=
  image_call AdminState.ENABLED HActivateImageUpdate request.
Definition RevertImageUpdate (request : ImageDownloadMsg) : M lhandler answer :=
  image_call AdminState.ENABLED HRevertImageUpdate request.

(** *** Types, groups, MIBs *)
Definition ListDeviceTypes : M lhandler answer :=
  items ← root (get_list c_device_types);
  reply_ok (LDeviceTypes (by_key dt_id items)).

Definition GetDeviceType (id : string) : M lhandler answer :=
  check_id id (LDefault "DeviceType")
    (not_found (LDefault "DeviceType")
      (r ← get_by_id c_device_types id; reply_ok (match r with inl m => LDeviceType m | inr l => LDeviceTypes l end))).

Definition ListDeviceGroups : M lhandler answer :=
  items ← root (get_list c_device_groups);
  reply_ok (LDeviceGroups items).

Definition GetDeviceGroup (id : string) : M lhandler answer :=
  check_id id (LDefault "DeviceGroup")
    (not_found (LDefault "DeviceGroup")
      (r ← get_by_id c_device_groups id; reply_ok (match r with inl m => LDeviceGroup m | inr l => LDeviceGroups l end))).

(** *** Alarm filters *)
Definition ListAlarmFilters : M lhandler answer :=
  not_found (LDefault "AlarmFilters") (l ← root (get_list c_alarm_filters); reply_ok (LAlarmFilters l)).

Definition GetAlarmFilter (id : string) : M lhandler answer :=
  check_id id (LDefault "AlarmFilter")
    (not_found (LDefault "AlarmFilter")
      (r ← get_by_id c_alarm_filters id; reply_ok (match r with inl m => LAlarmFilter m | inr l => LAlarmFilters l end))).

(** Without an id the tree refuses to remove or update: [ValueError]. *)
Definition DeleteAlarmFilter (id : string) : M lhandler answer :=
  check_id id LEmpty
    (not_found LEmpty
      (_ ← (if decide (id = "") then raise ValueError else root (drop_node c_alarm_filters id)); reply_ok LEmpty)).

Definition CreateAlarmFilter (request : AlarmFilter) : M lhandler answer :=
  _ ← root (add_node c_alarm_filters request);
  reply_ok (LAlarmFilter request).

Definition UpdateAlarmFilter (request : AlarmFilter) : M lhandler answer :=
  let id := af_id request in
  check_id id (LDefault "AlarmFilter")
    (not_found (LDefault "AlarmFilter")
      (_ ← get_by_id c_alarm_filters id;
       _ ← (if decide (id = "") then raise ValueError else root (update_node c_alarm_filters id request));
       reply_ok (LAlarmFilter request))).

(** *** The session with the OpenFlow agent *)

(** [LoopingCall.stop]: asserts that it runs *)
Definition lc_stop : M lhandler unit :=
  lc ← gets h_heartbeat_lc;
  match lc with
  | None => mret tt
  | Some true => modify (λ h, h <| h_heartbeat_lc := Some false |>)
  | Some false => raise AssertionError
  end.

Definition register_grpc_service : M lhandler unit := modify (λ h, h <| h_registered ::= S |>).

Definition _ofagent_session_termination : M lhandler unit :=
  _ ← lc_stop;
  _ ← modify (λ h, h <| h_ofagent_is_alive := false |> <| h_subscriber := None |> <| h_heartbeat_count := 0%Z |>);
  register_grpc_service.

Definition _ofagent_session_heartbeat : M lhandler unit :=
  n ← gets h_heartbeat_count;
  if decide (ofagent_heartbeat_max_count < n)%Z then _ofagent_session_termination
  else modify (λ h, h <| h_heartbeat_count ::= Z.succ |>).

(** The reactor runs the looping call. *)
Definition heartbeat_tick : M lhandler unit :=
  lc ← gets h_heartbeat_lc;
  match lc with Some true => _ofagent_session_heartbeat | _ => mret tt end.

(** [LoopingCall.start] makes the first call at once. *)
Definition Subscribe (ofagent_id : string) : M lhandler answer :=
  s ← gets h_subscriber;
  _ ← match s with
      | None =>
          _ ← modify (λ h, h <| h_subscriber := Some (ofagent_id, instance_id) |> <| h_heartbeat_count := 0%Z |>
                             <| h_heartbeat_lc := Some true |>);
          _ofagent_session_heartbeat
      | Some (o, _) =>
          if decide (o = ofagent_id) then modify (λ h, h <| h_heartbeat_count := 0%Z |>) else mret tt
      end;
  s ← gets h_subscriber;
  reply_ok (match s with Some (o, v) => LSubscriber o v | None => LNone end).

Definition stop : M lhandler unit :=
  _ ← modify (λ h, h <| h_stopped := true |>);
  _ ← lc_stop;
  _ofagent_session_termination.

(** *** Streams *)
Definition forward_packet_out (id : string) (packet_out : nat) : M lhandler unit :=
  _ ← logical_device_agent id (HPacketOut packet_out); mret tt.

Definition StreamPacketsOut (requests : list (string * nat)) : M lhandler answer :=
  _ ← forM_ (λ r, forward_packet_out r.1 r.2) requests;
  reply_ok LEmpty.

Definition send_packet_in (device_id : string) (packet_in : nat) : M lhandler unit :=
  modify (λ h, h <| h_packet_in_queue ::= (λ l, l ++ [(device_id, packet_in)]) |>).

Definition send_port_change_event (device_id : string) (port_status : nat) : M lhandler unit :=
  modify (λ h, h <| h_change_event_queue ::= (λ l, l ++ [(device_id, port_status)]) |>).

(** One round of a stream's loop: what it yields, or its end; [Again] after a
    second without anything. *)
Inductive round := Yield (x : string * nat) | Again | End_.

Definition ReceivePacketsIn : M lhandler round :=
  h ← gets id;
  if h_ofagent_is_alive h then
    match h_packet_in_queue h with
    | x :: q => _ ← modify (λ h, h <| h_packet_in_queue := q |>); mret (Yield x)
    | [] => mret (if h_stopped h then End_ else Again)
    end
  else mret End_.

Definition ReceiveChangeEvents : M lhandler round :=
  h ← gets id;
  if h_ofagent_is_alive h then
    match h_change_event_queue h with
    | x :: q => _ ← modify (λ h, h <| h_change_event_queue := q |>); mret (Yield x)
    | [] => mret (if h_stopped h then End_ else Again)
    end
  else mret End_.

Definition GetMibDeviceData (id : string) : M lhandler answer :=
  check_id id (LDefault "MibDeviceData")
    (not_found (LDefault "MibDeviceData")
      (if decide (id = "" ∨ id ∈ omci_mibs) then reply_ok (LData (node_data ("/omci_mibs/" +:+ id))) else raise KeyError)).

(** *** Methods of the xPON handler *)
Definition GetAllChannelgroupConfig (request : nat) : M lhandler answer := xpon_handler "get_all_channel_group_config" request.
Definition CreateChannelgroup (request : nat) : M lhandler answer := xpon_handler "create_channel_group" request.
Definition UpdateChannelgroup (request : nat) : M lhandler answer := xpon_handler "update_channel_group" request.
Definition DeleteChannelgroup (request : nat) : M lhandler answer := xpon_handler "delete_channel_group" request.
Definition GetAllChannelpartitionConfig (request : nat) : M lhandler answer :=
  xpon_handler "get_all_channel_partition_config" request.
Definition CreateChannelpartition (request : nat) : M lhandler answer := xpon_handler "create_channel_partition" request.
Definition UpdateChannelpartition (request : nat) : M lhandler answer := xpon_handler "update_channel_partition" request.
Definition DeleteChannelpartition (request : nat) : M lhandler answer := xpon_handler "delete_channel_partition" request.
Definition GetAllChannelpairConfig (request : nat) : M lhandler answer := xpon_handler "get_all_channel_pair_config" request.
Definition CreateChannelpair (request : nat) : M lhandler answer := xpon_handler "create_channel_pair" request.
Definition UpdateChannelpair (request : nat) : M lhandler answer := xpon_handler "update_channel_pair" request.
Definition DeleteChannelpair (request : nat) : M lhandler answer := xpon_handler "delete_channel_pair" request.
Definition GetAllChannelterminationConfig (request : nat) : M lhandler answer :=
  xpon_handler "get_all_channel_termination_config" request.
Definition CreateChanneltermination (request : nat) : M lhandler answer := xpon_handler "create_channel_termination" request.
Definition UpdateChanneltermination (request : nat) : M lhandler answer := xpon_handler "update_channel_termination" request.
Definition DeleteChanneltermination (request : nat) : M lhandler answer := xpon_handler "delete_channel_termination" request.
Definition GetAllOntaniConfig (request : nat) : M lhandler answer := xpon_handler "get_all_ont_ani_config" request.
Definition CreateOntani (request : nat) : M lhandler answer := xpon_handler "create_ont_ani" request.
Definition UpdateOntani (request : nat) : M lhandler answer := xpon_handler "update_ont_ani" request.
Definition DeleteOntani (request : nat) : M lhandler answer := xpon_handler "delete_ont_ani" request.
Definition GetAllVOntaniConfig (request : nat) : M lhandler answer := xpon_handler "get_all_v_ont_ani_config" request.
Definition CreateVOntani (request : nat) : M lhandler answer := xpon_handler "create_v_ont_ani" request.
Definition UpdateVOntani (request : nat) : M lhandler answer := xpon_handler "update_v_ont_ani" request.
Definition DeleteVOntani (request : nat) : M lhandler answer := xpon_handler "delete_v_ont_ani" request.
Definition GetAllVEnetConfig (request : nat) : M lhandler answer := xpon_handler "get_all_v_enet_config" request.
Definition CreateVEnet (request : nat) : M lhandler answer := xpon_handler "create_v_enet" request.
Definition UpdateVEnet (request : nat) : M lhandler answer := xpon_handler "update_v_enet" request.
Definition DeleteVEnet (request : nat) : M lhandler answer := xpon_handler "delete_v_enet" request.
Definition GetAllTrafficDescriptorProfileData (request : nat) : M lhandler answer :=
  xpon_handler "get_all_traffic_descriptor_profile_data" request.
Definition CreateTrafficDescriptorProfileData (request : nat) : M lhandler answer :=
  xpon_handler "create_traffic_descriptor_profile" request.
Definition UpdateTrafficDescriptorProfileData (request : nat) : M lhandler answer :=
  xpon_handler "update_traffic_descriptor_profile" request.
Definition DeleteTrafficDescriptorProfileData (request : nat) : M lhandler answer :=
  xpon_handler "delete_traffic_descriptor_profile" request.
Definition GetAllTcontsConfigData (request : nat) : M lhandler answer := xpon_handler "get_all_tconts_config_data" request.
Definition CreateTcontsConfigData (request : nat) : M lhandler answer := xpon_handler "create_tcont" request.
Definition UpdateTcontsConfigData (request : nat) : M lhandler answer := xpon_handler "update_tcont" request.
Definition DeleteTcontsConfigData (request : nat) : M lhandler answer := xpon_handler "delete_tcont" request.
Definition GetAllGemportsConfigData (request : nat) : M lhandler answer := xpon_handler "get_all_gemports_config_data" request.
Definition CreateGemportsConfigData (request : nat) : M lhandler answer := xpon_handler "create_gem_port" request.
Definition UpdateGemportsConfigData (request : nat) : M lhandler answer := xpon_handler "update_gem_port" request.
Definition DeleteGemportsConfigData (request : nat) : M lhandler answer := xpon_handler "delete_gem_port" request.

(** Methods that do nothing *)
Definition GetAllMulticastGemportsConfigData (request : nat) : M lhandler answer := reply_ok (LDefault "AllMulticastGemportsConfigData").
Definition CreateMulticastGemportsConfigData (request : nat) : M lhandler answer := reply_ok LEmpty.
Definition UpdateMulticastGemportsConfigData (request : nat) : M lhandler answer := reply_ok LEmpty.
Definition DeleteMulticastGemportsConfigData (request : nat) : M lhandler answer := reply_ok LEmpty.
Definition GetAllMulticastDistributionSetData (request : nat) : M lhandler answer := reply_ok (LDefault "AllMulticastDistributionSetData").
Definition CreateMulticastDistributionSetData (request : nat) : M lhandler answer := reply_ok LEmpty.
Definition UpdateMulticastDistributionSetData (request : nat) : M lhandler answer := reply_ok LEmpty.
Definition DeleteMulticastDistributionSetData (request : nat) : M lhandler answer := reply_ok LEmpty.
End local_handler.
