(* ===== verification/LocalHandlerProofs.v ===== *)
(** * The life of a device, and the session of the OpenFlow agent

    Whatever the rest of the core does to the devices, the local service itself
    takes each device through its admin states only as the device agent
    (DeviceAgent.v) allows, and keeps the devices' addresses apart; an OpenFlow agent that renews its subscription in time
    keeps its session. *)
From S2P Require Import Prelude OpenFlow Devices EventBus IdGeneration AdapterAgent AdapterAgentProofs AdapterAgentChildren.
From S2P Require Import Dispatcher DeviceAgent LocalHandler.
From stdpp Require Import base gmap list strings relations.
From Stdlib Require Import ZArith Lia.

Local Notation at_ h := (device_at (h_world h)).

(** ** Handlers of exceptions keep the state *)

Lemma try_state {A} (m : M lhandler A) hd s : (∀ e s, (hd e s).2 = s) → (try_except m hd s).2 = (m s).2.
Proof. intros Hh. unfold try_except. destruct (m s) as [[a|e] s']; [done|]. apply Hh. Qed.

Lemma not_found_state r m s : (not_found r m s).2 = (m s).2.
Proof. apply try_state. intros e s'. by case_decide. Qed.

Lemma except_AssertionError_state r c m s : (except_AssertionError m (LocalHandler.reply_code r c) s).2 = (m s).2.
Proof. apply try_state. intros e s'. by case_decide. Qed.

Lemma except_Exception_state m hd s : (∀ s, (hd s).2 = s) → (except_Exception m hd s).2 = (m s).2.
Proof. intros Hh. apply try_state. intros e s'. by destruct (is_Exception e). Qed.

Lemma check_id_state id r m s : (check_id id r m s).2 = s ∨ (check_id id r m s).2 = (m s).2.
Proof. unfold check_id. destruct (has_slash id); auto. Qed.

(** ** The life of a device *)

(** One step of the life of a device under an id. *)
Inductive life_step : option DeviceMsg → option DeviceMsg → Prop :=
  | life_none o : life_step o o
  | life_create (d : DeviceMsg) : d_admin_state d = AdminState.PREPROVISIONED → life_step None (Some d)
  | life_enable (d : DeviceMsg) : d_admin_state d = AdminState.PREPROVISIONED ∨ d_admin_state d = AdminState.DISABLED →
      life_step (Some d) (Some (with_admin_state AdminState.ENABLED d))
  | life_disable (d : DeviceMsg) : d_admin_state d = AdminState.ENABLED →
      life_step (Some d) (Some (with_admin_state AdminState.DISABLED d))
  | life_download (d : DeviceMsg) : d_admin_state d = AdminState.ENABLED →
      life_step (Some d) (Some (with_admin_state AdminState.DOWNLOADING_IMAGE d))
  | life_delete (d : DeviceMsg) : d_admin_state d = AdminState.DISABLED ∨ d_admin_state d = AdminState.PREPROVISIONED →
      endswith "_onu" (d_type d) = false → life_step (Some d) None.
#[local] Hint Constructors life_step : core.

(** No step is one that the device agent forbids. *)
Lemma life_step_valid (d d' : DeviceMsg) : life_step (Some d) (Some d') →
  admin_state_fsm (d_admin_state d) (d_admin_state d') ≠ Some Invalid.
Proof.
  inversion 1 as [o| |d0 [Ha|Ha]|d0 Ha|d0 Ha|]; subst; simpl; rewrite ?Ha; try done. by destruct (d_admin_state d').
Qed.

(** The invariant of the devices: stored under their ids, no two with the same
    address. *)
Record devices_ok (w : aworld) : Prop := {
  ok_keyed : devices_keyed w;
  ok_addresses : ∀ i j d d' a, device_at w i = Some d → device_at w j = Some d' →
    dm_address d = Some a → dm_address d' = Some a → i = j;
}.

(** *** What changes the devices

    [outcome] and [react] are the rest of the core, [other i] what it may do to the
    device with id [i]: it is told of the handler's writes and calls, and acts on
    its own between requests. *)
Section requests.
Context (outcome : list hevent → result nat).
Context (react : list hevent → aworld * gset string → aworld * gset string).
Context (other : string → option DeviceMsg → option DeviceMsg → Prop).
Context (Hreact : ∀ l w agents, devices_ok w →
  devices_ok (react l (w, agents)).1 ∧ ∀ i, other i (device_at w i) (device_at (react l (w, agents)).1 i)).

(** A step of a device: one of the handler, which the device agent allows, or one
    of the rest of the core *)
Definition device_step (i : string) (o o' : option DeviceMsg) : Prop :=
  (life_step o o' ∧
     ∀ d d' : DeviceMsg, o = Some d → o' = Some d' → admin_state_fsm (d_admin_state d) (d_admin_state d') ≠ Some Invalid) ∨
  other i o o'.

Lemma own_step i o o' : life_step o o' → device_step i o o'.
Proof. intros Hs. left. split; [done|]. intros d d' -> ->. by apply life_step_valid. Qed.

(** What a request may do to the devices. *)
Definition lives (h h' : lhandler) : Prop :=
  devices_ok (h_world h) → devices_ok (h_world h') ∧ ∀ i, rtc (device_step i) (at_ h i) (at_ h' i).

Lemma lives_trans h1 h2 h3 : lives h1 h2 → lives h2 h3 → lives h1 h3.
Proof.
  intros H12 H23 Hok. destruct (H12 Hok) as [Hok2 Hs]. destruct (H23 Hok2) as [Hok3 Hs']. split; [done|].
  intros i. by etrans; [apply Hs|apply Hs'].
Qed.

Lemma lives_same h h' : (∀ i, at_ h' i = at_ h i) → (t_devices (w_tree (h_world h'))).*1 = (t_devices (w_tree (h_world h))).*1 →
  lives h h'.
Proof.
  intros Hat Hkeys [[Hk Hid] Ha]. split; [|by intros i; rewrite Hat].
  split; [split; [by rewrite Hkeys|]|]; intros *; rewrite ?Hat; eauto.
Qed.

Lemma lives_refl h : lives h h.
Proof. by apply lives_same. Qed.
#[local] Hint Resolve lives_refl : core.

(** One device is replaced by one with the same id and address. *)
Lemma lives_update h h' i d d' : at_ h i = Some d → (∀ j, at_ h' j = if decide (j = i) then Some d' else at_ h j) →
  (NoDup (t_devices (w_tree (h_world h))).*1 → NoDup (t_devices (w_tree (h_world h'))).*1) →
  d_id d' = d_id d → dm_address d' = dm_address d → life_step (Some d) (Some d') → lives h h'.
Proof.
  intros Hd Hat Hkeys Hid Haddr Hstep [[Hk Hids] Ha]. split.
  2: { intros j. rewrite Hat. case_decide; [|done]. subst. rewrite Hd. by apply rtc_once, own_step. }
  assert (∀ j x, at_ h' j = Some x → ∃ y, at_ h j = Some y ∧ d_id x = d_id y ∧ dm_address x = dm_address y) as Hback.
  { intros j x. rewrite Hat. case_decide; [intros [= <-]; subst; by exists d|by eauto]. }
  split; [split; [auto|]|].
  - intros j x Hx. destruct (Hback j x Hx) as (y & Hy & -> & _). eauto.
  - intros j k x x' a Hx Hx' Hxa Hxa'. destruct (Hback j x Hx) as (y & Hy & _ & Hya), (Hback k x' Hx') as (y' & Hy' & _ & Hya').
    eapply Ha; [exact Hy|exact Hy'|by rewrite <- Hya|by rewrite <- Hya'].
Qed.

(** *** Reading and writing a device *)

Lemma get_by_id_cases id h : ∃ r, get_by_id c_devices id h = (r, h) ∧
  match r with Ok (inl d) => id ≠ "" ∧ at_ h id = Some d | _ => True end.
Proof.
  unfold get_by_id. case_decide as Hid.
  - exists (Ok (inr (de_message <$> (t_devices (w_tree (h_world h))).*2))). split; [|done].
    unfold root, zoom, mbind, M_bind. rewrite get_devices. by destruct h.
  - unfold root, zoom, mbind, M_bind. destruct (at_ h id) as [d|] eqn:Hd.
    + exists (Ok (inl d)). split; [|done]. fold (get_device id). rewrite (get_device_ok id d) by done. by destruct h.
    + exists (Err KeyError). split; [|done]. unfold device_at in Hd. apply fmap_None in Hd.
      rewrite (get_node_none c_devices id (t_devices (w_tree (h_world h)))) by done. by destruct h.
Qed.

Lemma get_device_node_cases id h : ∃ r, get_device_node id h = (r, h) ∧
  match r with Ok d => id ≠ "" ∧ at_ h id = Some d | Err _ => True end.
Proof.
  destruct (get_by_id_cases id h) as (r & Hr & Hd). unfold get_device_node. destruct r as [[d|l]|e].
  - exists (Ok d). by rewrite (bind_ok _ _ _ _ _ Hr).
  - exists (Err AttributeError). by rewrite (bind_ok _ _ _ _ _ Hr).
  - exists (Err e). by rewrite (bind_err _ _ _ _ _ Hr).
Qed.

(** A method that reads a device and goes on. *)
Lemma device_node_state id (k : DeviceMsg → M lhandler answer) h :
  (∀ d, id ≠ "" → at_ h id = Some d → lives h (k d h).2) → lives h ((get_device_node id ≫= k) h).2.
Proof.
  intros Hk. destruct (get_device_node_cases id h) as (r & Hr & Hd). destruct r as [d|e].
  - rewrite (bind_ok _ _ _ _ _ Hr). destruct Hd. by apply Hk.
  - rewrite (bind_err _ _ _ _ _ Hr). apply lives_refl.
Qed.

Lemma passert_state (b : bool) (k : unit → M lhandler answer) h :
  (b = true → lives h (k tt h).2) → lives h ((passert b ≫= k) h).2.
Proof. intros Hk. destruct b; [by apply Hk|apply lives_refl]. Qed.

(** The rest of the core reacts. *)
Lemma tell_lives e h : lives h (tell react e h).2.
Proof.
  intros Hok. unfold tell, modify. destruct (Hreact (h_events h ++ [e])%list (h_world h) (h_logical_agents h) Hok) as [Hok' Hs].
  destruct (react _ _) as [w agents]. simpl in *. split; [done|]. intros i. apply rtc_once. by right.
Qed.

Lemma tell_ok e h : (tell react e h).1 = Ok tt.
Proof. done. Qed.

(** What is done in turn *)
Lemma bind_lives {A B} (m : M lhandler A) (k : A → M lhandler B) h :
  lives h (m h).2 → (∀ a h', lives h' (k a h').2) → lives h ((m ≫= k) h).2.
Proof.
  intros Hm Hk. unfold mbind, M_bind. destruct (m h) as [[a|e] h1]; simpl in *; [|done]. by eapply lives_trans.
Qed.

(** A write that leaves [h1], and what follows *)
Lemma told_lives {B} (m : M lhandler unit) e (k : unit → M lhandler B) h h1 :
  m h = (Ok tt, h1) → lives h h1 → (∀ a h', lives h' (k a h').2) → lives h (((m ≫= λ _, tell react e) ≫= k) h).2.
Proof.
  intros Hm Hl Hk. apply bind_lives; [|done]. rewrite (bind_ok _ _ _ _ _ Hm). eapply lives_trans; [exact Hl|apply tell_lives].
Qed.

Lemma update_device_state id (d d' : DeviceMsg) (k : unit → M lhandler answer) h :
  at_ h id = Some d → d_id d' = d_id d → dm_address d' = dm_address d → life_step (Some d) (Some d') →
  (∀ a h', lives h' (k a h').2) → devices_keyed (h_world h) →
  lives h ((write_device_node react id d' ≫= k) h).2.
Proof.
  intros Hd Hid Haddr Hstep Hk Hw. pose proof (keyed_id _ Hw _ _ Hd) as Hkey. rewrite Hkey in Hid. subst id.
  pose proof Hd as Hd'. unfold device_at in Hd'. apply fmap_Some in Hd' as (e & He & ->).
  set (w1 := h_world h <| w_tree ::= set_nodes c_devices (put_node c_devices d' (t_devices (w_tree (h_world h)))) |>).
  assert (root (update_node c_devices (d_id d') d') h = (Ok tt, h <| h_world := w1 |>)) as Hu.
  { unfold root, zoom. change (d_id d') with (key_of c_devices d').
    rewrite (update_node_ok c_devices d' (t_devices (w_tree (h_world h))) e) by done. done. }
  assert (∀ j, device_at w1 j = if decide (j = d_id d') then Some d' else at_ h j) as Hat.
  { intros j. unfold device_at, w1, put_node. simpl. rewrite od_get_set. case_decide; [|done]. by rewrite He. }
  apply (told_lives _ _ _ _ _ Hu); [|done].
  eapply lives_update; [exact Hd|exact Hat| |by rewrite Hkey|done|done]. intros Hnd. by apply od_set_NoDup.
Qed.

Lemma device_agent_lives id c h : lives h (device_agent outcome react id c h).2.
Proof.
  unfold device_agent. rewrite (bind_ok _ _ _ (h_world h) h) by done. case_decide; [|apply lives_refl].
  unfold call_agent. apply bind_lives; [apply tell_lives|]. intros _ h'. apply lives_refl.
Qed.

Lemma agent_then_lives id c (k : nat → M lhandler answer) h : (∀ n h', lives h' (k n h').2) →
  lives h ((device_agent outcome react id c ≫= k) h).2.
Proof. intros Hk. apply bind_lives; [apply device_agent_lives|done]. Qed.

(** *** The requests *)

(** The requests that concern devices. *)
Inductive device_request :=
  | RCreate (request : DeviceMsg) (uuid : string)
  | REnable (id : string)
  | RDisable (id : string)
  | RReboot (id : string)
  | RDelete (id : string)
  | RPmConfigs (id : string) (config : nat)
  | RSelfTest (id : string)
  | RDownload (img : ImageDownloadMsg)
  | RDownloadStatus (img : ImageDownloadMsg)
  | RCancel (img : ImageDownloadMsg)
  | RActivate (img : ImageDownloadMsg)
  | RRevert (img : ImageDownloadMsg).

Definition serve (r : device_request) : M lhandler answer :=
  match r with
  | RCreate request uuid => CreateDevice react request uuid
  | REnable id => EnableDevice react id
  | RDisable id => DisableDevice react id
  | RReboot id => RebootDevice outcome react id
  | RDelete id => DeleteDevice react id
  | RPmConfigs id config => UpdateDevicePmConfigs outcome react id config
  | RSelfTest id => SelfTest outcome react id
  | RDownload img => DownloadImage outcome react img
  | RDownloadStatus img => GetImageDownloadStatus outcome react img
  | RCancel img => CancelImageDownload outcome react img
  | RActivate img => ActivateImageUpdate outcome react img
  | RRevert img => RevertImageUpdate outcome react img
  end.

Lemma check_id_lives id r m h : (has_slash id = false → lives h (m h).2) → lives h (check_id id r m h).2.
Proof. intros Hm. unfold check_id. destruct (has_slash id); [apply lives_refl|auto]. Qed.

Lemma enable_lives id h : devices_keyed (h_world h) → lives h (EnableDevice react id h).2.
Proof.
  intros Hw. apply check_id_lives. intros _. rewrite not_found_state, except_AssertionError_state.
  apply device_node_state. intros d _ Hd. apply passert_state. rewrite bool_decide_eq_true. intros Ha.
  eapply update_device_state; [exact Hd|done|done|by constructor|intros; apply lives_refl|done].
Qed.

Lemma disable_lives id h : devices_keyed (h_world h) → lives h (DisableDevice react id h).2.
Proof.
  intros Hw. apply check_id_lives. intros _. rewrite except_Exception_state, not_found_state, except_AssertionError_state by done.
  apply device_node_state. intros d _ Hd. apply passert_state. rewrite bool_decide_eq_true. intros Ha.
  eapply update_device_state; [exact Hd|done|done|by constructor|intros; apply lives_refl|done].
Qed.

Lemma drop_device_ok h id d : at_ h id = Some d → ∃ w1, root (drop_node c_devices id) h = (Ok tt, h <| h_world := w1 |>) ∧
  (∀ j, device_at w1 j = if decide (j = id) then None else at_ h j) ∧
  (NoDup (t_devices (w_tree (h_world h))).*1 → NoDup (t_devices (w_tree w1)).*1).
Proof.
  intros Hd. unfold device_at in Hd. apply fmap_Some in Hd as (e & He & ->). eexists. split_and!.
  - unfold root, zoom, drop_node, get_nodes, from_some, gets, mbind, M_bind. simpl. rewrite He. simpl. reflexivity.
  - intros j. unfold device_at. simpl. rewrite od_get_del. by case_decide.
  - intros Hnd. simpl. by apply od_del_NoDup.
Qed.

Lemma delete_lives id h : lives h (DeleteDevice react id h).2.
Proof.
  apply check_id_lives. intros _. rewrite not_found_state, except_AssertionError_state.
  apply device_node_state. intros d _ Hd. apply passert_state. rewrite bool_decide_eq_true. intros Ha.
  apply passert_state. rewrite negb_true_iff. intros Ht.
  destruct (drop_device_ok h id d Hd) as (w1 & Hr & Hat & Hnd). apply (told_lives _ _ _ _ _ Hr); [|intros; apply lives_refl].
  intros [[Hk Hid] Hadr]. split.
  2: { intros j. simpl. rewrite Hat. case_decide; [|done]. subst. rewrite Hd. apply rtc_once, own_step. auto. }
  assert (∀ j x, device_at w1 j = Some x → at_ h j = Some x) as Hback by (intros j x; rewrite Hat; by case_decide).
  split; [split; [by apply Hnd|]|]; simpl; intros *; eauto.
Qed.

(** A new device with an address that no device has. *)
Lemma add_device_lives (m : DeviceMsg) a h : d_admin_state m = AdminState.PREPROVISIONED → dm_address m = Some a →
  address_free a (de_message <$> (t_devices (w_tree (h_world h))).*2) = true →
  ∃ r h1, root (add_node c_devices m) h = (r, h1) ∧ lives h h1 ∧ (r = Ok tt ∨ h1 = h).
Proof.
  intros Hst Ha Hfree. unfold root, zoom, add_node, get_nodes, from_some, gets, mbind, M_bind. simpl.
  destruct (od_mem (d_id m) (t_devices (w_tree (h_world h)))) eqn:Hm.
  { eexists _, _. split; [reflexivity|]. simpl. destruct h. split; [apply lives_refl|by right]. }
  simpl. unfold od_mem in Hm. destruct (od_get (d_id m) (t_devices (w_tree (h_world h)))) eqn:Hg; [done|].
  assert (d_id m ∉ (t_devices (w_tree (h_world h))).*1) as Hni by (by apply od_get_None).
  rewrite <- (od_set_new (d_id m) (DeviceEntry m [] [])) by done.
  eexists _, _. split; [reflexivity|]. split; [|by left]. match goal with |- lives h ?x => set (h' := x) end.
  assert (∀ j, at_ h' j = if decide (j = d_id m) then Some m else at_ h j) as Hat.
  { intros j. unfold device_at, h'. simpl. rewrite od_get_set. by case_decide. }
  intros [Hdk Hadr]. pose proof Hdk as [Hk Hid]. split.
  - split; [split|].
    + unfold h'. simpl. by apply od_set_NoDup.
    + intros j d. rewrite Hat. case_decide; [intros [= <-]; done|auto].
    + assert (∀ j d, at_ h j = Some d → dm_address d ≠ Some a) as Hfresh.
      { intros j d Hd Hda. unfold address_free in Hfree. rewrite forallb_forall in Hfree.
        specialize (Hfree d). rewrite bool_decide_eq_true in Hfree. apply Hfree; [|done].
        apply list_elem_of_In, elem_of_devices; [done|]. by rewrite (Hid _ _ Hd). }
      intros j k d d' b. rewrite !Hat. repeat case_decide; subst; intros H1 H2 H3 H4; simplify_eq; try done; eauto;
        exfalso; eapply Hfresh; first [exact H1|exact H2|idtac]; simpl in *; congruence.
  - intros j. rewrite Hat. case_decide; [|done]. subst. unfold device_at at 1. rewrite Hg. apply rtc_once, own_step. by constructor.
Qed.

Lemma create_lives request uuid h : lives h (CreateDevice react request uuid h).2.
Proof.
  unfold CreateDevice.
  assert (root (get_list c_device_types) h = (Ok (t_device_types (w_tree (h_world h))).*2, h)) as Ht.
  { unfold root, zoom. rewrite (get_list_ok c_device_types (t_device_types (w_tree (h_world h)))) by done.
    cbn [message c_device_types]. rewrite list_fmap_id. by destruct h. }
  assert (root (get_list c_devices) h = (Ok (de_message <$> (t_devices (w_tree (h_world h))).*2), h)) as Hdv.
  { unfold root, zoom. rewrite get_devices. by destruct h. }
  rewrite (bind_ok _ _ _ _ _ Ht), (bind_ok _ _ _ _ _ Hdv).
  destruct (last _) as [dt|]; [|apply lives_refl]. destruct (dm_address request) as [a|] eqn:Ha; [|apply lives_refl].
  match goal with |- context [if ?b then _ else _] => destruct b eqn:Hok end; [|apply lives_refl].
  rewrite !andb_true_iff in Hok. destruct Hok as [_ Hfree].
  rewrite (bind_ok (gets _) _ _ (w_core_store_id (h_world h)) h) by done.
  unfold lift at 1. unfold mbind at 1, M_bind at 1. destruct (create_cluster_device_id _ uuid) as [i|e]; [|apply lives_refl].
  match goal with |- context [add_device_node react ?x] => set (m := x) end. unfold add_device_node.
  destruct (add_device_lives m a h eq_refl eq_refl Hfree) as (r & h1 & Hr & Hl & [->|Hsame]).
  - apply (told_lives _ _ _ _ _ Hr Hl). intros; apply lives_refl.
  - subst h1. destruct r as [[]|e]; [apply (told_lives _ _ _ _ _ Hr Hl); intros; apply lives_refl|].
    by rewrite (bind_err _ _ _ _ _ (bind_err _ _ _ _ _ Hr)).
Qed.

Lemma add_image_same id img h : let h1 := (root (add_node (c_image_downloads id) img) h).2 in
  (∀ i, at_ h1 i = at_ h i) ∧ (t_devices (w_tree (h_world h1))).*1 = (t_devices (w_tree (h_world h))).*1.
Proof.
  unfold root, zoom, add_node, get_nodes, from_some, gets, modify, raise, mbind, M_bind. simpl.
  destruct (od_get id (t_devices (w_tree (h_world h)))) as [e|] eqn:He; simpl; [|done].
  destruct (od_mem _ _); simpl; [done|]. split.
  - intros i. unfold device_at. simpl. rewrite od_get_alter. case_decide; [subst; by rewrite He|done].
  - unfold update_field. simpl. by rewrite od_alter_keys.
Qed.

Lemma download_lives img h : devices_keyed (h_world h) → lives h (DownloadImage outcome react img h).2.
Proof.
  intros Hw. apply check_id_lives. intros _. rewrite except_Exception_state, not_found_state, except_AssertionError_state by done.
  set (id := img_id img). unfold mbind at 1, M_bind at 1.
  destruct (get_by_id_cases id h) as (r & -> & Hr). destruct r as [r|e]; [|apply lives_refl].
  destruct (add_image_same id img h) as [Hat Hkeys].
  unfold mbind at 1, M_bind at 1. destruct (root (add_node (c_image_downloads id) img) h) as [[[]|e] h1]; simpl in Hat, Hkeys;
    [|by apply lives_same].
  eapply lives_trans; [by apply lives_same|]. destruct r as [d|l]; [|apply lives_refl]. destruct Hr as [_ Hr].
  rewrite (bind_ok (the_node (inl d)) _ h1 d h1) by done. apply passert_state. rewrite bool_decide_eq_true. intros Ha.
  intros Hok. eapply update_device_state; [by rewrite Hat|done|done|by constructor| |by destruct Hok|done].
  intros _ h'. apply agent_then_lives. intros; apply lives_refl.
Qed.

Lemma root_same {A} (m : M aworld A) h : (∀ w, (m w).2 = w) → (root m h).2 = h.
Proof. intros Hm. unfold root, zoom. specialize (Hm (h_world h)). destruct (m (h_world h)) as [r w]. simpl in *. subst. by destruct h. Qed.

Lemma get_list_same {V} (c : container string V) w : (get_list c w).2 = w.
Proof. unfold get_list, get_nodes, from_some, gets, mbind, M_bind. simpl. by destruct (nodes c (w_tree w)). Qed.

Lemma get_node_same {V} (c : container string V) k w : (get_node c k w).2 = w.
Proof.
  unfold get_node, get_nodes, from_some, gets, mbind, M_bind. simpl. destruct (nodes c (w_tree w)) as [d|]; [|done].
  simpl. by destruct (od_get k d).
Qed.

Lemma get_image_same id name h : (get_image id name h).2 = h.
Proof.
  unfold get_image, get_named. case_decide.
  - pose proof (root_same (get_list (c_image_downloads id)) h (get_list_same _)) as Hs. unfold mbind, M_bind.
    by destruct (root _ h) as [[l|e] h'].
  - destruct (partition_slash name) as [k rest].
    pose proof (root_same (get_node (c_image_downloads id) k) h (get_node_same _ k)) as Hs. unfold mbind, M_bind.
    destruct (root _ h) as [[l|e] h']; [|done]. by case_decide.
Qed.

Lemma status_lives img h : lives h (GetImageDownloadStatus outcome react img h).2.
Proof.
  apply check_id_lives. intros _. rewrite except_Exception_state, not_found_state by done. apply device_node_state. intros d _ _.
  rewrite (bind_ok _ _ _ (h_world h) h) by done. case_decide; [|apply lives_refl]. rewrite (bind_ok _ _ _ tt h) by done.
  apply bind_lives; [rewrite get_image_same; apply lives_refl|]. intros r h1.
  apply bind_lives; [unfold call_agent; apply bind_lives; [apply tell_lives|intros; apply lives_refl]|]. intros _ h2.
  apply bind_lives; [|intros; apply lives_refl].
  rewrite try_state, get_image_same; [apply lives_refl|]. intros e h3. by destruct (is_Exception e).
Qed.

Lemma image_call_lives s c img h : lives h (image_call outcome react s c img h).2.
Proof.
  apply check_id_lives. intros _. rewrite not_found_state. apply device_node_state. intros d _ _.
  apply passert_state. intros _. apply agent_then_lives. intros; apply lives_refl.
Qed.

Lemma serve_lives r h : devices_keyed (h_world h) → lives h (serve r h).2.
Proof.
  intros Hw. destruct r; simpl; auto using create_lives, enable_lives, disable_lives, delete_lives, download_lives, status_lives.
  - apply check_id_lives. intros _. rewrite not_found_state. apply device_node_state. intros d _ _.
    apply passert_state. intros _. apply agent_then_lives. intros; apply lives_refl.
  - apply check_id_lives. intros _. rewrite not_found_state.
    destruct (get_by_id_cases id h) as (x & Hx & _). destruct x as [x|e].
    + rewrite (bind_ok _ _ _ _ _ Hx). apply agent_then_lives. intros; apply lives_refl.
    + rewrite (bind_err _ _ _ _ _ Hx). apply lives_refl.
  - apply check_id_lives. intros _. rewrite not_found_state. apply device_node_state. intros d _ _.
    apply agent_then_lives. intros; apply lives_refl.
  - apply image_call_lives.
  - apply image_call_lives.
  - apply image_call_lives.
Qed.

(** The requests are served in turn, whatever they return; in between the rest of
    the core acts on its own. *)
Inductive served : lhandler → list device_request → lhandler → Prop :=
  | served_nil h : served h [] h
  | served_cons h r l h' : served (serve r h).2 l h' → served h (r :: l) h'
  | served_other h h1 l h' : (devices_ok (h_world h) → devices_ok (h_world h1)) → (∀ i, other i (at_ h i) (at_ h1 i)) →
      served h1 l h' → served h l h'.

(** C11 The requests to the local service never take a device from a state they are
    not meant for: whatever the callbacks, agents and adapters do to the devices
    ([other]) when the handler writes or calls, or on their own, each change that the
    handler itself makes to a device is to create it preprovisioned, to enable it
    when preprovisioned or disabled, to disable it or send it to download when
    enabled, or to delete it when disabled or preprovisioned and no ONU, and none is a
    transition that the device agent forbids.  If the rest of the core keeps the
    devices under their ids and their addresses apart, so do the requests. *)
Theorem requests_keep_lifecycle h l h' (Hok : devices_ok (h_world h)) (Hrun : served h l h') :
  devices_ok (h_world h') ∧ ∀ i, rtc (device_step i) (at_ h i) (at_ h' i).
Proof.
  induction Hrun as [h|h r l h' Hrun IH|h h1 l h' H1 Hs Hrun IH]; [done| |].
  - destruct (serve_lives r h (ok_keyed _ Hok) Hok) as [Hok1 Hs]. destruct (IH Hok1) as [H2 H3].
    split; [done|]. intros i. by etrans; [apply Hs|apply H3].
  - destruct (IH (H1 Hok)) as [H2 H3]. split; [done|]. intros i. eapply rtc_l; [right; apply Hs|apply H3].
Qed.
End requests.

(** ** The session of the OpenFlow agent *)
Section session.
Context (instance_id : string).

Inductive session_event :=
  | ESubscribe (ofagent_id : string)
  | ETick
  | EStop.

Definition session_step (e : session_event) : M lhandler unit :=
  match e with
  | ESubscribe o => _ ← Subscribe instance_id o; mret tt
  | ETick => heartbeat_tick
  | EStop => LocalHandler.stop
  end.

(** Events in turn; an exception of one does not keep the reactor from the
    next. *)
Fixpoint session_run (l : list session_event) (h : lhandler) : lhandler :=
  match l with [] => h | e :: l => session_run l (session_step e h).2 end.

(** In [l], agent [o] subscribes again before [n] heartbeats, and then every
    four; nobody stops the handler. *)
Fixpoint renews (o : string) (n : nat) (l : list session_event) : Prop :=
  match l with
  | [] => True
  | ESubscribe o' :: l => renews o (if decide (o' = o) then 4 else n) l
  | ETick :: l => match n with O => False | S n => renews o n l end
  | EStop :: _ => False
  end.

(** Agent [o] has the session. *)
Definition in_session (o v : string) (h : lhandler) : Prop :=
  h_subscriber h = Some (o, v) ∧ h_heartbeat_lc h = Some true ∧ h_ofagent_is_alive h = true.

Definition patience (h : lhandler) : nat := Z.to_nat (4 - h_heartbeat_count h).

Lemma subscribe_again o v h : h_subscriber h = Some (o, v) →
  Subscribe instance_id o h = (Ok (LSubscriber o v, None), h <| h_heartbeat_count := 0%Z |>).
Proof.
  intros Hs. unfold Subscribe, gets, mbind, M_bind. rewrite Hs, decide_True by done. simpl. by rewrite Hs.
Qed.

Lemma subscribe_other o v o' h : h_subscriber h = Some (o, v) → o' ≠ o →
  Subscribe instance_id o' h = (Ok (LSubscriber o v, None), h).
Proof.
  intros Hs Hne. unfold Subscribe, gets, mbind, M_bind. rewrite Hs, decide_False by congruence. simpl. by rewrite Hs.
Qed.

Lemma subscribe_first o h : h_subscriber h = None →
  Subscribe instance_id o h =
    (Ok (LSubscriber o instance_id, None),
     h <| h_subscriber := Some (o, instance_id) |> <| h_heartbeat_lc := Some true |> <| h_heartbeat_count := 1%Z |>).
Proof. intros Hs. unfold Subscribe, gets, mbind, M_bind. rewrite Hs. simpl. by destruct h. Qed.

Lemma tick_patient o v h n : in_session o v h → patience h = S n →
  ∃ h', heartbeat_tick h = (Ok tt, h') ∧ in_session o v h' ∧ patience h' = n ∧ h_stopped h' = h_stopped h.
Proof.
  intros (Hs & Hlc & Hal) Hp. unfold patience in Hp. eexists. split.
  - unfold heartbeat_tick, _ofagent_session_heartbeat, gets, mbind, M_bind. rewrite Hlc.
    unfold ofagent_heartbeat_max_count. rewrite decide_False by lia. reflexivity.
  - split_and!; [done| |done]. unfold patience. simpl. lia.
Qed.

(** C29 An OpenFlow agent that has the session keeps it, and its packet stream
    stays open, as long as it subscribes again before the fifth heartbeat after
    its last subscription, whatever other agents ask for in between; those are
    told who has the session. *)
Theorem session_kept o v h l (Hin : in_session o v h) (Hst : h_stopped h = false) (Hrenew : renews o (patience h) l) :
  in_session o v (session_run l h) ∧
  (∀ o', o' ≠ o → Subscribe instance_id o' (session_run l h) = (Ok (LSubscriber o v, None), session_run l h)) ∧
  (ReceivePacketsIn (session_run l h)).1 ≠ Ok End_.
Proof.
  revert h Hin Hst Hrenew. induction l as [|e l IH]; intros h Hin Hst Hrenew; cbn [session_run].
  - split_and!; [done|intros o' Ho; exact (subscribe_other o v o' h (proj1 Hin) Ho)|]. destruct Hin as (Hs & Hlc & Hal).
    unfold ReceivePacketsIn, gets, mbind, M_bind. simpl. rewrite Hal. destruct (h_packet_in_queue h); [|done].
    by rewrite Hst.
  - destruct e as [o'| |]; cbn [renews session_step] in *; [| |done].
    + destruct (decide (o' = o)) as [->|Hne].
      * rewrite (bind_ok _ _ _ _ _ (subscribe_again o v h (proj1 Hin))). by apply IH.
      * rewrite (bind_ok _ _ _ _ _ (subscribe_other o v o' h (proj1 Hin) Hne)). by apply IH.
    + destruct (patience h) as [|n] eqn:Hp; [done|]. destruct (tick_patient o v h n Hin Hp) as (h' & -> & Hin' & <- & Hs').
      apply IH; [done|simpl; by rewrite Hs'|done].
Qed.

(** The fifth heartbeat without a subscription ends the session. *)
Lemma session_ends o v h : in_session o v h → patience h = 0 →
  let h' := (heartbeat_tick h).2 in
  h_subscriber h' = None ∧ h_heartbeat_lc h' = Some false ∧ h_ofagent_is_alive h' = false.
Proof.
  intros (Hs & Hlc & Hal) Hp. unfold patience in Hp.
  unfold heartbeat_tick, _ofagent_session_heartbeat, gets, mbind, M_bind. rewrite Hlc.
  unfold ofagent_heartbeat_max_count. rewrite decide_True by lia.
  unfold _ofagent_session_termination, lc_stop, gets, mbind, M_bind. by rewrite Hlc.
Qed.

(** Once the flag is false, nothing sets it again. *)
Lemma not_alive_step e h : h_ofagent_is_alive h = false → h_ofagent_is_alive (session_step e h).2 = false.
Proof.
  intros Ha. destruct e as [o| |]; simpl.
  - destruct (h_subscriber h) as [[o' v]|] eqn:Hs.
    + destruct (decide (o = o')) as [->|Hne].
      * by rewrite (bind_ok _ _ _ _ _ (subscribe_again o' v h Hs)).
      * by rewrite (bind_ok _ _ _ _ _ (subscribe_other o' v o h Hs Hne)).
    + by rewrite (bind_ok _ _ _ _ _ (subscribe_first o h Hs)).
  - unfold heartbeat_tick, _ofagent_session_heartbeat, gets, mbind, M_bind. destruct (h_heartbeat_lc h) as [[]|] eqn:Hlc; try done.
    case_decide; [|done]. unfold _ofagent_session_termination, lc_stop, gets, mbind, M_bind. by rewrite Hlc.
  - unfold LocalHandler.stop, _ofagent_session_termination, lc_stop, gets, modify, mbind, M_bind.
    destruct h as [? ? ? ? ? ? ? ? [[]|] ? ?]; simpl in *; done.
Qed.

(** After a session was ended by missing heartbeats, an agent that subscribes
    gets the session, but the streams of packets and of port changes end at once,
    for ever: the flag that they test is never set again. *)
Theorem streams_never_resume h l (Hdead : h_ofagent_is_alive h = false) :
  (ReceivePacketsIn (session_run l h)).1 = Ok End_ ∧ (ReceiveChangeEvents (session_run l h)).1 = Ok End_.
Proof.
  revert h Hdead. induction l as [|e l IH]; intros h Hdead; cbn [session_run].
  - unfold ReceivePacketsIn, ReceiveChangeEvents, gets, mbind, M_bind. simpl. by rewrite Hdead.
  - by apply IH, not_alive_step.
Qed.

(** Stopping a handler that an agent has subscribed to raises: the looping call
    is stopped twice. *)
Theorem stop_raises h b (Hlc : h_heartbeat_lc h = Some b) : (LocalHandler.stop h).1 = Err AssertionError.
Proof.
  unfold LocalHandler.stop, _ofagent_session_termination, lc_stop, gets, modify, mbind, M_bind.
  destruct h as [? ? ? ? ? ? ? ? lc ? ?]. simpl in *. subst lc. by destruct b.
Qed.
End session.
