(* ===== verification/LocalHandlerSample.v ===== *)
(** * The local handler on the sample network

    The theorems of LocalHandlerProofs.v applied to the network of
    AdapterAgentSample.v, and the handler's defects evaluated. *)
From S2P Require Import Prelude Devices EventBus AdapterAgent AdapterAgentProofs AdapterAgentChildren AdapterAgentSample.
From S2P Require Import Dispatcher DeviceAgent LocalHandler LocalHandlerProofs.
From stdpp Require Import base gmap list strings relations.
From Stdlib Require Import ZArith.

Definition agents_answer (l : list hevent) : result nat := Ok 0.

(** The rest of the core: a new device gets an agent, and when a device is removed its
    adapter deletes its children. *)
Definition children_of (id : string) (w : aworld) : list string :=
  (filter (λ p, d_parent_id (de_message p.2) = id) (t_devices (w_tree w))).*1.

Definition core_reacts (l : list hevent) (s : aworld * gset string) : aworld * gset string :=
  let '(w, agents) := s in
  match last l with
  | Some (HWrite id (Some _)) => (w <| w_device_agents ::= λ a, {[id]} ∪ a |>, agents)
  | Some (HWrite id None) =>
      (w <| w_tree ::= (λ t, t <| t_devices ::= λ ds, foldl (λ ds k, od_del k ds) ds (children_of id w) |>) |>, agents)
  | _ => (w, agents)
  end.

(** What that does to a device: nothing, or it is deleted *)
Definition deletes (i : string) (o o' : option DeviceMsg) : Prop := o' = o ∨ o' = None.

Lemma del_all_get {V} l (ds : odict string V) i :
  od_get i (foldl (λ ds k, od_del k ds) ds l) = od_get i ds ∨ od_get i (foldl (λ ds k, od_del k ds) ds l) = None.
Proof.
  revert ds. induction l as [|k l IH]; intros ds; [by left|]. cbn [foldl]. destruct (IH (od_del k ds)) as [->| ->]; [|by right].
  rewrite od_get_del. case_decide; [by right|by left].
Qed.

Lemma del_all_NoDup {V} l (ds : odict string V) : NoDup ds.*1 → NoDup (foldl (λ ds k, od_del k ds) ds l).*1.
Proof. revert ds. induction l as [|k l IH]; intros ds Hnd; [done|]. cbn [foldl]. by apply IH, od_del_NoDup. Qed.

Lemma core_reacts_ok l w agents : devices_ok w →
  devices_ok (core_reacts l (w, agents)).1 ∧ ∀ i, deletes i (device_at w i) (device_at (core_reacts l (w, agents)).1 i).
Proof.
  intros Hok. unfold core_reacts. destruct (last l) as [[id c|id [d|]]|]; simpl.
  - split; [done|]. by left.
  - split; [destruct Hok as [[] ?]; by repeat split|]. by left.
  - set (w1 := w <| w_tree ::= _ |>). assert (∀ i, deletes i (device_at w i) (device_at w1 i)) as Hd.
    { intros i. unfold device_at, w1, deletes. simpl.
      destruct (del_all_get (children_of id w) (t_devices (w_tree w)) i) as [->| ->]; auto. }
    split; [|done]. destruct Hok as [[Hk Hid] Ha].
    assert (∀ i d, device_at w1 i = Some d → device_at w i = Some d) as Hback.
    { intros i d Hi. destruct (Hd i) as [Hs|Hs]; rewrite Hs in Hi; [done|discriminate]. }
    split; [split; [by apply del_all_NoDup|]|]; eauto.
  - split; [done|]. by left.
Qed.

Definition olt_type : DeviceTypeMsg := MkDeviceTypeMsg "ponsim_olt" "" [] "ponsim".

Definition handler0 : lhandler :=
  new_handler (sample <| w_tree ::= (λ t, t <| t_device_types := [("ponsim_olt", olt_type)] |>) |>) ∅.

Lemma handler0_devices i : device_at (h_world handler0) i = device_at sample i.
Proof. reflexivity. Qed.

Lemma handler0_ok : devices_ok (h_world handler0).
Proof.
  split; [destruct sample_keyed; by split|]. intros i j d d' a. rewrite !handler0_devices. unfold device_at.
  rewrite sample_devices. simpl.
  repeat case_decide; intros Hx Hy Hz; try discriminate Hx; injection Hx as <-; discriminate Hz.
Qed.

Definition new_olt : DeviceMsg :=
  MkDeviceMsg (MkDevice "" "ponsim_olt" true "" 0 "" 0 AdminState.UNKNOWN OperStatus.UNKNOWN "" ConnectStatus.UNKNOWN)
    "" "" (MkProxyAddress "" 0 0 "" 0 0) (Some (HostAndPort "172.17.0.1:50060")) 0.

Definition sample_requests : list device_request :=
  [RCreate new_olt "aabbccddeeff00112233"; REnable "0001aabbccddeeff"; RDisable "0001aabbccddeeff"; RDisable "olt1"; RDelete "olt1"].

Fixpoint serve_all (l : list device_request) (h : lhandler) : lhandler :=
  match l with [] => h | r :: l => serve_all l (serve agents_answer core_reacts r h).2 end.

Lemma serve_all_served l h : served agents_answer core_reacts deletes h l (serve_all l h).
Proof. revert h. induction l as [|r l IH]; intros h; [constructor|]. constructor. apply IH. Qed.

(** The witness: an OLT is created, enabled and disabled, another one disabled and
    deleted; the rest of the core deletes the ONUs of that one. *)
Lemma requests_keep_lifecycle_witness : let h' := serve_all sample_requests handler0 in
  devices_ok (h_world h') ∧
  ∀ i, rtc (device_step deletes i) (device_at (h_world handler0) i) (device_at (h_world h') i).
Proof.
  exact (requests_keep_lifecycle agents_answer core_reacts deletes core_reacts_ok handler0 sample_requests _ handler0_ok
    (serve_all_served sample_requests handler0)).
Defined.

Example created_and_disabled : let h' := serve_all sample_requests handler0 in
  (λ d : DeviceMsg, (d_admin_state d, d_adapter d)) <$> device_at (h_world h') "0001aabbccddeeff" =
    Some (AdminState.DISABLED, "ponsim") ∧
  (t_devices (w_tree (h_world h'))).*1 = ["0001aabbccddeeff"].
Proof. vm_compute. split; reflexivity. Qed.

(** A second device with the same address is refused. *)
Example address_taken : let h' := serve_all sample_requests handler0 in
  (serve agents_answer core_reacts (RCreate new_olt "00112233445566778899") h').1 = Ok (LDefault "Device", Some INVALID_ARGUMENT).
Proof. vm_compute. reflexivity. Qed.

Definition subscribed : lhandler := (Subscribe "voltha1" "ofagent1" handler0).2.

(** The witness: an agent that renews its subscription every four heartbeats. *)
Lemma session_kept_witness : let l := [ETick; ETick; ETick; ESubscribe "ofagent2"; ESubscribe "ofagent1"; ETick; ETick; ETick; ETick] in
  in_session "ofagent1" "voltha1" (session_run "voltha1" l subscribed) ∧
  (∀ o', o' ≠ "ofagent1" → Subscribe "voltha1" o' (session_run "voltha1" l subscribed) =
     (Ok (LSubscriber "ofagent1" "voltha1", None), session_run "voltha1" l subscribed)) ∧
  (ReceivePacketsIn (session_run "voltha1" l subscribed)).1 ≠ Ok End_.
Proof.
  intros l. apply (session_kept "voltha1" "ofagent1" "voltha1" subscribed l); [|reflexivity|vm_compute; exact I].
  split_and!; reflexivity.
Defined.

(** The witness: five heartbeats, then a new subscription. *)
Lemma streams_never_resume_witness :
  let h := session_run "voltha1" [ETick; ETick; ETick; ETick] subscribed in
  h_ofagent_is_alive h = false ∧
  (ReceivePacketsIn (session_run "voltha1" [ESubscribe "ofagent1"] h)).1 = Ok End_ ∧
  (ReceiveChangeEvents (session_run "voltha1" [ESubscribe "ofagent1"] h)).1 = Ok End_.
Proof. split; [reflexivity|]. apply (streams_never_resume "voltha1"). reflexivity. Defined.

(** A download for a device that is not enabled is refused after the image was
    stored; once the device is enabled, the same download fails on it. *)
Example download_refused_for_ever :
  let img := MkImageDownloadMsg "0001aabbccddeeff" "v1.2" in
  let h := serve_all sample_requests handler0 in
  let r1 := serve agents_answer core_reacts (RDownload img) h in
  let r2 := serve agents_answer core_reacts (RDownload img) (serve agents_answer core_reacts (REnable "0001aabbccddeeff") r1.2).2 in
  r1.1 = Ok (LOperationResp OPERATION_UNSUPPORTED, Some INVALID_ARGUMENT) ∧
  r2.1 = Ok (LOperationResp OPERATION_FAILURE, Some NOT_FOUND) ∧ last (h_events r2.2) = Some (HWrite "0001aabbccddeeff" (device_at (h_world r2.2) "0001aabbccddeeff")).
Proof. vm_compute. split_and!; reflexivity. Qed.

(** A failed check of the admin state escapes. *)
Example assertions_escape :
  let img := MkImageDownloadMsg "onu1" "v1.2" in
  (serve agents_answer core_reacts (RCancel img) handler0).1 = Err AssertionError ∧
  (serve agents_answer core_reacts (RActivate (MkImageDownloadMsg "0001aabbccddeeff" "v")) (serve_all sample_requests handler0)).1 = Err AssertionError.
Proof. vm_compute. split; reflexivity. Qed.

(** Without an id, all devices are returned as one. *)
Example empty_id : (GetDevice "" handler0).1 = Ok (LDevices [olt1; onu1; onu2], None) ∧
  (EnableDevice core_reacts "" handler0).1 = Err AttributeError.
Proof. vm_compute. split; reflexivity. Qed.
